(* ===== verification/_CoqProject ===== *)
-Q . S2P
Prelude.v
Bytes.v
Mem.v
StringC.v
Param.v
Locks.v
FsState.v
Bio.v
Dll.v
BioSpec.v
Cache.v
Log.v
LogSpec.v
Crash.v
Txn.v
LogSteps.v
Fs.v
FsSpec.v
InodeSpec.v
FileSpec.v
WriteSpec.v
PathSpec.v
Namei.v
FsDemo.v
Mkfs.v
MkfsBuild.v
MkfsMain.v
MkfsImage.v
MkfsKernel.v
MkfsDemo.v
Pipe.v
PipeSteps.v
Mmu.v
Kalloc.v
Vm.v
VmSpec.v
UserMem.v
Mp.v
Spinlock.v
ProcTab.v
ProcSpec.v
Kernel.v
File.v
Sysfile.v
Proc.v
Exec.v
Syscall.v
SysSpec.v
KernelDemo.v
Boot.v
Irq.v
Lapic.v
Segs.v
Asm.v
AsmProc.v
Start.v
Main.v
Balance.v
KernelFaults.v
Grep.v
Sh.v
ShPrint.v
Ulib.v
User.v
UserProgs.v
ShRun.v
Assignment1.v
Console.v
ConsoleRefine.v
Kbd.v
Cprintf.v
Umalloc.v
UmallocInv.v
UmallocSafe.v
UmallocClient.v
Ide.v
IdeRefine.v
IdeMem.v
