(* ===== verification/Prelude.v ===== *)
(** * A verification of the xv6 kernel of "Assignment 4/xv6-Team-Assignment"

    The program is a teaching kernel for the x86, xv6, with two additions of its authors: a
    system call that reports how often each system call was made ([sys_sysnumcall] in
    sysproc.c and the counters in syscall.c), and small files, whose bytes live in the inode
    (the type T_SFILE in fs.c and sysfile.c). The shell of "Assignment 1" is a separate program
    for Linux.

    ** Parts of the program, and the files that model them

    The parts form layers, each of which calls the ones before it.

    - string.c, on byte-addressed memory: Bytes.v, Mem.v (memory, little-endian words, the
      string instructions of x86.h) and StringC.v.
    - Locks: Locks.v has spin locks and sleep locks as the code that uses them sees them
      (taking a spin lock that is held by this CPU's own code is a deadlock, taking a sleep
      lock that is held puts the process to sleep). Spinlock.v models spinlock.c itself, one
      memory access at a time, on several CPUs.
    - The disk and the buffer cache (memide.c, bio.c): FsState.v (the structs), Bio.v (the
      code), Dll.v, BioSpec.v and Cache.v (what it guarantees).
    - The write-ahead log (log.c): Log.v; LogSpec.v, Crash.v, Txn.v and LogSteps.v.
    - The file system (fs.c): Fs.v; FsSpec.v (blocks), InodeSpec.v (inodes and small files),
      FileSpec.v (reading files and directories), WriteSpec.v (writing), PathSpec.v (the
      elements of path names), Namei.v (the way of a path through the directories), and FsDemo.v,
      a small file system on which the theorems are instantiated.
    - The builder of the file system (mkfs.c): Mkfs.v; MkfsBuild.v, MkfsMain.v and
      MkfsImage.v (the image that it writes), MkfsKernel.v (what the kernel reads from it) and
      MkfsDemo.v.
    - The IDE disk (ide.c): Ide.v (the code, the protocol of the disk and the driver's
      invariant), IdeRefine.v (the queue that it implements) and IdeMem.v (memide.c serves the
      same requests).
    - Pipes (pipe.c): Pipe.v and PipeSteps.v.
    - Memory: Mmu.v (mmu.h, memlayout.h), Kalloc.v (kalloc.c), Vm.v (vm.c), VmSpec.v and
      UserMem.v (what a page table means, and the memory that a process sees through it).
    - Processes: ProcTab.v (proc.c with ptable.lock held), ProcSpec.v.
    - The kernel as a whole: Kernel.v (its state), File.v (file.c and the rest of pipe.c),
      Sysfile.v (the arguments of system calls in syscall.c, and sysfile.c), Proc.v (proc.c),
      Exec.v (exec.c), Syscall.v (syscall.c, sysproc.c, trap.c); SysSpec.v and KernelDemo.v;
      Balance.v (begin_op() and end_op() in every system call) and KernelFaults.v (a failed
      open(), and filewrite() on small files).
    - The processor: Segs.v (the descriptors of mmu.h, and the tables and registers that vm.c
      and trap.c load), Asm.v (a machine with registers, segments, flags and memory, and
      swtch.S, vectors.S, trapasm.S, usys.S and initcode.S as lists of its instructions) and
      AsmProc.v (the stacks that allocproc(), fork() and userinit() make).
    - The start of the machine: Start.v (bootasm.S, entry.S and entryother.S on a processor with
      its two modes and paging, and the page table [entrypgdir]), Boot.v (the boot loader,
      bootmain.c) and Main.v (startothers(), mpenter() and mpmain() of main.c).
    - The devices around the processor: Mp.v (mp.c), Irq.v (picirq.c, ioapic.c, timer.c) and
      Lapic.v (lapic.c).
    - The console (console.c): Console.v (the code, the screen and the ring buffer) and
      ConsoleRefine.v (the line discipline that it implements); Kbd.v (kbd.c),
      Cprintf.v (cprintf(), panic(), procdump(), getcallerpcs(), consoleinit(), uart.c).
    - User programs: Grep.v (grep.c), Sh.v (the parser of sh.c) with ShPrint.v, Ulib.v (ulib.c,
      printf.c), User.v (programs as trees of system calls, and the rest of the library),
      UserProgs.v (cat.c, wc.c, ls.c, echo.c, ln.c, rm.c, mkdir.c, kill.c, forktest.c,
      stressfs.c, zombie.c, the test programs, and grep.c as a program), ShRun.v (runcmd() and
      main() of sh.c, init.c, and the processes of a command), and Umalloc.v (umalloc.c, blocks
      and headers in memory) with UmallocInv.v (the free list), UmallocSafe.v (malloc) and
      UmallocClient.v (the programs that use it).
    - The shell of the first assignment (assignment1.c): Assignment1.v.

    ** How code becomes definitions

    A C function is a Definition of its name. Integers are [Z] with the wrap-around of their
    width written out ([u8], [u16], [u32], [s16], [s32]). Kernel code is in the monad
    [M St A := St -> outcome St A]; an outcome is a value with the new state ([Ret]), a panic
    ([Panic]), a process that gives up the CPU ([Sleep], with the channel), or a loop that used
    up its fuel ([Diverge]). A loop over a range is [for_range]; a loop without a bound in the
    code has fuel, and the theorems about it prove that the fuel is enough. Structs are Records,
    pointers to elements of a table are indices, and pages are addresses of a memory of bytes.
    A total-correctness predicate transformer [wp m Q s] holds when [m] returns from [s] in a
    state that satisfies [Q].

    A system call that sleeps stops at the [Sleep] outcome; the theorems about interleavings
    (LogSteps.v, PipeSteps.v, ProcSpec.v, Spinlock.v) are about sequences of critical sections,
    as step relations with invariants.

    ** What is proved

    - Crash safety (Crash.v, Txn.v): [transaction_atomic], [commit_atomic] and
      [recovery_restartable] quantify over every prefix of the writes that reach the disk,
      including crashes during recovery.
    - The buffer cache is transparent (Cache.v), balloc/bfree, iupdate, iget, readi, writei,
      dirlookup, skipelem and small files do what they promise (FsSpec.v, InodeSpec.v, FileSpec.v,
      WriteSpec.v, PathSpec.v), and namex() resolves a path as the directories on the disk say, with
      exact reference counts (Namei.v). A small file is written through the log, the blocks of
      other files are written around it. Whatever operations begin_op() admits find room in the
      log, over any number of commits, but mkfs makes the log one block short (LogSteps.v).
    - Mutual exclusion of spin locks and the nesting of pushcli() (Spinlock.v).
    - The page allocator, the page tables, and copyout() for every page table, with the null
      pointer that it follows where there is none (Kalloc.v, VmSpec.v, UserMem.v).
    - Pipes are queues of the bytes that the writers pass, and lose no wakeup unless a writer is
      killed (PipeSteps.v).
    - The invariant of the process table (distinct pids until the counter wraps), the
      fairness of the scheduler, and what kill(0) does (ProcSpec.v).
    - User pointers stay inside the process, and the counters of sysnumcall (SysSpec.v).
    - Transactions are balanced but for a failed open() (Balance.v), after which nothing is ever
      committed; a write to a small file that fits is on the disk when it returns, and one that
      does not fit stops the kernel (KernelFaults.v).
    - The processor finds in memory the segments and gates that the kernel means it to have
      (Segs.v); traps save and restore the interrupted program, only the system call's gate is
      open to it, and swtch() is a coroutine jump (Asm.v); a forked process comes back to
      user mode like its parent, with 0 in %eax (AsmProc.v).
    - The boot sector enters bootmain() in protected mode, and entry.S enters main() with the
      kernel mapped where it is linked (Start.v); bootmain() loads the kernel (Boot.v);
      startothers() brings every other processor up to the scheduler, each on its own stack
      (Main.v); mpinit() numbers the processors (Lapic.v),
      but loops forever on an unknown entry (Mp.v); every interrupt line raises its trap
      number (Irq.v); cmostime() returns a date that the clock has shown (Lapic.v).
    - mkfs writes a file system in which the kernel finds every file under its name with its
      bytes, whose blocks are disjoint and whose bitmap is exact, but a root directory that
      fills its last block gets a size that is a block too large (MkfsKernel.v).
    - ide.c refines a queue of requests, serves every request, and takes a failed read for a
      successful one (IdeRefine.v).
    - console.c refines a specification with unbounded queues, and loses no wake-up
      (ConsoleRefine.v); what is typed at the keyboard is what a process reads (Kbd.v);
      cprintf() prints what printf() does (Cprintf.v).
    - The pattern matcher of grep.c decides the language of its patterns, grep() prints the
      lines that match, and loses a line that is read in parts (Grep.v); the parser of the shell
      terminates (Sh.v) and reads back what the grammar prints (ShPrint.v); a turn of the
      shell's loop starts the processes that the line stands for, and no process keeps an end
      of a pipe open that it should not (ShRun.v); cat copies and wc counts (UserProgs.v);
      printint() and atoi() are inverses (Ulib.v).
    - malloc() and free() hand out memory once and lose none, for requests below 2 GB
      (UmallocClient.v).
    - The shell of the first assignment runs one command (Assignment1.v).

    ** Bounds and fuel

    [bscan] follows the LRU list with fuel NBUF + 1, one more than the list has buffers.
    Loops over pages have as fuel the number of pages of the range plus one, loops over the
    bytes or the entries of a file the size of the file divided by the step, plus one. The
    loops of pipe.c, string.c and consoleread() are structural, on the bytes that are left; the
    loop of Control-U has the length of the edited line. The parser of the shell has fuel
    4 * length + 8, as each level of the grammar and each turn of a loop takes one and the
    levels between two characters are four. free() searches its list with fuel for one block
    per 8 bytes below the break, malloc() with twice as much, as it goes around the list at most
    twice. idewait() polls the status as often as the law of the disk says that it can be busy;
    iderw() follows the queue with fuel for every buffer; iappend() of mkfs.c has a turn of its
    loop per byte and one more. The loops of user programs over read() take as fuel one more
    than the bytes of the input; open_console() of the shell has four turns. The machine takes
    a number of steps, which the theorems give or bound by the existence of one. waitdisk()
    polls as often as its law says that the disk is busy; readseg() has a turn per sector,
    mpinit() one per entry of the table, cmostime() one per reading until the clock stands still.
    bootasm.S polls the keyboard controller, and startothers() the field [started], as often as
    their hypotheses say that the other side may take.

    ** Parameters

    [devsw], the table of device functions, is a parameter of the code that reads and writes
    inodes; read() is a parameter of grep(), the answers of the system calls are parameters of
    the other programs (with the laws [Env] of files for cat and wc, and every choice of
    failures for the shell), the IDE disk is the parameter [Ata] of ide.c with the laws
    [AtaLaws], the files of the host are a parameter of mkfs, and the memory that the kernel has left one of
    malloc(); the addresses [kend] and [kdata] that the linker chooses, the addresses of
    forkret() and trapret, and the interrupt handlers of the devices are parameters of the code
    that uses them. What the ports of the disk, of the keyboard, of the local APIC and of the
    clock read is a parameter of the code that reads them. The length of an instruction and the
    arithmetic flags are parameters of the machine. The registers of a processor after a reset, and
    how long it takes to come up, are parameters of startothers().

    ** Not modelled

    main() calls the initialisation functions in order; each is modelled where its state is, and
    there is no definition of the sequence. usertests.c is a long list of calls with their
    expected results. Caches and the TLB are not in the model. The
    output of cprintf() is not part of the state of the kernel's own functions: their models do
    not call it. *)

From stdpp Require Export base list list_numbers sets strings.
From Stdlib Require Export ZArith Lia.

#[global] Open Scope Z_scope.

(** ** Machine integers *)

(** C's unsigned and signed fixed-width integers are integers with the wrap-around
    written out. *)
Definition u8 (x : Z) : Z := x mod 2 ^ 8.
Definition u16 (x : Z) : Z := x mod 2 ^ 16.
Definition u32 (x : Z) : Z := x mod 2 ^ 32.
Definition s8 (x : Z) : Z := let y := u8 x in if y <? 2 ^ 7 then y else y - 2 ^ 8.
Definition s16 (x : Z) : Z := let y := u16 x in if y <? 2 ^ 15 then y else y - 2 ^ 16.
Definition s32 (x : Z) : Z := let y := u32 x in if y <? 2 ^ 31 then y else y - 2 ^ 32.

Lemma u32_small x : 0 <= x < 2 ^ 31 -> u32 x = x.
Proof. intros. apply Z.mod_small. lia. Qed.

Lemma u32_below x : 0 <= x < 2 ^ 32 -> u32 x = x.
Proof. intros H. by apply Z.mod_small. Qed.

Lemma s32_small x : 0 <= x < 2 ^ 31 -> s32 x = x.
Proof.
  intros H. unfold s32. rewrite u32_small by done. rewrite (proj2 (Z.ltb_lt _ _)); [done|lia].
Qed.

Lemma u32_s32 x : u32 (s32 x) = u32 x.
Proof.
  unfold s32, u32. destruct (Z.ltb_spec (x mod 2 ^ 32) (2 ^ 31)).
  - by rewrite Z.mod_mod.
  - rewrite <- (Z.mod_add _ 1) by lia. replace (x mod 2 ^ 32 - 2 ^ 32 + 1 * 2 ^ 32) with (x mod 2 ^ 32) by lia.
    by rewrite Z.mod_mod.
Qed.

Definition is_byte (b : Z) : Prop := 0 <= b < 256.
Definition is_u16 (x : Z) : Prop := 0 <= x < 2 ^ 16.
Definition is_u32 (x : Z) : Prop := 0 <= x < 2 ^ 32.

(** ** Lists *)

Definition remove_nth {A} (i : nat) (l : list A) : list A := take i l ++ drop (S i) l.

Lemma remove_nth_perm {A} (l : list A) i x : l !! i = Some x -> l ≡ₚ x :: remove_nth i l.
Proof.
  intros H. unfold remove_nth. rewrite <- (take_drop_middle l i x H) at 1. symmetry. apply Permutation_middle.
Qed.

(** ** Sleep channels *)

(** The addresses passed to [sleep] and [wakeup] by the modelled code. pipe.c on its own has
    one pipe, with the channels [ChPipeRead] and [ChPipeWrite]; in the kernel they are those of
    the pipe at an address. [ChNone] stands for no channel: yield() and exit() give up the CPU
    without one. *)
Inductive chan : Type :=
| ChLog
| ChBuf (b : nat)
| ChBufLock (b : nat)
| ChInode (ip : nat)
| ChInodeLock (ip : nat)
| ChPipeRead
| ChPipeWrite
| ChNread (p : Z)
| ChNwrite (p : Z)
| ChInput
| ChTicks
| ChNone
| ChProc (p : nat).

#[export] Instance chan_eq_dec : EqDecision chan.
Proof. solve_decision. Defined.

(** ** The kernel monad *)

(** What running a piece of kernel code from a state can do: return a value, panic, go to
    sleep on a channel (the process gives up the CPU; what follows the [sleep] is not run), or
    use up the fuel of an unbounded loop. *)
Inductive outcome (St A : Type) : Type :=
| Ret (a : A) (s : St)
| Panic (msg : string)
| Sleep (ch : chan) (s : St)
| Diverge.

Arguments Ret {St A} a s.
Arguments Panic {St A} msg.
Arguments Sleep {St A} ch s.
Arguments Diverge {St A}.

Definition M (St A : Type) : Type := St -> outcome St A.

Definition ret {St A} (a : A) : M St A := fun s => Ret a s.

Definition bind {St A B} (m : M St A) (k : A -> M St B) : M St B := fun s =>
  match m s with
  | Ret a s' => k a s'
  | Panic e => Panic e
  | Sleep c s' => Sleep c s'
  | Diverge => Diverge
  end.

Definition panic {St A} (msg : string) : M St A := fun _ => Panic msg.
Definition sleep_on {St A} (ch : chan) : M St A := fun s => Sleep ch s.
Definition diverge {St A} : M St A := fun _ => Diverge.
Definition gets {St A} (f : St -> A) : M St A := fun s => Ret (f s) s.
Definition modify {St} (f : St -> St) : M St unit := fun s => Ret tt (f s).

Declare Scope kernel_scope.
Delimit Scope kernel_scope with kernel.
Notation "x <- c ;; k" := (bind c (fun x => k))
  (at level 100, c at next level, right associativity) : kernel_scope.
Notation "c ;; k" := (bind c (fun _ => k))
  (at level 100, k at level 200, right associativity) : kernel_scope.

(** [if(c) m;] *)
Definition when {St} (c : bool) (m : M St unit) : M St unit := if c then m else ret tt.

(** [for(i = lo; i < lo + n; i++) body(i)] *)
Fixpoint for_range {St} (n : nat) (lo : Z) (body : Z -> M St unit) : M St unit :=
  match n with
  | O => ret tt
  | S n' => bind (body lo) (fun _ => for_range n' (lo + 1) body)
  end.

(** The same loop with a body that may return from the function ([Some]). *)
Fixpoint find_range {St A} (n : nat) (lo : Z) (body : Z -> M St (option A)) : M St (option A) :=
  match n with
  | O => ret None
  | S n' => bind (body lo) (fun r =>
      match r with
      | Some a => ret (Some a)
      | None => find_range n' (lo + 1) body
      end)
  end.

(** Run code of a component on the part of a larger state that it owns. *)
Definition lift {St T A} (get : T -> St) (set : St -> T -> T) (m : M St A) : M T A := fun t =>
  match m (get t) with
  | Ret a s => Ret a (set s t)
  | Panic e => Panic e
  | Sleep c s => Sleep c (set s t)
  | Diverge => Diverge
  end.

(** ** Total-correctness specifications *)

(** [wp m Q s]: run from [s], the code [m] returns (it neither panics nor sleeps) and its
    value and final state satisfy [Q]. *)
Definition wp {St A} (m : M St A) (Q : A -> St -> Prop) (s : St) : Prop :=
  match m s with
  | Ret a s' => Q a s'
  | _ => False
  end.

Section WpRules.
Context {St A B : Type}.
Implicit Types (s : St) (m : M St A).

Lemma wp_ret (a : A) (Q : A -> St -> Prop) s : Q a s -> wp (ret a) Q s.
Proof. done. Qed.

Lemma wp_gets (f : St -> A) (Q : A -> St -> Prop) s : Q (f s) s -> wp (gets f) Q s.
Proof. done. Qed.

Lemma wp_modify (f : St -> St) (Q : unit -> St -> Prop) s : Q tt (f s) -> wp (modify f) Q s.
Proof. done. Qed.

Lemma wp_bind m (k : A -> M St B) (Q : B -> St -> Prop) s :
  wp m (fun a s' => wp (k a) Q s') s -> wp (bind m k) Q s.
Proof. unfold wp, bind. by destruct (m s). Qed.

Lemma wp_mono m (P Q : A -> St -> Prop) s :
  wp m P s -> (forall a s', P a s' -> Q a s') -> wp m Q s.
Proof. unfold wp. destruct (m s); auto. Qed.

Lemma wp_and m (P Q : A -> St -> Prop) s :
  wp m P s -> wp m Q s -> wp m (fun a s' => P a s' /\ Q a s') s.
Proof. unfold wp. by destruct (m s). Qed.

Lemma wp_run m (Q : A -> St -> Prop) s :
  wp m Q s <-> exists a s', m s = Ret a s' /\ Q a s'.
Proof.
  unfold wp. split.
  - destruct (m s); [eauto|done..].
  - by intros (a & s' & -> & HQ).
Qed.

Lemma wp_ret_eq m a s s' (Q : A -> St -> Prop) : m s = Ret a s' -> Q a s' -> wp m Q s.
Proof. unfold wp. intros ->. done. Qed.

End WpRules.

Lemma wp_seq {St A B} (m : M St A) (k : A -> M St B) (P : A -> St -> Prop)
    (Q : B -> St -> Prop) s :
  wp m P s -> (forall a s', P a s' -> wp (k a) Q s') -> wp (bind m k) Q s.
Proof. intros Hm Hk. apply wp_bind. eapply wp_mono; eauto. Qed.

(** The invariant rule for counted loops. *)
Lemma wp_for_range {St} (I : Z -> St -> Prop) (n : nat) (lo : Z) (body : Z -> M St unit) s :
  I lo s ->
  (forall i s', lo <= i < lo + Z.of_nat n -> I i s' ->
     wp (body i) (fun _ s'' => I (i + 1) s'') s') ->
  wp (for_range n lo body) (fun _ s' => I (lo + Z.of_nat n) s') s.
Proof.
  revert lo s. induction n as [|n IH]; intros lo s HI Hbody.
  - unfold wp; cbn. by rewrite Z.add_0_r.
  - cbn [for_range]. eapply wp_seq; [apply Hbody; [lia|done]|]. intros [] s' HI'.
    replace (lo + Z.of_nat (S n)) with (lo + 1 + Z.of_nat n) by lia.
    apply IH; [done|]. intros i s'' Hi. apply Hbody. lia.
Qed.
