(* ===== verification/Bytes.v ===== *)
(** Byte strings: little-endian integers and fields of byte arrays.

    A C struct or array that the kernel casts a byte buffer to is read and written through
    [getf] and [setf], at the field's byte offset. *)

From S2P Require Export Prelude.

(** ** Little-endian integers *)

Fixpoint le_val (bs : list Z) : Z :=
  match bs with
  | [] => 0
  | b :: bs' => b + 256 * le_val bs'
  end.

Fixpoint le_bytes (n : nat) (v : Z) : list Z :=
  match n with
  | O => []
  | S n' => v mod 256 :: le_bytes n' (v / 256)
  end.

Lemma length_le_bytes n v : length (le_bytes n v) = n.
Proof. revert v. induction n; intros; simpl; auto. Qed.

Lemma le_bytes_byte n v : Forall is_byte (le_bytes n v).
Proof.
  revert v. induction n as [|n IH]; intros v; simpl; constructor; [|apply IH].
  unfold is_byte. apply Z.mod_pos_bound. lia.
Qed.

Lemma le_val_le_bytes n v : le_val (le_bytes n v) = v mod 256 ^ Z.of_nat n.
Proof.
  revert v. induction n as [|n IH]; intros v.
  - simpl. by rewrite Z.mod_1_r.
  - cbn [le_bytes le_val]. rewrite IH, Nat2Z.inj_succ, Z.pow_succ_r by lia.
    rewrite Z.rem_mul_r by (try apply Z.pow_nonzero; lia). done.
Qed.

Lemma le_bytes_le_val bs : Forall is_byte bs -> le_bytes (length bs) (le_val bs) = bs.
Proof.
  induction 1 as [|b bs Hb _ IH]; simpl; [done|]. unfold is_byte in Hb.
  rewrite (Z.mul_comm 256), Z.mod_add, Z.div_add by lia.
  rewrite Z.mod_small, Z.div_small by lia. by rewrite Z.add_0_l, IH.
Qed.

Lemma le_val_bound bs :
  Forall is_byte bs -> 0 <= le_val bs < 256 ^ Z.of_nat (length bs).
Proof.
  induction 1 as [|b bs Hb _ IH]; [done|]. cbn [le_val length].
  rewrite Nat2Z.inj_succ, Z.pow_succ_r by lia. unfold is_byte in Hb. lia.
Qed.

(** ** Fields of byte arrays *)

(** The [n] bytes at offset [off]. *)
Definition slice (off n : nat) (bs : list Z) : list Z := take n (drop off bs).

(** [memmove(bs + off, src, length src)]; bytes past the end of the array are dropped. *)
Definition blit (off : nat) (src bs : list Z) : list Z := list_inserts off src bs.

(** The [n]-byte little-endian field at byte offset [off]. *)
Definition getf (n off : nat) (bs : list Z) : Z := le_val (slice off n bs).
Definition setf (n off : nat) (v : Z) (bs : list Z) : list Z := blit off (le_bytes n v) bs.

(** Elements of an array of [uint]. *)
Definition getw (bs : list Z) (k : Z) : Z := getf 4 (Z.to_nat (4 * k)) bs.
Definition setw (bs : list Z) (k v : Z) : list Z := setf 4 (Z.to_nat (4 * k)) v bs.

Lemma length_slice off n bs :
  (off + n <= length bs)%nat -> length (slice off n bs) = n.
Proof. intros H. unfold slice. rewrite length_take, length_drop. lia. Qed.

Lemma slice_lookup off n bs (i : nat) :
  (i < n)%nat -> slice off n bs !! i = bs !! (off + i)%nat.
Proof. intros H. unfold slice. rewrite lookup_take, lookup_drop. by case_decide. Qed.

Lemma slice_ext off n bs cs :
  (forall i, (off <= i < off + n)%nat -> bs !! i = cs !! i) ->
  slice off n bs = slice off n cs.
Proof.
  intros H. apply list_eq. intros i. destruct (decide (i < n)%nat).
  - rewrite !slice_lookup by done. apply H. lia.
  - rewrite !lookup_ge_None_2; [done|..]; unfold slice; rewrite length_take; lia.
Qed.

Lemma length_blit off src bs : length (blit off src bs) = length bs.
Proof. apply length_inserts. Qed.

Lemma slice_blit_eq off src bs :
  (off + length src <= length bs)%nat -> slice off (length src) (blit off src bs) = src.
Proof.
  intros H. apply list_eq_same_length with (n := length src); [done|..].
  { apply length_slice. by rewrite length_blit. }
  intros i x y Hi Hx Hy. rewrite slice_lookup in Hx by done. unfold blit in Hx.
  rewrite list_lookup_inserts in Hx by lia.
  replace (off + i - off)%nat with i in Hx by lia. congruence.
Qed.

Lemma slice_blit_ne off n off' src bs :
  (off + n <= off' \/ off' + length src <= off)%nat ->
  slice off n (blit off' src bs) = slice off n bs.
Proof.
  intros H. apply slice_ext. intros i Hi. unfold blit.
  destruct H; [rewrite list_lookup_inserts_lt|rewrite list_lookup_inserts_ge]; done || lia.
Qed.

(** Storing a whole array. *)
Lemma blit_all src bs : length src = length bs -> blit 0 src bs = src.
Proof. intros H. unfold blit. rewrite <- (app_nil_r src) at 1. by apply list_inserts_0_l. Qed.

Lemma blit_byte off src bs :
  Forall is_byte src -> Forall is_byte bs -> Forall is_byte (blit off src bs).
Proof. intros. by apply Forall_inserts. Qed.

Lemma getf_setf_eq n off v bs :
  (off + n <= length bs)%nat -> getf n off (setf n off v bs) = v mod 256 ^ Z.of_nat n.
Proof.
  intros H. unfold getf, setf. rewrite <- (length_le_bytes n v) at 1.
  rewrite slice_blit_eq by (by rewrite length_le_bytes). apply le_val_le_bytes.
Qed.

Lemma getf_setf_ne n off n' off' v bs :
  (off + n <= off' \/ off' + n' <= off)%nat ->
  getf n off (setf n' off' v bs) = getf n off bs.
Proof.
  intros H. unfold getf, setf. rewrite slice_blit_ne; [done|]. by rewrite length_le_bytes.
Qed.

Lemma length_setf n off v bs : length (setf n off v bs) = length bs.
Proof. apply length_blit. Qed.

Lemma getf_bound n off bs :
  Forall is_byte bs -> 0 <= getf n off bs < 256 ^ Z.of_nat n.
Proof.
  intros H. unfold getf.
  assert (Hs : Forall is_byte (slice off n bs)) by (by apply Forall_take, Forall_drop).
  pose proof (le_val_bound _ Hs) as [H1 H2]. split; [done|].
  eapply Z.lt_le_trans; [apply H2|]. apply Z.pow_le_mono_r; [lia|].
  unfold slice. rewrite length_take. lia.
Qed.

Lemma setf_byte n off v bs : Forall is_byte bs -> Forall is_byte (setf n off v bs).
Proof. intros. apply blit_byte; [apply le_bytes_byte|done]. Qed.
