(* ===== verification/Mem.v ===== *)
(** Byte-addressed memory, little-endian words and the string instructions of x86.h.

    Memory is a finite map from addresses to bytes in which an absent address reads as 0, so
    two memories are the same for the code when they read the same everywhere ([mem_eq]). *)

From stdpp Require Export gmap.
From S2P Require Export Bytes.

Abbreviation mem := (gmap Z Z).

Definition rd (m : mem) (a : Z) : Z := default 0 (m !! a).
Definition wr (m : mem) (a v : Z) : mem := <[a := v]> m.

Lemma rd_wr m a b v : rd (wr m a v) b = if decide (a = b) then v else rd m b.
Proof. unfold rd, wr. rewrite lookup_insert. by case_decide. Qed.

Lemma rd_wr_eq m a v : rd (wr m a v) a = v.
Proof. rewrite rd_wr. by case_decide. Qed.

Lemma rd_wr_ne m a b v : a <> b -> rd (wr m a v) b = rd m b.
Proof. rewrite rd_wr. by case_decide. Qed.

Lemma rd_empty a : rd ∅ a = 0.
Proof. unfold rd. by rewrite lookup_empty. Qed.

(** Equality of what the code can read. *)
Definition mem_eq (m1 m2 : mem) : Prop := forall a, rd m1 a = rd m2 a.

#[export] Instance mem_eq_equivalence : Equivalence mem_eq.
Proof.
  split.
  - by intros m a.
  - by intros m1 m2 H a.
  - intros m1 m2 m3 H12 H23 a. by rewrite H12, H23.
Qed.

#[export] Instance rd_proper : Proper (mem_eq ==> eq ==> eq) rd.
Proof. by intros m1 m2 H a ? <-. Qed.

#[export] Instance wr_proper : Proper (mem_eq ==> eq ==> eq ==> mem_eq) wr.
Proof. intros m1 m2 H a ? <- v ? <- b. rewrite !rd_wr. by case_decide. Qed.

(** ** Byte strings in memory *)

(** The [n] bytes at [a]. *)
Fixpoint rd_bytes (m : mem) (a : Z) (n : nat) : list Z :=
  match n with
  | O => []
  | S n' => rd m a :: rd_bytes m (a + 1) n'
  end.

(** Store a byte string at [a], lowest address first. *)
Fixpoint wr_bytes (m : mem) (a : Z) (bs : list Z) : mem :=
  match bs with
  | [] => m
  | b :: bs' => wr_bytes (wr m a b) (a + 1) bs'
  end.

Lemma length_rd_bytes m a n : length (rd_bytes m a n) = n.
Proof. revert a. induction n; intros; simpl; auto. Qed.

Lemma rd_bytes_lookup m a n (i : nat) :
  (i < n)%nat -> rd_bytes m a n !! i = Some (rd m (a + Z.of_nat i)).
Proof.
  revert a i. induction n as [|n IH]; intros a i Hi; [lia|].
  destruct i as [|i]; simpl; [by rewrite Z.add_0_r|].
  rewrite IH by lia. do 2 f_equal. lia.
Qed.

Lemma rd_wr_bytes m a bs b :
  rd (wr_bytes m a bs) b =
    if decide (a <= b < a + Z.of_nat (length bs))
    then bs !!! Z.to_nat (b - a) else rd m b.
Proof.
  revert m a. induction bs as [|x bs IH]; intros m a; simpl.
  - rewrite decide_False; [done|lia].
  - rewrite IH, rd_wr. case_decide as H1.
    + rewrite (decide_True (P := a <= b < _)) by lia.
      replace (Z.to_nat (b - a)) with (S (Z.to_nat (b - (a + 1)))) by lia. done.
    + case_decide as H2.
      * subst. rewrite decide_True by lia. by rewrite Z.sub_diag.
      * rewrite decide_False by lia. done.
Qed.

Lemma rd_bytes_ext m1 m2 a n :
  (forall b, a <= b < a + Z.of_nat n -> rd m1 b = rd m2 b) ->
  rd_bytes m1 a n = rd_bytes m2 a n.
Proof.
  revert a. induction n as [|n IH]; intros a H; simpl; [done|].
  f_equal; [apply H; lia|]. apply IH. intros b Hb. apply H. lia.
Qed.

Lemma rd_bytes_wr_bytes m a bs : rd_bytes (wr_bytes m a bs) a (length bs) = bs.
Proof.
  apply list_eq_same_length with (n := length bs); [done|by rewrite length_rd_bytes|].
  intros i x y Hi Hx Hy. rewrite rd_bytes_lookup in Hx by done. simplify_eq.
  rewrite rd_wr_bytes, decide_True by lia.
  replace (Z.to_nat (a + Z.of_nat i - a)) with i by lia.
  by apply list_lookup_total_correct.
Qed.

(** ** Words *)

(** The 32-bit load and store. *)
Definition rd32 (m : mem) (a : Z) : Z := le_val (rd_bytes m a 4).
Definition wr32 (m : mem) (a v : Z) : mem := wr_bytes m a (le_bytes 4 v).

Lemma rd32_wr32_eq m a v : rd32 (wr32 m a v) a = u32 v.
Proof.
  unfold rd32, wr32. rewrite <- (length_le_bytes 4 v) at 2.
  rewrite rd_bytes_wr_bytes, le_val_le_bytes. done.
Qed.

Lemma rd_wr32_ne m a b v : ~ (a <= b < a + 4) -> rd (wr32 m a v) b = rd m b.
Proof.
  intros H. unfold wr32. rewrite rd_wr_bytes, decide_False; [done|].
  rewrite length_le_bytes. lia.
Qed.

Lemma rd32_wr32_ne m a b v :
  b + 4 <= a \/ a + 4 <= b -> rd32 (wr32 m a v) b = rd32 m b.
Proof.
  intros H. unfold rd32. f_equal. apply rd_bytes_ext. intros c Hc. apply rd_wr32_ne. lia.
Qed.

Lemma rd32_ext m1 m2 a :
  (forall b, a <= b < a + 4 -> rd m1 b = rd m2 b) -> rd32 m1 a = rd32 m2 a.
Proof. intros H. unfold rd32. f_equal. apply rd_bytes_ext. intros. apply H. lia. Qed.

(** ** The x86 store-string instructions *)

(** [rep stosb]: store the low byte of [data] at [cnt] consecutive addresses. *)
Fixpoint stosb (m : mem) (addr data : Z) (cnt : nat) : mem :=
  match cnt with
  | O => m
  | S n => stosb (wr m addr (u8 data)) (addr + 1) data n
  end.

(** [rep stosl]: store the 32-bit word [data] at [cnt] consecutive word addresses. *)
Fixpoint stosl (m : mem) (addr data : Z) (cnt : nat) : mem :=
  match cnt with
  | O => m
  | S n => stosl (wr32 m addr data) (addr + 4) data n
  end.

Lemma rd_stosb m a c n b :
  rd (stosb m a c n) b = if decide (a <= b < a + Z.of_nat n) then u8 c else rd m b.
Proof.
  revert m a. induction n as [|n IH]; intros m a; simpl.
  - rewrite decide_False; [done|lia].
  - rewrite IH, rd_wr. repeat case_decide; try done; lia.
Qed.

(** A word whose four bytes are equal fills memory like [stosb]. *)
Lemma rd_stosl m a w c n b :
  le_bytes 4 w = [c; c; c; c] ->
  rd (stosl m a w n) b = if decide (a <= b < a + 4 * Z.of_nat n) then c else rd m b.
Proof.
  intros Hw. revert m a. induction n as [|n IH]; intros m a; cbn [stosl].
  - rewrite decide_False; [done|lia].
  - rewrite IH. unfold wr32. rewrite Hw. cbn [wr_bytes]. rewrite !rd_wr.
    repeat case_decide; try done; lia.
Qed.

(** ** Representation of C strings *)

(** The bytes of [s] followed by a NUL are stored at [a]. *)
Definition cstr (m : mem) (a : Z) (s : list Z) : Prop :=
  Forall (fun c => c <> 0) s /\ rd_bytes m a (length s) = s /\
  rd m (a + Z.of_nat (length s)) = 0.

Lemma cstr_nil_inv m a : cstr m a [] -> rd m a = 0.
Proof. intros (_ & _ & H). simpl in H. by rewrite Z.add_0_r in H. Qed.

Lemma cstr_cons_inv m a c s : cstr m a (c :: s) -> rd m a = c /\ c <> 0 /\ cstr m (a + 1) s.
Proof.
  intros (Hnz & Hb & Hz). simpl in Hb. simplify_eq/=.
  apply Forall_cons in Hnz as [Hc Hnz]. split_and!; [done..|].
  split_and!; [done|congruence|]. rewrite <- Hz. f_equal. lia.
Qed.

Lemma cstr_cons m a c s : rd m a = c -> c <> 0 -> cstr m (a + 1) s -> cstr m a (c :: s).
Proof.
  intros <- Hc (Hnz & Hb & Hz). split_and!.
  - by constructor.
  - simpl. by rewrite Hb.
  - rewrite <- Hz. f_equal. simpl. lia.
Qed.
