(* ===== verification/StringC.v ===== *)
(** string.c: the kernel's memory and string routines, on byte-addressed memory.

    Loops over a counter that runs down to 0 recurse on that counter; [strlen], whose loop
    has no counter, takes fuel, and [strlen_cstr] shows that any fuel above the length of the
    string is enough. *)

From S2P Require Export Mem.

Module StringC.

(** *** Definitions *)

Definition memset (m : mem) (dst c n : Z) : mem :=
  if (Z.rem (s32 dst) 4 =? 0) && (n mod 4 =? 0) then
    let c := Z.land c 255 in
    stosl m dst (Z.lor (Z.lor (Z.lor (Z.shiftl c 24) (Z.shiftl c 16)) (Z.shiftl c 8)) c)
      (Z.to_nat (n / 4))
  else stosb m dst c (Z.to_nat n).

Fixpoint memcmp (m : mem) (s1 s2 : Z) (n : nat) : Z :=
  match n with
  | O => 0
  | S n' =>
      if rd m s1 =? rd m s2 then memcmp m (s1 + 1) (s2 + 1) n'
      else rd m s1 - rd m s2
  end.

(** [while(n-- > 0) *--d = *--s;] *)
Fixpoint copy_down (m : mem) (d s : Z) (n : nat) : mem :=
  match n with
  | O => m
  | S n' => copy_down (wr m (d - 1) (rd m (s - 1))) (d - 1) (s - 1) n'
  end.

(** [while(n-- > 0) *d++ = *s++;] *)
Fixpoint copy_up (m : mem) (d s : Z) (n : nat) : mem :=
  match n with
  | O => m
  | S n' => copy_up (wr m d (rd m s)) (d + 1) (s + 1) n'
  end.

Definition memmove (m : mem) (dst src n : Z) : mem :=
  if (src <? dst) && (dst <? src + n)
  then copy_down m (dst + n) (src + n) (Z.to_nat n)
  else copy_up m dst src (Z.to_nat n).

Definition memcpy (m : mem) (dst src n : Z) : mem := memmove m dst src n.

Fixpoint strncmp (m : mem) (p q : Z) (n : nat) : Z :=
  match n with
  | O => 0
  | S n' =>
      if negb (rd m p =? 0) && (rd m p =? rd m q) then strncmp m (p + 1) (q + 1) n'
      else u8 (rd m p) - u8 (rd m q)
  end.

(** [while(n-- > 0) *s++ = 0;] *)
Fixpoint fill_nul (m : mem) (s : Z) (n : nat) : mem :=
  match n with
  | O => m
  | S n' => fill_nul (wr m s 0) (s + 1) n'
  end.

Fixpoint strncpy_loop (m : mem) (s t : Z) (n : nat) : mem :=
  match n with
  | O => m
  | S n' =>
      let c := rd m t in
      let m' := wr m s c in
      if c =? 0 then fill_nul m' (s + 1) n' else strncpy_loop m' (s + 1) (t + 1) n'
  end.

Definition strncpy (m : mem) (s t n : Z) : mem := strncpy_loop m s t (Z.to_nat n).

(** The loop [while(--n > 0 && ( *s++ = *t++) != 0);] entered with [n + 1], then [*s = 0]. *)
Fixpoint safestrcpy_loop (m : mem) (s t : Z) (n : nat) : mem :=
  match n with
  | O => wr m s 0
  | S n' =>
      let c := rd m t in
      let m' := wr m s c in
      if c =? 0 then wr m' (s + 1) 0 else safestrcpy_loop m' (s + 1) (t + 1) n'
  end.

Definition safestrcpy (m : mem) (s t n : Z) : mem :=
  if n <=? 0 then m else safestrcpy_loop m s t (Z.to_nat (n - 1)).

Fixpoint strlen_loop (fuel : nat) (m : mem) (s n : Z) : option Z :=
  match fuel with
  | O => None
  | S f => if rd m (s + n) =? 0 then Some n else strlen_loop f m s (n + 1)
  end.

Definition strlen (fuel : nat) (m : mem) (s : Z) : option Z := strlen_loop fuel m s 0.

(** *** memset *)

Lemma memset_word (c : Z) :
  is_byte c ->
  le_bytes 4 (Z.lor (Z.lor (Z.lor (Z.shiftl c 24) (Z.shiftl c 16)) (Z.shiftl c 8)) c)
    = [c; c; c; c].
Proof.
  intros Hc. unfold is_byte in Hc.
  assert (Hall : forallb (fun n => let c := Z.of_nat n in
     bool_decide (le_bytes 4 (Z.lor (Z.lor (Z.lor (Z.shiftl c 24) (Z.shiftl c 16))
        (Z.shiftl c 8)) c) = [c; c; c; c])) (seq 0 256) = true) by (vm_compute; reflexivity).
  rewrite forallb_forall in Hall.
  specialize (Hall (Z.to_nat c)). rewrite in_seq in Hall. specialize (Hall ltac:(lia)).
  simpl in Hall. rewrite Z2Nat.id in Hall by lia. by apply bool_decide_eq_true in Hall.
Qed.

(** Both branches of [memset] fill exactly the [n] bytes at [dst] with the low byte of [c]. *)
Theorem memset_fills m dst c n a :
  0 <= n ->
  rd (memset m dst c n) a = if decide (dst <= a < dst + n) then u8 c else rd m a.
Proof.
  intros Hn. unfold memset. destruct (_ && _) eqn:Hal.
  - apply andb_true_iff in Hal as [_ Hn4]. apply Z.eqb_eq in Hn4.
    assert (Hc : Z.land c 255 = u8 c) by (unfold u8; by rewrite <- Z.land_ones).
    rewrite Hc, rd_stosl with (c := u8 c)
      by (apply memset_word; unfold u8, is_byte; apply Z.mod_pos_bound; lia).
    rewrite Z2Nat.id by (apply Z.div_pos; lia).
    replace (4 * (n / 4)) with n by (pose proof (Z.div_mod n 4); lia). done.
  - rewrite rd_stosb, Z2Nat.id by lia. done.
Qed.

(** *** memmove *)

Lemma copy_up_spec m d s n a :
  d <= s \/ s + Z.of_nat n <= d ->
  rd (copy_up m d s n) a =
    if decide (d <= a < d + Z.of_nat n) then rd m (s + (a - d)) else rd m a.
Proof.
  revert m d s. induction n as [|n IH]; intros m d s H; cbn [copy_up].
  - rewrite decide_False; [done|lia].
  - rewrite IH by lia. rewrite !rd_wr.
    destruct (decide (d + 1 <= a < d + 1 + Z.of_nat n)).
    + rewrite (decide_True (P := d <= a < _)) by lia.
      rewrite decide_False by lia. f_equal. lia.
    + destruct (decide (d = a)) as [<-|].
      * rewrite decide_True by lia. f_equal. lia.
      * rewrite decide_False by lia. done.
Qed.

Lemma copy_down_spec m d s n a :
  s <= d ->
  rd (copy_down m d s n) a =
    if decide (d - Z.of_nat n <= a < d) then rd m (s + (a - d)) else rd m a.
Proof.
  revert m d s. induction n as [|n IH]; intros m d s H; cbn [copy_down].
  - rewrite decide_False; [done|lia].
  - rewrite IH by lia. rewrite !rd_wr.
    destruct (decide (d - 1 - Z.of_nat n <= a < d - 1)).
    + rewrite (decide_True (P := d - Z.of_nat (S n) <= a < _)) by lia.
      rewrite decide_False by lia. f_equal. lia.
    + destruct (decide (d - 1 = a)) as [<-|].
      * rewrite decide_True by lia. f_equal. lia.
      * rewrite decide_False by lia. done.
Qed.

Lemma rd_memmove m dst src n a :
  0 <= n ->
  rd (memmove m dst src n) a =
    if decide (dst <= a < dst + n) then rd m (src + (a - dst)) else rd m a.
Proof.
  intros Hn. unfold memmove.
  destruct ((src <? dst) && (dst <? src + n)) eqn:Hov.
  - apply andb_true_iff in Hov as [H1%Z.ltb_lt H2%Z.ltb_lt].
    rewrite copy_down_spec by lia. rewrite Z2Nat.id by lia.
    replace (dst + n - n) with dst by lia.
    case_decide; [f_equal; lia|done].
  - apply andb_false_iff in Hov as [H1%Z.ltb_ge|H2%Z.ltb_ge];
      rewrite copy_up_spec by lia; by rewrite Z2Nat.id by lia.
Qed.

(** [memmove] copies correctly whether or not the two regions overlap: afterwards the [n]
    bytes at [dst] are the [n] bytes that were at [src] before the call, and every other byte
    of memory is unchanged. *)
Theorem memmove_correct m dst src n a :
  0 <= n ->
  rd_bytes (memmove m dst src n) dst (Z.to_nat n) = rd_bytes m src (Z.to_nat n) /\
  (~ (dst <= a < dst + n) -> rd (memmove m dst src n) a = rd m a).
Proof.
  intros Hn. split; [|intros Ha; rewrite rd_memmove by done; by rewrite decide_False].
  apply list_eq_same_length with (n := Z.to_nat n); rewrite ?length_rd_bytes; [done..|].
  intros i x y Hi Hx Hy. rewrite rd_bytes_lookup in Hx by done.
  rewrite rd_bytes_lookup in Hy by done. simplify_eq.
  rewrite rd_memmove, decide_True by lia. f_equal. lia.
Qed.

Lemma memmove_correct_witness :
  rd_bytes (memmove (wr_bytes ∅ 100 [1; 2; 3; 4]) 101 100 4) 101 4 = [1; 2; 3; 4] /\
  rd (memmove (wr_bytes ∅ 100 [1; 2; 3; 4]) 101 100 4) 100 = 1.
Proof.
  destruct (memmove_correct (wr_bytes ∅ 100 [1; 2; 3; 4]) 101 100 4 100) as [H1 H2]; [lia|].
  split; [exact H1|]. rewrite H2 by lia. reflexivity.
Defined.

(** *** memcmp *)

Lemma memcmp_zero m s1 s2 n :
  memcmp m s1 s2 n = 0 <-> rd_bytes m s1 n = rd_bytes m s2 n.
Proof.
  revert s1 s2. induction n as [|n IH]; intros s1 s2; simpl; [done|].
  destruct (Z.eqb_spec (rd m s1) (rd m s2)) as [He|Hne].
  - rewrite IH, He. split; congruence.
  - split; [lia|]. congruence.
Qed.

(** *** strlen *)

Lemma strlen_loop_cstr m s str fuel n :
  cstr m (s + n) str -> (length str < fuel)%nat ->
  strlen_loop fuel m s n = Some (n + Z.of_nat (length str)).
Proof.
  revert fuel n. induction str as [|c str IH]; intros [|fuel] n Hs Hf; simpl in *; try lia.
  - apply cstr_nil_inv in Hs. rewrite Hs. simpl. f_equal. lia.
  - apply cstr_cons_inv in Hs as (Hr & Hc & Hs). rewrite Hr.
    rewrite (proj2 (Z.eqb_neq c 0) Hc).
    rewrite IH; [f_equal; lia| |lia]. by replace (s + (n + 1)) with (s + n + 1) by lia.
Qed.

Lemma strlen_cstr m s str fuel :
  cstr m s str -> (length str < fuel)%nat ->
  strlen fuel m s = Some (Z.of_nat (length str)).
Proof.
  intros Hs Hf. unfold strlen. rewrite strlen_loop_cstr with (str := str); [done| |done].
  by rewrite Z.add_0_r.
Qed.

(** *** strncmp *)

(** The comparison as a function on byte strings: a string is cut at its first NUL and at [n]
    bytes. *)
Fixpoint cut (n : nat) (s : list Z) : list Z :=
  match n, s with
  | S n', c :: s' => if c =? 0 then [] else c :: cut n' s'
  | _, _ => []
  end.

Lemma cut_cstr n s : Forall (fun c => c <> 0) s -> cut n s = take n s.
Proof.
  intros H. revert n. induction H as [|c s Hc _ IH]; intros [|n]; simpl; try done.
  rewrite (proj2 (Z.eqb_neq c 0) Hc). by rewrite IH.
Qed.

(** [strncmp] returns 0 exactly when the two byte strings agree once each is cut at its
    first NUL and at [n] bytes. This is the test [namecmp] relies on for directory entries,
    whose names need not be NUL-terminated. *)
Theorem strncmp_zero m p q n :
  (forall a, is_byte (rd m a)) ->
  strncmp m p q n = 0 <-> cut n (rd_bytes m p n) = cut n (rd_bytes m q n).
Proof.
  intros Hbyte. revert p q. induction n as [|n IH]; intros p q; simpl; [done|].
  pose proof (Hbyte p) as Hp. pose proof (Hbyte q) as Hq. unfold is_byte in *.
  unfold u8. rewrite !Z.mod_small by (simpl; lia).
  destruct (Z.eqb_spec (rd m p) 0) as [Hp0|Hp0]; simpl.
  - destruct (Z.eqb_spec (rd m q) 0); [split; [done|lia]|]. split; [lia|done].
  - destruct (Z.eqb_spec (rd m p) (rd m q)) as [He|Hne].
    + rewrite <- He, (proj2 (Z.eqb_neq _ 0) Hp0), IH. split; [congruence|].
      intros H. by simplify_eq.
    + split; [lia|]. destruct (Z.eqb_spec (rd m q) 0); [done|]. intros H. simplify_eq.
Qed.

Lemma strncmp_zero_witness :
  strncmp (wr_bytes ∅ 10 [97; 98; 0; 5; 97; 98; 0; 9]) 10 14 4 = 0.
Proof.
  apply strncmp_zero; [|reflexivity].
  intros a. unfold is_byte. rewrite rd_wr_bytes. case_decide; [|rewrite rd_empty; lia].
  cbn [length] in *. assert (Hn : (Z.to_nat (a - 10) < 8)%nat) by lia. revert Hn.
  destruct (Z.to_nat (a - 10)) as [|[|[|[|[|[|[|[|k]]]]]]]]; cbn; intros; lia.
Defined.

(** *** safestrcpy and strncpy *)

Lemma rd_fill_nul m s n a :
  rd (fill_nul m s n) a = if decide (s <= a < s + Z.of_nat n) then 0 else rd m a.
Proof.
  revert m s. induction n as [|n IH]; intros m s; cbn [fill_nul].
  - rewrite decide_False; [done|lia].
  - rewrite IH, rd_wr. repeat case_decide; try done; lia.
Qed.

(** The bytes [strncpy] stores: the string cut at [n] bytes, then NULs up to [n]. *)
Definition pad (n : nat) (s : list Z) : list Z := take n (s ++ replicate n 0).

Lemma length_pad n s : length (pad n s) = n.
Proof. unfold pad. rewrite length_take, length_app, length_replicate. lia. Qed.

Lemma pad_nil n : pad n [] = replicate n 0.
Proof. unfold pad. simpl. by rewrite take_replicate, Nat.min_id. Qed.

Lemma pad_cons n c s : pad (S n) (c :: s) = c :: pad n s.
Proof.
  unfold pad. rewrite replicate_S_end. simpl. f_equal. rewrite app_assoc.
  apply take_app_le. rewrite length_app, length_replicate. lia.
Qed.

Lemma strncpy_loop_spec m s t str n :
  cstr m t str ->
  s + Z.of_nat n <= t \/ t + Z.of_nat (length str) < s ->
  mem_eq (strncpy_loop m s t n) (wr_bytes m s (pad n str)).
Proof.
  revert m s t n. induction str as [|c str IH]; intros m s t n Hstr Hdis.
  - apply cstr_nil_inv in Hstr. destruct n as [|n]; [done|]. cbn [strncpy_loop].
    rewrite Hstr, pad_nil. intros a. cbn [Z.eqb].
    rewrite rd_fill_nul, rd_wr_bytes, rd_wr, length_replicate.
    repeat case_decide; try lia; try done; by rewrite lookup_total_replicate_2 by lia.
  - apply cstr_cons_inv in Hstr as (Hr & Hc & Hstr). destruct n as [|n]; [done|].
    cbn [strncpy_loop]. rewrite Hr, (proj2 (Z.eqb_neq c 0) Hc).
    rewrite pad_cons.
    simpl. apply IH; simpl in *; [|lia].
    destruct Hstr as (Hnz & Hb & Hz). split_and!; [done| |].
    + rewrite <- Hb at 2. apply rd_bytes_ext. intros b Hb'. apply rd_wr_ne. lia.
    + rewrite <- Hz. apply rd_wr_ne. lia.
Qed.

(** [strncpy] stores the string cut at [n] bytes and pads with NULs: exactly the [n] bytes
    at [s] are written, as [dirlink] needs for the fixed-size name of a directory entry. *)
Theorem strncpy_correct m s t str n :
  0 <= n -> cstr m t str ->
  s + n <= t \/ t + Z.of_nat (length str) < s ->
  mem_eq (strncpy m s t n) (wr_bytes m s (pad (Z.to_nat n) str)).
Proof.
  intros Hn Hstr Hdis. unfold strncpy. apply strncpy_loop_spec; [done|]. lia.
Qed.

Lemma strncpy_correct_witness :
  let m := wr_bytes ∅ 100 [97; 98; 0] in
  cstr m 100 [97; 98] /\ mem_eq (strncpy m 200 100 4) (wr_bytes m 200 [97; 98; 0; 0]).
Proof.
  assert (H : cstr (wr_bytes ∅ 100 [97; 98; 0]) 100 [97; 98]).
  { split_and!; [repeat constructor; lia|reflexivity..]. }
  split; [exact H|]. apply (strncpy_correct _ 200 100 [97; 98] 4 ltac:(lia) H). simpl. lia.
Defined.

Lemma safestrcpy_loop_spec m s t str n :
  cstr m t str ->
  s + Z.of_nat n < t \/ t + Z.of_nat (length str) < s ->
  cstr (safestrcpy_loop m s t n) s (take n str) /\
  (forall a, ~ (s <= a <= s + Z.of_nat n) -> rd (safestrcpy_loop m s t n) a = rd m a).
Proof.
  revert m s t n. induction str as [|c str IH]; intros m s t n Hstr Hdis.
  - apply cstr_nil_inv in Hstr. destruct n as [|n]; cbn [safestrcpy_loop].
    + split; [|intros a Ha; apply rd_wr_ne; lia]. simpl. split_and!; [done..|].
      simpl. by rewrite Z.add_0_r, rd_wr_eq.
    + rewrite Hstr. simpl. split; [|intros a Ha; rewrite !rd_wr_ne by lia; done].
      split_and!; [done..|]. simpl. rewrite Z.add_0_r, rd_wr_ne, rd_wr_eq by lia. done.
  - apply cstr_cons_inv in Hstr as (Hr & Hc & Hstr). destruct n as [|n]; cbn [safestrcpy_loop].
    + split; [|intros a Ha; apply rd_wr_ne; lia]. simpl. split_and!; [done..|].
      simpl. by rewrite Z.add_0_r, rd_wr_eq.
    + rewrite Hr, (proj2 (Z.eqb_neq c 0) Hc). simpl in Hdis.
      destruct (IH (wr m s c) (s + 1) (t + 1) n) as [Hcs Hfr]; [| lia |].
      { destruct Hstr as (Hnz & Hb & Hz). split_and!; [done| |].
        - rewrite <- Hb at 2. apply rd_bytes_ext. intros b Hb'. apply rd_wr_ne. lia.
        - rewrite <- Hz. apply rd_wr_ne. lia. }
      split.
      * simpl. apply cstr_cons; [|done|done].
        rewrite Hfr by lia. apply rd_wr_eq.
      * intros a Ha. rewrite Hfr by lia. apply rd_wr_ne. lia.
Qed.

(** [safestrcpy] always leaves a NUL-terminated string, the source cut at [n - 1] bytes,
    and writes no byte outside the [n] bytes of the destination. *)
Theorem safestrcpy_correct m s t str n :
  0 < n -> cstr m t str ->
  s + n <= t \/ t + Z.of_nat (length str) < s ->
  cstr (safestrcpy m s t n) s (take (Z.to_nat (n - 1)) str) /\
  (forall a, ~ (s <= a < s + n) -> rd (safestrcpy m s t n) a = rd m a).
Proof.
  intros Hn Hstr Hdis. unfold safestrcpy. rewrite (proj2 (Z.leb_gt n 0)) by lia.
  destruct (safestrcpy_loop_spec m s t str (Z.to_nat (n - 1)) Hstr) as [Hc Hf]; [lia|].
  split; [done|]. intros a Ha. apply Hf. lia.
Qed.

Lemma safestrcpy_correct_witness :
  let m := wr_bytes ∅ 100 [105; 110; 105; 116; 0] in
  cstr (safestrcpy m 200 100 3) 200 [105; 110].
Proof.
  apply (safestrcpy_correct (wr_bytes ∅ 100 [105; 110; 105; 116; 0]) 200 100
           [105; 110; 105; 116] 3); simpl; [lia| |lia].
  split_and!; [repeat constructor; lia|reflexivity..].
Defined.

End StringC.
