(* ===== verification/Locks.v ===== *)
(** Spin locks and sleep locks as the sequential layers of the kernel use them.

    A lens designates the word of a state that a lock occupies. Seen from the CPU that runs
    the code, a spin lock is the bit [locked && cpu == this cpu] that holding() tests:
    acquiring a lock that is held and releasing one that is not both panic, as in spinlock.c.
    Spinlock.v has the locks between CPUs. A sleep lock is the record of sleeplock.h. *)

From S2P Require Export Prelude.

Record lens (St V : Type) := mkLens { lget : St -> V; lset : V -> St -> St }.
Arguments mkLens {St V} _ _.
Arguments lget {St V} _ _.
Arguments lset {St V} _ _ _.

Class LensLaws {St V} (l : lens St V) : Prop := {
  lget_lset : forall v s, lget l (lset l v s) = v;
  lset_lget : forall s, lset l (lget l s) s = s;
  lset_lset : forall v w s, lset l v (lset l w s) = lset l v s;
}.

(** *** Spin locks *)

Definition acquire {St} (l : lens St bool) : M St unit := fun s =>
  if lget l s then Panic "acquire" else Ret tt (lset l true s).

Definition release {St} (l : lens St bool) : M St unit := fun s =>
  if lget l s then Ret tt (lset l false s) else Panic "release".

(** [sleep(chan, lk)]: release the lock and sleep, in one step. *)
Definition sleep {St A} (ch : chan) (l : lens St bool) : M St A :=
  bind (release l) (fun _ => sleep_on ch).

(** *** Sleep locks *)

Record sleeplock := mkSleeplock { sl_locked : Z; sl_lk : bool; sl_pid : Z }.

Definition initsleeplock : sleeplock := mkSleeplock 0 false 0.

Section Sleeplock.
Context {St : Type}.
(** where the lock is, its address as a sleep channel, what wakeup does to the state and the
    process that runs *)
Context (lk : lens St sleeplock) (ch : chan) (wakeup : chan -> M St unit) (pid : St -> Z).

Definition sl_lk_lens : lens St bool :=
  mkLens (fun s => sl_lk (lget lk s))
         (fun v s => let l := lget lk s in lset lk (mkSleeplock (sl_locked l) v (sl_pid l)) s).

Definition set_locked (v p : Z) : M St unit :=
  modify (fun s => lset lk (mkSleeplock v (sl_lk (lget lk s)) p) s).

Open Scope kernel_scope.

Definition acquiresleep : M St unit :=
  acquire sl_lk_lens ;;
  l <- gets (lget lk) ;;
  if negb (sl_locked l =? 0) then sleep ch sl_lk_lens
  else
    p <- gets pid ;;
    set_locked 1 p ;;
    release sl_lk_lens.

Definition releasesleep : M St unit :=
  acquire sl_lk_lens ;;
  set_locked 0 0 ;;
  wakeup ch ;;
  release sl_lk_lens.

Definition holdingsleep : M St Z :=
  acquire sl_lk_lens ;;
  r <- gets (fun s => sl_locked (lget lk s)) ;;
  release sl_lk_lens ;;
  ret r.

End Sleeplock.

(** *** Specifications *)

Section LockLemmas.
Context {St : Type} (l : lens St bool) `{!LensLaws l}.

Lemma wp_acquire (Q : unit -> St -> Prop) s :
  lget l s = false -> Q tt (lset l true s) -> wp (acquire l) Q s.
Proof. unfold wp, acquire. by intros ->. Qed.

Lemma wp_release (Q : unit -> St -> Prop) s :
  lget l s = true -> Q tt (lset l false s) -> wp (release l) Q s.
Proof. unfold wp, release. by intros ->. Qed.

(** A critical section leaves the lock as it found it. *)
Lemma lset_acquire_release v s : lget l s = v -> lset l v (lset l true s) = s.
Proof. intros <-. by rewrite lset_lset, lset_lget. Qed.
End LockLemmas.
