(* ===== verification/FsState.v ===== *)
(** The state of the file system: the structs of buf.h, fs.h, file.h and log.c, and the
    record [fsys] of the kernel's file-system variables.

    - [memdisk] is the disk of memide.c as a list of blocks of BSIZE bytes, and [wtrace] the
      history of the writes it received, oldest first, which is what a crash truncates.
    - [bufs] is [bcache.buf] followed by [bcache.head]: a pointer to a buffer is an index,
      and the index [head] is [&bcache.head].
    - [icache] is [icache.inode]; a pointer to an inode is an index.
    - [woken] records the channels passed to wakeup(), oldest first: the processes that sleep
      on them are those of the process table, which is not part of this state.
    - [curpid] is [proc->pid], which sleep locks record. *)

From S2P Require Export Bytes Param Locks.

(** struct buf *)
Record buf := mkBuf {
  b_flags : Z;
  b_dev : Z;
  b_blockno : Z;
  b_lock : sleeplock;
  b_refcnt : Z;
  b_prev : nat;
  b_next : nat;
  b_data : list Z;
}.

#[export] Instance buf_inhabited : Inhabited buf :=
  populate (mkBuf 0 0 0 initsleeplock 0 0 0 []).

(** struct superblock *)
Record superblock := mkSb {
  sb_size : Z;
  sb_nblocks : Z;
  sb_ninodes : Z;
  sb_nlog : Z;
  sb_logstart : Z;
  sb_inodestart : Z;
  sb_bmapstart : Z;
}.

(** struct logheader *)
Record logheader := mkLh { lh_n : Z; lh_block : list Z }.

(** struct log *)
Record log := mkLog {
  l_lock : bool;
  l_start : Z;
  l_size : Z;
  l_outstanding : Z;
  l_committing : Z;
  l_dev : Z;
  l_lh : logheader;
}.

(** struct inode; [i_addrs] is the array [addrs] as its bytes. *)
Record inode := mkInode {
  i_dev : Z;
  i_inum : Z;
  i_ref : Z;
  i_lock : sleeplock;
  i_flags : Z;
  i_type : Z;
  i_major : Z;
  i_minor : Z;
  i_nlink : Z;
  i_size : Z;
  i_addrs : list Z;
}.

#[export] Instance inode_inhabited : Inhabited inode :=
  populate (mkInode 0 0 0 initsleeplock 0 0 0 0 0 0 []).

Record fsys := mkFsys {
  memdisk : list (list Z);
  wtrace : list (Z * list Z);
  bc_lock : bool;
  bufs : list buf;
  fslog : log;
  sb : superblock;
  ic_lock : bool;
  icache : list inode;
  woken : list chan;
  curpid : Z;
}.

(** *** Updates *)

Definition set_disk (d : list (list Z)) (t : list (Z * list Z)) (s : fsys) : fsys :=
  mkFsys d t (bc_lock s) (bufs s) (fslog s) (sb s) (ic_lock s) (icache s) (woken s) (curpid s).
Definition set_bc_lock (v : bool) (s : fsys) : fsys :=
  mkFsys (memdisk s) (wtrace s) v (bufs s) (fslog s) (sb s) (ic_lock s) (icache s) (woken s)
    (curpid s).
Definition set_bufs (v : list buf) (s : fsys) : fsys :=
  mkFsys (memdisk s) (wtrace s) (bc_lock s) v (fslog s) (sb s) (ic_lock s) (icache s) (woken s)
    (curpid s).
Definition set_log (v : log) (s : fsys) : fsys :=
  mkFsys (memdisk s) (wtrace s) (bc_lock s) (bufs s) v (sb s) (ic_lock s) (icache s) (woken s)
    (curpid s).
Definition set_sb (v : superblock) (s : fsys) : fsys :=
  mkFsys (memdisk s) (wtrace s) (bc_lock s) (bufs s) (fslog s) v (ic_lock s) (icache s)
    (woken s) (curpid s).
Definition set_ic_lock (v : bool) (s : fsys) : fsys :=
  mkFsys (memdisk s) (wtrace s) (bc_lock s) (bufs s) (fslog s) (sb s) v (icache s) (woken s)
    (curpid s).
Definition set_icache (v : list inode) (s : fsys) : fsys :=
  mkFsys (memdisk s) (wtrace s) (bc_lock s) (bufs s) (fslog s) (sb s) (ic_lock s) v (woken s)
    (curpid s).
Definition set_woken (v : list chan) (s : fsys) : fsys :=
  mkFsys (memdisk s) (wtrace s) (bc_lock s) (bufs s) (fslog s) (sb s) (ic_lock s) (icache s) v
    (curpid s).

Definition b_set_flags (v : Z) (b : buf) : buf :=
  mkBuf v (b_dev b) (b_blockno b) (b_lock b) (b_refcnt b) (b_prev b) (b_next b) (b_data b).
Definition b_set_lock (v : sleeplock) (b : buf) : buf :=
  mkBuf (b_flags b) (b_dev b) (b_blockno b) v (b_refcnt b) (b_prev b) (b_next b) (b_data b).
Definition b_set_refcnt (v : Z) (b : buf) : buf :=
  mkBuf (b_flags b) (b_dev b) (b_blockno b) (b_lock b) v (b_prev b) (b_next b) (b_data b).
Definition b_set_prev (v : nat) (b : buf) : buf :=
  mkBuf (b_flags b) (b_dev b) (b_blockno b) (b_lock b) (b_refcnt b) v (b_next b) (b_data b).
Definition b_set_next (v : nat) (b : buf) : buf :=
  mkBuf (b_flags b) (b_dev b) (b_blockno b) (b_lock b) (b_refcnt b) (b_prev b) v (b_data b).
Definition b_set_data (v : list Z) (b : buf) : buf :=
  mkBuf (b_flags b) (b_dev b) (b_blockno b) (b_lock b) (b_refcnt b) (b_prev b) (b_next b) v.

(** The buffer a pointer designates, and an update of it. *)
Definition bufat (s : fsys) (b : nat) : buf := bufs s !!! b.
Definition upd_buf (b : nat) (f : buf -> buf) (s : fsys) : fsys :=
  set_bufs (alter f b (bufs s)) s.

Definition ino (s : fsys) (ip : nat) : inode := icache s !!! ip.
Definition upd_ino (ip : nat) (f : inode -> inode) (s : fsys) : fsys :=
  set_icache (alter f ip (icache s)) s.

(** The address [&bcache.head]. *)
Definition head : nat := NBUF.

(** *** Locks of the file system *)

Definition bcache_lock : lens fsys bool := mkLens bc_lock set_bc_lock.
Definition icache_lock : lens fsys bool := mkLens ic_lock set_ic_lock.
Definition log_lock : lens fsys bool :=
  mkLens (fun s => l_lock (fslog s))
    (fun v s => let l := fslog s in
       set_log (mkLog v (l_start l) (l_size l) (l_outstanding l) (l_committing l) (l_dev l)
                  (l_lh l)) s).
Definition buf_lock (b : nat) : lens fsys sleeplock :=
  mkLens (fun s => b_lock (bufat s b)) (fun v => upd_buf b (b_set_lock v)).

(** wakeup() seen from the file system. *)
Definition wakeup (ch : chan) : M fsys unit :=
  modify (fun s => set_woken (woken s ++ [ch]) s).

#[export] Instance bcache_lock_laws : LensLaws bcache_lock.
Proof. split; intros; by destruct s. Qed.
#[export] Instance icache_lock_laws : LensLaws icache_lock.
Proof. split; intros; by destruct s. Qed.
#[export] Instance log_lock_laws : LensLaws log_lock.
Proof. split; intros; destruct s as [? ? ? ? [] ? ? ? ? ?]; done. Qed.

(** *** Lemmas on updates *)

Lemma bufat_upd_eq s b f :
  (b < length (bufs s))%nat -> bufat (upd_buf b f s) b = f (bufat s b).
Proof.
  intros H. unfold bufat, upd_buf. simpl.
  apply list_lookup_total_correct. rewrite list_lookup_alter_eq.
  rewrite list_lookup_lookup_total_lt by done. done.
Qed.

Lemma bufat_upd_ne s b c f : b <> c -> bufat (upd_buf b f s) c = bufat s c.
Proof.
  intros H. unfold bufat, upd_buf. simpl.
  rewrite !list_lookup_total_alt, list_lookup_alter_ne by done. done.
Qed.

Lemma bufat_upd s b c f :
  (b < length (bufs s))%nat ->
  bufat (upd_buf b f s) c = if decide (b = c) then f (bufat s c) else bufat s c.
Proof.
  intros H. case_decide; subst; [by apply bufat_upd_eq|by apply bufat_upd_ne].
Qed.

Lemma length_upd_buf s b f : length (bufs (upd_buf b f s)) = length (bufs s).
Proof. unfold upd_buf. simpl. by rewrite length_alter. Qed.

Lemma upd_buf_upd_buf b f g s : upd_buf b f (upd_buf b g s) = upd_buf b (fun x => f (g x)) s.
Proof.
  unfold upd_buf. simpl. by rewrite list_alter_alter_eq.
Qed.

Lemma upd_ino_upd_ino b f g s : upd_ino b f (upd_ino b g s) = upd_ino b (fun x => f (g x)) s.
Proof.
  unfold upd_ino. simpl. by rewrite list_alter_alter_eq.
Qed.

(** *** Sleep locks of the file system *)

(** A lens on a sleep lock that behaves on the states of [P] and is independent of the record
    of wakeups. *)
Class FsLock (P : fsys -> Prop) (lk : lens fsys sleeplock) : Prop := {
  fl_get_set : forall v s, P s -> lget lk (lset lk v s) = v;
  fl_set_get : forall s, P s -> lset lk (lget lk s) s = s;
  fl_set_set : forall v w s, lset lk v (lset lk w s) = lset lk v s;
  fl_stable : forall v s, P s -> P (lset lk v s);
  fl_curpid : forall v s, curpid (lset lk v s) = curpid s;
  fl_woken : forall v s, woken (lset lk v s) = woken s;
  fl_get_woken : forall w s, lget lk (set_woken w s) = lget lk s;
  fl_set_woken : forall v w s, lset lk v (set_woken w s) = set_woken w (lset lk v s);
}.

Section FsLockLemmas.
Context {P : fsys -> Prop} (lk : lens fsys sleeplock) `{!FsLock P lk} (ch : chan).

Lemma wp_acquiresleep (Q : unit -> fsys -> Prop) s :
  P s -> sl_lk (lget lk s) = false -> sl_locked (lget lk s) = 0 ->
  Q tt (lset lk (mkSleeplock 1 false (curpid s)) s) ->
  wp (acquiresleep lk ch curpid) Q s.
Proof.
  intros HP Hlk Hl HQ. unfold wp, acquiresleep, acquire, release, bind, gets, modify,
    set_locked, sl_lk_lens. simpl. rewrite Hlk.
  repeat (rewrite ?fl_get_set, ?fl_set_set by (repeat apply fl_stable; done); simpl).
  rewrite Hl. simpl. rewrite fl_curpid.
  repeat (rewrite ?fl_get_set, ?fl_set_set by (repeat apply fl_stable; done); simpl).
  done.
Qed.

Lemma wp_releasesleep (Q : unit -> fsys -> Prop) s :
  P s -> sl_lk (lget lk s) = false ->
  Q tt (set_woken (woken s ++ [ch]) (lset lk (mkSleeplock 0 false 0) s)) ->
  wp (releasesleep lk ch wakeup) Q s.
Proof.
  intros HP Hlk HQ. unfold wp, releasesleep, acquire, release, bind, gets, modify, wakeup,
    set_locked, sl_lk_lens. simpl. rewrite Hlk.
  repeat (rewrite ?fl_get_set, ?fl_set_set, ?fl_get_woken, ?fl_set_woken, ?fl_woken
            by (repeat apply fl_stable; done); simpl).
  rewrite ?fl_get_woken.
  repeat (rewrite ?fl_get_set, ?fl_set_set by (repeat apply fl_stable; done); simpl).
  done.
Qed.

Lemma wp_holdingsleep (Q : Z -> fsys -> Prop) s :
  P s -> sl_lk (lget lk s) = false ->
  Q (sl_locked (lget lk s)) s -> wp (holdingsleep lk) Q s.
Proof.
  intros HP Hlk HQ. unfold wp, holdingsleep, acquire, release, bind, gets, ret,
    sl_lk_lens. simpl. rewrite Hlk.
  repeat (rewrite ?fl_get_set, ?fl_set_set by (repeat apply fl_stable; done); simpl).
  replace (mkSleeplock (sl_locked (lget lk s)) false (sl_pid (lget lk s))) with (lget lk s).
  - by rewrite fl_set_get.
  - rewrite <- Hlk. by destruct (lget lk s).
Qed.

End FsLockLemmas.

#[export] Instance buf_lock_fslock b : FsLock (fun s => (b < length (bufs s))%nat) (buf_lock b).
Proof.
  split; intros; simpl.
  - by rewrite bufat_upd_eq.
  - unfold upd_buf, set_bufs. destruct s; simpl. f_equal. etransitivity; [|by apply (list_alter_id id)].
    apply list_alter_ext; [|done]. intros x Hx. unfold bufat. simpl.
    erewrite list_lookup_total_correct by done. by destruct x.
  - rewrite upd_buf_upd_buf. unfold upd_buf. f_equal.
  - by rewrite length_alter.
  - done.
  - done.
  - done.
  - done.
Qed.
