(* ===== verification/Bio.v ===== *)
(** memide.c and bio.c: the disk driver and the buffer cache. *)

From S2P Require Export FsState.

Open Scope kernel_scope.

(** *** memide.c *)

Definition disksize (s : fsys) : Z := Z.of_nat (length (memdisk s)).

(** The block stored at [memdisk + blockno*BSIZE]. *)
Definition dblock (s : fsys) (blockno : Z) : list Z := memdisk s !!! Z.to_nat blockno.

Definition buf_holding (b : nat) : M fsys Z := holdingsleep (buf_lock b).

Definition iderw (b : nat) : M fsys unit :=
  h <- buf_holding b ;;
  if h =? 0 then panic "iderw: buf not locked" else
  x <- gets (fun s => bufat s b) ;;
  if Z.land (b_flags x) (Z.lor B_VALID B_DIRTY) =? B_VALID
  then panic "iderw: nothing to do" else
  if negb (b_dev x =? 1) then panic "iderw: request not for disk 1" else
  n <- gets disksize ;;
  if n <=? b_blockno x then panic "iderw: block out of range" else
  (if negb (Z.land (b_flags x) B_DIRTY =? 0) then
     modify (upd_buf b (fun y => b_set_flags (Z.land (b_flags y) (Z.lnot B_DIRTY)) y)) ;;
     modify (fun s => set_disk (<[Z.to_nat (b_blockno x) := b_data x]> (memdisk s))
                        (wtrace s ++ [(b_blockno x, b_data x)]) s)
   else
     modify (fun s => upd_buf b (b_set_data (dblock s (b_blockno x))) s)) ;;
  modify (upd_buf b (fun y => b_set_flags (Z.lor (b_flags y) B_VALID) y)).

(** *** bio.c *)

(** One step of binit()'s loop. *)
Definition binit_link (b : nat) : M fsys unit :=
  h <- gets (fun s => bufat s head) ;;
  modify (upd_buf b (b_set_next (b_next h))) ;;
  modify (upd_buf b (b_set_prev head)) ;;
  modify (upd_buf b (b_set_lock initsleeplock)) ;;
  modify (fun s => upd_buf (b_next (bufat s head)) (b_set_prev b) s) ;;
  modify (upd_buf head (b_set_next b)).

Definition binit : M fsys unit :=
  modify (set_bc_lock false) ;;
  modify (upd_buf head (b_set_prev head)) ;;
  modify (upd_buf head (b_set_next head)) ;;
  for_range NBUF 0 (fun i => binit_link (Z.to_nat i)).

(** The loops of bget(): follow [dir] from [b] to the first buffer that passes [test], or to
    the list head. *)
Fixpoint bscan (fuel : nat) (dir : buf -> nat) (test : buf -> bool) (b : nat)
    : M fsys (option nat) :=
  match fuel with
  | O => diverge
  | S f =>
      if decide (b = head) then ret None
      else x <- gets (fun s => bufat s b) ;;
           if test x then ret (Some b) else bscan f dir test (dir x)
  end.

Definition bget (dev blockno : Z) : M fsys nat :=
  acquire bcache_lock ;;
  b0 <- gets (fun s => b_next (bufat s head)) ;;
  r <- bscan (S NBUF) b_next (fun x => (b_dev x =? dev) && (b_blockno x =? blockno)) b0 ;;
  match r with
  | Some b =>
      modify (upd_buf b (fun x => b_set_refcnt (u32 (b_refcnt x + 1)) x)) ;;
      release bcache_lock ;;
      acquiresleep (buf_lock b) (ChBufLock b) curpid ;;
      ret b
  | None =>
      b1 <- gets (fun s => b_prev (bufat s head)) ;;
      r <- bscan (S NBUF) b_prev
             (fun x => (b_refcnt x =? 0) && (Z.land (b_flags x) B_DIRTY =? 0)) b1 ;;
      match r with
      | Some b =>
          modify (upd_buf b (fun x =>
            mkBuf 0 dev blockno (b_lock x) 1 (b_prev x) (b_next x) (b_data x))) ;;
          release bcache_lock ;;
          acquiresleep (buf_lock b) (ChBufLock b) curpid ;;
          ret b
      | None => panic "bget: no buffers"
      end
  end.

Definition bread (dev blockno : Z) : M fsys nat :=
  b <- bget dev blockno ;;
  x <- gets (fun s => bufat s b) ;;
  when (Z.land (b_flags x) B_VALID =? 0) (iderw b) ;;
  ret b.

Definition bwrite (b : nat) : M fsys unit :=
  h <- buf_holding b ;;
  if h =? 0 then panic "bwrite" else
  modify (upd_buf b (fun x => b_set_flags (Z.lor (b_flags x) B_DIRTY) x)) ;;
  iderw b.

(** The list surgery of brelse(): unlink [b] and insert it after the head. *)
Definition move_to_front (b : nat) : M fsys unit :=
  modify (fun s => upd_buf (b_next (bufat s b)) (b_set_prev (b_prev (bufat s b))) s) ;;
  modify (fun s => upd_buf (b_prev (bufat s b)) (b_set_next (b_next (bufat s b))) s) ;;
  modify (fun s => upd_buf b (b_set_next (b_next (bufat s head))) s) ;;
  modify (upd_buf b (b_set_prev head)) ;;
  modify (fun s => upd_buf (b_next (bufat s head)) (b_set_prev b) s) ;;
  modify (upd_buf head (b_set_next b)).

Definition brelse (b : nat) : M fsys unit :=
  h <- buf_holding b ;;
  if h =? 0 then panic "brelse" else
  releasesleep (buf_lock b) (ChBufLock b) wakeup ;;
  acquire bcache_lock ;;
  modify (upd_buf b (fun x => b_set_refcnt (u32 (b_refcnt x - 1)) x)) ;;
  x <- gets (fun s => bufat s b) ;;
  when (b_refcnt x =? 0) (move_to_front b) ;;
  release bcache_lock.
