(* ===== verification/Dll.v ===== *)
(** Circular doubly linked lists through two pointer functions, as bio.c keeps its buffers.

    [dll d e h l]: starting from the head [h], the forward pointers [d] visit exactly the list
    [l] and return to [h], and the backward pointers [e] visit it in reverse. *)

From S2P Require Export Prelude.

(** From [p], the pointers [d] visit [l] and then reach [q]. *)
Fixpoint path (d : nat -> nat) (p : nat) (l : list nat) (q : nat) : Prop :=
  match l with
  | [] => d p = q
  | x :: r => d p = x /\ path d x r q
  end.

Definition dll (d e : nat -> nat) (h : nat) (l : list nat) : Prop :=
  path d h l h /\ path e h (rev l) h.

(** [d] with the pointer of [y] redirected to [v]. *)
Definition redirect (d : nat -> nat) (y v : nat) (x : nat) : nat :=
  if decide (x = y) then v else d x.

Lemma path_ext d d' p l q :
  (forall x, x ∈ p :: l -> d x = d' x) -> path d p l q -> path d' p l q.
Proof.
  revert p. induction l as [|y l IH]; intros p Heq; simpl.
  - rewrite Heq; [done|]. set_solver.
  - intros [Hp Hl]. split; [rewrite <- Heq; [done|set_solver]|].
    apply IH; [|done]. intros x Hx. apply Heq. set_solver.
Qed.

Lemma path_redirect d p l q y v : y ∉ p :: l -> path d p l q -> path (redirect d y v) p l q.
Proof.
  intros Hy. apply path_ext. intros x Hx. unfold redirect. rewrite decide_False; [done|].
  intros ->. done.
Qed.

Lemma path_app d p l x r q : path d p (l ++ x :: r) q <-> path d p l x /\ path d x r q.
Proof.
  revert p. induction l as [|y l IH]; intros p; simpl; [done|]. rewrite IH. tauto.
Qed.

(** Redirect the pointer of the last node. *)
Lemma path_retarget d p l q v :
  NoDup (p :: l) -> path d p l q -> path (redirect d (List.last l p) v) p l v.
Proof.
  revert p. induction l as [|y l IH]; intros p Hnd Hl.
  - simpl. unfold redirect. by rewrite decide_True.
  - destruct Hl as [Hp Hl]. apply NoDup_cons in Hnd as [Hpl Hnd].
    assert (Hlast : List.last (y :: l) p = List.last l y).
    { clear. revert y p. induction l as [|z l IH]; intros y p; [done|].
      change (List.last (z :: l) p = List.last (z :: l) y). by rewrite !IH. }
    rewrite Hlast. split; [|by apply IH].
    unfold redirect. rewrite decide_False; [done|].
    assert (Hin : List.last l y ∈ y :: l).
    { clear. revert y. induction l as [|z l IH]; intros y; [set_solver|].
      simpl. destruct l; [set_solver|]. specialize (IH y). set_solver. }
    intros ->. done.
Qed.

Lemma path_last d p l q : path d p l q -> d (List.last l p) = q.
Proof.
  revert p. induction l as [|y l IH]; intros p; simpl; [done|]. intros [Hp Hl].
  specialize (IH _ Hl). destruct l as [|z l]; [done|].
  replace (List.last (z :: l) p) with (List.last (z :: l) y); [done|].
  clear. revert z. induction l as [|w l IH]; intros z; [done|]. apply (IH w).
Qed.

Lemma path_first d p l q : path d p l q -> d p = hd q l.
Proof. by destruct l; simpl; [|intros [? _]]. Qed.

Lemma last_rev_hd (l : list nat) p : List.last (rev l) p = hd p l.
Proof. destruct l as [|x l]; [done|]. simpl. by rewrite List.last_last. Qed.

Lemma hd_rev_last (l : list nat) p : hd p (rev l) = List.last l p.
Proof. rewrite <- (rev_involutive l) at 2. by rewrite last_rev_hd. Qed.

Lemma elem_of_rev (l : list nat) x : x ∈ rev l <-> x ∈ l.
Proof. rewrite !list_elem_of_In. symmetry. apply in_rev. Qed.

Lemma NoDup_rev_of (l : list nat) : NoDup l -> NoDup (rev l).
Proof. rewrite !NoDup_ListNoDup. apply List.NoDup_rev. Qed.

(** Drop [b] from one direction. *)
Lemma path_unlink d h l1 b l2 :
  NoDup (h :: l1 ++ b :: l2) -> path d h (l1 ++ b :: l2) h ->
  path (redirect d (List.last l1 h) (d b)) h (l1 ++ l2) h.
Proof.
  intros Hnd Hp. apply path_app in Hp as [H1 H2].
  rewrite app_comm_cons in Hnd. apply NoDup_app in Hnd as (Hnd1 & Hdis & Hnd2).
  assert (Hin : List.last l1 h ∈ h :: l1).
  { clear. induction l1 as [|z l IH]; [set_solver|].
    simpl. destruct l; [set_solver|]. set_solver. }
  pose proof (path_retarget d h l1 b (d b) Hnd1 H1) as Hr.
  destruct l2 as [|x l2]; simpl in *.
  - by rewrite app_nil_r, H2 in *.
  - destruct H2 as [Hx H2]. apply path_app. rewrite Hx in *. split; [done|].
    apply path_redirect; [|done]. intros Hbad. apply (Hdis _ Hin). set_solver.
Qed.

(** Unlinking a node of a doubly linked list: its predecessor and successor point at each
    other. *)
Lemma dll_unlink d e h l1 b l2 :
  NoDup (h :: l1 ++ b :: l2) -> dll d e h (l1 ++ b :: l2) ->
  e b = List.last l1 h /\ d b = hd h l2 /\
  dll (redirect d (e b) (d b)) (redirect e (d b) (e b)) h (l1 ++ l2).
Proof.
  intros Hnd [Hd He]. rewrite rev_app_distr in He. simpl in He. rewrite <- app_assoc in He.
  simpl in He.
  assert (Heb : e b = List.last l1 h).
  { apply path_app in He as [_ He]. apply path_first in He. by rewrite He, hd_rev_last. }
  assert (Hdb : d b = hd h l2).
  { apply path_app in Hd as [_ Hd]. by apply path_first in Hd. }
  split_and!; [done..|]. split.
  - rewrite Heb. by apply path_unlink.
  - rewrite rev_app_distr. rewrite Hdb, <- (last_rev_hd l2 h). apply path_unlink; [|done].
    apply NoDup_rev_of in Hnd. simpl in Hnd. rewrite rev_app_distr in Hnd. simpl in Hnd.
    rewrite <- !app_assoc in Hnd. simpl in Hnd.
    rewrite (app_comm_cons (rev l1) [h] b), app_assoc in Hnd.
    rewrite (Permutation_app_comm _ [h]) in Hnd. done.
Qed.

(** Inserting a node after the head. *)
Lemma dll_push d e h l b :
  NoDup (h :: b :: l) -> dll d e h l ->
  dll (redirect (redirect d b (d h)) h b) (redirect (redirect e b h) (d h) b) h (b :: l).
Proof.
  intros Hnd [Hd He]. apply NoDup_cons in Hnd as [Hh Hnd]. apply NoDup_cons in Hnd as [Hb Hnd].
  assert (Hbh : b <> h) by set_solver.
  split.
  - simpl. split; [unfold redirect; by rewrite decide_True|].
    pose proof (path_first _ _ _ _ Hd) as Hf. destruct l as [|x l]; simpl in *.
    + unfold redirect. rewrite decide_False by done. rewrite decide_True by done. done.
    + destruct Hd as [_ Hd]. split.
      * unfold redirect. rewrite decide_False, decide_True by done. done.
      * do 2 (apply path_redirect; [set_solver|]). done.
  - simpl. apply path_app. rewrite (path_first _ _ _ _ Hd).
    rewrite <- (last_rev_hd l h). split.
    + apply path_retarget with (q := h).
      * apply NoDup_cons. rewrite elem_of_rev. split; [set_solver|by apply NoDup_rev_of].
      * apply path_redirect; [|done]. rewrite elem_of_cons, elem_of_rev. set_solver.
    + unfold path, redirect. rewrite decide_False, decide_True; [done..|].
      rewrite last_rev_hd. destruct l; simpl; set_solver.
Qed.
