(* ===== verification/BioSpec.v ===== *)
(** The buffer cache keeps one copy of each block, and reading through it returns the last
    contents written to the block.

    [view s n] is the contents of block [n] as every user of the cache sees it: the cached
    copy when there is one, the disk otherwise. [bc_wf] is the invariant of the cache: the
    buffers form one circular doubly linked list, no block is cached twice, a buffer that
    nobody holds and that is not dirty has the contents of the disk. *)

From S2P Require Export Dll Bio.

(** *** The invariant *)

(** The values of [flags]: not read, valid, valid and dirty. *)
Definition flags_ok (f : Z) : Prop := f = 0 \/ f = 2 \/ f = 6.

Definition block_ok (blk : list Z) : Prop :=
  length blk = Z.to_nat BSIZE /\ Forall is_byte blk.

Record buf_wf (s : fsys) (x : buf) : Prop := {
  bw_flags : flags_ok (b_flags x);
  bw_lk : sl_lk (b_lock x) = false;
  bw_ref : b_refcnt x = 0 \/ b_refcnt x = 1;
  bw_locked : sl_locked (b_lock x) = b_refcnt x;
  bw_used : b_flags x <> 0 -> b_dev x = 1 /\ block_ok (b_data x);
  bw_range : b_dev x = 1 -> 0 <= b_blockno x < disksize s;
  bw_held : b_refcnt x = 1 -> b_dev x = 1;
  bw_clean : b_refcnt x = 0 -> b_flags x = 2 -> b_data x = dblock s (b_blockno x);
}.

Definition nx (s : fsys) (b : nat) : nat := b_next (bufat s b).
Definition pv (s : fsys) (b : nat) : nat := b_prev (bufat s b).

Record bc_wf (s : fsys) : Prop := {
  bc_len : length (bufs s) = S NBUF;
  bc_unlocked : bc_lock s = false;
  bc_list : exists l, l ≡ₚ seq 0 NBUF /\ dll (nx s) (pv s) head l;
  bc_bufs : forall b, (b < NBUF)%nat -> buf_wf s (bufat s b);
  bc_uniq : forall b c, (b < NBUF)%nat -> (c < NBUF)%nat ->
    b_dev (bufat s b) = 1 -> b_dev (bufat s c) = 1 ->
    b_blockno (bufat s b) = b_blockno (bufat s c) -> b = c;
  bc_disk : Forall block_ok (memdisk s);
}.

(** *** The contents of a block *)

Definition caches (n : Z) (x : buf) : bool :=
  (b_dev x =? 1) && (b_blockno x =? n) && negb (b_flags x =? 0).

Definition view (s : fsys) (n : Z) : list Z :=
  match List.find (caches n) (take NBUF (bufs s)) with
  | Some x => b_data x
  | None => dblock s n
  end.

Lemma caches_true n x :
  caches n x = true <-> b_dev x = 1 /\ b_blockno x = n /\ b_flags x <> 0.
Proof.
  unfold caches. rewrite !andb_true_iff, negb_true_iff, !Z.eqb_eq, Z.eqb_neq. tauto.
Qed.

Lemma take_bufs_elem s x :
  length (bufs s) = S NBUF ->
  In x (take NBUF (bufs s)) <-> exists b, (b < NBUF)%nat /\ bufat s b = x.
Proof.
  intros Hl. rewrite <- list_elem_of_In, list_elem_of_lookup. split.
  - intros [b Hb]. apply lookup_take_Some in Hb as [Hb Hlt]. exists b. split; [done|].
    by apply list_lookup_total_correct.
  - intros (b & Hb & <-). exists b. apply lookup_take_Some. split; [|done].
    apply list_lookup_lookup_total_lt. lia.
Qed.

Lemma view_hit s n b :
  bc_wf s -> (b < NBUF)%nat -> caches n (bufat s b) = true ->
  view s n = b_data (bufat s b).
Proof.
  intros Hwf Hb Hc. unfold view. destruct (List.find _ _) as [x|] eqn:Hf.
  - apply find_some in Hf as [Hin Hx]. apply take_bufs_elem in Hin as (c & Hc' & <-);
      [|apply Hwf]. apply caches_true in Hx as (? & ? & ?), Hc as (? & ? & ?).
    by rewrite (bc_uniq s Hwf b c) by congruence.
  - eapply find_none in Hf; [rewrite Hc in Hf; done|].
    apply take_bufs_elem; [apply Hwf|eauto].
Qed.

Lemma view_miss s n :
  bc_wf s -> (forall b, (b < NBUF)%nat -> caches n (bufat s b) = false) ->
  view s n = dblock s n.
Proof.
  intros Hwf Hno. unfold view. destruct (List.find _ _) as [x|] eqn:Hf; [|done].
  apply find_some in Hf as [Hin Hx]. apply take_bufs_elem in Hin as (c & Hc & <-);
    [|apply Hwf]. by rewrite Hno in Hx.
Qed.

Lemma cached_dec s n :
  (exists b, (b < NBUF)%nat /\ caches n (bufat s b) = true) \/
  (forall b, (b < NBUF)%nat -> caches n (bufat s b) = false).
Proof.
  destruct (decide (Exists (fun b => caches n (bufat s b) = true) (seq 0 NBUF))) as [H|H].
  - left. apply Exists_exists in H as (b & Hb & Hc). exists b. split; [|done].
    apply elem_of_seq in Hb. lia.
  - right. intros b Hb. apply not_true_is_false. intros Hc. apply H, Exists_exists.
    exists b. split; [|done]. apply elem_of_seq. lia.
Qed.

Lemma view_ok s n : bc_wf s -> 0 <= n < disksize s -> block_ok (view s n).
Proof.
  intros Hwf Hn. destruct (cached_dec s n) as [(b & Hb & Hc)|Hno].
  - rewrite (view_hit s n b) by done. apply caches_true in Hc as (_ & _ & Hc).
    by apply (bc_bufs s Hwf b Hb).
  - rewrite view_miss by done. pose proof (bc_disk s Hwf) as Hd.
    rewrite Forall_lookup in Hd. apply (Hd (Z.to_nat n)). unfold dblock.
    apply list_lookup_lookup_total_lt. unfold disksize in Hn. lia.
Qed.

(** *** Updates that keep the invariant *)

(** What the cache operations leave alone. *)
Record bio_frame (s s' : fsys) : Prop := {
  bf_log : fslog s' = fslog s;
  bf_sb : sb s' = sb s;
  bf_ic_lock : ic_lock s' = ic_lock s;
  bf_icache : icache s' = icache s;
  bf_curpid : curpid s' = curpid s;
  bf_size : disksize s' = disksize s;
}.

Lemma bio_frame_refl s : bio_frame s s.
Proof. done. Qed.

Lemma bio_frame_trans s1 s2 s3 : bio_frame s1 s2 -> bio_frame s2 s3 -> bio_frame s1 s3.
Proof. intros [] []. split; congruence. Qed.

Create HintDb fsdb.
#[export] Hint Resolve bio_frame_refl bio_frame_trans : fsdb.

Lemma upd_buf_frame b f s : bio_frame s (upd_buf b f s).
Proof. done. Qed.
#[export] Hint Resolve upd_buf_frame : fsdb.

(** A buffer without its links. *)
Definition core (x : buf) : Z * Z * Z * sleeplock * Z * list Z :=
  (b_flags x, b_dev x, b_blockno x, b_lock x, b_refcnt x, b_data x).

Lemma buf_wf_core s s' x y :
  memdisk s' = memdisk s -> core x = core y -> buf_wf s y -> buf_wf s' x.
Proof.
  intros Hd Hc [H1 H2 H3 H4 H5 H6 H7 H8]. destruct x, y. unfold core in Hc. simplify_eq/=.
  assert (Hsz : disksize s' = disksize s) by (unfold disksize; by rewrite Hd).
  assert (Hb : forall n, dblock s' n = dblock s n) by (intros; unfold dblock; by rewrite Hd).
  split; simpl in *; rewrite ?Hsz, ?Hb; auto.
Qed.

Lemma caches_core n x y : core x = core y -> caches n x = caches n y.
Proof. intros Hc. unfold core in Hc. unfold caches. by simplify_eq; congruence. Qed.

(** Change one buffer's contents, not its links. *)
Lemma bc_wf_upd s b f :
  bc_wf s -> (b < NBUF)%nat ->
  (forall x, b_prev (f x) = b_prev x /\ b_next (f x) = b_next x) ->
  buf_wf s (f (bufat s b)) ->
  (b_dev (f (bufat s b)) = 1 -> forall c, (c < NBUF)%nat -> c <> b ->
     b_dev (bufat s c) = 1 -> b_blockno (bufat s c) <> b_blockno (f (bufat s b))) ->
  bc_wf (upd_buf b f s).
Proof.
  intros Hwf Hb Hlinks Hf Huniq.
  assert (Hlen : (b < length (bufs s))%nat) by (rewrite (bc_len s Hwf); lia).
  split.
  - rewrite length_upd_buf. apply Hwf.
  - apply Hwf.
  - destruct (bc_list s Hwf) as (l & Hl & Hd & He). exists l. split; [done|].
    split; (eapply path_ext; [|eassumption]); intros x _; unfold nx, pv;
      rewrite bufat_upd by done; case_decide; subst; symmetry; try apply Hlinks; done.
  - intros c Hc. rewrite bufat_upd by done. case_decide; subst.
    + by apply (buf_wf_core s _ _ (f (bufat s c))).
    + apply (buf_wf_core s _ _ (bufat s c)); [done..|]. by apply Hwf.
  - intros c d Hc Hd. rewrite !bufat_upd by done. repeat case_decide; subst; intros.
    + done.
    + exfalso. eapply (Huniq ltac:(done) d); eauto.
    + exfalso. eapply (Huniq ltac:(done) c); eauto.
    + eapply (bc_uniq s Hwf); eauto.
  - apply Hwf.
Qed.

(** *** Scanning the list *)

Lemma bscan_path s dir test fuel p l :
  path (fun b => dir (bufat s b)) p l head -> head ∉ l -> (length l < fuel)%nat ->
  bscan fuel dir test (dir (bufat s p)) s =
    Ret (List.find (fun b => test (bufat s b)) l) s.
Proof.
  revert fuel p. induction l as [|x l IH]; intros [|fuel] p Hp Hh Hf; simpl in *; try lia.
  - rewrite Hp, decide_True by done. done.
  - destruct Hp as [Hp Hl]. rewrite Hp. rewrite decide_False by set_solver.
    unfold bind, gets. destruct (test (bufat s x)); [done|].
    apply IH; [done|set_solver|lia].
Qed.

(** A scan in either direction finds a buffer that passes the test when there is one. *)
Lemma bscan_find s dir test fuel l :
  path (fun b => dir (bufat s b)) head l head -> l ≡ₚ seq 0 NBUF -> (NBUF < fuel)%nat ->
  exists r, bscan fuel dir test (dir (bufat s head)) s = Ret r s /\
    match r with
    | Some b => (b < NBUF)%nat /\ test (bufat s b) = true
    | None => forall b, (b < NBUF)%nat -> test (bufat s b) = false
    end.
Proof.
  intros Hp Hl Hf. eexists. split.
  - apply bscan_path with (l := l); [done| |].
    + rewrite Hl, elem_of_seq. unfold head. lia.
    + rewrite Hl, length_seq. lia.
  - destruct (List.find _ _) as [b|] eqn:E.
    + apply find_some in E as [Hin Ht]. split; [|done].
      rewrite <- list_elem_of_In, Hl, elem_of_seq in Hin. lia.
    + intros b Hb. eapply (find_none _ _ E b). rewrite <- list_elem_of_In, Hl, elem_of_seq. lia.
Qed.

(** *** The disk driver *)

Lemma upd_buf_ext s b f g :
  f (bufat s b) = g (bufat s b) -> upd_buf b f s = upd_buf b g s.
Proof.
  intros H. unfold upd_buf. f_equal. apply list_alter_ext; [|done]. intros x Hx.
  unfold bufat in H. by erewrite list_lookup_total_correct in H by done.
Qed.

Lemma set_disk_upd_buf d t b f s : set_disk d t (upd_buf b f s) = upd_buf b f (set_disk d t s).
Proof. done. Qed.

Section Driver.
Context (s : fsys) (b : nat).
Context (Hlen : (b < length (bufs s))%nat).
Context (Hlk : sl_lk (b_lock (bufat s b)) = false) (Hl : sl_locked (b_lock (bufat s b)) <> 0).
Context (Hdev : b_dev (bufat s b) = 1) (Hno : b_blockno (bufat s b) < disksize s).

Lemma wp_buf_holding (Q : Z -> fsys -> Prop) :
  Q (sl_locked (b_lock (bufat s b))) s -> wp (buf_holding b) Q s.
Proof. intros HQ. by apply (wp_holdingsleep (buf_lock b)). Qed.

Lemma wp_iderw_read (Q : unit -> fsys -> Prop) :
  b_flags (bufat s b) = 0 ->
  Q tt (upd_buf b (fun y => b_set_flags 2 (b_set_data (dblock s (b_blockno y)) y)) s) ->
  wp (iderw b) Q s.
Proof.
  intros Hfl HQ. unfold iderw. apply wp_bind, wp_buf_holding.
  rewrite (proj2 (Z.eqb_neq _ 0) Hl).
  unfold wp, bind, gets, modify. rewrite Hfl, Hdev. simpl.
  rewrite (proj2 (Z.leb_gt (disksize s) (b_blockno (bufat s b)))) by lia. simpl.
  rewrite upd_buf_upd_buf. erewrite upd_buf_ext; [exact HQ|]. cbn. by rewrite Hfl.
Qed.

Lemma wp_iderw_write (Q : unit -> fsys -> Prop) :
  b_flags (bufat s b) = 6 ->
  Q tt (upd_buf b (b_set_flags 2)
         (set_disk (<[Z.to_nat (b_blockno (bufat s b)) := b_data (bufat s b)]> (memdisk s))
            (wtrace s ++ [(b_blockno (bufat s b), b_data (bufat s b))]) s)) ->
  wp (iderw b) Q s.
Proof.
  intros Hfl HQ. unfold iderw. apply wp_bind, wp_buf_holding.
  rewrite (proj2 (Z.eqb_neq _ 0) Hl).
  unfold wp, bind, gets, modify. rewrite Hfl, Hdev. simpl.
  rewrite (proj2 (Z.leb_gt (disksize s) (b_blockno (bufat s b)))) by lia. simpl.
  rewrite set_disk_upd_buf, upd_buf_upd_buf. erewrite upd_buf_ext; [exact HQ|].
  cbn. change (bufat (set_disk _ _ s) b) with (bufat s b). by rewrite Hfl.
Qed.

End Driver.

(** *** bread *)

(** A buffer that a process has locked, with its contents unchanged or just read. *)
Definition grab (pid : Z) (x : buf) : buf :=
  mkBuf (b_flags x) (b_dev x) (b_blockno x) (mkSleeplock 1 false pid) 1 (b_prev x) (b_next x)
    (b_data x).
Definition loaded (pid n : Z) (blk : list Z) (x : buf) : buf :=
  mkBuf 2 1 n (mkSleeplock 1 false pid) 1 (b_prev x) (b_next x) blk.

Definition matches (n : Z) (x : buf) : Prop := b_dev x = 1 /\ b_blockno x = n.

(** The end of both branches of bget(): the buffer [b], changed by [f], is locked. *)
Lemma grab_run s b f :
  bc_wf s -> (b < NBUF)%nat -> sl_lk (b_lock (f (bufat s b))) = false ->
  sl_locked (b_lock (f (bufat s b))) = 0 ->
  (release bcache_lock ;; acquiresleep (buf_lock b) (ChBufLock b) curpid ;; ret b)
    (upd_buf b f (set_bc_lock true s))
  = Ret b (upd_buf b (fun x => b_set_lock (mkSleeplock 1 false (curpid s)) (f x)) s).
Proof.
  intros Hwf Hb H1 H2. pose proof (bc_len s Hwf) as Hlen. unfold bind at 1, release. simpl.
  assert (Hs : set_bc_lock false (upd_buf b f (set_bc_lock true s)) = upd_buf b f s).
  { pose proof (bc_unlocked s Hwf) as Hul. destruct s. simpl in *. by subst. }
  rewrite Hs.
  assert (Hbat : bufat (upd_buf b f s) b = f (bufat s b)) by (apply bufat_upd_eq; lia).
  eassert (Hw : wp (acquiresleep (buf_lock b) (ChBufLock b) curpid ;; ret b)
    (fun r t => r = b /\ t = _) (upd_buf b f s)).
  { apply wp_bind. apply (wp_acquiresleep (buf_lock b)).
    - rewrite length_upd_buf. lia.
    - cbn [lget buf_lock]. by rewrite Hbat.
    - cbn [lget buf_lock]. by rewrite Hbat.
    - apply wp_ret. split; [done|]. cbn [lset buf_lock]. by rewrite upd_buf_upd_buf. }
  apply wp_run in Hw as (? & ? & -> & -> & ->). done.
Qed.

(** The first loop of bget() finds the buffer that caches the block, if there is one. *)
Lemma bget_scan_hit s n :
  bc_wf s ->
  exists r, bscan (S NBUF) b_next (fun x => (b_dev x =? 1) && (b_blockno x =? n))
              (nx s head) (set_bc_lock true s) = Ret r (set_bc_lock true s) /\
    match r with
    | Some b => (b < NBUF)%nat /\ matches n (bufat s b)
    | None => forall b, (b < NBUF)%nat -> ~ matches n (bufat s b)
    end.
Proof.
  intros Hwf. destruct (bc_list s Hwf) as (l & Hl & Hd & _).
  destruct (bscan_find (set_bc_lock true s) b_next
    (fun x => (b_dev x =? 1) && (b_blockno x =? n)) (S NBUF) l) as (r & Hr & Hrs);
    [apply Hd|done|lia|].
  exists r. split; [exact Hr|]. destruct r as [b|].
  - destruct Hrs as [Hb Ht]. split; [done|].
    by apply andb_true_iff in Ht as [Ht1%Z.eqb_eq Ht2%Z.eqb_eq].
  - intros b Hb [H1 H2]. specialize (Hrs b Hb). change (bufat (set_bc_lock true s) b)
      with (bufat s b) in Hrs. by rewrite H1, H2, !Z.eqb_refl in Hrs.
Qed.

(** The second loop finds a buffer that is neither held nor dirty, if there is one. *)
Lemma bget_scan_miss s :
  bc_wf s ->
  exists r, bscan (S NBUF) b_prev
              (fun x => (b_refcnt x =? 0) && (Z.land (b_flags x) B_DIRTY =? 0))
              (pv s head) (set_bc_lock true s) = Ret r (set_bc_lock true s) /\
    match r with
    | Some b => (b < NBUF)%nat /\ b_refcnt (bufat s b) = 0 /\ b_flags (bufat s b) <> 6
    | None => forall b, (b < NBUF)%nat -> b_refcnt (bufat s b) <> 0 \/ b_flags (bufat s b) = 6
    end.
Proof.
  intros Hwf. destruct (bc_list s Hwf) as (l & Hl & _ & He).
  destruct (bscan_find (set_bc_lock true s) b_prev
    (fun x => (b_refcnt x =? 0) && (Z.land (b_flags x) B_DIRTY =? 0)) (S NBUF) (rev l))
    as (r & Hr & Hrs); [apply He| |lia|].
  { rewrite <- Hl. by rewrite <- Permutation_rev. }
  exists r. split; [exact Hr|]. destruct r as [b|].
  - destruct Hrs as [Hb Ht]. split; [done|].
    apply andb_true_iff in Ht as [Ht1%Z.eqb_eq Ht2%Z.eqb_eq]. split; [done|].
    intros Hbad. change (bufat (set_bc_lock true s) b) with (bufat s b) in Ht2.
    by rewrite Hbad in Ht2.
  - intros b Hb. specialize (Hrs b Hb). change (bufat (set_bc_lock true s) b)
      with (bufat s b) in Hrs.
    apply andb_false_iff in Hrs as [H%Z.eqb_neq|H%Z.eqb_neq]; [by left|right].
    pose proof (bw_flags s _ (bc_bufs s Hwf b Hb)) as Hf. unfold flags_ok in Hf.
    destruct Hf as [Hf|[Hf|Hf]]; rewrite Hf in *; done.
Qed.

(** What bget() does: when the block is cached, when a buffer is recycled for it, and when
    every buffer is held or dirty. *)
Lemma bget_run s n :
  bc_wf s ->
  (forall b, (b < NBUF)%nat -> matches n (bufat s b) -> b_refcnt (bufat s b) = 0) ->
  (exists b, (b < NBUF)%nat /\ matches n (bufat s b) /\
     bget 1 n s = Ret b (upd_buf b (grab (curpid s)) s)) \/
  (forall b, (b < NBUF)%nat -> ~ matches n (bufat s b)) /\
  ((exists b, (b < NBUF)%nat /\ b_refcnt (bufat s b) = 0 /\ b_flags (bufat s b) <> 6 /\
      bget 1 n s =
        Ret b (upd_buf b (fun x => b_set_flags 0 (loaded (curpid s) n (b_data x) x)) s)) \/
   (forall b, (b < NBUF)%nat -> b_refcnt (bufat s b) <> 0 \/ b_flags (bufat s b) = 6) /\
   bget 1 n s = Panic "bget: no buffers").
Proof.
  intros Hwf Hfree.
  assert (Hacq : acquire bcache_lock s = Ret tt (set_bc_lock true s)).
  { unfold acquire. simpl. by rewrite (bc_unlocked s Hwf). }
  destruct (bget_scan_hit s n Hwf) as ([b|] & Hr & Hrs);
    [left|right; split; [done|]; destruct (bget_scan_miss s Hwf) as ([b|] & Hr2 & Hrs2);
          [left|right]].
  - destruct Hrs as [Hb Hm]. exists b. split_and!; [done..|].
    pose proof (bc_bufs s Hwf b Hb) as Hbw. pose proof (Hfree b Hb Hm) as Hr0.
    unfold bget. unfold bind at 1. rewrite Hacq. unfold bind at 1, gets at 1.
    unfold bind at 1. change (b_next (bufat (set_bc_lock true s) head)) with (nx s head).
    rewrite Hr. unfold bind at 1, modify.
    rewrite grab_run; [|done|done|simpl; apply Hbw|simpl; rewrite (bw_locked s _ Hbw); done].
    f_equal. apply upd_buf_ext. unfold grab. simpl. by rewrite Hr0.
  - destruct Hrs2 as (Hb & H1 & H2). exists b. split_and!; [done..|].
    pose proof (bc_bufs s Hwf b Hb) as Hbw.
    unfold bget. unfold bind at 1. rewrite Hacq. unfold bind at 1, gets at 1.
    unfold bind at 1. change (b_next (bufat (set_bc_lock true s) head)) with (nx s head).
    rewrite Hr. unfold bind at 1, gets at 1.
    unfold bind at 1. change (b_prev (bufat (set_bc_lock true s) head)) with (pv s head).
    rewrite Hr2. unfold bind at 1, modify.
    rewrite grab_run; [|done|done|simpl; apply Hbw|simpl; rewrite (bw_locked s _ Hbw); done].
    f_equal.
  - split; [done|]. unfold bget. unfold bind at 1. rewrite Hacq. unfold bind at 1, gets at 1.
    unfold bind at 1. change (b_next (bufat (set_bc_lock true s) head)) with (nx s head).
    rewrite Hr. unfold bind at 1, gets at 1.
    unfold bind at 1. change (b_prev (bufat (set_bc_lock true s) head)) with (pv s head).
    by rewrite Hr2.
Qed.

(** Block [n] is held by a process, is dirty in the cache. *)
Definition heldn (s : fsys) (n : Z) : Prop :=
  exists b, (b < NBUF)%nat /\ matches n (bufat s b) /\ b_refcnt (bufat s b) = 1.
Definition dirty (s : fsys) (n : Z) : Prop :=
  exists b, (b < NBUF)%nat /\ matches n (bufat s b) /\ b_flags (bufat s b) = 6.

(** A process holds buffer [b], which has the contents of block [n]. *)
Record holds (s : fsys) (b : nat) (n : Z) : Prop := {
  ho_lt : (b < NBUF)%nat;
  ho_matches : matches n (bufat s b);
  ho_ref : b_refcnt (bufat s b) = 1;
  ho_valid : b_flags (bufat s b) <> 0;
}.

(** There is a buffer that is neither held nor dirty: fewer than NBUF blocks are. *)
Definition room (s : fsys) : Prop :=
  exists l, (length l < NBUF)%nat /\ forall n, heldn s n \/ dirty s n -> n ∈ l.

Lemma room_free s :
  bc_wf s -> room s ->
  ~ (forall b, (b < NBUF)%nat -> b_refcnt (bufat s b) <> 0 \/ b_flags (bufat s b) = 6).
Proof.
  intros Hwf (l & Hl & Hin) Hall.
  set (f := fun b => b_blockno (bufat s b)).
  assert (Hused : forall b, (b < NBUF)%nat -> b_dev (bufat s b) = 1).
  { intros b Hb. pose proof (bc_bufs s Hwf b Hb) as Hw. destruct (Hall b Hb) as [H|H].
    - apply (bw_held s _ Hw). destruct (bw_ref s _ Hw); [done|done].
    - apply (bw_used s _ Hw). by rewrite H. }
  assert (Hsub : f <$> seq 0 NBUF ⊆+ l).
  { apply NoDup_submseteq.
    - apply NoDup_fmap_2_strong; [|apply NoDup_seq]. intros b c Hb Hc He.
      apply elem_of_seq in Hb, Hc. apply (bc_uniq s Hwf); auto with lia.
    - intros n (b & -> & Hb)%list_elem_of_fmap. apply elem_of_seq in Hb. apply Hin.
      assert (Hlt : (b < NBUF)%nat) by lia. pose proof (bc_bufs s Hwf b Hlt) as Hw.
      destruct (Hall b Hlt) as [H|H]; [left|right]; exists b; (split_and!; [done|split; auto|]).
      + by destruct (bw_ref s _ Hw).
      + done. }
  apply submseteq_length in Hsub. rewrite length_fmap, length_seq in Hsub. lia.
Qed.

(** The effect of bread(): the buffer is locked, nothing else is observable. *)
Record bread_post (s : fsys) (n : Z) (b : nat) (s' : fsys) : Prop := {
  br_wf : bc_wf s';
  br_holds : holds s' b n;
  br_data : b_data (bufat s' b) = view s n;
  br_view : forall m, view s' m = view s m;
  br_frame : bio_frame s s';
  br_disk : memdisk s' = memdisk s /\ wtrace s' = wtrace s /\ woken s' = woken s;
  br_free : b_refcnt (bufat s b) = 0;
  br_clean : b_flags (bufat s' b) = 6 \/ b_data (bufat s' b) = dblock s n;
  br_others : forall c, c <> b -> bufat s' c = bufat s c;
  br_dirty : forall m, dirty s' m <-> dirty s m;
}.

Lemma not_held_free s n b :
  bc_wf s -> ~ heldn s n -> (b < NBUF)%nat -> matches n (bufat s b) ->
  b_refcnt (bufat s b) = 0.
Proof.
  intros Hwf Hn Hb Hm. destruct (bw_ref s _ (bc_bufs s Hwf b Hb)) as [|H1]; [done|].
  exfalso. apply Hn. by exists b.
Qed.

(** The state after the second half of bread(): a buffer not yet read is read. *)
Lemma bread_load s n b f :
  bc_wf s -> (b < NBUF)%nat -> 0 <= n < disksize s ->
  f (bufat s b) = b_set_flags 0 (loaded (curpid s) n (b_data (bufat s b)) (bufat s b)) ->
  wp (iderw b) (fun _ t => t = upd_buf b (loaded (curpid s) n (dblock s n)) s) (upd_buf b f s).
Proof.
  intros Hwf Hb Hn Hf. pose proof (bc_len s Hwf) as Hlen.
  assert (Hat : bufat (upd_buf b f s) b =
    b_set_flags 0 (loaded (curpid s) n (b_data (bufat s b)) (bufat s b))).
  { rewrite bufat_upd_eq by lia. done. }
  apply wp_iderw_read; rewrite ?Hat; try done.
  - rewrite length_upd_buf. lia.
  - simpl. change (disksize (upd_buf b f s)) with (disksize s). lia.
  - rewrite upd_buf_upd_buf. apply upd_buf_ext. by rewrite Hf.
Qed.

Lemma bread_run s n :
  bc_wf s -> 0 <= n < disksize s -> ~ heldn s n -> room s \/ dirty s n ->
  exists b, (b < NBUF)%nat /\ b_refcnt (bufat s b) = 0 /\
    ((matches n (bufat s b) /\ b_flags (bufat s b) <> 0 /\
      bread 1 n s = Ret b (upd_buf b (grab (curpid s)) s)) \/
     (b_flags (bufat s b) <> 6 /\
      (forall c, (c < NBUF)%nat -> matches n (bufat s c) -> c = b /\ b_flags (bufat s b) = 0) /\
      bread 1 n s = Ret b (upd_buf b (loaded (curpid s) n (dblock s n)) s))).
Proof.
  intros Hwf Hn Hnh Hroom. pose proof (bc_len s Hwf) as Hlen.
  destruct (bget_run s n Hwf) as
    [(b & Hb & Hm & Hr)|[Hno [(b & Hb & H0 & H6 & Hr)|[Hall _]]]].
  - intros b Hb Hm. by apply (not_held_free s n).
  - exists b. split; [done|]. split; [by apply (not_held_free s n)|].
    pose proof (bw_flags s _ (bc_bufs s Hwf b Hb)) as Hfl.
    destruct (decide (b_flags (bufat s b) = 0)) as [H0|H0]; [right|left]; split_and!; auto.
    + by rewrite H0.
    + intros c Hc [Hc1 Hc2]. destruct Hm. split; [|done]. apply (bc_uniq s Hwf); auto. congruence.
    + unfold bread. unfold bind at 1. rewrite Hr. unfold bind at 1, gets.
      rewrite bufat_upd_eq by lia. cbn [grab b_flags]. rewrite H0.
      change (Z.land 0 B_VALID =? 0) with true. unfold when.
      pose proof (bread_load s n b (grab (curpid s)) Hwf Hb Hn) as Hw.
      rewrite wp_run in Hw. unfold bind. destruct Hw as ([] & s' & -> & ->); [|done].
      unfold grab, loaded, b_set_flags. simpl. destruct Hm as [-> ->]. by rewrite H0.
    + unfold bread. unfold bind at 1. rewrite Hr. unfold bind at 1, gets.
      rewrite bufat_upd_eq by lia. cbn [grab b_flags].
      destruct Hfl as [Hf|[Hf|Hf]]; [done|..]; rewrite Hf; done.
  - exists b. split_and!; [done..|]. right. split_and!; [done|..].
    + intros c Hc Hm. by destruct (Hno c Hc).
    + unfold bread. unfold bind at 1. rewrite Hr. unfold bind at 1, gets.
      rewrite bufat_upd_eq by lia. cbn [b_set_flags b_flags].
      change (Z.land 0 B_VALID =? 0) with true. unfold when.
      pose proof (bread_load s n b (fun x => b_set_flags 0 (loaded (curpid s) n (b_data x) x))
        Hwf Hb Hn eq_refl) as Hw.
      rewrite wp_run in Hw. unfold bind. destruct Hw as ([] & s' & -> & ->). done.
  - destruct Hroom as [Hroom|(b & Hb & Hm & _)]; [by destruct (room_free s)|].
    by destruct (Hno b Hb).
Qed.

(** Two states with the same disk show the same block, when what the second one caches is what
    the first one shows, and what only the first one caches is on the disk. *)
Lemma view_eq s s' m :
  bc_wf s -> bc_wf s' -> memdisk s' = memdisk s ->
  (forall b, (b < NBUF)%nat -> caches m (bufat s' b) = true ->
     b_data (bufat s' b) = view s m) ->
  (forall b, (b < NBUF)%nat -> caches m (bufat s b) = true ->
     b_data (bufat s b) = dblock s m \/
     exists c, (c < NBUF)%nat /\ caches m (bufat s' c) = true) ->
  view s' m = view s m.
Proof.
  intros Hwf Hwf' Hd H1 H2. destruct (cached_dec s' m) as [(b & Hb & Hc)|Hno].
  - rewrite (view_hit s' m b) by done. auto.
  - rewrite view_miss by done. unfold dblock. rewrite Hd.
    destruct (cached_dec s m) as [(b & Hb & Hc)|Hno'].
    + rewrite (view_hit s m b) by done.
      destruct (H2 b Hb Hc) as [->|(c & Hc1 & Hc2)]; [done|]. by rewrite Hno in Hc2.
    + by rewrite view_miss.
Qed.

Lemma holds_caches s b n : holds s b n -> caches n (bufat s b) = true.
Proof. intros []. by apply caches_true; destruct ho_matches0. Qed.

Lemma holds_view s b n : bc_wf s -> holds s b n -> b_data (bufat s b) = view s n.
Proof. intros Hwf H. symmetry. apply view_hit; [done|apply H|by apply holds_caches]. Qed.

(** Re-locking a cached buffer, or loading a block into a free one, is invisible. *)
Lemma grab_post s n b :
  bc_wf s -> (b < NBUF)%nat -> b_refcnt (bufat s b) = 0 -> matches n (bufat s b) ->
  b_flags (bufat s b) <> 0 -> bread_post s n b (upd_buf b (grab (curpid s)) s).
Proof.
  intros Hwf Hb H0 Hm Hf. pose proof (bc_len s Hwf) as Hlen.
  assert (Hl : (b < length (bufs s))%nat) by lia.
  pose proof (bc_bufs s Hwf b Hb) as Hbw. destruct Hm as [Hm1 Hm2].
  assert (Hwf' : bc_wf (upd_buf b (grab (curpid s)) s)).
  { apply bc_wf_upd; [done|done|done|split; simpl; try apply Hbw; auto; done|].
    simpl. intros _ c Hc Hne Hd Hno. apply Hne. by apply (bc_uniq s Hwf). }
  assert (Hcc : forall m c, caches m (bufat (upd_buf b (grab (curpid s)) s) c)
                            = caches m (bufat s c)).
  { intros m c. rewrite bufat_upd by done. by case_decide. }
  assert (Hdd : forall c, b_data (bufat (upd_buf b (grab (curpid s)) s) c)
                            = b_data (bufat s c)).
  { intros c. rewrite bufat_upd by done. by case_decide. }
  split; try done.
  - split; rewrite ?bufat_upd_eq by done; done.
  - rewrite Hdd. symmetry. apply view_hit; [done..|]. by apply caches_true.
  - intros m. apply view_eq; [done|done|done|..].
    + intros c Hc. rewrite Hcc, Hdd. intros. symmetry. by apply view_hit.
    + intros c Hc Hcm. right. exists c. by rewrite Hcc.
  - rewrite bufat_upd_eq by done. simpl. rewrite <- Hm2.
    destruct (bw_flags s _ Hbw) as [|[H2|]]; [done| |by left]. right. by apply (bw_clean s _ Hbw).
  - intros c Hc. by apply bufat_upd_ne.
  - intros m. unfold dirty, matches. split; intros (c & Hc & Hr); exists c; (split; [done|]);
      revert Hr; rewrite bufat_upd by done; by case_decide.
Qed.

Lemma load_post s n b :
  bc_wf s -> 0 <= n < disksize s -> (b < NBUF)%nat -> b_refcnt (bufat s b) = 0 ->
  b_flags (bufat s b) <> 6 ->
  (forall c, (c < NBUF)%nat -> matches n (bufat s c) -> c = b /\ b_flags (bufat s b) = 0) ->
  bread_post s n b (upd_buf b (loaded (curpid s) n (dblock s n)) s).
Proof.
  intros Hwf Hn Hb H0 H6 Hno. pose proof (bc_len s Hwf) as Hlen.
  assert (Hl : (b < length (bufs s))%nat) by lia.
  pose proof (bc_bufs s Hwf b Hb) as Hbw.
  assert (Hmiss : forall c, (c < NBUF)%nat -> caches n (bufat s c) = false).
  { intros c Hc. apply not_true_is_false. intros (Hc1 & Hc2 & Hc3)%caches_true.
    destruct (Hno c Hc) as [-> Hz]; done. }
  assert (Hblk : block_ok (dblock s n)) by (rewrite <- view_miss by done; by apply view_ok).
  assert (Hwf' : bc_wf (upd_buf b (loaded (curpid s) n (dblock s n)) s)).
  { apply bc_wf_upd; [done|done|done|split; simpl; unfold flags_ok; auto; done|].
    simpl. intros _ c Hc Hne Hd Heq. apply Hne. by apply Hno. }
  split; try done.
  - split; rewrite ?bufat_upd_eq by done; done.
  - rewrite bufat_upd_eq by done. by rewrite view_miss.
  - intros m. apply view_eq; [done|done|done|..].
    + intros c Hc. rewrite bufat_upd by done. case_decide as Hbc; subst.
      * intros (_ & <- & _)%caches_true. simpl. by rewrite view_miss.
      * intros. symmetry. by apply view_hit.
    + intros c Hc Hcm. destruct (decide (b = c)) as [->|Hne].
      * left. apply caches_true in Hcm as (Hd & <- & Hf).
        apply (bw_clean s _ Hbw); [done|]. by destruct (bw_flags s _ Hbw) as [|[|]].
      * right. exists c. by rewrite bufat_upd_ne.
  - right. by rewrite bufat_upd_eq.
  - intros c Hc. by apply bufat_upd_ne.
  - intros m. unfold dirty, matches. split; intros (c & Hc & Hr); exists c; (split; [done|]);
      revert Hr; rewrite bufat_upd by done; case_decide; subst; intuition; done.
Qed.

(** bread() returns a locked buffer with the current contents of the block, and no user of the
    cache can tell that it ran. *)
Lemma wp_bread s n :
  bc_wf s -> 0 <= n < disksize s -> ~ heldn s n -> room s \/ dirty s n ->
  wp (bread 1 n) (fun b s' => bread_post s n b s') s.
Proof.
  intros Hwf Hn Hnh Hroom.
  destruct (bread_run s n Hwf Hn Hnh Hroom) as (b & Hb & H0 & [(Hm & Hf & Hr)|(H6 & Hu & Hr)]);
    eapply wp_ret_eq; [exact Hr|by apply grab_post|exact Hr|by apply load_post].
Qed.

(** *** Changing a held buffer *)

(** Steps on the held buffer of block [n] do not change what other blocks show. *)
Lemma view_other s s' b n m :
  bc_wf s -> bc_wf s' -> holds s b n -> holds s' b n -> m <> n ->
  (forall c, c <> b -> core (bufat s' c) = core (bufat s c)) ->
  dblock s' m = dblock s m -> view s' m = view s m.
Proof.
  intros Hwf Hwf' Hh Hh' Hm Hcore Hd.
  assert (Hb : forall t, holds t b n -> caches m (bufat t b) = false).
  { intros t Ht. apply not_true_is_false. intros (_ & H & _)%caches_true.
    apply Hm. rewrite <- H. apply Ht. }
  destruct (cached_dec s m) as [(c & Hc & Hcm)|Hno].
  - assert (Hcb : c <> b) by (intros ->; rewrite Hb in Hcm; done).
    rewrite (view_hit s m c) by done. rewrite (view_hit s' m c); [|done|done|].
    + specialize (Hcore c Hcb). unfold core in Hcore. by simplify_eq.
    + by rewrite (caches_core _ _ (bufat s c)) by auto.
  - rewrite !view_miss; auto. intros c Hc. destruct (decide (c = b)) as [->|Hcb]; [auto|].
    rewrite (caches_core _ _ (bufat s c)) by auto. auto.
Qed.

(** The states an operation on the held buffer [b] of block [n] leads to. *)
Record held_step (s : fsys) (b : nat) (n : Z) (s' : fsys) : Prop := {
  hs_wf : bc_wf s';
  hs_holds : holds s' b n;
  hs_view : forall m, 0 <= m -> view s' m = if decide (m = n) then b_data (bufat s' b) else view s m;
  hs_frame : bio_frame s s';
  hs_woken : woken s' = woken s;
  hs_others : forall c, c <> b -> bufat s' c = bufat s c;
}.

(** Change the contents or the flags of a held buffer. *)
Lemma upd_held s b n f :
  bc_wf s -> holds s b n ->
  (forall x, b_prev (f x) = b_prev x /\ b_next (f x) = b_next x /\ b_dev (f x) = b_dev x /\
     b_blockno (f x) = b_blockno x /\ b_lock (f x) = b_lock x /\ b_refcnt (f x) = b_refcnt x) ->
  b_flags (f (bufat s b)) = 2 \/ b_flags (f (bufat s b)) = 6 ->
  block_ok (b_data (f (bufat s b))) ->
  held_step s b n (upd_buf b f s).
Proof.
  intros Hwf Hh Hf Hfl Hok. pose proof (bc_len s Hwf) as Hlen.
  pose proof (ho_lt _ _ _ Hh) as Hb. pose proof (bc_bufs s Hwf b Hb) as Hbw.
  assert (Hl : (b < length (bufs s))%nat) by lia.
  destruct (Hf (bufat s b)) as (_ & _ & F3 & F4 & F5 & F6).
  assert (Hwf' : bc_wf (upd_buf b f s)).
  { apply bc_wf_upd; [done|done|intros x; split; apply Hf| |].
    - destruct Hbw. split; rewrite ?F3, ?F4, ?F5, ?F6; unfold flags_ok; try done; try tauto.
      + split; [apply Hh|done].
      + rewrite (ho_ref _ _ _ Hh). lia.
    - rewrite F3, F4. intros Hd c Hc Hne Hdc Heq. apply Hne. by apply (bc_uniq s Hwf). }
  assert (Hh' : holds (upd_buf b f s) b n).
  { destruct Hh as [? [] ? ?]. split; unfold matches; rewrite ?bufat_upd_eq by done;
      rewrite ?F3, ?F4, ?F6; [done..|]. lia. }
  split; auto with fsdb.
  - intros m _. case_decide; subst.
    + apply view_hit; [done..|]. by apply holds_caches.
    + apply (view_other _ _ b n); auto. intros c Hc. by rewrite bufat_upd_ne.
  - intros c Hc. by rewrite bufat_upd_ne.
Qed.

(** Writing the held buffer's block to the disk. *)
Lemma write_held s b n blk t :
  bc_wf s -> holds s b n -> block_ok blk ->
  held_step s b n (set_disk (<[Z.to_nat n := blk]> (memdisk s)) t s).
Proof.
  intros Hwf Hh Hok. pose proof (ho_lt _ _ _ Hh) as Hb.
  set (s' := set_disk _ _ _).
  assert (Hrange : 0 <= n < disksize s).
  { destruct Hh as [_ [Hd <-] _ _]. by apply (bc_bufs s Hwf b Hb). }
  assert (Hsz : disksize s' = disksize s) by (unfold disksize; simpl; by rewrite length_insert).
  assert (Hdb : forall m, 0 <= m -> m <> n -> dblock s' m = dblock s m).
  { intros m H0 Hne. unfold dblock. simpl. rewrite list_lookup_total_insert_ne; [done|lia]. }
  assert (Hwf' : bc_wf s').
  { destruct Hwf as [? ? ? Hbs Hu ?]. split; try done.
    - intros c Hc. destruct (Hbs c Hc) as [? ? ? ? ? Hr ? Hcl]. split; auto.
      { by rewrite Hsz. }
      change (bufat s' c) with (bufat s c). intros H0 H2. rewrite Hcl by done.
      destruct (Hbs c Hc) as [_ _ _ _ Hus _ _ _]. symmetry. apply Hdb.
      + apply Hr, Hus. by rewrite H2.
      + intros Heq. destruct Hh as [_ [Hm1 Hm2] Hrf _].
        rewrite (Hu c b) in H0; auto; [lia| |congruence]. apply Hus. by rewrite H2.
    - simpl. apply Forall_insert; done. }
  assert (Hh' : holds s' b n) by (by destruct Hh).
  split; [done|done| |by split|done|done].
  intros m H0. case_decide; subst.
  - apply view_hit; [done..|]. by apply (holds_caches s).
  - apply (view_other _ _ b n); auto.
Qed.

(** bwrite() puts the held buffer on the disk, and the buffer is then clean. *)
Record bwrite_post (s : fsys) (b : nat) (n : Z) (s' : fsys) : Prop := {
  bp_step : held_step s b n s';
  bp_data : b_data (bufat s' b) = b_data (bufat s b);
  bp_flags : b_flags (bufat s' b) = 2;
  bp_disk : memdisk s' = <[Z.to_nat n := b_data (bufat s b)]> (memdisk s);
  bp_trace : wtrace s' = wtrace s ++ [(n, b_data (bufat s b))];
}.

Lemma held_step_trans s1 s2 s3 b n :
  held_step s1 b n s2 -> held_step s2 b n s3 -> held_step s1 b n s3.
Proof.
  intros [] []. split; eauto using bio_frame_trans; try congruence.
  - intros m Hm. rewrite hs_view1 by done. case_decide; [done|]. rewrite hs_view0 by done.
    by rewrite decide_False.
  - intros c Hc. by rewrite hs_others1, hs_others0.
Qed.

Lemma holds_data_ok s b n : bc_wf s -> holds s b n -> block_ok (b_data (bufat s b)).
Proof. intros Hwf [Hb _ _ Hv]. by apply (bc_bufs s Hwf b Hb). Qed.

Lemma holds_range s b n : bc_wf s -> holds s b n -> 0 <= n < disksize s.
Proof. intros Hwf [Hb [Hd <-] _ _]. by apply (bc_bufs s Hwf b Hb). Qed.

Lemma holds_locked s b n :
  bc_wf s -> holds s b n ->
  (b < length (bufs s))%nat /\ sl_lk (b_lock (bufat s b)) = false /\
  sl_locked (b_lock (bufat s b)) = 1.
Proof.
  intros Hwf [Hb _ Hr _]. rewrite (bc_len s Hwf). destruct (bc_bufs s Hwf b Hb).
  split_and!; [lia|done|congruence].
Qed.

Lemma wp_bwrite s b n :
  bc_wf s -> holds s b n -> wp (bwrite b) (fun _ s' => bwrite_post s b n s') s.
Proof.
  intros Hwf Hh. destruct (holds_locked s b n Hwf Hh) as (Hlen & Hlk & Hlo).
  pose proof (holds_data_ok s b n Hwf Hh) as Hok. pose proof (holds_range s b n Hwf Hh) as Hrg.
  assert (Hfl : Z.lor (b_flags (bufat s b)) B_DIRTY = 6).
  { pose proof (ho_valid _ _ _ Hh). pose proof (bw_flags _ _ (bc_bufs s Hwf b (ho_lt _ _ _ Hh)))
      as [Hf|[Hf|Hf]]; [done|..]; by rewrite Hf. }
  unfold bwrite. apply wp_bind, (wp_buf_holding s b); [done..|]. rewrite Hlo. simpl.
  apply wp_bind, wp_modify. set (f := fun x => b_set_flags _ x).
  assert (Hat : bufat (upd_buf b f s) b = b_set_flags 6 (bufat s b)).
  { rewrite bufat_upd_eq by done. unfold f. by rewrite Hfl. }
  assert (H1 : held_step s b n (upd_buf b f s)).
  { apply upd_held; auto; done. }
  apply wp_iderw_write; rewrite ?Hat; try done.
  - by rewrite length_upd_buf.
  - simpl. by rewrite Hlo.
  - simpl. apply Hh.
  - simpl. destruct Hh as [_ [_ ->] _ _]. change (disksize (upd_buf b f s)) with (disksize s). lia.
  - simpl. replace (b_blockno (bufat s b)) with n by (symmetry; apply Hh).
    pose proof (write_held (upd_buf b f s) b n (b_data (bufat s b))
      (wtrace (upd_buf b f s) ++ [(n, b_data (bufat s b))]) (hs_wf _ _ _ _ H1)
      (hs_holds _ _ _ _ H1) Hok) as H2.
    set (s2 := set_disk _ _ _) in *.
    assert (Hat2 : bufat (upd_buf b (b_set_flags 2) s2) b = b_set_flags 2 (bufat s b)).
    { rewrite bufat_upd_eq by (simpl; by rewrite length_alter).
      change (bufat s2 b) with (bufat (upd_buf b f s) b). by rewrite Hat. }
    split; rewrite ?Hat2; try done.
    apply (held_step_trans _ _ _ _ _ H1), (held_step_trans _ _ _ _ _ H2).
    apply upd_held; [apply H2|apply H2|done|by left|].
    change (bufat s2 b) with (bufat (upd_buf b f s) b). by rewrite Hat.
Qed.

(** *** brelse *)

Lemma dll_ext d e d' e' h l :
  (forall x, d x = d' x) -> (forall x, e x = e' x) -> dll d e h l -> dll d' e' h l.
Proof. intros Hd He [H1 H2]. split; (eapply path_ext; [|eassumption]); auto. Qed.

(** The links of the buffers are the functions [d] and [e]. *)
Definition links (s : fsys) (d e : nat -> nat) : Prop :=
  (forall x, nx s x = d x) /\ (forall x, pv s x = e x).

Lemma links_set_next s d e c v :
  (c < length (bufs s))%nat -> links s d e ->
  links (upd_buf c (b_set_next v) s) (redirect d c v) e.
Proof.
  intros Hc [Hd He]. split; intros x; [unfold redirect; rewrite <- (Hd x)|rewrite <- (He x)]; unfold nx, pv; rewrite bufat_upd by done;
    repeat case_decide; subst; done.
Qed.

Lemma links_set_prev s d e c v :
  (c < length (bufs s))%nat -> links s d e ->
  links (upd_buf c (b_set_prev v) s) d (redirect e c v).
Proof.
  intros Hc [Hd He]. split; intros x; [rewrite <- (Hd x) | unfold redirect; rewrite <- (He x)];
    unfold nx, pv; rewrite bufat_upd by done; repeat case_decide; subst; done.
Qed.

(** States that differ in the links of the buffers only. *)
Record links_only (s s' : fsys) : Prop := {
  lo_core : forall c, core (bufat s' c) = core (bufat s c);
  lo_rest : set_bufs [] s' = set_bufs [] s;
  lo_len : length (bufs s') = length (bufs s);
}.

Lemma links_only_refl s : links_only s s.
Proof. done. Qed.

Lemma links_only_upd s s' c f :
  links_only s s' -> (forall x, core (f x) = core x) -> links_only s (upd_buf c f s').
Proof.
  intros [H1 H2 H3] Hf. split.
  - intros d. rewrite <- H1. destruct (decide (c < length (bufs s'))%nat) as [Hc|Hc].
    + rewrite bufat_upd by done. by case_decide.
    + unfold bufat, upd_buf. simpl. rewrite !list_lookup_total_alt.
      destruct (decide (c = d)) as [->|Hne]; [|by rewrite list_lookup_alter_ne].
      rewrite list_lookup_alter_eq. by rewrite (lookup_ge_None_2 (bufs s')) by lia.
  - by rewrite <- H2.
  - by rewrite length_upd_buf.
Qed.
#[export] Hint Resolve links_only_refl links_only_upd : fsdb.

(** move_to_front() as the two list operations it is made of. *)
Lemma move_to_front_links s b :
  (b < length (bufs s))%nat -> (head < length (bufs s))%nat -> b <> head ->
  (nx s b < length (bufs s))%nat -> (pv s b < length (bufs s))%nat -> nx s b <> b ->
  let d := redirect (nx s) (pv s b) (nx s b) in
  let e := redirect (pv s) (nx s b) (pv s b) in
  (d head < length (bufs s))%nat ->
  wp (move_to_front b) (fun _ s' => links_only s s' /\
    links s' (redirect (redirect d b (d head)) head b)
      (redirect (redirect e b head) (d head) b)) s.
Proof.
  intros Hb Hh Hbh Hn Hp Hnb d e Hdh. unfold move_to_front.
  apply wp_bind, wp_modify. fold (nx s b) (pv s b). set (s1 := upd_buf _ _ s).
  assert (L1 : links s1 (nx s) e) by (by apply links_set_prev).
  apply wp_bind, wp_modify. fold (nx s1 b) (pv s1 b).
  assert (Heb : e b = pv s b) by (unfold e, redirect; by rewrite decide_False).
  rewrite (proj1 L1), (proj2 L1), Heb.
  set (s2 := upd_buf _ _ s1).
  assert (L2 : links s2 d e).
  { apply links_set_next; [by unfold s1; rewrite length_upd_buf|done]. }
  do 2 (apply wp_bind, wp_modify). fold (nx s2 head). rewrite (proj1 L2).
  set (s4 := upd_buf b _ _).
  assert (L4 : links s4 (redirect d b (d head)) (redirect e b head)).
  { apply links_set_prev; [|apply links_set_next]; try done;
      unfold s2, s1; by rewrite !length_upd_buf. }
  apply wp_bind, wp_modify, wp_modify. fold (nx s4 head).
  assert (Hdd : redirect d b (d head) head = d head).
  { unfold redirect at 1. by rewrite decide_False. }
  rewrite (proj1 L4), Hdd.
  split; [unfold s4, s2, s1; auto 10 with fsdb|].
  apply links_set_next; [|apply links_set_prev]; try done;
    unfold s4, s2, s1; by rewrite !length_upd_buf.
Qed.

(** The buffers from the most to the least recently used. *)
Definition lru (s : fsys) (l : list nat) : Prop :=
  l ≡ₚ seq 0 NBUF /\ dll (nx s) (pv s) head l.

Lemma lru_nodup s l : lru s l -> NoDup (head :: l).
Proof.
  intros [Hp _]. apply NoDup_cons. rewrite Hp, elem_of_seq.
  split; [unfold head; lia|apply NoDup_seq].
Qed.

Lemma last_elem (l : list nat) p : List.last l p ∈ p :: l.
Proof.
  induction l as [|z l IH]; [set_solver|]. simpl. destruct l; [set_solver|]. set_solver.
Qed.

Lemma hd_elem (l : list nat) p : hd p l ∈ p :: l.
Proof. destruct l; set_solver. Qed.

Lemma wp_move_to_front s l1 b l2 :
  length (bufs s) = S NBUF -> lru s (l1 ++ b :: l2) ->
  wp (move_to_front b) (fun _ s' => links_only s s' /\ lru s' (b :: l1 ++ l2)) s.
Proof.
  intros Hlen Hl. pose proof (lru_nodup _ _ Hl) as Hnd. destruct Hl as [Hp Hd].
  destruct (dll_unlink _ _ _ _ _ _ Hnd Hd) as (Hpb & Hnb & Hu).
  assert (Hin : forall x, x ∈ head :: l1 ++ b :: l2 -> (x < length (bufs s))%nat).
  { intros x. rewrite elem_of_cons, Hp, elem_of_seq. unfold head. lia. }
  assert (Hnd' : NoDup (head :: b :: l1 ++ l2)).
  { eapply NoDup_Permutation_proper; [|exact Hnd]. constructor. apply Permutation_middle. }
  eapply wp_mono; [apply move_to_front_links|].
  - apply Hin. set_solver.
  - apply Hin. set_solver.
  - apply NoDup_cons in Hnd' as [Hh _]. set_solver.
  - apply Hin. rewrite Hnb. pose proof (hd_elem l2 head). set_solver.
  - apply Hin. rewrite Hpb. pose proof (last_elem l1 head). set_solver.
  - rewrite Hnb. pose proof (hd_elem l2 head) as Hhd. intros Heq. rewrite Heq in Hhd.
    apply NoDup_cons in Hnd' as [? Hnd']. apply NoDup_cons in Hnd' as [? _]. set_solver.
  - rewrite (path_first _ _ _ _ (proj1 Hu)). pose proof (hd_elem (l1 ++ l2) head).
    apply Hin. set_solver.
  - intros _ s' [Ho [Hn' Hp']]. split; [done|]. split.
    + rewrite <- Hp. apply Permutation_middle.
    + eapply dll_ext; [| |apply dll_push; [exact Hnd'|exact Hu]]; intros x.
      * by rewrite Hn'.
      * by rewrite Hp'.
Qed.

Lemma core_eq x y :
  core x = core y -> b_flags x = b_flags y /\ b_dev x = b_dev y /\ b_blockno x = b_blockno y /\
    b_lock x = b_lock y /\ b_refcnt x = b_refcnt y /\ b_data x = b_data y.
Proof. unfold core. intros. by simplify_eq. Qed.

(** The effect of brelse() on the buffer [b] of block [n]. *)
Record brelse_post (s : fsys) (b : nat) (n : Z) (s' : fsys) : Prop := {
  be_wf : bc_wf s';
  be_view : forall m, 0 <= m -> view s' m = view s m;
  be_frame : bio_frame s s';
  be_disk : memdisk s' = memdisk s /\ wtrace s' = wtrace s;
  be_woken : woken s' = woken s ++ [ChBufLock b];
  be_others : forall c, c <> b -> core (bufat s' c) = core (bufat s c);
  be_self : matches n (bufat s' b) /\ b_refcnt (bufat s' b) = 0 /\
    b_flags (bufat s' b) = b_flags (bufat s b) /\ b_data (bufat s' b) = b_data (bufat s b);
  be_lru : forall l1 l2, lru s (l1 ++ b :: l2) -> lru s' (b :: l1 ++ l2);
}.

(** The invariant and the views do not depend on the order of the list. *)
Lemma relink_wf s s' l :
  bc_wf s -> (forall c, core (bufat s' c) = core (bufat s c)) -> memdisk s' = memdisk s ->
  length (bufs s') = length (bufs s) -> bc_lock s' = false -> lru s' l ->
  bc_wf s' /\ forall m, view s' m = view s m.
Proof.
  intros Hwf Hc Hd Hlen Hlk Hl.
  assert (Hwf' : bc_wf s').
  { split; [rewrite Hlen; apply Hwf|done|by exists l| | |by rewrite Hd; apply Hwf].
    - intros b Hb. apply (buf_wf_core s _ _ (bufat s b)); auto. by apply Hwf.
    - intros b c Hb Hc'. destruct (core_eq _ _ (Hc b)) as (_ & -> & -> & _).
      destruct (core_eq _ _ (Hc c)) as (_ & -> & -> & _). by apply Hwf. }
  split; [done|]. intros m. apply view_eq; auto.
  - intros b Hb Hcm. destruct (core_eq _ _ (Hc b)) as (_ & _ & _ & _ & _ & ->).
    symmetry. apply view_hit; auto. by rewrite (caches_core _ _ (bufat s' b)) by auto.
  - intros b Hb Hcm. right. exists b. split; [done|].
    by rewrite (caches_core _ _ (bufat s b)) by auto.
Qed.

Lemma path_unique d p q l l' : path d p l q -> path d p l' q -> q ∉ l -> q ∉ l' -> l = l'.
Proof.
  revert p l'. induction l as [|x l IH]; intros p [|y l']; simpl; [done|..].
  - intros H1 [H2 _] _ Hn. set_solver.
  - intros [H1 _] H2 Hn. set_solver.
  - intros [H1 Hl] [H2 Hl'] Hn Hn'. rewrite <- H1, <- H2 in *. f_equal.
    apply (IH (d p)); set_solver.
Qed.

Lemma lru_unique s l l' : lru s l -> lru s l' -> l = l'.
Proof.
  intros Hl Hl'. pose proof (lru_nodup _ _ Hl) as [? _]%NoDup_cons.
  pose proof (lru_nodup _ _ Hl') as [? _]%NoDup_cons. destruct Hl as [_ [? _]], Hl' as [_ [? _]].
  by eapply path_unique.
Qed.

Lemma lru_split s b : bc_wf s -> (b < NBUF)%nat -> exists l1 l2, lru s (l1 ++ b :: l2).
Proof.
  intros Hwf Hb. destruct (bc_list s Hwf) as (l & Hp & Hd).
  destruct (list_elem_of_split l b) as (l1 & l2 & ->); [rewrite Hp, elem_of_seq; lia|].
  by exists l1, l2.
Qed.

Lemma lru_split_inj s b l1 l2 l1' l2' :
  lru s (l1 ++ b :: l2) -> lru s (l1' ++ b :: l2') -> l1 = l1' /\ l2 = l2'.
Proof.
  intros H1 H2. pose proof (lru_nodup _ _ H1) as [_ Hnd]%NoDup_cons.
  pose proof (lru_unique _ _ _ H1 H2) as Heq.
  apply NoDup_app in Hnd as (_ & Hd & [Hb _]%NoDup_cons). clear H1 H2. revert l1' Heq.
  induction l1 as [|x l1 IH]; intros [|y l1'] Heq; simplify_eq/=; [done|..].
  - exfalso. apply Hb. set_solver.
  - exfalso. apply (Hd b); set_solver.
  - destruct (IH ltac:(set_solver) l1' ltac:(done)) as [-> ->]. done.
Qed.

(** A buffer that nobody holds any more. *)
Definition freed (x : buf) : buf := b_set_refcnt 0 (b_set_lock (mkSleeplock 0 false 0) x).

Lemma freed_wf s b n :
  bc_wf s -> holds s b n -> b_flags (bufat s b) = 6 \/ b_data (bufat s b) = dblock s n ->
  bc_wf (upd_buf b freed s).
Proof.
  intros Hwf [Hb [Hm1 Hm2] Hr Hv] Hclean. pose proof (bc_bufs s Hwf b Hb) as Hbw.
  apply bc_wf_upd; [done..| |].
  - destruct Hbw. split; simpl; auto; try done. rewrite Hm2. intros _ H2.
    by destruct Hclean; [lia|].
  - simpl. intros _ c Hc Hne Hdc Heq. apply Hne. by apply (bc_uniq s Hwf).
Qed.

(** The code of brelse() before it moves the buffer. *)
Lemma brelse_free s b n (Q : unit -> fsys -> Prop) :
  bc_wf s -> holds s b n ->
  wp (when true (move_to_front b) ;; release bcache_lock) Q
    (set_bc_lock true (set_woken (woken s ++ [ChBufLock b]) (upd_buf b freed s))) ->
  wp (brelse b) Q s.
Proof.
  intros Hwf Hh HQ. destruct (holds_locked s b n Hwf Hh) as (Hlen & Hlk & Hlo).
  unfold brelse. apply wp_bind, (wp_buf_holding s b); [done..|]. rewrite Hlo. simpl.
  apply wp_bind, (wp_releasesleep (buf_lock b)); [done..|]. cbn [lset buf_lock].
  apply wp_bind, (wp_acquire bcache_lock); [apply Hwf|].
  apply wp_bind, wp_modify, wp_bind, wp_gets. set (s1 := upd_buf b _ _).
  assert (Hs1 : s1 = set_bc_lock true (set_woken (woken s ++ [ChBufLock b]) (upd_buf b freed s))).
  { transitivity (set_bc_lock true (set_woken (woken s ++ [ChBufLock b])
      (upd_buf b (fun x => b_set_refcnt (u32 (b_refcnt x - 1)) x)
         (upd_buf b (b_set_lock (mkSleeplock 0 false 0)) s)))); [done|].
    rewrite upd_buf_upd_buf. do 2 f_equal. apply upd_buf_ext. unfold freed. simpl.
    by rewrite (ho_ref _ _ _ Hh). }
  clearbody s1. subst s1. change (bufat (set_bc_lock _ _) b) with (bufat (upd_buf b freed s) b).
  rewrite bufat_upd_eq by done. exact HQ.
Qed.

(** brelse() makes the buffer free and the most recently used one. The caller has marked it
    dirty or left it as the disk has it. *)
Lemma wp_brelse s b n :
  bc_wf s -> holds s b n ->
  b_flags (bufat s b) = 6 \/ b_data (bufat s b) = dblock s n ->
  wp (brelse b) (fun _ s' => brelse_post s b n s') s.
Proof.
  intros Hwf Hh Hclean. destruct (holds_locked s b n Hwf Hh) as (Hlen & Hlk & Hlo).
  pose proof (ho_lt _ _ _ Hh) as Hb. pose proof (freed_wf s b n Hwf Hh Hclean) as Hwf1.
  destruct (lru_split s b Hwf Hb) as (l1 & l2 & Hl).
  apply (brelse_free s b n); [done..|]. set (s1 := set_bc_lock true _).
  assert (Hat : forall x, bufat s1 x = bufat (upd_buf b freed s) x) by done.
  assert (Hl1 : lru s1 (l1 ++ b :: l2)).
  { destruct Hl as [Hp Hd]. split; [done|]. eapply dll_ext; [| |exact Hd]; intros x;
      unfold nx, pv; rewrite Hat, bufat_upd by done; by case_decide. }
  eapply wp_seq; [apply wp_move_to_front; [by rewrite <- (bc_len _ Hwf1)|exact Hl1]|].
  intros _ s2 [[Hc Hr Hlen2] Hl2].
  assert (Hrest : bc_lock s2 = true /\ bio_frame s s2 /\ memdisk s2 = memdisk s /\
    wtrace s2 = wtrace s /\ woken s2 = woken s ++ [ChBufLock b]).
  { assert (P : forall A (f : fsys -> A), f (set_bufs [] s2) = f (set_bufs [] s1))
      by (intros; by rewrite Hr).
    split_and!; [exact (P _ bc_lock)| |exact (P _ memdisk)|exact (P _ wtrace)|exact (P _ woken)].
    split; [exact (P _ fslog)|exact (P _ sb)|exact (P _ ic_lock)|exact (P _ icache)
           |exact (P _ curpid)|exact (P _ disksize)]. }
  destruct Hrest as (Hlk2 & Hfr & Hd2 & Hw2 & Hwk2).
  apply (wp_release bcache_lock); [done|]. cbn [lset bcache_lock].
  destruct (relink_wf (upd_buf b freed s) (set_bc_lock false s2) (b :: l1 ++ l2)) as [Hwf2 Hv];
    [done|exact Hc|exact Hd2|exact Hlen2|done|exact Hl2|].
  pose proof (core_eq _ _ (Hc b)) as Hcb. rewrite Hat, bufat_upd_eq in Hcb by done.
  split; try done.
  - intros m Hm. rewrite Hv. apply view_eq; auto.
    + intros c Hc'. rewrite bufat_upd by done. case_decide; subst; intros;
        symmetry; by apply view_hit.
    + intros c Hc' Hcm. right. exists c. rewrite bufat_upd by done. by case_decide.
  - by destruct Hfr.
  - intros c Hne. change (bufat (set_bc_lock false s2) c) with (bufat s2 c).
    by rewrite Hc, Hat, bufat_upd_ne.
  - change (bufat (set_bc_lock false s2) b) with (bufat s2 b). unfold matches.
    destruct Hcb as (-> & -> & -> & _ & -> & ->). split; [apply Hh|done].
  - intros k1 k2 Hk. by destruct (lru_split_inj _ _ _ _ _ _ Hl Hk) as [<- <-].
Qed.

(** *** binit *)

(** The loop of binit() after the buffers below [i]. *)
Record binit_inv (r : fsys) (i : Z) (s : fsys) : Prop := {
  bi_len : length (bufs s) = S NBUF;
  bi_rest : set_bufs [] s = r;
  bi_dll : dll (nx s) (pv s) head (rev (seq 0 (Z.to_nat i)));
  bi_zero : forall b, (b < NBUF)%nat ->
    b_flags (bufat s b) = 0 /\ b_dev (bufat s b) = 0 /\ b_refcnt (bufat s b) = 0;
  bi_lock : forall b, (b < Z.to_nat i)%nat -> b_lock (bufat s b) = initsleeplock;
}.

Lemma links_set_lock s d e c v :
  (c < length (bufs s))%nat -> links s d e -> links (upd_buf c (b_set_lock v) s) d e.
Proof.
  intros Hc [Hd He]. split; intros x; [rewrite <- (Hd x) | rewrite <- (He x)];
    unfold nx, pv; rewrite bufat_upd by done; by case_decide.
Qed.

Lemma links_upd_link s b d e :
  (b < NBUF)%nat -> length (bufs s) = S NBUF -> links s d e -> (d head < S NBUF)%nat ->
  wp (binit_link b) (fun _ s' =>
    links s' (redirect (redirect d b (d head)) head b) (redirect (redirect e b head) (d head) b) /\
    links_only (upd_buf b (b_set_lock initsleeplock) s) s') s.
Proof.
  intros Hb Hlen Hl Hdh. unfold binit_link. apply wp_bind, wp_gets.
  do 3 apply wp_bind, wp_modify. fold (nx s head). rewrite (proj1 Hl).
  set (s3 := upd_buf b (b_set_lock _) (upd_buf _ _ _)).
  assert (L3 : links s3 (redirect d b (d head)) (redirect e b head)).
  { apply links_set_lock; [|apply links_set_prev; [|apply links_set_next]];
      rewrite ?length_upd_buf; auto with lia. }
  assert (K3 : length (bufs s3) = S NBUF) by (unfold s3; by rewrite !length_upd_buf).
  apply wp_bind, wp_modify, wp_modify. fold (nx s3 head). rewrite (proj1 L3).
  assert (Hdd : redirect d b (d head) head = d head).
  { unfold redirect at 1. rewrite decide_False; [done|]. unfold head. lia. }
  rewrite Hdd. split.
  - apply links_set_next; [|apply links_set_prev]; rewrite ?length_upd_buf, ?K3; auto.
  - do 2 (apply links_only_upd; [|done]). unfold s3. rewrite !upd_buf_upd_buf.
    split; [|done|by rewrite !length_upd_buf].
    intros c. rewrite !bufat_upd by lia. by case_decide.
Qed.

Lemma binit_link_inv r i s :
  0 <= i < Z.of_nat NBUF -> binit_inv r i s ->
  wp (binit_link (Z.to_nat i)) (fun _ s' => binit_inv r (i + 1) s') s.
Proof.
  intros Hi [Hlen Hrest Hdll Hz Hl].
  assert (Hin : forall x, x ∈ head :: rev (seq 0 (Z.to_nat i)) -> (x < S NBUF)%nat).
  { intros x. rewrite elem_of_cons, elem_of_rev, elem_of_seq. unfold head. lia. }
  eapply wp_mono; [apply (links_upd_link s _ (nx s) (pv s)); try done; [lia|]|].
  { rewrite (path_first _ _ _ _ (proj1 Hdll)). apply Hin, hd_elem. }
  intros _ s' [[Hn Hp] [Hc Hr Hlen']]. rewrite length_upd_buf in Hlen'.
  split; [lia|by rewrite <- Hrest| | |].
  - replace (Z.to_nat (i + 1)) with (S (Z.to_nat i)) by lia. rewrite seq_S, rev_app_distr. simpl.
    eapply dll_ext; [| |apply dll_push; [|exact Hdll]]; [intros; by rewrite ?Hn, ?Hp..|].
    apply NoDup_cons. split; [|apply NoDup_cons; split].
    + rewrite elem_of_cons, elem_of_rev, elem_of_seq. unfold head. lia.
    + rewrite elem_of_rev, elem_of_seq. lia.
    + apply NoDup_rev_of, NoDup_seq.
  - intros b Hb. destruct (core_eq _ _ (Hc b)) as (-> & -> & _ & _ & -> & _).
    rewrite bufat_upd by lia. case_decide; subst; by apply Hz.
  - intros b Hb. destruct (core_eq _ _ (Hc b)) as (_ & _ & _ & -> & _).
    rewrite bufat_upd by lia. case_decide; [done|]. apply Hl. lia.
Qed.

(** The kernel's buffers start zeroed. *)
Definition bufs_zero (s : fsys) : Prop :=
  length (bufs s) = S NBUF /\ forall b, (b < NBUF)%nat ->
    b_flags (bufat s b) = 0 /\ b_dev (bufat s b) = 0 /\ b_refcnt (bufat s b) = 0.

Lemma binit_inv_wf r s :
  Forall block_ok (memdisk r) -> bc_lock r = false -> binit_inv r (Z.of_nat NBUF) s ->
  bufs_zero s /\ bc_wf s /\ lru s (rev (seq 0 NBUF)) /\ forall n, view s n = dblock s n.
Proof.
  intros Hd Hlk [Hlen <- Hdll Hz Hl].
  assert (Hlru : lru s (rev (seq 0 NBUF))) by (split; [by rewrite <- Permutation_rev|done]).
  assert (Hwf : bc_wf s).
  { split; [done|done|by exists (rev (seq 0 NBUF))| | |done].
    - intros b Hb. destruct (Hz b Hb) as (H1 & H2 & H3).
      split; rewrite ?H1, ?H2, ?H3, ?Hl by done; unfold flags_ok; auto; done.
    - intros b c Hb Hc Hdb. destruct (Hz b Hb) as (_ & H & _). lia. }
  split_and!; [done..|]. intros n. apply view_miss; [done|]. intros b Hb.
  apply not_true_is_false. intros (H & _ & _)%caches_true.
  destruct (Hz b Hb) as (_ & H' & _). lia.
Qed.

Lemma wp_binit s :
  bufs_zero s -> Forall block_ok (memdisk s) ->
  wp binit (fun _ s' => set_bufs [] s' = set_bufs [] (set_bc_lock false s) /\
    bufs_zero s' /\ bc_wf s' /\ lru s' (rev (seq 0 NBUF)) /\
    forall n, view s' n = dblock s' n) s.
Proof.
  intros [Hlen Hz] Hd. unfold binit. do 3 apply wp_bind, wp_modify. set (s3 := upd_buf _ _ _).
  assert (L : links s3 (redirect (nx s) head head) (redirect (pv s) head head)).
  { apply links_set_next; [|apply links_set_prev; [|done]];
      rewrite ?length_upd_buf; simpl; rewrite Hlen; unfold head; lia. }
  eapply wp_mono.
  - apply (wp_for_range (binit_inv (set_bufs [] (set_bc_lock false s)))).
    + assert (Hlen3 : length (bufs s3) = S NBUF) by (unfold s3; by rewrite !length_upd_buf).
      split; try done.
      * split; simpl; [rewrite (proj1 L)|rewrite (proj2 L)]; unfold redirect;
          by rewrite decide_True.
      * intros b Hb. unfold s3. rewrite !bufat_upd_ne by (unfold head; lia). by apply Hz.
      * simpl. lia.
    + intros i s' Hi. apply binit_link_inv. lia.
  - intros r s' H. split; [apply H|]. by eapply (binit_inv_wf (set_bufs [] (set_bc_lock false s))).
Qed.
