(* ===== verification/Cache.v ===== *)
(** The buffer cache as log.c and fs.c use it.

    [cache s H D]: the cache is well formed, the blocks that some process holds are among [H]
    and the dirty ones among [D]. Each operation of bio.c has one rule on these assertions;
    the clients' proofs use the rules only. *)

From S2P Require Export BioSpec.

Open Scope kernel_scope.

Record cache (s : fsys) (H D : list Z) : Prop := {
  c_wf : bc_wf s;
  c_held : forall m, heldn s m -> m ∈ H;
  c_dirty : forall m, dirty s m -> m ∈ D;
}.

Lemma cache_weaken s H D H' D' : H ⊆ H' -> D ⊆ D' -> cache s H D -> cache s H' D'.
Proof. intros ? ? []. split; auto; set_solver. Qed.

Lemma cache_room s H D n :
  cache s H D -> (length H + length (filter (fun m => m <> n) D) < NBUF)%nat ->
  room s \/ dirty s n.
Proof.
  intros [] Hl.
  destruct (decide (Exists (fun b => (b_dev (bufat s b) = 1 /\ b_blockno (bufat s b) = n) /\
    b_flags (bufat s b) = 6) (seq 0 NBUF))) as [Hd|Hd].
  - right. apply Exists_exists in Hd as (b & Hb & ?). apply elem_of_seq in Hb.
    exists b. split; [lia|done].
  - left. exists (H ++ filter (fun m => m <> n) D). rewrite length_app. split; [done|].
    intros m [?%c_held0|Hm]; [set_solver|]. apply elem_of_app. right.
    apply list_elem_of_filter. split; [|by apply c_dirty0]. intros ->. apply Hd, Exists_exists.
    destruct Hm as (b & Hb & ?). exists b. split; [apply elem_of_seq; lia|done].
Qed.

Lemma cache_filter s H D n : cache s H (filter (fun m => m <> n) D) -> cache s H D.
Proof.
  intros []. split; auto. intros m Hm. by apply c_dirty0, list_elem_of_filter in Hm as [_ ?].
Qed.

Lemma cache_filter_cons s H D n : cache s H (filter (fun m => m <> n) (n :: D)) -> cache s H D.
Proof.
  intros []. split; auto. intros m Hm. apply c_dirty0, list_elem_of_filter in Hm. set_solver.
Qed.

Lemma filter_ne_le (D : list Z) n : (length (filter (fun m => m <> n) D) <= length D)%nat.
Proof. apply length_filter. Qed.

(** Everything but the buffers, the disk, its history and the wakeups. *)
Definition outside (s : fsys) : log * superblock * bool * list inode * Z * Z :=
  (fslog s, sb s, ic_lock s, icache s, curpid s, disksize s).

Lemma frame_outside s s' : bio_frame s s' -> outside s' = outside s.
Proof. intros []. unfold outside. congruence. Qed.

(** A step that no user of the cache can see. *)
Record quiet (s s' : fsys) : Prop := {
  q_view : forall m, 0 <= m -> view s' m = view s m;
  q_out : outside s' = outside s;
  q_disk : memdisk s' = memdisk s;
  q_trace : wtrace s' = wtrace s;
}.

Lemma quiet_refl s : quiet s s.
Proof. done. Qed.

Lemma quiet_trans s1 s2 s3 : quiet s1 s2 -> quiet s2 s3 -> quiet s1 s3.
Proof. intros [] []. split; [|congruence..]. intros m Hm. by rewrite q_view1, q_view0. Qed.

Lemma quiet_dblock s s' n : quiet s s' -> dblock s' n = dblock s n.
Proof. intros [_ _ Hd _]. unfold dblock. by rewrite Hd. Qed.

Lemma quiet_size s s' : quiet s s' -> disksize s' = disksize s.
Proof. intros [_ _ Hd _]. unfold disksize. by rewrite Hd. Qed.

#[export] Hint Resolve quiet_refl quiet_trans : fsdb.

(** *** Held buffers are stable under operations on other buffers *)

Lemma holds_same s s' b n : core (bufat s' b) = core (bufat s b) -> holds s b n -> holds s' b n.
Proof.
  intros Hc [H1 H2 H3 H4]. destruct (core_eq _ _ Hc) as (E1 & E2 & E3 & _ & E5 & _).
  split; [done|destruct H2; split; congruence|congruence|congruence].
Qed.

Lemma holds_heldn s b n : holds s b n -> heldn s n.
Proof. intros []. by exists b. Qed.

Lemma holds_inj s b c n : bc_wf s -> holds s b n -> holds s c n -> b = c.
Proof.
  intros Hwf [? [] ? ?] [? [] ? ?]. apply (bc_uniq s Hwf); auto. congruence.
Qed.

Lemma holds_ne s b c n m : holds s b n -> holds s c m -> n <> m -> b <> c.
Proof. intros [_ [_ <-] _ _] [_ [_ <-] _ _] Hne ->. done. Qed.

(** *** The rules *)

Lemma heldn_others s s' b n :
  (forall c, c <> b -> core (bufat s' c) = core (bufat s c)) -> matches n (bufat s' b) ->
  forall m, heldn s' m -> m = n \/ heldn s m.
Proof.
  intros Hc [_ Hb] m (c & Hlt & Hm & Hr). destruct (decide (c = b)) as [->|Hne].
  - left. destruct Hm. congruence.
  - right. exists c. destruct (core_eq _ _ (Hc c Hne)) as (_ & E2 & E3 & _ & E5 & _).
    unfold matches in *. by rewrite <- E2, <- E3, <- E5.
Qed.

Lemma dirty_others s s' b n :
  (forall c, c <> b -> core (bufat s' c) = core (bufat s c)) -> matches n (bufat s' b) ->
  forall m, dirty s' m -> m = n /\ b_flags (bufat s' b) = 6 \/ dirty s m.
Proof.
  intros Hc [_ Hb] m (c & Hlt & Hm & Hr). destruct (decide (c = b)) as [->|Hne].
  - left. destruct Hm. split; [congruence|done].
  - right. exists c. destruct (core_eq _ _ (Hc c Hne)) as (E1 & E2 & E3 & _).
    unfold matches in *. by rewrite <- E1, <- E2, <- E3.
Qed.

(** The buffer [b] holds block [n] with the contents [blk]; [d] tells if it must be written
    before it is released. *)
Definition has (s : fsys) (b : nat) (n : Z) (blk : list Z) : Prop :=
  holds s b n /\ b_data (bufat s b) = blk.
Definition saved (s : fsys) (b : nat) (n : Z) : Prop :=
  b_flags (bufat s b) = 6 \/ b_data (bufat s b) = dblock s n.

Lemma has_other s s' b n blk :
  core (bufat s' b) = core (bufat s b) -> has s b n blk -> has s' b n blk.
Proof.
  intros Hc [Hh Hd]. split; [by eapply holds_same|].
  by destruct (core_eq _ _ Hc) as (_ & _ & _ & _ & _ & ->).
Qed.

Lemma saved_other s s' b n :
  core (bufat s' b) = core (bufat s b) -> dblock s' n = dblock s n -> saved s b n -> saved s' b n.
Proof.
  intros Hc Hd. unfold saved. destruct (core_eq _ _ Hc) as (-> & _ & _ & _ & _ & ->).
  by rewrite Hd.
Qed.

Lemma rule_bread s H D n :
  cache s H D -> n ∉ H -> 0 <= n < disksize s ->
  (length H + length (filter (fun m => m <> n) D) < NBUF)%nat ->
  wp (bread 1 n) (fun b s' =>
    cache s' (n :: H) D /\ has s' b n (view s n) /\ saved s' b n /\ quiet s s' /\
    forall c m, m ∈ H -> holds s c m -> c <> b /\ core (bufat s' c) = core (bufat s c)) s.
Proof.
  intros Hc Hn Hr Hl. destruct Hc as [Hwf Hh Hd].
  eapply wp_mono; [apply wp_bread; auto; eapply cache_room; [by split|done]|].
  intros b s' [Hwf' Hbn Hdt Hv Hfr (Hd1 & Hd2 & _) H0 Hcl Hot Hdi].
  assert (Hco : forall c, c <> b -> core (bufat s' c) = core (bufat s c)).
  { intros. by rewrite Hot. }
  split_and!; try done.
  - split; [done|..].
    + intros m Hm. destruct (heldn_others s s' b n Hco (ho_matches _ _ _ Hbn) m Hm);
        set_solver.
    + intros m Hm. apply Hd. by apply Hdi.
  - destruct Hcl as [?|Hdb]; [by left|right]. rewrite Hdb. unfold dblock. by rewrite Hd1.
  - split; auto. by apply frame_outside.
  - intros c m Hm Hcm. assert (c <> b) as Hne; [|split; [done|by apply Hco]].
    intros ->. pose proof (ho_ref _ _ _ Hcm). lia.
Qed.

(** Storing into the data of a held buffer. *)
Lemma rule_store s H D b n blk f :
  cache s H D -> has s b n blk -> block_ok (f blk) ->
  let s' := upd_buf b (fun x => b_set_data (f (b_data x)) x) s in
  cache s' H D /\ has s' b n (f blk) /\ outside s' = outside s /\
  (forall m, 0 <= m -> view s' m = if decide (m = n) then f blk else view s m) /\
  (forall c, c <> b -> bufat s' c = bufat s c).
Proof.
  intros [Hwf Hh Hd] [Hb <-] Hok s'.
  assert (Hlen : (b < length (bufs s))%nat) by (by apply (holds_locked s b n)).
  assert (Hs : held_step s b n s').
  { apply upd_held; auto; [done|]. simpl.
    destruct (bw_flags s _ (bc_bufs s Hwf b (ho_lt _ _ _ Hb))) as [?|?]; [|done].
    by destruct (ho_valid _ _ _ Hb). }
  assert (Hdt : b_data (bufat s' b) = f (b_data (bufat s b))).
  { unfold s'. by rewrite bufat_upd_eq. }
  destruct Hs as [? Hb' Hv ? ? Hot]. split_and!; auto.
  - split; [done|..].
    + intros m Hm. destruct (heldn_others s s' b n) with (m := m) as [->|?]; auto.
      * intros. by rewrite Hot.
      * apply Hb'.
      * apply Hh. by eapply holds_heldn.
    + intros m Hm. destruct (dirty_others s s' b n) with (m := m) as [[-> H6]|?]; auto.
      * intros. by rewrite Hot.
      * apply Hb'.
      * apply Hd. exists b. split; [apply Hb|]. split; [apply Hb|].
        unfold s' in H6. by rewrite bufat_upd_eq in H6.
  - by split.
  - intros m Hm. rewrite Hv by done. by rewrite Hdt.
Qed.

Lemma not_dirty s b n : bc_wf s -> holds s b n -> b_flags (bufat s b) <> 6 -> ~ dirty s n.
Proof.
  intros Hwf [Hb [] _ _] H6 (c & Hc & [] & Hf). assert (b = c) as <-; [|done].
  apply (bc_uniq s Hwf); auto. congruence.
Qed.

Lemma rule_bwrite s H D b n blk :
  cache s H D -> has s b n blk ->
  wp (bwrite b) (fun _ s' =>
    cache s' H (filter (fun m => m <> n) D) /\ has s' b n blk /\ saved s' b n /\
    outside s' = outside s /\ memdisk s' = <[Z.to_nat n := blk]> (memdisk s) /\
    wtrace s' = wtrace s ++ [(n, blk)] /\ (forall m, 0 <= m -> view s' m = view s m) /\
    (forall c, c <> b -> bufat s' c = bufat s c)) s.
Proof.
  intros [Hwf Hh Hd] [Hb <-]. eapply wp_mono; [by apply wp_bwrite|].
  intros _ s' [[Hwf' Hb' Hv Hfr _ Hot] Hdt Hfl Hdisk Htr].
  pose proof (holds_range s b n Hwf Hb) as Hrg.
  assert (Hco : forall c, c <> b -> core (bufat s' c) = core (bufat s c)).
  { intros. by rewrite Hot. }
  split_and!; auto.
  - split; [done|..].
    + intros m Hm. destruct (heldn_others s s' b n Hco (ho_matches _ _ _ Hb') m Hm) as [->|?];
        auto. apply Hh. by eapply holds_heldn.
    + intros m Hm. apply list_elem_of_filter. split.
      * intros ->. eapply (not_dirty s' b n); eauto. by rewrite Hfl.
      * apply Hd. destruct (dirty_others s s' b n Hco (ho_matches _ _ _ Hb') m Hm)
          as [[_ ?]|?]; [lia|done].
  - by split.
  - right. rewrite Hdt. unfold dblock. rewrite Hdisk. symmetry.
    apply list_lookup_total_insert_eq. unfold disksize in Hrg. lia.
  - by apply frame_outside.
  - intros m Hm. rewrite Hv by done. case_decide; [|done]. subst.
    rewrite Hdt. by apply holds_view.
Qed.

Lemma rule_brelse s H D b n blk :
  cache s (n :: H) D -> has s b n blk -> saved s b n ->
  wp (brelse b) (fun _ s' => cache s' H D /\ quiet s s' /\
    (forall c, c <> b -> core (bufat s' c) = core (bufat s c))) s.
Proof.
  intros [Hwf Hh Hd] [Hb <-] Hs. eapply wp_mono; [by apply wp_brelse|].
  intros _ s' [Hwf' Hv Hfr [Hd1 Hd2] _ Hot (Hm & Hr & Hfl & Hdt) _].
  split_and!; auto.
  - split; [done|..].
    + intros m Hm'. destruct (heldn_others s s' b n Hot Hm m Hm') as [->|Hs'].
      * exfalso. destruct Hm' as (c & Hc & [Hc1 Hc2] & Hc3). destruct Hm as [Hm1 Hm2].
        assert (c = b) as ->; [apply (bc_uniq s' Hwf'); auto; [apply Hb|congruence]|lia].
      * assert (Hmn : m <> n).
        { intros ->. destruct Hm' as (c & Hc & [Hc1 Hc2] & Hc3). destruct Hm as [Hm1 Hm2].
          assert (c = b) as ->; [apply (bc_uniq s' Hwf'); auto; [apply Hb|congruence]|lia]. }
        apply Hh in Hs'. set_solver.
    + intros m Hm'. apply Hd. destruct (dirty_others s s' b n Hot Hm m Hm') as [[-> ?]|?];
        [|done]. exists b. split; [apply Hb|]. split; [apply Hb|congruence].
  - split; auto. by apply frame_outside.
Qed.

(** Setting B_DIRTY on a held buffer, as log_write() does. *)
Lemma rule_dirty s H D b n blk :
  cache s H D -> has s b n blk ->
  let s' := upd_buf b (fun x => b_set_flags (Z.lor (b_flags x) B_DIRTY) x) s in
  cache s' H (n :: D) /\ has s' b n blk /\ saved s' b n /\ quiet s s' /\
  (forall c, c <> b -> bufat s' c = bufat s c).
Proof.
  intros [Hwf Hh Hd] [Hb <-] s'.
  assert (Hlen : (b < length (bufs s))%nat) by (by apply (holds_locked s b n)).
  assert (Hfl : Z.lor (b_flags (bufat s b)) B_DIRTY = 6).
  { pose proof (ho_valid _ _ _ Hb).
    by destruct (bw_flags s _ (bc_bufs s Hwf b (ho_lt _ _ _ Hb))) as [|[->| ->]]. }
  assert (Hs : held_step s b n s').
  { apply upd_held; auto; [done|]. by eapply holds_data_ok. }
  assert (Hat : bufat s' b = b_set_flags 6 (bufat s b)).
  { unfold s'. rewrite bufat_upd_eq by done. by rewrite Hfl. }
  destruct Hs as [? Hb' Hv Hfr ? Hot].
  assert (Hco : forall c, c <> b -> core (bufat s' c) = core (bufat s c)).
  { intros. by rewrite Hot. }
  split_and!; auto.
  - split; [done|..].
    + intros m Hm. destruct (heldn_others s s' b n Hco (ho_matches _ _ _ Hb') m Hm) as [->|?];
        auto. apply Hh. by eapply holds_heldn.
    + intros m Hm. destruct (dirty_others s s' b n Hco (ho_matches _ _ _ Hb') m Hm)
        as [[-> _]|?%Hd]; set_solver.
  - split; [done|]. by rewrite Hat.
  - left. by rewrite Hat.
  - split; try done.
    intros m Hm. rewrite Hv by done. case_decide; [|done]. subst.
    rewrite Hat. by apply holds_view.
Qed.

(** *** Reading what was written *)

(** C8. The buffer cache behaves as one array of blocks: after a process writes block [n]
    through the cache (bread, store, bwrite, brelse), bread of any block [m] returns the new
    contents if it is the same block and the current contents otherwise, and the disk has the
    new contents. *)
Theorem cache_read_after_write s D n m blk :
  cache s [] D -> 0 <= n < disksize s -> 0 <= m < disksize s -> block_ok blk ->
  (length D < NBUF)%nat ->
  wp (b <- bread 1 n ;; modify (upd_buf b (fun x => b_set_data blk x)) ;; bwrite b ;; brelse b ;;
      c <- bread 1 m ;; gets (fun s => b_data (bufat s c)))
    (fun v s' => v = (if decide (m = n) then blk else view s m) /\ dblock s' n = blk /\
       cache s' [m] D) s.
Proof.
  intros Hc Hn Hm Hok Hl. pose proof (filter_ne_le D n). pose proof (filter_ne_le D m).
  eapply wp_seq; [apply (rule_bread s [] D n); [done|set_solver|done|simpl; lia]|].
  intros b s1 (C1 & T1 & _ & Q1 & _). apply wp_bind, wp_modify.
  destruct (rule_store s1 [n] D b n _ (fun _ => blk) C1 T1 Hok) as (C2 & T2 & O2 & V2 & _).
  eapply wp_seq; [apply (rule_bwrite _ [n] D b n blk C2 T2)|].
  intros _ s3 (C3 & T3 & S3 & O3 & K3 & _ & V3 & _). apply cache_filter in C3.
  eapply wp_seq; [apply (rule_brelse s3 [] D b n blk C3 T3 S3)|]. intros _ s4 (C4 & Q4 & _).
  assert (Hsz : disksize s4 = disksize s).
  { rewrite (quiet_size _ _ Q4). unfold disksize. rewrite K3, length_insert.
    change (length (memdisk (upd_buf b _ s1))) with (length (memdisk s1)).
    by rewrite (q_disk _ _ Q1). }
  eapply wp_seq; [apply (rule_bread s4 [] D m); [done|set_solver|by rewrite Hsz|simpl; lia]|].
  intros c s5 (C5 & T5 & _ & Q5 & _). apply wp_gets. rewrite (proj2 T5).
  split_and!; [|rewrite (quiet_dblock _ _ _ Q5), (quiet_dblock _ _ _ Q4)|done].
  - rewrite (q_view _ _ Q4), V3, V2 by lia. case_decide; [done|]. apply (q_view _ _ Q1). lia.
  - unfold dblock. rewrite K3. apply list_lookup_total_insert_eq.
    change (memdisk (upd_buf b _ s1)) with (memdisk s1). rewrite (q_disk _ _ Q1).
    unfold disksize in Hn. lia.
Qed.

(** A disk of three blocks and the cache after binit(). *)
Definition small_block (v : Z) : list Z := replicate (Z.to_nat BSIZE) v.
Definition small_start : fsys :=
  mkFsys (replicate 3 (small_block 0)) [] false
    (replicate (S NBUF) (mkBuf 0 0 0 initsleeplock 0 0 0 []))
    (mkLog false 0 0 0 0 0 (mkLh 0 [])) (mkSb 0 0 0 0 0 0 0) false [] [] 1.
Definition small_fs : fsys :=
  match binit small_start with Ret _ s => s | _ => small_start end.

Lemma small_block_ok v : is_byte v -> block_ok (small_block v).
Proof. intros Hv. split; [done|]. by apply Forall_replicate. Qed.

Lemma bufs_zero_cache s : bc_wf s -> bufs_zero s -> cache s [] [].
Proof.
  intros Hwf [_ Hz]. split; [done|..]; intros m (b & Hb & [Hm _] & _);
    destruct (Hz b Hb) as (_ & H & _); lia.
Qed.

Lemma small_fs_ok : cache small_fs [] [] /\ disksize small_fs = 3.
Proof.
  assert (Hz : bufs_zero small_start).
  { split; [done|]. intros b Hb.
    assert (Hat : bufat small_start b = mkBuf 0 0 0 initsleeplock 0 0 0 []); [|by rewrite Hat].
    apply list_lookup_total_correct, lookup_replicate_2. lia. }
  pose proof (wp_binit small_start Hz) as Hw. rewrite wp_run in Hw.
  destruct Hw as (r & s & Hr & Hrest & Hz' & Hwf & _).
  { apply Forall_replicate, small_block_ok. unfold is_byte. lia. }
  assert (Hs : small_fs = s) by (unfold small_fs; rewrite Hr; reflexivity). rewrite Hs.
  split; [by apply bufs_zero_cache|].
  change (disksize s) with (disksize (set_bufs [] s)). rewrite Hrest. reflexivity.
Qed.

Lemma cache_read_after_write_witness :
  wp (b <- bread 1 2 ;; modify (upd_buf b (fun x => b_set_data (small_block 7) x)) ;; bwrite b ;;
      brelse b ;; c <- bread 1 2 ;; gets (fun s => b_data (bufat s c)))
    (fun v s' => v = (if decide (2 = 2) then small_block 7 else view small_fs 2) /\
       dblock s' 2 = small_block 7 /\ cache s' [2] []) small_fs.
Proof.
  destruct small_fs_ok as [Hc Hd]. apply cache_read_after_write.
  - exact Hc.
  - rewrite Hd. lia.
  - rewrite Hd. lia.
  - apply small_block_ok. unfold is_byte. lia.
  - vm_compute. lia.
Defined.
