(* ===== verification/Log.v ===== *)
(** log.c: the write-ahead log, and readsb() of fs.c, which initlog() calls.

    The header block is read and written through its words: word 0 is [n], word [1+i] is
    [block[i]]. C leaves stores past the end of [log.lh.block] undefined; here they are
    dropped, and the theorems are about logs that fit. *)

From S2P Require Export Bio.

Open Scope kernel_scope.

Definition log_n (s : fsys) : Z := lh_n (l_lh (fslog s)).
Definition log_block (i : Z) (s : fsys) : Z := lh_block (l_lh (fslog s)) !!! Z.to_nat i.

Definition l_set_lh (v : logheader) (l : log) : log :=
  mkLog (l_lock l) (l_start l) (l_size l) (l_outstanding l) (l_committing l) (l_dev l) v.
Definition l_set_outstanding (v : Z) (l : log) : log :=
  mkLog (l_lock l) (l_start l) (l_size l) v (l_committing l) (l_dev l) (l_lh l).
Definition l_set_committing (v : Z) (l : log) : log :=
  mkLog (l_lock l) (l_start l) (l_size l) (l_outstanding l) v (l_dev l) (l_lh l).

Definition upd_log (f : log -> log) : M fsys unit := modify (fun s => set_log (f (fslog s)) s).
Definition set_log_n (v : Z) : M fsys unit :=
  upd_log (fun l => l_set_lh (mkLh v (lh_block (l_lh l))) l).
Definition set_log_block (i v : Z) : M fsys unit :=
  upd_log (fun l => l_set_lh (mkLh (lh_n (l_lh l)) (<[Z.to_nat i := v]> (lh_block (l_lh l)))) l).

(** [memmove(to->data, from->data, BSIZE)] *)
Definition copy_data (to from : nat) : M fsys unit :=
  modify (fun s => upd_buf to (fun x =>
    b_set_data (blit 0 (take (Z.to_nat BSIZE) (b_data (bufat s from))) (b_data x)) x) s).

(** A store into a buffer's data. *)
Definition upd_data (b : nat) (f : list Z -> list Z) : M fsys unit :=
  modify (upd_buf b (fun x => b_set_data (f (b_data x)) x)).

(** *** fs.c: the super block *)

Definition decode_sb (blk : list Z) : superblock :=
  mkSb (getw blk 0) (getw blk 1) (getw blk 2) (getw blk 3) (getw blk 4) (getw blk 5) (getw blk 6).

Definition readsb (dev : Z) : M fsys superblock :=
  bp <- bread dev 1 ;;
  v <- gets (fun s => decode_sb (b_data (bufat s bp))) ;;
  brelse bp ;;
  ret v.

(** *** log.c *)

Definition install_trans : M fsys unit :=
  n <- gets log_n ;;
  for_range (Z.to_nat n) 0 (fun tail =>
    l <- gets fslog ;;
    lbuf <- bread (l_dev l) (u32 (l_start l + tail + 1)) ;;
    dst <- gets (log_block tail) ;;
    dbuf <- bread (l_dev l) (u32 dst) ;;
    copy_data dbuf lbuf ;;
    bwrite dbuf ;;
    brelse lbuf ;;
    brelse dbuf).

Definition read_head : M fsys unit :=
  l <- gets fslog ;;
  b <- bread (l_dev l) (u32 (l_start l)) ;;
  lh <- gets (fun s => b_data (bufat s b)) ;;
  set_log_n (s32 (getw lh 0)) ;;
  n <- gets log_n ;;
  for_range (Z.to_nat n) 0 (fun i => set_log_block i (s32 (getw lh (1 + i)))) ;;
  brelse b.

Definition write_head : M fsys unit :=
  l <- gets fslog ;;
  b <- bread (l_dev l) (u32 (l_start l)) ;;
  n <- gets log_n ;;
  upd_data b (fun hb => setw hb 0 n) ;;
  for_range (Z.to_nat n) 0 (fun i =>
    v <- gets (log_block i) ;;
    upd_data b (fun hb => setw hb (1 + i) v)) ;;
  bwrite b ;;
  brelse b.

Definition recover_from_log : M fsys unit :=
  read_head ;;
  install_trans ;;
  set_log_n 0 ;;
  write_head.

(** [sizeof(struct logheader)] *)
Definition sizeof_logheader : Z := 4 + 4 * LOGSIZE.

Definition initlog (dev : Z) : M fsys unit :=
  if BSIZE <=? sizeof_logheader then panic "initlog: too big logheader" else
  upd_log (fun l => mkLog false (l_start l) (l_size l) (l_outstanding l) (l_committing l)
                      (l_dev l) (l_lh l)) ;;
  v <- readsb dev ;;
  upd_log (fun l => mkLog (l_lock l) (s32 (sb_logstart v)) (s32 (sb_nlog v)) (l_outstanding l)
                      (l_committing l) dev (l_lh l)) ;;
  recover_from_log.

(** When begin_op() sleeps, it holds no lock and has changed nothing; woken, it takes the lock
    and tests again, as the call from its start does. *)
Definition begin_op : M fsys unit :=
  acquire log_lock ;;
  l <- gets fslog ;;
  if negb (l_committing l =? 0) then sleep ChLog log_lock
  else if LOGSIZE <? lh_n (l_lh l) + (l_outstanding l + 1) * MAXOPBLOCKS
       then sleep ChLog log_lock
  else
    upd_log (l_set_outstanding (l_outstanding l + 1)) ;;
    release log_lock.

Definition write_log : M fsys unit :=
  n <- gets log_n ;;
  for_range (Z.to_nat n) 0 (fun tail =>
    l <- gets fslog ;;
    to <- bread (l_dev l) (u32 (l_start l + tail + 1)) ;;
    src <- gets (log_block tail) ;;
    from <- bread (l_dev l) (u32 src) ;;
    copy_data to from ;;
    bwrite to ;;
    brelse from ;;
    brelse to).

Definition commit : M fsys unit :=
  n <- gets log_n ;;
  when (0 <? n) (
    write_log ;;
    write_head ;;
    install_trans ;;
    set_log_n 0 ;;
    write_head).

Definition end_op : M fsys unit :=
  acquire log_lock ;;
  upd_log (fun l => l_set_outstanding (l_outstanding l - 1) l) ;;
  l <- gets fslog ;;
  if negb (l_committing l =? 0) then panic "log.committing" else
  do_commit <- (if l_outstanding l =? 0
                then upd_log (l_set_committing 1) ;; ret true
                else wakeup ChLog ;; ret false) ;;
  release log_lock ;;
  when do_commit (
    commit ;;
    acquire log_lock ;;
    upd_log (l_set_committing 0) ;;
    wakeup ChLog ;;
    release log_lock).

(** The loop of log_write(): the index of [blockno] in the first [n] logged blocks, or [n]. *)
Definition log_index (blockno : Z) (s : fsys) : Z :=
  match list_find (fun v => u32 v = blockno) (take (Z.to_nat (log_n s)) (lh_block (l_lh (fslog s))))
  with
  | Some (i, _) => Z.of_nat i
  | None => log_n s
  end.

Definition log_write (b : nat) : M fsys unit :=
  l <- gets fslog ;;
  if (LOGSIZE <=? lh_n (l_lh l)) || (l_size l - 1 <=? lh_n (l_lh l))
  then panic "too big a transaction" else
  if l_outstanding l <? 1 then panic "log_write outside of trans" else
  acquire log_lock ;;
  blockno <- gets (fun s => b_blockno (bufat s b)) ;;
  i <- gets (log_index blockno) ;;
  set_log_block i (s32 blockno) ;;
  n <- gets log_n ;;
  when (i =? n) (set_log_n (n + 1)) ;;
  modify (upd_buf b (fun x => b_set_flags (Z.lor (b_flags x) B_DIRTY) x)) ;;
  release log_lock.
