(* ===== verification/LogSpec.v ===== *)
(** The write-ahead log: what commit() and recovery write, and why a crash at any point of
    either leaves the blocks of a transaction all old or all new. *)

From S2P Require Export Cache Log.

Open Scope kernel_scope.

(** *** Sequences of disk writes *)

Definition write1 (d : list (list Z)) (w : Z * list Z) : list (list Z) :=
  <[Z.to_nat (fst w) := snd w]> d.
Definition writes (ws : list (Z * list Z)) (d : list (list Z)) : list (list Z) :=
  foldl write1 d ws.

Definition blk (d : list (list Z)) (m : Z) : list Z := d !!! Z.to_nat m.

(** The block-number-indexed contents [f] after the writes. *)
Definition after1 (f : Z -> list Z) (w : Z * list Z) (m : Z) : list Z :=
  if decide (m = fst w) then snd w else f m.
Definition after (ws : list (Z * list Z)) (f : Z -> list Z) : Z -> list Z := foldl after1 f ws.

Lemma writes_app ws ws' d : writes (ws ++ ws') d = writes ws' (writes ws d).
Proof. apply foldl_app. Qed.

Lemma after_app ws ws' f : after (ws ++ ws') f = after ws' (after ws f).
Proof. apply foldl_app. Qed.

Lemma length_writes ws d : length (writes ws d) = length d.
Proof.
  revert d. induction ws as [|w ws IH]; intros d; [done|].
  change (length (writes ws (write1 d w)) = length d). rewrite IH. apply length_insert.
Qed.

Lemma after_ext ws f g m : f m = g m -> after ws f m = after ws g m.
Proof.
  revert f g. induction ws as [|w ws IH]; intros f g H; [done|]. simpl. apply IH.
  unfold after1. by case_decide.
Qed.

Lemma after_ne ws f m : m ∉ ws.*1 -> after ws f m = f m.
Proof.
  revert f. induction ws as [|w ws IH]; intros f Hm; [done|].
  change (after ws (after1 f w) m = f m). simpl in Hm. rewrite IH by set_solver. unfold after1. rewrite decide_False; [done|]. set_solver.
Qed.

(** With distinct targets, the order of the writes does not matter. *)
Lemma after_in ws f m v : NoDup (ws.*1) -> (m, v) ∈ ws -> after ws f m = v.
Proof.
  revert f. induction ws as [|w ws IH]; intros f Hnd Hin; [set_solver|].
  simpl in *. apply NoDup_cons in Hnd as [Hw Hnd].
  apply elem_of_cons in Hin as [<-|Hin]; [|by apply IH].
  change (after ws (after1 f (m, v)) m = v). rewrite after_ne by done.
  unfold after1. simpl. by rewrite decide_True.
Qed.

Lemma blk_writes ws d m :
  0 <= m -> Forall (fun w => 0 <= fst w < Z.of_nat (length d)) ws ->
  blk (writes ws d) m = after ws (blk d) m.
Proof.
  intros Hm. revert d. induction ws as [|w ws IH]; intros d Hws; [done|].
  apply Forall_cons in Hws as [Hw Hws]. 
  change (blk (writes ws (write1 d w)) m = after ws (after1 (blk d) w) m).
  rewrite IH; [|unfold write1; by rewrite length_insert]. apply after_ext.
  unfold write1, after1, blk. case_decide as Heq.
  - rewrite Heq. apply list_lookup_total_insert_eq. lia.
  - apply list_lookup_total_insert_ne. lia.
Qed.

(** From [s] to [s'] the disk received the writes [ws], which the cache shows too. *)
Record wrote (ws : list (Z * list Z)) (s s' : fsys) : Prop := {
  w_disk : memdisk s' = writes ws (memdisk s);
  w_trace : wtrace s' = wtrace s ++ ws;
  w_view : forall m, 0 <= m -> view s' m = after ws (view s) m;
  w_out : outside s' = outside s;
}.

Lemma wrote_quiet s s' : quiet s s' -> wrote [] s s'.
Proof. intros []. split; auto. by rewrite app_nil_r. Qed.

Lemma wrote_trans ws ws' s1 s2 s3 :
  wrote ws s1 s2 -> wrote ws' s2 s3 -> wrote (ws ++ ws') s1 s3.
Proof.
  intros [D1 T1 V1 O1] [D2 T2 V2 O2]. split.
  - by rewrite writes_app, D2, D1.
  - by rewrite T2, T1, app_assoc.
  - intros m Hm. rewrite V2, after_app by done. apply after_ext. by apply V1.
  - congruence.
Qed.

Lemma wrote_quiet_l ws s1 s2 s3 : quiet s1 s2 -> wrote ws s2 s3 -> wrote ws s1 s3.
Proof. intros H1%wrote_quiet H2. apply (wrote_trans [] ws _ _ _ H1 H2). Qed.

Lemma wrote_quiet_r ws s1 s2 s3 : wrote ws s1 s2 -> quiet s2 s3 -> wrote ws s1 s3.
Proof.
  intros H1 H2%wrote_quiet. rewrite <- (app_nil_r ws). apply (wrote_trans _ _ _ _ _ H1 H2).
Qed.

(** *** Copying a block *)

Lemma has_ok s H D b n v : cache s H D -> has s b n v -> block_ok v.
Proof. intros [Hwf _ _] [Hb <-]. by eapply holds_data_ok. Qed.

Lemma rule_copy s H D bd dst w bs src v :
  cache s H D -> has s bd dst w -> has s bs src v -> src <> dst ->
  wp (copy_data bd bs) (fun _ s' =>
    cache s' H D /\ has s' bd dst v /\ has s' bs src v /\ outside s' = outside s /\
    memdisk s' = memdisk s /\ wtrace s' = wtrace s /\
    (forall m, 0 <= m -> view s' m = if decide (m = dst) then v else view s m) /\
    (forall c, c <> bd -> bufat s' c = bufat s c)) s.
Proof.
  intros Hc Hd Hs Hne. pose proof (has_ok _ _ _ _ _ _ Hc Hs) as Hv.
  pose proof (has_ok _ _ _ _ _ _ Hc Hd) as Hw.
  assert (Heq : blit 0 (take (Z.to_nat BSIZE) v) w = v).
  { rewrite take_ge by (destruct Hv as [-> _]; done). apply blit_all.
    destruct Hv as [-> _], Hw as [-> _]. done. }
  apply wp_modify. rewrite (proj2 Hs).
  destruct (rule_store s H D bd dst w (blit 0 (take (Z.to_nat BSIZE) v)) Hc Hd) as
    (H1 & H2 & H3 & H4 & H5); [by rewrite Heq|]. rewrite Heq in *.
  split_and!; try done. apply (has_other s); [|done]. rewrite H5; [done|].
  apply (holds_ne _ _ _ _ _ (proj1 Hs) (proj1 Hd) Hne).
Qed.

(** The end of the loop bodies of write_log() and install_trans(), with both blocks held. *)
Lemma rule_copy_tail s H D bd dst w bs src v :
  cache s (src :: dst :: H) D -> has s bd dst w -> has s bs src v -> saved s bs src ->
  src <> dst -> src ∉ H -> dst ∉ H ->
  wp (copy_data bd bs ;; bwrite bd ;; brelse bs ;; brelse bd) (fun _ s' =>
    cache s' H (filter (fun m => m <> dst) D) /\ wrote [(dst, v)] s s') s.
Proof.
  intros Hc Hd Hs Hsv Hne HsH HdH.
  pose proof (holds_ne _ _ _ _ _ (proj1 Hs) (proj1 Hd) Hne) as Hbb.
  eapply wp_seq; [by apply (rule_copy s (src :: dst :: H) D bd dst w bs src v)|].
  intros _ s1 (C1 & D1 & S1 & O1 & K1 & T1 & V1 & B1).
  eapply wp_seq; [by apply (rule_bwrite s1 (src :: dst :: H) D bd dst v)|].
  intros _ s2 (C2 & D2 & W2 & O2 & K2 & T2 & V2 & B2).
  assert (Hdb : dblock s2 src = dblock s src).
  { unfold dblock. rewrite K2, K1. apply list_lookup_total_insert_ne.
    pose proof (holds_range _ _ _ (c_wf _ _ _ C1) (proj1 D1)).
    pose proof (holds_range _ _ _ (c_wf _ _ _ C1) (proj1 S1)). lia. }
  eapply wp_seq; [eapply (rule_brelse s2 (dst :: H) _ bs src v); [exact C2|..]|].
  { apply (has_other s1); [by rewrite B2|done]. }
  { eapply saved_other; [|exact Hdb|exact Hsv]. by rewrite B2, B1. }
  intros _ s3 (C3 & Q3 & B3).
  eapply wp_mono; [eapply (rule_brelse s3 H _ bd dst v); [exact C3|..]|].
  { eapply has_other; [|exact D2]. by rewrite B3. }
  { eapply saved_other; [| |exact W2]; [by rewrite B3|by apply quiet_dblock]. }
  intros _ s4 (C4 & Q4 & B4). split; [done|].
  eapply wrote_quiet_r; [|exact (quiet_trans _ _ _ Q3 Q4)].
  split; [by rewrite K2, K1|by rewrite T2, T1| |congruence].
  intros m Hm. rewrite V2, V1 by done. done.
Qed.

(** *** The log's place on the disk and its header *)

(** The blocks of the transaction. *)
Definition logged (s : fsys) : list Z :=
  take (Z.to_nat (log_n s)) (lh_block (l_lh (fslog s))).

Definition inlog (s : fsys) (m : Z) : Prop :=
  l_start (fslog s) <= m < l_start (fslog s) + l_size (fslog s).

Record log_wf (s : fsys) : Prop := {
  lg_dev : l_dev (fslog s) = 1;
  lg_start : 0 <= l_start (fslog s);
  lg_fit : l_start (fslog s) + l_size (fslog s) <= disksize s < 2 ^ 31;
  lg_len : length (lh_block (l_lh (fslog s))) = Z.to_nat LOGSIZE;
  lg_n : 0 <= log_n s < LOGSIZE /\ log_n s <= l_size (fslog s) - 1;
  lg_nodup : NoDup (logged s);
  lg_home : forall m, m ∈ logged s -> (0 <= m < disksize s /\ m <> 1) /\ ~ inlog s m;
}.

Lemma outside_log s s' : outside s' = outside s -> fslog s' = fslog s /\ disksize s' = disksize s.
Proof. unfold outside. intros. by simplify_eq. Qed.

Lemma log_wf_outside s s' : outside s' = outside s -> log_wf s -> log_wf s'.
Proof.
  intros [Hl Hd]%outside_log [H1 H2 H3 H4 H5 H6 H7].
  split; unfold logged, log_n, inlog in *; rewrite ?Hl, ?Hd; auto.
Qed.

Lemma length_logged s : log_wf s -> length (logged s) = Z.to_nat (log_n s).
Proof.
  intros [_ _ _ Hl Hn _ _]. unfold logged. rewrite length_take, Hl.
  unfold LOGSIZE, MAXOPBLOCKS in *. lia.
Qed.

Lemma logged_lookup s i :
  log_wf s -> (i < Z.to_nat (log_n s))%nat -> logged s !! i = Some (log_block (Z.of_nat i) s).
Proof.
  intros Hwf Hi. unfold logged, log_block. rewrite Nat2Z.id, lookup_take.
  rewrite decide_True by done. apply list_lookup_lookup_total_lt. rewrite (lg_len s Hwf).
  pose proof (lg_n s Hwf). unfold LOGSIZE, MAXOPBLOCKS in *. lia.
Qed.

Lemma log_block_outside i s s' : outside s' = outside s -> log_block i s' = log_block i s.
Proof. intros [Hl _]%outside_log. unfold log_block. by rewrite Hl. Qed.

(** The facts about the [i]-th block that both copy loops need. *)
Lemma log_entry s i :
  log_wf s -> 0 <= i < log_n s ->
  let h := log_block i s in
  let j := l_start (fslog s) + i + 1 in
  h ∈ logged s /\ u32 h = h /\ u32 j = j /\ 0 <= h < disksize s /\ 0 <= j < disksize s /\
  inlog s j /\ (j ∉ logged s) /\ h <> j.
Proof.
  intros Hwf Hi h j. destruct (lg_n s Hwf) as [_ Hn]. destruct (lg_fit s Hwf) as [Hf Hs].
  pose proof (lg_start s Hwf).
  assert (Hin : h ∈ logged s).
  { apply list_elem_of_lookup. exists (Z.to_nat i). rewrite logged_lookup by (done || lia).
    unfold h. do 2 f_equal. lia. }
  assert (Hj : inlog s j) by (unfold inlog, j; lia).
  assert (Hjn : j ∉ logged s) by (intros [_ Hb]%(lg_home s Hwf); done).
  destruct (lg_home s Hwf h Hin) as [Hh _].
  assert (Hjr : 0 <= j < disksize s) by (unfold inlog, j in *; lia).
  split_and!; auto; try lia; try (apply u32_small; lia).
  intros Heq. congruence.
Qed.

(** The writes of the first [k] turns of write_log() and of install_trans(). *)
Definition log_writes (s : fsys) (k : nat) : list (Z * list Z) :=
  (fun i : nat => (l_start (fslog s) + Z.of_nat i + 1, view s (log_block (Z.of_nat i) s)))
    <$> seq 0 k.
Definition home_writes (s : fsys) (k : nat) : list (Z * list Z) :=
  (fun i : nat => (log_block (Z.of_nat i) s, view s (l_start (fslog s) + Z.of_nat i + 1)))
    <$> seq 0 k.

Lemma log_writes_S s k :
  log_writes s (S k) = log_writes s k ++
    [(l_start (fslog s) + Z.of_nat k + 1, view s (log_block (Z.of_nat k) s))].
Proof. unfold log_writes. by rewrite seq_S, fmap_app. Qed.

Lemma home_writes_S s k :
  home_writes s (S k) = home_writes s k ++
    [(log_block (Z.of_nat k) s, view s (l_start (fslog s) + Z.of_nat k + 1))].
Proof. unfold home_writes. by rewrite seq_S, fmap_app. Qed.

(** Log blocks and home blocks are different blocks. *)
Lemma log_writes_targets s k m :
  log_wf s -> (k <= Z.to_nat (log_n s))%nat -> m ∈ (log_writes s k).*1 -> inlog s m.
Proof.
  intros Hwf Hk. unfold log_writes. rewrite <- list_fmap_compose.
  intros (i & -> & Hi%elem_of_seq)%list_elem_of_fmap. simpl.
  apply (log_entry s (Z.of_nat i) Hwf). lia.
Qed.

Lemma home_writes_targets s k m :
  log_wf s -> (k <= Z.to_nat (log_n s))%nat -> m ∈ (home_writes s k).*1 -> m ∈ logged s.
Proof.
  intros Hwf Hk. unfold home_writes. rewrite <- list_fmap_compose.
  intros (i & -> & Hi%elem_of_seq)%list_elem_of_fmap. simpl.
  apply (log_entry s (Z.of_nat i) Hwf). lia.
Qed.

Lemma filter_in_lt (D : list Z) n :
  n ∈ D -> (length (filter (fun m => m <> n) D) < length D)%nat.
Proof. intros H. apply (length_filter_lt _ _ n); [done|]. intros Hn. by apply Hn. Qed.

(** The start of the loop bodies: read two different blocks. *)
Lemma rule_bread2 s D x y (g : fsys -> Z) (k : nat -> nat -> M fsys unit) Q :
  cache s [] D -> x <> y -> 0 <= x < disksize s -> 0 <= y < disksize s ->
  (length D < NBUF)%nat -> (S (length (filter (fun m => m <> y) D)) < NBUF)%nat ->
  (forall s', outside s' = outside s -> u32 (g s') = y) ->
  (forall bx b s', cache s' [y; x] D -> has s' bx x (view s x) -> has s' b y (view s y) ->
     saved s' bx x -> saved s' b y -> quiet s s' -> wp (k bx b) Q s') ->
  wp (bx <- bread 1 x ;; v <- gets g ;; b <- bread 1 (u32 v) ;; k bx b) Q s.
Proof.
  intros C1 Hxy Hx Hy Hl Hl2 Hg Hk. pose proof (filter_ne_le D x).
  eapply wp_seq; [by apply (rule_bread s [] D); [|set_solver| |simpl; lia]|].
  intros bx s2 (C2 & T2 & V2 & Q2 & _). apply wp_bind, wp_gets. rewrite Hg by apply Q2.
  eapply wp_seq; [eapply (rule_bread s2 _ D); [exact C2|set_solver| |simpl; lia]|].
  { by rewrite (quiet_size _ _ Q2). }
  intros b s3 (C3 & T3 & V3 & Q3 & B3). destruct (B3 bx x ltac:(set_solver) (proj1 T2)) as [Hne Hco].
  apply Hk; auto.
  - by eapply has_other.
  - by rewrite <- (q_view _ _ Q2) by lia.
  - eapply saved_other; [exact Hco|by apply quiet_dblock|done].
  - by eapply quiet_trans.
Qed.

Lemma logged_small s : log_wf s -> (length (logged s) < NBUF)%nat.
Proof.
  intros Hwf. rewrite (length_logged s Hwf). pose proof (lg_n s Hwf).
  unfold LOGSIZE, NBUF, MAXOPBLOCKS in *. lia.
Qed.

Lemma wp_write_log s :
  cache s [] (logged s) -> log_wf s ->
  wp write_log (fun _ s' => cache s' [] (logged s) /\
    wrote (log_writes s (Z.to_nat (log_n s))) s s') s.
Proof.
  intros Hc Hwf. unfold write_log. apply wp_bind, wp_gets.
  pose proof (logged_small s Hwf) as HL. pose proof (lg_n s Hwf) as [Hn _].
  eapply wp_mono; [apply (wp_for_range (fun i s' =>
    cache s' [] (logged s) /\ wrote (log_writes s (Z.to_nat i)) s s'))|].
  - split; [done|]. by apply wrote_quiet.
  - intros i s1 Hi [C1 W1]. pose proof (w_out _ _ _ W1) as O1.
    destruct (log_entry s i Hwf) as (E1 & E2 & E3 & E4 & E5 & E6 & E7 & E8); [lia|].
    destruct (outside_log _ _ O1) as [L1 S1].
    apply wp_bind, wp_gets. rewrite L1, (lg_dev s Hwf), E3. pose proof (filter_in_lt _ _ E1).
    apply (rule_bread2 s1 (logged s) _ (log_block i s)); rewrite ?S1; auto; [lia|..].
    { intros s' Hs'. rewrite (log_block_outside i s) by congruence. done. }
    intros to from s3 C3 T3 F3 _ V3 Q3.
    eapply wp_mono; [eapply (rule_copy_tail s3 [] (logged s) to _ _ from _ _ C3);
      [exact T3|exact F3|done|done|set_solver..]|].
    intros _ s4 [C4 W4]. split; [by apply cache_filter in C4|].
    replace (Z.to_nat (i + 1)) with (S (Z.to_nat i)) by lia. rewrite log_writes_S.
    eapply wrote_trans; [exact W1|]. eapply wrote_quiet_l; [exact Q3|].
    replace (Z.of_nat (Z.to_nat i)) with i by lia. rewrite (w_view _ _ _ W1) in W4 by lia.
    rewrite after_ne in W4; [done|]. intros Hin. apply (lg_home s Hwf _ E1).
    by apply (log_writes_targets s (Z.to_nat i)); [|lia|].
  - intros r s' H. simpl in H. by rewrite Z2Nat.id in H by lia.
Qed.

Lemma logged_drop s i :
  log_wf s -> 0 <= i < log_n s ->
  drop (Z.to_nat i) (logged s) = log_block i s :: drop (S (Z.to_nat i)) (logged s) /\
  log_block i s ∉ drop (S (Z.to_nat i)) (logged s).
Proof.
  intros Hwf Hi.
  assert (Hd : drop (Z.to_nat i) (logged s) = log_block i s :: drop (S (Z.to_nat i)) (logged s)).
  { apply drop_S. rewrite logged_lookup by (done || lia). do 2 f_equal. lia. }
  split; [done|]. pose proof (lg_nodup s Hwf) as Hnd.
  rewrite <- (take_drop (Z.to_nat i) (logged s)), Hd in Hnd.
  apply NoDup_app in Hnd as (_ & _ & [H _]%NoDup_cons). done.
Qed.

Lemma wp_install_trans s :
  cache s [] (logged s) -> log_wf s ->
  wp install_trans (fun _ s' => cache s' [] [] /\
    wrote (home_writes s (Z.to_nat (log_n s))) s s') s.
Proof.
  intros Hc Hwf. unfold install_trans. apply wp_bind, wp_gets.
  pose proof (logged_small s Hwf) as HL. pose proof (lg_n s Hwf) as [Hn _].
  eapply wp_mono; [apply (wp_for_range (fun i s' =>
    cache s' [] (drop (Z.to_nat i) (logged s)) /\ wrote (home_writes s (Z.to_nat i)) s s'))|].
  - split; [done|]. by apply wrote_quiet.
  - intros i s1 Hi [C1 W1]. pose proof (w_out _ _ _ W1) as O1.
    destruct (log_entry s i Hwf) as (E1 & E2 & E3 & E4 & E5 & E6 & E7 & E8); [lia|].
    destruct (outside_log _ _ O1) as [L1 S1].
    apply wp_bind, wp_gets. rewrite L1, (lg_dev s Hwf), E3.
    destruct (logged_drop s i Hwf) as [Hd Hnd]; [lia|].
    assert (HLd : (length (drop (Z.to_nat i) (logged s)) < NBUF)%nat) by (rewrite length_drop; lia).
    assert (Hin : log_block i s ∈ drop (Z.to_nat i) (logged s)) by (rewrite Hd; set_solver).
    pose proof (filter_in_lt _ _ Hin).
    apply (rule_bread2 s1 (drop (Z.to_nat i) (logged s)) _ (log_block i s)); rewrite ?S1; auto; [lia|..].
    { intros s' Hs'. rewrite (log_block_outside i s) by congruence. done. }
    intros from to s3 C3 F3 T3 V3 _ Q3.
    eapply wp_mono; [eapply (rule_copy_tail s3 [] (drop (Z.to_nat i) (logged s)) to (log_block i s) _ from
        (l_start (fslog s) + i + 1));
      [eapply cache_weaken; [| |exact C3]; set_solver|exact T3|exact F3|done|done|set_solver..]|].
    intros _ s4 [C4 W4]. replace (Z.to_nat (i + 1)) with (S (Z.to_nat i)) by lia.
    split; [rewrite Hd in C4; by apply cache_filter_cons in C4|].
    rewrite home_writes_S. eapply wrote_trans; [exact W1|]. eapply wrote_quiet_l; [exact Q3|].
    replace (Z.of_nat (Z.to_nat i)) with i by lia. rewrite (w_view _ _ _ W1) in W4 by lia.
    rewrite after_ne in W4; [done|]. intros Hbad. apply E7.
    by apply (home_writes_targets s (Z.to_nat i)); [|lia|].
  - intros r s' [C W]. rewrite Z2Nat.id, drop_ge in * by (rewrite ?length_logged; done || lia).
    done.
Qed.

(** *** The header block *)

Fixpoint put_words (hb : list Z) (i : Z) (l : list Z) : list Z :=
  match l with
  | [] => hb
  | v :: l' => put_words (setw hb i v) (i + 1) l'
  end.

(** The header block that write_head() makes of [hb], for the blocks [l]. *)
Definition put_head (hb : list Z) (l : list Z) : list Z :=
  put_words (setw hb 0 (Z.of_nat (length l))) 1 l.

(** What read_head() reads in a header block. *)
Definition head_blocks (hb : list Z) : list Z :=
  (fun i => s32 (getw hb (1 + i))) <$> seqZ 0 (s32 (getw hb 0)).

Lemma put_words_snoc hb i l v :
  put_words hb i (l ++ [v]) = setw (put_words hb i l) (i + Z.of_nat (length l)) v.
Proof.
  revert hb i. induction l as [|w l IH]; intros hb i; simpl; [f_equal; lia|].
  rewrite IH. f_equal. lia.
Qed.

Lemma setw_ok hb i v : block_ok hb -> block_ok (setw hb i v).
Proof.
  intros [Hl Hb]. split; [unfold setw; by rewrite length_setf|]. by apply setf_byte.
Qed.

Lemma put_words_ok hb i l : block_ok hb -> block_ok (put_words hb i l).
Proof. revert hb i. induction l; intros; simpl; auto using setw_ok. Qed.

Lemma getw_setw_eq hb i v :
  0 <= i -> (Z.to_nat (4 * i) + 4 <= length hb)%nat -> getw (setw hb i v) i = u32 v.
Proof. intros Hi Hl. unfold getw, setw. by rewrite getf_setf_eq. Qed.

Lemma getw_setw_ne hb i j v : 0 <= i -> 0 <= j -> i <> j -> getw (setw hb j v) i = getw hb i.
Proof. intros Hi Hj Hne. unfold getw, setw. apply getf_setf_ne. lia. Qed.

Lemma getw_put_words_lt hb i l j : 0 <= j < i -> getw (put_words hb i l) j = getw hb j.
Proof.
  revert hb i. induction l as [|v l IH]; intros hb i Hj; simpl; [done|].
  rewrite IH by lia. by apply getw_setw_ne; lia.
Qed.

Lemma getw_put_words hb i l k v :
  0 <= i -> i + Z.of_nat (length l) <= BSIZE / 4 -> length hb = Z.to_nat BSIZE ->
  l !! k = Some v -> getw (put_words hb i l) (i + Z.of_nat k) = u32 v.
Proof.
  intros Hi. revert hb i k Hi. induction l as [|w l IH]; intros hb i k Hi Hl Hh Hk; [done|].
  simpl in *. change (BSIZE / 4) with 128 in *. change (Z.to_nat BSIZE) with 512%nat in *.
  destruct k as [|k]; simplify_eq/=.
  - rewrite Z.add_0_r, getw_put_words_lt by lia. apply getw_setw_eq; lia.
  - replace (i + Z.of_nat (S k)) with (i + 1 + Z.of_nat k) by lia.
    apply IH; [lia|lia| |done]. unfold setw. by rewrite length_setf.
Qed.

(** A header that was written is read back. *)
Lemma head_blocks_put_head hb l :
  block_ok hb -> (length l <= Z.to_nat LOGSIZE)%nat -> Forall (fun m => 0 <= m < 2 ^ 31) l ->
  head_blocks (put_head hb l) = l.
Proof.
  intros Hok Hl Hm. unfold LOGSIZE, MAXOPBLOCKS in Hl.
  assert (Hn : s32 (getw (put_head hb l) 0) = Z.of_nat (length l)).
  { unfold put_head. rewrite getw_put_words_lt by lia.
    rewrite getw_setw_eq; [|lia|destruct Hok as [-> _]; change (Z.to_nat BSIZE) with 512%nat; lia].
    rewrite u32_small by lia. apply s32_small. lia. }
  unfold head_blocks. rewrite Hn. apply list_eq. intros k. rewrite list_lookup_fmap.
  destruct (l !! k) as [v|] eqn:Hk.
  - pose proof (lookup_lt_Some _ _ _ Hk). rewrite lookup_seqZ_lt by lia. rewrite Z.add_0_l.
    change (Some (s32 (getw (put_head hb l) (1 + Z.of_nat k))) = Some v). f_equal.
    unfold put_head. erewrite getw_put_words; [|lia| | |done].
    + rewrite Forall_lookup in Hm. specialize (Hm k v Hk).
      rewrite u32_small by done. by apply s32_small.
    + change (BSIZE / 4) with 128. lia.
    + unfold setw. rewrite length_setf. apply Hok.
  - apply lookup_ge_None in Hk. by rewrite lookup_seqZ_ge by lia.
Qed.

Lemma wp_upd_data s H D b n v f (Q : unit -> fsys -> Prop) :
  cache s H D -> has s b n v -> block_ok (f v) ->
  (forall s', cache s' H D -> has s' b n (f v) -> outside s' = outside s ->
     memdisk s' = memdisk s -> wtrace s' = wtrace s ->
     (forall m, 0 <= m -> view s' m = if decide (m = n) then f v else view s m) -> Q tt s') ->
  wp (upd_data b f) Q s.
Proof.
  intros Hc Hh Hf HQ. apply wp_modify.
  destruct (rule_store s H D b n v f Hc Hh Hf) as (H1 & H2 & H3 & H4 & H5). by apply HQ.
Qed.

(** Write a held block that differs from the disk, and release it. *)
Lemma rule_flush s s0 H D b n v :
  cache s (n :: H) D -> has s b n v -> outside s = outside s0 -> memdisk s = memdisk s0 ->
  wtrace s = wtrace s0 ->
  (forall m, 0 <= m -> view s m = if decide (m = n) then v else view s0 m) ->
  wp (bwrite b ;; brelse b) (fun _ s' => cache s' H D /\ wrote [(n, v)] s0 s') s.
Proof.
  intros C1 T1 O1 K1 W1 V1.
  eapply wp_seq; [by apply (rule_bwrite s (n :: H) D b n v)|].
  intros _ s2 (C2 & T2 & S2 & O2 & K2 & W2 & V2 & _).
  eapply wp_mono; [by eapply (rule_brelse s2 H _ b n v)|].
  intros _ s3 (C3 & Q3 & _). split; [by apply cache_filter in C3|].
  eapply wrote_quiet_r; [|exact Q3].
  split; [by rewrite K2, K1|by rewrite W2, W1| |congruence].
  intros m Hm. rewrite V2, V1 by done. done.
Qed.

Lemma wp_write_head s D :
  cache s [] D -> log_wf s -> (length D < NBUF)%nat ->
  wp write_head (fun _ s' => cache s' [] D /\
    wrote [(l_start (fslog s), put_head (view s (l_start (fslog s))) (logged s))] s s') s.
Proof.
  intros Hc Hwf Hl. unfold write_head. apply wp_bind, wp_gets.
  pose proof (lg_start s Hwf) as H0. pose proof (lg_fit s Hwf) as Hf.
  pose proof (lg_n s Hwf) as Hn. set (ls := l_start (fslog s)) in *.
  rewrite (lg_dev s Hwf), (u32_small ls) by lia. pose proof (filter_ne_le D ls).
  eapply wp_seq; [apply (rule_bread s [] D); [done|set_solver|lia|simpl; lia]|].
  intros b s1 (C1 & T1 & _ & Q1 & _). pose proof (has_ok _ _ _ _ _ _ C1 T1) as Hok.
  destruct (outside_log _ _ (q_out _ _ Q1)) as [L1 _].
  assert (Hn1 : log_n s1 = log_n s) by (unfold log_n; by rewrite L1).
  apply wp_bind, wp_gets. rewrite Hn1. eapply wp_bind, wp_upd_data; [done..|by apply setw_ok|].
  intros s2 C2 T2 O2 K2 W2 V2.
  eapply wp_seq; [apply (wp_for_range (fun i s' =>
    let hb := put_words (setw (view s ls) 0 (log_n s)) 1 (take (Z.to_nat i) (logged s)) in
    cache s' [ls] D /\ has s' b ls hb /\ outside s' = outside s /\ memdisk s' = memdisk s /\
    wtrace s' = wtrace s /\
    forall m, 0 <= m -> view s' m = if decide (m = ls) then hb else view s m))|].
  - destruct Q1 as [V1 O1 K1 W1]. split_and!; try done; try congruence.
    intros m Hm. rewrite V2, V1 by done. done.
  - intros i s3 Hi (C3 & T3 & O3 & K3 & W3 & V3). apply wp_bind, wp_gets.
    rewrite (log_block_outside i s) by done.
    eapply wp_upd_data; [done..|by apply setw_ok, put_words_ok, setw_ok|].
    assert (Hput : take (Z.to_nat (i + 1)) (logged s) = take (Z.to_nat i) (logged s) ++ [log_block i s]).
    { replace (Z.to_nat (i + 1)) with (S (Z.to_nat i)) by lia. apply take_S_r.
      rewrite logged_lookup by (done || lia). do 2 f_equal. lia. }
    rewrite Hput, put_words_snoc, length_take, length_logged by done.
    replace (1 + Z.of_nat (Z.to_nat i `min` Z.to_nat (log_n s))) with (1 + i) by lia.
    intros s4 C4 T4 O4 K4 W4 V4. split_and!; try done; try congruence.
    intros m Hm. rewrite V4 by done. case_decide; [done|]. rewrite V3 by done.
    by rewrite decide_False.
  - intros [] s3 (C3 & T3 & O3 & K3 & W3 & V3). rewrite take_ge in * by (rewrite length_logged; done || lia).
    unfold put_head. rewrite length_logged, Z2Nat.id by (done || lia).
    by apply rule_flush.
Qed.

(** *** commit *)

Lemma cache_set_log l s H D : cache s H D -> cache (set_log l s) H D.
Proof.
  intros [[? ? ? Hb ? ?] ? ?]. split; [split; try done|done|done].
  intros b Hlt. by destruct (Hb b Hlt).
Qed.

(** A block that is neither held nor dirty is on the disk. *)
Lemma view_clean s H D m : cache s H D -> m ∉ H -> m ∉ D -> view s m = dblock s m.
Proof.
  intros [Hwf Hh Hd] HmH HmD. destruct (cached_dec s m) as [(b & Hb & Hc)|Hno].
  - rewrite (view_hit s m b) by done. apply caches_true in Hc as (H1 & H2 & H3).
    destruct (bc_bufs s Hwf b Hb) as [Hfl _ Hrf _ _ _ _ Hcl]. rewrite <- H2. apply Hcl.
    + destruct Hrf as [|Hr]; [done|]. destruct HmH. apply Hh. by exists b.
    + destruct Hfl as [|[|H6]]; [done..|]. destruct HmD. apply Hd. by exists b.
  - by rewrite view_miss.
Qed.

(** The writes of commit(): the contents of the transaction to the log, the header, the same
    contents to their home blocks, and the cleared header. *)
Definition new_head (s : fsys) : list Z := put_head (view s (l_start (fslog s))) (logged s).
Definition install_writes (s : fsys) : list (Z * list Z) :=
  (fun h => (h, view s h)) <$> logged s.
Definition commit_writes (s : fsys) : list (Z * list Z) :=
  log_writes s (Z.to_nat (log_n s)) ++ [(l_start (fslog s), new_head s)] ++
  install_writes s ++ [(l_start (fslog s), put_head (new_head s) [])].

Definition clear_log (s : fsys) : fsys :=
  set_log (l_set_lh (mkLh 0 (lh_block (l_lh (fslog s)))) (fslog s)) s.

Lemma clear_log_wf s : log_wf s -> log_wf (clear_log s).
Proof.
  intros [H1 H2 H3 H4 H5 H6 H7].
  split; try done; unfold logged, log_n; simpl; [|constructor|set_solver].
  change (log_n s) with (lh_n (l_lh (fslog s))) in *. unfold LOGSIZE, MAXOPBLOCKS. lia.
Qed.

Lemma log_writes_keys s k :
  (log_writes s k).*1 = (fun i : nat => l_start (fslog s) + Z.of_nat i + 1) <$> seq 0 k.
Proof. unfold log_writes. by rewrite <- list_fmap_compose. Qed.

Lemma log_writes_nodup s k : NoDup ((log_writes s k).*1).
Proof.
  rewrite log_writes_keys. apply NoDup_fmap_2_strong; [|apply NoDup_seq]. lia.
Qed.

(** After write_log() and write_head(), the log blocks show the contents of the transaction. *)
Lemma home_writes_after s s2 hb :
  log_wf s ->
  wrote (log_writes s (Z.to_nat (log_n s)) ++ [(l_start (fslog s), hb)]) s s2 ->
  home_writes s2 (Z.to_nat (log_n s)) = install_writes s.
Proof.
  intros Hwf W. destruct (outside_log _ _ (w_out _ _ _ W)) as [L2 _].
  apply list_eq. intros i. unfold home_writes, install_writes. rewrite !list_lookup_fmap.
  destruct (decide (i < Z.to_nat (log_n s))%nat) as [Hi|Hi].
  - rewrite lookup_seq_lt, logged_lookup by done. simpl.
    rewrite (log_block_outside _ s) by apply W. do 2 f_equal.
    destruct (log_entry s (Z.of_nat i) Hwf) as (_ & _ & _ & _ & E5 & _); [lia|].
    rewrite L2, (w_view _ _ _ W) by lia. rewrite after_app. simpl. unfold after1 at 1. simpl.
    rewrite decide_False by lia. apply after_in; [apply log_writes_nodup|].
    apply list_elem_of_fmap. exists i. split; [done|]. apply elem_of_seq. lia.
  - rewrite lookup_seq_ge by lia. rewrite lookup_ge_None_2 by (rewrite length_logged; done || lia).
    done.
Qed.

Lemma clear_log_outside s s' :
  outside s' = outside s -> outside (clear_log s') = outside (clear_log s).
Proof.
  unfold outside. intros [= H1 H2 H3 H4 H5 H6].
  change (disksize (clear_log s')) with (disksize s').
  change (disksize (clear_log s)) with (disksize s). simpl. congruence.
Qed.

Lemma logged_outside s s' : outside s' = outside s -> logged s' = logged s /\ log_n s' = log_n s.
Proof. intros [Hl _]%outside_log. unfold logged, log_n. by rewrite Hl. Qed.

Lemma start_not_entry s : log_wf s -> inlog s (l_start (fslog s)).
Proof. intros Hwf. unfold inlog. pose proof (lg_n s Hwf). lia. Qed.

Lemma start_not_log_write s k : l_start (fslog s) ∉ (log_writes s k).*1.
Proof.
  rewrite log_writes_keys. intros (i & Hi & _)%list_elem_of_fmap. lia.
Qed.

Lemma install_keys s : (install_writes s).*1 = logged s.
Proof. unfold install_writes. rewrite <- list_fmap_compose. by rewrite list_fmap_id. Qed.

Record committed (s s' : fsys) : Prop := {
  cm_cache : cache s' [] [];
  cm_disk : memdisk s' = writes (commit_writes s) (memdisk s);
  cm_trace : wtrace s' = wtrace s ++ commit_writes s;
  cm_view : forall m, 0 <= m -> view s' m = after (commit_writes s) (view s) m;
  cm_out : outside s' = outside (clear_log s);
}.

Lemma wp_commit s :
  cache s [] (logged s) -> log_wf s -> 0 < log_n s ->
  wp commit (fun _ s' => committed s s') s.
Proof.
  intros Hc Hwf Hpos. unfold commit. apply wp_bind, wp_gets.
  rewrite (proj2 (Z.ltb_lt _ _) Hpos). unfold when.
  set (ls := l_start (fslog s)). pose proof (lg_start s Hwf) as Hls. fold ls in Hls.
  eapply wp_seq; [by apply wp_write_log|]. intros _ s1 [C1 W1].
  destruct (outside_log _ _ (w_out _ _ _ W1)) as [L1 _].
  destruct (logged_outside _ _ (w_out _ _ _ W1)) as [G1 N1].
  assert (Hwf1 : log_wf s1) by (apply (log_wf_outside s); [apply W1|done]).
  eapply wp_seq; [apply (wp_write_head s1 (logged s)); [done|done|by apply logged_small]|].
  intros _ s2 [C2 W2]. rewrite G1, L1 in W2. fold ls in W2.
  rewrite (w_view _ _ _ W1), after_ne in W2 by (done || apply start_not_log_write).
  pose proof (wrote_trans _ _ _ _ _ W1 W2) as W12.
  destruct (logged_outside _ _ (w_out _ _ _ W12)) as [G2 N2].
  destruct (outside_log _ _ (w_out _ _ _ W12)) as [L2 _].
  eapply wp_seq; [apply (wp_install_trans s2); [by rewrite G2|]|].
  { apply (log_wf_outside s); [apply W12|done]. }
  intros _ s3 [C3 W3]. rewrite N2, (home_writes_after s s2 (new_head s)) in W3 by done.
  pose proof (wrote_trans _ _ _ _ _ W12 W3) as W13.
  apply wp_bind, wp_modify. change (set_log _ s3) with (clear_log s3).
  destruct (outside_log _ _ (w_out _ _ _ W13)) as [L3 _].
  eapply wp_mono; [apply (wp_write_head (clear_log s3) [])|].
  - by apply cache_set_log.
  - apply clear_log_wf, (log_wf_outside s); [apply W13|done].
  - vm_compute. lia.
  - intros _ s4 [C4 [D4 T4 V4 O4]].
    assert (Hst : l_start (fslog (clear_log s3)) = ls) by (unfold ls; simpl; by rewrite L3).
    assert (Hvs : view (clear_log s3) ls = new_head s).
    { change (view (clear_log s3) ls) with (view s3 ls). rewrite (w_view _ _ _ W13) by lia.
      rewrite after_app, after_ne.
      - rewrite after_app. simpl. unfold after1. simpl. by rewrite decide_True.
      - rewrite install_keys. intros Hin. apply (lg_home s Hwf ls Hin). by apply start_not_entry. }
    rewrite Hst, Hvs in D4, T4, V4. change (logged (clear_log s3)) with (@nil Z) in *.
    destruct W13 as [D13 T13 V13 O13].
    assert (Hcw : commit_writes s =
      ((log_writes s (Z.to_nat (log_n s)) ++ [(ls, new_head s)]) ++ install_writes s) ++
      [(ls, put_head (new_head s) [])]) by (unfold commit_writes; by rewrite <- !app_assoc).
    split; [done|rewrite Hcw..|].
    + rewrite D4, writes_app. unfold clear_log. simpl memdisk. by rewrite D13.
    + rewrite T4. unfold clear_log. simpl wtrace. rewrite T13. by rewrite <- !app_assoc.
    + intros m Hm. rewrite V4, (after_app _ [_]) by done. apply after_ext. by apply V13.
    + rewrite O4. by apply clear_log_outside.
Qed.
