(* ===== verification/Crash.v ===== *)
(** Recovery: what initlog() makes of a disk, and crash atomicity of commit() and of recovery
    itself. *)

From S2P Require Export LogSpec.

Open Scope kernel_scope.

(** *** readsb and read_head *)

(** Read a block and release it. *)
Lemma rule_peek {A} s D n (f : list Z -> A) :
  cache s [] D -> 0 <= n < disksize s -> (length D < NBUF)%nat ->
  wp (b <- bread 1 n ;; v <- gets (fun s => f (b_data (bufat s b))) ;; brelse b ;; ret v)
    (fun v s' => v = f (view s n) /\ cache s' [] D /\ quiet s s') s.
Proof.
  intros Hc Hn Hl. pose proof (filter_ne_le D n).
  eapply wp_seq; [apply (rule_bread s [] D); [done|set_solver|done|simpl; lia]|].
  intros b s1 (C1 & T1 & S1 & Q1 & _). apply wp_bind, wp_gets. rewrite (proj2 T1).
  eapply wp_seq; [by eapply (rule_brelse s1 [])|].
  intros _ s2 (C2 & Q2 & _). apply wp_ret. split_and!; [done..|by eapply quiet_trans].
Qed.

Lemma wp_readsb s D :
  cache s [] D -> 1 < disksize s -> (length D < NBUF)%nat ->
  wp (readsb 1) (fun v s' => v = decode_sb (view s 1) /\ cache s' [] D /\ quiet s s') s.
Proof. intros. apply rule_peek; [done|lia|done]. Qed.

(** The log header in memory replaced. *)
Definition with_lh (s : fsys) (n : Z) (bs : list Z) : fsys :=
  set_log (l_set_lh (mkLh n bs) (fslog s)) s.

Lemma with_lh_twice s n bs n' bs' : with_lh (with_lh s n bs) n' bs' = with_lh s n' bs'.
Proof. by destruct s as [? ? ? ? [] ? ? ? ? ?]. Qed.

Lemma length_head_blocks hb : length (head_blocks hb) = Z.to_nat (s32 (getw hb 0)).
Proof. unfold head_blocks. by rewrite length_fmap, length_seqZ. Qed.

Lemma head_blocks_lookup hb i :
  0 <= i < s32 (getw hb 0) ->
  head_blocks hb !! Z.to_nat i = Some (s32 (getw hb (1 + i))).
Proof.
  intros Hi. unfold head_blocks. rewrite list_lookup_fmap, lookup_seqZ_lt by lia. simpl.
  rewrite Z2Nat.id by lia. done.
Qed.

(** The loop of read_head() fills the header in memory. *)
Lemma read_head_loop s n bs hb :
  n = s32 (getw hb 0) -> 0 <= n <= LOGSIZE -> length bs = Z.to_nat LOGSIZE ->
  wp (for_range (Z.to_nat n) 0 (fun i => set_log_block i (s32 (getw hb (1 + i)))))
    (fun _ s' => exists bs', s' = with_lh s n bs' /\ length bs' = Z.to_nat LOGSIZE /\
       take (Z.to_nat n) bs' = head_blocks hb) (with_lh s n bs).
Proof.
  intros Hn Hr Hlen. eapply wp_mono; [apply (wp_for_range (fun i s' => exists bs',
    s' = with_lh s n bs' /\ length bs' = Z.to_nat LOGSIZE /\
    take (Z.to_nat i) bs' = take (Z.to_nat i) (head_blocks hb)))|].
  - by exists bs.
  - intros i s' Hi (bs' & -> & Hl & Ht). apply wp_modify.
    exists (<[Z.to_nat i := s32 (getw hb (1 + i))]> bs'). split_and!.
    + apply with_lh_twice.
    + by rewrite length_insert.
    + replace (Z.to_nat (i + 1)) with (S (Z.to_nat i)) by lia.
      erewrite !take_S_r; [|apply head_blocks_lookup; lia|apply list_lookup_insert_eq; lia].
      by rewrite take_insert_ge by lia; rewrite Ht.
  - intros r s' (bs' & -> & Hl & Ht). exists bs'. split_and!; [done..|].
    rewrite Z.add_0_l, Z2Nat.id in Ht by lia. rewrite Ht. apply take_ge.
    rewrite length_head_blocks. lia.
Qed.

Lemma wp_read_head s D hb :
  cache s [] D -> (length D < NBUF)%nat -> l_dev (fslog s) = 1 ->
  0 <= l_start (fslog s) < disksize s -> disksize s < 2 ^ 31 ->
  length (lh_block (l_lh (fslog s))) = Z.to_nat LOGSIZE ->
  hb = view s (l_start (fslog s)) -> 0 <= s32 (getw hb 0) <= LOGSIZE ->
  wp read_head (fun _ s' => exists bs, cache s' [] D /\ quiet (with_lh s (s32 (getw hb 0)) bs) s' /\
    length bs = Z.to_nat LOGSIZE /\ take (Z.to_nat (s32 (getw hb 0))) bs = head_blocks hb) s.
Proof.
  intros Hc Hl Hdev Hls Hsz Hlen Hhb Hn. unfold read_head. apply wp_bind, wp_gets.
  rewrite Hdev, u32_small by lia. pose proof (filter_ne_le D (l_start (fslog s))).
  eapply wp_seq; [apply (rule_bread s [] D); [done|set_solver|done|simpl; lia]|].
  intros b s1 (C1 & T1 & S1 & Q1 & _). apply wp_bind, wp_gets. rewrite (proj2 T1), <- Hhb.
  destruct (outside_log _ _ (q_out _ _ Q1)) as [L1 _].
  apply wp_bind, wp_modify, wp_bind, wp_gets. set (n := s32 (getw hb 0)) in *.
  change (log_n (set_log _ s1)) with n.
  eapply wp_seq; [apply (read_head_loop s1 n _ hb); [done|done|by rewrite L1]|].
  intros _ s2 (bs & -> & Hlb & Htk).
  eapply wp_mono; [eapply (rule_brelse (with_lh s1 n bs) [] D b (l_start (fslog s)) hb)|].
  - by apply cache_set_log.
  - destruct T1 as [[] Hd]. rewrite Hhb. done.
  - done.
  - intros _ s3 (C3 & Q3 & _). exists bs. split_and!; try done.
    destruct Q1 as [V1 O1 K1 W1], Q3 as [V3 O3 K3 W3].
    split; [|rewrite O3|rewrite K3|rewrite W3]; try done.
    + intros m Hm. rewrite V3 by done. by apply V1.
    + unfold outside in *. change (disksize (with_lh s1 n bs)) with (disksize s1).
      change (disksize (with_lh s n bs)) with (disksize s). simpl. congruence.
Qed.

(** *** Disks with a log *)

Definition dhead (ls : Z) (d : list (list Z)) : list Z := head_blocks (blk d ls).

(** A disk whose blocks [ls .. ls+size-1] are a log with a sensible header. *)
Record disk_log (ls size : Z) (d : list (list Z)) : Prop := {
  dl_start : 0 <= ls;
  dl_fit : ls + size <= Z.of_nat (length d) < 2 ^ 31;
  dl_ok : Forall block_ok d;
  dl_pos : 0 <= s32 (getw (blk d ls) 0);
  dl_n : Z.of_nat (length (dhead ls d)) < LOGSIZE /\ Z.of_nat (length (dhead ls d)) <= size - 1;
  dl_nodup : NoDup (dhead ls d);
  dl_home : forall m, m ∈ dhead ls d ->
    (0 <= m < Z.of_nat (length d) /\ m <> 1) /\ ~ (ls <= m < ls + size);
}.

Lemma disk_block_ok ls size d m :
  disk_log ls size d -> 0 <= m < Z.of_nat (length d) -> block_ok (blk d m).
Proof.
  intros Hd Hm. pose proof (dl_ok _ _ _ Hd) as Hok. rewrite Forall_lookup in Hok.
  eapply Hok. apply list_lookup_lookup_total_lt. lia.
Qed.

(** The writes of recovery on disk [d]. *)
Definition replay (ls : Z) (d : list (list Z)) : list (Z * list Z) :=
  (fun i : nat => (dhead ls d !!! i, blk d (ls + Z.of_nat i + 1)))
    <$> seq 0 (length (dhead ls d)).
Definition recover_writes (ls : Z) (d : list (list Z)) : list (Z * list Z) :=
  replay ls d ++ [(ls, put_head (blk d ls) [])].

(** The block [m] as recovery will leave it: the log's copy if the header names it. *)
Definition recovered (ls : Z) (d : list (list Z)) (m : Z) : list Z :=
  match list_find (fun h => h = m) (dhead ls d) with
  | Some (i, _) => blk d (ls + Z.of_nat i + 1)
  | None => blk d m
  end.

Lemma replay_keys ls d : (replay ls d).*1 = dhead ls d.
Proof.
  unfold replay. rewrite <- list_fmap_compose. apply list_eq. intros i.
  rewrite list_lookup_fmap. destruct (dhead ls d !! i) as [h|] eqn:Hi.
  - rewrite lookup_seq_lt by (by apply lookup_lt_Some in Hi). simpl.
    by rewrite (list_lookup_total_correct _ _ _ Hi).
  - apply lookup_ge_None in Hi. by rewrite lookup_seq_ge.
Qed.

Lemma find_in (l : list Z) m :
  NoDup l -> m ∈ l -> exists i, l !! i = Some m /\ list_find (fun h => h = m) l = Some (i, m).
Proof.
  intros Hnd Hin. destruct (list_find_elem_of (fun h => h = m) l m Hin eq_refl) as [[i x] Hf].
  pose proof Hf as (Hi & -> & _)%list_find_Some. by exists i.
Qed.

Lemma find_notin (l : list Z) m : m ∉ l -> list_find (fun h => h = m) l = None.
Proof. intros Hn. apply list_find_None. apply Forall_forall. intros x Hx ->. done. Qed.

(** Recovery leaves the recovered contents. *)
Lemma replay_recovered ls size d m :
  disk_log ls size d -> 0 <= m -> after (replay ls d) (blk d) m = recovered ls d m.
Proof.
  intros Hd Hm. unfold recovered. destruct (decide (m ∈ dhead ls d)) as [Hin|Hin].
  - destruct (find_in _ _ (dl_nodup _ _ _ Hd) Hin) as (i & Hi & ->).
    apply after_in; [rewrite replay_keys; apply Hd|]. apply list_elem_of_fmap. exists i.
    rewrite (list_lookup_total_correct _ _ _ Hi). split; [done|].
    apply elem_of_seq. apply lookup_lt_Some in Hi. lia.
  - rewrite find_notin by done. apply after_ne. by rewrite replay_keys.
Qed.

Lemma blk_view s D m : cache s [] D -> m ∉ D -> view s m = blk (memdisk s) m.
Proof. intros Hc Hm. by apply (view_clean s [] D); [done|set_solver|]. Qed.

(** The state in which recover_from_log() runs: nothing cached is dirty, and the log's
    parameters are set. *)
Record recovering (ls size : Z) (s : fsys) : Prop := {
  rc_cache : cache s [] [];
  rc_log : l_dev (fslog s) = 1 /\ l_start (fslog s) = ls /\ l_size (fslog s) = size;
  rc_len : length (lh_block (l_lh (fslog s))) = Z.to_nat LOGSIZE;
  rc_disk : disk_log ls size (memdisk s);
}.

Lemma nbuf_pos : (0 < NBUF)%nat.
Proof. vm_compute. lia. Qed.

(** The state after read_head(). *)
Lemma recovering_log_wf ls size s bs :
  recovering ls size s -> length bs = Z.to_nat LOGSIZE ->
  take (Z.to_nat (s32 (getw (blk (memdisk s) ls) 0))) bs = dhead ls (memdisk s) ->
  log_wf (with_lh s (s32 (getw (blk (memdisk s) ls) 0)) bs).
Proof.
  intros [_ (H1 & H2 & H3) _ Hd] Hlen Htk. set (n := s32 _) in *.
  assert (Hn : Z.of_nat (length (dhead ls (memdisk s))) = n).
  { unfold dhead. rewrite length_head_blocks. fold n. pose proof (dl_pos _ _ _ Hd) as Hp.
    fold n in Hp. lia. }
  destruct Hd as [D1 D2 D3 D4 D5 D6 D7]. rewrite Hn in D5.
  split; unfold logged, log_n, inlog, disksize; simpl; rewrite ?H2, ?H3, ?Htk; auto.
  split; [|lia]. fold n in D4. lia.
Qed.

Lemma home_writes_replay ls size s s' bs :
  recovering ls size s ->
  take (Z.to_nat (s32 (getw (blk (memdisk s) ls) 0))) bs = dhead ls (memdisk s) ->
  length bs = Z.to_nat LOGSIZE ->
  quiet (with_lh s (s32 (getw (blk (memdisk s) ls) 0)) bs) s' ->
  home_writes s' (Z.to_nat (log_n s')) = replay ls (memdisk s).
Proof.
  intros Hr Htk Hlen Q. pose proof (recovering_log_wf _ _ _ _ Hr Hlen Htk) as Hwf.
  destruct Hr as [Hc (H1 & H2 & H3) _ Hd]. set (n := s32 _) in *.
  destruct (outside_log _ _ (q_out _ _ Q)) as [L _].
  assert (Hn : length (dhead ls (memdisk s)) = Z.to_nat n).
  { unfold dhead. by rewrite length_head_blocks. }
  assert (Hn' : log_n s' = n) by (unfold log_n; by rewrite L).
  rewrite Hn'. unfold replay, home_writes. rewrite Hn. apply list_fmap_ext.
  intros i j (-> & Hi)%lookup_seq. simpl.
  assert (Hst : l_start (fslog s') = ls) by (rewrite L; simpl; done).
  pose proof (dl_start _ _ _ Hd). f_equal.
  - unfold log_block. rewrite L. simpl. rewrite <- Htk, Nat2Z.id, list_lookup_total_alt.
    rewrite list_lookup_total_alt, lookup_take, decide_True by done. done.
  - rewrite Hst, (q_view _ _ Q) by lia. by apply (blk_view s []); [|set_solver].
Qed.

Lemma wp_recover_from_log ls size s :
  recovering ls size s ->
  wp recover_from_log (fun _ s' => cache s' [] [] /\
    (exists bs, fslog s' = l_set_lh (mkLh 0 bs) (fslog s) /\ length bs = Z.to_nat LOGSIZE) /\
    memdisk s' = writes (recover_writes ls (memdisk s)) (memdisk s) /\
    wtrace s' = wtrace s ++ recover_writes ls (memdisk s)) s.
Proof.
  intros Hr. pose proof Hr as [Hc (H1 & H2 & H3) Hlen Hd].
  pose proof (dl_start _ _ _ Hd) as Hls. pose proof (dl_fit _ _ _ Hd) as Hfit.
  pose proof (dl_pos _ _ _ Hd) as Hpos. pose proof (dl_n _ _ _ Hd) as Hn.
  unfold dhead in Hn. rewrite length_head_blocks in Hn.
  assert (Hv : view s ls = blk (memdisk s) ls) by (apply (blk_view s []); [done|set_solver]).
  set (d := memdisk s) in *. set (n := s32 (getw (blk d ls) 0)) in *.
  unfold recover_from_log. eapply wp_seq; [apply (wp_read_head s [] (blk d ls)); auto|].
  { apply nbuf_pos. } { rewrite H2. change (disksize s) with (Z.of_nat (length d)). lia. } { apply Hfit. }
  { by rewrite H2. } { fold n. lia. }
  fold n. intros _ s1 (bs & C1 & Q1 & Hlb & Htk).
  pose proof (recovering_log_wf _ _ _ _ Hr Hlb Htk) as Hwf0.
  assert (Hwf1 : log_wf s1) by (apply (log_wf_outside _ s1 (q_out _ _ Q1) Hwf0)).
  destruct (outside_log _ _ (q_out _ _ Q1)) as [L1 _].
  eapply wp_seq; [apply (wp_install_trans s1); [|done]|].
  { eapply cache_weaken; [| |exact C1]; set_solver. }
  intros _ s2 [C2 W2]. rewrite (home_writes_replay ls size s s1 bs Hr Htk Hlb Q1) in W2.
  destruct W2 as [D2 T2 V2 O2]. apply wp_bind, wp_modify.
  change (set_log _ s2) with (clear_log s2). destruct (outside_log _ _ O2) as [L2 _].
  assert (Hst : l_start (fslog (clear_log s2)) = ls).
  { simpl. rewrite L2, L1. done. }
  eapply wp_mono; [apply (wp_write_head (clear_log s2) [])|].
  - by apply cache_set_log.
  - by apply clear_log_wf, (log_wf_outside s1).
  - apply nbuf_pos.
  - intros _ s3 [C3 [D3 T3 _ O3]]. destruct (outside_log _ _ O3) as [L3 _].
    assert (Hv2 : view (clear_log s2) ls = blk d ls).
    { change (view (clear_log s2) ls) with (view s2 ls). rewrite V2 by done.
      rewrite after_ne.
      - rewrite (q_view _ _ Q1) by done. done.
      - rewrite replay_keys. intros Hin. destruct (dl_home _ _ _ Hd ls Hin). lia. }
    rewrite Hst, Hv2 in D3, T3. change (logged (clear_log s2)) with (@nil Z) in D3, T3.
    split_and!; [done|exists bs; simpl in L3; rewrite L3, L2, L1; done|..].
    + unfold recover_writes. rewrite writes_app, D3. simpl memdisk. rewrite D2.
      by rewrite (q_disk _ _ Q1).
    + unfold recover_writes. rewrite T3. simpl wtrace. rewrite T2, (q_trace _ _ Q1).
      by rewrite <- app_assoc.
Qed.

(** *** Crashes: prefixes of the writes *)

Definition ok_writes (d : list (list Z)) (ws : list (Z * list Z)) : Prop :=
  Forall (fun w => 0 <= fst w < Z.of_nat (length d) /\ block_ok (snd w)) ws.

Lemma ok_writes_range d ws :
  ok_writes d ws -> Forall (fun w => 0 <= fst w < Z.of_nat (length d)) ws.
Proof. intros H. eapply Forall_impl; [exact H|]. naive_solver. Qed.

Lemma blk_writes_ne ws d m :
  ok_writes d ws -> 0 <= m -> m ∉ ws.*1 -> blk (writes ws d) m = blk d m.
Proof.
  intros Hok Hm Hn. rewrite blk_writes; [|done|by apply ok_writes_range]. by apply after_ne.
Qed.

Lemma writes_blocks_ok ws d :
  ok_writes d ws -> Forall block_ok d -> Forall block_ok (writes ws d).
Proof.
  revert d. induction ws as [|w ws IH]; intros d Hok Hd; [done|].
  apply Forall_cons in Hok as [[Hw Hb] Hok]. apply (IH (write1 d w)).
  - unfold ok_writes, write1. by rewrite length_insert.
  - by apply Forall_insert.
Qed.

Lemma ok_writes_take d ws k : ok_writes d ws -> ok_writes d (take k ws).
Proof. apply Forall_take. Qed.

(** Writes to home blocks that the header names do not matter: recovery repeats them. *)
Lemma recovered_home ls size d ws :
  disk_log ls size d -> ok_writes d ws -> (forall m, m ∈ ws.*1 -> m ∈ dhead ls d) ->
  disk_log ls size (writes ws d) /\ dhead ls (writes ws d) = dhead ls d /\
  forall m, 0 <= m -> ~ (ls <= m < ls + size) ->
    recovered ls (writes ws d) m = recovered ls d m.
Proof.
  intros Hd Hok Hin. pose proof (dl_start _ _ _ Hd) as Hls. pose proof (dl_n _ _ _ Hd) as Hn.
  assert (Hlog : forall x, ls <= x < ls + size -> blk (writes ws d) x = blk d x).
  { intros x Hx. apply blk_writes_ne; [done|lia|]. intros Hbad%Hin.
    by destruct (dl_home _ _ _ Hd x Hbad). }
  assert (Hh : dhead ls (writes ws d) = dhead ls d).
  { unfold dhead. rewrite Hlog; [done|lia]. }
  split_and!; [|done|].
  - destruct Hd. split; rewrite ?length_writes, ?Hh; auto.
    + by apply writes_blocks_ok.
    + rewrite Hlog by lia. done.
  - intros m Hm Hml. unfold recovered. rewrite Hh.
    destruct (decide (m ∈ dhead ls d)) as [Hi|Hi].
    + destruct (find_in _ _ (dl_nodup _ _ _ Hd) Hi) as (i & Hl & ->). apply Hlog.
      apply lookup_lt_Some in Hl. lia.
    + rewrite find_notin by done. apply blk_writes_ne; [done|done|]. intros Hbad. auto.
Qed.

(** Writes to the log while its header is clear do not matter. *)
Lemma recovered_log ls size d ws :
  disk_log ls size d -> dhead ls d = [] -> ok_writes d ws ->
  (forall m, m ∈ ws.*1 -> ls < m < ls + size) ->
  disk_log ls size (writes ws d) /\ dhead ls (writes ws d) = [] /\
  forall m, 0 <= m -> ~ (ls <= m < ls + size) -> blk (writes ws d) m = blk d m.
Proof.
  intros Hd H0 Hok Hin. pose proof (dl_start _ _ _ Hd) as Hls.
  assert (Hlog : blk (writes ws d) ls = blk d ls).
  { apply blk_writes_ne; [done|done|]. intros Hbad%Hin. lia. }
  assert (Hh : dhead ls (writes ws d) = []) by (unfold dhead; by rewrite Hlog).
  split_and!; [|done|].
  - destruct Hd. split; rewrite ?length_writes, ?Hlog, ?Hh, ?H0 in *; auto.
    + by apply writes_blocks_ok.
  - intros m Hm Hml. apply blk_writes_ne; [done|done|]. intros Hbad%Hin. lia.
Qed.

Lemma getw_head_nil hb : block_ok hb -> s32 (getw (put_head hb []) 0) = 0.
Proof.
  intros [Hl _]. unfold put_head. simpl. rewrite getw_setw_eq; [done|lia|].
  rewrite Hl. vm_compute. lia.
Qed.

(** Clearing the header. *)
Lemma recovered_clear ls size d :
  disk_log ls size d ->
  let d' := writes [(ls, put_head (blk d ls) [])] d in
  disk_log ls size d' /\ dhead ls d' = [] /\
  forall m, 0 <= m -> ~ (ls <= m < ls + size) -> blk d' m = blk d m.
Proof.
  intros Hd d'. pose proof Hd as [D1 D2 D3 D4 D5 D6 D7].
  assert (Hb : block_ok (blk d ls)).
  { apply (disk_block_ok ls size); [done|lia]. }
  assert (Hok : ok_writes d [(ls, put_head (blk d ls) [])]).
  { repeat constructor; simpl; try lia; by apply setw_ok. }
  assert (Hls : blk d' ls = put_head (blk d ls) []).
  { unfold d'. rewrite blk_writes by (done || by apply ok_writes_range). simpl.
    unfold after1. simpl. by rewrite decide_True. }
  assert (Hn : dhead ls d' = []).
  { unfold dhead, head_blocks. rewrite Hls, getw_head_nil by done. done. }
  split_and!; [|done|].
  - split; rewrite ?Hn, ?Hls; unfold d'; rewrite ?length_writes; auto.
    + by apply writes_blocks_ok.
    + by rewrite getw_head_nil.
    + simpl. split; [done|lia].
    + constructor.
    + set_solver.
  - intros m Hm Hml. apply blk_writes_ne; [done|done|]. simpl. set_unfold. lia.
Qed.

Lemma replay_ok ls size d : disk_log ls size d -> ok_writes d (replay ls d).
Proof.
  intros Hd. apply Forall_forall. intros w (i & -> & Hi%elem_of_seq)%list_elem_of_fmap. simpl.
  pose proof Hd as [D1 D2 D3 D4 D5 D6 D7]. split.
  - apply D7. apply list_elem_of_lookup_total_2. lia.
  - apply (disk_block_ok ls size); [done|lia].
Qed.

Lemma replay_head ls size d :
  disk_log ls size d -> blk (writes (replay ls d) d) ls = blk d ls.
Proof.
  intros Hd. apply blk_writes_ne; [by eapply replay_ok|apply Hd|]. rewrite replay_keys.
  intros Hin. destruct (dl_home _ _ _ Hd ls Hin). pose proof (dl_n _ _ _ Hd). lia.
Qed.

(** Cut recovery short anywhere: recovering again gives the same contents. *)
Lemma recover_prefix ls size d k :
  disk_log ls size d ->
  let d' := writes (take k (recover_writes ls d)) d in
  disk_log ls size d' /\
  forall m, 0 <= m -> ~ (ls <= m < ls + size) -> recovered ls d' m = recovered ls d m.
Proof.
  intros Hd d'. pose proof (replay_ok _ _ _ Hd) as Hok.
  assert (Hp : forall j, disk_log ls size (writes (take j (replay ls d)) d) /\
    dhead ls (writes (take j (replay ls d)) d) = dhead ls d /\
    forall m, 0 <= m -> ~ (ls <= m < ls + size) ->
      recovered ls (writes (take j (replay ls d)) d) m = recovered ls d m).
  { intros j. apply recovered_home; [done|by apply ok_writes_take|].
    intros m Hm. rewrite <- (replay_keys ls d). rewrite fmap_take in Hm.
    by apply elem_of_take in Hm as (i & Hm%list_elem_of_lookup_2 & _). }
  unfold recover_writes in d'. destruct (decide (k <= length (replay ls d))%nat) as [Hk|Hk].
  - unfold d'. rewrite take_app_le by done. split; apply Hp.
  - assert (Heq : d' = writes [(ls, put_head (blk d ls) [])] (writes (replay ls d) d)).
    { unfold d'. rewrite take_ge by (rewrite length_app; simpl; lia). apply writes_app. }
    destruct (Hp (length (replay ls d))) as (H1 & H2 & H3). rewrite take_ge in H1, H2, H3 by lia.
    destruct (recovered_clear ls size _ H1) as (R1 & R2 & R3).
    rewrite (replay_head _ _ _ Hd), <- Heq in R1, R2, R3. split; [done|].
    intros m Hm Hml. unfold recovered at 1. rewrite R2. simpl. rewrite R3 by done.
    rewrite blk_writes by (done || by apply ok_writes_range).
    by apply (replay_recovered ls size).
Qed.

(** The super block survives a crash of recovery. *)
Lemma recover_prefix_blk1 ls size d k :
  disk_log ls size d -> ls <> 1 -> blk (writes (take k (recover_writes ls d)) d) 1 = blk d 1.
Proof.
  intros Hd Hls. pose proof (dl_n _ _ _ Hd). pose proof (dl_fit _ _ _ Hd). pose proof (dl_start _ _ _ Hd).
  apply blk_writes_ne; [|lia|].
  - apply ok_writes_take, Forall_app. split; [by apply (replay_ok ls size)|].
    apply Forall_singleton. simpl. split; [lia|].
    apply setw_ok, (disk_block_ok ls size); [done|lia].
  - rewrite fmap_take. intros (i & Hi%list_elem_of_lookup_2 & _)%elem_of_take.
    unfold recover_writes in Hi. rewrite fmap_app, replay_keys, elem_of_app in Hi.
    destruct Hi as [Hi|Hi%list_elem_of_singleton]; [|done].
    by destruct (dl_home _ _ _ Hd 1 Hi) as [[_ ?] _].
Qed.

(** The whole of recovery leaves the recovered contents and a clear log. *)
Lemma recover_final ls size d :
  disk_log ls size d ->
  let d' := writes (recover_writes ls d) d in
  disk_log ls size d' /\ dhead ls d' = [] /\
  forall m, 0 <= m -> ~ (ls <= m < ls + size) -> blk d' m = recovered ls d m.
Proof.
  intros Hd d'. pose proof (replay_ok _ _ _ Hd) as Hok.
  destruct (recovered_home ls size d (replay ls d) Hd Hok) as (H1 & H2 & H3).
  { intros m. by rewrite replay_keys. }
  destruct (recovered_clear ls size _ H1) as (R1 & R2 & R3).
  assert (Heq : d' = writes [(ls, put_head (blk d ls) [])] (writes (replay ls d) d)).
  { apply writes_app. }
  rewrite (replay_head _ _ _ Hd), <- Heq in R1, R2, R3. split_and!; [done..|].
  intros m Hm Hml. rewrite R3 by done.
  rewrite blk_writes by (done || by apply ok_writes_range).
  by apply (replay_recovered ls size).
Qed.

(** *** Crashes during commit *)

Section Commit.
Context (s : fsys).
Context (Hc : cache s [] (logged s)) (Hwf : log_wf s).

Let ls := l_start (fslog s).
Let size := l_size (fslog s).
Let d := memdisk s.
Let n := Z.to_nat (log_n s).

(** The log on the disk is clear: the previous transaction is complete. *)
Context (Hd : disk_log ls size d) (Hclear : dhead ls d = []).

Let logw := log_writes s n.
Let d1 := writes logw d.
Let d2 := writes [(ls, new_head s)] d1.

Lemma log_writes_length : length logw = n.
Proof. unfold logw, log_writes. by rewrite length_fmap, length_seq. Qed.

Lemma log_writes_ok : ok_writes d logw.
Proof.
  apply Forall_forall. intros w (i & -> & Hi%elem_of_seq)%list_elem_of_fmap. simpl.
  destruct (log_entry s (Z.of_nat i) Hwf) as (_ & _ & _ & E4 & E5 & _); [lia|].
  split; [exact E5|]. apply view_ok; [apply Hc|done].
Qed.

Lemma log_writes_strict m : m ∈ logw.*1 -> ls < m < ls + size.
Proof.
  unfold logw. rewrite log_writes_keys. intros (i & -> & Hi%elem_of_seq)%list_elem_of_fmap.
  pose proof (lg_n s Hwf). unfold size, ls, n in *. lia.
Qed.

(** Before the header is written, the old contents are recovered. *)
Lemma commit_before k :
  (k <= n)%nat ->
  disk_log ls size (writes (take k logw) d) /\
  forall m, 0 <= m -> ~ (ls <= m < ls + size) ->
    recovered ls (writes (take k logw) d) m = blk d m.
Proof.
  intros Hk. destruct (recovered_log ls size d (take k logw)) as (H1 & H2 & H3); auto.
  - apply ok_writes_take, log_writes_ok.
  - intros m Hm. apply log_writes_strict. rewrite fmap_take in Hm.
    by apply elem_of_take in Hm as (i & Hm%list_elem_of_lookup_2 & _).
  - split; [done|]. intros m Hm Hml. unfold recovered. rewrite H2. simpl. by apply H3.
Qed.

Lemma start_view : view s ls = blk d ls.
Proof.
  apply (blk_view s (logged s) ls Hc). intros Hin. apply (lg_home s Hwf ls Hin).
  by apply start_not_entry.
Qed.

Lemma new_head_ok : block_ok (new_head s).
Proof.
  apply put_words_ok, setw_ok, view_ok; [apply Hc|]. pose proof (lg_start s Hwf).
  pose proof (lg_fit s Hwf). pose proof (lg_n s Hwf). lia.
Qed.

Lemma d2_blk m :
  0 <= m -> blk d2 m = if decide (m = ls) then new_head s else after logw (blk d) m.
Proof.
  intros Hm. pose proof log_writes_ok as Hok. pose proof (start_not_entry s Hwf) as Hin.
  pose proof (lg_fit s Hwf) as Hf. pose proof (lg_start s Hwf).
  unfold d2. rewrite blk_writes; [|done|].
  - simpl. unfold after1. simpl. case_decide; [done|]. unfold d1.
    apply blk_writes; [done|]. by apply ok_writes_range.
  - repeat constructor; simpl; [done|]. unfold d1. rewrite length_writes.
    unfold inlog, ls in *. change (Z.of_nat (length d)) with (disksize s). lia.
Qed.

Lemma d2_head : dhead ls d2 = logged s.
Proof.
  unfold dhead. rewrite d2_blk by apply Hd. rewrite decide_True by done.
  apply head_blocks_put_head.
  - fold ls. rewrite start_view. apply (disk_block_ok ls size); [done|].
    pose proof (dl_start _ _ _ Hd). pose proof (dl_fit _ _ _ Hd). pose proof (dl_n _ _ _ Hd). lia.
  - rewrite length_logged by done. pose proof (lg_n s Hwf). lia.
  - apply Forall_forall. intros m [Hm _]%(lg_home s Hwf). pose proof (lg_fit s Hwf). lia.
Qed.

Lemma d2_log i :
  (i < n)%nat -> blk d2 (ls + Z.of_nat i + 1) = view s (logged s !!! i).
Proof.
  intros Hi. pose proof (dl_start _ _ _ Hd). rewrite d2_blk by lia.
  rewrite decide_False by lia. apply after_in; [apply log_writes_nodup|].
  apply list_elem_of_fmap. exists i. split; [|apply elem_of_seq; lia].
  erewrite (list_lookup_total_correct (logged s)) by (by apply logged_lookup). done.
Qed.

Lemma d2_disk_log : disk_log ls size d2.
Proof.
  pose proof Hd as [D1 D2 D3 D4 D5 D6 D7].
  assert (Hlen : length d2 = length d) by (unfold d2, d1; by rewrite !length_writes).
  pose proof (lg_n s Hwf) as Hn. pose proof (length_logged s Hwf) as Hll.
  split; rewrite ?d2_head, ?Hlen; try done.
  - apply writes_blocks_ok; [|by apply writes_blocks_ok; [apply log_writes_ok|]].
    repeat constructor; simpl; [lia| |apply new_head_ok|apply new_head_ok].
    unfold d1. rewrite length_writes. lia.
  - rewrite d2_blk, decide_True by done. unfold new_head, put_head.
    rewrite getw_put_words_lt by lia. rewrite getw_setw_eq; [|lia|].
    + rewrite u32_small, s32_small; unfold LOGSIZE, MAXOPBLOCKS in *; lia.
    + fold ls. rewrite start_view. destruct (disk_block_ok ls size d ls Hd) as [-> _]; [lia|].
      vm_compute. lia.
  - rewrite Hll. unfold size. lia.
  - apply Hwf.
  - intros m Hm. apply (lg_home s Hwf m Hm).
Qed.

(** The header write is the commit point: from then on the new contents are recovered. *)
Lemma commit_point m :
  0 <= m -> ~ (ls <= m < ls + size) -> recovered ls d2 m = view s m.
Proof.
  intros Hm Hml. unfold recovered. rewrite d2_head.
  destruct (decide (m ∈ logged s)) as [Hin|Hin].
  - destruct (find_in _ _ (lg_nodup s Hwf) Hin) as (i & Hi & ->).
    rewrite d2_log by (unfold n; rewrite <- (length_logged s Hwf); by apply lookup_lt_Some in Hi).
    by rewrite (list_lookup_total_correct _ _ _ Hi).
  - rewrite find_notin by done. rewrite d2_blk by done. pose proof (start_not_entry s Hwf).
    rewrite decide_False by (intros ->; done). rewrite after_ne.
    + symmetry. by apply (blk_view s (logged s)).
    + intros Hbad%log_writes_strict. lia.
Qed.

Lemma commit_writes_recover :
  commit_writes s = logw ++ (ls, new_head s) :: recover_writes ls d2.
Proof.
  unfold commit_writes, recover_writes, replay. fold n ls logw. simpl. do 2 f_equal.
  rewrite d2_blk by apply Hd. rewrite decide_True by done. f_equal.
  rewrite d2_head, length_logged by done. fold n. apply list_eq. intros i.
  unfold install_writes. rewrite !list_lookup_fmap.
  destruct (decide (i < n)%nat) as [Hi|Hi].
  - rewrite lookup_seq_lt by done. simpl. rewrite d2_log by done.
    rewrite list_lookup_lookup_total_lt by (rewrite length_logged; done). done.
  - rewrite lookup_seq_ge by lia. by rewrite lookup_ge_None_2 by (rewrite length_logged; done || lia).
Qed.

Lemma commit_prefix k :
  let d' := writes (take k (commit_writes s)) d in
  disk_log ls size d' /\
  forall m, 0 <= m -> ~ (ls <= m < ls + size) ->
    recovered ls d' m = if decide (k <= n)%nat then blk d m else view s m.
Proof.
  intros d'. pose proof log_writes_length as Hll. case_decide as Hk.
  - unfold d'. rewrite commit_writes_recover, take_app_le by lia. by apply commit_before.
  - assert (Heq : d' = writes (take (k - n - 1) (recover_writes ls d2)) d2).
    { unfold d'. rewrite commit_writes_recover, take_app_ge by lia. rewrite Hll.
      set (j := (k - n - 1)%nat). assert (Hj : (k - n)%nat = S j) by (unfold j; lia).
      rewrite Hj, writes_app. done. }
    rewrite Heq. destruct (recover_prefix ls size d2 (k - n - 1) d2_disk_log) as [H1 H2].
    split; [done|]. intros m Hm Hml. rewrite H2 by done. by apply commit_point.
Qed.

End Commit.

(** *** Rebooting *)

(** The code that runs over the disk when the machine starts: main()'s binit() and forkret()'s
    initlog(). *)
Definition reboot : M fsys unit := binit ;; initlog ROOTDEV.

(** The kernel's variables when it starts. *)
Record booted (s : fsys) : Prop := {
  bo_bufs : bufs_zero s;
  bo_log : length (lh_block (l_lh (fslog s))) = Z.to_nat LOGSIZE;
  bo_ops : l_outstanding (fslog s) = 0 /\ l_committing (fslog s) = 0;
}.

(** The super block of disk [d] describes its log. *)
Definition sb_says (ls size : Z) (d : list (list Z)) : Prop :=
  1 < ls /\ sb_logstart (decode_sb (blk d 1)) = ls /\ sb_nlog (decode_sb (blk d 1)) = size.

Lemma recover_prefix_sb ls size d k :
  disk_log ls size d -> sb_says ls size d ->
  sb_says ls size (writes (take k (recover_writes ls d)) d).
Proof.
  intros Hd (H1 & H2 & H3). unfold sb_says. rewrite (recover_prefix_blk1 ls size); [done|done|lia].
Qed.

Lemma wp_initlog ls size s :
  cache s [] [] -> length (lh_block (l_lh (fslog s))) = Z.to_nat LOGSIZE ->
  disk_log ls size (memdisk s) -> sb_says ls size (memdisk s) ->
  wp (initlog 1) (fun _ s' => cache s' [] [] /\
    (exists bs, fslog s' = mkLog false ls size (l_outstanding (fslog s)) (l_committing (fslog s)) 1
       (mkLh 0 bs) /\ length bs = Z.to_nat LOGSIZE) /\
    memdisk s' = writes (recover_writes ls (memdisk s)) (memdisk s) /\
    wtrace s' = wtrace s ++ recover_writes ls (memdisk s)) s.
Proof.
  intros Hc Hlen Hd (H1 & Hst & Hsz). unfold initlog. simpl (BSIZE <=? _). cbv iota.
  pose proof (dl_fit _ _ _ Hd) as Hf. pose proof (dl_n _ _ _ Hd) as Hn.
  apply wp_bind, wp_modify. set (s1 := set_log _ s).
  eapply wp_seq; [apply (wp_readsb s1 []); [by apply cache_set_log| |apply nbuf_pos]|].
  { change (disksize s1) with (Z.of_nat (length (memdisk s))). lia. }
  intros v s2 (Hv & C2 & Q2). apply wp_bind, wp_modify. set (s3 := set_log _ s2).
  rewrite (blk_view s1 [] 1) in Hv by (by apply cache_set_log || set_solver).
  change (memdisk s1) with (memdisk s) in Hv. subst v.
  destruct (outside_log _ _ (q_out _ _ Q2)) as [L2 _].
  assert (Hdk : memdisk s3 = memdisk s) by apply (q_disk _ _ Q2).
  assert (Htr : wtrace s3 = wtrace s) by apply (q_trace _ _ Q2).
  rewrite <- Hdk, <- Htr.
  assert (L3 : fslog s3 = mkLog false ls size (l_outstanding (fslog s)) (l_committing (fslog s)) 1
    (l_lh (fslog s))).
  { unfold s3. cbn [fslog set_log]. rewrite L2, Hst, Hsz, !s32_small by lia. done. }
  eapply wp_mono; [apply (wp_recover_from_log ls size); split|].
  - by apply cache_set_log.
  - by rewrite L3.
  - by rewrite L3.
  - by rewrite Hdk.
  - intros _ s' (C & (bs & Hl & Hlb) & D & T). split_and!; try done. exists bs.
    by rewrite Hl, L3.
Qed.

Lemma wp_reboot ls size s :
  booted s -> disk_log ls size (memdisk s) -> sb_says ls size (memdisk s) ->
  wp reboot (fun _ s' => cache s' [] [] /\
    (exists bs, fslog s' = mkLog false ls size (l_outstanding (fslog s)) (l_committing (fslog s)) 1
       (mkLh 0 bs) /\ length bs = Z.to_nat LOGSIZE) /\
    memdisk s' = writes (recover_writes ls (memdisk s)) (memdisk s) /\
    wtrace s' = wtrace s ++ recover_writes ls (memdisk s)) s.
Proof.
  intros [Hz Hlen _] Hd Hsb. unfold reboot.
  eapply wp_seq; [by apply wp_binit; [|apply Hd]|]. intros _ s1 (Hrest & Hz1 & Hwf1 & _).
  assert (P : forall A (f : fsys -> A), f (set_bufs [] s1) = f (set_bufs [] (set_bc_lock false s)))
    by (intros; by rewrite Hrest).
  pose proof (P _ memdisk) as P1. pose proof (P _ wtrace) as P2. pose proof (P _ fslog) as P3.
  simpl in P1, P2, P3. rewrite <- P1, <- P2, <- P3.
  apply (wp_initlog ls size); [by apply bufs_zero_cache|by rewrite P3|by rewrite P1..].
Qed.

(** Rebooting shows the recovered contents, and leaves a clear log. *)
Lemma wp_reboot_view ls size s :
  booted s -> disk_log ls size (memdisk s) -> sb_says ls size (memdisk s) ->
  wp reboot (fun _ s' => cache s' [] [] /\ log_n s' = 0 /\ dhead ls (memdisk s') = [] /\
    wtrace s' = wtrace s ++ recover_writes ls (memdisk s) /\
    forall m, 0 <= m -> ~ (ls <= m < ls + size) ->
      view s' m = recovered ls (memdisk s) m) s.
Proof.
  intros Hb Hd Hsb. eapply wp_mono; [by apply (wp_reboot ls size)|].
  intros _ s' (Hc & (bs & Hl & _) & Hdk & Htr).
  assert (Hn : log_n s' = 0) by (unfold log_n; by rewrite Hl). destruct (recover_final ls size _ Hd) as (_ & H2 & H3).
  split_and!; [done|done|by rewrite Hdk|done|].
  intros m Hm Hml. rewrite (blk_view s' []) by (done || set_solver). rewrite Hdk. by apply H3.
Qed.

(** *** Crash atomicity *)

(** A transaction ready to commit: nothing is held, the dirty blocks are the logged ones, and
    the log on the disk is clear. The super block is not part of it. *)
Record txn (s : fsys) : Prop := {
  tx_cache : cache s [] (logged s);
  tx_wf : log_wf s;
  tx_disk : disk_log (l_start (fslog s)) (l_size (fslog s)) (memdisk s);
  tx_clear : dhead (l_start (fslog s)) (memdisk s) = [];
  tx_sb : sb_says (l_start (fslog s)) (l_size (fslog s)) (memdisk s);
}.

Lemma commit_writes_keys s m :
  log_wf s -> m ∈ (commit_writes s).*1 -> inlog s m \/ m ∈ logged s.
Proof.
  intros Hwf. unfold commit_writes. rewrite !fmap_app, !elem_of_app, install_keys. simpl.
  rewrite !list_elem_of_singleton. pose proof (start_not_entry s Hwf).
  intros [Hm|[->|[Hm| ->]]]; auto. left. by apply (log_writes_targets s (Z.to_nat (log_n s))).
Qed.

Lemma commit_writes_ok s : txn s -> ok_writes (memdisk s) (commit_writes s).
Proof.
  intros [Hc Hwf Hd Hcl _]. rewrite (commit_writes_recover s Hc Hwf Hd).
  set (d2 := writes _ (writes _ _)).
  assert (Hd2 : disk_log (l_start (fslog s)) (l_size (fslog s)) d2) by (by apply d2_disk_log).
  assert (Hlen : length d2 = length (memdisk s)) by (unfold d2; by rewrite !length_writes).
  apply Forall_app. split; [by apply log_writes_ok|].
  pose proof Hd as [D1 D2 D3 D4 D5 D6 D7].
  assert (Hhd : forall hb, block_ok hb ->
    0 <= l_start (fslog s) < Z.of_nat (length (memdisk s)) /\ block_ok hb).
  { intros hb Hb. split; [|done]. lia. }
  apply Forall_cons. split; [apply Hhd, (new_head_ok s Hc Hwf)|].
  apply Forall_app. split.
  - pose proof (replay_ok _ _ _ Hd2) as Hr. unfold ok_writes in Hr. by rewrite Hlen in Hr.
  - apply Forall_singleton, Hhd, setw_ok, (disk_block_ok _ _ _ _ Hd2). lia.
Qed.

Lemma txn_sb s k :
  txn s ->
  sb_says (l_start (fslog s)) (l_size (fslog s))
    (writes (take k (commit_writes s)) (memdisk s)).
Proof.
  intros Ht. pose proof Ht as [Hc Hwf Hd Hcl (H1 & H2 & H3)]. unfold sb_says.
  rewrite blk_writes_ne; [done|by apply ok_writes_take, commit_writes_ok|lia|].
  rewrite fmap_take. intros (i & Hi & _)%elem_of_take.
  apply list_elem_of_lookup_2, (commit_writes_keys s 1 Hwf) in Hi as [Hi|Hi];
    [|by destruct (lg_home s Hwf 1 Hi) as [[_ ?] _]].
  unfold inlog in Hi. lia.
Qed.

Lemma crash_recovers s k s0 :
  txn s -> booted s0 -> memdisk s0 = writes (take k (commit_writes s)) (memdisk s) ->
  wp reboot (fun _ s' => cache s' [] [] /\ log_n s' = 0 /\
    forall m, 0 <= m -> ~ inlog s m ->
      view s' m = if decide (k <= Z.to_nat (log_n s))%nat then dblock s m else view s m) s0.
Proof.
  intros Ht Hb Hd0. pose proof Ht as [Hc Hwf Hd Hcl Hsb].
  destruct (commit_prefix s Hc Hwf Hd Hcl k) as [P1 P2]. rewrite <- Hd0 in P1, P2.
  eapply wp_mono; [apply (wp_reboot_view (l_start (fslog s)) (l_size (fslog s)));
    [done|done|rewrite Hd0; by apply txn_sb]|].
  intros _ s' (C & N & _ & _ & V). split_and!; [done..|].
  intros m Hm Hml. rewrite V, P2 by done. done.
Qed.
