(* ===== verification/Txn.v ===== *)
(** Transactions: begin_op(), log_write() and end_op().

    The last section is the contract the file system relies on: the blocks written with
    log_write() between begin_op() and end_op() reach the disk all together or not at all,
    whatever the point of a crash. *)

From S2P Require Export Crash.

Open Scope kernel_scope.

(** *** log_write *)

(** The header after logging block [bn]: its old slot, or one more slot. *)
Definition lh_after (bn : Z) (s : fsys) : logheader :=
  let i := log_index bn s in
  mkLh (if i =? log_n s then log_n s + 1 else log_n s)
    (<[Z.to_nat i := s32 bn]> (lh_block (l_lh (fslog s)))).

Lemma log_write_run b s :
  l_lock (fslog s) = false -> log_n s < LOGSIZE -> log_n s < l_size (fslog s) - 1 ->
  1 <= l_outstanding (fslog s) ->
  log_write b s =
    Ret tt (upd_buf b (fun x => b_set_flags (Z.lor (b_flags x) B_DIRTY) x)
             (set_log (l_set_lh (lh_after (b_blockno (bufat s b)) s) (fslog s)) s)).
Proof.
  intros Hlk Hn Hsz Ho. unfold log_write. unfold bind at 1, gets at 1.
  change (lh_n (l_lh (fslog s))) with (log_n s).
  rewrite (proj2 (Z.leb_gt _ _)) by lia. rewrite (proj2 (Z.leb_gt _ _)) by lia.
  rewrite (proj2 (Z.ltb_ge _ _)) by lia. cbn [orb].
  unfold bind at 1, acquire. cbn [lget log_lock]. rewrite Hlk.
  unfold lh_after, set_log_block, set_log_n, upd_log, when.
  destruct s as [? ? ? ? [lk st sz ou co dv [n bs]] ? ? ? ? ?]. simpl in *. subst lk.
  unfold bind, gets, modify, log_index, log_n, release. simpl.
  by destruct (_ =? n) eqn:E; rewrite ?E.
Qed.

Lemma find_u32 (l : list Z) bn :
  Forall (fun v => u32 v = v) l ->
  list_find (fun v => u32 v = bn) l = list_find (fun v => v = bn) l.
Proof.
  induction 1 as [|v l Hv _ IH]; [done|]. simpl. rewrite IH.
  repeat case_decide; congruence.
Qed.

Lemma logged_find s bn :
  log_wf s -> 0 <= bn < 2 ^ 31 ->
  log_index bn s =
    match list_find (fun v => v = bn) (logged s) with
    | Some (i, _) => Z.of_nat i
    | None => log_n s
    end.
Proof.
  intros Hwf Hbn. unfold log_index. fold (logged s).
  assert (Heq : list_find (fun v => u32 v = bn) (logged s) = list_find (fun v => v = bn) (logged s));
    [|by rewrite Heq].
  apply find_u32, Forall_forall. intros m [Hm _]%(lg_home s Hwf).
  pose proof (lg_fit s Hwf). apply u32_small. lia.
Qed.

(** Absorption: a block that is already in the transaction is not logged twice. *)
Lemma logged_after s bn :
  log_wf s -> 0 <= bn < 2 ^ 31 ->
  take (Z.to_nat (lh_n (lh_after bn s))) (lh_block (lh_after bn s)) =
    if decide (bn ∈ logged s) then logged s else logged s ++ [bn].
Proof.
  intros Hwf Hbn. unfold lh_after. cbn [lh_n lh_block]. rewrite (s32_small bn Hbn).
  rewrite logged_find by done. pose proof (lg_n s Hwf) as Hn. pose proof (lg_len s Hwf) as Hl.
  case_decide as Hin.
  - destruct (find_in _ _ (lg_nodup s Hwf) Hin) as (i & Hi & ->).
    pose proof (lookup_lt_Some _ _ _ Hi) as Hlt. rewrite length_logged in Hlt by done.
    rewrite (proj2 (Z.eqb_neq _ _)) by lia. rewrite Nat2Z.id.
    rewrite take_insert_lt by done.
    change (take (Z.to_nat (log_n s)) (lh_block (l_lh (fslog s)))) with (logged s).
    apply list_insert_id. done.
  - rewrite find_notin by done. rewrite Z.eqb_refl.
    replace (Z.to_nat (log_n s + 1)) with (S (Z.to_nat (log_n s))) by lia.
    erewrite take_S_r.
    + rewrite take_insert_ge by lia. done.
    + apply list_lookup_insert_eq. rewrite Hl. lia.
Qed.

Definition add_block (bn : Z) (l : list Z) : list Z :=
  if decide (bn ∈ l) then l else l ++ [bn].

(** States that agree on everything but the buffers and the header in memory. *)
Record same_but_lh (s s' : fsys) : Prop := {
  sl_log : exists lh, fslog s' = l_set_lh lh (fslog s);
  sl_disk : memdisk s' = memdisk s;
  sl_trace : wtrace s' = wtrace s;
  sl_rest : sb s' = sb s /\ ic_lock s' = ic_lock s /\ icache s' = icache s /\ curpid s' = curpid s;
}.

Lemma add_block_in bn l m : m ∈ add_block bn l <-> m = bn \/ m ∈ l.
Proof. unfold add_block. case_decide; set_solver. Qed.

Lemma add_block_nodup bn l : NoDup l -> NoDup (add_block bn l).
Proof.
  intros Hl. unfold add_block. case_decide; [done|].
  apply NoDup_app. split_and!; [done|set_solver|apply NoDup_singleton].
Qed.

Lemma length_add_block bn l : (length (add_block bn l) <= S (length l))%nat.
Proof. unfold add_block. case_decide; rewrite ?length_app; simpl; lia. Qed.

Lemma lh_after_n bn s :
  log_wf s -> 0 <= bn < 2 ^ 31 ->
  lh_n (lh_after bn s) = Z.of_nat (length (add_block bn (logged s))).
Proof.
  intros Hwf Hbn. unfold lh_after, add_block. cbn [lh_n]. rewrite logged_find by done.
  pose proof (lg_n s Hwf) as Hn. case_decide as Hin.
  - destruct (find_in _ _ (lg_nodup s Hwf) Hin) as (i & Hi & ->).
    pose proof (lookup_lt_Some _ _ _ Hi) as Hlt. rewrite length_logged in * by done.
    rewrite (proj2 (Z.eqb_neq _ _)) by lia. lia.
  - rewrite find_notin by done. rewrite Z.eqb_refl, length_app, length_logged by done. simpl. lia.
Qed.

Lemma log_write_wf s s' bn :
  log_wf s -> 1 < bn < disksize s -> ~ inlog s bn -> l_size (fslog s) <= LOGSIZE ->
  log_n s < l_size (fslog s) - 1 ->
  fslog s' = l_set_lh (lh_after bn s) (fslog s) -> memdisk s' = memdisk s ->
  logged s' = add_block bn (logged s) /\ log_wf s'.
Proof.
  intros Hwf Hbn Hnl Hsz Hn Hl Hd. pose proof (lg_fit s Hwf) as Hfit.
  assert (Hds : disksize s' = disksize s) by (unfold disksize; by rewrite Hd).
  assert (Hlg : logged s' = add_block bn (logged s)).
  { unfold logged at 1, log_n. rewrite Hl. cbn [l_set_lh l_lh]. apply logged_after; [done|lia]. }
  assert (Hln : log_n s' = Z.of_nat (length (add_block bn (logged s)))).
  { unfold log_n. rewrite Hl. cbn [l_set_lh l_lh]. apply lh_after_n; [done|lia]. }
  pose proof (length_add_block bn (logged s)) as Hle. rewrite length_logged in Hle by done.
  destruct Hwf as [W1 W2 W3 W4 W5 W6 W7].
  split; [done|]. split; rewrite ?Hlg, ?Hln; unfold inlog in *; rewrite ?Hl, ?Hds; simpl; auto.
  - by rewrite length_insert.
  - lia.
  - by apply add_block_nodup.
  - intros m [->|Hm]%add_block_in; [split; [lia|done]|]. by apply W7.
Qed.

Lemma rule_log_write s H b n v :
  cache s H (logged s) -> log_wf s -> has s b n v -> 1 < n -> ~ inlog s n ->
  l_lock (fslog s) = false -> 1 <= l_outstanding (fslog s) -> l_size (fslog s) <= LOGSIZE ->
  log_n s < l_size (fslog s) - 1 ->
  wp (log_write b) (fun _ s' =>
    cache s' H (logged s') /\ log_wf s' /\ has s' b n v /\ saved s' b n /\
    logged s' = add_block n (logged s) /\ same_but_lh s s' /\
    (forall m, 0 <= m -> view s' m = view s m) /\
    (forall c, c <> b -> bufat s' c = bufat s c)) s.
Proof.
  intros Hc Hwf Hh H1n Hnl Hlk Ho Hsz Hn. pose proof (lg_n s Hwf) as [Hn1 _].
  eapply wp_ret_eq; [apply log_write_run; try done; lia|].
  replace (b_blockno (bufat s b)) with n by (symmetry; apply (proj1 Hh)).
  set (s1 := set_log _ s). set (s2 := upd_buf _ _ s1).
  pose proof (holds_range _ _ _ (c_wf _ _ _ Hc) (proj1 Hh)) as Hr.
  destruct (log_write_wf s s2 n) as [Hlg Hwf']; try done; [lia|].
  assert (Hh1 : has s1 b n v) by (destruct Hh as [[] ?]; done).
  destruct (rule_dirty s1 H (logged s) b n v (cache_set_log _ _ _ _ Hc) Hh1)
    as (C2 & H2 & S2 & Q2 & B2).
  split_and!; try done.
  - eapply cache_weaken; [| |exact C2]; [done|]. intros m. rewrite Hlg, add_block_in. set_solver.
  - split; try done. by eexists.
  - intros m Hm. by rewrite (q_view _ _ Q2).
Qed.

(** *** begin_op and end_op *)

(** begin_op() admits an operation exactly when no commit is running and the log has room for
    the blocks of every admitted operation; otherwise it sleeps and has changed nothing. *)
Lemma begin_op_run s :
  l_lock (fslog s) = false ->
  begin_op s =
    if negb (l_committing (fslog s) =? 0) ||
       (LOGSIZE <? log_n s + (l_outstanding (fslog s) + 1) * MAXOPBLOCKS)
    then Sleep ChLog s
    else Ret tt (set_log (l_set_outstanding (l_outstanding (fslog s) + 1) (fslog s)) s).
Proof.
  intros Hlk. destruct s as [? ? ? ? [lk st sz ou co dv lh] ? ? ? ? ?]. simpl in Hlk. subst lk.
  unfold begin_op, bind, acquire, sleep, release, gets, upd_log, modify, log_n. simpl.
  destruct (co =? 0); simpl; [|done]. by destruct (LOGSIZE <? _).
Qed.

(** The last operation to end commits. *)
Lemma wp_end_op_last s (Q : unit -> fsys -> Prop) :
  l_lock (fslog s) = false -> l_committing (fslog s) = 0 -> l_outstanding (fslog s) = 1 ->
  wp commit (fun _ s2 => l_lock (fslog s2) = false /\
      Q tt (set_woken (woken s2 ++ [ChLog]) (set_log (l_set_committing 0 (fslog s2)) s2)))
    (set_log (l_set_committing 1 (l_set_outstanding 0 (fslog s))) s) ->
  wp end_op Q s.
Proof.
  intros Hlk Hco Hou. destruct s as [? ? ? ? [lk st sz ou co dv lh] ? ? ? ? ?]. simpl in *.
  subst lk ou co. unfold end_op, bind, acquire, release, gets, upd_log, modify, when, wakeup, ret.
  simpl. unfold wp, l_set_committing. simpl. destruct (commit _) as [[] s2| | |]; try done.
  intros [Hlk2 HQ]. simpl. rewrite Hlk2. simpl.
  destruct s2 as [? ? ? ? [lk2 st2 sz2 ou2 co2 dv2 lh2] ? ? ? ? ?]. simpl in *. by subst lk2.
Qed.

(** With other operations running, end_op() only wakes those that wait for log space. *)
Lemma end_op_other s :
  l_lock (fslog s) = false -> l_committing (fslog s) = 0 -> l_outstanding (fslog s) <> 1 ->
  end_op s = Ret tt (set_woken (woken s ++ [ChLog])
               (set_log (l_set_outstanding (l_outstanding (fslog s) - 1) (fslog s)) s)).
Proof.
  intros Hlk Hco Hou. destruct s as [? ? ? ? [lk st sz ou co dv lh] ? ? ? ? ?]. simpl in *.
  subst lk co. unfold end_op, bind, acquire, release, gets, upd_log, modify, when, wakeup, ret.
  simpl. destruct (Z.eqb_spec (ou - 1) 0); [lia|]. done.
Qed.

(** *** A transaction *)

(** The use of the log that log.c describes: read a block, change it, log it, release it. *)
Definition txn_write (w : Z * list Z) : M fsys unit :=
  b <- bread ROOTDEV (fst w) ;;
  upd_data b (fun _ => snd w) ;;
  log_write b ;;
  brelse b.

Fixpoint txn_body (ws : list (Z * list Z)) : M fsys unit :=
  match ws with
  | [] => ret tt
  | w :: ws' => txn_write w ;; txn_body ws'
  end.

Definition transaction (ws : list (Z * list Z)) : M fsys unit :=
  begin_op ;; txn_body ws ;; end_op.

(** The state between begin_op() and end_op() of the only operation that runs. *)
Record active (s : fsys) : Prop := {
  ac_cache : cache s [] (logged s);
  ac_wf : log_wf s;
  ac_lock : l_lock (fslog s) = false;
  ac_out : l_outstanding (fslog s) = 1;
  ac_comm : l_committing (fslog s) = 0;
  ac_size : l_size (fslog s) <= LOGSIZE;
}.

(** A write an operation may log. *)
Definition loggable (s : fsys) (w : Z * list Z) : Prop :=
  1 < fst w < disksize s /\ ~ inlog s (fst w) /\ block_ok (snd w).

Lemma same_but_lh_refl s : same_but_lh s s.
Proof. split; try done. exists (l_lh (fslog s)). by destruct (fslog s). Qed.

Lemma same_but_lh_trans s1 s2 s3 : same_but_lh s1 s2 -> same_but_lh s2 s3 -> same_but_lh s1 s3.
Proof.
  intros [[lh1 L1] D1 T1 R1] [[lh2 L2] D2 T2 R2].
  split; [exists lh2; by rewrite L2, L1|congruence..|]. naive_solver congruence.
Qed.

Lemma quiet_same s s' : quiet s s' -> same_but_lh s s'.
Proof.
  intros [_ Ho Hd Ht]. unfold outside in Ho. simplify_eq. split; try done.
  exists (l_lh (fslog s)). rewrite H. by destruct (fslog s).
Qed.

Lemma same_log s s' :
  same_but_lh s s' ->
  l_start (fslog s') = l_start (fslog s) /\ l_size (fslog s') = l_size (fslog s) /\
  l_lock (fslog s') = l_lock (fslog s) /\ l_outstanding (fslog s') = l_outstanding (fslog s) /\
  l_committing (fslog s') = l_committing (fslog s) /\ disksize s' = disksize s.
Proof. intros [[lh ->] Hd _ _]. unfold disksize. by rewrite Hd. Qed.

Lemma wp_txn_write s w :
  active s -> loggable s w -> log_n s < l_size (fslog s) - 1 ->
  wp (txn_write w) (fun _ s' => active s' /\ same_but_lh s s' /\
    logged s' = add_block (fst w) (logged s) /\
    forall m, 0 <= m -> view s' m = after1 (view s) w m) s.
Proof.
  intros [Hc Hwf Hlk Ho Hcm Hsz] (Hr & Hnl & Hok) Hn. destruct w as [n v]. cbn [fst snd] in *.
  pose proof (logged_small s Hwf). pose proof (filter_ne_le (logged s) n).
  eapply wp_seq; [apply (rule_bread s [] (logged s) n); [done|set_solver|lia|simpl; lia]|].
  intros b s1 (C1 & T1 & _ & Q1 & _). destruct (outside_log _ _ (q_out _ _ Q1)) as [L1 Z1].
  destruct (logged_outside _ _ (q_out _ _ Q1)) as [G1 N1].
  eapply wp_bind, wp_upd_data; [done..|]. intros s2 C2 T2 O2 K2 W2 V2.
  destruct (outside_log _ _ O2) as [L2 Z2]. destruct (logged_outside _ _ O2) as [G2 N2].
  assert (Hwf2 : log_wf s2).
  { apply (log_wf_outside s); [|done]. rewrite O2. apply Q1. }
  assert (Hin2 : ~ inlog s2 n) by (unfold inlog; rewrite L2, L1; done).
  eapply wp_seq; [apply (rule_log_write s2 [n] b n v); rewrite ?G2, ?G1, ?N2, ?N1, ?L2, ?L1; try done; lia|].
  intros _ s3 (C3 & Hwf3 & T3 & S3 & G3 & E3 & V3 & B3).
  eapply wp_mono; [by apply (rule_brelse s3 [] (logged s3) b n v)|].
  intros _ s4 (C4 & Q4 & B4).
  assert (E : same_but_lh s s4).
  { eapply same_but_lh_trans; [by apply quiet_same|].
    eapply same_but_lh_trans; [|by apply quiet_same].
    eapply same_but_lh_trans; [|exact E3].
    unfold outside in O2. simplify_eq. split; try done.
    exists (l_lh (fslog s1)). rewrite L2. by destruct (fslog s1). }
  destruct (logged_outside _ _ (q_out _ _ Q4)) as [G4 _].
  destruct (same_log _ _ E) as (E1 & E2' & E3' & E4 & E5 & E6).
  split_and!; [|done|by rewrite G4, G3, G2, G1|].
  - split; [by rewrite G4|by apply (log_wf_outside s3); [apply Q4|]|congruence..|].
    by rewrite E2'.
  - intros m Hm. rewrite (q_view _ _ Q4), V3, V2 by done. unfold after1. simpl.
    case_decide; [done|]. by apply (q_view _ _ Q1).
Qed.

Lemma wp_txn_body ws s :
  active s -> Forall (loggable s) ws -> log_n s + Z.of_nat (length ws) <= l_size (fslog s) - 1 ->
  wp (txn_body ws) (fun _ s' => active s' /\ same_but_lh s s' /\
    logged s' = foldl (fun l w => add_block (fst w) l) (logged s) ws /\
    forall m, 0 <= m -> view s' m = after ws (view s) m) s.
Proof.
  revert s. induction ws as [|w ws IH]; intros s Ha Hws Hl.
  - apply wp_ret. split_and!; try done. apply same_but_lh_refl.
  - apply Forall_cons in Hws as [Hw Hws]. simpl in Hl.
    eapply wp_seq; [apply (wp_txn_write s w); [done|done|lia]|].
    intros _ s1 (A1 & E1 & G1 & V1). destruct (same_log _ _ E1) as (E2 & E3 & _ & _ & _ & E4).
    pose proof (length_logged s (ac_wf _ Ha)) as N0.
    pose proof (length_logged s1 (ac_wf _ A1)) as N1. rewrite G1 in N1.
    pose proof (length_add_block (fst w) (logged s)) as Hle.
    pose proof (lg_n _ (ac_wf _ A1)). pose proof (lg_n _ (ac_wf _ Ha)).
    eapply wp_mono; [apply (IH s1); [done| |rewrite E3; lia]|].
    + eapply Forall_impl; [exact Hws|]. intros x. unfold loggable, inlog.
      by rewrite E2, E3, E4.
    + intros _ s2 (A2 & E5 & G2 & V2). split_and!; [done|by eapply same_but_lh_trans| |].
      * rewrite G2, G1. done.
      * intros m Hm. rewrite V2 by done. apply (after_ext ws (view s1) (after1 (view s) w)). by apply V1.
Qed.

(** The state between transactions: nothing held, nothing dirty, the log clear on the disk and
    in memory. *)
Record idle (s : fsys) : Prop := {
  id_cache : cache s [] [];
  id_wf : log_wf s;
  id_lock : l_lock (fslog s) = false;
  id_out : l_outstanding (fslog s) = 0;
  id_comm : l_committing (fslog s) = 0;
  id_n : log_n s = 0;
  id_size : MAXOPBLOCKS < l_size (fslog s) <= LOGSIZE;
  id_disk : disk_log (l_start (fslog s)) (l_size (fslog s)) (memdisk s);
  id_clear : dhead (l_start (fslog s)) (memdisk s) = [];
  id_sb : sb_says (l_start (fslog s)) (l_size (fslog s)) (memdisk s);
}.

Lemma idle_begin s :
  idle s -> wp begin_op (fun _ s' => active s' /\ log_n s' = 0 /\
    s' = set_log (l_set_outstanding 1 (fslog s)) s) s.
Proof.
  intros [Hc Hwf Hlk Ho Hcm Hn Hsz _ _ _].
  eapply wp_ret_eq; [rewrite begin_op_run, Hcm, Hn, Ho by done; done|].
  assert (Hlg : logged s = []) by (unfold logged; by rewrite Hn).
  split_and!; [|done|done]. split; try done; [|by destruct Hwf|simpl; lia].
  apply cache_set_log. change (logged (set_log _ s)) with (logged s). by rewrite Hlg.
Qed.

(** Before end_op() commits, the state is a transaction ready to commit. *)
Lemma active_txn s s1 s0 :
  active s -> idle s0 -> s1 = set_log (l_set_outstanding 1 (fslog s0)) s0 ->
  same_but_lh s1 s ->
  txn (set_log (l_set_committing 1 (l_set_outstanding 0 (fslog s))) s).
Proof.
  intros [Hc Hwf Hlk Ho Hcm Hsz] Hi -> Hs. destruct (same_log _ _ Hs) as (E1 & E2 & _).
  pose proof (sl_disk _ _ Hs) as Hd. simpl in E1, E2, Hd. split.
  - by apply cache_set_log.
  - by destruct Hwf.
  - simpl. rewrite E1, E2, Hd. apply Hi.
  - simpl. rewrite E1, Hd. apply Hi.
  - simpl. rewrite E1, E2, Hd. apply Hi.
Qed.

(** The disk after the whole of commit(). *)
Lemma commit_final s :
  txn s ->
  let d' := writes (commit_writes s) (memdisk s) in
  disk_log (l_start (fslog s)) (l_size (fslog s)) d' /\ dhead (l_start (fslog s)) d' = [] /\
  forall m, 0 <= m -> ~ inlog s m -> blk d' m = view s m.
Proof.
  intros [Hc Hwf Hd Hcl Hsb] d'.
  pose proof (d2_disk_log s Hc Hwf Hd) as Hd2.
  destruct (recover_final _ _ _ Hd2) as (R1 & R2 & R3).
  assert (Heq : d' = writes (recover_writes (l_start (fslog s))
    (writes [(l_start (fslog s), new_head s)] (writes (log_writes s (Z.to_nat (log_n s))) (memdisk s))))
    (writes [(l_start (fslog s), new_head s)] (writes (log_writes s (Z.to_nat (log_n s))) (memdisk s)))).
  { unfold d'. rewrite (commit_writes_recover s Hc Hwf Hd), writes_app. done. }
  rewrite Heq. split_and!; [done..|]. intros m Hm Hml. rewrite R3 by done.
  by apply commit_point.
Qed.

(** commit() makes the state idle again, with the transaction on the disk. *)
Lemma wp_commit_txn s :
  txn s ->
  wp commit (fun _ s' => cache s' [] [] /\ outside s' = outside (clear_log s) /\
    (exists ws, wtrace s' = wtrace s ++ ws /\ memdisk s' = writes ws (memdisk s) /\
       (ws = commit_writes s \/ ws = [] /\ logged s = [])) /\
    disk_log (l_start (fslog s)) (l_size (fslog s)) (memdisk s') /\
    dhead (l_start (fslog s)) (memdisk s') = [] /\
    sb_says (l_start (fslog s)) (l_size (fslog s)) (memdisk s') /\
    forall m, 0 <= m -> ~ inlog s m -> dblock s' m = view s m /\ view s' m = view s m) s.
Proof.
  intros Ht. pose proof Ht as [Hc Hwf Hd Hcl Hsb]. pose proof (lg_n s Hwf) as [Hn _].
  destruct (decide (log_n s = 0)) as [H0|H0].
  - assert (Hlg : logged s = []) by (unfold logged; by rewrite H0). rewrite Hlg in Hc.
    unfold commit. apply wp_bind, wp_gets. rewrite H0. apply wp_ret. split_and!; try done.
    + unfold outside, clear_log. rewrite <- H0. destruct s as [? ? ? ? [? ? ? ? ? ? []] ? ? ? ? ?]. done.
    + exists []. rewrite app_nil_r. auto.
    + intros m Hm Hml. split; [|done]. symmetry. by apply (blk_view s []); [|set_solver].
  - eapply wp_mono; [by apply wp_commit; [| |lia]|]. intros _ s' [C D T V O].
    destruct (commit_final s Ht) as (F1 & F2 & F3). rewrite <- D in F1, F2, F3.
    split_and!; try done.
    + exists (commit_writes s). auto.
    + pose proof (txn_sb s (length (commit_writes s)) Ht) as Hs. rewrite take_ge in Hs by done.
      by rewrite D.
    + intros m Hm Hml. pose proof (F3 m Hm Hml) as Hb. split; [exact Hb|].
      rewrite (blk_view s' []) by (done || set_solver). done.
Qed.

Lemma cache_set_woken w s H D : cache s H D -> cache (set_woken w s) H D.
Proof.
  intros [[? ? ? Hb ? ?] ? ?]. split; [split; try done|done|done].
  intros b Hlt. by destruct (Hb b Hlt).
Qed.

(** What end_op() of the only operation does, from the state that begin_op() and the logged
    writes led to. *)
Lemma wp_end_op s s1 s0 :
  active s -> idle s0 -> s1 = set_log (l_set_outstanding 1 (fslog s0)) s0 ->
  same_but_lh s1 s ->
  let t := set_log (l_set_committing 1 (l_set_outstanding 0 (fslog s))) s in
  wp end_op (fun _ s' => idle s' /\ l_start (fslog s') = l_start (fslog s) /\
    l_size (fslog s') = l_size (fslog s) /\ disksize s' = disksize s /\
    (exists ws, wtrace s' = wtrace s ++ ws /\ memdisk s' = writes ws (memdisk s) /\
       (ws = commit_writes t \/ ws = [] /\ logged s = [])) /\
    forall m, 0 <= m -> ~ inlog s m -> dblock s' m = view s m /\ view s' m = view s m) s.
Proof.
  intros Ha Hi Hs1 Hs t. pose proof (active_txn s s1 s0 Ha Hi Hs1 Hs) as Ht.
  destruct Ha as [Hc Hwf Hlk Ho Hcm Hsz].
  apply wp_end_op_last; auto. fold t.
  eapply wp_mono; [by apply wp_commit_txn|].
  intros _ s2 (C2 & O2 & T2 & D2 & H2 & B2 & V2).
  destruct (outside_log _ _ O2) as [L2 Z2].
  assert (Hst : l_start (fslog s2) = l_start (fslog s)) by (by rewrite L2).
  assert (Hs2 : l_size (fslog s2) = l_size (fslog s)) by (by rewrite L2).
  assert (W2 : log_wf s2).
  { apply (log_wf_outside (clear_log t)); [done|]. by apply clear_log_wf; destruct Hwf. }
  assert (W3 : log_wf (set_woken (woken s2 ++ [ChLog])
    (set_log (l_set_committing 0 (fslog s2)) s2))) by (by destruct W2; split).
  split; [by rewrite L2|]. split_and!; try done.
  split; try done; simpl; rewrite ?L2; try done.
  - by apply cache_set_woken, cache_set_log.
  - change (MAXOPBLOCKS < l_size (fslog s) <= LOGSIZE).
    split; [|done]. subst s1. destruct (same_log _ _ Hs) as (_ & E & _). simpl in E. rewrite E.
    apply Hi.
Qed.

(** The crash states of a transaction: a prefix of its writes reached the disk, and the
    machine starts again. *)
Definition crash_at (k : nat) (s s' s0 : fsys) : Prop :=
  booted s0 /\
  memdisk s0 = writes (take k (drop (length (wtrace s)) (wtrace s'))) (memdisk s).

(** Rebooting leads to the idle state. *)
Lemma wp_reboot_idle ls size s :
  booted s -> disk_log ls size (memdisk s) -> sb_says ls size (memdisk s) ->
  MAXOPBLOCKS < size <= LOGSIZE ->
  wp reboot (fun _ s' => idle s' /\ l_start (fslog s') = ls /\ l_size (fslog s') = size /\
    wtrace s' = wtrace s ++ recover_writes ls (memdisk s) /\
    memdisk s' = writes (recover_writes ls (memdisk s)) (memdisk s) /\
    forall m, 0 <= m -> ~ (ls <= m < ls + size) -> view s' m = recovered ls (memdisk s) m) s.
Proof.
  intros Hb Hd Hsb Hsz. eapply wp_mono; [by apply (wp_reboot ls size)|].
  intros _ s' (Hc & (bs & Hl & Hlb) & Hdk & Htr).
  destruct (recover_final ls size _ Hd) as (R1 & R2 & R3). rewrite <- Hdk in R1, R2, R3.
  assert (Hlg : logged s' = []) by (unfold logged, log_n; by rewrite Hl).
  pose proof (bo_ops s Hb) as [Ho Hcm]. pose proof (dl_fit _ _ _ R1) as Hf.
  pose proof (dl_start _ _ _ R1) as Hls.
  assert (Hsb' : sb_says ls size (memdisk s')).
  { unfold sb_says. rewrite R3; [|lia|destruct Hsb; lia].
    unfold recovered. rewrite find_notin; [done|].
    intros Hin. by destruct (dl_home _ _ _ Hd 1 Hin) as [[_ ?] _]. }
  split_and!; [|by rewrite Hl..|done|done|].
  - split; unfold log_n; rewrite ?Hl; simpl; try done.
    split; unfold log_n, disksize; rewrite ?Hlg, ?Hl; simpl; try done;
      try (unfold LOGSIZE, MAXOPBLOCKS in *; lia); [constructor|set_solver].
  - intros m Hm Hml. rewrite (blk_view s' []) by (done || set_solver). by apply R3.
Qed.

(** C1. Transactions are atomic and durable. Run from the idle state, begin_op(), any list of
    at most MAXOPBLOCKS logged block writes and end_op() return; the new contents are then on
    the disk and the state is idle again. If the machine stops after any number [k] of the
    disk writes that the run makes and starts again, recovery shows either every block as it
    was before the transaction, or every block as it is after it. *)
Theorem transaction_atomic s ws :
  idle s -> Forall (loggable s) ws -> Z.of_nat (length ws) <= MAXOPBLOCKS ->
  wp (transaction ws) (fun _ s' =>
    idle s' /\
    (forall m, 0 <= m -> ~ inlog s m ->
       dblock s' m = after ws (view s) m /\ view s' m = after ws (view s) m) /\
    forall k s0, crash_at k s s' s0 ->
      wp reboot (fun _ s'' => cache s'' [] [] /\ log_n s'' = 0 /\
        ((forall m, 0 <= m -> ~ inlog s m -> view s'' m = view s m) \/
         (forall m, 0 <= m -> ~ inlog s m -> view s'' m = after ws (view s) m))) s0) s.
Proof.
  intros Hi Hws Hlen. unfold transaction. eapply wp_seq; [by apply idle_begin|].
  intros _ s1 (A1 & N1 & Hs1).
  assert (Hsz : l_size (fslog s1) = l_size (fslog s)) by (by rewrite Hs1).
  pose proof (id_size s Hi) as Hsize.
  eapply wp_seq; [apply (wp_txn_body ws s1); [done|by subst s1|lia]|].
  intros _ s2 (A2 & E2 & G2 & V2).
  assert (Hin : forall m, inlog s2 m <-> inlog s m).
  { intros m. destruct (same_log _ _ E2) as (Ea & Eb & _). unfold inlog. rewrite Ea, Eb.
    by subst s1. }
  assert (Hv1 : forall m, view s1 m = view s m) by (intros; by subst s1).
  assert (Hd2 : memdisk s2 = memdisk s) by (rewrite (sl_disk _ _ E2); by subst s1).
  assert (Ht2 : wtrace s2 = wtrace s) by (rewrite (sl_trace _ _ E2); by subst s1).
  assert (Haft : forall m, 0 <= m -> view s2 m = after ws (view s) m).
  { intros m Hm. rewrite V2 by done. by apply after_ext. }
  eapply wp_mono; [by apply (wp_end_op s2 s1 s)|].
  intros _ s' (I & Est & Esz & _ & (w & Htr & Hdk & Hw) & V).
  split_and!; [done|..].
  - intros m Hm Hml. rewrite <- Haft by done. apply V; [done|]. by rewrite Hin.
  - intros k s0 [Hb Hd0]. rewrite Htr, Ht2, drop_app_length in Hd0. destruct Hw as [->|[-> Hnil]].
    + pose proof (active_txn s2 s1 s A2 Hi Hs1 E2) as Ht. rewrite <- Hd2 in Hd0.
      eapply wp_mono; [by apply (crash_recovers _ k s0 Ht)|].
      intros _ s'' (C & N & R). split_and!; [done..|].
      assert (R' : forall m, 0 <= m -> ~ inlog s m -> view s'' m =
        if decide (k <= Z.to_nat (log_n s2))%nat then view s m else after ws (view s) m).
      { intros m Hm Hml. rewrite R by (done || by rewrite <- Hin in Hml).
        case_decide as Hk; rewrite ?decide_True, ?decide_False by done.
        - unfold dblock. simpl. rewrite Hd2. symmetry.
          by apply (blk_view s []); [apply Hi|set_solver].
        - by apply Haft. }
      case_decide; [left|right]; done.
    + rewrite take_nil in Hd0. simpl in Hd0.
      eapply wp_mono; [by apply (wp_reboot_view (l_start (fslog s)) (l_size (fslog s)));
        [|rewrite Hd0; apply Hi..]|].
      intros _ s'' (C & N & _ & _ & R). split_and!; [done..|]. left. intros m Hm Hml.
      rewrite R, Hd0 by done. unfold recovered. rewrite (id_clear s Hi). simpl. symmetry.
      by apply (blk_view s []); [apply Hi|set_solver].
Qed.

(** C2. Recovery can itself be interrupted. Starting the machine on a disk with a log leads to
    the idle state; if the machine stops after any prefix of the writes of recovery and starts
    again, the second recovery shows the same contents as the uninterrupted one. *)
Theorem recovery_restartable ls size s :
  booted s -> disk_log ls size (memdisk s) -> sb_says ls size (memdisk s) ->
  MAXOPBLOCKS < size <= LOGSIZE ->
  wp reboot (fun _ s1 => idle s1 /\
    forall k s0, crash_at k s s1 s0 ->
      wp reboot (fun _ s2 => idle s2 /\
        forall m, 0 <= m -> ~ (ls <= m < ls + size) -> view s2 m = view s1 m) s0) s.
Proof.
  intros Hb Hd Hsb Hsz. eapply wp_mono; [by apply (wp_reboot_idle ls size)|].
  intros _ s1 (I1 & _ & _ & T1 & _ & V1). split; [done|]. intros k s0 [Hb0 Hd0].
  rewrite T1, drop_app_length in Hd0.
  destruct (recover_prefix ls size (memdisk s) k Hd) as [P1 P2]. rewrite <- Hd0 in P1, P2.
  eapply wp_mono; [apply (wp_reboot_idle ls size); [done..| |done]|].
  - rewrite Hd0. by apply recover_prefix_sb.
  - intros _ s2 (I2 & _ & _ & _ & _ & V2). split; [done|]. intros m Hm Hml.
    by rewrite V2, P2, V1.
Qed.

(** The commit of a group of operations is atomic: whatever prefix of the writes of
    commit() reaches the disk, recovery shows the old contents of every block if the header
    had not been written, and the contents of the transaction if it had. *)
Theorem commit_atomic s :
  txn s -> 0 < log_n s ->
  wp commit (fun _ s' =>
    cache s' [] [] /\ log_n s' = 0 /\
    (forall m, 0 <= m -> ~ inlog s m -> dblock s' m = view s m) /\
    forall k s0, crash_at k s s' s0 ->
      wp reboot (fun _ s'' => cache s'' [] [] /\ log_n s'' = 0 /\
        forall m, 0 <= m -> ~ inlog s m ->
          view s'' m = if decide (k <= Z.to_nat (log_n s))%nat then dblock s m else view s m) s0) s.
Proof.
  intros Ht Hn. pose proof Ht as [Hc Hwf _ _ _].
  eapply wp_mono; [by apply wp_commit|]. intros _ s' [C D T V O].
  destruct (outside_log _ _ O) as [L _]. destruct (commit_final s Ht) as (_ & _ & F).
  rewrite <- D in F. split_and!; [done|unfold log_n; by rewrite L|exact F|].
  intros k s0 [Hb Hd0]. rewrite T, drop_app_length in Hd0. by apply (crash_recovers s k).
Qed.

(** Before end_op(), the operation is a transaction ready to commit. *)
Lemma txn_ready s ws :
  idle s -> Forall (loggable s) ws -> Z.of_nat (length ws) <= MAXOPBLOCKS ->
  wp (begin_op ;; txn_body ws) (fun _ t =>
    txn (set_log (l_set_committing 1 (l_set_outstanding 0 (fslog t))) t) /\
    logged t = foldl (fun l w => add_block (fst w) l) [] ws) s.
Proof.
  intros Hi Hws Hlen. eapply wp_seq; [by apply idle_begin|]. intros _ s1 (A1 & N1 & Hs1).
  assert (Hlg1 : logged s1 = []) by (unfold logged; by rewrite N1).
  pose proof (id_size s Hi). assert (Hsz : l_size (fslog s1) = l_size (fslog s)) by (by rewrite Hs1).
  eapply wp_mono; [apply (wp_txn_body ws s1); [done|by rewrite Hs1|lia]|].
  intros _ s2 (A2 & E2 & G2 & _). split; [by eapply active_txn|]. by rewrite G2, Hlg1.
Qed.

(** *** A small disk *)

Definition zero_block : list Z := replicate (Z.to_nat BSIZE) 0.

(** Sixteen blocks: the log is blocks 2 to 13. *)
Definition demo_disk : list (list Z) :=
  [zero_block; setw (setw zero_block 3 12) 4 2] ++ replicate 14 zero_block.

Definition demo_start : fsys :=
  mkFsys demo_disk [] false (replicate (S NBUF) (mkBuf 0 0 0 initsleeplock 0 0 0 []))
    (mkLog false 0 0 0 0 0 (mkLh 0 (replicate (Z.to_nat LOGSIZE) 0)))
    (mkSb 0 0 0 0 0 0 0) false [] [] 1.

(** The same, after binit() and initlog(). *)
Definition demo_idle : fsys :=
  match reboot demo_start with Ret _ s => s | _ => demo_start end.

Lemma zero_block_ok : block_ok zero_block.
Proof. split; [done|]. apply Forall_replicate. unfold is_byte. lia. Qed.

Lemma demo_booted : booted demo_start.
Proof.
  split; [|done|done]. split; [done|]. intros b Hb.
  assert (Hat : bufat demo_start b = mkBuf 0 0 0 initsleeplock 0 0 0 []);
    [|by rewrite Hat]. apply list_lookup_total_correct, lookup_replicate_2. lia.
Qed.

Lemma demo_disk_log : disk_log 2 12 demo_disk.
Proof.
  assert (Hn : dhead 2 demo_disk = []) by (vm_compute; done).
  split; rewrite ?Hn.
  - lia.
  - vm_compute. split; [discriminate|done].
  - unfold demo_disk. apply Forall_app. split; [|apply Forall_replicate, zero_block_ok].
    apply Forall_cons. split; [apply zero_block_ok|].
    apply Forall_singleton, setw_ok, setw_ok, zero_block_ok.
  - vm_compute. discriminate.
  - vm_compute. split; [done|discriminate].
  - constructor.
  - set_solver.
Qed.

Lemma demo_sb : sb_says 2 12 demo_disk.
Proof. vm_compute. done. Qed.

Lemma demo_idle_ok :
  idle demo_idle /\ l_start (fslog demo_idle) = 2 /\ l_size (fslog demo_idle) = 12 /\
  disksize demo_idle = 16.
Proof.
  pose proof (wp_reboot_idle 2 12 demo_start demo_booted demo_disk_log demo_sb) as Hw.
  rewrite wp_run in Hw. destruct Hw as (r & s' & Hr & I & H1 & H2 & _ & Hd & _).
  { split; [done|vm_compute; discriminate]. }
  assert (Hs : demo_idle = s') by (unfold demo_idle; by rewrite Hr). rewrite Hs.
  split_and!; [done..|]. unfold disksize. rewrite Hd, length_writes. done.
Qed.

(** Two blocks that a transaction writes. *)
Definition demo_writes : list (Z * list Z) :=
  [(14, setw zero_block 0 7); (15, setw zero_block 1 9)].

Lemma demo_writes_loggable : Forall (loggable demo_idle) demo_writes.
Proof.
  destruct demo_idle_ok as (I & H1 & H2 & H3).
  unfold demo_writes. apply Forall_cons. split; [|apply Forall_singleton];
    unfold loggable, inlog; rewrite H1, H2, H3; cbn [fst snd];
    (split_and!; [lia..|apply setw_ok, zero_block_ok]).
Qed.

Lemma transaction_atomic_witness :
  wp (transaction demo_writes) (fun _ s' =>
    idle s' /\
    (forall m, 0 <= m -> ~ inlog demo_idle m ->
       dblock s' m = after demo_writes (view demo_idle) m /\
       view s' m = after demo_writes (view demo_idle) m) /\
    forall k s0, crash_at k demo_idle s' s0 ->
      wp reboot (fun _ s'' => cache s'' [] [] /\ log_n s'' = 0 /\
        ((forall m, 0 <= m -> ~ inlog demo_idle m -> view s'' m = view demo_idle m) \/
         (forall m, 0 <= m -> ~ inlog demo_idle m ->
            view s'' m = after demo_writes (view demo_idle) m))) s0) demo_idle.
Proof.
  destruct demo_idle_ok as (I & _ & _ & _). apply transaction_atomic; [exact I| |].
  - exact demo_writes_loggable.
  - vm_compute. discriminate.
Defined.

(** A disk on which a transaction of one block was committed and not installed. *)
Definition demo_disk2 : list (list Z) :=
  <[3%nat := setw zero_block 0 7]> (<[2%nat := setw (setw zero_block 0 1) 1 15]> demo_disk).
Definition demo_start2 : fsys := set_disk demo_disk2 [] demo_start.

Lemma demo_disk2_log : disk_log 2 12 demo_disk2.
Proof.
  assert (Hn : dhead 2 demo_disk2 = [15]) by (vm_compute; done).
  split; rewrite ?Hn.
  - lia.
  - vm_compute. split; [discriminate|done].
  - apply Forall_insert; [|apply setw_ok, zero_block_ok].
    apply Forall_insert; [apply demo_disk_log|apply setw_ok, setw_ok, zero_block_ok].
  - vm_compute. discriminate.
  - vm_compute. split; [done|discriminate].
  - apply NoDup_singleton.
  - intros m ->%list_elem_of_singleton. change (length demo_disk2) with 16%nat. lia.
Qed.

Lemma recovery_restartable_witness :
  dhead 2 demo_disk2 = [15] /\
  wp reboot (fun _ s1 => idle s1 /\
    forall k s0, crash_at k demo_start2 s1 s0 ->
      wp reboot (fun _ s2 => idle s2 /\
        forall m, 0 <= m -> ~ (2 <= m < 2 + 12) -> view s2 m = view s1 m) s0) demo_start2.
Proof.
  split; [vm_compute; reflexivity|]. apply recovery_restartable.
  - destruct demo_booted. split; done.
  - exact demo_disk2_log.
  - vm_compute. done.
  - split; [reflexivity|vm_compute; discriminate].
Defined.

(** The state in which the transaction of [demo_writes] commits. *)
Definition demo_txn : fsys :=
  match (begin_op ;; txn_body demo_writes) demo_idle with
  | Ret _ s => set_log (l_set_committing 1 (l_set_outstanding 0 (fslog s))) s
  | _ => demo_idle
  end.

Lemma demo_txn_ok : txn demo_txn /\ log_n demo_txn = 2.
Proof.
  destruct demo_idle_ok as (I & _ & _ & _).
  pose proof (txn_ready demo_idle demo_writes I demo_writes_loggable) as Hw.
  rewrite wp_run in Hw. destruct Hw as (r & s & Hr & Ht & Hl); [vm_compute; discriminate|].
  assert (Hs : demo_txn = set_log (l_set_committing 1 (l_set_outstanding 0 (fslog s))) s).
  { unfold demo_txn. rewrite Hr. reflexivity. }
  rewrite Hs. split; [exact Ht|]. pose proof (length_logged _ (tx_wf _ Ht)) as Hlen.
  change (logged (set_log _ s)) with (logged s) in Hlen. rewrite Hl in Hlen.
  pose proof (lg_n _ (tx_wf _ Ht)). change (length _) with 2%nat in Hlen. lia.
Qed.

Lemma commit_atomic_witness :
  wp commit (fun _ s' =>
    cache s' [] [] /\ log_n s' = 0 /\
    (forall m, 0 <= m -> ~ inlog demo_txn m -> dblock s' m = view demo_txn m) /\
    forall k s0, crash_at k demo_txn s' s0 ->
      wp reboot (fun _ s'' => cache s'' [] [] /\ log_n s'' = 0 /\
        forall m, 0 <= m -> ~ inlog demo_txn m ->
          view s'' m = if decide (k <= Z.to_nat (log_n demo_txn))%nat
                       then dblock demo_txn m else view demo_txn m) s0) demo_txn.
Proof.
  destruct demo_txn_ok as [Ht Hn]. apply commit_atomic; [exact Ht|]. rewrite Hn. reflexivity.
Defined.
