(* ===== verification/LogSteps.v ===== *)
(** Concurrent operations on the log: begin_op(), log_write() and end_op() of several system
    calls in any order, for any number of commits.

    A state is the file system and, for each running operation, the set of the blocks that it
    has logged; an operation may log up to MAXOPBLOCKS different blocks. A step is one call of
    one operation. begin_op(), log_write() and an end_op() that is not the last run under
    log.lock; the last end_op() commits, and while it does there is no other operation, and
    begin_op() sleeps. *)

From stdpp Require Export relations gmap.
From S2P Require Export Txn.

Open Scope kernel_scope.

Inductive lstep : fsys * list (gset Z) -> fsys * list (gset Z) -> Prop :=
| LBegin s s' ops :
    begin_op s = Ret tt s' -> lstep (s, ops) (s', ∅ :: ops)
| LWrite s s' ops ops' X b :
    is_u32 (b_blockno (bufat s b)) ->
    (size ({[b_blockno (bufat s b)]} ∪ X) <= Z.to_nat MAXOPBLOCKS)%nat ->
    log_write b s = Ret tt s' ->
    lstep (s, ops ++ X :: ops') (s', ops ++ ({[b_blockno (bufat s b)]} ∪ X) :: ops')
| LEnd s s' ops ops' X :
    end_op s = Ret tt s' -> lstep (s, ops ++ X :: ops') (s', ops ++ ops').

(** The blocks that the running operations may still log. *)
Definition room (X : gset Z) : nat := Z.to_nat MAXOPBLOCKS - size X.
Definition budget (ops : list (gset Z)) : nat := foldr (fun X n => room X + n)%nat 0%nat ops.

(** The blocks in the header of the log. *)
Definition in_header (s : fsys) : list Z := u32 <$> take (Z.to_nat (log_n s)) (lh_block (l_lh (fslog s))).

(** The log has room for what the running operations may still log. *)
Record reserved (p : fsys * list (gset Z)) : Prop := {
  re_lock : l_lock (fslog (fst p)) = false;
  re_comm : l_committing (fslog (fst p)) = 0;
  re_out : l_outstanding (fslog (fst p)) = Z.of_nat (length (snd p));
  re_len : length (lh_block (l_lh (fslog (fst p)))) = Z.to_nat LOGSIZE;
  re_logged : Forall (fun X => forall x, x ∈ X -> x ∈ in_header (fst p)) (snd p);
  re_n : 0 <= log_n (fst p);
  re_room : log_n (fst p) + Z.of_nat (budget (snd p)) <= LOGSIZE;
}.

Lemma budget_app l r : budget (l ++ r) = (budget l + budget r)%nat.
Proof. unfold budget. induction l; simpl; lia. Qed.

Lemma budget_le ops : Z.of_nat (budget ops) <= Z.of_nat (length ops) * MAXOPBLOCKS.
Proof. unfold budget, room, MAXOPBLOCKS. induction ops; simpl; lia. Qed.

(** *** log_write() *)

Lemma u32_s32_id x : is_u32 x -> u32 (s32 x) = x.
Proof. intros H. rewrite u32_s32. by apply u32_below. Qed.

(** What a log_write() that returns did to the header. *)
Lemma log_write_header b s s' :
  let bn := b_blockno (bufat s b) in
  l_lock (fslog s) = false -> 0 <= log_n s -> length (lh_block (l_lh (fslog s))) = Z.to_nat LOGSIZE -> is_u32 bn ->
  log_write b s = Ret tt s' ->
  fslog s' = l_set_lh (l_lh (fslog s')) (fslog s) /\
  length (lh_block (l_lh (fslog s'))) = Z.to_nat LOGSIZE /\
  ((bn ∈ in_header s /\ in_header s' = in_header s /\ log_n s' = log_n s) \/
   (bn ∉ in_header s /\ in_header s' = in_header s ++ [bn] /\ log_n s' = log_n s + 1)).
Proof.
  intros bn Hlk Hn Hlen Hbn Hw.
  assert (Hg : log_n s < LOGSIZE /\ log_n s < l_size (fslog s) - 1 /\ 1 <= l_outstanding (fslog s)).
  { unfold log_write, bind, gets in Hw. fold (log_n s) in Hw.
    destruct (Z.leb_spec LOGSIZE (log_n s)); [done|].
    destruct (Z.leb_spec (l_size (fslog s) - 1) (log_n s)); [done|].
    destruct (Z.ltb_spec (l_outstanding (fslog s)) 1); [done|]. lia. }
  destruct Hg as (H1 & H2 & H3). rewrite log_write_run in Hw by done. simplify_eq. fold bn.
  cbn [fslog upd_buf set_log l_set_lh l_lh]. unfold in_header, log_n, lh_after, log_index.
  cbn [fslog upd_buf set_bufs set_log l_set_lh l_lh lh_n lh_block]. fold (log_n s).
  set (bl := lh_block (l_lh (fslog s))) in *. set (n := Z.to_nat (log_n s)).
  split; [done|]. split; [by rewrite length_insert|].
  destruct (list_find (fun v => u32 v = bn) (take n bl)) as [[i v]|] eqn:Ef.
  - left. apply list_find_Some in Ef as (Hi & Hv & _). assert (Hin : (i < n)%nat).
    { apply lookup_lt_Some in Hi. rewrite length_take in Hi. lia. }
    rewrite (proj2 (Z.eqb_neq _ _)) by lia. fold n. rewrite Nat2Z.id. split_and!; [|  |done].
    + rewrite <- Hv. apply list_elem_of_fmap_2. by eapply list_elem_of_lookup_2.
    + rewrite take_insert_lt by done. rewrite list_fmap_insert, u32_s32_id by done. apply list_insert_id.
      by rewrite list_lookup_fmap, Hi, <- Hv.
  - right. rewrite Z.eqb_refl. split_and!; [| |done].
    + intros (v & -> & Hv)%list_elem_of_fmap. apply list_find_None in Ef.
      rewrite Forall_forall in Ef. by apply (Ef v Hv).
    + replace (Z.to_nat (log_n s + 1)) with (S n) by lia. fold n.
      rewrite (take_S_r _ n (s32 bn)) by (apply list_lookup_insert_eq; unfold LOGSIZE, MAXOPBLOCKS in *; lia).
      rewrite take_insert_ge by lia. rewrite fmap_app. cbn [fmap list_fmap]. by rewrite u32_s32_id.
Qed.

(** *** The last end_op() *)

(** Code that, when it returns, has left [log] alone. *)
Definition keeplog {A} (m : M fsys A) : Prop := forall s a s', m s = Ret a s' -> fslog s' = fslog s.

Create HintDb keeplog discriminated.

Lemma keeplog_ret {A} (a : A) : keeplog (ret a).
Proof. by intros s r s' [= _ <-]. Qed.
Lemma keeplog_gets {A} (f : fsys -> A) : keeplog (gets f).
Proof. by intros s r s' [= _ <-]. Qed.
Lemma keeplog_panic {A} e : keeplog (@panic fsys A e).
Proof. by intros s r s' E. Qed.
Lemma keeplog_diverge {A} : keeplog (@diverge fsys A).
Proof. by intros s r s' E. Qed.
Lemma keeplog_sleep_on {A} ch : keeplog (@sleep_on fsys A ch).
Proof. by intros s r s' E. Qed.
Lemma keeplog_modify f : (forall s, fslog (f s) = fslog s) -> keeplog (modify f).
Proof. intros Hf s r s' [= _ <-]. apply Hf. Qed.
Lemma keeplog_bind {A B} (m : M fsys A) (f : A -> M fsys B) : keeplog m -> (forall a, keeplog (f a)) -> keeplog (bind m f).
Proof.
  intros Hm Hf s r s' E. unfold bind in E. destruct (m s) as [a s1| | |] eqn:E1; try done.
  rewrite (Hf _ _ _ _ E). by eapply Hm.
Qed.
Lemma keeplog_for_range n lo body : (forall i, keeplog (body i)) -> keeplog (for_range n lo body).
Proof. intros Hb. revert lo. induction n; intros lo; [apply keeplog_ret|]. by apply keeplog_bind. Qed.
Lemma keeplog_acquire l : (forall v s, fslog (lset l v s) = fslog s) -> keeplog (acquire l).
Proof. intros Hl s r s' E. unfold acquire in E. destruct (lget l s); simplify_eq. apply Hl. Qed.
Lemma keeplog_release l : (forall v s, fslog (lset l v s) = fslog s) -> keeplog (release l).
Proof. intros Hl s r s' E. unfold release in E. destruct (lget l s); simplify_eq. apply Hl. Qed.
#[export] Hint Resolve keeplog_ret keeplog_gets keeplog_panic keeplog_diverge keeplog_sleep_on : keeplog.

Ltac keeplog_step :=
  match goal with
  | |- keeplog (bind _ _) => apply keeplog_bind; [|intros]
  | |- keeplog (modify _) => apply keeplog_modify; intros; reflexivity
  | |- keeplog (acquire _) => apply keeplog_acquire; intros; reflexivity
  | |- keeplog (release _) => apply keeplog_release; intros; reflexivity
  | |- keeplog (for_range _ _ _) => apply keeplog_for_range; intros
  | |- keeplog (when ?b _) => destruct b; cbn [when]
  | |- keeplog (if ?b then _ else _) => destruct b
  | |- keeplog (match ?x with _ => _ end) => destruct x
  | |- keeplog _ => solve [auto with keeplog]
  end.
Ltac keeplog_tac := repeat keeplog_step.

Lemma keeplog_buf_holding b : keeplog (buf_holding b).
Proof. unfold buf_holding, holdingsleep, sl_lk_lens. keeplog_tac. Qed.
Lemma keeplog_buf_acquire b : keeplog (acquiresleep (buf_lock b) (ChBufLock b) curpid).
Proof. unfold acquiresleep, sl_lk_lens, set_locked, sleep. keeplog_tac. Qed.
Lemma keeplog_buf_release b : keeplog (releasesleep (buf_lock b) (ChBufLock b) wakeup).
Proof. unfold releasesleep, sl_lk_lens, set_locked, wakeup. keeplog_tac. Qed.
#[export] Hint Resolve keeplog_buf_holding keeplog_buf_acquire keeplog_buf_release : keeplog.
Lemma keeplog_iderw b : keeplog (iderw b).
Proof. unfold iderw. keeplog_tac. Qed.
Lemma keeplog_bscan fuel dir test b : keeplog (bscan fuel dir test b).
Proof. revert b. induction fuel; intros b; simpl; keeplog_tac; auto. Qed.
#[export] Hint Resolve keeplog_iderw keeplog_bscan : keeplog.
Lemma keeplog_bread dev blockno : keeplog (bread dev blockno).
Proof. unfold bread, bget. keeplog_tac. Qed.
Lemma keeplog_bwrite b : keeplog (bwrite b).
Proof. unfold bwrite. keeplog_tac. Qed.
Lemma keeplog_brelse b : keeplog (brelse b).
Proof. unfold brelse, move_to_front. keeplog_tac. Qed.
#[export] Hint Resolve keeplog_bread keeplog_bwrite keeplog_brelse : keeplog.
Lemma keeplog_write_log : keeplog write_log.
Proof. unfold write_log, copy_data. keeplog_tac. Qed.
Lemma keeplog_install_trans : keeplog install_trans.
Proof. unfold install_trans, copy_data. keeplog_tac. Qed.
Lemma keeplog_write_head : keeplog write_head.
Proof. unfold write_head, upd_data. keeplog_tac. Qed.

(** A commit that returns has emptied the header. *)
Lemma commit_header s s' :
  0 <= log_n s -> commit s = Ret tt s' -> fslog s' = l_set_lh (mkLh 0 (lh_block (l_lh (fslog s)))) (fslog s).
Proof.
  intros Hn. unfold commit, bind, gets, when. destruct (Z.ltb_spec 0 (log_n s)) as [_|H0].
  - destruct (write_log s) as [[] s1| | |] eqn:E1; try done.
    destruct (write_head s1) as [[] s2| | |] eqn:E2; try done.
    destruct (install_trans s2) as [[] s3| | |] eqn:E3; try done.
    unfold set_log_n, upd_log, modify. intros E4. apply keeplog_write_head in E4. rewrite E4. cbn [fslog set_log].
    by rewrite (keeplog_install_trans _ _ _ E3), (keeplog_write_head _ _ _ E2), (keeplog_write_log _ _ _ E1).
  - intros [= <-]. unfold log_n in *. destruct s as [? ? ? ? [? ? ? ? ? ? [n bl]] ? ? ? ? ?]. simpl in *.
    by replace n with 0 by lia.
Qed.

Lemma end_op_last s s' :
  l_lock (fslog s) = false -> l_committing (fslog s) = 0 -> l_outstanding (fslog s) = 1 -> 0 <= log_n s ->
  end_op s = Ret tt s' ->
  fslog s' = l_set_outstanding 0 (l_set_lh (mkLh 0 (lh_block (l_lh (fslog s)))) (fslog s)).
Proof.
  intros Hlk Hco Hou Hn. destruct s as [md wt bk bf [lk st sz ou co dv lh] sb il ic wk pd]. simpl in *. subst lk co ou.
  unfold end_op, bind, acquire, release, gets, upd_log, modify, when, wakeup, ret. cbn -[commit].
  change (1 - 1 =? 0) with true. cbn -[commit].
  match goal with |- context [commit ?x] => destruct (commit x) as [[] s1| | |] eqn:E; try done;
    apply (commit_header x) in E; [|exact Hn] end.
  destruct s1 as [md1 wt1 bk1 bf1 [lk1 st1 sz1 ou1 co1 dv1 lh1] sb1 il1 ic1 wk1 pd1].
  unfold l_set_lh in E. cbn [fslog] in E. injection E as -> -> -> -> -> -> ->. cbn. by intros [= <-].
Qed.

(** *** Steps *)

Lemma size_write ops ops' X (bn : Z) :
  bn ∉ X -> (size ({[bn]} ∪ X) <= Z.to_nat MAXOPBLOCKS)%nat ->
  S (budget (ops ++ ({[bn]} ∪ X) :: ops')) = budget (ops ++ X :: ops').
Proof.
  intros Hin Hsz. rewrite !budget_app. simpl. unfold room.
  rewrite size_union, size_singleton in * by set_solver. lia.
Qed.

Lemma lstep_write s s' ops ops' X b :
  is_u32 (b_blockno (bufat s b)) -> (size ({[b_blockno (bufat s b)]} ∪ X) <= Z.to_nat MAXOPBLOCKS)%nat ->
  log_write b s = Ret tt s' -> reserved (s, ops ++ X :: ops') ->
  reserved (s', ops ++ ({[b_blockno (bufat s b)]} ∪ X) :: ops').
Proof.
  intros Hb Hsz Hw [L C O Hlen Hlog N R]. cbn [fst snd] in *. set (bn := b_blockno (bufat s b)) in *.
  destruct (log_write_header b s s' L N Hlen Hb Hw) as (Hl & Hlen' & Hh). fold bn in Hh.
  assert (Hsub : forall x, x ∈ in_header s \/ x = bn -> x ∈ in_header s').
  { intros x Hx. destruct Hh as [(Hin & -> & _)|(_ & -> & _)]; [destruct Hx as [?| ->]; done|set_solver]. }
  rewrite Forall_app, Forall_cons in Hlog. destruct Hlog as (Ho & HX & Ho').
  split; cbn [fst snd].
  - rewrite Hl. exact L.
  - rewrite Hl. exact C.
  - rewrite Hl. cbn [l_outstanding l_set_lh]. rewrite O, !length_app. done.
  - exact Hlen'.
  - apply Forall_app; split; [|apply Forall_cons; split].
    + eapply Forall_impl; [exact Ho|]. naive_solver.
    + set_solver.
    + eapply Forall_impl; [exact Ho'|]. naive_solver.
  - destruct Hh as [(_ & _ & ->)|(_ & _ & ->)]; lia.
  - destruct Hh as [(_ & _ & ->)|(Hnew & _ & ->)].
    + destruct (decide (bn ∈ X)) as [Hin|Hin]; [by replace ({[bn]} ∪ X) with X by set_solver|].
      pose proof (size_write ops ops' X bn Hin Hsz). lia.
    + assert (Hin : bn ∉ X) by (intros Hin; apply Hnew, HX, Hin).
      pose proof (size_write ops ops' X bn Hin Hsz). lia.
Qed.

Lemma lstep_end s s' ops ops' X :
  end_op s = Ret tt s' -> reserved (s, ops ++ X :: ops') -> reserved (s', ops ++ ops').
Proof.
  intros He [L C O Hlen Hlog N R]. cbn [fst snd] in *. rewrite length_app in O. simpl in O.
  rewrite budget_app in R. simpl in R. rewrite Forall_app, Forall_cons in Hlog.
  destruct (decide (ops ++ ops' = [])) as [E|Hne].
  - apply app_eq_nil in E as [-> ->]. apply end_op_last in He; [|done..].
    split; cbn [fst snd app]; unfold log_n; rewrite ?He; try done.
  - assert (Hlen0 : length (ops ++ ops') <> 0%nat) by (intros H0%nil_length_inv; done).
    rewrite length_app in Hlen0. rewrite end_op_other in He by (done || lia). simplify_eq.
    split; cbn [fst snd]; rewrite ?budget_app, ?length_app; simpl; auto; try lia.
    + apply Forall_app. tauto.
    + change (log_n (set_woken _ _)) with (log_n s). lia.
Qed.

Lemma lstep_reserved p p' : lstep p p' -> reserved p -> reserved p'.
Proof.
  intros [s s' ops Hr|s s' ops ops' X b Hb Hsz Hr|s s' ops ops' X Hr] Hres;
    [|by eapply lstep_write|by eapply lstep_end].
  destruct Hres as [L C O Hlen Hlog N R]. cbn [fst snd] in *.
  rewrite begin_op_run in Hr by done. destruct (negb _ || _) eqn:E; simplify_eq.
  apply orb_false_iff in E as [_ E%Z.ltb_ge]. pose proof (budget_le ops).
  split; cbn [fst snd]; try done.
  - cbn. rewrite O. lia.
  - apply Forall_cons. split; [set_solver|]. exact Hlog.
  - change (log_n (set_log _ _)) with (log_n s). rewrite O in E. cbn [budget foldr]. fold (budget ops).
    unfold room. rewrite size_empty. unfold MAXOPBLOCKS in *. lia.
Qed.

(** *** Running a schedule *)

Inductive act := ABegin | AWrite (j b : nat) | AEnd (j : nat).

Definition run1 (p : fsys * list (gset Z)) (a : act) : option (fsys * list (gset Z)) :=
  match a with
  | ABegin =>
      match begin_op (fst p) with
      | Ret _ s' => Some (s', ∅ :: snd p)
      | _ => None
      end
  | AWrite j b =>
      X ← snd p !! j;
      let bn := b_blockno (bufat (fst p) b) in
      if decide (0 <= bn < 2 ^ 32 /\ (size ({[bn]} ∪ X) <= Z.to_nat MAXOPBLOCKS)%nat) then
        match log_write b (fst p) with
        | Ret _ s' => Some (s', <[j := {[bn]} ∪ X]> (snd p))
        | _ => None
        end
      else None
  | AEnd j =>
      _ ← snd p !! j;
      match end_op (fst p) with
      | Ret _ s' => Some (s', remove_nth j (snd p))
      | _ => None
      end
  end.

Fixpoint run_acts (acts : list act) (p : fsys * list (gset Z)) : option (fsys * list (gset Z)) :=
  match acts with
  | [] => Some p
  | a :: acts' => match run1 p a with Some p' => run_acts acts' p' | None => None end
  end.

Lemma run1_step p a p' : run1 p a = Some p' -> lstep p p'.
Proof.
  destruct p as [s ops], a as [|j b|j]; cbn [run1 fst snd].
  - destruct (begin_op s) as [[] s'| | |] eqn:E; intros; simplify_eq. by constructor.
  - destruct (ops !! j) as [X|] eqn:Ej; [|done]. cbn [mbind option_bind]. case_decide as Hd; [|done].
    destruct (log_write b s) as [[] s'| | |] eqn:E; intros; simplify_eq.
    rewrite (insert_take_drop ops j) by (by apply lookup_lt_Some in Ej).
    rewrite <- (take_drop_middle ops j X) at 1 by done. by constructor; [apply Hd..|].
  - destruct (ops !! j) as [X|] eqn:Ej; [|done]. cbn [mbind option_bind].
    destruct (end_op s) as [[] s'| | |] eqn:E; intros; simplify_eq.
    rewrite <- (take_drop_middle ops j X) at 1 by done. by constructor.
Qed.

Lemma run_acts_steps acts p p' : run_acts acts p = Some p' -> rtc lstep p p'.
Proof.
  revert p. induction acts as [|a acts IH]; intros p Hr; simplify_eq/=; [done|].
  destruct (run1 p a) as [q|] eqn:E; [|done].
  eapply rtc_l; [by eapply run1_step|by apply IH].
Qed.

(** The log at the start: no operation, nothing logged. *)
Definition log_fresh (size : Z) (s : fsys) : Prop :=
  l_lock (fslog s) = false /\ l_committing (fslog s) = 0 /\ l_outstanding (fslog s) = 0 /\
  log_n s = 0 /\ l_size (fslog s) = size /\ length (lh_block (l_lh (fslog s))) = Z.to_nat LOGSIZE.

Lemma lstep_size p p' :
  lstep p p' -> reserved p -> l_size (fslog (fst p')) = l_size (fslog (fst p)).
Proof.
  intros [s s' ops Hr|s s' ops ops' X b Hb Hsz Hr|s s' ops ops' X Hr] [L C O Hlen Hlog N R]; cbn [fst snd] in *.
  - rewrite begin_op_run in Hr by done. by destruct (negb _ || _); simplify_eq.
  - destruct (log_write_header b s s' L N Hlen Hb Hr) as (-> & _). done.
  - destruct (decide (l_outstanding (fslog s) = 1)) as [H1|H1].
    + apply end_op_last in Hr; [|done..]. by rewrite Hr.
    + rewrite end_op_other in Hr by done. by simplify_eq.
Qed.

Lemma reach_reserved size s p :
  log_fresh size s -> rtc lstep (s, []) p -> reserved p /\ l_size (fslog (fst p)) = size.
Proof.
  intros (H1 & H2 & H3 & H4 & H5 & H6) Hr.
  assert (Hi : reserved (s, [])).
  { split; cbn [fst snd]; auto; try lia. rewrite H4. vm_compute. done. }
  assert (Hs : l_size (fslog (fst (s, @nil (gset Z)))) = size) by done.
  clear H1 H2 H3 H4 H5 H6. induction Hr as [|p1 p2 p3 H12 _ IH]; [done|].
  apply IH; [by eapply lstep_reserved|]. by rewrite (lstep_size _ _ H12).
Qed.

(** C32. However the operations interleave, over any number of commits, the log never overflows:
    when a running operation has logged fewer than MAXOPBLOCKS different blocks (logging the same
    block again counts once), its next log_write() returns (no "too big a transaction"), as long
    as the log area on the disk has more than LOGSIZE blocks, which gives LOGSIZE blocks besides
    the header. *)
Theorem log_write_admitted size s t ops X ops' b :
  log_fresh size s -> LOGSIZE < size -> rtc lstep (s, []) (t, ops ++ X :: ops') ->
  (base.size X < Z.to_nat MAXOPBLOCKS)%nat ->
  log_n t < LOGSIZE /\ exists t', log_write b t = Ret tt t'.
Proof.
  intros Hf Hsz Hr HX. destruct (reach_reserved size s _ Hf Hr) as [[L C O Hlen Hlog N R] Hs]. cbn [fst snd] in *.
  rewrite budget_app in R. cbn [budget foldr] in R. fold (budget ops') in R. unfold room in R.
  rewrite length_app in O. simpl in O.
  split; [lia|]. eexists. apply log_write_run; [done|lia|lia|lia].
Qed.

(** *** An operation that is never ended *)

(** The calls of the other operations, while one that has logged [X] stays open. *)
Definition beside (X : gset Z) (p q : fsys * list (gset Z)) : Prop :=
  lstep (fst p, snd p ++ [X]) (fst q, snd q ++ [X]).

(** What these calls leave alone, and how the header grows. *)
Definition uncommitted (s s' : fsys) : Prop :=
  memdisk s' = memdisk s /\ wtrace s' = wtrace s /\ in_header s `prefix_of` in_header s'.

Lemma uncommitted_trans s1 s2 s3 : uncommitted s1 s2 -> uncommitted s2 s3 -> uncommitted s1 s3.
Proof.
  intros (A1 & B1 & C1) (A2 & B2 & C2). split_and!; [congruence|congruence|by etrans].
Qed.

Lemma log_write_disk b s s' : log_write b s = Ret tt s' -> memdisk s' = memdisk s /\ wtrace s' = wtrace s.
Proof.
  unfold log_write, bind, gets, panic, acquire, release, set_log_block, set_log_n, upd_log, modify, when, ret.
  repeat case_match; intros; simplify_eq/=; done.
Qed.

Lemma beside_uncommitted X p q :
  beside X p q -> reserved (fst p, snd p ++ [X]) -> uncommitted (fst p) (fst q).
Proof.
  unfold beside. destruct p as [s ops], q as [t ops']. cbn [fst snd]. intros Hs [L C O Hlen _ N _]. cbn [fst snd] in *.
  remember (s, ops ++ [X]) as p eqn:Ep. remember (t, ops' ++ [X]) as q eqn:Eq.
  destruct Hs as [s1 t1 o Hr|s1 t1 o1 o2 Y b Hb Hsz Hr|s1 t1 o1 o2 Y Hr];
    injection Ep as -> E1; injection Eq as -> E2.
  - rewrite begin_op_run in Hr by done. by destruct (negb _ || _); simplify_eq.
  - destruct (log_write_header b s t L N Hlen Hb Hr) as (_ & _ & Hh).
    destruct (log_write_disk b s t Hr) as [E3 E4]. split_and!; [done..|].
    destruct Hh as [(_ & -> & _)|(_ & -> & _)]; [done|by apply prefix_app_r].
  - rewrite end_op_other in Hr; [by simplify_eq|done|done|]. rewrite O, <- E1, length_app. simpl.
    apply (f_equal length) in E2. rewrite !length_app in E2. simpl in E2. lia.
Qed.

Lemma beside_run X s ops t ops' :
  reserved (s, ops ++ [X]) -> rtc (beside X) (s, ops) (t, ops') ->
  uncommitted s t /\ reserved (t, ops' ++ [X]).
Proof.
  intros Hres Hr. change s with (fst (s, ops)). change t with (fst (t, ops')) at 1.
  change (t, ops' ++ [X]) with (fst (t, ops'), snd (t, ops') ++ [X]).
  assert (H0 : reserved (fst (s, ops), snd (s, ops) ++ [X])) by done. clear Hres.
  induction Hr as [p|p q r Hpq _ IH]; [done|].
  pose proof (beside_uncommitted X p q Hpq H0) as H1.
  destruct IH as [H2 H3]; [by eapply lstep_reserved|]. split; [by eapply uncommitted_trans|done].
Qed.

(** begin_op() lets nobody in once the header and the operations that are open, the one that
    is never ended among them, take up the log. *)
Lemma begin_op_waits s ops X :
  reserved (s, ops ++ [X]) -> LOGSIZE < log_n s + (Z.of_nat (length ops) + 2) * MAXOPBLOCKS ->
  begin_op s = Sleep ChLog s.
Proof.
  intros [L C O _ _ _ _] Hn. cbn [fst snd] in *. rewrite length_app in O. simpl in O.
  rewrite begin_op_run by done. rewrite C, O. simpl.
  by rewrite (proj2 (Z.ltb_lt _ _)) by lia.
Qed.

(** A file system whose buffers name distinct blocks, with a fresh log of [size] blocks. *)
Definition demo_log (size : Z) : fsys :=
  mkFsys [] [] false
    ((fun i : nat => mkBuf 2 1 (100 + Z.of_nat i) initsleeplock 1 0 0 []) <$> seq 0 NBUF)
    (mkLog false 2 size 0 0 1 (mkLh 0 (replicate (Z.to_nat LOGSIZE) 0)))
    (mkSb 0 0 0 0 0 0 0) false [] [] 1.

(** Three operations that log ten distinct blocks each. *)
Definition three_ops (n : nat) : list act :=
  replicate 3 ABegin ++ ((fun b : nat => AWrite (b / 10) b) <$> seq 0 n).

(** The sizes of the sets of a state. *)
Definition used (p : fsys * list (gset Z)) : list nat := base.size <$> snd p.

Lemma log_write_admitted_witness :
  exists t ops X, run_acts (three_ops 29) (demo_log 31, []) = Some (t, ops ++ X :: []) /\
    log_n t < LOGSIZE /\ exists t', log_write 29 t = Ret tt t'.
Proof.
  destruct (run_acts (three_ops 29) (demo_log 31, [])) as [[t ops]|] eqn:E;
    [|vm_compute in E; discriminate].
  assert (Hu : used (t, ops) = [10; 10; 9]%nat).
  { assert (Hc : used <$> run_acts (three_ops 29) (demo_log 31, []) = Some [10; 10; 9]%nat)
      by (vm_compute; reflexivity). rewrite E in Hc. injection Hc as Hc. exact Hc. }
  unfold used in Hu. cbn [snd] in Hu.
  destruct ops as [|X1 [|X2 [|X3 [|]]]]; try discriminate Hu. injection Hu as H1 H2 H3.
  exists t, [X1; X2], X3. split; [reflexivity|].
  apply (log_write_admitted 31 (demo_log 31) t [X1; X2] X3 []).
  - split_and!; reflexivity.
  - reflexivity.
  - apply (run_acts_steps (three_ops 29)). exact E.
  - rewrite H3. unfold MAXOPBLOCKS. lia.
Defined.

(** mkfs makes a log of LOGSIZE blocks, header included, so there begin_op() admits one
    block more than log_write() accepts: three admitted operations that log ten distinct
    blocks each panic at the thirtieth. *)
Theorem log_write_one_short :
  exists s t ops,
    log_fresh LOGSIZE s /\ rtc lstep (s, []) (t, ops) /\ used (t, ops) = [10; 10; 9]%nat /\
    log_write 29 t = Panic "too big a transaction".
Proof.
  destruct (run_acts (three_ops 29) (demo_log LOGSIZE, [])) as [[t ops]|] eqn:E;
    [|vm_compute in E; discriminate].
  exists (demo_log LOGSIZE), t, ops. split; [by split_and!|]. split_and!.
  - by apply (run_acts_steps (three_ops 29)).
  - assert (Hc : used <$> run_acts (three_ops 29) (demo_log LOGSIZE, []) = Some [10; 10; 9]%nat)
      by (vm_compute; reflexivity). rewrite E in Hc. injection Hc as Hc. exact Hc.
  - vm_compute in E. injection E as <- _. reflexivity.
Qed.
