(* ===== verification/Fs.v ===== *)
(** fs.c: blocks, inodes, files, directories and path names.

    - A pointer to an inode is its index in the inode cache; where the C code returns or tests
      a null pointer, it is an [option].
    - The byte ranges that readi() and writei() copy from and to the caller are lists of
      bytes: readi() returns what it stores at [dst], writei() is given what is at [src].
    - [struct dinode] and [struct dirent] are read and written at their offsets in the block.
    - A path is the list of its bytes before the terminating NUL; the buffer [name] has DIRSIZ
      bytes.
    - The device table [devsw] is an argument of the functions that call through it, and
      [cwd] stands for [proc->cwd]. *)

From S2P Require Export Log.

Open Scope kernel_scope.

(** *** Blocks *)

Definition bzero (dev bno : Z) : M fsys unit :=
  bp <- bread dev (u32 bno) ;;
  upd_data bp (fun _ => replicate (Z.to_nat BSIZE) 0) ;;
  log_write bp ;;
  brelse bp.

Definition BBLOCK (b : Z) (v : superblock) : Z := u32 (b / BPB + sb_bmapstart v).

(** The byte of a block. *)
Definition byte_at (blk : list Z) (i : Z) : Z := blk !!! Z.to_nat i.

(** Bit [bi] of a bitmap block: [data[bi/8] & (1 << (bi % 8))]. *)
Definition bit_clear (blk : list Z) (bi : Z) : bool :=
  Z.land (byte_at blk (bi / 8)) (Z.shiftl 1 (bi mod 8)) =? 0.
Definition set_bit (bi : Z) (blk : list Z) : list Z :=
  <[Z.to_nat (bi / 8) := u8 (Z.lor (byte_at blk (bi / 8)) (Z.shiftl 1 (bi mod 8)))]> blk.
Definition clear_bit (bi : Z) (blk : list Z) : list Z :=
  <[Z.to_nat (bi / 8) := u8 (Z.land (byte_at blk (bi / 8)) (Z.lnot (Z.shiftl 1 (bi mod 8))))]> blk.

(** The inner loop of balloc(): the first clear bit from [bi] on. *)
Fixpoint free_bit (n : nat) (blk : list Z) (b size bi : Z) : option Z :=
  match n with
  | O => None
  | S n' =>
      if b + bi <? size then
        if bit_clear blk bi then Some bi else free_bit n' blk b size (bi + 1)
      else None
  end.

Fixpoint balloc_from (fuel : nat) (dev b : Z) : M fsys Z :=
  match fuel with
  | O => diverge
  | S f =>
      v <- gets sb ;;
      if negb (b <? sb_size v) then panic "balloc: out of blocks" else
      bp <- bread dev (BBLOCK b v) ;;
      blk <- gets (fun s => b_data (bufat s bp)) ;;
      match free_bit (Z.to_nat BPB) blk b (sb_size v) 0 with
      | Some bi =>
          upd_data bp (set_bit bi) ;;
          log_write bp ;;
          brelse bp ;;
          bzero dev (b + bi) ;;
          ret (b + bi)
      | None =>
          brelse bp ;;
          balloc_from f dev (b + BPB)
      end
  end.

Definition balloc (dev : Z) : M fsys Z :=
  v <- gets sb ;;
  balloc_from (S (Z.to_nat (sb_size v / BPB + 1))) dev 0.

Definition bfree (dev b : Z) : M fsys unit :=
  v <- readsb dev ;;
  modify (set_sb v) ;;
  bp <- bread dev (BBLOCK b v) ;;
  blk <- gets (fun s => b_data (bufat s bp)) ;;
  let bi := b mod BPB in
  if bit_clear blk bi then panic "freeing free block" else
  upd_data bp (clear_bit bi) ;;
  log_write bp ;;
  brelse bp.

(** *** Inodes *)

Definition inode_lock (ip : nat) : lens fsys sleeplock :=
  mkLens (fun s => i_lock (ino s ip))
    (fun v => upd_ino ip (fun x => mkInode (i_dev x) (i_inum x) (i_ref x) v (i_flags x)
       (i_type x) (i_major x) (i_minor x) (i_nlink x) (i_size x) (i_addrs x))).

Definition i_set_ref (v : Z) (x : inode) : inode :=
  mkInode (i_dev x) (i_inum x) v (i_lock x) (i_flags x) (i_type x) (i_major x) (i_minor x)
    (i_nlink x) (i_size x) (i_addrs x).
Definition i_set_flags (v : Z) (x : inode) : inode :=
  mkInode (i_dev x) (i_inum x) (i_ref x) (i_lock x) v (i_type x) (i_major x) (i_minor x)
    (i_nlink x) (i_size x) (i_addrs x).
Definition i_set_type (v : Z) (x : inode) : inode :=
  mkInode (i_dev x) (i_inum x) (i_ref x) (i_lock x) (i_flags x) v (i_major x) (i_minor x)
    (i_nlink x) (i_size x) (i_addrs x).
Definition i_set_nlink (v : Z) (x : inode) : inode :=
  mkInode (i_dev x) (i_inum x) (i_ref x) (i_lock x) (i_flags x) (i_type x) (i_major x)
    (i_minor x) v (i_size x) (i_addrs x).
Definition i_set_majmin (ma mi : Z) (x : inode) : inode :=
  mkInode (i_dev x) (i_inum x) (i_ref x) (i_lock x) (i_flags x) (i_type x) ma mi
    (i_nlink x) (i_size x) (i_addrs x).
Definition i_set_size (v : Z) (x : inode) : inode :=
  mkInode (i_dev x) (i_inum x) (i_ref x) (i_lock x) (i_flags x) (i_type x) (i_major x)
    (i_minor x) (i_nlink x) v (i_addrs x).
Definition i_set_addrs (v : list Z) (x : inode) : inode :=
  mkInode (i_dev x) (i_inum x) (i_ref x) (i_lock x) (i_flags x) (i_type x) (i_major x)
    (i_minor x) (i_nlink x) (i_size x) v.

Definition upd_inode (ip : nat) (f : inode -> inode) : M fsys unit := modify (upd_ino ip f).

(** [ip->addrs[k]] *)
Definition i_addr (x : inode) (k : Z) : Z := getw (i_addrs x) k.
Definition set_addr (ip : nat) (k v : Z) : M fsys unit :=
  upd_inode ip (fun x => i_set_addrs (setw (i_addrs x) k v) x).

Definition IBLOCK (i : Z) (v : superblock) : Z := u32 (i / IPB + sb_inodestart v).

(** The byte offset of inode [inum] in its block. *)
Definition dip_off (inum : Z) : nat := Z.to_nat (inum mod IPB * sizeof_dinode).
Definition sizeof_addrs : Z := (NDIRECT + 1) * 4.

Definition iinit (dev : Z) : M fsys unit :=
  modify (set_ic_lock false) ;;
  for_range (Z.to_nat NINODE) 0 (fun i =>
    modify (lset (inode_lock (Z.to_nat i)) initsleeplock)) ;;
  v <- readsb dev ;;
  modify (set_sb v).

(** The loop of iget(): the entry of the inode, or the first free entry. *)
Fixpoint iget_scan (n : nat) (ip : nat) (dev inum : Z) (empty : option nat) (c : list inode)
    : nat + option nat :=
  match n with
  | O => inr empty
  | S n' =>
      let x := c !!! ip in
      if (0 <? i_ref x) && (i_dev x =? dev) && (i_inum x =? inum) then inl ip
      else
        let empty' := match empty with
                      | None => if i_ref x =? 0 then Some ip else None
                      | Some _ => empty
                      end in
        iget_scan n' (S ip) dev inum empty' c
  end.

Definition iget (dev inum : Z) : M fsys nat :=
  acquire icache_lock ;;
  c <- gets icache ;;
  match iget_scan (Z.to_nat NINODE) 0 dev inum None c with
  | inl ip =>
      upd_inode ip (fun x => i_set_ref (i_ref x + 1) x) ;;
      release icache_lock ;;
      ret ip
  | inr None => panic "iget: no inodes"
  | inr (Some ip) =>
      upd_inode ip (fun x => mkInode dev inum 1 (i_lock x) 0 (i_type x) (i_major x) (i_minor x)
                               (i_nlink x) (i_size x) (i_addrs x)) ;;
      release icache_lock ;;
      ret ip
  end.

(** [memset(dip, 0, sizeof( *dip)); dip->type = type] *)
Definition init_dinode (off : nat) (type : Z) (blk : list Z) : list Z :=
  setf 2 off type (blit off (replicate (Z.to_nat sizeof_dinode) 0) blk).

Definition ialloc (dev type : Z) : M fsys nat :=
  v <- gets sb ;;
  r <- find_range (Z.to_nat (sb_ninodes v - 1)) 1 (fun inum =>
    v <- gets sb ;;
    bp <- bread dev (IBLOCK inum v) ;;
    blk <- gets (fun s => b_data (bufat s bp)) ;;
    if getf 2 (dip_off inum) blk =? 0 then
      upd_data bp (init_dinode (dip_off inum) type) ;;
      log_write bp ;;
      brelse bp ;;
      ip <- iget dev inum ;;
      ret (Some ip)
    else
      brelse bp ;;
      ret None) ;;
  match r with
  | Some ip => ret ip
  | None => panic "ialloc: no inodes"
  end.

(** The stores of iupdate() into the disk inode at [off]. *)
Definition put_dinode (off : nat) (x : inode) (blk : list Z) : list Z :=
  blit (off + 12) (i_addrs x)
    (setf 4 (off + 8) (i_size x)
      (setf 2 (off + 6) (i_nlink x)
        (setf 2 (off + 4) (i_minor x)
          (setf 2 (off + 2) (i_major x)
            (setf 2 off (i_type x) blk))))).

Definition iupdate (ip : nat) : M fsys unit :=
  x <- gets (fun s => ino s ip) ;;
  v <- gets sb ;;
  bp <- bread (i_dev x) (IBLOCK (i_inum x) v) ;;
  upd_data bp (put_dinode (dip_off (i_inum x)) x) ;;
  log_write bp ;;
  brelse bp.

Definition idup (ip : nat) : M fsys nat :=
  acquire icache_lock ;;
  upd_inode ip (fun x => i_set_ref (i_ref x + 1) x) ;;
  release icache_lock ;;
  ret ip.

(** The inode with the fields of the disk inode at [off]. *)
Definition get_dinode (off : nat) (blk : list Z) (x : inode) : inode :=
  mkInode (i_dev x) (i_inum x) (i_ref x) (i_lock x) (i_flags x)
    (s16 (getf 2 off blk)) (s16 (getf 2 (off + 2) blk)) (s16 (getf 2 (off + 4) blk))
    (s16 (getf 2 (off + 6) blk)) (getf 4 (off + 8) blk)
    (slice (off + 12) (Z.to_nat sizeof_addrs) blk).

Definition ilock (p : option nat) : M fsys unit :=
  match p with
  | None => panic "ilock"
  | Some ip =>
      x <- gets (fun s => ino s ip) ;;
      if i_ref x <? 1 then panic "ilock" else
      acquiresleep (inode_lock ip) (ChInodeLock ip) curpid ;;
      x <- gets (fun s => ino s ip) ;;
      when (Z.land (i_flags x) I_VALID =? 0) (
        v <- gets sb ;;
        bp <- bread (i_dev x) (IBLOCK (i_inum x) v) ;;
        blk <- gets (fun s => b_data (bufat s bp)) ;;
        upd_inode ip (get_dinode (dip_off (i_inum x)) blk) ;;
        brelse bp ;;
        upd_inode ip (fun x => i_set_flags (Z.lor (i_flags x) I_VALID) x) ;;
        x <- gets (fun s => ino s ip) ;;
        if i_type x =? 0 then panic "ilock: no type" else ret tt)
  end.

Definition iunlock (p : option nat) : M fsys unit :=
  match p with
  | None => panic "iunlock"
  | Some ip =>
      h <- holdingsleep (inode_lock ip) ;;
      if h =? 0 then panic "iunlock" else
      x <- gets (fun s => ino s ip) ;;
      if i_ref x <? 1 then panic "iunlock" else
      releasesleep (inode_lock ip) (ChInodeLock ip) wakeup
  end.

(** *** Inode contents *)

Definition bmap (ip : nat) (bn : Z) : M fsys Z :=
  x <- gets (fun s => ino s ip) ;;
  if bn <? NDIRECT then
    if i_addr x bn =? 0 then
      addr <- balloc (i_dev x) ;;
      set_addr ip bn addr ;;
      ret addr
    else ret (i_addr x bn)
  else
    let bn := bn - NDIRECT in
    if bn <? NINDIRECT then
      addr <- (if i_addr x NDIRECT =? 0 then
                 addr <- balloc (i_dev x) ;;
                 set_addr ip NDIRECT addr ;;
                 ret addr
               else ret (i_addr x NDIRECT)) ;;
      bp <- bread (i_dev x) addr ;;
      a <- gets (fun s => b_data (bufat s bp)) ;;
      if getw a bn =? 0 then
        addr <- balloc (i_dev x) ;;
        upd_data bp (fun a => setw a bn addr) ;;
        log_write bp ;;
        brelse bp ;;
        ret addr
      else
        brelse bp ;;
        ret (getw a bn)
    else panic "bmap: out of range".

Definition itrunc (ip : nat) : M fsys unit :=
  for_range (Z.to_nat NDIRECT) 0 (fun i =>
    x <- gets (fun s => ino s ip) ;;
    when (negb (i_addr x i =? 0)) (
      bfree (i_dev x) (i_addr x i) ;;
      set_addr ip i 0)) ;;
  x <- gets (fun s => ino s ip) ;;
  when (negb (i_addr x NDIRECT =? 0)) (
    bp <- bread (i_dev x) (i_addr x NDIRECT) ;;
    for_range (Z.to_nat NINDIRECT) 0 (fun j =>
      a <- gets (fun s => b_data (bufat s bp)) ;;
      when (negb (getw a j =? 0)) (bfree (i_dev x) (getw a j))) ;;
    brelse bp ;;
    bfree (i_dev x) (i_addr x NDIRECT) ;;
    set_addr ip NDIRECT 0) ;;
  upd_inode ip (i_set_size 0) ;;
  iupdate ip.

Definition iput (ip : nat) : M fsys unit :=
  acquire icache_lock ;;
  x <- gets (fun s => ino s ip) ;;
  when ((i_ref x =? 1) && negb (Z.land (i_flags x) I_VALID =? 0) && (i_nlink x =? 0)) (
    if negb (Z.land (i_flags x) I_BUSY =? 0) then panic "iput busy" else
    upd_inode ip (fun x => i_set_flags (Z.lor (i_flags x) I_BUSY) x) ;;
    release icache_lock ;;
    when (negb (i_type x =? T_SFILE)) (itrunc ip) ;;
    upd_inode ip (i_set_type 0) ;;
    iupdate ip ;;
    acquire icache_lock ;;
    upd_inode ip (i_set_flags 0) ;;
    wakeup (ChInode ip)) ;;
  upd_inode ip (fun x => i_set_ref (i_ref x - 1) x) ;;
  release icache_lock.

Definition iunlockput (p : option nat) : M fsys unit :=
  match p with
  | None => iunlock None
  | Some ip => iunlock (Some ip) ;; iput ip
  end.

(** struct stat *)
Record stat := mkStat { st_type : Z; st_dev : Z; st_ino : Z; st_nlink : Z; st_size : Z }.

Definition stati (ip : nat) : M fsys stat :=
  gets (fun s => let x := ino s ip in
    mkStat (i_type x) (i_dev x) (i_inum x) (i_nlink x) (i_size x)).

(** An entry of [devsw]: the driver's functions, or null. A read returns its result and the
    bytes it stored. *)
Record devsw_entry := mkDevsw {
  d_read : option (nat -> Z -> M fsys (Z * list Z));
  d_write : option (nat -> list Z -> Z -> M fsys Z);
}.

Section Files.
Context (devsw : Z -> devsw_entry).

(** The loop of readi(); [out] is what has been stored at [dst]. *)
Fixpoint readi_loop (fuel : nat) (ip : nat) (off n tot : Z) (out : list Z) : M fsys (list Z) :=
  match fuel with
  | O => diverge
  | S f =>
      if negb (tot <? n) then ret out else
      sector_number <- bmap ip (off / BSIZE) ;;
      if sector_number =? 0
      then panic "readi: trying to read a block that was never allocated" else
      x <- gets (fun s => ino s ip) ;;
      bp <- bread (i_dev x) sector_number ;;
      let m := Z.min (n - tot) (BSIZE - off mod BSIZE) in
      d <- gets (fun s => slice (Z.to_nat (off mod BSIZE)) (Z.to_nat m) (b_data (bufat s bp))) ;;
      brelse bp ;;
      readi_loop f ip (u32 (off + m)) n (tot + m) (out ++ d)
  end.

(** Every turn but the first and the last copies a whole block. *)
Definition copy_fuel (n : Z) : nat := Z.to_nat (n / BSIZE + 3).

Definition readi (ip : nat) (off n : Z) : M fsys (Z * list Z) :=
  x <- gets (fun s => ino s ip) ;;
  if i_type x =? T_DEV then
    if (i_major x <? 0) || (NDEV <=? i_major x) then ret (-1, [])
    else match d_read (devsw (i_major x)) with
         | None => ret (-1, [])
         | Some f => f ip n
         end
  else if (i_size x <? off) || (u32 (off + n) <? off) then ret (-1, [])
  else
    let n := if i_size x <? u32 (off + n) then i_size x - off else n in
    if i_type x =? T_SFILE then
      ret (n, slice (Z.to_nat off) (Z.to_nat n) (i_addrs x))
    else
      d <- readi_loop (copy_fuel n) ip off n 0 [] ;;
      ret (n, d).

(** The loop of writei(): the bytes written and the offset reached. *)
Fixpoint writei_loop (fuel : nat) (ip : nat) (src : list Z) (off n tot : Z) : M fsys (Z * Z) :=
  match fuel with
  | O => diverge
  | S f =>
      if negb (tot <? n) then ret (n, off) else
      sector_number <- bmap ip (off / BSIZE) ;;
      if sector_number =? 0 then ret (tot, off) else
      x <- gets (fun s => ino s ip) ;;
      bp <- bread (i_dev x) sector_number ;;
      let m := Z.min (n - tot) (BSIZE - off mod BSIZE) in
      upd_data bp (blit (Z.to_nat (off mod BSIZE)) (take (Z.to_nat m) src)) ;;
      bwrite bp ;;
      brelse bp ;;
      writei_loop f ip (drop (Z.to_nat m) src) (u32 (off + m)) n (tot + m)
  end.

Definition writei (ip : nat) (src : list Z) (off n : Z) : M fsys Z :=
  x <- gets (fun s => ino s ip) ;;
  if i_type x =? T_DEV then
    if (i_major x <? 0) || (NDEV <=? i_major x) then ret (-1)
    else match d_write (devsw (i_major x)) with
         | None => ret (-1)
         | Some f => f ip src n
         end
  else if (i_size x <? off) || (u32 (off + n) <? off) then ret (-1)
  else
    let n := if MAXFILE * BSIZE <? u32 (off + n) then u32 (MAXFILE * BSIZE - off) else n in
    let n := if (i_type x =? T_SFILE) && (sizeof_addrs <? u32 (off + n))
             then u32 (sizeof_addrs - off) else n in
    r <- (if i_type x =? T_SFILE then
            upd_inode ip (fun y => i_set_addrs
              (blit (Z.to_nat off) (take (Z.to_nat n) src) (i_addrs y)) y) ;;
            ret (n, u32 (off + n))
          else writei_loop (copy_fuel n) ip src off n 0) ;;
    let '(n, off) := r in
    y <- gets (fun s => ino s ip) ;;
    when ((i_type y =? T_SFILE) || ((0 <? n) && (i_size y <? off))) (
      when ((0 <? n) && (i_size y <? off)) (upd_inode ip (i_set_size off)) ;;
      iupdate ip) ;;
    ret n.

(** *** Directories *)

(** strncmp() on the bytes of two arrays; a byte past the end of a list is NUL. *)
Fixpoint strncmp_bytes (n : nat) (p q : list Z) : Z :=
  match n with
  | O => 0
  | S n' =>
      let a := default 0 (hd_error p) in
      let b := default 0 (hd_error q) in
      if negb (a =? 0) && (a =? b) then strncmp_bytes n' (tl p) (tl q) else a - b
  end.

Definition namecmp (s t : list Z) : Z := strncmp_bytes (Z.to_nat DIRSIZ) s t.

(** struct dirent *)
Definition de_inum (de : list Z) : Z := getf 2 0 de.
Definition de_name (de : list Z) : list Z := slice 2 (Z.to_nat DIRSIZ) de.

(** Offsets below 2^32 in steps of 16: the loops over a directory need this much fuel. *)
Definition dir_fuel (size : Z) : nat := S (Z.to_nat (size / sizeof_dirent + 1)).

(** The loop of dirlookup(): the matching entry's number and offset. *)
Fixpoint dirlookup_loop (fuel : nat) (dp : nat) (name : list Z) (off : Z)
    : M fsys (option (Z * Z)) :=
  match fuel with
  | O => diverge
  | S f =>
      x <- gets (fun s => ino s dp) ;;
      if negb (off <? i_size x) then ret None else
      r <- readi dp off sizeof_dirent ;;
      if negb (fst r =? sizeof_dirent) then panic "dirlink read" else
      let de := snd r in
      if de_inum de =? 0 then dirlookup_loop f dp name (u32 (off + sizeof_dirent))
      else if namecmp name (de_name de) =? 0 then ret (Some (de_inum de, off))
      else dirlookup_loop f dp name (u32 (off + sizeof_dirent))
  end.

Definition dirlookup (dp : nat) (name : list Z) : M fsys (option (nat * Z)) :=
  x <- gets (fun s => ino s dp) ;;
  if negb (i_type x =? T_DIR) then panic "dirlookup not DIR" else
  r <- dirlookup_loop (dir_fuel (i_size x)) dp name 0 ;;
  match r with
  | None => ret None
  | Some (inum, off) =>
      x <- gets (fun s => ino s dp) ;;
      ip <- iget (i_dev x) inum ;;
      ret (Some (ip, off))
  end.

(** The loop of dirlink(): the offset of a free entry, or the end of the directory. *)
Fixpoint dirlink_loop (fuel : nat) (dp : nat) (off : Z) : M fsys Z :=
  match fuel with
  | O => diverge
  | S f =>
      x <- gets (fun s => ino s dp) ;;
      if negb (off <? i_size x) then ret off else
      r <- readi dp off sizeof_dirent ;;
      if negb (fst r =? sizeof_dirent) then panic "dirlink read" else
      if de_inum (snd r) =? 0 then ret off
      else dirlink_loop f dp (off + sizeof_dirent)
  end.

(** [strncpy(dst, name, n)]: the bytes stored. *)
Fixpoint strncpy_bytes (n : nat) (p : list Z) : list Z :=
  match n with
  | O => []
  | S n' =>
      match p with
      | [] => replicate n 0
      | c :: p' => if c =? 0 then replicate n 0 else c :: strncpy_bytes n' p'
      end
  end.

Definition mk_dirent (inum : Z) (name : list Z) : list Z :=
  le_bytes 2 inum ++ strncpy_bytes (Z.to_nat DIRSIZ) name.

Definition dirlink (dp : nat) (name : list Z) (inum : Z) : M fsys Z :=
  r <- dirlookup dp name ;;
  match r with
  | Some (ip, _) => iput ip ;; ret (-1)
  | None =>
      x <- gets (fun s => ino s dp) ;;
      off <- dirlink_loop (dir_fuel (i_size x)) dp 0 ;;
      n <- writei dp (mk_dirent inum name) off sizeof_dirent ;;
      if negb (n =? sizeof_dirent) then panic "dirlink" else ret 0
  end.

(** *** Paths *)

Definition SLASH : Z := 47.

Fixpoint skip_slashes (path : list Z) : list Z :=
  match path with
  | c :: p => if c =? SLASH then skip_slashes p else path
  | [] => []
  end.

(** The element at the start of the path, and the rest. *)
Fixpoint take_elem (path : list Z) : list Z * list Z :=
  match path with
  | c :: p => if c =? SLASH then ([], path)
              else let '(e, r) := take_elem p in (c :: e, r)
  | [] => ([], [])
  end.

(** Returns the rest of the path and the new contents of the buffer [name]. *)
Definition skipelem (path name : list Z) : option (list Z * list Z) :=
  match skip_slashes path with
  | [] => None
  | path =>
      let '(s, path) := take_elem path in
      let name :=
        if DIRSIZ <=? Z.of_nat (length s) then blit 0 (take (Z.to_nat DIRSIZ) s) name
        else <[length s := 0]> (blit 0 s name) in
      Some (skip_slashes path, name)
  end.

Section Paths.
Context (cwd : nat).

Fixpoint namex_loop (fuel : nat) (ip : nat) (path : list Z) (nameiparent : bool) (name : list Z)
    : M fsys (option nat * list Z) :=
  match fuel with
  | O => diverge
  | S f =>
      match skipelem path name with
      | None =>
          if nameiparent then iput ip ;; ret (None, name) else ret (Some ip, name)
      | Some (path, name) =>
          ilock (Some ip) ;;
          x <- gets (fun s => ino s ip) ;;
          if negb (i_type x =? T_DIR) then iunlockput (Some ip) ;; ret (None, name) else
          if nameiparent && bool_decide (path = [])
          then iunlock (Some ip) ;; ret (Some ip, name)
          else
            r <- dirlookup ip name ;;
            match r with
            | None => iunlockput (Some ip) ;; ret (None, name)
            | Some (next, _) =>
                iunlockput (Some ip) ;;
                namex_loop f next path nameiparent name
            end
      end
  end.

Definition namex (path : list Z) (nameiparent : bool) (name : list Z)
    : M fsys (option nat * list Z) :=
  ip <- (match path with
         | c :: _ => if c =? SLASH then iget ROOTDEV ROOTINO else idup cwd
         | [] => idup cwd
         end) ;;
  namex_loop (S (length path)) ip path nameiparent name.

(** The buffer [name] of namei() is not initialised; its bytes, zeros here, are not read before
    skipelem() stores into it. *)
Definition namei (path : list Z) : M fsys (option nat) :=
  r <- namex path false (replicate (Z.to_nat DIRSIZ) 0) ;;
  ret (fst r).

Definition nameiparent (path name : list Z) : M fsys (option nat * list Z) :=
  namex path true name.

End Paths.
End Files.
