(* ===== verification/FsSpec.v ===== *)
(** The block and inode layers of fs.c inside a transaction.

    [intxn H s]: the state while an operation runs, holding the buffers of the blocks [H]. The
    rules say what each routine does to the contents of the disk blocks as the cache shows
    them; blocks they do not mention keep their contents. *)

From S2P Require Export Txn Fs.

Open Scope kernel_scope.

Record intxn (H : list Z) (s : fsys) : Prop := {
  it_cache : cache s H (logged s);
  it_wf : log_wf s;
  it_lock : l_lock (fslog s) = false;
  it_out : 1 <= l_outstanding (fslog s);
  it_size : l_size (fslog s) <= LOGSIZE;
}.

(** How many more blocks the transaction can log. *)
Definition avail (s : fsys) : Z := l_size (fslog s) - 1 - log_n s.

(** Buffers that were held keep their contents. *)
Definition kept (H : list Z) (s s' : fsys) : Prop :=
  forall c m v, m ∈ H -> has s c m v -> has s' c m v /\ (saved s c m -> saved s' c m).

Lemma kept_refl H s : kept H s s.
Proof. by intros c m v _. Qed.

Lemma kept_trans H s1 s2 s3 : kept H s1 s2 -> kept H s2 s3 -> kept H s1 s3.
Proof.
  intros K1 K2 c m v Hm Hh. destruct (K1 c m v Hm Hh) as [Hh' Hs'].
  destruct (K2 c m v Hm Hh') as [Hh'' Hs'']. auto.
Qed.

(** What a step of the file system may change besides the views. *)
Record fstep (H : list Z) (s s' : fsys) : Prop := {
  fs_txn : intxn H s';
  fs_same : same_but_lh s s';
  fs_kept : kept H s s';
}.

Lemma intxn_room H s :
  intxn H s -> (length H + Z.to_nat (log_n s) < NBUF)%nat ->
  forall n, (length H + length (filter (fun m => m <> n) (logged s)) < NBUF)%nat.
Proof.
  intros Hi Hl n. pose proof (filter_ne_le (logged s) n). rewrite length_logged in * by apply Hi.
  lia.
Qed.

(** Reading a block inside a transaction. *)
Lemma rule_bread_txn H s n :
  intxn H s -> n ∉ H -> 0 <= n < disksize s -> (length H + Z.to_nat (log_n s) < NBUF)%nat ->
  wp (bread 1 n) (fun b s' => intxn (n :: H) s' /\ has s' b n (view s n) /\ saved s' b n /\
    quiet s s' /\ kept H s s') s.
Proof.
  intros Hi Hn Hr Hl. eapply wp_mono; [apply (rule_bread s H (logged s) n); [apply Hi|done|done|]|].
  { by apply intxn_room. }
  intros b s' (C & T & S & Q & B). destruct (logged_outside _ _ (q_out _ _ Q)) as [G _].
  destruct (outside_log _ _ (q_out _ _ Q)) as [L _].
  split_and!; try done.
  - destruct Hi. split; rewrite ?G, ?L; auto. by apply (log_wf_outside s); [apply Q|].
  - intros c m v Hm Hh. destruct (B c m Hm (proj1 Hh)) as [_ Hc].
    split; [by eapply has_other|]. intros Hs.
    eapply saved_other; [exact Hc|by apply quiet_dblock|done].
Qed.

(** Releasing a buffer inside a transaction. *)
Lemma rule_brelse_txn H s b n v :
  intxn (n :: H) s -> n ∉ H -> has s b n v -> saved s b n ->
  wp (brelse b) (fun _ s' => intxn H s' /\ quiet s s' /\ kept H s s') s.
Proof.
  intros Hi Hn Hh Hs. eapply wp_mono; [apply (rule_brelse s H (logged s) b n v); [apply Hi|done..]|].
  intros _ s' (C & Q & B). destruct (logged_outside _ _ (q_out _ _ Q)) as [G _].
  destruct (outside_log _ _ (q_out _ _ Q)) as [L _].
  split_and!; try done.
  - destruct Hi. split; rewrite ?G, ?L; auto. by apply (log_wf_outside s); [apply Q|].
  - intros c m w Hm Hh'. assert (Hne : c <> b).
    { eapply holds_ne; [apply Hh'|apply Hh|]. intros ->. done. }
    specialize (B c Hne). split; [by eapply has_other|]. intros Hs'.
    eapply saved_other; [exact B|by apply quiet_dblock|done].
Qed.

Lemma quiet_avail s s' : quiet s s' -> avail s' = avail s.
Proof.
  intros Q. destruct (outside_log _ _ (q_out _ _ Q)) as [L _]. unfold avail, log_n. by rewrite L.
Qed.

(** Logging a held buffer. *)
Lemma rule_log_write_txn H s b n v :
  intxn (n :: H) s -> n ∉ H -> has s b n v -> 1 < n -> ~ inlog s n -> 1 <= avail s ->
  wp (log_write b) (fun _ s' => fstep (n :: H) s s' /\ has s' b n v /\ saved s' b n /\
    avail s - 1 <= avail s' /\ forall m, 0 <= m -> view s' m = view s m) s.
Proof.
  intros Hi Hn Hh H1 Hnl Ha. pose proof Hi as [Hc Hwf Hlk Ho Hsz]. unfold avail in Ha.
  eapply wp_mono; [apply (rule_log_write s (n :: H) b n v); try done; lia|].
  intros _ s' (C & W & T & S & G & E & V & B). destruct (same_log _ _ E) as (E1 & E2 & E3 & E4 & _ & _).
  split_and!; try done.
  - split; [split; [done|done|congruence|lia|lia]|done|].
    intros c m w Hm Hh'. destruct (decide (c = b)) as [->|Hne].
    + assert (m = n) as ->.
      { destruct (proj1 Hh') as [_ [_ <-] _ _]. destruct (proj1 Hh) as [_ [_ <-] _ _]. done. }
      assert (w = v) as -> by (rewrite <- (proj2 Hh'), <- (proj2 Hh); done). auto.
    + specialize (B c Hne). split; [eapply has_other; [by rewrite B|done]|]. intros Hs.
      eapply saved_other; [by rewrite B|unfold dblock; by rewrite (sl_disk _ _ E)|done].
  - unfold avail. rewrite E2. pose proof (length_logged s' W) as L'. rewrite G in L'.
    pose proof (length_logged s Hwf) as L0. pose proof (length_add_block n (logged s)).
    pose proof (lg_n s' W). pose proof (lg_n s Hwf). lia.
Qed.

Lemma intxn_outside H s s' :
  outside s' = outside s -> cache s' H (logged s) -> intxn H s -> intxn H s'.
Proof.
  intros O C [_ Hwf Hlk Ho Hsz]. destruct (outside_log _ _ O) as [L _].
  destruct (logged_outside _ _ O) as [G _]. split; rewrite ?L, ?G; auto.
  by apply (log_wf_outside s).
Qed.

Lemma outside_same s s' :
  outside s' = outside s -> memdisk s' = memdisk s -> wtrace s' = wtrace s -> same_but_lh s s'.
Proof.
  intros Ho Hd Ht. unfold outside in Ho. simplify_eq. split; try done.
  exists (l_lh (fslog s)). rewrite H. by destruct (fslog s).
Qed.

(** The sequence rule for the three calls that end a log-protected update. *)
Lemma wp_seq3 {A} (a b c : M fsys unit) (k : M fsys A) P (Q : A -> fsys -> Prop) s :
  wp (a ;; b ;; c) P s -> (forall r s', P r s' -> wp k Q s') -> wp (a ;; b ;; c ;; k) Q s.
Proof.
  unfold wp, bind. intros H1 H2. destruct (a s) as [r1 s1| | |]; try done.
  destruct (b s1) as [r2 s2| | |]; try done. destruct (c s2) as [r3 s3| | |]; try done.
  by apply (H2 r3).
Qed.

(** Storing into a held buffer. *)
Lemma rule_store_txn H s b n v f :
  intxn (n :: H) s -> n ∉ H -> has s b n v -> block_ok (f v) ->
  wp (upd_data b f) (fun _ s' => intxn (n :: H) s' /\ has s' b n (f v) /\ same_but_lh s s' /\
    kept H s s' /\ avail s' = avail s /\
    forall m, 0 <= m -> view s' m = if decide (m = n) then f v else view s m) s.
Proof.
  intros Hi Hn Hh Hf. apply wp_modify.
  destruct (rule_store s (n :: H) (logged s) b n v f (it_cache _ _ Hi) Hh Hf) as (C & T & O & V & B).
  set (s' := upd_buf _ _ _) in *. destruct (outside_log _ _ O) as [L _].
  split_and!; try done.
  - by apply (intxn_outside _ s).
  - by apply outside_same.
  - intros c m w Hm Hh'. assert (Hne : c <> b).
    { eapply holds_ne; [apply Hh'|apply Hh|]. intros ->. done. }
    specialize (B c Hne). split; [eapply has_other; [by rewrite B|done]|]. intros Hs.
    by eapply saved_other; [by rewrite B| |].
Qed.

Lemma quiet_fstep H s s' : intxn H s' -> quiet s s' -> kept H s s' -> fstep H s s'.
Proof. intros Hi Q K. split; [done|by apply quiet_same|done]. Qed.

Lemma fstep_trans H s1 s2 s3 : fstep H s1 s2 -> fstep H s2 s3 -> fstep H s1 s3.
Proof.
  intros [T1 E1 K1] [T2 E2 K2]. split; [done|by eapply same_but_lh_trans|by eapply kept_trans].
Qed.

Lemma fstep_l H s1 s2 s3 :
  same_but_lh s1 s2 -> kept H s1 s2 -> fstep H s2 s3 -> fstep H s1 s3.
Proof.
  intros E1 K1 [T2 E2 K2]. split; [done|by eapply same_but_lh_trans|by eapply kept_trans].
Qed.

Lemma kept_mono H H' s s' : H' ⊆ H -> kept H s s' -> kept H' s s'.
Proof. intros Hs K c m v Hm. apply K. by apply Hs. Qed.

(** The rest of the log-protected update of a held block: store, log, release. *)
Lemma rule_finish H s b n v f :
  intxn (n :: H) s -> n ∉ H -> has s b n v -> 1 < n -> ~ inlog s n -> 1 <= avail s ->
  block_ok (f v) ->
  wp (upd_data b f ;; log_write b ;; brelse b) (fun _ s' => fstep H s s' /\
    avail s - 1 <= avail s' /\
    forall m, 0 <= m -> view s' m = if decide (m = n) then f v else view s m) s.
Proof.
  intros Hi Hn Hh H1 Hnl Ha Hf.
  eapply wp_seq; [by apply (rule_store_txn H s b n v f)|].
  intros _ s1 (I1 & T1 & E1 & K1 & A1 & V1). destruct (same_log _ _ E1) as (L1 & L2 & _).
  eapply wp_seq; [apply (rule_log_write_txn H s1 b n (f v)); auto; [|lia]|].
  { unfold inlog. by rewrite L1, L2. }
  intros _ s2 ([I2 E2 K2] & T2 & S2 & A2 & V2).
  eapply wp_mono; [by apply (rule_brelse_txn H s2 b n (f v))|].
  intros _ s3 (I3 & Q3 & K3). pose proof (quiet_avail _ _ Q3). split_and!; [|lia|].
  - split; [done| |].
    + eapply same_but_lh_trans; [exact E1|]. eapply same_but_lh_trans; [exact E2|].
      by apply quiet_same.
    + eapply kept_trans; [exact K1|]. eapply kept_trans; [|exact K3].
      eapply kept_mono; [|exact K2]. set_solver.
  - intros m Hm. rewrite (q_view _ _ Q3), V2, V1 by done. done.
Qed.

(** The log-protected update of a block: bread, store, log_write, brelse. *)
Lemma rule_update H s n f :
  intxn H s -> n ∉ H -> 1 < n < disksize s -> ~ inlog s n -> 1 <= avail s ->
  (length H + Z.to_nat (log_n s) < NBUF)%nat -> block_ok (f (view s n)) ->
  wp (b <- bread 1 n ;; upd_data b f ;; log_write b ;; brelse b) (fun _ s' => fstep H s s' /\
    avail s - 1 <= avail s' /\
    forall m, 0 <= m -> view s' m = if decide (m = n) then f (view s n) else view s m) s.
Proof.
  intros Hi Hn Hr Hnl Ha Hl Hf.
  eapply wp_seq; [apply (rule_bread_txn H s n); [done|done|lia|done]|].
  intros b s1 (I1 & T1 & S1 & Q1 & K1). destruct (outside_log _ _ (q_out _ _ Q1)) as [L1 _].
  pose proof (quiet_avail _ _ Q1) as A1.
  eapply wp_mono; [apply (rule_finish H s1 b n (view s n) f); auto; [lia| |lia]|].
  { unfold inlog. by rewrite L1. }
  intros _ s2 (F2 & A2 & V2). split_and!; [|lia|].
  - by eapply fstep_l; [apply quiet_same, Q1|exact K1|].
  - intros m Hm. rewrite V2 by done. case_decide; [done|]. by apply Q1.
Qed.

(** The update puts the block in the header of the log. *)
Lemma rule_finish_logged H s b n v f :
  intxn (n :: H) s -> n ∉ H -> has s b n v -> 1 < n -> ~ inlog s n -> 1 <= avail s ->
  block_ok (f v) ->
  wp (upd_data b f ;; log_write b ;; brelse b) (fun _ s' => n ∈ logged s') s.
Proof.
  intros Hi Hn Hh H1 Hnl Ha Hf.
  eapply wp_seq; [by apply (rule_store_txn H s b n v f)|].
  intros _ s1 (I1 & T1 & E1 & K1 & A1 & V1). destruct (same_log _ _ E1) as (L1 & L2 & _).
  assert (Hnl1 : ~ inlog s1 n) by (unfold inlog; by rewrite L1, L2).
  eapply wp_seq.
  { apply wp_and; [apply (rule_log_write_txn H s1 b n (f v)); auto; lia|].
    pose proof I1 as [C1 W1 Lk1 O1 Z1]. unfold avail in Ha, A1.
    apply (rule_log_write s1 (n :: H) b n (f v)); try done; lia. }
  intros _ s2 (([I2 E2 K2] & T2 & S2 & A2 & V2) & (_ & _ & _ & _ & G2 & _)).
  eapply wp_mono; [by apply (rule_brelse_txn H s2 b n (f v))|].
  intros _ s3 (I3 & Q3 & K3). destruct (logged_outside _ _ (q_out _ _ Q3)) as [G _].
  rewrite G, G2, add_block_in. by left.
Qed.

Lemma rule_update_logged H s n f :
  intxn H s -> n ∉ H -> 1 < n < disksize s -> ~ inlog s n -> 1 <= avail s ->
  (length H + Z.to_nat (log_n s) < NBUF)%nat -> block_ok (f (view s n)) ->
  wp (b <- bread 1 n ;; upd_data b f ;; log_write b ;; brelse b) (fun _ s' => n ∈ logged s') s.
Proof.
  intros Hi Hn Hr Hnl Ha Hl Hf.
  eapply wp_seq; [apply (rule_bread_txn H s n); [done|done|lia|done]|].
  intros b s1 (I1 & T1 & S1 & Q1 & K1). destruct (outside_log _ _ (q_out _ _ Q1)) as [L1 _].
  pose proof (quiet_avail _ _ Q1) as A1.
  apply (rule_finish_logged H s1 b n (view s n) f); auto; [lia| |lia].
  unfold inlog. by rewrite L1.
Qed.

(** *** Bitmap bits *)

(** Bit [bi] of a block. *)
Definition bit (blk : list Z) (bi : Z) : bool := Z.testbit (byte_at blk (bi / 8)) (bi mod 8).

Lemma land_pow2_zero x k : 0 <= k -> (Z.land x (Z.shiftl 1 k) =? 0) = negb (Z.testbit x k).
Proof.
  intros Hk. rewrite Z.shiftl_1_l. destruct (Z.testbit x k) eqn:E; simpl.
  - apply Z.eqb_neq. intros H0. assert (Hb : Z.testbit (Z.land x (2 ^ k)) k = true).
    { rewrite Z.land_spec, E, Z.pow2_bits_true by done. done. }
    by rewrite H0, Z.testbit_0_l in Hb.
  - apply Z.eqb_eq. apply Z.bits_inj'. intros i Hi.
    rewrite Z.land_spec, Z.testbit_0_l, Z.pow2_bits_eqb by done.
    destruct (Z.eqb_spec k i); [subst; by rewrite E|apply andb_false_r].
Qed.

Lemma bit_clear_spec blk bi : bit_clear blk bi = negb (bit blk bi).
Proof. unfold bit_clear, bit. apply land_pow2_zero, Z.mod_pos_bound. lia. Qed.

Lemma byte_at_insert blk i j v :
  0 <= i < Z.of_nat (length blk) -> 0 <= j ->
  byte_at (<[Z.to_nat i := v]> blk) j = if decide (i = j) then v else byte_at blk j.
Proof.
  intros Hi Hj. unfold byte_at. case_decide as Hij.
  - subst. apply list_lookup_total_insert_eq. lia.
  - apply list_lookup_total_insert_ne. lia.
Qed.

Lemma byte_at_bound blk i : Forall is_byte blk -> is_byte (byte_at blk i).
Proof.
  intros Hb. unfold byte_at. rewrite list_lookup_total_alt.
  destruct (blk !! Z.to_nat i) as [x|] eqn:E; [|vm_compute; split; [discriminate|done]].
  rewrite Forall_lookup in Hb. by eapply Hb.
Qed.

Lemma testbit_byte x k : is_byte x -> 8 <= k -> Z.testbit x k = false.
Proof.
  intros [H0 H1] Hk. apply Z.testbit_false; [lia|]. rewrite Z.div_small; [done|].
  split; [done|]. eapply Z.lt_le_trans; [exact H1|]. change 256 with (2 ^ 8).
  apply Z.pow_le_mono_r; lia.
Qed.

Lemma u8_byte x : is_byte (u8 x).
Proof. unfold is_byte, u8. change 256 with (2 ^ 8). apply Z.mod_pos_bound. lia. Qed.

Lemma u8_testbit x k : 0 <= k < 8 -> Z.testbit (u8 x) k = Z.testbit x k.
Proof. intros Hk. unfold u8. by rewrite Z.mod_pow2_bits_low by lia. Qed.

Section SetClear.
Context (blk : list Z) (bi : Z).
Context (Hok : block_ok blk) (Hbi : 0 <= bi < BPB).

Lemma bi_byte : 0 <= bi / 8 < Z.of_nat (length blk).
Proof.
  destruct Hok as [-> _]. change (Z.of_nat (Z.to_nat BSIZE)) with 512. change BPB with 4096 in *.
  split; [apply Z.div_pos; lia|apply Z.div_lt_upper_bound; lia].
Qed.

Lemma set_bit_ok : block_ok (set_bit bi blk).
Proof.
  destruct Hok as [Hl Hb]. split; [unfold set_bit; by rewrite length_insert|].
  apply Forall_insert; [done|apply u8_byte].
Qed.

Lemma clear_bit_ok : block_ok (clear_bit bi blk).
Proof.
  destruct Hok as [Hl Hb]. split; [unfold clear_bit; by rewrite length_insert|].
  apply Forall_insert; [done|apply u8_byte].
Qed.

Lemma bit_set_bit bj :
  0 <= bj < BPB -> bit (set_bit bi blk) bj = if decide (bj = bi) then true else bit blk bj.
Proof.
  intros Hbj. unfold bit, set_bit. assert (0 <= bj / 8) by (apply Z.div_pos; lia).
  rewrite byte_at_insert by (done || apply bi_byte).
  pose proof (Z.div_mod bi 8). pose proof (Z.div_mod bj 8).
  pose proof (Z.mod_pos_bound bi 8). pose proof (Z.mod_pos_bound bj 8).
  case_decide as Hd.
  - rewrite u8_testbit, Z.lor_spec, Z.shiftl_1_l, Z.pow2_bits_eqb by lia. rewrite Hd.
    case_decide; [subst; rewrite Z.eqb_refl; apply orb_true_r|].
    rewrite (proj2 (Z.eqb_neq _ _)) by lia. apply orb_false_r.
  - rewrite decide_False; [done|]. intros ->. done.
Qed.

Lemma bit_clear_bit bj :
  0 <= bj < BPB -> bit (clear_bit bi blk) bj = if decide (bj = bi) then false else bit blk bj.
Proof.
  intros Hbj. unfold bit, clear_bit. assert (0 <= bj / 8) by (apply Z.div_pos; lia).
  rewrite byte_at_insert by (done || apply bi_byte).
  pose proof (Z.div_mod bi 8). pose proof (Z.div_mod bj 8).
  pose proof (Z.mod_pos_bound bi 8). pose proof (Z.mod_pos_bound bj 8).
  case_decide as Hd.
  - rewrite u8_testbit, Z.land_spec, Z.lnot_spec, Z.shiftl_1_l, Z.pow2_bits_eqb by lia. rewrite Hd.
    case_decide; [subst; rewrite Z.eqb_refl; apply andb_false_r|].
    rewrite (proj2 (Z.eqb_neq _ _)) by lia. apply andb_true_r.
  - rewrite decide_False; [done|]. intros ->. done.
Qed.

End SetClear.

(** *** The layout of the disk *)

Definition bblock (s : fsys) (b : Z) : Z := b / BPB + sb_bmapstart (sb s).
Definition iblock (s : fsys) (i : Z) : Z := i / IPB + sb_inodestart (sb s).

(** Is block [b] marked in use? *)
Definition used (s : fsys) (b : Z) : bool := bit (view s (bblock s b)) (b mod BPB).

(** A block of the file system's own structures that operations log. *)
Definition meta_ok (s : fsys) (m : Z) : Prop := 1 < m < disksize s /\ ~ inlog s m.

Record geom (s : fsys) : Prop := {
  g_size : 0 < sb_size (sb s) <= disksize s;
  g_bmap : forall b, 0 <= b < sb_size (sb s) -> meta_ok s (bblock s b);
  g_inodes : forall i, 0 <= i < sb_ninodes (sb s) -> meta_ok s (iblock s i);
  g_disj : forall b i, 0 <= b < sb_size (sb s) -> 0 <= i < sb_ninodes (sb s) ->
    bblock s b <> iblock s i;
  g_free : forall b, 0 <= b < sb_size (sb s) -> used s b = false ->
    1 < b /\ ~ inlog s b /\ (forall c, 0 <= c < sb_size (sb s) -> b <> bblock s c) /\
    (forall i, 0 <= i < sb_ninodes (sb s) -> b <> iblock s i);
  g_sb : decode_sb (view s 1) = sb s;
}.

Lemma bblock_u32 s b :
  log_wf s -> geom s -> 0 <= b < sb_size (sb s) -> BBLOCK b (sb s) = bblock s b.
Proof.
  intros Hwf Hg Hb. destruct (g_bmap s Hg b Hb) as [Hr _]. pose proof (lg_fit s Hwf).
  unfold BBLOCK. fold (bblock s b). apply u32_small. lia.
Qed.

Lemma iblock_u32 s i :
  log_wf s -> geom s -> 0 <= i < sb_ninodes (sb s) -> IBLOCK i (sb s) = iblock s i.
Proof.
  intros Hwf Hg Hi. destruct (g_inodes s Hg i Hi) as [Hr _]. pose proof (lg_fit s Hwf).
  unfold IBLOCK. fold (iblock s i). apply u32_small. lia.
Qed.

Lemma free_bit_some n blk b size bi r :
  free_bit n blk b size bi = Some r ->
  bi <= r < bi + Z.of_nat n /\ b + r < size /\ bit blk r = false /\
  forall j, bi <= j < r -> bit blk j = true.
Proof.
  revert bi. induction n as [|n IH]; intros bi; [done|]. cbn [free_bit].
  destruct (Z.ltb_spec (b + bi) size) as [Hlt|]; [|done].
  rewrite bit_clear_spec. destruct (bit blk bi) eqn:E; cbn [negb].
  - intros (H1 & H2 & H3 & H4)%IH. split_and!; try done; try lia.
    intros j Hj. destruct (decide (j = bi)) as [->|]; [done|apply H4; lia].
  - intros [= <-]. split_and!; try done; lia.
Qed.

Lemma free_bit_none n blk b size bi :
  free_bit n blk b size bi = None ->
  forall j, bi <= j < bi + Z.of_nat n -> b + j < size -> bit blk j = true.
Proof.
  revert bi. induction n as [|n IH]; intros bi; [lia|]. cbn [free_bit].
  destruct (Z.ltb_spec (b + bi) size) as [Hlt|]; [|lia].
  rewrite bit_clear_spec. destruct (bit blk bi) eqn:E; cbn [negb]; [|done].
  intros Hn j Hj Hs. destruct (decide (j = bi)) as [->|]; [done|]. apply (IH (bi + 1)); auto. lia.
Qed.

Lemma same_geometry s s' :
  same_but_lh s s' ->
  sb s' = sb s /\ disksize s' = disksize s /\ (forall m, inlog s' m <-> inlog s m) /\
  (forall b, bblock s' b = bblock s b) /\ (forall i, iblock s' i = iblock s i).
Proof.
  intros E. destruct (same_log _ _ E) as (E1 & E2 & _ & _ & _ & E3).
  destruct (sl_rest _ _ E) as [Hsb _]. unfold inlog, bblock, iblock. rewrite E1, E2, E3, Hsb.
  done.
Qed.

(** Steps that keep the views of the super block and the bitmap keep the layout. *)
Lemma geom_same s s' :
  same_but_lh s s' -> geom s -> view s' 1 = view s 1 ->
  (forall b, 0 <= b < sb_size (sb s) -> used s b = true -> used s' b = true) -> geom s'.
Proof.
  intros E Hg H1 Hu. destruct (same_geometry _ _ E) as (Hsb & Hd & Hl & Hb & Hi).
  destruct Hg as [G1 G2 G3 G4 G5 G6]. split; rewrite ?Hsb, ?Hd; try done.
  - intros b Hr. destruct (G2 b Hr) as [? ?]. unfold meta_ok. by rewrite Hb, Hd, Hl.
  - intros i Hr. destruct (G3 i Hr) as [? ?]. unfold meta_ok. by rewrite Hi, Hd, Hl.
  - intros b i Hbr Hir. rewrite Hb, Hi. auto.
  - intros b Hr Hf. destruct (used s b) eqn:E'; [by rewrite Hu in Hf|].
    destruct (G5 b Hr E') as (F1 & F2 & F3 & F4). rewrite Hl. split_and!; auto.
    + intros c Hc. rewrite Hb. auto.
    + intros i Hc. rewrite Hi. auto.
  - by rewrite H1.
Qed.

(** *** balloc and bfree *)

Definition zeros : list Z := replicate (Z.to_nat BSIZE) 0.

Lemma zeros_ok : block_ok zeros.
Proof. apply small_block_ok. unfold is_byte. lia. Qed.

(** balloc() marks a free block used, and zeroes it. *)
Record balloc_post (H : list Z) (s : fsys) (b : Z) (s' : fsys) : Prop := {
  ba_range : 0 <= b < sb_size (sb s);
  ba_free : used s b = false;
  ba_first : forall c, 0 <= c < b -> used s c = true;
  ba_step : fstep H s s';
  ba_avail : avail s - 2 <= avail s';
  ba_view : forall m, 0 <= m -> view s' m =
    if decide (m = b) then zeros
    else if decide (m = bblock s b) then set_bit (b mod BPB) (view s m) else view s m;
}.

Lemma wp_bzero H s b :
  intxn H s -> b ∉ H -> 1 < b < disksize s -> ~ inlog s b -> 1 <= avail s ->
  (length H + Z.to_nat (log_n s) < NBUF)%nat ->
  wp (bzero 1 b) (fun _ s' => fstep H s s' /\ avail s - 1 <= avail s' /\
    forall m, 0 <= m -> view s' m = if decide (m = b) then zeros else view s m) s.
Proof.
  intros Hi Hb Hr Hl Ha Hroom. unfold bzero. rewrite u32_small.
  - apply (rule_update H s b (fun _ => zeros)); auto using zeros_ok.
  - pose proof (lg_fit s (it_wf _ _ Hi)). lia.
Qed.

Lemma log_n_avail s s' k :
  same_but_lh s s' -> avail s - k <= avail s' -> log_n s' <= log_n s + k.
Proof.
  intros E Ha. destruct (same_log _ _ E) as (_ & E2 & _). unfold avail in Ha. rewrite E2 in Ha. lia.
Qed.

(** The blocks that are held while balloc() runs: used, and not in the bitmap. *)
Definition held_ok (H : list Z) (s : fsys) : Prop :=
  forall h, h ∈ H -> 0 <= h < sb_size (sb s) /\ used s h = true /\
    forall c, 0 <= c < sb_size (sb s) -> h <> bblock s c.

Lemma bblock_add s b bi :
  b mod BPB = 0 -> 0 <= bi < BPB ->
  bblock s (b + bi) = bblock s b /\ (b + bi) mod BPB = bi /\
  used s (b + bi) = bit (view s (bblock s b)) bi.
Proof.
  intros Hmod Hbi. assert (Hbb : bblock s (b + bi) = bblock s b).
  { unfold bblock. f_equal. rewrite (Z.div_mod b BPB) at 1 by done. rewrite Hmod.
    rewrite Z.add_0_r, Z.mul_comm, Z.add_comm, Z.div_add by done.
    rewrite (Z.div_small bi) by done. done. }
  assert (Hbm : (b + bi) mod BPB = bi).
  { rewrite <- Z.add_mod_idemp_l, Hmod by done. by apply Z.mod_small. }
  split_and!; [done..|]. unfold used. by rewrite Hbb, Hbm.
Qed.

(** balloc() after it found the bit [bi] clear in the bitmap block of [b]. *)
Lemma balloc_take H s bp b bi :
  intxn (bblock s b :: H) s -> geom s -> held_ok H s ->
  has s bp (bblock s b) (view s (bblock s b)) -> 0 <= b -> b mod BPB = 0 ->
  0 <= bi < BPB -> b + bi < sb_size (sb s) -> bit (view s (bblock s b)) bi = false ->
  (forall c, 0 <= c < b + bi -> used s c = true) ->
  2 <= avail s -> (length H + Z.to_nat (log_n s) + 1 < NBUF)%nat ->
  wp (upd_data bp (set_bit bi) ;; log_write bp ;; brelse bp ;; bzero 1 (b + bi) ;; ret (b + bi))
    (fun r s' => balloc_post H s r s') s.
Proof.
  intros Hi Hg Hh Hbp Hb0 Hmod Hbi Hlt Hbit Hall Ha Hroom.
  assert (Hr : 0 <= b + bi < sb_size (sb s)) by lia.
  destruct (bblock_add s b bi Hmod Hbi) as (Hbb & Hbm & Hub).
  assert (Hfree : used s (b + bi) = false) by (by rewrite Hub).
  destruct (g_free s Hg _ Hr Hfree) as (F1 & F2 & F3 & F4).
  destruct (g_bmap s Hg _ Hr) as [M1 M2]. rewrite Hbb in M1, M2.
  assert (HnH : bblock s b ∉ H).
  { intros Hin. destruct (Hh _ Hin) as (_ & _ & Hc). rewrite <- Hbb in Hc. by apply (Hc _ Hr). }
  pose proof (has_ok _ _ _ _ _ _ (it_cache _ _ Hi) Hbp) as Hok.
  pose proof (g_size s Hg). pose proof (lg_n s (it_wf _ _ Hi)) as [Hn0 _].
  eapply wp_seq3; [apply (rule_finish H s bp (bblock s b) (view s (bblock s b)) (set_bit bi)); auto; [lia|lia|]|].
  { by apply set_bit_ok. }
  intros _ s1 (St1 & A1 & V1). pose proof (log_n_avail _ _ _ (fs_same _ _ _ St1) A1) as N1.
  destruct (same_geometry _ _ (fs_same _ _ _ St1)) as (Hsb & Hd & Hlog & _).
  eapply wp_seq; [apply (wp_bzero H s1 (b + bi)); [apply St1| |lia|by rewrite Hlog|lia|lia]|].
  { intros Hin. destruct (Hh _ Hin) as (_ & Hu & _). by rewrite Hu in Hfree. }
  intros _ s2 (St2 & A2 & V2). apply wp_ret. split; auto.
  - by eapply fstep_trans.
  - lia.
  - intros m Hm. rewrite V2 by done. case_decide; [done|]. rewrite V1, Hbb, Hbm by done.
    case_decide; by subst.
Qed.

Lemma quiet_used s s' b :
  quiet s s' -> 0 <= bblock s b -> used s' b = used s b /\ bblock s' b = bblock s b.
Proof.
  intros Q Hb. assert (Hsb : sb s' = sb s).
  { pose proof (q_out _ _ Q) as O. unfold outside in O. by simplify_eq. }
  unfold used, bblock in *. rewrite Hsb. split; [|done]. by rewrite (q_view _ _ Q).
Qed.

Lemma quiet_geom s s' : quiet s s' -> geom s -> geom s'.
Proof.
  intros Q Hg. apply (geom_same s); [by apply quiet_same|done|by apply (q_view _ _ Q)|].
  intros b Hb Hu. destruct (quiet_used s s' b Q) as [-> _]; [|done].
  destruct (g_bmap s Hg b Hb). lia.
Qed.

Lemma quiet_held_ok H s s' : quiet s s' -> geom s -> held_ok H s -> held_ok H s'.
Proof.
  intros Q Hg Hh h Hin. destruct (Hh h Hin) as (H1 & H2 & H3).
  destruct (same_geometry _ _ (quiet_same _ _ Q)) as (-> & _ & _ & Hb & _).
  split; [done|]. split.
  - destruct (quiet_used s s' h Q) as [-> _]; [|done]. destruct (g_bmap s Hg h H1). lia.
  - intros c Hc. rewrite Hb. auto.
Qed.

Lemma balloc_post_quiet H s s1 r s' :
  quiet s s1 -> kept H s s1 -> geom s -> balloc_post H s1 r s' -> balloc_post H s r s'.
Proof.
  intros Q K Hg [P1 P2 P3 P4 P5 P6].
  destruct (same_geometry _ _ (quiet_same _ _ Q)) as (Hsb & _ & _ & Hb & _).
  rewrite Hsb in P1. assert (Hu : forall c, 0 <= c < sb_size (sb s) -> used s1 c = used s c).
  { intros c Hc. destruct (quiet_used s s1 c Q) as [-> _]; [|done]. destruct (g_bmap s Hg c Hc). lia. }
  split.
  - done.
  - by rewrite <- Hu.
  - intros c Hc. rewrite <- Hu by lia. by apply P3.
  - by eapply fstep_l; [apply quiet_same| |].
  - by rewrite <- (quiet_avail _ _ Q).
  - intros m Hm. rewrite P6, Hb by done. by rewrite (q_view _ _ Q).
Qed.

(** The outcome of a call: it returns with [Q], or panics with [P]. *)
Definition outcome_is {A} (o : outcome fsys A) (Q : A -> fsys -> Prop) (P : string -> Prop) : Prop :=
  match o with
  | Ret a s => Q a s
  | Panic e => P e
  | _ => False
  end.

Lemma outcome_wp {A} (m : M fsys A) (Q : A -> fsys -> Prop) P s :
  wp m Q s -> outcome_is (m s) Q P.
Proof. unfold wp, outcome_is. by destruct (m s). Qed.

Lemma outcome_seq {A B} (m : M fsys A) (k : A -> M fsys B) R (Q : B -> fsys -> Prop) P s :
  wp m R s -> (forall a s', R a s' -> outcome_is (k a s') Q P) -> outcome_is (bind m k s) Q P.
Proof. unfold wp, bind. destruct (m s); try done. auto. Qed.

Lemma outcome_mono {A} (o : outcome fsys A) (Q Q' : A -> fsys -> Prop) (P P' : string -> Prop) :
  outcome_is o Q P -> (forall a s, Q a s -> Q' a s) -> (forall e, P e -> P' e) ->
  outcome_is o Q' P'.
Proof. destruct o; simpl; auto. Qed.

(** No block is free. *)
Definition disk_full (s : fsys) : Prop :=
  forall b, 0 <= b < sb_size (sb s) -> used s b = true.

Lemma balloc_from_run fuel H s b :
  intxn H s -> geom s -> held_ok H s -> 0 <= b -> b mod BPB = 0 ->
  (forall c, 0 <= c < b -> c < sb_size (sb s) -> used s c = true) ->
  sb_size (sb s) - b <= (Z.of_nat fuel - 1) * BPB ->
  2 <= avail s -> (length H + Z.to_nat (log_n s) + 1 < NBUF)%nat ->
  (0 < fuel)%nat ->
  outcome_is (balloc_from fuel 1 b s) (fun r s' => balloc_post H s r s')
    (fun e => e = "balloc: out of blocks"%string /\ disk_full s).
Proof.
  revert s b. induction fuel as [|fuel IH]; intros s b Hi Hg Hh Hb Hmod Hall Hfu Ha Hroom Hpos; [lia|].
  cbn [balloc_from]. unfold bind at 1, gets at 1.
  destruct (Z.ltb_spec b (sb_size (sb s))) as [Hlt|Hge]; cbn [negb].
  2: { simpl. split; [done|]. intros c Hc. apply Hall; lia. }
  assert (Hr : 0 <= b < sb_size (sb s)) by lia.
  rewrite bblock_u32 by (done || apply Hi). destruct (g_bmap s Hg b Hr) as [M1 M2].
  assert (HnH : bblock s b ∉ H).
  { intros Hin. destruct (Hh _ Hin) as (_ & _ & Hc). by apply (Hc _ Hr). }
  eapply outcome_seq; [apply (rule_bread_txn H s (bblock s b)); [done|done|lia|lia]|].
  intros bp s1 (I1 & T1 & S1 & Q1 & K1). unfold bind at 1, gets at 1. rewrite (proj2 T1).
  destruct (same_geometry _ _ (quiet_same _ _ Q1)) as (Hsb & _ & _ & Hbb & _).
  assert (N1 : log_n s1 = log_n s) by apply (logged_outside _ _ (q_out _ _ Q1)).
  pose proof (quiet_avail _ _ Q1) as A1.
  assert (Hv1 : view s1 (bblock s b) = view s (bblock s b)) by (apply (q_view _ _ Q1); lia).
  destruct (free_bit _ _ _ _ _) as [bi|] eqn:Ef.
  - apply free_bit_some in Ef as (F1 & F2 & F3 & F4). change (Z.of_nat (Z.to_nat BPB)) with BPB in F1.
    apply outcome_wp. eapply wp_mono; [apply (balloc_take H s1 bp b bi)|]; rewrite ?Hbb, ?Hsb, ?Hv1; auto.
    + by eapply quiet_geom.
    + by eapply quiet_held_ok.
    + intros c Hc. destruct (quiet_used s s1 c Q1) as [-> _].
      { destruct (g_bmap s Hg c); lia. }
      destruct (decide (c < b)); [apply Hall; lia|]. replace c with (b + (c - b)) by lia.
      destruct (bblock_add s b (c - b) Hmod) as (_ & _ & ->); [lia|]. apply F4. lia.
    + lia.
    + lia.
    + intros r s'. by apply balloc_post_quiet.
  - eapply outcome_seq; [by eapply (rule_brelse_txn H s1 bp)|].
    intros _ s2 (I2 & Q2 & K2). pose proof (quiet_trans _ _ _ Q1 Q2) as Q12.
    destruct (same_geometry _ _ (quiet_same _ _ Q12)) as (Hsb2 & _ & _ & _ & _).
    assert (N2 : log_n s2 = log_n s) by apply (logged_outside _ _ (q_out _ _ Q12)).
    pose proof (free_bit_none _ _ _ _ _ Ef) as Hnone.
    change (Z.of_nat (Z.to_nat BPB)) with BPB in Hnone.
    assert (Hall2 : forall c, 0 <= c < b + BPB -> c < sb_size (sb s) -> used s c = true).
    { intros c Hc Hcs. destruct (decide (c < b)); [apply Hall; lia|].
      replace c with (b + (c - b)) by lia.
      destruct (bblock_add s b (c - b) Hmod) as (_ & _ & ->); [lia|]. apply Hnone; lia. }
    eapply outcome_mono; [apply (IH s2 (b + BPB))|..]; rewrite ?Hsb2, ?N2, ?(quiet_avail _ _ Q12); auto; try lia.
    + by eapply quiet_geom.
    + by eapply quiet_held_ok.
    + change BPB with 4096. lia.
    + by rewrite <- Z.add_mod_idemp_r, Z_mod_same_full, Z.add_0_r by done.
    + intros c Hc Hcs. destruct (quiet_used s s2 c Q12) as [-> _]; [|by apply Hall2].
      destruct (g_bmap s Hg c); lia.
    + change BPB with 4096 in *. lia.
    + intros r s'. apply balloc_post_quiet; [done|by eapply kept_trans|done].
    + intros e [-> Hf]. split; [done|]. intros c Hc.
      rewrite <- (Hf c) by (by rewrite Hsb2). destruct (quiet_used s s2 c Q12) as [-> _]; [|done].
      destruct (g_bmap s Hg c); lia.
Qed.

(** balloc(): the first free block, marked and zeroed, or a panic when the disk is full. *)
Lemma balloc_run H s :
  intxn H s -> geom s -> held_ok H s -> 2 <= avail s ->
  (length H + Z.to_nat (log_n s) + 1 < NBUF)%nat ->
  outcome_is (balloc 1 s) (fun r s' => balloc_post H s r s')
    (fun e => e = "balloc: out of blocks"%string /\ disk_full s).
Proof.
  intros Hi Hg Hh Ha Hroom. unfold balloc, bind at 1, gets.
  pose proof (g_size s Hg) as Hsz. pose proof (Z.div_mod (sb_size (sb s)) BPB) as Hdm.
  pose proof (Z.mod_pos_bound (sb_size (sb s)) BPB) as Hmb. change BPB with 4096 in *.
  assert (0 <= sb_size (sb s) / 4096) by (apply Z.div_pos; lia).
  apply balloc_from_run; auto; try done; intros; change BPB with 4096 in *; lia.
Qed.

Lemma bblock_inj s b c :
  0 <= b -> 0 <= c -> bblock s b = bblock s c -> b mod BPB = c mod BPB -> b = c.
Proof.
  unfold bblock. intros Hb Hc Heq Hm. rewrite (Z.div_mod b BPB), (Z.div_mod c BPB) by done.
  rewrite Hm. f_equal. f_equal. lia.
Qed.

Lemma mod_bpb b : 0 <= b mod BPB < BPB.
Proof. apply Z.mod_pos_bound. done. Qed.

Lemma used_view_ok s b :
  intxn [] s \/ (exists H, intxn H s) -> geom s -> 0 <= b < sb_size (sb s) ->
  block_ok (view s (bblock s b)).
Proof.
  intros Hi Hg Hb. destruct (g_bmap s Hg b Hb) as [M1 _].
  destruct Hi as [Hi|[H Hi]]; apply view_ok; try lia; apply (it_cache _ _ Hi).
Qed.

(** The bitmap after a step that changed the bits of [b] only. *)
Lemma used_update H s s' b (v : bool) f :
  intxn H s -> geom s -> 0 <= b < sb_size (sb s) -> same_but_lh s s' ->
  (forall blk bj, block_ok blk -> 0 <= bj < BPB ->
     bit (f blk) bj = if decide (bj = b mod BPB) then v else bit blk bj) ->
  (forall c, 0 <= c < sb_size (sb s) -> view s' (bblock s c) =
     if decide (bblock s c = bblock s b) then f (view s (bblock s c)) else view s (bblock s c)) ->
  forall c, 0 <= c < sb_size (sb s) -> used s' c = if decide (c = b) then v else used s c.
Proof.
  intros Hi Hg Hb E Hf Hv c Hc. destruct (same_geometry _ _ E) as (_ & _ & _ & Hbb & _).
  unfold used. rewrite Hbb, Hv by done. destruct (decide (bblock s c = bblock s b)) as [He|He].
  - rewrite Hf; [|by apply used_view_ok; eauto|apply mod_bpb].
    destruct (decide (c = b)) as [->|Hne]; [by rewrite decide_True|].
    rewrite decide_False; [done|]. intros Hm. apply Hne. apply (bblock_inj s); auto; lia.
  - rewrite decide_False; [done|]. intros ->. done.
Qed.

Lemma balloc_post_used H s b s' :
  intxn H s -> geom s -> balloc_post H s b s' ->
  (forall c, 0 <= c < sb_size (sb s) -> used s' c = if decide (c = b) then true else used s c) /\
  geom s'.
Proof.
  intros Hi Hg [P1 P2 P3 P4 P5 P6]. destruct (g_free s Hg b P1 P2) as (F1 & F2 & F3 & F4).
  assert (Hu : forall c, 0 <= c < sb_size (sb s) -> used s' c = if decide (c = b) then true else used s c).
  { apply (used_update H s s' b true (set_bit (b mod BPB))); auto; [apply P4| |].
    - intros blk bj Hok Hbj. apply bit_set_bit; auto using mod_bpb.
    - intros c Hc. rewrite P6 by (destruct (g_bmap s Hg c Hc); lia).
      rewrite decide_False by (intros Heq; by destruct (F3 c Hc)). done. }
  split; [done|]. apply (geom_same s); [apply P4|done| |].
  - rewrite P6 by lia. rewrite decide_False by lia.
    rewrite decide_False; [done|]. destruct (g_bmap s Hg b P1). lia.
  - intros c Hc Huc. rewrite Hu by done. by case_decide.
Qed.

(** The block allocator returns the first free block of the bitmap, zeroed, with its bit
    set and every other bit, and every block outside the bitmap, unchanged; it panics exactly
    when no block is free. *)
Theorem balloc_correct H s :
  intxn H s -> geom s -> held_ok H s -> 2 <= avail s ->
  (length H + Z.to_nat (log_n s) + 1 < NBUF)%nat ->
  outcome_is (balloc 1 s)
    (fun b s' => 0 <= b < sb_size (sb s) /\ used s b = false /\
       (forall c, 0 <= c < b -> used s c = true) /\ view s' b = zeros /\
       (forall c, 0 <= c < sb_size (sb s) ->
          used s' c = if decide (c = b) then true else used s c) /\
       (forall m, 0 <= m -> m <> b -> m <> bblock s b -> view s' m = view s m) /\
       intxn H s' /\ geom s')
    (fun e => e = "balloc: out of blocks"%string /\ disk_full s).
Proof.
  intros Hi Hg Hh Ha Hr. eapply outcome_mono; [by apply (balloc_run H s)| |done].
  intros b s' P. destruct (balloc_post_used H s b s' Hi Hg P) as [Hu Hg'].
  destruct P as [P1 P2 P3 P4 P5 P6]. split_and!; try done; try lia; try apply P4.
  - rewrite P6 by lia. by rewrite decide_True.
  - intros m Hm H1 H2. rewrite P6 by done. by rewrite !decide_False.
Qed.

Lemma set_sb_id v s : v = sb s -> set_sb v s = s.
Proof. intros ->. by destruct s. Qed.

Lemma wp_readsb_txn H s :
  intxn H s -> 1 ∉ H -> 1 < disksize s -> (length H + Z.to_nat (log_n s) < NBUF)%nat ->
  wp (readsb 1) (fun v s' => v = decode_sb (view s 1) /\ intxn H s' /\ quiet s s' /\ kept H s s') s.
Proof.
  intros Hi Hn Hd Hl. unfold readsb.
  eapply wp_seq; [apply (rule_bread_txn H s 1); [done|done|lia|done]|].
  intros b s1 (I1 & T1 & S1 & Q1 & K1). apply wp_bind, wp_gets. rewrite (proj2 T1).
  eapply wp_seq; [by eapply (rule_brelse_txn H s1 b 1)|]. intros _ s2 (I2 & Q2 & K2).
  apply wp_ret. split_and!; [done..|by eapply quiet_trans|by eapply kept_trans].
Qed.

(** bfree() clears the bit of a used block, and panics on a free one. *)
Lemma bfree_run H s b :
  intxn H s -> geom s -> held_ok H s -> 0 <= b < sb_size (sb s) -> 1 ∉ H -> 1 <= avail s ->
  (length H + Z.to_nat (log_n s) < NBUF)%nat ->
  outcome_is (bfree 1 b s)
    (fun _ s' => used s b = true /\ fstep H s s' /\ avail s - 1 <= avail s' /\
       forall m, 0 <= m -> view s' m =
         if decide (m = bblock s b) then clear_bit (b mod BPB) (view s m) else view s m)
    (fun e => e = "freeing free block"%string /\ used s b = false).
Proof.
  intros Hi Hg Hh Hb H1 Ha Hl. unfold bfree. destruct (g_bmap s Hg b Hb) as [M1 M2].
  eapply outcome_seq; [apply (wp_readsb_txn H s); [done|done|lia|done]|].
  intros v s1 (Hv & I1 & Q1 & K1). rewrite (g_sb s Hg) in Hv.
  destruct (same_geometry _ _ (quiet_same _ _ Q1)) as (Hsb & Hd & Hlog & Hbb & _).
  unfold bind at 1, modify. rewrite set_sb_id by congruence. rewrite Hv.
  rewrite bblock_u32 by (done || apply Hi).
  assert (HnH : bblock s b ∉ H).
  { intros Hin. destruct (Hh _ Hin) as (_ & _ & Hc). by apply (Hc _ Hb). }
  assert (N1 : log_n s1 = log_n s) by apply (logged_outside _ _ (q_out _ _ Q1)).
  eapply outcome_seq; [apply (rule_bread_txn H s1 (bblock s b)); [done|done|lia|lia]|].
  intros bp s2 (I2 & T2 & S2 & Q2 & K2). unfold bind at 1, gets. rewrite (proj2 T2).
  rewrite (q_view _ _ Q1) in T2 |- * by lia. rewrite bit_clear_spec. fold (used s b).
  pose proof (quiet_trans _ _ _ Q1 Q2) as Q12.
  destruct (used s b) eqn:Hu; cbn [negb]; [|done].
  apply outcome_wp. eapply wp_mono; [apply (rule_finish H s2 bp (bblock s b)
    (view s (bblock s b)) (clear_bit (b mod BPB))); auto|].
  - lia.
  - intros Hin. apply M2. by destruct (same_geometry _ _ (quiet_same _ _ Q12)) as (_ & _ & <- & _).
  - by rewrite (quiet_avail _ _ Q12).
  - apply clear_bit_ok; auto using mod_bpb. by apply used_view_ok; eauto.
  - intros _ s3 (F3 & A3 & V3). rewrite (quiet_avail _ _ Q12) in A3. split_and!; auto.
    + eapply fstep_l; [apply quiet_same, Q12|by eapply kept_trans|done].
    + intros m Hm. rewrite V3 by done. case_decide; [by subst|]. by apply (q_view _ _ Q12).
Qed.

(** bfree() clears the bit of the block it is given, leaves every other bit and every
    block outside the bitmap unchanged, and panics on a block that is already free. A block
    that is free must be a data block ([Hdata]): the layout keeps its own blocks in use. *)
Theorem bfree_correct H s b :
  intxn H s -> geom s -> held_ok H s -> 0 <= b < sb_size (sb s) -> 1 ∉ H -> 1 <= avail s ->
  (length H + Z.to_nat (log_n s) < NBUF)%nat ->
  (1 < b /\ ~ inlog s b /\ (forall c, 0 <= c < sb_size (sb s) -> b <> bblock s c) /\
   (forall i, 0 <= i < sb_ninodes (sb s) -> b <> iblock s i)) ->
  outcome_is (bfree 1 b s)
    (fun _ s' => used s b = true /\
       (forall c, 0 <= c < sb_size (sb s) ->
          used s' c = if decide (c = b) then false else used s c) /\
       (forall m, 0 <= m -> m <> bblock s b -> view s' m = view s m) /\
       intxn H s' /\ geom s')
    (fun e => e = "freeing free block"%string /\ used s b = false).
Proof.
  intros Hi Hg Hh Hb H1 Ha Hl Hdata. eapply outcome_mono; [by apply (bfree_run H s b)| |done].
  intros _ s' (Hu & St & A & V).
  assert (Hu' : forall c, 0 <= c < sb_size (sb s) ->
    used s' c = if decide (c = b) then false else used s c).
  { apply (used_update H s s' b false (clear_bit (b mod BPB))); auto; [apply St| |].
    - intros blk bj Hok Hbj. apply bit_clear_bit; auto using mod_bpb.
    - intros c Hc. rewrite V by (destruct (g_bmap s Hg c Hc); lia). done. }
  split_and!; auto; [|apply St|].
  - intros m Hm Hne. rewrite V by done. by rewrite decide_False.
  - destruct (same_geometry _ _ (fs_same _ _ _ St)) as (Hsb & Hd & Hl' & Hbb & Hii).
    destruct Hg as [G1 G2 G3 G4 G5 G6]. split; rewrite ?Hsb, ?Hd; try done.
    + intros c Hr. destruct (G2 c Hr) as [? ?]. unfold meta_ok. by rewrite Hbb, Hd, Hl'.
    + intros i Hr. destruct (G3 i Hr) as [? ?]. unfold meta_ok. by rewrite Hii, Hd, Hl'.
    + intros c i Hbr Hir. rewrite Hbb, Hii. auto.
    + intros c Hr Hf. rewrite Hu' in Hf by done. rewrite Hl'.
      assert (HH : 1 < c /\ ~ inlog s c /\ (forall d, 0 <= d < sb_size (sb s) -> c <> bblock s d) /\
        (forall i, 0 <= i < sb_ninodes (sb s) -> c <> iblock s i)).
      { case_decide; [by subst|]. by apply G5. }
      destruct HH as (F1 & F2 & F3 & F4). split_and!; auto; intros; rewrite ?Hbb, ?Hii; auto.
    + rewrite V by lia. rewrite decide_False; [done|]. destruct (G2 b Hb). lia.
Qed.
