(* ===== verification/InodeSpec.v ===== *)
(** The inode layer: the on-disk format of inodes, the inode cache, and small files, whose
    contents are kept in the inode itself. *)

From S2P Require Export FsSpec.

Open Scope kernel_scope.

(** *** The disk inode *)

(** The fields that are stored on the disk fit their types. *)
Record dfields_ok (x : inode) : Prop := {
  df_type : - 2 ^ 15 <= i_type x < 2 ^ 15;
  df_major : - 2 ^ 15 <= i_major x < 2 ^ 15;
  df_minor : - 2 ^ 15 <= i_minor x < 2 ^ 15;
  df_nlink : - 2 ^ 15 <= i_nlink x < 2 ^ 15;
  df_size : 0 <= i_size x < 2 ^ 32;
  df_addrs : length (i_addrs x) = Z.to_nat sizeof_addrs /\ Forall is_byte (i_addrs x);
}.

(** [y] with the disk fields of [x]. *)
Definition with_dfields (x y : inode) : inode :=
  mkInode (i_dev y) (i_inum y) (i_ref y) (i_lock y) (i_flags y)
    (i_type x) (i_major x) (i_minor x) (i_nlink x) (i_size x) (i_addrs x).

Lemma s16_mod v : - 2 ^ 15 <= v < 2 ^ 15 -> s16 (v mod 256 ^ Z.of_nat 2) = v.
Proof.
  intros Hv. unfold s16, u16. change (256 ^ Z.of_nat 2) with (2 ^ 16).
  rewrite Z.mod_mod by done. destruct (decide (0 <= v)).
  - rewrite Z.mod_small by lia. rewrite (proj2 (Z.ltb_lt _ _)) by lia. done.
  - rewrite <- (Z.mod_add v 1 (2 ^ 16)) by done. rewrite Z.mod_small by lia.
    rewrite (proj2 (Z.ltb_ge _ _)) by lia. lia.
Qed.

Lemma slice_setf_ne off n off' n' v bs :
  (off + n <= off' \/ off' + n' <= off)%nat -> slice off n (setf n' off' v bs) = slice off n bs.
Proof. intros H. unfold setf. apply slice_blit_ne. by rewrite length_le_bytes. Qed.

Lemma getf_blit_ne n off off' src bs :
  (off + n <= off' \/ off' + length src <= off)%nat ->
  getf n off (blit off' src bs) = getf n off bs.
Proof. intros H. unfold getf. by rewrite slice_blit_ne. Qed.

Section Dinode.
Context (off : nat) (x : inode) (blk : list Z).
Context (Hx : dfields_ok x) (Hfit : (off + Z.to_nat sizeof_dinode <= length blk)%nat).

Lemma fit64 : (off + 64 <= length blk)%nat.
Proof. exact Hfit. Qed.

Lemma addrs52 : length (i_addrs x) = 52%nat.
Proof. apply (df_addrs x Hx). Qed.

(** A disk inode that was written is read back. *)
Lemma get_put_dinode y : get_dinode off (put_dinode off x blk) y = with_dfields x y.
Proof.
  pose proof fit64 as F. pose proof addrs52 as L52.
  unfold get_dinode, with_dfields, put_dinode. f_equal.
  - rewrite getf_blit_ne, !getf_setf_ne, getf_setf_eq by lia. apply s16_mod, Hx.
  - rewrite getf_blit_ne, !getf_setf_ne, getf_setf_eq by (rewrite ?length_setf; lia).
    apply s16_mod, Hx.
  - rewrite getf_blit_ne, !getf_setf_ne, getf_setf_eq by (rewrite ?length_setf; lia).
    apply s16_mod, Hx.
  - rewrite getf_blit_ne, !getf_setf_ne, getf_setf_eq by (rewrite ?length_setf; lia).
    apply s16_mod, Hx.
  - rewrite getf_blit_ne, getf_setf_eq by (rewrite ?length_setf; lia).
    apply Z.mod_small, Hx.
  - change (Z.to_nat sizeof_addrs) with 52%nat. rewrite <- L52 at 1. apply slice_blit_eq.
    rewrite !length_setf. lia.
Qed.

(** Writing one disk inode leaves the others of the block alone. *)
Lemma get_put_dinode_ne off' y :
  (off' + Z.to_nat sizeof_dinode <= off \/ off + Z.to_nat sizeof_dinode <= off')%nat ->
  get_dinode off' (put_dinode off x blk) y = get_dinode off' blk y.
Proof.
  pose proof addrs52 as L52. change (Z.to_nat sizeof_dinode) with 64%nat. intros Ho.
  unfold get_dinode, put_dinode. change (Z.to_nat sizeof_addrs) with 52%nat.
  f_equal; rewrite ?getf_blit_ne, ?slice_blit_ne by lia;
    rewrite ?getf_setf_ne, ?slice_setf_ne by lia; done.
Qed.

Lemma put_dinode_ok : block_ok blk -> block_ok (put_dinode off x blk).
Proof.
  intros [Hl Hb]. unfold put_dinode. split.
  - by rewrite length_blit, !length_setf.
  - apply blit_byte; [apply (df_addrs x Hx)|]. by repeat apply setf_byte.
Qed.

End Dinode.

Lemma dip_off_fit inum : (dip_off inum + Z.to_nat sizeof_dinode <= Z.to_nat BSIZE)%nat.
Proof.
  unfold dip_off. change (Z.to_nat sizeof_dinode) with 64%nat.
  change (Z.to_nat BSIZE) with 512%nat. change sizeof_dinode with 64. change IPB with 8.
  pose proof (Z.mod_pos_bound inum 8). lia.
Qed.

Lemma dip_off_ne i j :
  i mod IPB <> j mod IPB ->
  (dip_off i + Z.to_nat sizeof_dinode <= dip_off j \/
   dip_off j + Z.to_nat sizeof_dinode <= dip_off i)%nat.
Proof.
  unfold dip_off. change (Z.to_nat sizeof_dinode) with 64%nat. change sizeof_dinode with 64.
  change IPB with 8. pose proof (Z.mod_pos_bound i 8). pose proof (Z.mod_pos_bound j 8). lia.
Qed.

(** The inode [inum] as the disk blocks show it. *)
Definition dinode_of (s : fsys) (inum : Z) (y : inode) : inode :=
  get_dinode (dip_off inum) (view s (iblock s inum)) y.

(** *** iupdate *)

Lemma iblock_inj s i j :
  0 <= i -> 0 <= j -> i <> j -> iblock s i = iblock s j -> i mod IPB <> j mod IPB.
Proof.
  unfold iblock. intros Hi Hj Hne Heq Hm. apply Hne.
  rewrite (Z.div_mod i IPB), (Z.div_mod j IPB) by done. rewrite Hm. f_equal. f_equal. lia.
Qed.

Lemma iblock_view_ok H s i :
  intxn H s -> geom s -> 0 <= i < sb_ninodes (sb s) -> block_ok (view s (iblock s i)).
Proof.
  intros Hi Hg Hr. destruct (g_inodes s Hg i Hr) as [M1 _].
  apply view_ok; [apply (it_cache _ _ Hi)|lia].
Qed.

(** A step that changes one inode block keeps the layout. *)
Lemma geom_iblock s s' i f :
  same_but_lh s s' -> geom s -> 0 <= i < sb_ninodes (sb s) ->
  (forall m, 0 <= m -> view s' m = if decide (m = iblock s i) then f else view s m) -> geom s'.
Proof.
  intros E Hg Hi V. destruct (g_inodes s Hg i Hi) as [M1 M2]. apply (geom_same s); auto.
  - rewrite V by lia. by rewrite decide_False by lia.
  - intros b Hb Hu. destruct (same_geometry _ _ E) as (_ & _ & _ & Hbb & _).
    unfold used in *. rewrite Hbb, V by (destruct (g_bmap s Hg b Hb); lia).
    rewrite decide_False; [done|]. by apply (g_disj s Hg).
Qed.

Lemma wp_iupdate H s ip x :
  intxn H s -> geom s -> ino s ip = x -> i_dev x = 1 -> 0 <= i_inum x < sb_ninodes (sb s) ->
  dfields_ok x -> iblock s (i_inum x) ∉ H -> 1 <= avail s ->
  (length H + Z.to_nat (log_n s) < NBUF)%nat ->
  wp (iupdate ip) (fun _ s' => fstep H s s' /\ avail s - 1 <= avail s' /\ geom s' /\
    forall m, 0 <= m -> view s' m =
      if decide (m = iblock s (i_inum x))
      then put_dinode (dip_off (i_inum x)) x (view s m) else view s m) s.
Proof.
  intros Hi Hg Hx Hdev Hr Hdf HnH Ha Hl. unfold iupdate. apply wp_bind, wp_gets.
  apply wp_bind, wp_gets. rewrite Hx, Hdev, iblock_u32 by (done || apply Hi).
  destruct (g_inodes s Hg _ Hr) as [M1 M2].
  pose proof (iblock_view_ok H s _ Hi Hg Hr) as Hok.
  eapply wp_mono; [apply (rule_update H s _ (put_dinode (dip_off (i_inum x)) x)); auto|].
  - apply put_dinode_ok; auto.
  - intros _ s' (F & A & V). split_and!; auto.
    + by eapply (geom_iblock s s'); [apply F|done|exact Hr|exact V].
    + intros m Hm. rewrite V by done. case_decide; by subst.
Qed.

Lemma wp_iupdate_logged H s ip x :
  intxn H s -> geom s -> ino s ip = x -> i_dev x = 1 -> 0 <= i_inum x < sb_ninodes (sb s) ->
  dfields_ok x -> iblock s (i_inum x) ∉ H -> 1 <= avail s ->
  (length H + Z.to_nat (log_n s) < NBUF)%nat ->
  wp (iupdate ip) (fun _ s' => iblock s (i_inum x) ∈ logged s') s.
Proof.
  intros Hi Hg Hx Hdev Hr Hdf HnH Ha Hl. unfold iupdate. apply wp_bind, wp_gets.
  apply wp_bind, wp_gets. rewrite Hx, Hdev, iblock_u32 by (done || apply Hi).
  destruct (g_inodes s Hg _ Hr) as [M1 M2].
  apply (rule_update_logged H s _ (put_dinode (dip_off (i_inum x)) x)); auto.
  apply put_dinode_ok; auto. by eapply iblock_view_ok.
Qed.

(** iupdate() writes the inode to the disk: reading it back gives the same fields, and the
    other inodes on the disk, and every block outside the inode's block, are unchanged. *)
Theorem iupdate_correct H s ip x :
  intxn H s -> geom s -> ino s ip = x -> i_dev x = 1 -> 0 <= i_inum x < sb_ninodes (sb s) ->
  dfields_ok x -> iblock s (i_inum x) ∉ H -> 1 <= avail s ->
  (length H + Z.to_nat (log_n s) < NBUF)%nat ->
  wp (iupdate ip) (fun _ s' => intxn H s' /\ geom s' /\ icache s' = icache s /\
    (forall y, dinode_of s' (i_inum x) y = with_dfields x y) /\
    (forall j y, 0 <= j < sb_ninodes (sb s) -> j <> i_inum x ->
       dinode_of s' j y = dinode_of s j y) /\
    (forall m, 0 <= m -> m <> iblock s (i_inum x) -> view s' m = view s m)) s.
Proof.
  intros Hi Hg Hx Hdev Hr Hdf HnH Ha Hl.
  eapply wp_mono; [by apply (wp_iupdate H s ip x)|]. intros _ s' (F & A & G & V).
  destruct (same_geometry _ _ (fs_same _ _ _ F)) as (_ & _ & _ & _ & Hib).
  destruct (g_inodes s Hg _ Hr) as [M1 M2].
  pose proof (iblock_view_ok H s _ Hi Hg Hr) as [Hlen _].
  assert (Hfit := dip_off_fit (i_inum x)). rewrite <- Hlen in Hfit.
  split_and!; [apply F|done|apply (sl_rest _ _ (fs_same _ _ _ F))|..].
  - intros y. unfold dinode_of. rewrite Hib, V, decide_True by (done || lia).
    by apply get_put_dinode.
  - intros j y Hj Hne. unfold dinode_of. rewrite Hib, V by (destruct (g_inodes s Hg j Hj); lia).
    case_decide as He; [|done]. rewrite He. apply get_put_dinode_ne; [done|..]; try done.
    apply dip_off_ne. apply (iblock_inj s); auto; lia.
  - intros m Hm Hne. rewrite V by done. by rewrite decide_False.
Qed.

(** *** The inode cache *)

Record ic_wf (s : fsys) : Prop := {
  ic_len : length (icache s) = Z.to_nat NINODE;
  ic_unlocked : ic_lock s = false;
  ic_ref : forall ip, (ip < Z.to_nat NINODE)%nat -> 0 <= i_ref (ino s ip);
  ic_uniq : forall ip jp, (ip < Z.to_nat NINODE)%nat -> (jp < Z.to_nat NINODE)%nat ->
    0 < i_ref (ino s ip) -> 0 < i_ref (ino s jp) ->
    i_dev (ino s ip) = i_dev (ino s jp) -> i_inum (ino s ip) = i_inum (ino s jp) -> ip = jp;
}.

(** The entry [ip] is in use for inode [inum] of device [dev]. *)
Definition caches_inode (dev inum : Z) (x : inode) : bool :=
  (0 <? i_ref x) && (i_dev x =? dev) && (i_inum x =? inum).

Lemma caches_inode_true dev inum x :
  caches_inode dev inum x = true <-> 0 < i_ref x /\ i_dev x = dev /\ i_inum x = inum.
Proof. unfold caches_inode. rewrite !andb_true_iff, Z.ltb_lt, !Z.eqb_eq. tauto. Qed.

Lemma iget_scan_spec n ip dev inum empty c :
  match iget_scan n ip dev inum empty c with
  | inl jp => (ip <= jp < ip + n)%nat /\ caches_inode dev inum (c !!! jp) = true
  | inr e =>
      (forall jp, (ip <= jp < ip + n)%nat -> caches_inode dev inum (c !!! jp) = false) /\
      match e with
      | Some jp => empty = Some jp \/ (ip <= jp < ip + n)%nat /\ i_ref (c !!! jp) = 0
      | None => empty = None /\ forall jp, (ip <= jp < ip + n)%nat -> i_ref (c !!! jp) <> 0
      end
  end.
Proof.
  revert ip empty. induction n as [|n IH]; intros ip empty; cbn [iget_scan].
  - split; [lia|]. destruct empty; [by left|]. split; [done|lia].
  - fold (caches_inode dev inum (c !!! ip)). destruct (caches_inode dev inum (c !!! ip)) eqn:E.
    { split; [lia|done]. }
    set (e' := match empty with None => _ | Some _ => _ end). specialize (IH (S ip) e').
    destruct (iget_scan n (S ip) dev inum e' c) as [jp|e].
    + destruct IH. split; [lia|done].
    + destruct IH as [Hno He]. split.
      { intros jp Hjp. destruct (decide (jp = ip)) as [->|]; [done|]. apply Hno. lia. }
      unfold e' in He. destruct e as [jp|].
      * destruct He as [He|He]; [|right; split; [lia|tauto]].
        destruct empty; [by left|]. destruct (Z.eqb_spec (i_ref (c !!! ip)) 0); [|done].
        simplify_eq. right. split; [lia|done].
      * destruct He as [He Hr]. destruct empty; [done|]. split; [done|].
        destruct (Z.eqb_spec (i_ref (c !!! ip)) 0) as [|Hne]; [done|].
        intros jp Hjp. destruct (decide (jp = ip)) as [->|]; [done|]. apply Hr. lia.
Qed.

Lemma ino_upd_eq s ip f : (ip < length (icache s))%nat -> ino (upd_ino ip f s) ip = f (ino s ip).
Proof.
  intros H. unfold ino, upd_ino. simpl. apply list_lookup_total_correct.
  rewrite list_lookup_alter_eq. by rewrite list_lookup_lookup_total_lt.
Qed.

Lemma ino_upd_ne s ip jp f : ip <> jp -> ino (upd_ino ip f s) jp = ino s jp.
Proof.
  intros H. unfold ino, upd_ino. simpl. by rewrite !list_lookup_total_alt, list_lookup_alter_ne.
Qed.

Lemma upd_ino_ext s ip f g : f (ino s ip) = g (ino s ip) -> upd_ino ip f s = upd_ino ip g s.
Proof.
  intros H. unfold upd_ino. f_equal. apply list_alter_ext; [|done]. intros x Hx.
  unfold ino in H. by erewrite list_lookup_total_correct in H by done.
Qed.

(** An update of one entry that keeps the cache well formed. *)
Lemma ic_wf_upd s ip f :
  ic_wf s -> (ip < Z.to_nat NINODE)%nat -> 0 <= i_ref (f (ino s ip)) ->
  (0 < i_ref (f (ino s ip)) -> forall jp, (jp < Z.to_nat NINODE)%nat -> jp <> ip ->
     caches_inode (i_dev (f (ino s ip))) (i_inum (f (ino s ip))) (ino s jp) = false) ->
  ic_wf (upd_ino ip f s).
Proof.
  intros [W1 W2 W3 W4] Hip Hr Hu. assert (Hl : (ip < length (icache s))%nat) by lia.
  split; [by unfold upd_ino; simpl; rewrite length_alter|done|..].
  - intros jp Hjp. destruct (decide (ip = jp)) as [<-|]; [by rewrite ino_upd_eq|].
    rewrite ino_upd_ne by done. auto.
  - intros jp kp Hjp Hkp. destruct (decide (ip = jp)) as [<-|]; destruct (decide (ip = kp)) as [<-|];
      rewrite ?ino_upd_eq, ?ino_upd_ne by done; intros R1 R2 D I; auto; exfalso.
    + assert (Hc : caches_inode (i_dev (f (ino s ip))) (i_inum (f (ino s ip))) (ino s kp) = true)
        by (by apply caches_inode_true).
      by rewrite Hu in Hc.
    + assert (Hc : caches_inode (i_dev (f (ino s ip))) (i_inum (f (ino s ip))) (ino s jp) = true)
        by (by apply caches_inode_true).
      by rewrite Hu in Hc.
Qed.

(** The critical sections of iget(), idup() and iput(): change one entry. *)
Lemma icache_section {A} s ip f (a : A) :
  ic_lock s = false ->
  (upd_inode ip f ;; release icache_lock ;; ret a) (set_ic_lock true s) = Ret a (upd_ino ip f s).
Proof. intros Hl. destruct s. simpl in Hl. by subst. Qed.

(** What iget() does on every branch. *)
Definition iget_post (s : fsys) (dev inum : Z) (ip : nat) (s' : fsys) : Prop :=
  (ip < Z.to_nat NINODE)%nat /\ ic_wf s' /\
  i_dev (ino s' ip) = dev /\ i_inum (ino s' ip) = inum /\
  (i_ref (ino s' ip) = i_ref (ino s ip) + 1 /\
   (ino s' ip = i_set_ref (i_ref (ino s ip) + 1) (ino s ip) /\ 0 < i_ref (ino s ip) \/
    i_ref (ino s ip) = 0 /\ i_flags (ino s' ip) = 0 /\ i_lock (ino s' ip) = i_lock (ino s ip) /\
    forall jp, (jp < Z.to_nat NINODE)%nat -> caches_inode dev inum (ino s jp) = false)) /\
  (forall jp, jp <> ip -> ino s' jp = ino s jp) /\
  set_icache [] s' = set_icache [] s.

Lemma iget_run s dev inum :
  ic_wf s ->
  outcome_is (iget dev inum s) (iget_post s dev inum)
    (fun e => e = "iget: no inodes"%string /\
       forall ip, (ip < Z.to_nat NINODE)%nat ->
         i_ref (ino s ip) <> 0 /\ caches_inode dev inum (ino s ip) = false).
Proof.
  intros Hwf. pose proof (ic_unlocked s Hwf) as Hul. pose proof (ic_len s Hwf) as Hlen.
  unfold iget. unfold bind at 1, acquire. cbn [lget icache_lock]. rewrite Hul.
  unfold bind at 1, gets. cbn [lset icache_lock]. change (icache (set_ic_lock true s)) with (icache s).
  pose proof (iget_scan_spec (Z.to_nat NINODE) 0 dev inum None (icache s)) as Hscan.
  destruct (iget_scan _ _ _ _ _ _) as [ip|[ip|]].
  - destruct Hscan as [Hip Hc]. fold (ino s ip) in Hc.
    pose proof (proj1 (caches_inode_true _ _ _) Hc) as (R & D & I).
    rewrite icache_section by done. unfold iget_post. simpl. rewrite ino_upd_eq by lia.
    split_and!; try done; try lia.
    + apply ic_wf_upd; auto; simpl; [lia|lia|]. intros _ jp Hjp Hne. apply not_true_is_false.
      intros (R' & D' & I')%caches_inode_true. apply Hne. apply (ic_uniq s Hwf); auto; lia || congruence.
    + by left.
    + intros jp Hne. by apply ino_upd_ne.
  - destruct Hscan as [Hno [|[Hip H0]]]; [done|]. fold (ino s ip) in H0.
    rewrite icache_section by done. unfold iget_post. simpl. rewrite ino_upd_eq by lia. simpl.
    split_and!; try done; try lia.
    + apply ic_wf_upd; auto; simpl; [lia|lia|]. intros _ jp Hjp Hne. apply Hno. lia.
    + right. split_and!; [done..|]. intros jp Hjp. apply Hno. lia.
    + intros jp Hne. by apply ino_upd_ne.
  - destruct Hscan as [Hno [_ Hr]]. simpl. split; [done|]. intros ip Hip.
    split; [apply Hr|apply Hno]; lia.
Qed.

(** iget() finds the entry of an inode that is in the cache and adds a reference, or takes
    a free entry with one reference and no valid contents; it panics exactly when every entry
    is in use by another inode. There is never more than one entry per inode: a second iget()
    of the same inode returns the same entry. *)
Theorem iget_correct s dev inum :
  ic_wf s ->
  outcome_is (iget dev inum s)
    (fun ip s' => iget_post s dev inum ip s' /\
       outcome_is (iget dev inum s')
         (fun jp s'' => jp = ip /\ ic_wf s'' /\ i_ref (ino s'' ip) = i_ref (ino s ip) + 2)
         (fun _ => False))
    (fun e => e = "iget: no inodes"%string /\
       forall ip, (ip < Z.to_nat NINODE)%nat ->
         i_ref (ino s ip) <> 0 /\ caches_inode dev inum (ino s ip) = false).
Proof.
  intros Hwf. eapply outcome_mono; [by apply iget_run| |done].
  intros ip s' Hp. split; [done|]. destruct Hp as (Hip & Hwf' & Hd & Hi & [Hr _] & _ & _).
  pose proof (ic_ref s Hwf ip Hip).
  assert (Hc : caches_inode dev inum (ino s' ip) = true) by (apply caches_inode_true; lia).
  eapply outcome_mono; [by apply iget_run| |].
  - intros jp s'' (Hjp & Hwf'' & Hd' & Hi' & [Hr' Hb] & Ho & _).
    assert (jp = ip) as ->; [|split_and!; [done|done|lia]].
    destruct Hb as [[He Hp]|(_ & _ & _ & Hno)]; [|by rewrite Hno in Hc].
    apply caches_inode_true in Hc. apply (ic_uniq s' Hwf'); auto; try lia.
    + rewrite He in Hd'. simpl in Hd'. lia.
    + rewrite He in Hi'. simpl in Hi'. lia.
  - intros e [_ Hno]. destruct (Hno ip Hip) as [_ Hf]. congruence.
Qed.

(** The inode cache is not part of what the block layer sees. *)
Lemma cache_set_icache v s H D : cache s H D -> cache (set_icache v s) H D.
Proof.
  intros [[? ? ? Hb ? ?] ? ?]. split; [split; try done|done|done].
  intros b Hlt. by destruct (Hb b Hlt).
Qed.

Lemma intxn_set_icache H v s : intxn H s -> intxn H (set_icache v s).
Proof. intros [C W L O Z]. split; auto; [by apply cache_set_icache|by destruct W]. Qed.

Lemma geom_set_icache v s : geom s -> geom (set_icache v s).
Proof. intros []. by split. Qed.

(** *** Small files *)

(** A small file: its bytes are in [addrs]. *)
Record sfile (x : inode) : Prop := {
  sf_type : i_type x = T_SFILE;
  sf_size : 0 <= i_size x <= sizeof_addrs;
  sf_fields : dfields_ok x;
}.

(** The number of bytes that fit. *)
Definition sfile_fit (off n : Z) : Z := Z.min n (sizeof_addrs - off).

(** The inode after a write. *)
Definition sfile_written (off n : Z) (src : list Z) (x : inode) : inode :=
  let y := i_set_addrs (blit (Z.to_nat off) (take (Z.to_nat n) src) (i_addrs x)) x in
  if (0 <? n) && (i_size x <? off + n) then i_set_size (off + n) y else y.

Lemma sfile_written_ok off n src x :
  sfile x -> 0 <= off <= i_size x -> 0 <= n -> off + n <= sizeof_addrs -> Forall is_byte src ->
  sfile (sfile_written off n src x).
Proof.
  intros [T Sz F] Ho Hn Hfit Hsrc. destruct F as [F1 F2 F3 F4 F5 [F6 F7]].
  assert (Hd : length (blit (Z.to_nat off) (take (Z.to_nat n) src) (i_addrs x)) =
    Z.to_nat sizeof_addrs /\ Forall is_byte (blit (Z.to_nat off) (take (Z.to_nat n) src) (i_addrs x))).
  { split; [by rewrite length_blit|]. apply blit_byte; [by apply Forall_take|done]. }
  unfold sfile_written. change sizeof_addrs with 52 in *.
  destruct ((0 <? n) && (i_size x <? off + n)); (split; [done|simpl; change sizeof_addrs with 52; lia|]);
    split; simpl; try exact Hd; auto; lia.
Qed.

(** The two size limits of writei(), on a small file. *)
Lemma sfile_clamp off n :
  0 <= off <= sizeof_addrs -> 0 <= n -> off + n < 2 ^ 32 ->
  (let n1 := if MAXFILE * BSIZE <? u32 (off + n) then u32 (MAXFILE * BSIZE - off) else n in
   if sizeof_addrs <? u32 (off + n1) then u32 (sizeof_addrs - off) else n1) = sfile_fit off n.
Proof.
  intros Ho Hn Hb. unfold sfile_fit. change (MAXFILE * BSIZE) with 71680.
  change sizeof_addrs with 52 in *. unfold u32. rewrite (Z.mod_small (off + n)) by lia.
  destruct (Z.ltb_spec 71680 (off + n)); cbv zeta.
  - rewrite (Z.mod_small (71680 - off)) by lia. rewrite (Z.mod_small (off + _)) by lia.
    rewrite (proj2 (Z.ltb_lt _ _)) by lia. rewrite Z.mod_small by lia. lia.
  - rewrite (Z.mod_small (off + n)) by lia. destruct (Z.ltb_spec 52 (off + n)); [|lia].
    rewrite Z.mod_small by lia. lia.
Qed.

Section SmallFiles.
Context (devsw : Z -> devsw_entry).

(** writei() on a small file stores into the inode and calls iupdate(). *)
Lemma wp_sfile_writei ip src off n s (Q : Z -> fsys -> Prop) :
  (ip < length (icache s))%nat -> sfile (ino s ip) -> 0 <= off <= i_size (ino s ip) -> 0 <= n ->
  off + n < 2 ^ 32 ->
  let m := sfile_fit off n in
  wp (iupdate ip) (fun _ s' => Q m s') (upd_ino ip (sfile_written off m src) s) ->
  wp (writei devsw ip src off n) Q s.
Proof.
  intros Hip [T Sz F] Ho Hn Hb m HQ. unfold writei. apply wp_bind, wp_gets. rewrite T.
  change (T_SFILE =? T_DEV) with false. change (T_SFILE =? T_SFILE) with true. cbv iota.
  rewrite (proj2 (Z.ltb_ge _ _)) by lia. unfold u32 at 1. rewrite Z.mod_small by lia.
  rewrite (proj2 (Z.ltb_ge _ _)) by lia. cbn [orb andb].
  rewrite sfile_clamp by lia. fold m.
  assert (Hm : 0 <= m <= 52 - off) by (unfold m, sfile_fit; change sizeof_addrs with 52 in *; lia).
  assert (Hu : u32 (off + m) = off + m) by (unfold u32; change sizeof_addrs with 52 in *; apply Z.mod_small; lia).
  do 2 apply wp_bind. apply wp_modify, wp_ret. cbv iota beta. rewrite Hu.
  apply wp_bind, wp_gets. rewrite ino_upd_eq by done. cbn [i_set_addrs i_type i_size].
  rewrite T. change (T_SFILE =? T_SFILE) with true. cbn [orb]. unfold when at 1.
  do 2 apply wp_bind. unfold sfile_written in HQ.
  destruct ((0 <? m) && (i_size (ino s ip) <? off + m)) eqn:E.
  - unfold when. apply wp_modify. rewrite upd_ino_upd_ino. apply (wp_mono _ (fun _ s' => Q m s')); [|intros [] s' H; apply wp_ret, H].
    erewrite upd_ino_ext; [exact HQ|]. cbv beta. by rewrite E.
  - unfold when. apply wp_ret. apply (wp_mono _ (fun _ s' => Q m s')); [|intros [] s' H; apply wp_ret, H].
    erewrite upd_ino_ext; [exact HQ|]. cbv beta. by rewrite E.
Qed.

(** Reading a small file copies from the inode. *)
Lemma sfile_readi_run ip off n s :
  sfile (ino s ip) -> 0 <= off <= i_size (ino s ip) -> 0 <= n -> off + n < 2 ^ 32 ->
  let m := Z.min n (i_size (ino s ip) - off) in
  readi devsw ip off n s = Ret (m, slice (Z.to_nat off) (Z.to_nat m) (i_addrs (ino s ip))) s.
Proof.
  intros [T Sz F] Ho Hn Hb m. unfold readi, bind, gets. rewrite T.
  change (T_SFILE =? T_DEV) with false. change (T_SFILE =? T_SFILE) with true. cbv iota.
  rewrite (proj2 (Z.ltb_ge _ _)) by lia. unfold u32. rewrite Z.mod_small by lia.
  rewrite (proj2 (Z.ltb_ge _ _)) by lia. cbn [orb]. unfold m.
  destruct (Z.ltb_spec (i_size (ino s ip)) (off + n)).
  - rewrite Z.min_r by lia. done.
  - rewrite Z.min_l by lia. done.
Qed.

Lemma with_dfields_self x y : with_dfields x (with_dfields x y) = with_dfields x y.
Proof. done. Qed.

(** C33. A small file keeps its contents in its inode. writei() stores the bytes that fit in
    the 52 bytes of [addrs] and returns how many, grows the size, and writes the inode through
    the log: the inode's block, the only one whose contents change, is in the log's header and
    has its new contents in the cache, and nothing is written to the disk before the commit.
    A readi() of the same range then returns the bytes written. *)
Theorem small_file_write_read H s ip src off n :
  intxn H s -> geom s -> (ip < length (icache s))%nat -> sfile (ino s ip) ->
  i_dev (ino s ip) = 1 -> 0 <= i_inum (ino s ip) < sb_ninodes (sb s) ->
  iblock s (i_inum (ino s ip)) ∉ H -> 1 <= avail s ->
  (length H + Z.to_nat (log_n s) < NBUF)%nat ->
  0 <= off <= i_size (ino s ip) -> 0 <= n <= Z.of_nat (length src) -> off + n < 2 ^ 32 ->
  Forall is_byte src ->
  let m := sfile_fit off n in
  wp (r <- writei devsw ip src off n ;; d <- readi devsw ip off r ;; ret (r, d))
    (fun v s' =>
       v = (m, (m, take (Z.to_nat m) src)) /\ sfile (ino s' ip) /\
       i_size (ino s' ip) = Z.max (i_size (ino s ip)) (off + m) /\
       (forall y, dinode_of s' (i_inum (ino s ip)) y = with_dfields (ino s' ip) y) /\
       (forall b, 0 <= b -> b <> iblock s (i_inum (ino s ip)) -> view s' b = view s b) /\
       iblock s (i_inum (ino s ip)) ∈ logged s' /\ memdisk s' = memdisk s /\ wtrace s' = wtrace s /\
       intxn H s' /\ geom s') s.
Proof.
  intros Hi Hg Hip Hsf Hdev Hr HnH Ha Hl Ho Hn Hb Hsrc m.
  pose proof (sf_size _ Hsf) as Hsz.
  assert (Hm : 0 <= m <= n /\ off + m <= sizeof_addrs) by (unfold m, sfile_fit; lia).
  set (x := sfile_written off m src (ino s ip)).
  assert (Hx : sfile x) by (apply sfile_written_ok; auto; lia).
  set (s1 := upd_ino ip (sfile_written off m src) s).
  assert (Hx1 : ino s1 ip = x) by (by apply ino_upd_eq).
  assert (Hsize : i_size x = Z.max (i_size (ino s ip)) (off + m)).
  { unfold x, sfile_written. destruct (Z.ltb_spec 0 m); destruct (Z.ltb_spec (i_size (ino s ip)) (off + m));
      simpl; lia. }
  assert (Hkeep : i_dev x = 1 /\ i_inum x = i_inum (ino s ip)).
  { unfold x, sfile_written. by destruct (_ && _). }
  destruct Hkeep as [Hdev' Hinum].
  assert (I1 : intxn H s1) by (by apply intxn_set_icache).
  assert (G1 : geom s1) by (by apply geom_set_icache).
  apply wp_bind, wp_sfile_writei; try done; try lia. fold m s1.
  eapply wp_mono; [apply wp_and; [apply (wp_iupdate H s1 ip x)|apply (wp_iupdate_logged H s1 ip x)];
    rewrite ?Hinum; auto; apply Hx|].
  rewrite Hinum. intros _ s2 [(F & A & G2 & V) Hlg].
  assert (Hic : icache s2 = icache s1) by apply (sl_rest _ _ (fs_same _ _ _ F)).
  assert (Hx2 : ino s2 ip = x) by (unfold ino; rewrite Hic; exact Hx1).
  destruct (same_geometry _ _ (fs_same _ _ _ F)) as (_ & _ & _ & _ & Hib).
  destruct (g_inodes s Hg _ Hr) as [M1 M2]. change (iblock s1 (i_inum (ino s ip))) with
    (iblock s (i_inum (ino s ip))) in *.
  apply wp_bind. eapply wp_ret_eq; [apply sfile_readi_run; rewrite ?Hx2; auto; lia|].
  apply wp_ret. rewrite Hx2.
  split_and!; auto; [| | |apply (fs_same _ _ _ F)..|apply F].
  - rewrite Z.min_l by lia. do 2 f_equal. unfold x, sfile_written.
    assert (Hs : slice (Z.to_nat off) (Z.to_nat m) (blit (Z.to_nat off) (take (Z.to_nat m) src)
      (i_addrs (ino s ip))) = take (Z.to_nat m) src).
    { rewrite <- (length_take_le src (Z.to_nat m)) at 1 by lia. apply slice_blit_eq.
      rewrite length_take_le by lia. destruct (df_addrs _ (sf_fields _ Hsf)) as [-> _]. lia. }
    by destruct (_ && _).
  - intros y. unfold dinode_of. rewrite Hib. change (iblock s1 (i_inum (ino s ip))) with
      (iblock s (i_inum (ino s ip))). rewrite V, decide_True by (done || lia).
    apply get_put_dinode; [apply Hx|].
    destruct (iblock_view_ok H s _ Hi Hg Hr) as [Hlen _].
    change (view s1 (iblock s (i_inum (ino s ip)))) with (view s (iblock s (i_inum (ino s ip)))).
    rewrite Hlen. apply dip_off_fit.
  - intros b Hb0 Hne. rewrite V by done. by rewrite decide_False.
Qed.

End SmallFiles.
