(* ===== verification/FileSpec.v ===== *)
(** Reading files: bmap() and readi() on a file whose blocks are allocated, and directory
    lookup on top of them. *)

From S2P Require Export InodeSpec.

Open Scope kernel_scope.

(** *** The contents of a file *)

(** The disk block of block [bn] of the file. *)
Definition fblock (s : fsys) (x : inode) (bn : Z) : Z :=
  if bn <? NDIRECT then i_addr x bn else getw (view s (i_addr x NDIRECT)) (bn - NDIRECT).

(** Block [bn] of the file is allocated. *)
Record mapped (s : fsys) (x : inode) (bn : Z) : Prop := {
  mp_range : 0 <= bn < MAXFILE;
  mp_block : 0 < fblock s x bn < disksize s;
  mp_ind : NDIRECT <= bn -> 0 < i_addr x NDIRECT < disksize s;
}.

Definition file_byte (s : fsys) (x : inode) (i : Z) : Z :=
  byte_at (view s (fblock s x (i / BSIZE))) (i mod BSIZE).
Definition file_bytes (s : fsys) (x : inode) (off n : Z) : list Z :=
  file_byte s x <$> seqZ off n.

(** The state of a reader: it holds no buffer. *)
Record reading (s : fsys) (D : list Z) : Prop := {
  rd_cache : cache s [] D;
  rd_dirty : (length D < NBUF)%nat;
}.

Lemma quiet_ino s s' ip : quiet s s' -> ino s' ip = ino s ip.
Proof.
  intros Q. pose proof (q_out _ _ Q) as O. unfold outside in O. simplify_eq. unfold ino. congruence.
Qed.

Lemma quiet_fblock s s' x bn :
  quiet s s' -> (NDIRECT <= bn -> 0 <= i_addr x NDIRECT) -> fblock s' x bn = fblock s x bn.
Proof.
  intros Q H. unfold fblock. destruct (Z.ltb_spec bn NDIRECT); [done|].
  rewrite (q_view _ _ Q); auto.
Qed.

Lemma quiet_mapped s s' x bn : quiet s s' -> mapped s x bn -> mapped s' x bn.
Proof.
  intros Q [H1 H2 H3]. pose proof (quiet_size _ _ Q) as Hd.
  split; rewrite ?Hd; auto. rewrite (quiet_fblock s) by (done || (intros; apply Z.lt_le_incl, H3; done)).
  done.
Qed.

(** bmap() on an allocated block only looks it up. *)
Lemma wp_bmap_mapped s D ip x bn :
  reading s D -> ino s ip = x -> i_dev x = 1 -> mapped s x bn ->
  wp (bmap ip bn) (fun r s' => r = fblock s x bn /\ reading s' D /\ quiet s s') s.
Proof.
  intros [Hc Hl] Hx Hdev [Hr Hb Hind]. unfold bmap. apply wp_bind, wp_gets. rewrite Hx.
  unfold fblock in *. destruct (Z.ltb_spec bn NDIRECT) as [Hlt|Hge].
  - rewrite (proj2 (Z.eqb_neq _ _)) by lia. by apply wp_ret.
  - unfold MAXFILE in Hr. rewrite (proj2 (Z.ltb_lt _ _)) by lia. specialize (Hind Hge).
    rewrite (proj2 (Z.eqb_neq _ 0)) by lia. apply wp_bind, wp_ret. rewrite Hdev.
    pose proof (filter_ne_le D (i_addr x NDIRECT)).
    eapply wp_seq; [apply (rule_bread s [] D); [done|set_solver|lia|simpl; lia]|].
    intros b s1 (C1 & T1 & S1 & Q1 & _). apply wp_bind, wp_gets. rewrite (proj2 T1).
    rewrite (proj2 (Z.eqb_neq _ _)) by lia.
    eapply wp_seq; [by eapply (rule_brelse s1 [])|]. intros _ s2 (C2 & Q2 & _).
    apply wp_ret. split_and!; [done|done|by eapply quiet_trans].
Qed.

(** The bytes of one block. *)
Lemma slice_file_bytes s x off m :
  0 <= off -> 0 < m -> off mod BSIZE + m <= BSIZE ->
  length (view s (fblock s x (off / BSIZE))) = Z.to_nat BSIZE ->
  slice (Z.to_nat (off mod BSIZE)) (Z.to_nat m) (view s (fblock s x (off / BSIZE))) =
    file_bytes s x off m.
Proof.
  intros Ho Hm Hfit Hlen. pose proof (Z.mod_pos_bound off BSIZE) as Hmod. specialize (Hmod eq_refl).
  apply list_eq_same_length with (n := Z.to_nat m).
  - unfold file_bytes. by rewrite length_fmap, length_seqZ.
  - apply length_slice. rewrite Hlen. lia.
  - intros i a b Hi Ha Hb. rewrite slice_lookup in Ha by done.
    unfold file_bytes in Hb. rewrite list_lookup_fmap, lookup_seqZ_lt in Hb by lia. simpl in Hb.
    simplify_eq. unfold file_byte, byte_at.
    assert (Hdiv : (off + Z.of_nat i) / BSIZE = off / BSIZE /\
      (off + Z.of_nat i) mod BSIZE = off mod BSIZE + Z.of_nat i).
    { pose proof (Z.div_mod off BSIZE). change BSIZE with 512 in *.
      assert (Hu := Z.div_mod_unique 512 (off / 512) ((off + Z.of_nat i) / 512)
        (off mod 512 + Z.of_nat i) ((off + Z.of_nat i) mod 512)).
      pose proof (Z.mod_pos_bound (off + Z.of_nat i) 512). pose proof (Z.div_mod (off + Z.of_nat i) 512).
      destruct Hu as [Hu1 Hu2]; lia. }
    destruct Hdiv as [-> ->]. symmetry. apply list_lookup_total_correct. rewrite <- Ha. f_equal. lia.
Qed.

Lemma file_bytes_app s x off a b :
  0 <= a -> 0 <= b -> file_bytes s x off (a + b) = file_bytes s x off a ++ file_bytes s x (off + a) b.
Proof.
  intros Ha Hb. unfold file_bytes. rewrite <- fmap_app. by rewrite seqZ_app by done.
Qed.

(** Reading does not change what the file's bytes are. *)
Lemma quiet_file_bytes s s' x off n :
  quiet s s' -> 0 <= off -> (forall i, off <= i < off + n -> mapped s x (i / BSIZE)) ->
  file_bytes s' x off n = file_bytes s x off n.
Proof.
  intros Q Ho Hm. apply list_fmap_ext. intros k i Hi. apply lookup_seqZ in Hi as [-> Hi].
  destruct (Hm (off + Z.of_nat k)) as [M1 M2 M3]; [lia|]. unfold file_byte.
  rewrite (quiet_fblock s) by (done || (intros; apply Z.lt_le_incl, M3; done)).
  rewrite (q_view _ _ Q); [done|lia].
Qed.

(** *** readi *)

Lemma block_end off : (off + (BSIZE - off mod BSIZE)) mod BSIZE = 0.
Proof.
  replace (off + (BSIZE - off mod BSIZE)) with ((off / BSIZE + 1) * BSIZE).
  - apply Z.mod_mul. done.
  - pose proof (Z.div_mod off BSIZE ltac:(done)). lia.
Qed.

(** The fuel of the loops over the blocks of a range: one turn per block. *)
Lemma turn_fuel fuel off n tot :
  let m := Z.min (n - tot) (BSIZE - off mod BSIZE) in
  tot < n -> tot = n \/ off mod BSIZE + (n - tot) <= (Z.of_nat (S fuel) - 1) * BSIZE ->
  (0 < fuel)%nat /\
  (tot + m = n \/ (off + m) mod BSIZE + (n - (tot + m)) <= (Z.of_nat fuel - 1) * BSIZE).
Proof.
  intros m Hn Hfu. pose proof (Z.mod_pos_bound off BSIZE eq_refl) as Hmod. destruct Hfu as [|Hfu]; [lia|].
  split; [change BSIZE with 512 in *; lia|].
  destruct (decide (m = BSIZE - off mod BSIZE)) as [He|He]; [right|left; unfold m in *; lia].
  assert (Hz : (off + m) mod BSIZE = 0) by (rewrite He; apply block_end).
  rewrite Hz. change BSIZE with 512 in *. lia.
Qed.

Section Readi.
Context (devsw : Z -> devsw_entry).

(** Read one block and release it, keeping what was read. *)
Lemma rule_peek_block {A} s D n (f : list Z -> A) (k : A -> M fsys (list Z)) Q :
  reading s D -> 0 <= n < disksize s ->
  (forall s', reading s' D -> quiet s s' -> wp (k (f (view s n))) Q s') ->
  wp (b <- bread 1 n ;; v <- gets (fun s => f (b_data (bufat s b))) ;; brelse b ;; k v) Q s.
Proof.
  intros [Hc Hl] Hn Hk. pose proof (filter_ne_le D n).
  eapply wp_seq; [apply (rule_bread s [] D); [done|set_solver|done|simpl; lia]|].
  intros b s1 (C1 & T1 & S1 & Q1 & _). apply wp_bind, wp_gets. rewrite (proj2 T1).
  eapply wp_seq; [by eapply (rule_brelse s1 [])|]. intros _ s2 (C2 & Q2 & _).
  apply Hk; [done|by eapply quiet_trans].
Qed.

Lemma wp_readi_loop fuel s D ip x off n tot out :
  reading s D -> ino s ip = x -> i_dev x = 1 -> 0 <= off -> 0 <= tot <= n -> off + (n - tot) < 2 ^ 32 ->
  (forall i, off <= i < off + (n - tot) -> mapped s x (i / BSIZE)) ->
  (0 < fuel)%nat -> tot = n \/ off mod BSIZE + (n - tot) <= (Z.of_nat fuel - 1) * BSIZE ->
  wp (readi_loop fuel ip off n tot out) (fun r s' =>
    r = out ++ file_bytes s x off (n - tot) /\ reading s' D /\ quiet s s') s.
Proof.
  revert s off tot out. induction fuel as [|fuel IH];
    intros s off tot out Hr Hx Hdev Ho Ht Hlt Hm Hf Hfu; [lia|]. cbn [readi_loop].
  destruct (Z.ltb_spec tot n) as [Hn|Hn]; cbn [negb].
  2: { apply wp_ret. replace (n - tot) with 0 by lia. unfold file_bytes. simpl.
       rewrite app_nil_r. done. }
  assert (Mo : mapped s x (off / BSIZE)) by (apply Hm; lia).
  eapply wp_seq; [by apply (wp_bmap_mapped s D ip x)|]. intros r s1 (-> & R1 & Q1).
  pose proof (mp_block _ _ _ Mo) as Hb. rewrite (proj2 (Z.eqb_neq _ _)) by lia.
  apply wp_bind, wp_gets. rewrite (quiet_ino _ _ _ Q1), Hx, Hdev. cbv zeta.
  set (m := Z.min (n - tot) (BSIZE - off mod BSIZE)).
  pose proof (Z.mod_pos_bound off BSIZE eq_refl) as Hmod.
  assert (Hmr : 0 < m <= n - tot /\ m <= BSIZE - off mod BSIZE) by (unfold m; lia).
  apply (rule_peek_block s1 D (fblock s x (off / BSIZE)) (slice (Z.to_nat (off mod BSIZE)) (Z.to_nat m))).
  { done. } { rewrite (quiet_size _ _ Q1). lia. }
  intros s2 R2 Q2. pose proof (quiet_trans _ _ _ Q1 Q2) as Q12.
  rewrite (q_view _ _ Q1) by lia.
  rewrite slice_file_bytes; [|done|lia|lia|].
  2: { apply view_ok; [apply (rd_cache _ _ Hr)|lia]. }
  rewrite (Z.mod_small (off + m)) || unfold u32; rewrite (Z.mod_small (off + m)) by lia.
  eapply wp_mono; [apply (IH s2 (off + m) (tot + m)); auto|].
  - by rewrite (quiet_ino _ _ _ Q12).
  - lia.
  - lia.
  - lia.
  - intros i Hi. eapply quiet_mapped; [exact Q12|]. apply Hm. lia.
  - by apply (turn_fuel fuel off n tot).
  - by apply (turn_fuel fuel off n tot).
  - intros r s3 (-> & R3 & Q3). split_and!; [|done|by eapply quiet_trans].
    rewrite <- app_assoc. f_equal. replace (n - tot) with (m + (n - (tot + m))) by lia.
    rewrite file_bytes_app by lia. f_equal.
    rewrite (quiet_file_bytes s s2); [done|done|lia|]. intros i Hi. apply Hm. lia.
Qed.

(** A file or directory on the disk with all its blocks allocated. *)
Record regular (s : fsys) (x : inode) : Prop := {
  rg_type : i_type x <> T_DEV /\ i_type x <> T_SFILE;
  rg_dev : i_dev x = 1;
  rg_size : 0 <= i_size x < 2 ^ 31;
  rg_mapped : forall i, 0 <= i < i_size x -> mapped s x (i / BSIZE);
}.

Lemma quiet_regular s s' x : quiet s s' -> regular s x -> regular s' x.
Proof. intros Q []. split; auto. intros i Hi. eapply quiet_mapped; eauto. Qed.

Lemma wp_readi s D ip x off n :
  reading s D -> ino s ip = x -> regular s x -> 0 <= off <= i_size x -> 0 <= n ->
  off + n < 2 ^ 32 ->
  let m := Z.min n (i_size x - off) in
  wp (readi devsw ip off n) (fun r s' =>
    r = (m, file_bytes s x off m) /\ reading s' D /\ quiet s s') s.
Proof.
  intros Hr Hx [[T1 T2] Hdev Hsz Hm] Ho Hn Hb m. unfold readi. apply wp_bind, wp_gets. rewrite Hx.
  rewrite (proj2 (Z.eqb_neq _ _) T1), (proj2 (Z.eqb_neq _ _) T2).
  rewrite (proj2 (Z.ltb_ge _ _)) by lia. unfold u32. rewrite Z.mod_small by lia.
  rewrite (proj2 (Z.ltb_ge _ _)) by lia. cbn [orb].
  assert (Hn' : (if i_size x <? off + n then i_size x - off else n) = m).
  { unfold m. destruct (Z.ltb_spec (i_size x) (off + n)); lia. }
  rewrite Hn'. clear Hn'. assert (Hmr : 0 <= m <= n /\ off + m <= i_size x) by (unfold m; lia).
  pose proof (Z.mod_pos_bound off BSIZE eq_refl) as Hmod.
  pose proof (Z.div_mod m BSIZE ltac:(done)) as Hdm. pose proof (Z.mod_pos_bound m BSIZE eq_refl).
  assert (0 <= m / BSIZE) by (apply Z.div_pos; [lia|done]).
  eapply wp_seq; [apply (wp_readi_loop (copy_fuel m) s D ip x); auto; try lia|].
  - intros i Hi. apply Hm. lia.
  - unfold copy_fuel. lia.
  - right. unfold copy_fuel. change BSIZE with 512 in *. lia.
  - intros r s' (-> & R & Q). apply wp_ret. rewrite Z.sub_0_r. done.
Qed.

(** C34. readi() on a file whose blocks are allocated returns the bytes of the file from [off]
    on, as many as were asked for and the file has, across direct and indirect blocks, and
    changes nothing; an offset past the end of the file, or one that overflows, is an error. *)
Theorem readi_correct s D ip off n :
  reading s D -> regular s (ino s ip) -> 0 <= off < 2 ^ 32 -> 0 <= n < 2 ^ 32 ->
  let x := ino s ip in
  wp (readi devsw ip off n) (fun r s' =>
    (if decide (off <= i_size x /\ off + n < 2 ^ 32)
     then r = (Z.min n (i_size x - off), file_bytes s x off (Z.min n (i_size x - off)))
     else r = (-1, [])) /\
    reading s' D /\ quiet s s') s.
Proof.
  intros Hr Hg Ho Hn x. case_decide as Hd.
  - apply wp_readi; auto; lia.
  - unfold readi. apply wp_bind, wp_gets. fold x. destruct Hg as [[T1 T2] _ Hsz _]. fold x in T1, Hsz.
    rewrite (proj2 (Z.eqb_neq _ _) T1).
    assert (Hc : (i_size x <? off) || (u32 (off + n) <? off) = true).
    { apply orb_true_iff. destruct (decide (off <= i_size x)) as [H1|H1]; [right|left]; apply Z.ltb_lt; [|lia].
      unfold u32. rewrite <- (Z.mod_add (off + n) (-1)) by done. rewrite Z.mod_small by lia. lia. }
    rewrite Hc. by apply wp_ret.
Qed.
End Readi.

(** *** Names *)

(** The name in an array of [n] bytes: what precedes the first NUL. *)
Fixpoint cname (n : nat) (p : list Z) : list Z :=
  match n, p with
  | S n', c :: p' => if c =? 0 then [] else c :: cname n' p'
  | _, _ => []
  end.

(** strncmp() of two byte arrays is zero exactly when they hold the same name. *)
Lemma strncmp_bytes_zero n p q : strncmp_bytes n p q = 0 <-> cname n p = cname n q.
Proof.
  revert p q. induction n as [|n IH]; intros p q; [done|]. cbn [strncmp_bytes].
  destruct p as [|a p], q as [|b q]; simpl.
  - done.
  - destruct (Z.eqb_spec b 0) as [->|Hb]; [done|]. split; [lia|done].
  - destruct (Z.eqb_spec a 0) as [->|Ha]; simpl; [done|].
    destruct (Z.eqb_spec a 0); [done|]. split; [lia|done].
  - destruct (Z.eqb_spec a 0) as [->|Ha]; simpl.
    + destruct (Z.eqb_spec b 0) as [->|Hb]; [done|]. split; [lia|done].
    + destruct (Z.eqb_spec a b) as [->|Hab].
      * rewrite (proj2 (Z.eqb_neq b 0)) by done. rewrite IH. split; [by intros ->|by intros [= ->]].
      * split; [lia|]. destruct (Z.eqb_spec b 0); [done|]. intros [= ? ?]. done.
Qed.

(** An entry that strncpy() wrote has the name it was given, cut to the size of the field. *)
Lemma cname_strncpy n p : cname n (strncpy_bytes n p) = cname n p.
Proof.
  revert p. induction n as [|n IH]; intros p; [done|]. destruct p as [|c p]; simpl; [done|].
  destruct (Z.eqb_spec c 0) as [->|Hc]; simpl; [done|].
  rewrite (proj2 (Z.eqb_neq c 0)) by done. by rewrite IH.
Qed.

Lemma length_strncpy_bytes n p : length (strncpy_bytes n p) = n.
Proof.
  revert p. induction n as [|n IH]; intros p; [done|]. destruct p as [|c p]; simpl;
    [by rewrite length_replicate|]. destruct (c =? 0); simpl; [by rewrite length_replicate|].
  by rewrite IH.
Qed.

(** *** dirlookup *)

(** The [k]-th entry of a directory, and the search for a name. *)
Definition entry (s : fsys) (x : inode) (k : nat) : list Z :=
  file_bytes s x (Z.of_nat k * sizeof_dirent) sizeof_dirent.

Definition names (name : list Z) (de : list Z) : Prop :=
  de_inum de <> 0 /\ cname (Z.to_nat DIRSIZ) name = cname (Z.to_nat DIRSIZ) (de_name de).

#[export] Instance names_dec name de : Decision (names name de).
Proof. apply _. Defined.

Definition entries (s : fsys) (x : inode) : list (list Z) :=
  entry s x <$> seq 0 (Z.to_nat (i_size x / sizeof_dirent)).

Section Dirlookup.
Context (devsw : Z -> devsw_entry).

Record directory (s : fsys) (x : inode) : Prop := {
  dr_type : i_type x = T_DIR;
  dr_regular : regular s x;
  dr_size : i_size x mod sizeof_dirent = 0;
}.

Lemma quiet_directory s s' x : quiet s s' -> directory s x -> directory s' x.
Proof. intros Q []. split; auto. by eapply quiet_regular. Qed.

Lemma quiet_entry s s' x k :
  quiet s s' -> regular s x -> (Z.of_nat k + 1) * sizeof_dirent <= i_size x ->
  entry s' x k = entry s x k.
Proof.
  intros Q Hg Hk. unfold entry. change sizeof_dirent with 16 in *.
  apply quiet_file_bytes; [done|lia|]. intros i Hi. apply Hg. lia.
Qed.

Lemma quiet_entries s s' x :
  quiet s s' -> directory s x -> entries s' x = entries s x.
Proof.
  intros Q Hd. pose proof (rg_size _ _ (dr_regular _ _ Hd)) as Hsz.
  pose proof (Z.div_mod (i_size x) sizeof_dirent ltac:(done)) as Hdm. rewrite (dr_size _ _ Hd) in Hdm.
  apply list_fmap_ext. intros i k [-> Hi]%lookup_seq. apply quiet_entry; [done|apply Hd|].
  change sizeof_dirent with 16 in *. lia.
Qed.

Lemma wp_dirlookup_loop fuel s D dp x name k :
  reading s D -> ino s dp = x -> directory s x ->
  (k <= Z.to_nat (i_size x / sizeof_dirent))%nat ->
  (Z.to_nat (i_size x / sizeof_dirent) - k < fuel)%nat ->
  wp (dirlookup_loop devsw fuel dp name (Z.of_nat k * sizeof_dirent)) (fun r s' =>
    r = (match list_find (names name) (drop k (entries s x)) with
         | Some (j, de) => Some (de_inum de, Z.of_nat (k + j) * sizeof_dirent)
         | None => None
         end) /\ reading s' D /\ quiet s s') s.
Proof.
  revert s k. induction fuel as [|fuel IH]; intros s k Hr Hx Hd Hk Hf; [lia|].
  cbn [dirlookup_loop]. apply wp_bind, wp_gets. rewrite Hx.
  pose proof (rg_size _ _ (dr_regular _ _ Hd)) as Hsz. pose proof (dr_size _ _ Hd) as Hmod.
  pose proof (Z.div_mod (i_size x) sizeof_dirent ltac:(done)) as Hdm. rewrite Hmod in Hdm.
  assert (0 <= i_size x / sizeof_dirent) by (apply Z.div_pos; [lia|done]).
  assert (Hlen : length (entries s x) = Z.to_nat (i_size x / sizeof_dirent)).
  { unfold entries. by rewrite length_fmap, length_seq. }
  destruct (Z.ltb_spec (Z.of_nat k * sizeof_dirent) (i_size x)) as [Hlt|Hge]; cbn [negb].
  2: { apply wp_ret. change sizeof_dirent with 16 in *. rewrite drop_ge by lia. done. }
  change sizeof_dirent with 16 in *.
  assert (Hlook : entries s x !! k = Some (entry s x k)).
  { unfold entries. change sizeof_dirent with 16. rewrite list_lookup_fmap, lookup_seq_lt by lia. done. }
  rewrite (drop_S _ _ _ Hlook).
  eapply wp_seq; [apply (wp_readi devsw s D dp x (Z.of_nat k * 16) 16); auto; try lia; apply Hd|].
  intros r s1 (-> & R1 & Q1). replace (Z.min 16 (i_size x - Z.of_nat k * 16)) with 16 by lia.
  cbn [fst snd]. change (16 =? 16) with true. cbn [negb].
  change (file_bytes s x (Z.of_nat k * 16) 16) with (entry s x k).
  assert (Hnext : u32 (Z.of_nat k * 16 + 16) = Z.of_nat (S k) * 16).
  { unfold u32. rewrite Z.mod_small; lia. }
  assert (Hrec : ~ names name (entry s x k) ->
    wp (dirlookup_loop devsw fuel dp name (u32 (Z.of_nat k * 16 + 16))) (fun r s' =>
      r = (match list_find (names name) (entry s x k :: drop (S k) (entries s x)) with
           | Some (j, de) => Some (de_inum de, Z.of_nat (k + j) * 16)
           | None => None
           end) /\ reading s' D /\ quiet s s') s1).
  { intros Hno. rewrite Hnext.
    eapply wp_mono; [apply (IH s1 (S k)); auto; [by rewrite (quiet_ino _ _ _ Q1)|by eapply quiet_directory|
      change sizeof_dirent with 16; lia..]|].
    intros r s' (-> & R2 & Q2). split_and!; [|done|by eapply quiet_trans].
    simpl. rewrite decide_False by done. rewrite (quiet_entries s s1) by done.
    destruct (list_find (names name) (drop (S k) (entries s x))) as [[j de]|]; simpl; [|done].
    do 2 f_equal. change sizeof_dirent with 16. lia. }
  destruct (Z.eqb_spec (de_inum (entry s x k)) 0) as [H0|H0].
  { apply Hrec. intros [? _]. done. }
  destruct (Z.eqb_spec (namecmp name (de_name (entry s x k))) 0) as [Hn|Hn].
  - apply wp_ret. split_and!; [|done..]. simpl. rewrite decide_True; [do 2 f_equal; lia|].
    split; [done|]. by apply strncmp_bytes_zero.
  - apply Hrec. intros [_ He]. apply Hn. by apply strncmp_bytes_zero.
Qed.

Lemma quiet_ic_wf s s' : quiet s s' -> ic_wf s -> ic_wf s'.
Proof.
  intros Q [W1 W2 W3 W4]. pose proof (q_out _ _ Q) as O. unfold outside in O. simplify_eq.
  split; [congruence|congruence|..]; intros; rewrite !(quiet_ino s s') in * by done; eauto.
Qed.

(** The search of dirlookup(): the first entry in use that has the name. *)
Definition dir_find (s : fsys) (x : inode) (name : list Z) : option (nat * list Z) :=
  list_find (names name) (entries s x).

Lemma wp_dirlookup_scan s D dp name :
  reading s D -> directory s (ino s dp) ->
  let x := ino s dp in
  wp (dirlookup_loop devsw (dir_fuel (i_size x)) dp name 0) (fun r s' =>
    r = match dir_find s x name with
        | Some (j, de) => Some (de_inum de, Z.of_nat j * sizeof_dirent)
        | None => None end /\ reading s' D /\ quiet s s') s.
Proof.
  intros Hr Hd x. pose proof (rg_size _ _ (dr_regular _ _ Hd)) as Hsz. fold x in Hsz.
  apply (wp_dirlookup_loop _ s D dp x name 0); auto; [lia|]. unfold dir_fuel.
  assert (0 <= i_size x / sizeof_dirent) by (apply Z.div_pos; [lia|done]). lia.
Qed.

Lemma dirlookup_run s D dp name :
  reading s D -> ic_wf s -> directory s (ino s dp) ->
  let x := ino s dp in
  match dir_find s x name with
  | None => wp (dirlookup devsw dp name) (fun r s' => r = None /\ reading s' D /\ quiet s s') s
  | Some (k, de) =>
      outcome_is (dirlookup devsw dp name s)
        (fun r s' => exists ip, r = Some (ip, Z.of_nat k * sizeof_dirent) /\
           i_dev (ino s' ip) = 1 /\ i_inum (ino s' ip) = de_inum de /\ 0 < i_ref (ino s' ip) /\
           ic_wf s')
        (fun e => e = "iget: no inodes"%string)
  end.
Proof.
  intros Hr Hic Hd x. pose proof (wp_dirlookup_scan s D dp name Hr Hd) as Hw. fold x in Hw.
  unfold dirlookup. fold x in Hd.
  destruct (dir_find s x name) as [[k de]|] eqn:Ef; simpl in Hw; rewrite Ef in Hw.
  - unfold bind at 1, gets at 1. fold x. rewrite (dr_type _ _ Hd). change (T_DIR =? T_DIR) with true.
    cbn [negb]. eapply outcome_seq; [exact Hw|]. intros r s1 (-> & R1 & Q1).
    unfold bind at 1, gets at 1. rewrite (quiet_ino _ _ _ Q1). fold x.
    rewrite (rg_dev _ _ (dr_regular _ _ Hd)).
    assert (Hic1 : ic_wf s1) by (by eapply quiet_ic_wf).
    pose proof (iget_run s1 1 (de_inum de) Hic1) as Hg. unfold bind.
    destruct (iget 1 (de_inum de) s1) as [ip s2|e| |]; simpl in *; try done; [|by destruct Hg].
    destruct Hg as (Hip & Hwf2 & H1 & H2 & [H3 _] & _). exists ip.
    pose proof (ic_ref s1 Hic1 ip Hip). split_and!; auto. lia.
  - apply wp_bind, wp_gets. fold x. rewrite (dr_type _ _ Hd). change (T_DIR =? T_DIR) with true.
    cbn [negb]. eapply wp_seq; [exact Hw|]. intros r s1 (-> & R1 & Q1). by apply wp_ret.
Qed.

(** dirlookup() finds a name: it returns the cached inode of the first entry in use with
    that name, and the entry's offset, or null when the directory has no such entry. *)
Theorem dirlookup_correct s D dp name :
  reading s D -> ic_wf s -> directory s (ino s dp) ->
  let x := ino s dp in
  match dir_find s x name with
  | None => wp (dirlookup devsw dp name) (fun r s' => r = None /\ reading s' D /\ quiet s s') s
  | Some (k, de) =>
      outcome_is (dirlookup devsw dp name s)
        (fun r s' => exists ip, r = Some (ip, Z.of_nat k * sizeof_dirent) /\
           i_dev (ino s' ip) = 1 /\ i_inum (ino s' ip) = de_inum de /\ 0 < i_ref (ino s' ip) /\
           ic_wf s')
        (fun e => e = "iget: no inodes"%string)
  end.
Proof. by apply dirlookup_run. Qed.
End Dirlookup.
