(* ===== verification/WriteSpec.v ===== *)
(** Writing files: writei() inside a file whose blocks are allocated. *)

From S2P Require Export FileSpec.

Open Scope kernel_scope.

(** The blocks of a file are its own: no two of its blocks are the same block of the disk, and
    none of them is its indirect block. *)
Record own_blocks (s : fsys) (x : inode) : Prop := {
  ow_inj : forall i j, 0 <= i < i_size x -> 0 <= j < i_size x ->
    fblock s x (i / BSIZE) = fblock s x (j / BSIZE) -> i / BSIZE = j / BSIZE;
  ow_ind : forall i j, 0 <= i < i_size x -> 0 <= j < i_size x -> NDIRECT <= j / BSIZE ->
    fblock s x (i / BSIZE) <> i_addr x NDIRECT;
}.

(** The step from [s] to [s'] stored [bs] at [off] in the file, in the cache and on the disk,
    and did nothing else. *)
Record stored (x : inode) (off : Z) (bs : list Z) (s s' : fsys) : Prop := {
  st_out : outside s' = outside s;
  st_map : forall i, 0 <= i < i_size x -> fblock s' x (i / BSIZE) = fblock s x (i / BSIZE);
  st_bytes : forall i, 0 <= i < i_size x ->
    file_byte s' x i = if decide (off <= i < off + Z.of_nat (length bs))
                       then bs !!! Z.to_nat (i - off) else file_byte s x i;
  st_rest : forall m, 0 <= m ->
    (forall i, off <= i < off + Z.of_nat (length bs) -> m <> fblock s x (i / BSIZE)) ->
    view s' m = view s m /\ dblock s' m = dblock s m;
  st_disk : forall i, off <= i < off + Z.of_nat (length bs) ->
    dblock s' (fblock s x (i / BSIZE)) = view s' (fblock s x (i / BSIZE));
}.

Lemma stored_quiet x off s s' :
  quiet s s' -> (forall i, 0 <= i < i_size x -> mapped s x (i / BSIZE)) -> stored x off [] s s'.
Proof.
  intros Q Hm. assert (Hf : forall i, 0 <= i < i_size x -> fblock s' x (i / BSIZE) = fblock s x (i / BSIZE)).
  { intros i Hi. destruct (Hm i Hi) as [_ _ M3]. apply quiet_fblock; [done|].
    intros H. apply Z.lt_le_incl, M3. done. }
  split; [apply Q|done| |intros m Hm0 _; split; [by apply Q|by apply quiet_dblock]|simpl; lia].
  intros i Hi. rewrite decide_False by (simpl; lia). unfold file_byte. rewrite Hf by done.
  destruct (Hm i Hi) as [_ M2 _]. rewrite (q_view _ _ Q); [done|lia].
Qed.

(** Whether a block is one of those of a range. *)
Lemma in_range s x off n b :
  (exists i, off <= i < off + n /\ b = fblock s x (i / BSIZE)) \/
  (forall i, off <= i < off + n -> b <> fblock s x (i / BSIZE)).
Proof.
  destruct (decide (Exists (fun i => b = fblock s x (i / BSIZE)) (seqZ off n))) as [H|H].
  - left. apply Exists_exists in H as (i & Hi%elem_of_seqZ & ->). by exists i.
  - right. intros i Hi ->. apply H, Exists_exists. exists i. by rewrite elem_of_seqZ.
Qed.

Lemma stored_trans x off bs1 bs2 s1 s2 s3 :
  0 <= off -> off + Z.of_nat (length bs1 + length bs2) <= i_size x ->
  (forall i, 0 <= i < i_size x -> mapped s1 x (i / BSIZE)) ->
  stored x off bs1 s1 s2 -> stored x (off + Z.of_nat (length bs1)) bs2 s2 s3 -> stored x off (bs1 ++ bs2) s1 s3.
Proof.
  intros Ho Hfit Hm [O1 M1 B1 R1 D1] [O2 M2 B2 R2 D2]. split.
  - congruence.
  - intros i Hi. by rewrite M2, M1.
  - intros i Hi. rewrite B2, B1, length_app by done. repeat case_decide; try lia; try done.
    + rewrite lookup_total_app_r by lia. f_equal. lia.
    + by rewrite lookup_total_app_l by lia.
  - intros m Hm0 Hne. rewrite length_app in Hne. destruct (R1 m Hm0) as [<- <-]; [intros i Hi; apply Hne; lia|].
    apply R2; [done|]. intros i Hi. rewrite M1 by lia. apply Hne. lia.
  - intros i Hi. rewrite length_app in Hi. set (b := fblock s1 x (i / BSIZE)).
    destruct (in_range s2 x (off + Z.of_nat (length bs1)) (Z.of_nat (length bs2)) b) as [(j & Hj & ->)|Hne].
    + by apply D2.
    + destruct (decide (i < off + Z.of_nat (length bs1))) as [Hlt|Hge].
      * pose proof (mp_block _ _ _ (Hm i ltac:(lia))). destruct (R2 b) as [-> ->]; [unfold b; lia|done|].
        apply D1. lia.
      * exfalso. apply (Hne i); [lia|]. unfold b. by rewrite M1 by lia.
Qed.

Lemma stored_own x off bs s s' : stored x off bs s s' -> own_blocks s x -> own_blocks s' x.
Proof.
  intros [_ M _ _ _] [I1 I2]. split.
  - intros i j Hi Hj. rewrite !M by done. by apply I1.
  - intros i j Hi Hj. rewrite M by done. intros. by apply (I2 i j).
Qed.

Lemma outside_size s s' : outside s' = outside s -> disksize s' = disksize s.
Proof. unfold outside. congruence. Qed.

Lemma outside_ino s s' ip : outside s' = outside s -> ino s' ip = ino s ip.
Proof. unfold outside, ino. intros. simplify_eq. congruence. Qed.

Lemma stored_mapped x off bs s s' i :
  stored x off bs s s' -> 0 <= i < i_size x -> mapped s x (i / BSIZE) -> mapped s' x (i / BSIZE).
Proof.
  intros [O M _ _ _] Hi [H1 H2 H3]. pose proof (outside_size _ _ O) as Hd. split; rewrite ?M, ?Hd by done; auto.
Qed.

(** Storing into one block: bread, store, bwrite, brelse. *)
Lemma rule_poke_block {A} s D n f (k : M fsys A) Q :
  reading s D -> 0 <= n < disksize s -> block_ok (f (view s n)) ->
  (forall s', reading s' D -> outside s' = outside s ->
     (forall m, 0 <= m -> view s' m = if decide (m = n) then f (view s n) else view s m) ->
     (forall m, 0 <= m -> dblock s' m = if decide (m = n) then f (view s n) else dblock s m) -> wp k Q s') ->
  wp (b <- bread 1 n ;; upd_data b f ;; bwrite b ;; brelse b ;; k) Q s.
Proof.
  intros [Hc Hl] Hn Hf Hk. pose proof (filter_ne_le D n).
  eapply wp_seq; [apply (rule_bread s [] D); [done|set_solver|done|simpl; lia]|].
  intros b s1 (C1 & T1 & _ & Q1 & _). apply wp_bind, wp_modify.
  destruct (rule_store s1 [n] D b n _ f C1 T1 Hf) as (C2 & T2 & O2 & V2 & _). set (s2 := upd_buf _ _ _) in *.
  eapply wp_seq; [by apply (rule_bwrite s2 [n] D b n)|]. intros _ s3 (C3 & T3 & S3 & O3 & M3 & _ & V3 & _).
  eapply wp_seq; [by eapply (rule_brelse s3 [])|]. intros _ s4 (C4 & Q4 & _).
  apply Hk.
  - split; [by eapply cache_filter|done].
  - by rewrite (q_out _ _ Q4), O3, O2, (q_out _ _ Q1).
  - intros m Hm. rewrite (q_view _ _ Q4), V3, V2 by done. case_decide; [done|]. by apply Q1.
  - intros m Hm. rewrite (quiet_dblock _ _ _ Q4). unfold dblock. rewrite M3.
    pose proof (quiet_dblock _ _ m Q1) as Hq. unfold dblock in Hq. change (memdisk s2) with (memdisk s1).
    assert (Hlen : (Z.to_nat n < length (memdisk s1))%nat)
      by (pose proof (quiet_size _ _ Q1) as Hs1; unfold disksize in *; lia).
    case_decide; [subst; by apply list_lookup_total_insert_eq|].
    rewrite list_lookup_total_insert_ne by lia. exact Hq.
Qed.

Lemma byte_at_blit a bs blk k :
  0 <= a -> 0 <= k < Z.of_nat (length blk) ->
  byte_at (blit (Z.to_nat a) bs blk) k =
    if decide (a <= k < a + Z.of_nat (length bs)) then bs !!! Z.to_nat (k - a) else byte_at blk k.
Proof.
  intros Ha Hk. unfold byte_at, blit. rewrite !list_lookup_total_alt. f_equal. case_decide as Hd.
  - rewrite list_lookup_inserts by lia. by replace (Z.to_nat (k - a)) with (Z.to_nat k - Z.to_nat a)%nat by lia.
  - destruct (decide (k < a)); [rewrite list_lookup_inserts_lt by lia|rewrite list_lookup_inserts_ge by lia]; done.
Qed.

(** The store of one turn of the loop of writei(). *)
Lemma stored_block x off bs s s' :
  own_blocks s x -> (forall i, 0 <= i < i_size x -> mapped s x (i / BSIZE)) ->
  0 <= off -> (0 < length bs)%nat -> off + Z.of_nat (length bs) <= i_size x ->
  off mod BSIZE + Z.of_nat (length bs) <= BSIZE ->
  let n := fblock s x (off / BSIZE) in
  length (view s n) = Z.to_nat BSIZE -> outside s' = outside s ->
  (forall m, 0 <= m -> view s' m = if decide (m = n) then blit (Z.to_nat (off mod BSIZE)) bs (view s n) else view s m) ->
  (forall m, 0 <= m -> dblock s' m = if decide (m = n) then blit (Z.to_nat (off mod BSIZE)) bs (view s n) else dblock s m) ->
  stored x off bs s s'.
Proof.
  intros [I1 I2] Hm Ho Hlen Hfit Hblk n Hl Hout Hv Hdk.
  pose proof (Z.mod_pos_bound off BSIZE eq_refl) as Hmod. pose proof (Z.div_mod off BSIZE ltac:(done)) as Hdiv.
  assert (Hin : forall i, off <= i < off + Z.of_nat (length bs) -> i / BSIZE = off / BSIZE).
  { intros i Hi. symmetry. apply (Z.div_unique i BSIZE (off / BSIZE) (i - BSIZE * (off / BSIZE))); lia. }
  assert (Hf : forall i, 0 <= i < i_size x -> fblock s' x (i / BSIZE) = fblock s x (i / BSIZE)).
  { intros i Hi. unfold fblock. destruct (Z.ltb_spec (i / BSIZE) NDIRECT) as [|Hge]; [done|].
    destruct (Hm i Hi) as [_ _ M3]. specialize (M3 Hge). rewrite Hv by lia.
    rewrite decide_False; [done|]. intros E. by apply (I2 off i ltac:(lia) Hi Hge). }
  split; [done|done|..].
  - intros i Hi. unfold file_byte. rewrite Hf by done. destruct (Hm i Hi) as [_ M2 _]. rewrite Hv by lia.
    pose proof (Z.mod_pos_bound i BSIZE eq_refl) as Hmi. pose proof (Z.div_mod i BSIZE ltac:(done)) as Hdi.
    destruct (decide (fblock s x (i / BSIZE) = n)) as [E|E].
    + assert (Eb : i / BSIZE = off / BSIZE) by (apply I1; [done|lia|done]).
      rewrite byte_at_blit by (rewrite ?Hl; lia). rewrite Eb in Hdi |- *. fold n.
      repeat case_decide; try done; try lia. f_equal. lia.
    + rewrite decide_False; [done|]. intros Hc. apply E. unfold n. by rewrite (Hin i Hc).
  - intros m Hm0 Hne. assert (Hmn : m <> n) by (intros ->; by apply (Hne off); [lia|]).
    by rewrite Hv, Hdk, !decide_False.
  - intros i Hi. rewrite (Hin i Hi). fold n. destruct (Hm off ltac:(lia)) as [_ M2 _]. rewrite Hv, Hdk by (unfold n; lia).
    by case_decide.
Qed.

(** A file whose blocks are allocated is not larger than the largest file. *)
Lemma mapped_max s x :
  0 <= i_size x -> (forall i, 0 <= i < i_size x -> mapped s x (i / BSIZE)) -> i_size x <= MAXFILE * BSIZE.
Proof.
  intros H0 Hm. destruct (decide (i_size x = 0)) as [->|Hne]; [by vm_compute|].
  destruct (Hm (i_size x - 1) ltac:(lia)) as [[_ Hr] _ _].
  pose proof (Z.div_mod (i_size x - 1) BSIZE ltac:(done)). pose proof (Z.mod_pos_bound (i_size x - 1) BSIZE eq_refl).
  change BSIZE with 512 in *. lia.
Qed.

Lemma blit_file_bytes s s' x off bs :
  0 <= off -> off + Z.of_nat (length bs) <= i_size x ->
  (forall i, 0 <= i < i_size x ->
    file_byte s' x i = if decide (off <= i < off + Z.of_nat (length bs))
                       then bs !!! Z.to_nat (i - off) else file_byte s x i) ->
  file_bytes s' x 0 (i_size x) = blit (Z.to_nat off) bs (file_bytes s x 0 (i_size x)).
Proof.
  intros Ho Hfit Hb. assert (Hlen : forall s, length (file_bytes s x 0 (i_size x)) = Z.to_nat (i_size x)).
  { intros. unfold file_bytes. by rewrite length_fmap, length_seqZ. }
  apply list_eq_same_length with (n := Z.to_nat (i_size x)); [by rewrite length_blit|done|].
  intros k a b Hk Ha Hbk. pose proof (byte_at_blit off bs (file_bytes s x 0 (i_size x)) (Z.of_nat k) Ho) as Hbl.
  rewrite Hlen in Hbl. specialize (Hbl ltac:(lia)). unfold byte_at in Hbl. rewrite Nat2Z.id in Hbl.
  rewrite (list_lookup_total_correct _ _ _ Hbk) in Hbl. subst b.
  unfold file_bytes in Ha. rewrite list_lookup_fmap, lookup_seqZ_lt in Ha by lia. rewrite Z.add_0_l in Ha. simpl in Ha. injection Ha as <-.
  rewrite Hb by lia. case_decide; [done|]. symmetry. apply list_lookup_total_correct. unfold file_bytes.
  by rewrite list_lookup_fmap, lookup_seqZ_lt by lia.
Qed.

Section Writei.
Context (devsw : Z -> devsw_entry).

(** One turn of the loop. *)
Lemma wp_write_turn {A} s D ip x src off m (r0 : A) (k : M fsys A) Q :
  reading s D -> ino s ip = x -> i_dev x = 1 -> own_blocks s x ->
  (forall i, 0 <= i < i_size x -> mapped s x (i / BSIZE)) -> Forall is_byte src -> 0 <= off ->
  0 < m <= Z.of_nat (length src) -> off + m <= i_size x -> off mod BSIZE + m <= BSIZE ->
  (forall s', reading s' D -> stored x off (take (Z.to_nat m) src) s s' -> wp k Q s') ->
  wp (sector_number <- bmap ip (off / BSIZE) ;;
      if sector_number =? 0 then ret r0 else
      x <- gets (fun s => ino s ip) ;;
      bp <- bread (i_dev x) sector_number ;;
      upd_data bp (blit (Z.to_nat (off mod BSIZE)) (take (Z.to_nat m) src)) ;;
      bwrite bp ;; brelse bp ;; k) Q s.
Proof.
  intros Hr Hx Hdev Hown Hm Hby Ho Hmr Hfit Hblk Hk.
  assert (Mo : mapped s x (off / BSIZE)) by (apply Hm; lia).
  eapply wp_seq; [by apply (wp_bmap_mapped s D ip x)|]. intros r s1 (-> & R1 & Q1).
  pose proof (mp_block _ _ _ Mo) as Hb. rewrite (proj2 (Z.eqb_neq _ _)) by lia.
  apply wp_bind, wp_gets. rewrite (quiet_ino _ _ _ Q1), Hx, Hdev.
  pose proof (Z.mod_pos_bound off BSIZE eq_refl) as Hmod. pose proof (stored_quiet x off s s1 Q1 Hm) as S1.
  assert (Hl : length (take (Z.to_nat m) src) = Z.to_nat m) by (rewrite length_take; lia).
  assert (Hvok : block_ok (view s1 (fblock s x (off / BSIZE)))).
  { apply view_ok; [apply (rd_cache _ _ R1)|]. rewrite (quiet_size _ _ Q1). lia. }
  apply (rule_poke_block s1 D (fblock s x (off / BSIZE))).
  { done. } { rewrite (quiet_size _ _ Q1). lia. }
  { destruct Hvok. split; [by rewrite length_blit|]. apply blit_byte; [by apply Forall_take|done]. }
  intros s2 R2 O2 V2 D2. apply Hk; [done|].
  change (take (Z.to_nat m) src) with ([] ++ take (Z.to_nat m) src).
  eapply stored_trans; [done|simpl; lia|exact Hm|exact S1|]. rewrite Z.add_0_r.
  pose proof (st_map _ _ _ _ _ S1 off ltac:(lia)) as Hfb.
  apply stored_block; rewrite ?Hfb; rewrite ?Hl; auto; try lia.
  - by eapply stored_own.
  - intros i Hi. eapply stored_mapped; [exact S1|done|auto].
  - apply Hvok.
Qed.

Lemma wp_writei_loop fuel s D ip x src off n tot :
  reading s D -> ino s ip = x -> i_dev x = 1 -> own_blocks s x ->
  (forall i, 0 <= i < i_size x -> mapped s x (i / BSIZE)) -> i_size x < 2 ^ 31 ->
  0 <= off -> 0 <= tot -> Z.of_nat (length src) = n - tot -> off + (n - tot) <= i_size x -> Forall is_byte src ->
  (0 < fuel)%nat -> tot = n \/ off mod BSIZE + (n - tot) <= (Z.of_nat fuel - 1) * BSIZE ->
  wp (writei_loop fuel ip src off n tot) (fun r s' =>
    r = (n, off + (n - tot)) /\ reading s' D /\ stored x off src s s') s.
Proof.
  revert s src off tot. induction fuel as [|fuel IH];
    intros s src off tot Hr Hx Hdev Hown Hm Hsz Ho Ht Hlen Hfit Hby Hf Hfu; [lia|]. cbn [writei_loop].
  destruct (Z.ltb_spec tot n) as [Hn|Hn]; cbn [negb].
  2: { apply wp_ret. destruct src; [|simpl in Hlen; lia]. split_and!; [f_equal; simpl in Hlen; lia|done|].
       by apply stored_quiet. }
  destruct (turn_fuel fuel off n tot Hn Hfu) as [Hf' Hfu']. cbv zeta in *.
  set (m := Z.min (n - tot) (BSIZE - off mod BSIZE)) in *.
  pose proof (Z.mod_pos_bound off BSIZE eq_refl) as Hmod.
  assert (Hmr : 0 < m <= n - tot /\ m <= BSIZE - off mod BSIZE) by (unfold m; lia).
  apply (wp_write_turn s D ip x src off m); auto; [lia..|]. intros s2 R2 S2.
  unfold u32. rewrite (Z.mod_small (off + m)) by lia.
  assert (Hl : length (take (Z.to_nat m) src) = Z.to_nat m) by (rewrite length_take; lia).
  eapply wp_mono; [apply (IH s2 (drop (Z.to_nat m) src) (off + m) (tot + m)); auto; try lia|].
  - by rewrite (outside_ino _ _ _ (st_out _ _ _ _ _ S2)).
  - by eapply stored_own.
  - intros i Hi. eapply stored_mapped; [exact S2|done|auto].
  - rewrite length_drop. lia.
  - by apply Forall_drop.
  - intros r s3 (-> & R3 & S3). split_and!; [f_equal; lia|done|].
    rewrite <- (take_drop (Z.to_nat m) src). eapply stored_trans; [done| |exact Hm|exact S2|].
    + rewrite Hl, length_drop. lia.
    + rewrite Hl, Z2Nat.id by lia. done.
Qed.

(** C35. writei() inside a file replaces exactly the bytes of the range, across direct and
    indirect blocks, and returns their number. The blocks of the range are on the disk, with
    their new contents, when it returns, because writei() writes them with bwrite() and not
    with log_write(); the header of the log stays as it was, so that a transaction that is
    open does not cover them. The other bytes of the file and the other blocks, in the cache
    and on the disk, keep their contents, and so do the inodes. *)
Theorem writei_correct s D ip src off :
  let x := ino s ip in
  let n := Z.of_nat (length src) in
  reading s D -> regular s x -> own_blocks s x -> Forall is_byte src -> 0 <= off -> off + n <= i_size x ->
  wp (writei devsw ip src off n) (fun r s' =>
    r = n /\ reading s' D /\ outside s' = outside s /\
    file_bytes s' x 0 (i_size x) = blit (Z.to_nat off) src (file_bytes s x 0 (i_size x)) /\
    fslog s' = fslog s /\
    (forall i, off <= i < off + n ->
       dblock s' (fblock s x (i / BSIZE)) = view s' (fblock s x (i / BSIZE))) /\
    forall m, 0 <= m -> (forall i, off <= i < off + n -> m <> fblock s x (i / BSIZE)) ->
      view s' m = view s m /\ dblock s' m = dblock s m) s.
Proof.
  intros x n Hr [[T1 T2] Hdev Hsz Hm] Hown Hby Ho Hfit. unfold writei. apply wp_bind, wp_gets. fold x.
  assert (Hmax : i_size x <= MAXFILE * BSIZE) by (apply (mapped_max s); [lia|done]).
  assert (Hmb : MAXFILE * BSIZE < 2 ^ 31) by (vm_compute; done).
  rewrite (proj2 (Z.eqb_neq _ _) T1), (proj2 (Z.eqb_neq _ _) T2). rewrite (proj2 (Z.ltb_ge _ _)) by lia.
  unfold u32. rewrite Z.mod_small by lia. rewrite (proj2 (Z.ltb_ge _ _)) by lia. cbn [orb].
  rewrite (proj2 (Z.ltb_ge (MAXFILE * BSIZE) _)) by lia. cbn [andb].
  pose proof (Z.mod_pos_bound off BSIZE eq_refl) as Hmod.
  pose proof (Z.div_mod n BSIZE ltac:(done)) as Hdm. pose proof (Z.mod_pos_bound n BSIZE eq_refl).
  assert (0 <= n / BSIZE) by (apply Z.div_pos; [lia|done]).
  eapply wp_seq; [apply (wp_writei_loop (copy_fuel n) s D ip x); auto; try lia|].
  - unfold copy_fuel. lia.
  - right. unfold copy_fuel. change BSIZE with 512 in *. lia.
  - intros r s' (-> & R & S). rewrite Z.sub_0_r. apply wp_bind, wp_gets.
    rewrite (outside_ino _ _ _ (st_out _ _ _ _ _ S)). fold x. rewrite (proj2 (Z.eqb_neq _ _) T2).
    rewrite (proj2 (Z.ltb_ge (i_size x) _)) by lia. rewrite andb_false_r. apply wp_bind, wp_ret, wp_ret.
    destruct S as [S1 S2 S3 S4 S5]. split_and!; auto; [by apply blit_file_bytes|].
    by apply (outside_log _ _ S1).
Qed.
End Writei.
