(* ===== verification/PathSpec.v ===== *)
(** Path names: skipelem() takes a path apart into its elements. *)

From S2P Require Export FileSpec.

(** The elements of a path: the maximal runs of bytes other than '/'. *)
Fixpoint elems_from (cur : list Z) (path : list Z) : list (list Z) :=
  match path with
  | [] => match cur with [] => [] | _ => [cur] end
  | c :: p =>
      if c =? SLASH then
        match cur with [] => elems_from [] p | _ => cur :: elems_from [] p end
      else elems_from (cur ++ [c]) p
  end.

Definition elems (path : list Z) : list (list Z) := elems_from [] path.

Lemma elems_skip_slashes path : elems (skip_slashes path) = elems path.
Proof.
  induction path as [|c p IH]; [done|]. cbn [skip_slashes]. unfold elems in *. cbn [elems_from].
  destruct (Z.eqb_spec c SLASH); [done|]. cbn [elems_from].
  by rewrite (proj2 (Z.eqb_neq c SLASH)).
Qed.

Lemma elems_take_elem cur path e r :
  take_elem path = (e, r) -> cur ++ e <> [] -> elems_from cur path = (cur ++ e) :: elems r.
Proof.
  revert cur e r. induction path as [|c p IH]; intros cur e r Ht Hne; simpl in Ht.
  - simplify_eq. rewrite app_nil_r in *. by destruct cur.
  - cbn [elems_from]. destruct (Z.eqb_spec c SLASH) as [->|Hc].
    + simplify_eq. rewrite app_nil_r in *. unfold elems. cbn [elems_from].
      rewrite Z.eqb_refl. by destruct cur.
    + destruct (take_elem p) as [e' r'] eqn:Ep. simplify_eq.
      rewrite (IH (cur ++ [c]) e' r eq_refl); [by rewrite <- app_assoc|]. by destruct cur.
Qed.

Lemma take_elem_length path e r :
  take_elem path = (e, r) -> (length e + length r)%nat = length path.
Proof.
  revert e r. induction path as [|c p IH]; intros e r Ht; simpl in Ht; [by simplify_eq|].
  destruct (c =? SLASH); [by simplify_eq|]. destruct (take_elem p) as [e' r'] eqn:Ep. simplify_eq.
  simpl. rewrite <- (IH e' r eq_refl). lia.
Qed.

Lemma take_elem_nonnul path e r :
  take_elem path = (e, r) -> Forall (fun c => c <> 0) path ->
  Forall (fun c => c <> 0) e /\ Forall (fun c => c <> 0) r.
Proof.
  revert e r. induction path as [|c p IH]; intros e r Ht Hn; simpl in Ht; [by simplify_eq|].
  apply Forall_cons in Hn as [Hc Hn]. destruct (c =? SLASH).
  - simplify_eq. split; [constructor|by constructor].
  - destruct (take_elem p) as [e' r'] eqn:Ep. simplify_eq. destruct (IH e' r eq_refl Hn).
    split; [by constructor|done].
Qed.

Lemma skip_slashes_head path c p : skip_slashes path = c :: p -> c <> SLASH.
Proof.
  induction path as [|d q IH]; [done|]. cbn [skip_slashes]. destruct (Z.eqb_spec d SLASH) as [->|Hd];
    [exact IH|]. intros [= -> ->]. done.
Qed.

Lemma skip_slashes_length path : (length (skip_slashes path) <= length path)%nat.
Proof.
  induction path as [|d q IH]; [done|]. cbn [skip_slashes]. destruct (d =? SLASH); simpl; lia.
Qed.

Lemma skip_slashes_nonnul path :
  Forall (fun c => c <> 0) path -> Forall (fun c => c <> 0) (skip_slashes path).
Proof.
  induction 1 as [|c p Hc Hp IH]; [constructor|]. cbn [skip_slashes].
  destruct (c =? SLASH); [done|by constructor].
Qed.

(** A path without leading slashes is empty exactly when it has no element left. *)
Lemma elems_nil path : elems (skip_slashes path) = [] -> skip_slashes path = [].
Proof.
  destruct (skip_slashes path) as [|c p] eqn:E; [done|]. intros He. exfalso.
  pose proof (skip_slashes_head _ _ _ E) as Hc. destruct (take_elem (c :: p)) as [e r] eqn:Et.
  unfold elems in He. rewrite (elems_take_elem [] (c :: p) e r) in He; [done|done|].
  simpl in *. rewrite (proj2 (Z.eqb_neq c SLASH)) in Et by done.
  destruct (take_elem p). by simplify_eq.
Qed.

(** The name that fits the DIRSIZ bytes of an entry. *)
Lemma cname_short n e rest :
  Forall (fun c => c <> 0) e -> (length e < n)%nat -> cname n (e ++ 0 :: rest) = e.
Proof.
  intros He. revert n. induction He as [|c e Hc He IH]; intros [|n] Hn; simpl in *; try lia; [done|].
  rewrite (proj2 (Z.eqb_neq c 0)) by done. f_equal. apply IH. lia.
Qed.

Lemma cname_full n e : Forall (fun c => c <> 0) e -> length e = n -> cname n e = e.
Proof.
  intros He <-. induction He as [|c e Hc He IH]; [done|]. simpl.
  rewrite (proj2 (Z.eqb_neq c 0)) by done. by rewrite IH.
Qed.

Lemma blit_0 src bs : (length src <= length bs)%nat -> blit 0 src bs = src ++ drop (length src) bs.
Proof.
  intros H. unfold blit. rewrite <- (take_drop (length src) bs) at 1.
  apply list_inserts_0_r. by rewrite length_take_le.
Qed.

(** skipelem() takes the first element off a path. It returns null exactly when the path
    has no element; otherwise the buffer holds the element, cut to DIRSIZ bytes, the rest of
    the path has the other elements, is shorter, and is empty exactly when the element was the
    last one. *)
Theorem skipelem_correct path name :
  Forall (fun c => c <> 0) path -> length name = Z.to_nat DIRSIZ ->
  match skipelem path name, elems path with
  | None, [] => True
  | Some (path', name'), e :: es =>
      elems path' = es /\ (path' = [] <-> es = []) /\ (length path' < length path)%nat /\
      length name' = Z.to_nat DIRSIZ /\
      cname (Z.to_nat DIRSIZ) name' = take (Z.to_nat DIRSIZ) e
  | _, _ => False
  end.
Proof.
  intros Hn Hname. unfold skipelem. rewrite <- (elems_skip_slashes path).
  pose proof (skip_slashes_length path) as Hlen. pose proof (skip_slashes_nonnul path Hn) as Hnn.
  destruct (skip_slashes path) as [|c p] eqn:E; [done|].
  pose proof (skip_slashes_head _ _ _ E) as Hc. destruct (take_elem (c :: p)) as [e r] eqn:Et.
  assert (Hne : e <> []).
  { simpl in Et. rewrite (proj2 (Z.eqb_neq c SLASH)) in Et by done. destruct (take_elem p).
    by simplify_eq. }
  unfold elems at 1. rewrite (elems_take_elem [] (c :: p) e r) by done. simpl app.
  destruct (take_elem_nonnul _ _ _ Et Hnn) as [Hen _]. pose proof (take_elem_length _ _ _ Et) as Htl.
  pose proof (skip_slashes_length r) as Hsr. change (Z.to_nat DIRSIZ) with 14%nat in *.
  split_and!.
  - apply elems_skip_slashes.
  - split; [intros Hs; by rewrite <- elems_skip_slashes, Hs|].
    rewrite <- elems_skip_slashes. apply elems_nil.
  - assert (length e <> 0%nat) by (by destruct e). lia.
  - change DIRSIZ with 14. destruct (14 <=? Z.of_nat (length e));
      rewrite ?length_insert, ?length_blit; done.
  - change DIRSIZ with 14. destruct (Z.leb_spec 14 (Z.of_nat (length e))) as [Hl|Hl].
    + rewrite blit_0 by (rewrite length_take; lia). rewrite length_take_le by lia.
      rewrite drop_ge, app_nil_r by lia. apply cname_full; [by apply Forall_take|].
      rewrite length_take. lia.
    + rewrite blit_0 by lia. rewrite take_ge by lia.
      destruct (drop (length e) name) as [|x rest] eqn:Ed.
      { apply (f_equal length) in Ed. rewrite length_drop in Ed. simpl in Ed. lia. }
      rewrite insert_app_r_alt by lia. rewrite Nat.sub_diag. cbn [insert list_insert].
      apply cname_short; [done|lia].
Qed.

Lemma skipelem_correct_witness :
  skipelem [47; 47; 97; 47; 47; 98; 98] (replicate 14 7) =
    Some ([98; 98], [97; 0] ++ replicate 12 7) /\
  elems [47; 47; 97; 47; 47; 98; 98] = [[97]; [98; 98]] /\
  match skipelem [47; 47; 97; 47; 47; 98; 98] (replicate 14 7), elems [47; 47; 97; 47; 47; 98; 98] with
  | None, [] => True
  | Some (path', name'), e :: es =>
      elems path' = es /\ (path' = [] <-> es = []) /\
      (length path' < length [47; 47; 97; 47; 47; 98; 98])%nat /\
      length name' = Z.to_nat DIRSIZ /\
      cname (Z.to_nat DIRSIZ) name' = take (Z.to_nat DIRSIZ) e
  | _, _ => False
  end.
Proof.
  split; [reflexivity|]. split; [reflexivity|].
  apply skipelem_correct; [repeat constructor; discriminate|reflexivity].
Defined.
