(* ===== verification/Namei.v ===== *)
(** namei() and nameiparent(): a path name is resolved to the inode that the directories on the
    disk lead to, and the references of the inode cache are counted exactly. *)

From S2P Require Export PathSpec.

Open Scope Z_scope.
Open Scope kernel_scope.

(** *** States with the same files *)

(** What the file system shows is the same: the blocks and the superblock. *)
Record still (s s' : fsys) : Prop := mkStill {
  st_view : forall m, 0 <= m -> view s' m = view s m;
  st_sb : sb s' = sb s;
  st_disk : memdisk s' = memdisk s;
  st_trace : wtrace s' = wtrace s;
}.

Lemma still_refl s : still s s.
Proof. done. Qed.
Lemma still_after s1 s2 s3 : still s1 s2 -> still s2 s3 -> still s1 s3.
Proof. intros [V1 B1 M1 T1] [V2 B2 M2 T2]. split; [|congruence..]. intros m Hm. by rewrite V2, V1. Qed.
Lemma quiet_still s s' : quiet s s' -> still s s'.
Proof. intros [V O M T]. unfold outside in O. split; [done|congruence..]. Qed.
Lemma still_size s s' : still s s' -> disksize s' = disksize s.
Proof. intros [_ _ M _]. unfold disksize. by rewrite M. Qed.
Lemma still_upd s ip f : still s (upd_ino ip f s).
Proof. done. Qed.
#[export] Hint Resolve still_refl still_after quiet_still still_upd : fsdb.

Lemma reading_upd s ip f D : reading s D -> reading (upd_ino ip f s) D.
Proof. intros [H1 H2]. split; [|done]. by apply cache_set_icache. Qed.

Lemma cache_woken w s H D : cache s H D -> cache (set_woken w s) H D.
Proof.
  intros [[? ? ? Hb ? ?] ? ?]. split; [split; try done|done|done].
  intros b Hlt. by destruct (Hb b Hlt).
Qed.

(** *** The inodes on the disk *)

Definition node (s : fsys) (i : Z) : inode :=
  dinode_of s i (mkInode 1 i 0 initsleeplock 0 0 0 0 0 0 []).

(** An inode in memory has the contents of the disk. *)
Definition fresh (s : fsys) (x : inode) : Prop := dinode_of s (i_inum x) x = x.

(** The fields other than those that only memory has. *)
Definition same_disk (x y : inode) : Prop :=
  i_inum x = i_inum y /\ i_type x = i_type y /\ i_major x = i_major y /\ i_minor x = i_minor y /\
  i_nlink x = i_nlink y /\ i_size x = i_size y /\ i_addrs x = i_addrs y.

Lemma fresh_same s x y : same_disk x y -> fresh s x -> fresh s y.
Proof.
  destruct x, y. unfold same_disk, fresh, dinode_of, get_dinode. simpl. intros (-> & -> & -> & -> & -> & -> & ->).
  intros H. by injection H as -> -> -> -> -> ->.
Qed.

Lemma fresh_dinode s i x : i_inum x = i -> fresh s (dinode_of s i x).
Proof. intros <-. done. Qed.

Lemma fblock_ext s x y bn : i_addrs x = i_addrs y -> fblock s x bn = fblock s y bn.
Proof. intros H. unfold fblock, i_addr. by rewrite H. Qed.

Lemma still_fblock s s' x bn :
  still s s' -> (NDIRECT <= bn -> 0 <= i_addr x NDIRECT) -> fblock s' x bn = fblock s x bn.
Proof.
  intros Q H. unfold fblock. destruct (Z.ltb_spec bn NDIRECT); [done|].
  rewrite (st_view _ _ Q); auto.
Qed.

Lemma still_mapped s s' x y bn :
  still s s' -> i_addrs x = i_addrs y -> mapped s x bn -> mapped s' y bn.
Proof.
  intros Q E [H1 H2 H3]. pose proof (still_size _ _ Q) as Hd.
  assert (Ha : i_addr y NDIRECT = i_addr x NDIRECT) by (unfold i_addr; by rewrite E).
  split; rewrite ?Hd, ?Ha; auto.
  rewrite <- (fblock_ext s' x y) by done.
  rewrite (still_fblock s) by (done || (intros; apply Z.lt_le_incl, H3; done)). done.
Qed.

(** What dirlookup() depends on. *)
Definition same_file (x y : inode) : Prop :=
  i_dev x = i_dev y /\ i_type x = i_type y /\ i_size x = i_size y /\ i_addrs x = i_addrs y.

Lemma still_directory s s' x y : still s s' -> same_file x y -> directory s x -> directory s' y.
Proof.
  intros Q (E1 & E2 & E3 & E4) [T [R1 R2 R3 R4] Z0].
  split; [congruence| |congruence]. split; [congruence..|].
  intros i Hi. apply (still_mapped s s' x); [done..|]. apply R4. lia.
Qed.

Lemma still_find s s' x y name :
  still s s' -> same_file x y -> directory s x -> dir_find s' y name = dir_find s x name.
Proof.
  intros Q (E1 & E2 & E3 & E4) [T [R1 R2 R3 R4] Z0]. unfold dir_find. f_equal. unfold entries.
  rewrite <- E3. apply list_fmap_ext. intros j k [-> Hk]%lookup_seq. unfold entry, file_bytes.
  apply list_fmap_ext. intros j' i [-> Hi]%lookup_seqZ. unfold file_byte.
  change sizeof_dirent with 16 in *.
  pose proof (Z.div_mod (i_size x) 16 ltac:(done)) as Hdm.
  destruct (R4 (Z.of_nat (0 + j) * 16 + Z.of_nat j')) as [M1 M2 M3]; [lia|].
  rewrite <- (fblock_ext s' x y) by done.
  rewrite (still_fblock s s') by (done || (intros; apply Z.lt_le_incl, M3; done)).
  rewrite (st_view _ _ Q); [done|lia].
Qed.

(** *** Counting references *)

(** The references to inode [i] of the root device, and the entries of the cache in use. *)
Definition weight (i : Z) (x : inode) : Z := if decide (i_dev x = 1 /\ i_inum x = i) then i_ref x else 0.
Definition in_use (x : inode) : Z := if i_ref x =? 0 then 0 else 1.
Definition total (f : inode -> Z) (s : fsys) : Z := foldr Z.add 0 (f <$> icache s).
Definition refs (s : fsys) (i : Z) : Z := total (weight i) s.
Definition busy (s : fsys) : Z := total in_use s.

Lemma sum_insert (f : inode -> Z) l ip x y :
  l !! ip = Some x ->
  foldr Z.add 0 (f <$> <[ip := y]> l) = foldr Z.add 0 (f <$> l) - f x + f y.
Proof.
  revert ip. induction l as [|z l IH]; intros [|ip] Hx; simplify_eq/=; [lia|].
  rewrite (IH ip) by done. lia.
Qed.

(** One entry has changed. *)
Definition changed_at (ip : nat) (s s' : fsys) : Prop :=
  length (icache s') = length (icache s) /\ (ip < length (icache s))%nat /\
  forall jp, jp <> ip -> ino s' jp = ino s jp.

Lemma changed_icache ip s s' : changed_at ip s s' -> icache s' = <[ip := ino s' ip]> (icache s).
Proof.
  intros (Hl & Hip & Ho). apply list_eq. intros jp.
  destruct (decide (jp < length (icache s))%nat) as [Hj|Hj].
  - destruct (decide (jp = ip)) as [->|Hne].
    + rewrite list_lookup_insert_eq by done. unfold ino. apply list_lookup_lookup_total_lt. lia.
    + rewrite list_lookup_insert_ne by done. specialize (Ho jp Hne). unfold ino in Ho.
      rewrite !list_lookup_lookup_total_lt by lia. by rewrite Ho.
  - rewrite !lookup_ge_None_2; [done|rewrite length_insert; lia|lia].
Qed.

Lemma total_changed f ip s s' :
  changed_at ip s s' -> total f s' = total f s - f (ino s ip) + f (ino s' ip).
Proof.
  intros Hc. unfold total. rewrite (changed_icache ip s s' Hc).
  apply sum_insert. unfold ino. apply list_lookup_lookup_total_lt. apply Hc.
Qed.

Lemma changed_upd ip f s : (ip < length (icache s))%nat -> changed_at ip s (upd_ino ip f s).
Proof.
  intros H. split_and!; [unfold upd_ino; simpl; by rewrite length_alter|done|].
  intros jp Hj. by apply ino_upd_ne.
Qed.

(** An entry is free when not all are in use. *)
Lemma busy_free s :
  busy s < Z.of_nat (length (icache s)) -> exists ip, (ip < length (icache s))%nat /\ i_ref (ino s ip) = 0.
Proof.
  unfold busy, total, ino. generalize (icache s) as l.
  induction l as [|x l IH]; intros H; [simpl in H; lia|]. cbn [fmap list_fmap foldr length] in *.
  destruct (decide (i_ref x = 0)) as [E|E]; [exists 0%nat; simpl; split; [lia|done]|].
  unfold in_use at 1 in H. rewrite (proj2 (Z.eqb_neq _ _) E) in H.
  destruct IH as (ip & Hip & Hr); [unfold fmap in *; lia|]. exists (S ip). split; [simpl; lia|done].
Qed.

(** *** The invariant *)

Definition unlocked (x : inode) : Prop := sl_locked (i_lock x) = 0 /\ sl_lk (i_lock x) = false.

(** The cache may be used for the inodes of [U], which nobody has locked. *)
Record names_ok (U : Z -> Prop) (D : list Z) (s : fsys) : Prop := {
  no_read : reading s D;
  no_ic : ic_wf s;
  no_blocks : forall i, 0 <= i < sb_ninodes (sb s) ->
    IBLOCK i (sb s) = iblock s i /\ 0 <= iblock s i < disksize s;
  no_free : forall ip, (ip < Z.to_nat NINODE)%nat ->
    i_ref (ino s ip) = 0 \/ i_dev (ino s ip) = 1 /\ U (i_inum (ino s ip)) -> unlocked (ino s ip);
  no_fresh : forall ip, (ip < Z.to_nat NINODE)%nat -> 0 < i_ref (ino s ip) -> i_dev (ino s ip) = 1 ->
    U (i_inum (ino s ip)) -> Z.land (i_flags (ino s ip)) I_VALID <> 0 ->
    0 <= i_inum (ino s ip) < sb_ninodes (sb s) /\ fresh s (ino s ip);
}.

Lemma still_iblock s s' i : still s s' -> iblock s' i = iblock s i.
Proof. intros Q. unfold iblock. by rewrite (st_sb _ _ Q). Qed.

Lemma still_dinode s s' i x : still s s' -> 0 <= iblock s i -> dinode_of s' i x = dinode_of s i x.
Proof. intros Q H. unfold dinode_of. by rewrite (still_iblock s s'), (st_view _ _ Q) by done. Qed.

(** A step that changes one entry. *)
Lemma names_ok_changed U D s s' ip :
  names_ok U D s -> still s s' -> reading s' D -> ic_wf s' -> changed_at ip s s' ->
  (i_ref (ino s' ip) = 0 \/ i_dev (ino s' ip) = 1 /\ U (i_inum (ino s' ip)) -> unlocked (ino s' ip)) ->
  (0 < i_ref (ino s' ip) -> i_dev (ino s' ip) = 1 -> U (i_inum (ino s' ip)) ->
    Z.land (i_flags (ino s' ip)) I_VALID <> 0 ->
    0 <= i_inum (ino s' ip) < sb_ninodes (sb s) /\ fresh s (ino s' ip)) ->
  names_ok U D s'.
Proof.
  intros [N1 N2 N3 N4 N5] Q Hr Hic (Hl & _ & Ho) Hu Hf.
  assert (Hfr : forall x, 0 <= i_inum x < sb_ninodes (sb s) /\ fresh s x ->
    0 <= i_inum x < sb_ninodes (sb s') /\ fresh s' x).
  { intros x [Hi Hx]. rewrite (st_sb _ _ Q). split; [done|]. unfold fresh in *.
    rewrite (still_dinode s s'); [done|done|]. apply N3, Hi. }
  split; auto.
  - intros i Hi. rewrite (st_sb _ _ Q) in *. rewrite (still_iblock s s'), (still_size s s') by done. auto.
  - intros jp Hjp. destruct (decide (jp = ip)) as [->|Hne]; [done|]. rewrite Ho by done. auto.
  - intros jp Hjp. destruct (decide (jp = ip)) as [->|Hne]; [auto|]. rewrite Ho by done. auto.
Qed.

(** *** iget(), idup() and iput() *)

Definition one (r : Z) : Z := if r =? 1 then 1 else 0.
Definition at_ (k i : Z) : Z := if decide (k = i) then 1 else 0.

Lemma icache_only s s' D :
  set_icache [] s' = set_icache [] s -> still s s' /\ (reading s D -> reading s' D).
Proof.
  intros E. assert (Hs : s' = set_icache (icache s') s).
  { destruct s, s'. unfold set_icache in *. simpl in *. congruence. }
  rewrite Hs. split; [done|]. intros [H1 H2]. split; [|done]. by apply cache_set_icache.
Qed.

Lemma weight_at k i x : i_dev x = 1 -> i_inum x = i -> weight k x = at_ k i * i_ref x.
Proof. intros H1 H2. unfold weight, at_. repeat case_decide; destruct_and?; subst; try lia; tauto. Qed.
Lemma weight_0 k x : i_ref x = 0 -> weight k x = 0.
Proof. intros H. unfold weight. by case_decide. Qed.

(** What iget() does to the counts. *)
Record gets_ref (i : Z) (s : fsys) (q : nat) (s' : fsys) : Prop := mkGetsRef {
  gr_entry : (q < Z.to_nat NINODE)%nat;
  gr_dev : i_dev (ino s' q) = 1;
  gr_inum : i_inum (ino s' q) = i;
  gr_ref : i_ref (ino s' q) = i_ref (ino s q) + 1 /\ 0 <= i_ref (ino s q);
  gr_other : forall jp, jp <> q -> ino s' jp = ino s jp;
  gr_same : 0 < i_ref (ino s q) -> ino s' q = i_set_ref (i_ref (ino s q) + 1) (ino s q);
  gr_refs : forall k, refs s' k = refs s k + at_ k i;
  gr_busy : busy s' - one (i_ref (ino s' q)) = busy s;
}.

Lemma wp_iget U D s i :
  names_ok U D s -> busy s < NINODE ->
  wp (iget 1 i) (fun q s' => names_ok U D s' /\ still s s' /\ gets_ref i s q s') s.
Proof.
  intros HN Hb. pose proof (no_ic _ _ _ HN) as Hic. pose proof (ic_len _ Hic) as Hlen.
  pose proof (iget_run s 1 i Hic) as Hg. unfold wp.
  destruct (iget 1 i s) as [q s'|e|c s'|]; simpl in Hg; [|exfalso|done|done].
  2: { destruct Hg as [_ Hno]. destruct (busy_free s) as (ip & Hip & Hr); [rewrite Hlen; unfold NINODE in *; lia|].
       destruct (Hno ip) as [? _]; [lia|done]. }
  destruct Hg as (Hq & Hic' & Hd & Hi & [Hr Hc] & Ho & He).
  destruct (icache_only s s' D He) as [Hst Hrd]. pose proof (ic_ref s Hic q Hq) as Hr0.
  assert (Hch : changed_at q s s') by (split_and!; [by rewrite Hlen, (ic_len _ Hic')|lia|done]).
  assert (Hsame : 0 < i_ref (ino s q) -> ino s' q = i_set_ref (i_ref (ino s q) + 1) (ino s q)) by (intros; lia || naive_solver lia).
  split_and!; [|done|split; auto].
  - apply (names_ok_changed U D s s' q); auto; [apply Hrd, HN|..];
      destruct Hc as [[E Hp]|(H0 & Hf & Hlk & _)].
    + rewrite E. unfold unlocked. simpl. intros [H|H]; [lia|]. apply (no_free _ _ _ HN); auto.
    + intros _. unfold unlocked. rewrite Hlk. apply (no_free _ _ _ HN); auto.
    + rewrite E. simpl. intros _ H1 H2 H3. destruct (no_fresh _ _ _ HN q) as [F1 F2]; auto.
      split; [done|]. by apply (fresh_same s (ino s q)).
    + rewrite Hf. by rewrite Z.land_0_l.
  - intros k. unfold refs. rewrite (total_changed _ q s s' Hch), (weight_at k i (ino s' q)) by done.
    destruct Hc as [[E Hp]|(H0 & _)].
    + rewrite E in Hd, Hi. simpl in Hd, Hi. rewrite (weight_at k i (ino s q)) by done. lia.
    + rewrite weight_0 by done. lia.
  - unfold busy. rewrite (total_changed _ q s s' Hch). unfold in_use, one. rewrite Hr.
    destruct (Z.eqb_spec (i_ref (ino s q)) 0), (Z.eqb_spec (i_ref (ino s q) + 1) 0), (Z.eqb_spec (i_ref (ino s q) + 1) 1); lia.
Qed.

(** The critical sections of idup() and iput(). *)
Lemma wp_icache_section s ip f (Q : unit -> fsys -> Prop) :
  ic_lock s = false -> Q tt (upd_ino ip f s) ->
  wp (upd_inode ip f ;; release icache_lock) Q (lset icache_lock true s).
Proof. intros Hl HQ. destruct s. simpl in Hl. subst. exact HQ. Qed.

(** The count of an entry in use changes. *)
Lemma ref_changed U D s ip i r :
  names_ok U D s -> (ip < Z.to_nat NINODE)%nat -> 0 < i_ref (ino s ip) -> 0 <= r ->
  i_dev (ino s ip) = 1 -> i_inum (ino s ip) = i -> U i ->
  let s' := upd_ino ip (fun x => i_set_ref r x) s in
  names_ok U D s' /\ still s s' /\ changed_at ip s s' /\ ino s' ip = i_set_ref r (ino s ip) /\
  (forall k, refs s' k = refs s k + at_ k i * (r - i_ref (ino s ip))) /\
  busy s' = busy s - (if r =? 0 then 1 else 0).
Proof.
  intros HN Hip Hr Hr' Hd Hi HU s'. pose proof (no_ic _ _ _ HN) as Hic. pose proof (ic_len _ Hic) as Hlen.
  assert (Hch : changed_at ip s s') by (apply changed_upd; lia).
  assert (He : ino s' ip = i_set_ref r (ino s ip)) by (subst s'; apply ino_upd_eq; lia).
  assert (Hst : still s s') by done. split_and!; auto.
  - apply (names_ok_changed U D s s' ip); auto.
    + apply reading_upd, HN.
    + apply ic_wf_upd; auto; simpl. intros _ jp Hjp Hne. apply not_true_is_false.
      intros (R' & D' & I')%caches_inode_true. apply Hne. apply (ic_uniq s Hic); auto; lia || congruence.
    + rewrite He. simpl. intros _. apply (no_free _ _ _ HN ip Hip). right. by rewrite Hd, Hi.
    + rewrite He. simpl. intros _ _ _ Hv. destruct (no_fresh _ _ _ HN ip) as [F1 F2]; auto; [by rewrite Hi|].
      split; [done|]. by apply (fresh_same s (ino s ip)).
  - intros k. unfold refs. rewrite (total_changed _ ip s s' Hch), !(weight_at k i) by (rewrite ?He; done).
    rewrite He. simpl. lia.
  - unfold busy. rewrite (total_changed _ ip s s' Hch), He. unfold in_use. simpl.
    rewrite (proj2 (Z.eqb_neq (i_ref (ino s ip)) 0)) by lia. destruct (r =? 0); lia.
Qed.

Lemma wp_iput U D s ip i :
  names_ok U D s -> (ip < Z.to_nat NINODE)%nat -> 0 < i_ref (ino s ip) ->
  i_dev (ino s ip) = 1 -> i_inum (ino s ip) = i -> U i -> i_nlink (node s i) <> 0 ->
  wp (iput ip) (fun _ s' => names_ok U D s' /\ still s s' /\ changed_at ip s s' /\
    ino s' ip = i_set_ref (i_ref (ino s ip) - 1) (ino s ip) /\
    (forall k, refs s' k = refs s k - at_ k i) /\ busy s' = busy s - one (i_ref (ino s ip))) s.
Proof.
  intros HN Hip Hr Hd Hi HU Hnl. pose proof (no_ic _ _ _ HN) as Hic.
  unfold iput. apply wp_bind, wp_acquire; [apply Hic|]. apply wp_bind, wp_gets.
  change (ino (lset icache_lock true s) ip) with (ino s ip).
  assert (Hc : (i_ref (ino s ip) =? 1) && negb (Z.land (i_flags (ino s ip)) I_VALID =? 0) && (i_nlink (ino s ip) =? 0) = false).
  { destruct (Z.eqb_spec (Z.land (i_flags (ino s ip)) I_VALID) 0) as [|Hv]; [by rewrite andb_false_r|].
    destruct (no_fresh _ _ _ HN ip) as [_ Hf]; try done; [by rewrite Hi|].
    apply andb_false_iff. right. apply Z.eqb_neq. unfold fresh in Hf. rewrite <- Hf, Hi. done. }
  rewrite Hc. cbn [when]. apply wp_bind, wp_ret, wp_icache_section; [apply Hic|].
  rewrite (upd_ino_ext s ip _ (fun x => i_set_ref (i_ref (ino s ip) - 1) x)) by done.
  destruct (ref_changed U D s ip i (i_ref (ino s ip) - 1)) as (H1 & H2 & H3 & H4 & H5 & H6); auto; [lia|].
  split_and!; auto.
  - intros k. rewrite H5. lia.
  - rewrite H6. unfold one. destruct (Z.eqb_spec (i_ref (ino s ip) - 1) 0), (Z.eqb_spec (i_ref (ino s ip)) 1); lia.
Qed.

Lemma wp_idup U D s ip i :
  names_ok U D s -> (ip < Z.to_nat NINODE)%nat -> 0 < i_ref (ino s ip) ->
  i_dev (ino s ip) = 1 -> i_inum (ino s ip) = i -> U i ->
  wp (idup ip) (fun q s' => q = ip /\ names_ok U D s' /\ still s s' /\ gets_ref i s ip s') s.
Proof.
  intros HN Hip Hr Hd Hi HU. pose proof (no_ic _ _ _ HN) as Hic.
  unfold idup. apply wp_bind, wp_acquire; [apply Hic|]. unfold wp. rewrite icache_section by apply Hic.
  rewrite (upd_ino_ext s ip _ (fun x => i_set_ref (i_ref (ino s ip) + 1) x)) by done.
  destruct (ref_changed U D s ip i (i_ref (ino s ip) + 1)) as (H1 & H2 & (_ & _ & H3) & H4 & H5 & H6); auto; [lia|].
  split_and!; auto. split; auto; rewrite ?H4; simpl; try done; [lia| |].
  - intros k. rewrite H5. lia.
  - rewrite H6. unfold one. destruct (Z.eqb_spec (i_ref (ino s ip) + 1) 0), (Z.eqb_spec (i_ref (ino s ip) + 1) 1); lia.
Qed.

(** *** ilock() and iunlock() *)

#[export] Instance inode_lock_fslock ip : FsLock (fun s => (ip < length (icache s))%nat) (inode_lock ip).
Proof.
  split; intros; simpl; try done.
  - by rewrite ino_upd_eq.
  - unfold upd_ino, set_icache. destruct s; simpl. f_equal. etransitivity; [|by apply (list_alter_id id)].
    apply list_alter_ext; [|done]. intros x Hx. unfold ino. simpl.
    erewrite list_lookup_total_correct by done. by destruct x.
  - by rewrite upd_ino_upd_ino.
  - by rewrite length_alter.
Qed.

Lemma counts_same ip s s' :
  changed_at ip s s' -> i_ref (ino s' ip) = i_ref (ino s ip) -> i_dev (ino s' ip) = i_dev (ino s ip) ->
  i_inum (ino s' ip) = i_inum (ino s ip) -> (forall k, refs s' k = refs s k) /\ busy s' = busy s.
Proof.
  intros Hc H1 H2 H3. unfold refs, busy. split; intros; rewrite (total_changed _ ip s s' Hc).
  - unfold weight. rewrite H1, H2, H3. lia.
  - unfold in_use. rewrite H1. lia.
Qed.

(** The inode [i] of entry [ip] is locked by this process, with its contents in memory. *)
Record locked_at (ip : nat) (i : Z) (s : fsys) : Prop := mkLockedAt {
  la_dev : i_dev (ino s ip) = 1;
  la_inum : i_inum (ino s ip) = i;
  la_lock : sl_locked (i_lock (ino s ip)) = 1 /\ sl_lk (i_lock (ino s ip)) = false;
  la_ref : 0 < i_ref (ino s ip);
  la_fresh : fresh s (ino s ip);
}.

Definition but (U : Z -> Prop) (i : Z) : Z -> Prop := fun j => U j /\ j <> i.

(** Reading the inode from the disk. *)
Lemma wp_read_inode D s ip i (Q : unit -> fsys -> Prop) :
  reading s D -> (ip < length (icache s))%nat -> i_inum (ino s ip) = i -> i_dev (ino s ip) = 1 ->
  IBLOCK i (sb s) = iblock s i -> 0 <= iblock s i < disksize s -> i_type (node s i) <> 0 ->
  (forall s', reading s' D -> still s s' -> changed_at ip s s' -> ic_lock s' = ic_lock s ->
     ino s' ip = dinode_of s i (i_set_flags (Z.lor (i_flags (ino s ip)) I_VALID) (ino s ip)) -> Q tt s') ->
  wp (v <- gets sb ;;
      bp <- bread (i_dev (ino s ip)) (IBLOCK (i_inum (ino s ip)) v) ;;
      blk <- gets (fun s => b_data (bufat s bp)) ;;
      upd_inode ip (get_dinode (dip_off (i_inum (ino s ip))) blk) ;;
      brelse bp ;;
      upd_inode ip (fun x => i_set_flags (Z.lor (i_flags x) I_VALID) x) ;;
      x <- gets (fun s => ino s ip) ;;
      if i_type x =? 0 then panic "ilock: no type" else ret tt) Q s.
Proof.
  intros [Hc Hl] Hip Hi Hd Hib Hr Ht HQ. rewrite Hi, Hd. apply wp_bind, wp_gets. rewrite Hib.
  pose proof (filter_ne_le D (iblock s i)).
  eapply wp_seq; [apply (rule_bread s [] D); [done|set_solver|lia|simpl; lia]|].
  intros b s1 (C1 & T1 & S1 & Q1 & _). apply wp_bind, wp_gets. rewrite (proj2 T1).
  apply wp_bind, wp_modify. set (s2 := upd_ino ip _ s1).
  assert (C2 : cache s2 [iblock s i] D) by (by apply cache_set_icache).
  eapply wp_seq; [apply (rule_brelse s2 [] D b (iblock s i) (view s (iblock s i))); [done|by apply (has_other s1)|by apply (saved_other s1)]|].
  intros _ s3 (C3 & Q3 & _). apply wp_bind, wp_modify. apply wp_bind, wp_gets. set (s4 := upd_ino ip _ s3).
  assert (E1 : icache s1 = icache s) by (pose proof (q_out _ _ Q1) as O; unfold outside in O; congruence).
  assert (E3 : icache s3 = icache s2) by (pose proof (q_out _ _ Q3) as O; unfold outside in O; congruence).
  assert (L3 : (ip < length (icache s3))%nat) by (rewrite E3; unfold s2, upd_ino; simpl; rewrite length_alter; congruence).
  assert (H4 : ino s4 ip = dinode_of s i (i_set_flags (Z.lor (i_flags (ino s ip)) I_VALID) (ino s ip))).
  { subst s4. rewrite ino_upd_eq by done. unfold ino at 1 2. rewrite E3. fold (ino s2 ip). subst s2.
    rewrite ino_upd_eq by congruence. unfold ino at 1 2. rewrite E1. done. }
  rewrite H4. rewrite (proj2 (Z.eqb_neq _ 0)) by exact Ht. apply wp_ret. apply HQ; auto.
  - by apply reading_upd.
  - apply (still_after _ s3); [|done]. apply (still_after _ s2); [|by apply quiet_still].
    apply (still_after _ s1); [by apply quiet_still|done].
  - split_and!; [|done|].
    + unfold s4, upd_ino. simpl. rewrite length_alter, E3. unfold s2, upd_ino. simpl. by rewrite length_alter, E1.
    + intros jp Hj. subst s4. rewrite ino_upd_ne by done. unfold ino at 1. rewrite E3. fold (ino s2 jp).
      subst s2. rewrite ino_upd_ne by done. unfold ino. by rewrite E1.
  - change (ic_lock s4) with (ic_lock s3).
    assert (ic_lock s3 = ic_lock s2) as -> by (pose proof (q_out _ _ Q3) as O; unfold outside in O; congruence).
    change (ic_lock s2) with (ic_lock s1). pose proof (q_out _ _ Q1) as O; unfold outside in O; congruence.
Qed.

Lemma i_valid_set f : Z.land (Z.lor f I_VALID) I_VALID <> 0.
Proof. rewrite Z.land_lor_distr_l. change (Z.land I_VALID I_VALID) with 2. intros [_ H]%Z.lor_eq_0_iff. done. Qed.

(** Taking a lock and reading the contents changes one entry, of which the others know nothing. *)
Lemma names_ok_lock U D s s' ip i :
  names_ok U D s -> still s s' -> reading s' D -> ic_lock s' = ic_lock s -> changed_at ip s s' ->
  (ip < Z.to_nat NINODE)%nat -> 0 < i_ref (ino s ip) ->
  i_ref (ino s' ip) = i_ref (ino s ip) -> i_dev (ino s' ip) = i_dev (ino s ip) ->
  i_inum (ino s' ip) = i_inum (ino s ip) -> i_inum (ino s ip) = i -> names_ok (but U i) D s'.
Proof.
  intros [N1 N2 N3 N4 N5] Q Hr Hlk Hch Hip Hrp E1 E2 E3 Hi.
  assert (HN : names_ok (but U i) D s).
  { split; auto; [intros jp Hjp [|[? []]]; auto|intros jp Hjp H1 H2 []; auto]. }
  apply (names_ok_changed (but U i) D s s' ip); auto.
  - destruct N2 as [W1 W2 W3 W4]. pose proof Hch as (Hl & _ & Ho).
    assert (Href : forall jp, i_ref (ino s' jp) = i_ref (ino s jp) /\ i_dev (ino s' jp) = i_dev (ino s jp) /\
      i_inum (ino s' jp) = i_inum (ino s jp)).
    { intros jp. destruct (decide (jp = ip)) as [->|Hne]; [done|]. by rewrite Ho. }
    split; [congruence|congruence|..].
    + intros jp Hjp. destruct (Href jp) as (-> & _). auto.
    + intros jp kp Hjp Hkp. destruct (Href jp) as (-> & -> & ->). destruct (Href kp) as (-> & -> & ->). auto.
  - intros [H|[_ [_ H]]]; [lia|]. congruence.
  - intros _ _ [_ H]. congruence.
Qed.

Lemma wp_ilock U D s ip i :
  names_ok U D s -> (ip < Z.to_nat NINODE)%nat -> 0 < i_ref (ino s ip) ->
  i_dev (ino s ip) = 1 -> i_inum (ino s ip) = i -> U i -> 0 <= i < sb_ninodes (sb s) ->
  i_type (node s i) <> 0 ->
  wp (ilock (Some ip)) (fun _ s' => names_ok (but U i) D s' /\ still s s' /\ changed_at ip s s' /\
    locked_at ip i s' /\ i_ref (ino s' ip) = i_ref (ino s ip)) s.
Proof.
  intros HN Hip Hr Hd Hi HU Hrange Ht. pose proof (no_ic _ _ _ HN) as Hic. pose proof (ic_len _ Hic) as Hlen.
  destruct (no_free _ _ _ HN ip Hip) as [Hu1 Hu2]; [right; by rewrite Hd, Hi|].
  destruct (no_blocks _ _ _ HN i Hrange) as [Hib Hbr].
  unfold ilock. apply wp_bind, wp_gets. rewrite (proj2 (Z.ltb_ge _ 1)) by lia.
  eapply wp_seq; [apply (wp_acquiresleep (inode_lock ip) _ (fun _ s' => s' = lset (inode_lock ip) (mkSleeplock 1 false (curpid s)) s)); [lia|done|done|done]|].
  intros _ s1 ->. set (s1 := lset (inode_lock ip) _ s).
  assert (Hch1 : changed_at ip s s1) by (apply changed_upd; lia).
  assert (H1 : ino s1 ip = mkInode (i_dev (ino s ip)) (i_inum (ino s ip)) (i_ref (ino s ip)) (mkSleeplock 1 false (curpid s))
    (i_flags (ino s ip)) (i_type (ino s ip)) (i_major (ino s ip)) (i_minor (ino s ip)) (i_nlink (ino s ip)) (i_size (ino s ip)) (i_addrs (ino s ip)))
    by (subst s1; simpl; apply ino_upd_eq; lia).
  assert (R1 : reading s1 D) by (apply reading_upd, HN).
  assert (Q1 : still s s1) by done.
  apply wp_bind, wp_gets.
  assert (Hend : forall s', reading s' D -> still s s' -> changed_at ip s s' -> ic_lock s' = ic_lock s ->
    i_dev (ino s' ip) = 1 -> i_inum (ino s' ip) = i -> i_ref (ino s' ip) = i_ref (ino s ip) ->
    i_lock (ino s' ip) = mkSleeplock 1 false (curpid s) -> fresh s (ino s' ip) ->
    names_ok (but U i) D s' /\ still s s' /\ changed_at ip s s' /\ locked_at ip i s' /\ i_ref (ino s' ip) = i_ref (ino s ip)).
  { intros s' Hrd Hst Hch Hlk E1 E2 E3 E4 Hf. split_and!; auto.
    - apply (names_ok_lock U D s s' ip i); auto; congruence.
    - split; auto; [by rewrite E4|lia|]. unfold fresh in *. rewrite E2 in *.
      rewrite (still_dinode s s'); [done|done|lia]. }
  destruct (Z.eqb_spec (Z.land (i_flags (ino s1 ip)) I_VALID) 0) as [Hv|Hv]; cbn [when].
  - rewrite H1 in Hv. simpl in Hv.
    apply (wp_read_inode D s1 ip i); rewrite ?H1; auto; [destruct Hch1 as (-> & ? & _); done|].
    intros s' R' Q' Hch' Hlk' H'. apply Hend; auto; rewrite ?H'; auto.
    + by apply (still_after _ s1).
    + destruct Hch1 as (L1 & _ & O1), Hch' as (L2 & _ & O2). split_and!; [congruence|lia|].
      intros jp Hj. by rewrite O2, O1.
    + apply (fresh_dinode s). done.
  - apply wp_ret. rewrite H1 in Hv. simpl in Hv. apply Hend; auto; rewrite ?H1; auto.
    destruct (no_fresh _ _ _ HN ip) as [_ Hf]; auto; [by rewrite Hi|].
    by apply (fresh_same s (ino s ip)).
Qed.

Lemma wp_iunlock U D s ip i :
  names_ok (but U i) D s -> locked_at ip i s -> (ip < Z.to_nat NINODE)%nat -> U i ->
  0 <= i < sb_ninodes (sb s) ->
  wp (iunlock (Some ip)) (fun _ s' => names_ok U D s' /\ still s s' /\ changed_at ip s s' /\
    i_dev (ino s' ip) = 1 /\ i_inum (ino s' ip) = i /\ i_ref (ino s' ip) = i_ref (ino s ip)) s.
Proof.
  intros HN [Hd Hi [Hl1 Hl2] Hr Hf] Hip HU Hrange. pose proof (no_ic _ _ _ HN) as Hic. pose proof (ic_len _ Hic) as Hlen.
  unfold iunlock.
  eapply wp_seq; [apply (wp_holdingsleep (inode_lock ip) (fun r s' => r = 1 /\ s' = s)); [lia|done|done]|].
  intros r s0 [-> ->]. change (1 =? 0) with false. cbv iota. apply wp_bind, wp_gets.
  rewrite (proj2 (Z.ltb_ge _ 1)) by lia.
  apply (wp_releasesleep (inode_lock ip)); [lia|done|]. set (s' := set_woken _ _).
  assert (Hch : changed_at ip s s') by (apply changed_upd; lia).
  assert (H1 : ino s' ip = mkInode (i_dev (ino s ip)) (i_inum (ino s ip)) (i_ref (ino s ip)) initsleeplock
    (i_flags (ino s ip)) (i_type (ino s ip)) (i_major (ino s ip)) (i_minor (ino s ip)) (i_nlink (ino s ip)) (i_size (ino s ip)) (i_addrs (ino s ip)))
    by (subst s'; simpl; apply (ino_upd_eq s ip); lia).
  assert (Hst : still s s') by done.
  split_and!; auto; [|by rewrite H1..].
  destruct (names_ok_lock (but U i) D s s' ip i) as [N1 N2 N3 N4 N5]; auto; try (by rewrite H1).
  { split; [|apply HN]. by apply cache_woken, cache_set_icache, HN. }
  pose proof Hch as (_ & _ & Ho).
  assert (Hu : forall jp, (jp < Z.to_nat NINODE)%nat -> jp <> ip -> 0 < i_ref (ino s' jp) -> i_dev (ino s' jp) = 1 ->
    i_inum (ino s' jp) <> i).
  { intros jp Hjp Hne H2 H3 H4. apply Hne. apply (ic_uniq s' N2); auto; rewrite ?H1; simpl; congruence. }
  split; auto.
  - intros jp Hjp HUj. destruct (decide (jp = ip)) as [->|Hne]; [by rewrite H1|].
    pose proof (ic_ref s' N2 jp Hjp). destruct (decide (i_ref (ino s' jp) = 0)) as [|Hnz]; [auto|].
    apply N4; [done|]. right. destruct HUj as [|[E1 E2]]; [done|]. split; [done|].
    pose proof (Hu jp Hjp Hne ltac:(lia) E1). by split; [split|].
  - intros jp Hjp H2 H3 H4 H5. destruct (decide (jp = ip)) as [->|Hne].
    + rewrite H1. simpl. rewrite Hi. split; [done|]. apply (fresh_same s (ino s ip)); [done|]. done.
    + pose proof (Hu jp Hjp Hne H2 H3). apply N5; auto. by split; [split|].
Qed.

(** *** dirlookup() *)

Lemma quiet_icache s s' : quiet s s' -> icache s' = icache s /\ ic_lock s' = ic_lock s.
Proof. intros Q. pose proof (q_out _ _ Q) as O. unfold outside in O. split; congruence. Qed.

Lemma names_ok_quiet U D s s' : names_ok U D s -> quiet s s' -> reading s' D -> names_ok U D s'.
Proof.
  intros [N1 N2 N3 N4 N5] Q Hr. pose proof (quiet_still _ _ Q) as Q'.
  assert (Hi : forall jp, ino s' jp = ino s jp) by (intros; by apply quiet_ino).
  split; auto.
  - by apply (quiet_ic_wf s).
  - intros i Hi'. rewrite (st_sb _ _ Q') in *. rewrite (still_iblock s s'), (still_size s s') by done. auto.
  - intros jp. rewrite Hi. auto.
  - intros jp. rewrite Hi. intros H1 H2 H3 H4 H5. destruct (N5 jp) as [F1 F2]; auto.
    rewrite (st_sb _ _ Q'). split; [done|]. unfold fresh in *.
    rewrite (still_dinode s s'); [done|done|]. by apply N3.
Qed.

Lemma gets_ref_from i s s1 q s' : icache s1 = icache s -> gets_ref i s1 q s' -> gets_ref i s q s'.
Proof.
  intros E [G1 G2 G3 G4 G5 G6 G7 G8]. unfold refs, busy, total, ino in *. rewrite E in *. by split.
Qed.

Section Paths.
Context (devsw : Z -> devsw_entry).

Lemma wp_dirlookup U D s dp name :
  names_ok U D s -> directory s (ino s dp) -> busy s < NINODE ->
  wp (dirlookup devsw dp name) (fun r s' => names_ok U D s' /\ still s s' /\
    match dir_find s (ino s dp) name with
    | Some (k, de) => exists q off, r = Some (q, off) /\ gets_ref (de_inum de) s q s'
    | None => r = None /\ icache s' = icache s
    end) s.
Proof.
  intros HN Hd Hb. unfold dirlookup. apply wp_bind, wp_gets.
  rewrite (dr_type _ _ Hd). change (T_DIR =? T_DIR) with true. cbn [negb].
  eapply wp_seq; [apply (wp_dirlookup_scan devsw s D dp name); [apply HN|done]|].
  intros r s1 (-> & R1 & Q1). destruct (quiet_icache _ _ Q1) as [E1 _].
  pose proof (names_ok_quiet U D s s1 HN Q1 R1) as HN1.
  destruct (dir_find s (ino s dp) name) as [[k de]|].
  - apply wp_bind, wp_gets. rewrite (quiet_ino _ _ _ Q1), (rg_dev _ _ (dr_regular _ _ Hd)).
    eapply wp_seq; [apply (wp_iget U D s1); [done|unfold busy, total in *; by rewrite E1]|].
    intros q s2 (HN2 & Q2 & G). apply wp_ret. split_and!; auto.
    + apply (still_after _ s1); auto with fsdb.
    + exists q, (Z.of_nat k * sizeof_dirent). split; [done|]. by apply (gets_ref_from _ _ s1).
  - apply wp_ret. auto with fsdb.
Qed.

(** *** What a path leads to *)

(** The inode that the path leads to from inode [i]; the directory of its last element, for
    nameiparent(). *)
Fixpoint walk (par : bool) (s : fsys) (i : Z) (es : list (list Z)) : option Z :=
  match es with
  | [] => if par then None else Some i
  | e :: es' =>
      if negb (i_type (node s i) =? T_DIR) then None
      else if par && bool_decide (es' = []) then Some i
      else match dir_find s (node s i) e with
           | Some (_, de) => walk par s (de_inum de) es'
           | None => None
           end
  end.

(** An inode that the walk locks. *)
Record good (U : Z -> Prop) (s : fsys) (i : Z) : Prop := mkGood {
  gd_free : U i;
  gd_range : 0 <= i < sb_ninodes (sb s);
  gd_type : i_type (node s i) <> 0;
  gd_nlink : i_nlink (node s i) <> 0;
}.

(** The inodes on the path are free, and its directories are well formed. *)
Fixpoint path_ok (U : Z -> Prop) (par : bool) (s : fsys) (i : Z) (es : list (list Z)) : Prop :=
  match es with
  | [] => par = true -> good U s i
  | e :: es' =>
      good U s i /\
      (i_type (node s i) = T_DIR ->
       directory s (node s i) /\
       match dir_find s (node s i) e with
       | Some (_, de) => path_ok U par s (de_inum de) es'
       | None => True
       end)
  end.

Lemma still_good U D s s' i : names_ok U D s -> still s s' -> good U s i -> good U s' i /\ node s' i = node s i.
Proof.
  intros HN Q [G1 G2 G3 G4]. assert (E : node s' i = node s i).
  { apply still_dinode; [done|]. by apply (no_blocks _ _ _ HN). }
  split; [|done]. split; rewrite ?E, ?(st_sb _ _ Q); done.
Qed.

Lemma still_path U D par s s' es : forall i,
  names_ok U D s -> still s s' -> path_ok U par s i es ->
  path_ok U par s' i es /\ walk par s' i es = walk par s i es.
Proof.
  induction es as [|e es IH]; intros i HN Q Hp; cbn [path_ok walk] in *.
  - split; [|done]. intros Hpar. destruct (still_good U D s s' i); auto.
  - destruct Hp as [Hg Hp]. destruct (still_good U D s s' i HN Q Hg) as [Hg' E]. rewrite E.
    destruct (Z.eqb_spec (i_type (node s i)) T_DIR) as [Ht|Ht]; cbn [negb].
    + destruct (Hp Ht) as [Hd Hp']. rewrite (still_find s s' (node s i) (node s i)) by done.
      assert (Hd' : directory s' (node s i)) by (by apply (still_directory s s' (node s i))).
      destruct (dir_find s (node s i) e) as [[k de]|]; [|by split].
      destruct (IH (de_inum de) HN Q Hp') as [I1 I2]. rewrite I2. by split.
    + split; [|done]. by split.
Qed.

Lemma dir_find_name s x n1 n2 :
  cname (Z.to_nat DIRSIZ) n1 = cname (Z.to_nat DIRSIZ) n2 -> dir_find s x n1 = dir_find s x n2.
Proof. intros E. unfold dir_find. apply list_find_ext. intros de. unfold names. by rewrite E. Qed.

Lemma cname_take n e : Forall (fun c => c <> 0) e -> cname n e = take n e.
Proof.
  intros He. revert n. induction He as [|c e Hc He IH]; intros [|n]; simpl; try done.
  rewrite (proj2 (Z.eqb_neq c 0)) by done. by rewrite IH.
Qed.

Lemma elems_from_nonnul cur path :
  Forall (fun c => c <> 0) cur -> Forall (fun c => c <> 0) path ->
  Forall (Forall (fun c => c <> 0)) (elems_from cur path).
Proof.
  intros Hc Hp. revert cur Hc. induction Hp as [|c p Hcp Hp IH]; intros cur Hc; simpl.
  - destruct cur; constructor; [done|constructor].
  - destruct (c =? SLASH).
    + destruct cur; [by apply IH|]. constructor; [done|]. by apply IH.
    + apply IH. apply Forall_app. by repeat constructor.
Qed.

Lemma skipelem_nonnul path name path' name' :
  skipelem path name = Some (path', name') -> Forall (fun c => c <> 0) path -> Forall (fun c => c <> 0) path'.
Proof.
  unfold skipelem. intros H Hn. pose proof (skip_slashes_nonnul path Hn) as Hnn.
  destruct (skip_slashes path) as [|c p]; [done|]. destruct (take_elem (c :: p)) as [e r] eqn:Et.
  destruct (take_elem_nonnul _ _ _ Et Hnn) as [_ Hr]. simplify_eq. by apply skip_slashes_nonnul.
Qed.

(** Unlocking and putting the inode of a directory back. *)
Lemma wp_iunlockput U D s ip i :
  names_ok (but U i) D s -> locked_at ip i s -> (ip < Z.to_nat NINODE)%nat -> good U s i ->
  wp (iunlockput (Some ip)) (fun _ s' => names_ok U D s' /\ still s s' /\ changed_at ip s s' /\
    i_dev (ino s' ip) = 1 /\ i_inum (ino s' ip) = i /\ i_ref (ino s' ip) = i_ref (ino s ip) - 1 /\
    (forall k, refs s' k = refs s k - at_ k i) /\ busy s' = busy s - one (i_ref (ino s ip))) s.
Proof.
  intros HN Hl Hip [G1 G2 G3 G4]. pose proof (la_ref _ _ _ Hl) as Hr.
  unfold iunlockput. eapply wp_seq; [by apply (wp_iunlock U D s ip i)|].
  intros _ s1 (HN1 & Q1 & Hch1 & E1 & E2 & E3).
  destruct (counts_same ip s s1 Hch1) as [Hrefs Hbusy];
    rewrite ?E1, ?E2, ?(la_dev _ _ _ Hl), ?(la_inum _ _ _ Hl); auto.
  eapply wp_mono.
  - apply (wp_iput U D s1 ip i); auto; [lia|].
    assert (Hn : node s1 i = node s i); [|by rewrite Hn].
    apply still_dinode; [done|]. by apply (no_blocks _ _ _ HN).
  - intros _ s2 (HN2 & Q2 & Hch2 & E4 & Hrefs2 & Hbusy2). rewrite E4. simpl.
    split_and!; auto; [by apply (still_after _ s1)| |congruence| |].
    + destruct Hch1 as (L1 & ? & O1), Hch2 as (L2 & _ & O2). split_and!; [congruence|done|].
      intros jp Hj. by rewrite O2, O1.
    + intros k. by rewrite Hrefs2, Hrefs.
    + by rewrite Hbusy2, Hbusy, E3.
Qed.

Lemma locked_file ip i s : locked_at ip i s -> same_file (node s i) (ino s ip).
Proof.
  intros [Hd Hi _ _ Hf]. unfold fresh in Hf. rewrite Hi in Hf.
  unfold same_file. rewrite Hd. split; [done|]. rewrite <- Hf. done.
Qed.

(** The directory is still locked after dirlookup() has taken a reference. *)
Lemma locked_gets_ref ip i j s q s' :
  locked_at ip i s -> still s s' -> 0 <= iblock s i -> gets_ref j s q s' ->
  locked_at ip i s' /\ i_ref (ino s' ip) = i_ref (ino s ip) + (if decide (q = ip) then 1 else 0).
Proof.
  intros [Hd Hi Hl Hr Hf] Q Hb [G1 G2 G3 G4 G5 G6 G7 G8].
  destruct (decide (q = ip)) as [->|Hne].
  - rewrite (G6 Hr). split; [|done]. split; rewrite (G6 Hr); simpl; auto; [lia|].
    apply (fresh_same s' (ino s ip)); [done|]. unfold fresh in *. rewrite Hi in *.
    by rewrite (still_dinode s s').
  - rewrite (G5 ip) by done. split; [|lia]. split; rewrite (G5 ip) by done; auto.
    unfold fresh in *. rewrite Hi in *. by rewrite (still_dinode s s').
Qed.

Definition leads (U : Z -> Prop) (D : list Z) (par : bool) (es : list (list Z)) (i : Z) (to : option Z) (s : fsys)
    (r : option nat * list Z) (s' : fsys) : Prop :=
  names_ok U D s' /\ still s s' /\
  (forall k, refs s' k = refs s k - at_ k i + match to with Some j => at_ k j | None => 0 end) /\
  match to with
  | None => r.1 = None
  | Some j => exists q, r.1 = Some q /\ (q < Z.to_nat NINODE)%nat /\ i_dev (ino s' q) = 1 /\
      i_inum (ino s' q) = j /\ 0 < i_ref (ino s' q) /\
      (par = true -> exists e, last es = Some e /\ cname (Z.to_nat DIRSIZ) r.2 = take (Z.to_nat DIRSIZ) e)
  end.

(** The state [s1] while the inode of the entry [ip] of [s] is locked. *)
Record visiting (U : Z -> Prop) (D : list Z) (s : fsys) (ip : nat) (i : Z) (s1 : fsys) : Prop := mkVisiting {
  vi_names : names_ok (but U i) D s1;
  vi_still : still s s1;
  vi_locked : locked_at ip i s1;
  vi_ref : i_ref (ino s1 ip) = i_ref (ino s ip);
  vi_refs : forall k, refs s1 k = refs s k;
  vi_busy : busy s1 = busy s;
}.

Section Visit.
Context (U : Z -> Prop) (D : list Z) (s : fsys) (ip : nat) (i : Z).
Hypothesis HN : names_ok U D s.
Hypothesis Hip : (ip < Z.to_nat NINODE)%nat.
Hypothesis Hg : good U s i.

Lemma wp_visit :
  0 < i_ref (ino s ip) -> i_dev (ino s ip) = 1 -> i_inum (ino s ip) = i ->
  wp (ilock (Some ip)) (fun _ => visiting U D s ip i) s.
Proof using All.
  intros Hr Hd Hi. pose proof Hg as [G1 G2 G3 G4].
  eapply wp_mono; [by apply (wp_ilock U D s ip i)|]. intros _ s1 (HN1 & Q1 & Hch1 & Hl1 & Er1).
  destruct (counts_same ip s s1 Hch1); rewrite ?(la_dev _ _ _ Hl1), ?(la_inum _ _ _ Hl1); auto.
  by split.
Qed.

(** The inode in memory is the one on the disk. *)
Lemma visiting_file s1 : visiting U D s ip i s1 -> same_file (node s i) (ino s1 ip).
Proof using All.
  intros [_ Q Hl _ _ _]. destruct (still_good U D s s1 i HN Q Hg) as [_ <-]. by apply locked_file.
Qed.

Lemma wp_leave par es s1 name :
  visiting U D s ip i s1 ->
  wp (iunlockput (Some ip) ;; ret (None, name)) (leads U D par es i None s) s1.
Proof using All.
  intros [V1 V2 V3 V4 V5 V6]. destruct (still_good U D s s1 i HN V2 Hg) as [Hg1 _].
  eapply wp_seq; [by apply (wp_iunlockput U D s1 ip i)|]. intros _ s2 (HN2 & Q2 & _ & _ & _ & _ & Hrefs2 & _).
  apply wp_ret. split_and!; auto; [by apply (still_after _ s1)|]. intros k. rewrite Hrefs2, V5. lia.
Qed.

(** dirlookup() without a result. *)
Lemma visiting_same s1 s2 :
  visiting U D s ip i s1 -> names_ok (but U i) D s2 -> still s1 s2 -> icache s2 = icache s1 ->
  visiting U D s ip i s2.
Proof using All.
  intros [V1 V2 V3 V4 V5 V6] HN2 Q2 E2.
  assert (Hino : forall jp, ino s2 jp = ino s1 jp) by (intros; unfold ino; by rewrite E2).
  destruct V3 as [L1 L2 L3 L4 L5]. destruct (still_good U D s s1 i HN V2 Hg) as [Hg1 _].
  split; auto; rewrite ?Hino; auto; unfold refs, busy, total in *; rewrite ?E2; auto.
  - by apply (still_after _ s1).
  - split; rewrite Hino; auto. unfold fresh in *. rewrite L2 in *.
    rewrite (still_dinode s1 s2); [done|done|]. apply (no_blocks _ _ _ V1), Hg1.
Qed.

(** From the directory to the inode [j] of its entry: the reference is passed on. *)
Lemma wp_descend s1 s2 j q :
  visiting U D s ip i s1 -> names_ok (but U i) D s2 -> still s1 s2 -> gets_ref j s1 q s2 ->
  wp (iunlockput (Some ip)) (fun _ s3 => names_ok U D s3 /\ still s s3 /\
    i_dev (ino s3 q) = 1 /\ i_inum (ino s3 q) = j /\ 0 < i_ref (ino s3 q) /\
    busy s3 - one (i_ref (ino s3 q)) = busy s - one (i_ref (ino s ip)) /\
    forall k, refs s3 k = refs s k - at_ k i + at_ k j) s2.
Proof using All.
  intros [V1 V2 V3 V4 V5 V6] HN2 Q2 Hq. assert (Q02 : still s s2) by (by apply (still_after _ s1)).
  destruct (still_good U D s s1 i HN V2 Hg) as [Hg1 _]. destruct (still_good U D s s2 i HN Q02 Hg) as [Hg2 _].
  destruct (locked_gets_ref ip i j s1 q s2) as [Hl2 Er2]; auto.
  { apply (no_blocks _ _ _ V1), Hg1. }
  eapply wp_mono; [by apply (wp_iunlockput U D s2 ip i)|].
  intros _ s3 (HN3 & Q3 & (_ & _ & Ho3) & E1 & E2 & E3 & Hrefs3 & Hbusy3).
  destruct Hq as [K1 K2 K3 K4 K5 K6 K7 K8]. pose proof (la_inum _ _ _ Hl2). pose proof (la_ref _ _ _ V3).
  split; [done|]. split; [by apply (still_after _ s2)|].
  assert (Hrefs : forall k, refs s3 k = refs s k - at_ k i + at_ k j) by (intros k; rewrite Hrefs3, K7, V5; lia).
  destruct (decide (q = ip)) as [->|Hne].
  - rewrite Er2 in E3. split_and!; [done|congruence|lia| |done]. rewrite Hbusy3, E3, Er2.
    replace (i_ref (ino s1 ip) + 1 - 1) with (i_ref (ino s ip)) by lia.
    rewrite (proj1 K4) in K8. lia.
  - rewrite (Ho3 q) by done. split_and!; [done|done|lia| |done]. rewrite Hbusy3, Er2, Z.add_0_r, V4. lia.
Qed.
End Visit.

Lemma wp_namex_loop U D par fuel : forall s ip i path name,
  names_ok U D s -> (ip < Z.to_nat NINODE)%nat -> 0 < i_ref (ino s ip) ->
  i_dev (ino s ip) = 1 -> i_inum (ino s ip) = i -> Forall (fun c => c <> 0) path ->
  length name = Z.to_nat DIRSIZ -> (length path < fuel)%nat -> path_ok U par s i (elems path) ->
  busy s - one (i_ref (ino s ip)) <= NINODE - 2 ->
  wp (namex_loop devsw fuel ip path par name) (leads U D par (elems path) i (walk par s i (elems path)) s) s.
Proof.
  induction fuel as [|fuel IH]; intros s ip i path name HN Hip Hr Hd Hi Hnn Hname Hf Hp Hb; [lia|].
  cbn [namex_loop]. pose proof (skipelem_correct path name Hnn Hname) as Hsk.
  destruct (skipelem path name) as [[path' name']|] eqn:Es; destruct (elems path) as [|e es] eqn:Ee; try done.
  2: { cbn [walk path_ok] in *. destruct par.
    - destruct (Hp eq_refl) as [G1 G2 G3 G4]. eapply wp_seq; [by apply (wp_iput U D s ip i)|].
      intros _ s' (HN' & Q' & _ & _ & Hrefs & _). apply wp_ret. split_and!; auto.
      intros k. rewrite Hrefs. lia.
    - apply wp_ret. split_and!; auto with fsdb. intros k. lia. by exists ip. }
  destruct Hsk as (He' & Hlast & Hlen & Hname' & Hcn). cbn [walk path_ok] in *. destruct Hp as [Hg Hp].
  pose proof (skipelem_nonnul _ _ _ _ Es Hnn) as Hnn'.
  eapply wp_seq; [by apply (wp_visit U D s ip i)|]. intros [] s1 Hv. pose proof Hv as [V1 V2 V3 V4 V5 V6].
  pose proof (visiting_file U D s ip i HN Hip Hg s1 Hv) as Hfile. pose proof Hfile as (_ & Ht1 & _).
  apply wp_bind, wp_gets. rewrite <- Ht1.
  destruct (Z.eqb_spec (i_type (node s i)) T_DIR) as [Ht|Ht]; cbn [negb]; [|by apply (wp_leave U D s ip i)].
  destruct (Hp Ht) as [Hdir Hp'].
  assert (Hbd : bool_decide (path' = []) = bool_decide (es = [])) by (apply bool_decide_ext; done).
  rewrite Hbd. destruct (par && bool_decide (es = [])) eqn:Epar.
  { apply andb_prop in Epar as [-> Hes%bool_decide_eq_true].
    eapply wp_seq; [apply (wp_iunlock U D s1 ip i); auto; [|rewrite (st_sb _ _ V2)]; apply Hg|].
    intros _ s2 (HN2 & Q2 & Hch2 & E1 & E2 & E3). apply wp_ret.
    destruct (counts_same ip s1 s2 Hch2) as [Hrefs2 _];
      rewrite ?E1, ?E2, ?(la_dev _ _ _ V3), ?(la_inum _ _ _ V3); auto.
    split_and!; auto; [by apply (still_after _ s1)|intros k; rewrite Hrefs2, V5; lia|].
    exists ip. split_and!; auto; [lia|]. intros _. exists e. rewrite Hes. by split. }
  assert (Hone : 0 <= one (i_ref (ino s ip)) <= 1) by (unfold one; destruct (_ =? 1); lia).
  eapply wp_seq; [apply (wp_dirlookup (but U i) D s1 ip name'); [done|by apply (still_directory s s1 (node s i))|lia]|].
  intros r s2 (HN2 & Q2 & Hres).
  assert (Hfind : dir_find s1 (ino s1 ip) name' = dir_find s (node s i) e).
  { rewrite (still_find s s1 (node s i)) by done. apply dir_find_name. rewrite Hcn. symmetry. apply cname_take.
    pose proof (elems_from_nonnul [] path (Forall_nil_2 _) Hnn) as Hall.
    change (elems_from [] path) with (elems path) in Hall. rewrite Ee in Hall. by inversion Hall. }
  rewrite Hfind in Hres. destruct (dir_find s (node s i) e) as [[k de]|].
  2: { destruct Hres as [-> E2]. apply (wp_leave U D s ip i); auto. by apply (visiting_same U D s ip i HN Hip Hg s1). }
  destruct Hres as (q & off & -> & Hq).
  eapply wp_seq; [by apply (wp_descend U D s ip i HN Hip Hg s1 s2 (de_inum de) q)|].
  intros _ s3 (HN3 & Q03 & F1 & F2 & F3 & F4 & Hrefs3).
  destruct (still_path U D par s s3 es (de_inum de) HN Q03 Hp') as [Hp3 Hw3].
  eapply wp_mono; [apply (IH s3 q (de_inum de) path' name'); auto; [apply Hq|lia|by rewrite He'|lia]|].
  intros r' s' (HN' & Q' & Hrefs' & Hm). rewrite He', Hw3 in *.
  split_and!; [done|by apply (still_after _ s3)|intros k'; rewrite Hrefs', Hrefs3; lia|].
  destruct (walk par s (de_inum de) es) as [j|]; [|done].
  destruct Hm as (q' & M1 & M2 & M3 & M4 & M5 & M6). exists q'. split_and!; auto.
  intros Hpar. destruct (M6 Hpar) as (e' & Hle & Hce). exists e'. by rewrite last_cons, Hle.
Qed.

(** The inode where namex() starts. *)
Definition path_start (s : fsys) (cwd : nat) (path : list Z) : Z :=
  match path with
  | c :: _ => if c =? SLASH then ROOTINO else i_inum (ino s cwd)
  | [] => i_inum (ino s cwd)
  end.

(** C21. Path names are resolved. namei() and nameiparent() return an entry of the inode cache for
    the inode that the elements of the path lead to, through the entries of the directories on the
    disk, from the root or from the current directory, and null when an element is missing or is
    not in a directory; nameiparent() stops at the last element and leaves its name in the buffer.
    The result has one reference more, every other inode has as many references as before, the
    locks are free again, and nothing is written. This needs two free entries in the cache, and
    that nobody has locked an inode on the path. *)
Theorem namex_correct U D cwd path par name s :
  names_ok U D s -> (cwd < Z.to_nat NINODE)%nat -> 0 < i_ref (ino s cwd) -> i_dev (ino s cwd) = 1 ->
  U (i_inum (ino s cwd)) -> Forall (fun c => c <> 0) path -> length name = Z.to_nat DIRSIZ ->
  busy s <= NINODE - 2 ->
  let i := path_start s cwd path in
  path_ok U par s i (elems path) ->
  wp (namex devsw cwd path par name) (fun r s' =>
    names_ok U D s' /\ still s s' /\
    (forall k, refs s' k = refs s k + match walk par s i (elems path) with Some j => at_ k j | None => 0 end) /\
    match walk par s i (elems path) with
    | None => r.1 = None
    | Some j => exists q, r.1 = Some q /\ (q < Z.to_nat NINODE)%nat /\ i_dev (ino s' q) = 1 /\
        i_inum (ino s' q) = j /\ 0 < i_ref (ino s' q) /\
        (par = true -> exists e, last (elems path) = Some e /\
           cname (Z.to_nat DIRSIZ) r.2 = take (Z.to_nat DIRSIZ) e)
    end) s.
Proof.
  intros HN Hcwd Hr Hd HU Hnn Hname Hb i Hp. unfold namex.
  assert (Hstart : wp (match path with
         | c :: _ => if c =? SLASH then iget ROOTDEV ROOTINO else idup cwd
         | [] => idup cwd
         end) (fun q s' => names_ok U D s' /\ still s s' /\ gets_ref i s q s') s).
  { assert (Hdup : wp (idup cwd) (fun q s' => names_ok U D s' /\ still s s' /\ gets_ref (i_inum (ino s cwd)) s q s') s).
    { eapply wp_mono; [by apply (wp_idup U D s cwd)|]. by intros q s' (-> & ?). }
    subst i. destruct path as [|c path]; [done|]. unfold path_start. destruct (c =? SLASH); [|done].
    apply wp_iget; [done|lia]. }
  eapply wp_seq; [exact Hstart|]. intros q s1 (HN1 & Q1 & [K1 K2 K3 K4 K5 K6 K7 K8]).
  destruct (still_path U D par s s1 (elems path) i HN Q1 Hp) as [Hp1 Hw1].
  eapply wp_mono; [apply (wp_namex_loop U D par (S (length path)) s1 q i); auto; lia|].
  intros r s' (HN' & Q' & Hrefs & Hm). rewrite Hw1 in *.
  split_and!; [done|by apply (still_after _ s1)| |done]. intros k. rewrite Hrefs, K7. lia.
Qed.

End Paths.
