(* ===== verification/FsDemo.v ===== *)
(** A small file system, on which the theorems about fs.c are instantiated: twenty blocks with
    the superblock in block 1, the log in blocks 2 to 13, the inodes in block 14, the bitmap in
    block 15 and one block in use by a directory of two entries. *)

From S2P Require Export WriteSpec Namei.

Open Scope kernel_scope.

(** An entry of a directory. *)
Definition demo_entry (inum : Z) (name : list Z) : list Z :=
  setf 2 0 inum (blit 2 name (replicate 16 0)).

Definition fs_super : list Z :=
  setw (setw (setw (setw (setw (setw (setw zero_block 0 20) 1 4) 2 8) 3 12) 4 2) 5 14) 6 15.
Definition fs_bitmap : list Z := blit 0 [255; 255; 1] zero_block.
Definition fs_dirblock : list Z :=
  blit 0 (demo_entry 1 [46] ++ demo_entry 2 [97; 98]) zero_block.

(** The cached inodes: the directory, and a small file of three bytes. *)
Definition demo_dir : inode :=
  mkInode 1 1 1 initsleeplock 2 T_DIR 0 0 1 32 (setf 4 0 16 (replicate 52 0)).
Definition demo_sfile : inode :=
  mkInode 1 2 1 initsleeplock 2 T_SFILE 0 0 1 3 (blit 0 [104; 105; 33] (replicate 52 0)).
Definition demo_icache : list inode :=
  demo_dir :: demo_sfile :: replicate 48 (mkInode 0 0 0 initsleeplock 0 0 0 0 0 0 []).

Definition fs_inodes : list Z :=
  put_dinode (dip_off 1) demo_dir (put_dinode (dip_off 2) demo_sfile zero_block).

Definition fs_disk : list (list Z) :=
  [zero_block; fs_super] ++ replicate 12 zero_block ++ [fs_inodes; fs_bitmap; fs_dirblock] ++
  replicate 3 zero_block.

Definition fs_start : fsys := set_disk fs_disk [] demo_start.

(** After binit() and initlog(). *)
Definition fs_boot : fsys := match reboot fs_start with Ret _ s => s | _ => fs_start end.

(** Inside a transaction, with the superblock read. *)
Definition enter (ic : list inode) (v : superblock) (s : fsys) : fsys :=
  set_icache ic (set_sb v (set_log (l_set_outstanding 1 (fslog s)) s)).

Definition fs_state : fsys := enter demo_icache (decode_sb fs_super) fs_boot.

Lemma intxn_set_sb H v s : intxn H s -> intxn H (set_sb v s).
Proof.
  intros [C W L O Z]. split; auto; [|by destruct W].
  destruct C as [[? ? ? Hb ? ?] ? ?]. split; [split; try done|done|done].
  intros b Hlt. by destruct (Hb b Hlt).
Qed.

Lemma demo_fields :
  dfields_ok demo_sfile /\ dfields_ok demo_dir.
Proof.
  split; split; try (vm_compute; split; (discriminate || reflexivity)).
  all: split; [reflexivity|]; apply blit_byte;
    [|apply Forall_replicate; unfold is_byte; lia].
  - repeat (apply Forall_cons; split; [unfold is_byte; lia|]). apply Forall_nil_2.
  - apply le_bytes_byte.
Qed.

Lemma fs_inodes_ok : block_ok fs_inodes.
Proof. apply put_dinode_ok; [apply demo_fields|]. apply put_dinode_ok; [apply demo_fields|]. apply zero_block_ok. Qed.

Lemma fs_blocks_ok : Forall block_ok fs_disk.
Proof.
  assert (Hblit : forall o src, Forall is_byte src -> block_ok (blit o src zero_block)).
  { intros o src Hs. destruct zero_block_ok as [L B]. split; [by rewrite length_blit|].
    by apply blit_byte. }
  unfold fs_disk, fs_super, fs_bitmap, fs_dirblock.
  repeat first [apply fs_inodes_ok | apply Forall_app_2 | apply Forall_replicate, zero_block_ok
    | apply Forall_cons; split | apply Forall_nil_2 | apply zero_block_ok | apply setw_ok
    | apply Hblit]; unfold is_byte; try lia.
  all: vm_compute; repeat constructor; try discriminate.
Qed.

Lemma fs_disk_log : disk_log 2 12 fs_disk.
Proof.
  assert (Hn : dhead 2 fs_disk = []) by (vm_compute; done).
  split; rewrite ?Hn.
  - lia.
  - vm_compute. split; [discriminate|done].
  - exact fs_blocks_ok.
  - vm_compute. discriminate.
  - vm_compute. split; [done|discriminate].
  - constructor.
  - set_solver.
Qed.

Lemma fs_boot_ok :
  idle fs_boot /\ l_start (fslog fs_boot) = 2 /\ l_size (fslog fs_boot) = 12 /\
  disksize fs_boot = 20 /\
  forall m, 0 <= m -> ~ (2 <= m < 14) -> view fs_boot m = blk fs_disk m.
Proof.
  pose proof (wp_reboot_idle 2 12 fs_start) as Hw. rewrite wp_run in Hw.
  destruct Hw as (r & s' & Hr & I & H1 & H2 & _ & Hd & V).
  { destruct demo_booted. split; done. }
  { exact fs_disk_log. }
  { vm_compute. done. }
  { split; [done|vm_compute; discriminate]. }
  assert (Hs : fs_boot = s') by (unfold fs_boot; by rewrite Hr). rewrite Hs.
  split_and!; [done..| |].
  - unfold disksize. rewrite Hd, length_writes. done.
  - intros m Hm Hl. rewrite V by done. unfold recovered.
    assert (Hn : dhead 2 (memdisk fs_start) = []) by (vm_compute; done).
    rewrite Hn. done.
Qed.

#[global] Opaque fs_boot.

Lemma idle_enter ic v s : idle s -> intxn [] (enter ic v s) /\ log_n (enter ic v s) = 0.
Proof.
  intros [C W L O Cm N Sz _ _ _]. assert (Hlg : logged s = []) by (unfold logged; by rewrite N).
  split; [|done]. apply intxn_set_icache, intxn_set_sb. split; try done; [|by destruct W|simpl; lia].
  apply cache_set_log. change (logged (set_log _ s)) with (logged s). by rewrite Hlg.
Qed.

Lemma enter_same ic v s :
  l_size (fslog (enter ic v s)) = l_size (fslog s) /\
  l_start (fslog (enter ic v s)) = l_start (fslog s) /\ memdisk (enter ic v s) = memdisk s /\
  sb (enter ic v s) = v /\ icache (enter ic v s) = ic /\ ic_lock (enter ic v s) = ic_lock s /\
  forall m, view (enter ic v s) m = view s m.
Proof. done. Qed.

Lemma demo_same :
  l_size (fslog fs_state) = l_size (fslog fs_boot) /\
  l_start (fslog fs_state) = l_start (fslog fs_boot) /\ memdisk fs_state = memdisk fs_boot /\
  sb fs_state = decode_sb fs_super /\ icache fs_state = demo_icache /\
  ic_lock fs_state = ic_lock fs_boot /\ forall m, view fs_state m = view fs_boot m.
Proof. exact (enter_same _ _ _). Qed.

Lemma fs_state_txn : intxn [] fs_state /\ avail fs_state = 11 /\ log_n fs_state = 0.
Proof.
  destruct fs_boot_ok as (I & H1 & H2 & _).
  destruct (idle_enter demo_icache (decode_sb fs_super) fs_boot I) as [T N].
  fold fs_state in T, N. split; [exact T|]. split; [|exact N]. unfold avail. rewrite N.
  rewrite (proj1 demo_same), H2. reflexivity.
Qed.

Lemma fs_state_view m : 0 <= m -> ~ (2 <= m < 14) -> view fs_state m = blk fs_disk m.
Proof.
  intros Hm Hl. destruct demo_same as (_ & _ & _ & _ & _ & _ & V). rewrite V. by apply fs_boot_ok.
Qed.

Lemma fs_state_shape :
  sb fs_state = mkSb 20 4 8 12 2 14 15 /\ disksize fs_state = 20 /\
  (forall m : Z, inlog fs_state m <-> 2 <= m < 14).
Proof.
  destruct fs_boot_ok as (_ & H1 & H2 & H3 & _). destruct demo_same as (Es & E1 & E2 & E3 & _).
  split; [rewrite E3; vm_compute; reflexivity|].
  split; [unfold disksize in *; rewrite E2; exact H3|].
  intros m. unfold inlog. rewrite E1, Es, H1, H2. lia.
Qed.

Lemma fs_layout :
  (forall b, 0 <= b < 20 -> bblock fs_state b = 15) /\
  (forall i, 0 <= i < 8 -> iblock fs_state i = 14).
Proof.
  destruct fs_state_shape as (Hsb & _). unfold bblock, iblock. rewrite Hsb.
  change BPB with 4096. change IPB with 8. cbn [sb_bmapstart sb_inodestart].
  split; intros; rewrite Z.div_small by lia; done.
Qed.

Lemma fs_used b : 0 <= b < 20 -> used fs_state b = bool_decide (b < 17).
Proof.
  intros Hb. unfold used. rewrite (proj1 fs_layout b Hb), fs_state_view by lia.
  change BPB with 4096. rewrite Z.mod_small by lia.
  assert (Hall : forallb (fun b => Bool.eqb (bit (blk fs_disk 15) b) (bool_decide (b < 17)))
    (seqZ 0 20) = true) by (vm_compute; reflexivity).
  rewrite forallb_forall in Hall. apply eqb_prop, Hall, list_elem_of_In, elem_of_seqZ. lia.
Qed.

Lemma fs_state_geom : geom fs_state.
Proof.
  destruct fs_state_shape as (Hsb & Hd & Hl). destruct fs_layout as [Lb Li].
  split; rewrite ?Hsb; simpl.
  - rewrite Hd. lia.
  - intros b Hb. unfold meta_ok. rewrite Lb, Hd, Hl by done. lia.
  - intros i Hi. unfold meta_ok. rewrite Li, Hd, Hl by done. lia.
  - intros b i Hb Hi. rewrite Lb, Li by done. lia.
  - intros b Hb Hu. rewrite fs_used in Hu by done. apply bool_decide_eq_false in Hu.
    rewrite Hl. split_and!; [lia|lia| |]; intros c Hc; rewrite ?Lb, ?Li by done; lia.
  - rewrite fs_state_view by lia. vm_compute. reflexivity.
Qed.

Lemma demo_ino ip : ino fs_state ip = demo_icache !!! ip.
Proof. unfold ino. destruct demo_same as (_ & _ & _ & _ & E & _). by rewrite E. Qed.

Lemma fs_room : (length (@nil Z) + Z.to_nat (log_n fs_state) + 1 < NBUF)%nat.
Proof. destruct fs_state_txn as (_ & _ & ->). vm_compute. lia. Qed.

Lemma held_ok_nil s : held_ok [] s.
Proof. intros h Hh. by apply not_elem_of_nil in Hh. Qed.

Lemma balloc_correct_witness :
  outcome_is (balloc 1 fs_state)
    (fun b s' => 0 <= b < sb_size (sb fs_state) /\ used fs_state b = false /\
       (forall c, 0 <= c < b -> used fs_state c = true) /\ view s' b = zeros /\
       (forall c, 0 <= c < sb_size (sb fs_state) ->
          used s' c = if decide (c = b) then true else used fs_state c) /\
       (forall m, 0 <= m -> m <> b -> m <> bblock fs_state b -> view s' m = view fs_state m) /\
       intxn [] s' /\ geom s')
    (fun e => e = "balloc: out of blocks"%string /\ disk_full fs_state) /\
  used fs_state 17 = false.
Proof.
  destruct fs_state_txn as (T & A & _). split; [|by rewrite fs_used by lia].
  apply balloc_correct; [exact T|exact fs_state_geom|apply held_ok_nil|lia|exact fs_room].
Defined.

Lemma fs_data b : 16 <= b < 20 ->
  1 < b /\ ~ inlog fs_state b /\
  (forall c, 0 <= c < sb_size (sb fs_state) -> b <> bblock fs_state c) /\
  (forall i, 0 <= i < sb_ninodes (sb fs_state) -> b <> iblock fs_state i).
Proof.
  intros Hb. destruct fs_state_shape as (Hsb & _ & Hl). destruct fs_layout as [Lb Li].
  rewrite Hsb, Hl. cbn [sb_size sb_ninodes]. split_and!; [lia|lia| |].
  - intros c Hc. rewrite Lb by done. lia.
  - intros i Hi. rewrite Li by done. lia.
Qed.

Lemma bfree_correct_witness :
  outcome_is (bfree 1 16 fs_state)
    (fun _ s' => used fs_state 16 = true /\
       (forall c, 0 <= c < sb_size (sb fs_state) ->
          used s' c = if decide (c = 16) then false else used fs_state c) /\
       (forall m, 0 <= m -> m <> bblock fs_state 16 -> view s' m = view fs_state m) /\
       intxn [] s' /\ geom s')
    (fun e => e = "freeing free block"%string /\ used fs_state 16 = false) /\
  used fs_state 16 = true.
Proof.
  destruct fs_state_txn as (T & A & _). split; [|by rewrite fs_used by lia].
  apply bfree_correct; [exact T|exact fs_state_geom| | | |lia| |].
  - apply held_ok_nil.
  - rewrite (proj1 fs_state_shape). cbn [sb_size]. lia.
  - apply not_elem_of_nil.
  - pose proof fs_room. lia.
  - apply fs_data. lia.
Defined.

Lemma iupdate_correct_witness :
  wp (iupdate 1) (fun _ s' => intxn [] s' /\ geom s' /\ icache s' = icache fs_state /\
    (forall y, dinode_of s' 2 y = with_dfields demo_sfile y) /\
    (forall j y, 0 <= j < sb_ninodes (sb fs_state) -> j <> 2 ->
       dinode_of s' j y = dinode_of fs_state j y) /\
    (forall m, 0 <= m -> m <> iblock fs_state 2 -> view s' m = view fs_state m)) fs_state.
Proof.
  destruct fs_state_txn as (T & A & _).
  apply (iupdate_correct [] fs_state 1 demo_sfile); [exact T|exact fs_state_geom| | | | | |lia|].
  - rewrite demo_ino. reflexivity.
  - reflexivity.
  - rewrite (proj1 fs_state_shape). cbn. lia.
  - apply demo_fields.
  - apply not_elem_of_nil.
  - pose proof fs_room. lia.
Defined.

Lemma demo_ic_wf s : icache s = demo_icache -> ic_lock s = false -> ic_wf s.
Proof.
  intros Hic Hlk. assert (Hf : forall ip, (ip < 50)%nat -> i_ref (demo_icache !!! ip) = 0 \/
    ((ip < 2)%nat /\ i_inum (demo_icache !!! ip) = Z.of_nat ip + 1)).
  { intros [|[|ip]] Hip; [right; split; [lia|done]..|left].
    assert (He : demo_icache !!! S (S ip) = mkInode 0 0 0 initsleeplock 0 0 0 0 0 0 []);
      [|by rewrite He]. apply list_lookup_total_correct. unfold demo_icache.
    apply (lookup_replicate_2 48). lia. }
  split; [by rewrite Hic|done|..]; unfold ino; rewrite Hic; change (Z.to_nat NINODE) with 50%nat.
  - intros ip Hip. destruct (Hf ip Hip) as [->|[H2 _]]; [done|].
    destruct ip as [|[|]]; [vm_compute; discriminate..|lia].
  - intros ip jp Hip Hjp Hri Hrj _ Hi. destruct (Hf ip Hip) as [?|[_ E1]], (Hf jp Hjp) as [?|[_ E2]];
      lia.
Qed.

(** The state at boot, with the cached inodes. *)
Definition cache_state : fsys := set_icache demo_icache demo_start.

Lemma iget_correct_witness :
  outcome_is (iget 1 2 cache_state)
    (fun ip s' => iget_post cache_state 1 2 ip s' /\
       outcome_is (iget 1 2 s')
         (fun jp s'' => jp = ip /\ ic_wf s'' /\ i_ref (ino s'' ip) = i_ref (ino cache_state ip) + 2)
         (fun _ => False))
    (fun e => e = "iget: no inodes"%string /\
       forall ip, (ip < Z.to_nat NINODE)%nat ->
         i_ref (ino cache_state ip) <> 0 /\ caches_inode 1 2 (ino cache_state ip) = false).
Proof. apply iget_correct. by apply demo_ic_wf. Defined.

Lemma fs_ic_wf : ic_wf fs_state.
Proof.
  destruct demo_same as (_ & _ & _ & _ & Ei & El & _). apply demo_ic_wf; [exact Ei|].
  rewrite El. vm_compute. reflexivity.
Qed.

(** No device has a driver. *)
Definition no_dev (_ : Z) : devsw_entry := mkDevsw None None.

Lemma small_file_write_read_witness :
  let src := replicate 60 7 in
  wp (r <- writei no_dev 1 src 3 60 ;; d <- readi no_dev 1 3 r ;; ret (r, d))
    (fun v s' =>
       v = (49, (49, take 49 src)) /\ sfile (ino s' 1) /\
       i_size (ino s' 1) = Z.max (i_size (ino fs_state 1)) (3 + 49) /\
       (forall y, dinode_of s' (i_inum (ino fs_state 1)) y = with_dfields (ino s' 1) y) /\
       (forall b, 0 <= b -> b <> iblock fs_state (i_inum (ino fs_state 1)) ->
          view s' b = view fs_state b) /\
       iblock fs_state (i_inum (ino fs_state 1)) ∈ logged s' /\
       memdisk s' = memdisk fs_state /\ wtrace s' = wtrace fs_state /\
       intxn [] s' /\ geom s') fs_state.
Proof.
  destruct fs_state_txn as (T & A & _). pose proof (demo_ino 1) as Hx.
  change (demo_icache !!! 1%nat) with demo_sfile in Hx.
  apply (small_file_write_read no_dev [] fs_state 1 (replicate 60 7) 3 60);
    [exact T|exact fs_state_geom|rewrite ?Hx..|].
  - destruct demo_same as (_ & _ & _ & _ & E & _). rewrite E. vm_compute. lia.
  - split; [reflexivity|vm_compute; split; discriminate|apply demo_fields].
  - reflexivity.
  - rewrite (proj1 fs_state_shape). cbn. lia.
  - apply not_elem_of_nil.
  - lia.
  - pose proof fs_room. lia.
  - cbn. lia.
  - cbn. lia.
  - lia.
  - apply Forall_replicate. unfold is_byte. lia.
Defined.

Lemma fs_reading : reading fs_state [].
Proof.
  destruct fs_state_txn as ([C _ _ _ _] & _ & N). split; [|vm_compute; lia].
  unfold logged in C. by rewrite N in C.
Qed.

Lemma fs_regular : regular fs_state demo_dir.
Proof.
  split; [split; discriminate|reflexivity|vm_compute; split; [discriminate|reflexivity]|].
  intros i Hi. change (i_size demo_dir) with 32 in Hi. change BSIZE with 512.
  rewrite Z.div_small by lia. destruct fs_state_shape as (_ & Hd & _).
  assert (Hf : fblock fs_state demo_dir 0 = 16) by (vm_compute; reflexivity).
  split; rewrite ?Hf, ?Hd; [vm_compute; split; [discriminate|reflexivity]|lia|].
  intros Hc. exfalso. by apply Hc.
Qed.

Lemma readi_correct_witness :
  let x := ino fs_state 0 in
  wp (readi no_dev 0 18 20) (fun r s' =>
    (if decide (18 <= i_size x /\ 18 + 20 < 2 ^ 32)
     then r = (Z.min 20 (i_size x - 18), file_bytes fs_state x 18 (Z.min 20 (i_size x - 18)))
     else r = (-1, [])) /\
    reading s' [] /\ quiet fs_state s') fs_state.
Proof.
  apply (readi_correct no_dev fs_state []); [exact fs_reading| |lia|lia].
  rewrite demo_ino. exact fs_regular.
Defined.

Lemma writei_correct_witness :
  let x := ino fs_state 0 in
  wp (writei no_dev 0 [120; 121; 122] 18 3) (fun r s' =>
    r = 3 /\ reading s' [] /\ outside s' = outside fs_state /\
    file_bytes s' x 0 (i_size x) = blit 18 [120; 121; 122] (file_bytes fs_state x 0 (i_size x)) /\
    fslog s' = fslog fs_state /\
    (forall i, 18 <= i < 18 + 3 ->
       dblock s' (fblock fs_state x (i / BSIZE)) = view s' (fblock fs_state x (i / BSIZE))) /\
    forall m, 0 <= m -> (forall i, 18 <= i < 18 + 3 -> m <> fblock fs_state x (i / BSIZE)) ->
      view s' m = view fs_state m /\ dblock s' m = dblock fs_state m) fs_state.
Proof.
  apply (writei_correct no_dev fs_state [] 0 [120; 121; 122] 18); rewrite ?demo_ino.
  - exact fs_reading.
  - exact fs_regular.
  - change (i_size demo_dir) with 32. assert (H0 : forall i, 0 <= i < 32 -> i / BSIZE = 0).
    { intros i Hi. change BSIZE with 512. apply Z.div_small. lia. }
    split; change (i_size demo_dir) with 32; intros i j Hi Hj; rewrite !H0 by done; [done|].
    intros Hc. exfalso. by apply Hc.
  - repeat constructor; discriminate.
  - lia.
  - change (i_size demo_dir) with 32. simpl. lia.
Defined.

(** The second entry of the directory has the name that is looked up. *)
Lemma dirlookup_correct_witness :
  let name := [97; 98] ++ replicate 12 0 in
  (snd <$> dir_find fs_state (ino fs_state 0) name) = Some (demo_entry 2 [97; 98]) /\
  match dir_find fs_state (ino fs_state 0) name with
  | None => wp (dirlookup no_dev 0 name) (fun r s' => r = None /\ reading s' [] /\ quiet fs_state s')
              fs_state
  | Some (k, de) =>
      outcome_is (dirlookup no_dev 0 name fs_state)
        (fun r s' => exists ip, r = Some (ip, Z.of_nat k * sizeof_dirent) /\
           i_dev (ino s' ip) = 1 /\ i_inum (ino s' ip) = de_inum de /\ 0 < i_ref (ino s' ip) /\
           ic_wf s')
        (fun e => e = "iget: no inodes"%string)
  end.
Proof.
  split; [vm_compute; reflexivity|].
  apply (dirlookup_correct no_dev fs_state []); [exact fs_reading|exact fs_ic_wf|].
  rewrite demo_ino. split; [reflexivity|exact fs_regular|reflexivity].
Defined.

Lemma fs_names_ok : names_ok (fun _ => True) [] fs_state.
Proof.
  destruct fs_state_shape as (Hsb & Hd & _). destruct fs_layout as [_ Li].
  assert (Hino : forall ip, (ip < 50)%nat -> ino fs_state ip = demo_dir /\ ip = 0%nat \/
    ino fs_state ip = demo_sfile /\ ip = 1%nat \/ ino fs_state ip = mkInode 0 0 0 initsleeplock 0 0 0 0 0 0 []).
  { intros [|[|ip]] Hip; rewrite demo_ino; [left; split; reflexivity|right; left; split; reflexivity|do 2 right].
    apply list_lookup_total_correct. apply (lookup_replicate_2 48). lia. }
  split; [exact fs_reading|exact fs_ic_wf|..]; change (Z.to_nat NINODE) with 50%nat.
  - rewrite Hsb, Hd. cbn [sb_ninodes]. intros i Hi. rewrite Li by done. split; [|lia].
    unfold IBLOCK. cbn [sb_inodestart]. change IPB with 8. by rewrite Z.div_small by lia.
  - intros ip Hip _. destruct (Hino ip Hip) as [[-> _]|[[-> _]| ->]]; split; reflexivity.
  - rewrite Hsb. cbn [sb_ninodes]. intros ip Hip Hr _ _ _. unfold fresh, dinode_of.
    destruct (Hino ip Hip) as [[E _]|[[E _]|E]]; rewrite E in *; [| |simpl in Hr; lia].
    + cbn [i_inum demo_dir]. split; [lia|]. rewrite Li, fs_state_view by lia. vm_compute. reflexivity.
    + cbn [i_inum demo_sfile]. split; [lia|]. rewrite Li, fs_state_view by lia. vm_compute. reflexivity.
Qed.

Lemma fs_node i : 0 <= i < 8 ->
  node fs_state i = get_dinode (dip_off i) (blk fs_disk 14) (mkInode 1 i 0 initsleeplock 0 0 0 0 0 0 []).
Proof. intros Hi. unfold node, dinode_of. by rewrite (proj2 fs_layout i Hi), fs_state_view by lia. Qed.

(** The path "/./ab". *)
Lemma namex_correct_witness :
  let path := [47; 46; 47; 97; 98] in
  walk false fs_state 1 (elems path) = Some 2 /\
  wp (namex no_dev 0 path false (replicate 14 0)) (fun r s' =>
    names_ok (fun _ => True) [] s' /\ still fs_state s' /\
    (forall k, refs s' k = refs fs_state k + at_ k 2) /\
    exists q, r.1 = Some q /\ (q < Z.to_nat NINODE)%nat /\ i_dev (ino s' q) = 1 /\
        i_inum (ino s' q) = 2 /\ 0 < i_ref (ino s' q) /\
        (false = true -> exists e, last (elems path) = Some e /\
           cname (Z.to_nat DIRSIZ) r.2 = take (Z.to_nat DIRSIZ) e)) fs_state.
Proof.
  intros path. assert (Hw : walk false fs_state 1 (elems path) = Some 2) by (vm_compute; reflexivity).
  split; [exact Hw|].
  pose proof (namex_correct no_dev (fun _ => True) [] 0 path false (replicate 14 0) fs_state fs_names_ok) as H.
  cbv zeta in H. change (path_start fs_state 0 path) with 1 in H. rewrite Hw in H.
  assert (Hg : good (fun _ => True) fs_state 1).
  { split; [exact I|rewrite (proj1 fs_state_shape); cbn; lia|rewrite fs_node by lia..]; vm_compute; discriminate. }
  assert (Hd : directory fs_state (node fs_state 1)).
  { apply (still_directory fs_state fs_state demo_dir); [apply still_refl|rewrite fs_node by lia; vm_compute; auto|].
    split; [reflexivity|exact fs_regular|reflexivity]. }
  apply H.
  - change (Z.to_nat NINODE) with 50%nat. lia.
  - rewrite demo_ino. reflexivity.
  - rewrite demo_ino. reflexivity.
  - exact I.
  - repeat constructor; discriminate.
  - reflexivity.
  - assert (Hb : busy fs_state = 2) by (unfold busy, total; destruct demo_same as (_ & _ & _ & _ & E & _); rewrite E; reflexivity).
    rewrite Hb. vm_compute. discriminate.
  - change (elems path) with [[46]; [97; 98]]. cbn [path_ok].
    assert (H1 : dir_find fs_state (node fs_state 1) [46] = Some (0%nat, demo_entry 1 [46])) by (vm_compute; reflexivity).
    assert (H2 : dir_find fs_state (node fs_state 1) [97; 98] = Some (1%nat, demo_entry 2 [97; 98])) by (vm_compute; reflexivity).
    rewrite H1. change (de_inum (demo_entry 1 [46])) with 1. rewrite H2. change (de_inum (demo_entry 2 [97; 98])) with 2.
    split; [exact Hg|]. intros _. split; [exact Hd|]. split; [exact Hg|]. intros _. split; [exact Hd|]. discriminate.
Defined.
