(* ===== verification/Mkfs.v ===== *)
(** mkfs.c: the program that builds the image of the file system, on the host.

    The host is little-endian. [m_img] is the file fs.img, as its blocks; exit(1) and a failed
    assert() are the outcome [Panic]. What the host gives for a file is a parameter: open() fails
    or succeeds, and then read() returns a sequence of blocks of bytes. *)

From S2P Require Export Fs.

Open Scope Z_scope.
Open Scope kernel_scope.

Definition NINODES : Z := 200.

Definition nbitmap : Z := FSSIZE / (BSIZE * 8) + 1.
Definition ninodeblocks : Z := NINODES / IPB + 1.
Definition nlog : Z := LOGSIZE.
Definition nmeta : Z := 2 + nlog + ninodeblocks + nbitmap.
Definition nblocks : Z := FSSIZE - nmeta.

Definition zeroes : list Z := replicate (Z.to_nat BSIZE) 0.

Record mst := mkMst {
  m_img : list (list Z);
  m_sb : superblock;
  freeinode : Z;
  freeblock : Z;
}.

Definition set_img (v : list (list Z)) (s : mst) : mst := mkMst v (m_sb s) (freeinode s) (freeblock s).
Definition set_msb (v : superblock) (s : mst) : mst := mkMst (m_img s) v (freeinode s) (freeblock s).
Definition set_freeinode (v : Z) (s : mst) : mst := mkMst (m_img s) (m_sb s) v (freeblock s).
Definition set_freeblock (v : Z) (s : mst) : mst := mkMst (m_img s) (m_sb s) (freeinode s) v.

Definition xshort (x : Z) : Z := le_val [u8 x; u8 (Z.shiftr x 8)].
Definition xint (x : Z) : Z :=
  le_val [u8 x; u8 (Z.shiftr x 8); u8 (Z.shiftr x 16); u8 (Z.shiftr x 24)].

(** The block at the offset [sec * BSIZE] of the file. *)
Definition sector (sec : Z) : nat := Z.to_nat (u32 (sec * BSIZE) / BSIZE).

(** A write past the end of the file leaves a hole of zeros. *)
Definition wsect (sec : Z) (buf : list Z) : M mst unit := modify (fun s =>
  let n := sector sec in
  let img := m_img s ++ replicate (S n - length (m_img s)) zeroes in
  set_img (<[n := buf]> img) s).

Definition rsect (sec : Z) : M mst (list Z) := fun s =>
  match m_img s !! sector sec with
  | Some buf => Ret buf s
  | None => Panic "read"
  end.

Definition winode (inum : Z) (ip : list Z) : M mst unit :=
  v <- gets m_sb ;;
  buf <- rsect (IBLOCK inum v) ;;
  wsect (IBLOCK inum v) (blit (dip_off inum) ip buf).

Definition rinode (inum : Z) : M mst (list Z) :=
  v <- gets m_sb ;;
  buf <- rsect (IBLOCK inum v) ;;
  ret (slice (dip_off inum) (Z.to_nat sizeof_dinode) buf).

(** The fields of a struct dinode. *)
Definition din_size (din : list Z) : Z := getf 4 8 din.
Definition din_addr (din : list Z) (k : Z) : Z := getf 4 (Z.to_nat (12 + 4 * k)) din.
Definition set_din_addr (k v : Z) (din : list Z) : list Z := setf 4 (Z.to_nat (12 + 4 * k)) v din.

Definition ialloc (type : Z) : M mst Z :=
  inum <- gets freeinode ;;
  modify (set_freeinode (u32 (inum + 1))) ;;
  let din := setf 4 8 (xint 0) (setf 2 6 (xshort 1) (setf 2 0 (xshort type)
               (replicate (Z.to_nat sizeof_dinode) 0))) in
  winode inum din ;;
  ret inum.

Definition balloc (used : Z) : M mst unit :=
  if negb (used <? BSIZE * 8) then panic "used < BSIZE*8" else
  let buf := foldl (fun buf i => set_bit i buf) zeroes (seqZ 0 used) in
  v <- gets m_sb ;;
  wsect (sb_bmapstart v) buf.

(** [freeblock++] *)
Definition next_block : M mst Z :=
  b <- gets freeblock ;;
  modify (set_freeblock (u32 (b + 1))) ;;
  ret b.

(** The block of the file that [fbn] selects, allocated when there is none. *)
Definition iappend_block (din : list Z) (fbn : Z) : M mst (list Z * Z) :=
  if fbn <? NDIRECT then
    din <- (if xint (din_addr din fbn) =? 0
            then b <- next_block ;; ret (set_din_addr fbn (xint b) din) else ret din) ;;
    ret (din, xint (din_addr din fbn))
  else
    din <- (if xint (din_addr din NDIRECT) =? 0
            then b <- next_block ;; ret (set_din_addr NDIRECT (xint b) din) else ret din) ;;
    indirect <- rsect (xint (din_addr din NDIRECT)) ;;
    indirect <- (if getw indirect (fbn - NDIRECT) =? 0 then
                   b <- next_block ;;
                   let indirect := setw indirect (fbn - NDIRECT) (xint b) in
                   wsect (xint (din_addr din NDIRECT)) indirect ;;
                   ret indirect
                 else ret indirect) ;;
    ret (din, xint (getw indirect (fbn - NDIRECT))).

Fixpoint iappend_loop (fuel : nat) (din p : list Z) (off n : Z) : M mst (list Z * Z) :=
  match fuel with
  | O => diverge
  | S f =>
      if 0 <? n then
        let fbn := off / BSIZE in
        if negb (fbn <? MAXFILE) then panic "fbn < MAXFILE" else
        r <- iappend_block din fbn ;;
        let '(din, x) := r in
        let n1 := Z.min n (u32 ((fbn + 1) * BSIZE - off)) in
        buf <- rsect x ;;
        wsect x (blit (Z.to_nat (off - fbn * BSIZE)) (take (Z.to_nat n1) p) buf) ;;
        iappend_loop f din (drop (Z.to_nat n1) p) (u32 (off + n1)) (n - n1)
      else ret (din, off)
  end.

Definition iappend (inum : Z) (p : list Z) (n : Z) : M mst unit :=
  din <- rinode inum ;;
  r <- iappend_loop (S (Z.to_nat n)) din p (xint (din_size din)) n ;;
  let '(din, off) := r in
  winode inum (setf 4 8 (xint off) din).

(** *** main() *)

Definition make_sb : superblock :=
  mkSb (xint FSSIZE) (xint nblocks) (xint NINODES) (xint nlog) (xint 2) (xint (2 + nlog))
    (xint (2 + nlog + ninodeblocks)).

(** The bytes of the struct. *)
Definition encode_sb (v : superblock) : list Z :=
  concat (le_bytes 4 <$> [sb_size v; sb_nblocks v; sb_ninodes v; sb_nlog v; sb_logstart v;
                          sb_inodestart v; sb_bmapstart v]).

(** A struct dirent with a name stored by strncpy(); the name of an entry is not longer. *)
Definition make_dirent (inum : Z) (name : list Z) : list Z :=
  setf 2 0 (xshort inum) (replicate 2 0) ++ strncpy_bytes (Z.to_nat DIRSIZ) name.

Fixpoint iappend_all (inum : Z) (chunks : list (list Z)) : M mst unit :=
  match chunks with
  | [] => ret tt
  | c :: cs => iappend inum c (Z.of_nat (length c)) ;; iappend_all inum cs
  end.

Section Host.
(** open() of a file, and what the calls of read() return until the first that is not positive. *)
Context (host : list Z -> option (list (list Z))).

Definition add_file (rootino : Z) (arg : list Z) : M mst unit :=
  if bool_decide (SLASH ∈ arg) then panic "index(argv[i], '/') == 0" else
  match host arg with
  | None => panic "open"
  | Some chunks =>
      let name := match arg with c :: arg' => if c =? 95 then arg' else arg | [] => arg end in
      inum <- ialloc T_FILE ;;
      iappend rootino (make_dirent inum name) sizeof_dirent ;;
      iappend_all inum chunks
  end.

Fixpoint add_files (rootino : Z) (args : list (list Z)) : M mst unit :=
  match args with
  | [] => ret tt
  | a :: args' => add_file rootino a ;; add_files rootino args'
  end.

(** The arguments after the name of the image; the image was opened. *)
Definition main (args : list (list Z)) : M mst unit :=
  modify (set_msb make_sb) ;;
  modify (set_freeblock nmeta) ;;
  for_range (Z.to_nat FSSIZE) 0 (fun i => wsect i zeroes) ;;
  wsect 1 (blit 0 (encode_sb make_sb) zeroes) ;;
  rootino <- ialloc T_DIR ;;
  if negb (rootino =? ROOTINO) then panic "rootino == ROOTINO" else
  iappend rootino (make_dirent rootino [46]) sizeof_dirent ;;
  iappend rootino (make_dirent rootino [46; 46]) sizeof_dirent ;;
  add_files rootino args ;;
  din <- rinode rootino ;;
  let off := u32 ((xint (din_size din) / BSIZE + 1) * BSIZE) in
  winode rootino (setf 4 8 (xint off) din) ;;
  b <- gets freeblock ;;
  balloc b.

(** The arguments of the program; [opens] tells whether the image can be created. *)
Definition mkfs (opens : bool) (argv : list (list Z)) : M mst unit :=
  match argv with
  | _ :: _ :: args =>
      if negb (BSIZE mod sizeof_dinode =? 0) then panic "(BSIZE % sizeof(struct dinode)) == 0" else
      if negb (BSIZE mod sizeof_dirent =? 0) then panic "(BSIZE % sizeof(struct dirent)) == 0" else
      if negb opens then panic "open" else main args
  | _ => panic "Usage: mkfs fs.img files..."
  end.
End Host.

Definition mkfs_start : mst := mkMst [] (mkSb 0 0 0 0 0 0 0) 1 0.

(** ** What mkfs builds: the files that the image has, seen as the kernel sees them, through the
    superblock, the inodes and the indirect blocks. *)

(** *** Numbers *)

Lemma xint_u32 x : xint x = u32 x.
Proof.
  unfold xint, u32. rewrite <-(le_val_le_bytes 4 x : _ = x mod 2 ^ 32). f_equal. cbn [le_bytes].
  unfold u8. rewrite !Z.shiftr_div_pow2 by lia.
  change (2 ^ 8) with 256. rewrite !Z.div_div by lia. done.
Qed.

Lemma xint_small x : 0 <= x < 2 ^ 32 -> xint x = x.
Proof. intros. rewrite xint_u32. unfold u32. by rewrite Z.mod_small. Qed.

Lemma xshort_small x : 0 <= x < 2 ^ 16 -> xshort x = x.
Proof.
  intros H. unfold xshort. cbn [le_val]. unfold u8. rewrite Z.shiftr_div_pow2 by lia.
  change (2 ^ 8) with 256. rewrite (Z.mod_small (x / 256)).
  - pose proof (Z.div_mod x 256). lia.
  - split; [apply Z.div_pos; lia|]. apply Z.div_lt_upper_bound; lia.
Qed.

Lemma sector_small b : 0 <= b < FSSIZE -> sector b = Z.to_nat b.
Proof.
  unfold FSSIZE, sector, BSIZE. intros H. rewrite u32_small by lia. by rewrite Z.div_mul.
Qed.

(** *** The image *)

(** Block [b], and the block of block [bn] of a file. *)
Definition sect (img : list (list Z)) (b : Z) : list Z := img !!! Z.to_nat b.
Definition fblk (img : list (list Z)) (din : list Z) (bn : Z) : Z :=
  if bn <? NDIRECT then din_addr din bn else getw (sect img (din_addr din NDIRECT)) (bn - NDIRECT).

(** The blocks after the ones in use are still zero. *)
Record image_ok (img : list (list Z)) (fb : Z) : Prop := {
  im_length : length img = Z.to_nat FSSIZE;
  im_blocks : Forall (fun b => length b = Z.to_nat BSIZE /\ Forall is_byte b) img;
  im_free : nmeta <= fb <= FSSIZE;
  im_zero : forall b, fb <= b < FSSIZE -> sect img b = zeroes;
}.

(** What is known of a file: its inode, the number of its blocks, whether it has an indirect
    block, and its bytes. *)
Record ent := mkEnt { e_din : list Z; e_nb : Z; e_ind : bool; e_data : list Z }.

(** A map from blocks to the file and the place in the file that the block is used for; the
    indirect block has the place MAXFILE. *)
Definition owners := Z -> option (Z * Z).

(** A byte of the file, zero after its end. *)
Definition data_at (l : list Z) (k : Z) : Z := default 0 (l !! Z.to_nat k).

(** The file is stored: its blocks are in use and are its own, the others are not allocated, and
    they have its bytes, with zeros after the last. *)
Record file_ok (img : list (list Z)) (ow : owners) (fb i : Z) (e : ent) : Prop := {
  fo_din : length (e_din e) = Z.to_nat sizeof_dinode /\ Forall is_byte (e_din e);
  fo_nb : 0 <= e_nb e <= MAXFILE;
  fo_len : Z.of_nat (length (e_data e)) <= e_nb e * BSIZE;
  fo_data : forall bn, 0 <= bn < e_nb e ->
    nmeta <= fblk img (e_din e) bn < fb /\ ow (fblk img (e_din e) bn) = Some (i, bn);
  fo_none : forall bn, e_nb e <= bn < NDIRECT -> din_addr (e_din e) bn = 0;
  fo_ind : if e_ind e then
      (nmeta <= din_addr (e_din e) NDIRECT < fb /\ ow (din_addr (e_din e) NDIRECT) = Some (i, MAXFILE)) /\
      forall bn, NDIRECT <= bn < MAXFILE -> e_nb e <= bn -> fblk img (e_din e) bn = 0
    else din_addr (e_din e) NDIRECT = 0 /\ e_nb e <= NDIRECT;
  fo_bytes : forall k, 0 <= k < e_nb e * BSIZE ->
    byte_at (sect img (fblk img (e_din e) (k / BSIZE))) (k mod BSIZE) = data_at (e_data e) k;
}.

Lemma fblk_ext img img' din bn :
  (NDIRECT <= bn -> sect img' (din_addr din NDIRECT) = sect img (din_addr din NDIRECT)) ->
  fblk img' din bn = fblk img din bn.
Proof. intros H. unfold fblk. destruct (Z.ltb_spec bn NDIRECT); [done|]. by rewrite H. Qed.

Lemma block_in k nb : 0 <= k < nb * BSIZE -> 0 <= k / BSIZE < nb.
Proof. intros H. split; [apply Z.div_pos; [lia|done]|]. apply Z.div_lt_upper_bound; [done|lia]. Qed.

(** What is written outside of the blocks of a file does not change it. *)
Lemma file_ok_frame img img' ow ow' fb fb' i e :
  file_ok img ow fb i e -> fb <= fb' ->
  (forall b p, nmeta <= b < fb -> ow b = Some (i, p) -> sect img' b = sect img b /\ ow' b = Some (i, p)) ->
  file_ok img' ow' fb' i e.
Proof.
  intros [H1 H2 H3 H4 H5 H6 H7] Hfb Hf.
  assert (forall bn, 0 <= bn < e_nb e \/ (e_ind e = true /\ NDIRECT <= bn) ->
    fblk img' (e_din e) bn = fblk img (e_din e) bn) as Hblk.
  { intros bn Hbn. apply fblk_ext. intros Hge. destruct (e_ind e); [|exfalso; destruct Hbn as [|[]]; [lia|done]].
    destruct H6 as [[Ha Ho] _]. by apply (Hf _ MAXFILE). }
  split; try done.
  - intros bn Hbn. rewrite Hblk by auto. destruct (H4 bn Hbn) as [Ha Ho].
    split; [lia|]. by apply (Hf _ bn).
  - destruct (e_ind e) eqn:Ei; [|done]. destruct H6 as [[Ha Ho] Hn]. split.
    + split; [lia|]. by apply (Hf _ MAXFILE).
    + intros bn Hbn Hge. rewrite Hblk by (right; split; [done|lia]). by apply Hn.
  - intros k Hk. pose proof (block_in _ _ Hk) as Hb.
    rewrite Hblk by auto. destruct (H4 _ Hb) as [Ha Ho].
    destruct (Hf _ _ Ha Ho) as [-> _]. by apply H7.
Qed.

(** *** Allocation *)

Lemma din_addr_bound din k : Forall is_byte din -> 0 <= din_addr din k < 2 ^ 32.
Proof. intros H. apply (getf_bound 4 _ din H). Qed.

Lemma din_addr_set_eq din k v : length din = Z.to_nat sizeof_dinode -> 0 <= k <= NDIRECT ->
  0 <= v < 2 ^ 32 -> din_addr (set_din_addr k v din) k = v.
Proof.
  unfold NDIRECT. intros Hl Hk Hv. unfold din_addr, set_din_addr. rewrite getf_setf_eq.
  - by apply Z.mod_small.
  - rewrite Hl. change (Z.to_nat sizeof_dinode) with 64%nat. lia.
Qed.

Lemma din_addr_set_ne din k k' v : k <> k' -> 0 <= k -> 0 <= k' ->
  din_addr (set_din_addr k v din) k' = din_addr din k'.
Proof. intros. unfold din_addr, set_din_addr. apply getf_setf_ne. lia. Qed.

Lemma set_din_addr_ok din k v : length din = Z.to_nat sizeof_dinode /\ Forall is_byte din ->
  length (set_din_addr k v din) = Z.to_nat sizeof_dinode /\ Forall is_byte (set_din_addr k v din).
Proof. intros [H1 H2]. unfold set_din_addr. rewrite length_setf. split; [done|]. by apply setf_byte. Qed.

(** The owner of a new block. *)
Definition give (b : Z) (w : Z * Z) (ow : owners) : owners := fun c => if decide (c = b) then Some w else ow c.

Lemma give_old b w (ow : owners) c : c < b -> give b w ow c = ow c.
Proof. intros. unfold give. rewrite decide_False by lia. done. Qed.

Lemma give_new b w ow : give b w ow b = Some w.
Proof. unfold give. by rewrite decide_True. Qed.

(** A block of zeros after the last one of the file. *)
Lemma zero_byte img fb k : sect img fb = zeroes -> byte_at (sect img fb) (k mod BSIZE) = 0.
Proof.
  intros ->. unfold byte_at, zeroes. apply lookup_total_replicate_2.
  pose proof (Z.mod_pos_bound k BSIZE eq_refl). lia.
Qed.

Lemma getw_zeroes j : getw zeroes j = 0.
Proof.
  unfold getw, getf, slice, zeroes. rewrite drop_replicate, take_replicate.
  generalize (4 `min` (Z.to_nat BSIZE - Z.to_nat (4 * j)))%nat. induction n as [|n IH]; [done|].
  cbn [replicate le_val]. lia.
Qed.

Lemma past_end (l : list Z) k : Z.of_nat (length l) <= k -> data_at l k = 0.
Proof. intros H. unfold data_at. by rewrite lookup_ge_None_2 by lia. Qed.

Lemma block_of k nb : 0 <= k < (nb + 1) * BSIZE -> k / BSIZE = nb \/ 0 <= k < nb * BSIZE.
Proof.
  unfold BSIZE. intros H. destruct (decide (k < nb * 512)); [right; lia|left].
  symmetry. apply (Z.div_unique k 512 nb (k - 512 * nb)); lia.
Qed.

Lemma sect_insert_eq img b v : 0 <= b < FSSIZE -> length img = Z.to_nat FSSIZE ->
  sect (<[Z.to_nat b := v]> img) b = v.
Proof. intros. apply list_lookup_total_insert_eq. lia. Qed.

Lemma sect_insert_ne img b c v : 0 <= b -> 0 <= c -> b <> c -> sect (<[Z.to_nat b := v]> img) c = sect img c.
Proof. intros. apply list_lookup_total_insert_ne. lia. Qed.

Lemma sect_getw_eq blk k v : length blk = Z.to_nat BSIZE -> 0 <= k < NINDIRECT -> 0 <= v < 2 ^ 32 ->
  getw (setw blk k v) k = v.
Proof.
  intros Hl Hk Hv. unfold getw, setw. rewrite getf_setf_eq; [by apply Z.mod_small|].
  rewrite Hl. change NINDIRECT with 128 in Hk. unfold BSIZE. lia.
Qed.

Lemma sect_getw_ne blk k k' v : k <> k' -> 0 <= k -> 0 <= k' -> getw (setw blk k v) k' = getw blk k'.
Proof. intros. unfold getw, setw. apply getf_setf_ne. lia. Qed.

Lemma sect_ok img fb b : image_ok img fb -> 0 <= b < FSSIZE ->
  length (sect img b) = Z.to_nat BSIZE /\ Forall is_byte (sect img b).
Proof.
  intros Hi Hb. unfold sect. apply (Forall_lookup_total_1 _ _ _ (im_blocks _ _ Hi)).
  rewrite (im_length _ _ Hi). lia.
Qed.

Section Alloc.
Context (img : list (list Z)) (ow : owners) (fb i : Z) (e : ent).
Context (Himg : image_ok img fb) (Hfb : fb < FSSIZE) (He : file_ok img ow fb i e).

Lemma fb_small : nmeta <= fb < 2 ^ 32.
Proof using Himg Hfb. pose proof (im_free _ _ Himg). unfold FSSIZE in *. lia. Qed.

Lemma alloc_direct : e_nb e < NDIRECT -> e_ind e = false ->
  file_ok img (give fb (i, e_nb e) ow) (fb + 1) i
    (mkEnt (set_din_addr (e_nb e) fb (e_din e)) (e_nb e + 1) false (e_data e)).
Proof using All.
  intros Hnb Hi. destruct He as [H1 H2 H3 H4 H5 H6 H7]. rewrite Hi in H6. pose proof fb_small as Hs.
  assert (0 < nmeta) as Hm by done.
  assert (forall bn, 0 <= bn < e_nb e ->
    fblk img (set_din_addr (e_nb e) fb (e_din e)) bn = fblk img (e_din e) bn) as Hold.
  { intros bn Hbn. unfold fblk. rewrite (proj2 (Z.ltb_lt _ _)) by lia. apply din_addr_set_ne; lia. }
  assert (fblk img (set_din_addr (e_nb e) fb (e_din e)) (e_nb e) = fb) as Hnew.
  { unfold fblk. rewrite (proj2 (Z.ltb_lt _ _)) by lia. apply din_addr_set_eq; [apply H1|lia..]. }
  assert (NDIRECT < MAXFILE) as Hmax by done.
  split; cbn [e_din e_nb e_ind e_data].
  - by apply set_din_addr_ok.
  - lia.
  - unfold BSIZE in *. lia.
  - intros bn Hbn. destruct (decide (bn = e_nb e)) as [->|].
    + rewrite Hnew, give_new. split; [lia|done].
    + rewrite Hold by lia. destruct (H4 bn) as [Ha Ho]; [lia|]. rewrite give_old by lia. split; [lia|done].
  - intros bn Hbn. rewrite din_addr_set_ne by lia. apply H5. lia.
  - rewrite din_addr_set_ne by lia. split; [apply H6|lia].
  - intros k Hk. destruct (block_of k (e_nb e)) as [E|Hk']; [lia| |].
    + rewrite E, Hnew, zero_byte by (apply (im_zero _ _ Himg); lia).
      symmetry. apply past_end. assert (BSIZE * e_nb e <= k) by (rewrite <-E; apply Z.mul_div_le; done). lia.
    + rewrite Hold; [by apply H7|by apply block_in].
Qed.

Lemma alloc_indirect : e_nb e = NDIRECT -> e_ind e = false ->
  file_ok img (give fb (i, MAXFILE) ow) (fb + 1) i
    (mkEnt (set_din_addr NDIRECT fb (e_din e)) (e_nb e) true (e_data e)).
Proof using All.
  intros Hnb Hi. destruct He as [H1 H2 H3 H4 H5 H6 H7]. rewrite Hi in H6. pose proof fb_small as Hs.
  assert (0 < nmeta) as Hm by done.
  assert (forall bn, 0 <= bn < e_nb e ->
    fblk img (set_din_addr NDIRECT fb (e_din e)) bn = fblk img (e_din e) bn) as Hold.
  { intros bn Hbn. unfold fblk. rewrite (proj2 (Z.ltb_lt _ _)) by lia. apply din_addr_set_ne; lia. }
  assert (din_addr (set_din_addr NDIRECT fb (e_din e)) NDIRECT = fb) as Hnew.
  { apply din_addr_set_eq; [apply H1|unfold NDIRECT; lia|lia]. }
  split; cbn [e_din e_nb e_ind e_data].
  - by apply set_din_addr_ok.
  - lia.
  - lia.
  - intros bn Hbn. rewrite Hold by lia. destruct (H4 bn) as [Ha Ho]; [lia|]. rewrite give_old by lia. split; [lia|done].
  - intros bn Hbn. lia.
  - rewrite Hnew, give_new. split; [split; [lia|done]|]. intros bn Hbn _.
    unfold fblk. rewrite (proj2 (Z.ltb_ge _ _)) by lia. rewrite Hnew, (im_zero _ _ Himg) by lia.
    apply getw_zeroes.
  - intros k Hk. rewrite Hold; [by apply H7|by apply block_in].
Qed.

Lemma alloc_entry : NDIRECT <= e_nb e < MAXFILE -> e_ind e = true ->
  let a := din_addr (e_din e) NDIRECT in
  let img' := <[Z.to_nat a := setw (sect img a) (e_nb e - NDIRECT) fb]> img in
  file_ok img' (give fb (i, e_nb e) ow) (fb + 1) i (mkEnt (e_din e) (e_nb e + 1) true (e_data e)) /\
  fblk img' (e_din e) (e_nb e) = fb.
Proof using All.
  intros Hnb Hi a img'. destruct He as [H1 H2 H3 H4 H5 H6 H7]. rewrite Hi in H6. pose proof fb_small as Hs.
  destruct H6 as [[Ha Hoa] H6]. fold a in Ha, Hoa.
  assert (0 < nmeta) as Hm by done.
  assert (sect img' a = setw (sect img a) (e_nb e - NDIRECT) fb) as Esa.
  { apply sect_insert_eq; [lia|apply (im_length _ _ Himg)]. }
  assert (forall b, 0 <= b -> b <> a -> sect img' b = sect img b) as Esb.
  { intros b Hb Hne. apply sect_insert_ne; [lia|done|done]. }
  destruct (sect_ok img fb a Himg) as [Hla _]; [lia|].
  assert (forall bn, 0 <= bn -> bn <> e_nb e -> fblk img' (e_din e) bn = fblk img (e_din e) bn) as Hold.
  { intros bn Hbn Hne. unfold fblk. destruct (Z.ltb_spec bn NDIRECT); [done|]. fold a. rewrite Esa.
    apply sect_getw_ne; lia. }
  assert (fblk img' (e_din e) (e_nb e) = fb) as Hnew.
  { unfold fblk. rewrite (proj2 (Z.ltb_ge _ _)) by lia. fold a. rewrite Esa.
    apply sect_getw_eq; [done| |lia]. unfold MAXFILE in Hnb. lia. }
  split; [|done]. split; cbn [e_din e_nb e_ind e_data]; try done.
  - lia.
  - unfold BSIZE in *. lia.
  - intros bn Hbn. destruct (decide (bn = e_nb e)) as [->|].
    + rewrite Hnew, give_new. split; [lia|done].
    + rewrite Hold by lia. destruct (H4 bn) as [Hb Ho]; [lia|]. rewrite give_old by lia. split; [lia|done].
  - intros bn Hbn. apply H5. lia.
  - fold a. rewrite give_old by lia. split; [split; [lia|done]|].
    intros bn Hbn Hge. rewrite Hold by lia. apply H6; lia.
  - intros k Hk. destruct (block_of k (e_nb e)) as [E|Hk']; [lia| |].
    + rewrite E, Hnew. rewrite zero_byte by (rewrite Esb by lia; apply (im_zero _ _ Himg); lia).
      symmetry. apply past_end. assert (BSIZE * e_nb e <= k) by (rewrite <-E; apply Z.mul_div_le; done). lia.
    + pose proof (block_in _ _ Hk') as Hb. rewrite Hold by lia. rewrite <-H7 by done. f_equal.
      destruct (H4 _ Hb) as [Hr Ho]. apply Esb; [lia|]. intros E. rewrite E, Hoa in Ho.
      injection Ho as Ho. unfold MAXFILE, NDIRECT in *. lia.
Qed.
End Alloc.

(** *** Writing *)

Lemma data_at_app l c k : 0 <= k ->
  data_at (l ++ c) k = if decide (k < Z.of_nat (length l)) then data_at l k else data_at c (k - Z.of_nat (length l)).
Proof.
  intros Hk. unfold data_at. case_decide.
  - by rewrite lookup_app_l by lia.
  - rewrite lookup_app_r by lia. do 2 f_equal. lia.
Qed.

Lemma sect_byte_blit o c blk j : 0 <= o -> 0 <= j < Z.of_nat (length blk) ->
  byte_at (blit (Z.to_nat o) c blk) j =
    if decide (o <= j < o + Z.of_nat (length c)) then data_at c (j - o) else byte_at blk j.
Proof.
  intros Ho Hj. unfold byte_at, blit, data_at. rewrite !list_lookup_total_alt. case_decide.
  - rewrite list_lookup_inserts by lia. replace (Z.to_nat j - Z.to_nat o)%nat with (Z.to_nat (j - o)) by lia.
    by destruct (lookup_lt_is_Some_2 c (Z.to_nat (j - o))) as [v ->]; [lia|].
  - destruct (decide (j < o)); [by rewrite list_lookup_inserts_lt by lia|].
    by rewrite list_lookup_inserts_ge by lia.
Qed.

Section Chunk.
Context (img : list (list Z)) (ow : owners) (fb i : Z) (e : ent) (c : list Z).
Context (Himg : image_ok img fb) (He : file_ok img ow fb i e).
Let off := Z.of_nat (length (e_data e)).
Context (Hlt : off / BSIZE < e_nb e) (Hfit : off mod BSIZE + Z.of_nat (length c) <= BSIZE).
Let x := fblk img (e_din e) (off / BSIZE).
Let img' := <[Z.to_nat x := blit (Z.to_nat (off - off / BSIZE * BSIZE)) c (sect img x)]> img.

Lemma chunk_block : 0 <= off / BSIZE < e_nb e /\ nmeta <= x < fb /\ ow x = Some (i, off / BSIZE).
Proof using All.
  assert (0 <= off / BSIZE < e_nb e) as H by (split; [apply Z.div_pos; [lia|done]|done]).
  split; [done|]. by apply (fo_data _ _ _ _ _ He).
Qed.

Lemma chunk_other b p : nmeta <= b < fb -> ow b = Some p -> p <> (i, off / BSIZE) -> sect img' b = sect img b.
Proof using All.
  destruct chunk_block as (H1 & H2 & H3). intros Hb Ho Hp. assert (0 < nmeta) by done.
  apply sect_insert_ne; [lia|lia|]. intros <-. rewrite H3 in Ho. by injection Ho.
Qed.

Lemma write_chunk : file_ok img' ow fb i (mkEnt (e_din e) (e_nb e) (e_ind e) (e_data e ++ c)).
Proof using All.
  destruct chunk_block as (Hbn & Hx & Hox). pose proof (im_free _ _ Himg) as Hfr.
  assert (0 < nmeta) as Hm by done. destruct (sect_ok img fb x Himg) as [Hlx _]; [lia|].
  assert (forall bn, 0 <= bn -> bn < NDIRECT \/ e_ind e = true -> fblk img' (e_din e) bn = fblk img (e_din e) bn) as Hblk.
  { intros bn H0 Hb. apply fblk_ext. intros Hge. destruct Hb as [|Hb]; [lia|].
    pose proof (fo_ind _ _ _ _ _ He) as Hi. rewrite Hb in Hi. destruct Hi as [[Ha Ho] _].
    apply (chunk_other _ _ Ha Ho). intros [= E]. pose proof (fo_nb _ _ _ _ _ He). lia. }
  assert (forall bn, 0 <= bn < e_nb e -> bn < NDIRECT \/ e_ind e = true) as Hcase.
  { intros bn Hb. pose proof (fo_ind _ _ _ _ _ He) as Hi. destruct (e_ind e); [by right|left]. lia. }
  pose proof (Z.div_mod off BSIZE ltac:(done)) as Hdm. pose proof (Z.mod_pos_bound off BSIZE eq_refl) as Hmb.
  destruct He as [H1 H2 H3 H4 H5 H6 H7]. split; cbn [e_din e_nb e_ind e_data]; try done.
  - rewrite length_app. unfold BSIZE in *. lia.
  - intros bn Hb. rewrite Hblk by (lia || by apply Hcase). by apply H4.
  - destruct (e_ind e); [|done]. destruct H6 as [Ha H6]. split; [done|]. intros bn Hb Hge.
    rewrite Hblk by (lia || by right). by apply H6.
  - intros k Hk. pose proof (block_in _ _ Hk) as Hkb. rewrite Hblk by (lia || by apply Hcase).
    pose proof (Z.div_mod k BSIZE ltac:(done)) as Hkm. pose proof (Z.mod_pos_bound k BSIZE eq_refl) as Hkmb.
    rewrite data_at_app by lia. fold off. destruct (H4 _ Hkb) as [Hr Ho].
    destruct (decide (k / BSIZE = off / BSIZE)) as [E|Hne].
    + rewrite E. fold x. unfold img'. rewrite sect_insert_eq; [|lia|apply (im_length _ _ Himg)].
      replace (off - off / BSIZE * BSIZE) with (off mod BSIZE) by lia.
      rewrite sect_byte_blit by (rewrite ?Hlx; unfold BSIZE in *; lia).
      assert (byte_at (sect img x) (k mod BSIZE) = data_at (e_data e) k) as Hold by (unfold x; rewrite <-E; by apply H7).
      rewrite Hold. repeat case_decide; try lia.
      * f_equal. lia.
      * rewrite !past_end; [done|unfold BSIZE in *; lia|lia].
    + rewrite (chunk_other _ _ Hr Ho) by congruence. rewrite H7 by done. case_decide; [done|].
      rewrite !past_end; [done| |lia]. unfold BSIZE in *. lia.
Qed.

Lemma write_chunk_image : Forall is_byte c -> image_ok img' fb.
Proof using All.
  intros Hc. destruct chunk_block as (Hbn & Hx & _). assert (0 < nmeta) as Hm by done.
  pose proof (im_free _ _ Himg) as Hf. destruct (sect_ok img fb x Himg) as [Hl Hb]; [lia|].
  split; unfold img'.
  - rewrite length_insert. apply Himg.
  - apply Forall_insert; [apply Himg|]. rewrite length_blit. split; [done|]. by apply blit_byte.
  - done.
  - intros b Hb'. rewrite sect_insert_ne by lia. by apply (im_zero _ _ Himg).
Qed.
End Chunk.
