(* ===== verification/MkfsBuild.v ===== *)
(** The operations of mkfs.c on the image: every file that it made keeps its inode, its blocks and
    its bytes while it makes the others. *)

From S2P Require Export Mkfs.

Open Scope Z_scope.

(** *** The files so far *)

Record world (s : mst) (ow : owners) (E : Z -> ent) : Prop := {
  w_img : image_ok (m_img s) (freeblock s);
  w_sb : m_sb s = make_sb;
  w_ino : 1 <= freeinode s <= NINODES;
  w_files : forall i, 1 <= i < freeinode s -> file_ok (m_img s) ow (freeblock s) i (E i);
}.

Definition size_of (e : ent) : Z := Z.of_nat (length (e_data e)).

(** As many blocks as the bytes need. *)
Record tight (e : ent) : Prop := {
  ti_nb : e_nb e = (size_of e + (BSIZE - 1)) / BSIZE;
  ti_ind : e_ind e = (NDIRECT <? e_nb e);
}.

Definition blocks_for (nb : Z) : Z := nb + if NDIRECT <? nb then 1 else 0.

Definition upd_ent (i : Z) (e : ent) (E : Z -> ent) : Z -> ent := fun j => if decide (j = i) then e else E j.

Lemma upd_ent_eq i e E : upd_ent i e E i = e.
Proof. unfold upd_ent. by rewrite decide_True. Qed.

Lemma upd_ent_ne i j e E : j <> i -> upd_ent i e E j = E j.
Proof. intros. unfold upd_ent. by rewrite decide_False. Qed.

(** Blocks of other files and of the metadata are left alone. *)
Record apart (i : Z) (ow : owners) (s s' : mst) : Prop := {
  ap_sb : m_sb s' = m_sb s;
  ap_ino : freeinode s' = freeinode s;
  ap_fb : freeblock s <= freeblock s';
  ap_meta : forall b, 0 <= b < nmeta -> sect (m_img s') b = sect (m_img s) b;
  ap_files : forall b j p, nmeta <= b < freeblock s -> ow b = Some (j, p) -> j <> i ->
    sect (m_img s') b = sect (m_img s) b;
}.

Lemma world_step s s' ow ow' E i e : world s ow E -> apart i ow s s' ->
  image_ok (m_img s') (freeblock s') -> (forall b, b < freeblock s -> ow' b = ow b) ->
  file_ok (m_img s') ow' (freeblock s') i e -> world s' ow' (upd_ent i e E).
Proof.
  intros [H1 H2 H3 H4] [A1 A2 A3 A4 A5] Hi Ho He. split; [done|congruence|lia|].
  rewrite A2. intros j Hj. destruct (decide (j = i)) as [->|Hne].
  - by rewrite upd_ent_eq.
  - rewrite upd_ent_ne by done. apply (file_ok_frame (m_img s) _ ow _ (freeblock s)); [by apply H4|done|].
    intros b p Hb Hp. rewrite Ho by lia. split; [by apply (A5 b j p)|done].
Qed.

(** *** Sectors *)

Lemma rsect_run s fb b : image_ok (m_img s) fb -> 0 <= b < FSSIZE -> rsect b s = Ret (sect (m_img s) b) s.
Proof.
  intros Hi Hb. unfold rsect. rewrite sector_small by done.
  rewrite (list_lookup_lookup_total_lt (m_img s) (Z.to_nat b)); [done|].
  rewrite (im_length _ _ Hi). lia.
Qed.

Lemma wsect_run s b v : length (m_img s) = Z.to_nat FSSIZE -> 0 <= b < FSSIZE ->
  wsect b v s = Ret tt (set_img (<[Z.to_nat b := v]> (m_img s)) s).
Proof.
  intros Hl Hb. unfold wsect, modify. rewrite sector_small by done.
  replace (S (Z.to_nat b) - length (m_img s))%nat with 0%nat by lia. cbn. by rewrite app_nil_r.
Qed.

Lemma next_block_run s : 0 <= freeblock s < FSSIZE ->
  next_block s = Ret (freeblock s) (set_freeblock (freeblock s + 1) s).
Proof.
  intros H. unfold next_block, bind, gets, modify, ret. by rewrite u32_small by (unfold FSSIZE in *; lia).
Qed.

(** Less free space. *)
Lemma image_ok_next img fb : image_ok img fb -> fb < FSSIZE -> image_ok img (fb + 1).
Proof. intros [H1 H2 H3 H4] Hf. split; [done|done|lia|]. intros b Hb. apply H4. lia. Qed.

(** *** The block to append to *)

Section Block.
Context (s : mst) (ow : owners) (E : Z -> ent) (i : Z).
Context (Hw : world s ow E) (Hi : 1 <= i < freeinode s).
Let e := E i.
Let nb := e_nb e.

Lemma file_i : file_ok (m_img s) ow (freeblock s) i e.
Proof using Hw Hi. by apply Hw. Qed.

Lemma fb_range : 0 < nmeta <= freeblock s.
Proof using Hw. split; [done|]. apply (im_free _ _ (w_img _ _ _ Hw)). Qed.

(** A block that is there. *)
Lemma block_there fbn : 0 <= fbn < nb ->
  iappend_block (e_din e) fbn s = Ret (e_din e, fblk (m_img s) (e_din e) fbn) s.
Proof using Hw Hi.
  intros Hf. pose proof file_i as He. destruct (fo_data _ _ _ _ _ He fbn Hf) as [Hr _].
  pose proof fb_range as Hfb. pose proof (im_free _ _ (w_img _ _ _ Hw)) as Hfree. destruct (fo_din _ _ _ _ _ He) as [_ Hby].
  unfold iappend_block. unfold fblk in *. destruct (Z.ltb_spec fbn NDIRECT).
  - rewrite xint_small by by apply din_addr_bound. rewrite (proj2 (Z.eqb_neq _ _)) by lia.
    unfold bind, ret. by rewrite xint_small by by apply din_addr_bound.
  - pose proof (fo_ind _ _ _ _ _ He) as Hind. destruct (e_ind e); [|unfold nb in Hf; lia].
    destruct Hind as [[Ha _] _].
    rewrite xint_small by by apply din_addr_bound. rewrite (proj2 (Z.eqb_neq _ _)) by lia.
    unfold bind, ret. rewrite xint_small by by apply din_addr_bound.
    rewrite (rsect_run s (freeblock s)) by (apply Hw || lia).
    rewrite (proj2 (Z.eqb_neq _ _)) by lia. rewrite xint_small; [done|].
    apply getf_bound. apply (sect_ok _ (freeblock s)); [apply Hw|lia].
Qed.

(** A new block, in the inode. *)
Lemma block_direct : nb < NDIRECT -> e_ind e = false -> freeblock s < FSSIZE ->
  let din := set_din_addr nb (freeblock s) (e_din e) in
  let s' := set_freeblock (freeblock s + 1) s in
  iappend_block (e_din e) nb s = Ret (din, fblk (m_img s') din nb) s' /\
  world s' (give (freeblock s) (i, nb) ow) (upd_ent i (mkEnt din (nb + 1) false (e_data e)) E) /\
  apart i ow s s'.
Proof using Hw Hi.
  intros Hnb Hind Hfb din s'. pose proof file_i as He. pose proof fb_range as Hr.
  destruct (fo_din _ _ _ _ _ He) as [Hl Hby]. pose proof (fo_nb _ _ _ _ _ He) as Hnb0. fold nb in Hnb0.
  assert (din_addr din nb = freeblock s) as En.
  { apply din_addr_set_eq; [done|lia|unfold FSSIZE in Hfb; lia]. }
  assert (apart i ow s s') as Ha by (split; [done|done|cbn; lia|done|done]).
  split_and!; [| |done].
  - unfold iappend_block, fblk. rewrite (proj2 (Z.ltb_lt _ _)) by lia.
    rewrite (fo_none _ _ _ _ _ He) by lia. change (xint 0 =? 0) with true. cbn match.
    unfold bind at 1 2. rewrite next_block_run by lia. unfold ret, bind.
    rewrite (xint_small (freeblock s)) by (unfold FSSIZE in Hfb; lia). fold din.
    by rewrite En, xint_small by (unfold FSSIZE in Hfb; lia).
  - apply (world_step s _ ow); [done|done|by apply image_ok_next; [apply Hw|]| |].
    + intros b Hb. by apply give_old.
    + apply (alloc_direct (m_img s) ow (freeblock s) i e); [apply Hw|done|done|done|done].
Qed.

(** A new entry in the indirect block. *)
Lemma block_entry : NDIRECT <= nb < MAXFILE -> e_ind e = true -> freeblock s < FSSIZE ->
  let a := din_addr (e_din e) NDIRECT in
  let s' := set_img (<[Z.to_nat a := setw (sect (m_img s) a) (nb - NDIRECT) (freeblock s)]> (m_img s))
              (set_freeblock (freeblock s + 1) s) in
  iappend_block (e_din e) nb s = Ret (e_din e, fblk (m_img s') (e_din e) nb) s' /\
  world s' (give (freeblock s) (i, nb) ow) (upd_ent i (mkEnt (e_din e) (nb + 1) true (e_data e)) E) /\
  apart i ow s s'.
Proof using Hw Hi.
  intros Hnb Hind Hfb a s'. pose proof file_i as He. pose proof fb_range as Hr.
  destruct (fo_din _ _ _ _ _ He) as [Hl Hby].
  destruct (alloc_entry (m_img s) ow (freeblock s) i e) as [Hf Hnew]; [apply Hw|done|done|done|done|].
  pose proof (fo_ind _ _ _ _ _ He) as H6. rewrite Hind in H6. destruct H6 as [[Har Hao] H6]. fold a in Har, Hao.
  destruct (sect_ok (m_img s) (freeblock s) a) as [Hla Hba]; [apply Hw|lia|].
  assert (apart i ow s s') as Ha.
  { split; [done|done|cbn; lia| |]; cbn.
    - intros b Hb. by rewrite sect_insert_ne by lia.
    - intros b j p Hb Hj Hne. rewrite sect_insert_ne; [done|lia|lia|]. congruence. }
  split_and!; [| |done].
  - unfold iappend_block. rewrite (proj2 (Z.ltb_ge _ _)) by lia. fold a.
    rewrite (xint_small a) by by apply din_addr_bound. rewrite (proj2 (Z.eqb_neq _ _)) by lia.
    unfold bind at 1, ret at 1. fold a. rewrite (xint_small a) by by apply din_addr_bound.
    unfold bind at 1. rewrite (rsect_run s (freeblock s)) by (apply Hw || lia).
    specialize (H6 nb ltac:(lia) ltac:(unfold nb; lia)). unfold fblk in H6. rewrite (proj2 (Z.ltb_ge _ _)) in H6 by lia.
    fold a in H6. rewrite H6. change (0 =? 0) with true. cbn match.
    unfold bind at 1 2. rewrite next_block_run by lia. rewrite (xint_small (freeblock s)) by (unfold FSSIZE in Hfb; lia).
    unfold bind at 1. rewrite wsect_run by (cbn; rewrite ?(im_length _ _ (w_img _ _ _ Hw)); lia || done).
    unfold ret, bind. fold s'. rewrite xint_small; [|rewrite sect_getw_eq by (done || unfold MAXFILE, FSSIZE in *; lia); unfold FSSIZE in *; lia].
    do 2 f_equal. unfold fblk. rewrite (proj2 (Z.ltb_ge _ _)) by lia. fold a. cbn.
    rewrite sect_insert_eq; [done|lia|apply Hw].
  - apply (world_step s _ ow); [done|done| | |done].
    + destruct (image_ok_next _ _ (w_img _ _ _ Hw) Hfb) as [I1 I2 I3 I4].
      split; cbn [s' m_img freeblock set_img set_freeblock].
      * by rewrite length_insert.
      * apply Forall_insert; [done|]. unfold setw. rewrite length_setf. split; [done|by apply setf_byte].
      * done.
      * intros b Hb. rewrite sect_insert_ne by lia. by apply I4.
    + intros b Hb. by apply give_old.
Qed.
End Block.

Lemma world_ext s ow E E' : (forall j, E j = E' j) -> world s ow E -> world s ow E'.
Proof. intros H [H1 H2 H3 H4]. split; [done..|]. intros j Hj. rewrite <-H. by apply H4. Qed.

Lemma apart_trans i ow ow' s s' s'' : apart i ow s s' -> apart i ow' s' s'' ->
  (forall b, b < freeblock s -> ow' b = ow b) -> apart i ow s s''.
Proof.
  intros [A1 A2 A3 A4 A5] [B1 B2 B3 B4 B5] Ho. split; try congruence; [lia| |].
  - intros b Hb. by rewrite B4, A4.
  - intros b j p Hb Hj Hne. rewrite (B5 b j p), (A5 b j p); [done..|lia|by rewrite Ho by lia|done].
Qed.

(** The first fields of an inode are not addresses. *)
Lemma take_set_din_addr k v din : 0 <= k -> take 12 (set_din_addr k v din) = take 12 din.
Proof.
  intros Hk. apply (slice_blit_ne 0 12). left. lia.
Qed.

Section Block2.
Context (s : mst) (ow : owners) (E : Z -> ent) (i : Z).
Context (Hw : world s ow E) (Hi : 1 <= i < freeinode s).
Let e := E i.
Let nb := e_nb e.

(** The indirect block and its first entry. *)
Lemma block_indirect : nb = NDIRECT -> e_ind e = false -> freeblock s + 1 < FSSIZE ->
  exists s' ow', let din := set_din_addr NDIRECT (freeblock s) (e_din e) in
  iappend_block (e_din e) nb s = Ret (din, fblk (m_img s') din nb) s' /\
  world s' ow' (upd_ent i (mkEnt din (nb + 1) true (e_data e)) E) /\
  apart i ow s s' /\ freeblock s' = freeblock s + 2 /\ (forall b, b < freeblock s -> ow' b = ow b).
Proof using Hw Hi.
  intros Hnb Hind Hfb. pose proof (file_i s ow E i Hw Hi) as He. fold e in He.
  pose proof (fb_range s ow E Hw) as Hr. destruct (fo_din _ _ _ _ _ He) as [Hl Hby].
  set (din := set_din_addr NDIRECT (freeblock s) (e_din e)).
  set (s1 := set_freeblock (freeblock s + 1) s). set (ow1 := give (freeblock s) (i, MAXFILE) ow).
  set (e1 := mkEnt din nb true (e_data e)).
  assert (forall b, b < freeblock s -> ow1 b = ow b) as Ho1 by (intros b Hb; by apply give_old).
  assert (apart i ow s s1) as Ha1 by (split; [done|done|cbn; lia|done|done]).
  assert (world s1 ow1 (upd_ent i e1 E)) as Hw1.
  { apply (world_step s _ ow); [done|done|apply image_ok_next; [apply Hw|lia]|done|].
    apply (alloc_indirect (m_img s) ow (freeblock s) i e); [apply Hw|lia|done|done|done]. }
  destruct (block_entry s1 ow1 (upd_ent i e1 E) i Hw1 Hi) as (Er & Hw2 & Ha2);
    rewrite ?upd_ent_eq in *; cbn [e1 e_nb e_ind e_din e_data] in *.
  - rewrite Hnb. by split.
  - done.
  - cbn. lia.
  - match type of Ha2 with apart _ _ _ ?t => set (s2 := t) in * end.
    exists s2. eexists. cbn zeta. split_and!.
    + rewrite <-Er. unfold iappend_block. rewrite (proj2 (Z.ltb_ge _ _)) by lia.
      assert (din_addr din NDIRECT = freeblock s) as ->.
      { apply din_addr_set_eq; [done|unfold NDIRECT; lia|unfold FSSIZE in Hfb; lia]. }
      pose proof (fo_ind _ _ _ _ _ He) as H6. rewrite Hind in H6. destruct H6 as [-> _].
      change (xint 0 =? 0) with true. cbn match. unfold bind at 1 2. rewrite next_block_run by lia.
      rewrite (xint_small (freeblock s)) by (unfold FSSIZE in Hfb; lia).
      rewrite (proj2 (Z.eqb_neq _ _)) by lia. done.
    + eapply world_ext; [|exact Hw2]. intros j. unfold upd_ent. by case_decide.
    + by apply (apart_trans i ow ow1 s s1).
    + cbn. lia.
    + intros b Hb. rewrite give_old by (cbn; lia). by apply Ho1.
Qed.

Lemma tight_block : tight e ->
  size_of e / BSIZE = nb \/ 0 <= size_of e / BSIZE < nb /\ nb = size_of e / BSIZE + 1.
Proof.
  intros [H _]. unfold nb. rewrite H. assert (0 <= size_of e) by (unfold size_of; lia). unfold BSIZE.
  pose proof (Z.div_mod (size_of e) 512 ltac:(done)) as Hd. pose proof (Z.mod_pos_bound (size_of e) 512 eq_refl) as Hm.
  assert (0 <= size_of e / 512) by (apply Z.div_pos; lia).
  destruct (decide (size_of e mod 512 = 0)) as [E0|Hne].
  - left. apply (Z.div_unique _ 512 _ 511); lia.
  - right. assert ((size_of e + (512 - 1)) / 512 = size_of e / 512 + 1) as ->.
    { symmetry. apply (Z.div_unique _ 512 _ (size_of e mod 512 - 1)); lia. }
    lia.
Qed.

Lemma block_correct : tight e -> let fbn := size_of e / BSIZE in fbn < MAXFILE ->
  freeblock s + blocks_for (fbn + 1) - blocks_for nb <= FSSIZE ->
  exists s' ow' din, iappend_block (e_din e) fbn s = Ret (din, fblk (m_img s') din fbn) s' /\
  world s' ow' (upd_ent i (mkEnt din (fbn + 1) (NDIRECT <? fbn + 1) (e_data e)) E) /\
  apart i ow s s' /\ freeblock s' = freeblock s + blocks_for (fbn + 1) - blocks_for nb /\
  (forall b, b < freeblock s -> ow' b = ow b) /\ take 12 din = take 12 (e_din e).
Proof using Hw Hi.
  intros Ht fbn Hmax Hcap. pose proof (ti_ind _ Ht) as Hind. fold nb in Hind.
  pose proof (file_i s ow E i Hw Hi) as He. fold e in He. pose proof (fo_nb _ _ _ _ _ He) as Hnb0. fold nb in Hnb0.
  assert (forall b n, b < freeblock s -> give (freeblock s) (i, n) ow b = ow b) as Hgive.
  { intros b n Hb. by apply give_old. }
  destruct (tight_block Ht) as [En|[Hf En]]; fold fbn in En; [|fold fbn in Hf].
  - unfold blocks_for in *. rewrite En in *. destruct (Z.ltb_spec nb NDIRECT) as [Hlt|Hge].
    + rewrite (proj2 (Z.ltb_ge NDIRECT nb)) in * by lia. rewrite (proj2 (Z.ltb_ge NDIRECT (nb + 1))) in * by lia.
      destruct (block_direct s ow E i Hw Hi) as (Er & Hw' & Ha); [done|done|lia|].
      eexists _, _, _. split_and!; [exact Er|exact Hw'|done|cbn; lia|by intros; apply Hgive|].
      apply take_set_din_addr. fold e nb. lia.
    + rewrite (proj2 (Z.ltb_lt NDIRECT (nb + 1))) in * by lia. destruct (Z.ltb_spec NDIRECT nb) as [Hgt|Hle].
      * destruct (block_entry s ow E i Hw Hi) as (Er & Hw' & Ha); [fold e nb; lia|done|lia|].
        eexists _, _, _. split_and!; [exact Er|exact Hw'|done|cbn; lia|by intros; apply Hgive|done].
      * destruct block_indirect as (s' & ow' & Er & Hw' & Ha & Hfb & Ho); [lia|done|lia|].
        eexists _, _, _. split_and!; [exact Er|exact Hw'|done|lia|done|].
        apply take_set_din_addr. done.
  - exists s, ow, (e_din e). split_and!; [by apply (block_there s ow E i)| | |rewrite <-En; lia|done|done].
    + rewrite <-En, <-Hind. apply (world_ext s ow E); [|done].
      intros j. unfold upd_ent. case_decide; [subst j|done]. fold e. by destruct e.
    + by split.
Qed.
End Block2.

(** *** iappend() *)

Definition nblk (n : Z) : Z := (n + (BSIZE - 1)) / BSIZE.

Lemma nblk_mono m n : m <= n -> nblk m <= nblk n.
Proof. intros. apply Z.div_le_mono; [done|lia]. Qed.

Lemma blocks_for_mono m n : m <= n -> blocks_for m <= blocks_for n.
Proof.
  intros. unfold blocks_for. destruct (Z.ltb_spec NDIRECT m), (Z.ltb_spec NDIRECT n); lia.
Qed.

(** The number of blocks of a file that ends in block [b]. *)
Lemma nblk_in n b : b * BSIZE < n <= (b + 1) * BSIZE -> nblk n = b + 1.
Proof.
  unfold nblk, BSIZE. intros H. symmetry. apply (Z.div_unique _ 512 _ (n + 511 - 512 * (b + 1))); lia.
Qed.

(** The file [i] has been extended by [p]. *)
Record appended (i : Z) (p : list Z) (s : mst) (ow : owners) (E : Z -> ent) (s' : mst) (ow' : owners) (din : list Z) : Prop := {
  ad_world : world s' ow' (upd_ent i (mkEnt din (nblk (size_of (E i) + Z.of_nat (length p)))
    (NDIRECT <? nblk (size_of (E i) + Z.of_nat (length p))) (e_data (E i) ++ p)) E);
  ad_apart : apart i ow s s';
  ad_fb : freeblock s' = freeblock s + blocks_for (nblk (size_of (E i) + Z.of_nat (length p))) - blocks_for (e_nb (E i));
  ad_ow : forall b, b < freeblock s -> ow' b = ow b;
  ad_din : take 12 din = take 12 (e_din (E i));
}.

Section Turn.
Context (s : mst) (ow : owners) (E : Z -> ent) (i : Z) (p : list Z).
Context (Hw : world s ow E) (Hi : 1 <= i < freeinode s) (Ht : tight (E i)).
Let off := size_of (E i).
Let fbn := off / BSIZE.
Let n1 := Z.min (Z.of_nat (length p)) ((fbn + 1) * BSIZE - off).
Let c := take (Z.to_nat n1) p.

Context (Hp : (0 < length p)%nat) (Hby : Forall is_byte p) (Hmax : fbn < MAXFILE).
Context (Hcap : freeblock s + blocks_for (fbn + 1) - blocks_for (e_nb (E i)) <= FSSIZE).

Lemma turn_bounds : 0 < n1 <= Z.of_nat (length p) /\ fbn * BSIZE <= off < (fbn + 1) * BSIZE /\
  off + n1 <= (fbn + 1) * BSIZE /\ length c = Z.to_nat n1.
Proof using Hp.
  pose proof (Z.div_mod off BSIZE ltac:(done)) as Hd. pose proof (Z.mod_pos_bound off BSIZE eq_refl) as Hm.
  fold fbn in Hd. unfold n1, c. rewrite length_take. unfold BSIZE in *. lia.
Qed.

(** One turn of the loop. *)
Lemma append_turn {A} (k : list Z -> M mst A) : exists s' ow' din,
  (r <- iappend_block (e_din (E i)) fbn ;;
   let '(din, x) := r in
   buf <- rsect x ;;
   wsect x (blit (Z.to_nat (off - fbn * BSIZE)) c buf) ;; k din)%kernel s = k din s' /\
  appended i c s ow E s' ow' din.
Proof using All.
  destruct turn_bounds as (Hn1 & Hoff & Hend & Hlc).
  destruct (block_correct s ow E i Hw Hi Ht Hmax Hcap) as (s1 & ow1 & din & Er & Hw1 & Ha1 & Hfb1 & Ho1 & Hd1).
  change (size_of (E i) / BSIZE) with fbn in Er, Hw1, Hfb1. set (e1 := mkEnt din (fbn + 1) (NDIRECT <? fbn + 1) (e_data (E i))) in *.
  assert (1 <= i < freeinode s1) as Hi1 by (rewrite (ap_ino _ _ _ _ Ha1); lia).
  pose proof (w_files _ _ _ Hw1 i Hi1) as He1. rewrite upd_ent_eq in He1.
  set (x := fblk (m_img s1) din fbn).
  set (s2 := set_img (<[Z.to_nat x := blit (Z.to_nat (off - fbn * BSIZE)) c (sect (m_img s1) x)]> (m_img s1)) s1).
  pose proof (Z.div_mod off BSIZE ltac:(done)) as Hdm.
  assert (size_of e1 / BSIZE < e_nb e1) as Hlt by (change (fbn < fbn + 1); lia).
  assert (size_of e1 mod BSIZE + Z.of_nat (length c) <= BSIZE) as Hfit.
  { change (size_of e1) with off. rewrite Hlc. fold fbn in Hdm. unfold BSIZE in *. lia. }
  destruct (chunk_block (m_img s1) ow1 (freeblock s1) i e1 c (w_img _ _ _ Hw1) He1 Hlt Hfit) as (_ & Hx & Hox).
  pose proof (im_free _ _ (w_img _ _ _ Hw1)) as Hfr. assert (0 < nmeta) as Hm0 by done.
  change (nmeta <= x < freeblock s1) in Hx. change (ow1 x = Some (i, fbn)) in Hox.
  exists s2, ow1, din. split.
  - unfold bind at 1. rewrite Er. cbv beta iota. fold x. unfold bind at 1.
    rewrite (rsect_run s1 (freeblock s1)) by (apply Hw1 || lia).
    unfold bind. rewrite wsect_run; [done|apply (w_img _ _ _ Hw1)|lia].
  - assert (apart i ow1 s1 s2) as Ha2.
    { split; [done|done|cbn; lia| |]; cbn.
      - intros b Hb. by rewrite sect_insert_ne by lia.
      - intros b j q Hb Hj Hne. rewrite sect_insert_ne; [done|lia|lia|]. congruence. }
    assert (nblk (off + Z.of_nat (length c)) = fbn + 1) as En by (apply nblk_in; rewrite Hlc; lia).
    assert (Forall is_byte c) as Hbc by by apply Forall_take.
    split; fold off; rewrite ?En; [|by apply (apart_trans i ow ow1 s s1)|done..].
    apply (world_ext s2 ow1 (upd_ent i (mkEnt din (fbn + 1) (NDIRECT <? fbn + 1) (e_data (E i) ++ c)) (upd_ent i e1 E))).
    { intros j. unfold upd_ent. by case_decide. }
    apply (world_step s1 s2 ow1 ow1); [done|done| |done|].
    + by apply (write_chunk_image (m_img s1) ow1 (freeblock s1) i e1 c (w_img _ _ _ Hw1) He1 Hlt Hfit).
    + apply (write_chunk (m_img s1) ow1 (freeblock s1) i e1 c (w_img _ _ _ Hw1) He1 Hlt Hfit).
Qed.
End Turn.

(** The file after an extension. *)
Definition extend (e : ent) (p din : list Z) : ent :=
  let n := nblk (size_of e + Z.of_nat (length p)) in mkEnt din n (NDIRECT <? n) (e_data e ++ p).

Lemma size_extend e p din : size_of (extend e p din) = size_of e + Z.of_nat (length p).
Proof. unfold size_of. cbn. rewrite length_app. lia. Qed.

Lemma tight_extend e p din : tight (extend e p din).
Proof. split; [|done]. by rewrite size_extend. Qed.

Lemma appended_nil i s ow E : world s ow E -> tight (E i) -> appended i [] s ow E s ow (e_din (E i)).
Proof.
  intros Hw Ht. destruct Ht as [Hn Hd].
  split; change (Z.of_nat (@length Z [])) with 0; rewrite ?Z.add_0_r; unfold nblk; rewrite <-?Hn; [| |lia|done..].
  - apply (world_ext s ow E); [|done]. intros j. unfold upd_ent. case_decide; [subst j|done].
    rewrite <-Hd, app_nil_r. by destruct (E i).
  - by split.
Qed.

Lemma appended_app i c p s ow E s1 ow1 din1 s2 ow2 din2 :
  appended i c s ow E s1 ow1 din1 ->
  appended i p s1 ow1 (upd_ent i (extend (E i) c din1) E) s2 ow2 din2 ->
  appended i (c ++ p) s ow E s2 ow2 din2.
Proof.
  intros [A1 A2 A3 A4 A5] [B1 B2 B3 B4 B5]. rewrite upd_ent_eq in *. rewrite size_extend in *.
  cbn [extend e_nb e_din e_data] in *.
  assert (Z.of_nat (length (c ++ p)) = Z.of_nat (length c) + Z.of_nat (length p)) as El by (rewrite length_app; lia).
  split; rewrite ?El, ?Z.add_assoc.
  - eapply world_ext; [|exact B1]. intros j. unfold upd_ent. case_decide; [|done]. by rewrite app_assoc.
  - apply (apart_trans i ow ow1 s s1); done.
  - lia.
  - intros b Hb. rewrite B4; [by apply A4|]. pose proof (ap_fb _ _ _ _ A2). lia.
  - congruence.
Qed.

Lemma iappend_loop_correct fuel : forall s ow E i p,
  world s ow E -> 1 <= i < freeinode s -> tight (E i) -> Forall is_byte p -> (length p < fuel)%nat ->
  size_of (E i) + Z.of_nat (length p) <= MAXFILE * BSIZE ->
  freeblock s + blocks_for (nblk (size_of (E i) + Z.of_nat (length p))) - blocks_for (e_nb (E i)) <= FSSIZE ->
  exists s' ow' din,
    iappend_loop fuel (e_din (E i)) p (size_of (E i)) (Z.of_nat (length p)) s
      = Ret (din, size_of (E i) + Z.of_nat (length p)) s' /\
    appended i p s ow E s' ow' din.
Proof.
  induction fuel as [|f IH]; intros s ow E i p Hw Hi Ht Hby Hf Hmax Hcap; [lia|].
  cbn [iappend_loop]. destruct p as [|b0 p0] eqn:Ep.
  { exists s, ow, (e_din (E i)). cbn [length]. change (0 <? Z.of_nat 0) with false. cbn match.
    split; [|by apply appended_nil]. unfold ret. do 2 f_equal. lia. }
  rewrite <-Ep in *. assert (0 < length p)%nat as Hp by (rewrite Ep; cbn; lia). clear b0 p0 Ep.
  set (off := size_of (E i)) in *. assert (0 <= off) as Hoff0 by (unfold off, size_of; lia).
  rewrite (proj2 (Z.ltb_lt 0 _)) by lia. cbn match. cbv zeta.
  assert (off / BSIZE < MAXFILE) as Hfbn by (apply Z.div_lt_upper_bound; [done|unfold BSIZE in *; lia]).
  rewrite (proj2 (Z.ltb_lt _ _) Hfbn). cbn [negb].
  pose proof (turn_bounds E i p Hp) as Hb. cbn zeta in Hb. fold off in Hb.
  assert (u32 ((off / BSIZE + 1) * BSIZE - off) = (off / BSIZE + 1) * BSIZE - off) as Hu.
  { apply u32_small. unfold BSIZE in *. lia. }
  rewrite Hu. set (n1 := Z.min _ _) in *. destruct Hb as (Hn1 & Hoff & Hend & Hlc).
  assert (nblk (off + n1) = off / BSIZE + 1) as En by (apply nblk_in; lia).
  assert (freeblock s + blocks_for (off / BSIZE + 1) - blocks_for (e_nb (E i)) <= FSSIZE) as Hcap1.
  { pose proof (blocks_for_mono (off / BSIZE + 1) (nblk (off + Z.of_nat (length p)))) as Hm.
    rewrite <-En in Hm at 1. specialize (Hm ltac:(apply nblk_mono; lia)). lia. }
  destruct (append_turn s ow E i p Hw Hi Ht Hp Hby Hfbn Hcap1
    (fun din => iappend_loop f din (drop (Z.to_nat n1) p) (u32 (off + n1)) (Z.of_nat (length p) - n1)))
    as (s1 & ow1 & din1 & Er & Had).
  set (c := take (Z.to_nat n1) p) in *. change (appended i c s ow E s1 ow1 din1) in Had.
  set (E1 := upd_ent i (extend (E i) c din1) E).
  assert (E1 i = extend (E i) c din1) as Ee by apply upd_ent_eq.
  assert (size_of (E1 i) = off + n1) as Es by (rewrite Ee, size_extend; fold off; lia).
  assert (Z.of_nat (length p) - n1 = Z.of_nat (length (drop (Z.to_nat n1) p))) as El by (rewrite length_drop; lia).
  destruct (IH s1 ow1 E1 i (drop (Z.to_nat n1) p)) as (s2 & ow2 & din2 & Er2 & Had2).
  - apply Had.
  - rewrite (ap_ino _ _ _ _ (ad_apart _ _ _ _ _ _ _ _ Had)). done.
  - rewrite Ee. apply tight_extend.
  - by apply Forall_drop.
  - rewrite length_drop. lia.
  - rewrite Es, <-El. lia.
  - rewrite Es, <-El, (ad_fb _ _ _ _ _ _ _ _ Had), Ee. cbn [extend e_nb]. fold off.
    replace (off + n1 + (Z.of_nat (length p) - n1)) with (off + Z.of_nat (length p)) by lia. lia.
  - exists s2, ow2, din2. split.
    + apply (eq_trans Er). rewrite Es, <-El in Er2.
      rewrite Ee in Er2. cbn [extend e_din] in Er2.
      rewrite u32_small by (change (MAXFILE * BSIZE) with 71680 in Hmax; lia). rewrite Er2. do 2 f_equal. lia.
    + rewrite <-(take_drop (Z.to_nat n1) p). fold c. by apply (appended_app i c _ s ow E s1 ow1 din1).
Qed.
