(* ===== verification/MkfsMain.v ===== *)
(** main() of mkfs.c: the image that it leaves, as the kernel reads it. *)

From S2P Require Export MkfsBuild.

Open Scope Z_scope.

(** *** Inodes on the disk *)

Definition on_disk (s : mst) (i : Z) : list Z :=
  slice (dip_off i) (Z.to_nat sizeof_dinode) (sect (m_img s) (IBLOCK i make_sb)).

Lemma iblock_range i : 0 <= i < NINODES ->
  IBLOCK i make_sb = 32 + i / 8 /\ 32 <= IBLOCK i make_sb < 58.
Proof.
  unfold NINODES, IBLOCK. intros Hi. change (sb_inodestart make_sb) with 32. change IPB with 8.
  assert (0 <= i / 8 < 26) by (split; [apply Z.div_pos; lia|apply Z.div_lt_upper_bound; lia]).
  rewrite u32_small by lia. lia.
Qed.

Lemma dip_off_fits i : 0 <= i -> (dip_off i + Z.to_nat sizeof_dinode <= Z.to_nat BSIZE)%nat.
Proof.
  intros Hi. unfold dip_off. pose proof (Z.mod_pos_bound i IPB eq_refl).
  change IPB with 8 in *. change sizeof_dinode with 64. unfold BSIZE. lia.
Qed.

(** Inodes do not overlap. *)
Lemma dip_off_apart i j : 0 <= i -> 0 <= j -> i / 8 = j / 8 -> i <> j ->
  (dip_off i + Z.to_nat sizeof_dinode <= dip_off j \/ dip_off j + Z.to_nat sizeof_dinode <= dip_off i)%nat.
Proof.
  intros Hi Hj E Hne. unfold dip_off. change IPB with 8. change sizeof_dinode with 64.
  pose proof (Z.div_mod i 8). pose proof (Z.div_mod j 8).
  pose proof (Z.mod_pos_bound i 8). pose proof (Z.mod_pos_bound j 8). lia.
Qed.

Lemma rinode_run s i : image_ok (m_img s) (freeblock s) -> m_sb s = make_sb -> 0 <= i < NINODES ->
  rinode i s = Ret (on_disk s i) s.
Proof.
  intros Himg Hsb Hi. destruct (iblock_range i Hi) as [_ Hb]. unfold rinode, bind, gets. rewrite Hsb.
  rewrite (rsect_run s (freeblock s)) by (done || unfold FSSIZE; lia). done.
Qed.

Section Winode.
Context (s : mst) (i : Z) (din : list Z).
Context (Himg : image_ok (m_img s) (freeblock s)) (Hsb : m_sb s = make_sb) (Hi : 0 <= i < NINODES).
Context (Hdin : length din = Z.to_nat sizeof_dinode /\ Forall is_byte din).
Let b := IBLOCK i make_sb.
Let s' := set_img (<[Z.to_nat b := blit (dip_off i) din (sect (m_img s) b)]> (m_img s)) s.

Lemma winode_run : winode i din s = Ret tt s'.
Proof using All.
  destruct (iblock_range i Hi) as [_ Hb]. unfold winode, bind, gets. rewrite Hsb.
  rewrite (rsect_run s (freeblock s)) by (done || unfold FSSIZE; lia).
  apply wsect_run; [apply Himg|unfold FSSIZE; lia].
Qed.

Lemma winode_other c : 0 <= c -> c < 32 \/ 58 <= c -> sect (m_img s') c = sect (m_img s) c.
Proof using All.
  destruct (iblock_range i Hi) as [_ Hb]. intros. apply sect_insert_ne; unfold b; lia.
Qed.

Lemma winode_image : image_ok (m_img s') (freeblock s').
Proof using All.
  destruct (iblock_range i Hi) as [_ Hb]. destruct (sect_ok _ _ b Himg) as [Hl Hby]; [unfold b, FSSIZE; lia|].
  pose proof (im_free _ _ Himg) as Hf. change nmeta with 59 in Hf.
  destruct Himg as [H1 H2 H3 H4]. split; cbn; [by rewrite length_insert| |done|].
  - apply Forall_insert; [done|]. rewrite length_blit. split; [done|]. apply blit_byte; [apply Hdin|done].
  - intros c Hc. rewrite sect_insert_ne by (unfold b; lia). by apply H4.
Qed.

Lemma winode_same : on_disk s' i = din.
Proof using All.
  destruct (iblock_range i Hi) as [_ Hb]. destruct (sect_ok _ _ b Himg) as [Hl Hby]; [unfold b, FSSIZE; lia|].
  unfold on_disk. fold b. cbn. rewrite sect_insert_eq; [|unfold b, FSSIZE; lia|apply Himg].
  destruct Hdin as [Hd _]. rewrite <-Hd. apply slice_blit_eq. rewrite Hd, Hl. apply dip_off_fits. lia.
Qed.

Lemma winode_others j : 0 <= j < NINODES -> j <> i -> on_disk s' j = on_disk s j.
Proof using All.
  intros Hj Hne. destruct (iblock_range i Hi) as [Ei Hb]. destruct (iblock_range j Hj) as [Ej Hbj].
  unfold on_disk. cbn. destruct (decide (IBLOCK j make_sb = b)) as [E|Hn].
  - rewrite E, sect_insert_eq; [|unfold b, FSSIZE; lia|apply Himg]. apply slice_blit_ne.
    rewrite (proj1 Hdin). apply dip_off_apart; unfold b in E; lia.
  - by rewrite sect_insert_ne by (unfold b in *; lia).
Qed.
End Winode.

(** *** The invariant between the operations *)

(** The fields of an inode. *)
Record hdr (t : Z) (e : ent) : Prop := {
  hd_type : getf 2 0 (e_din e) = t;
  hd_major : getf 2 2 (e_din e) = 0;
  hd_minor : getf 2 4 (e_din e) = 0;
  hd_nlink : getf 2 6 (e_din e) = 1;
  hd_size : din_size (e_din e) = size_of e;
}.

(** The blocks of the first [n] files. *)
Fixpoint total (E : Z -> ent) (n : nat) : Z :=
  match n with
  | O => 0
  | S n' => total E n' + blocks_for (e_nb (E (Z.of_nat n)))
  end.

Lemma total_new E i e n : Z.of_nat n < i -> total (upd_ent i e E) n = total E n.
Proof.
  induction n as [|n IH]; intros Hn; [done|]. cbn [total]. rewrite IH by lia. by rewrite upd_ent_ne by lia.
Qed.

Lemma total_upd E i e n : 1 <= i <= Z.of_nat n ->
  total (upd_ent i e E) n = total E n - blocks_for (e_nb (E i)) + blocks_for (e_nb e).
Proof.
  induction n as [|n IH]; intros Hi; [lia|]. cbn [total].
  destruct (decide (i = Z.of_nat (S n))) as [->|Hne].
  - rewrite upd_ent_eq, total_new by lia. lia.
  - rewrite IH by lia. rewrite upd_ent_ne by lia. lia.
Qed.

(** The superblock is there, the rest before the inodes and the bitmap are still zero. *)
Record meta_ok (img : list (list Z)) : Prop := {
  mo_super : sect img 1 = blit 0 (encode_sb make_sb) zeroes;
  mo_zero : forall b, b = 0 \/ 2 <= b < 32 -> sect img b = zeroes;
}.

Record built (s : mst) (ow : owners) (E : Z -> ent) (T : Z -> Z) : Prop := {
  bu_world : world s ow E;
  bu_tight : forall i, 1 <= i < freeinode s -> tight (E i);
  bu_disk : forall i, 1 <= i < freeinode s -> on_disk s i = e_din (E i);
  bu_hdr : forall i, 1 <= i < freeinode s -> hdr (T i) (E i);
  bu_meta : meta_ok (m_img s);
  bu_fb : freeblock s = nmeta + total E (Z.to_nat (freeinode s - 1));
}.

Lemma getf_take n k m bs : (k + n <= m)%nat -> getf n k (take m bs) = getf n k bs.
Proof.
  intros H. unfold getf. f_equal. apply slice_ext. intros i Hi. by rewrite lookup_take_lt by lia.
Qed.

(** The size of an inode does not matter for its blocks. *)
Lemma file_ok_size img ow fb i e v : file_ok img ow fb i e ->
  file_ok img ow fb i (mkEnt (setf 4 8 v (e_din e)) (e_nb e) (e_ind e) (e_data e)).
Proof.
  intros [H1 H2 H3 H4 H5 H6 H7].
  assert (forall k, 0 <= k -> din_addr (setf 4 8 v (e_din e)) k = din_addr (e_din e) k) as Ha.
  { intros k Hk. apply getf_setf_ne. lia. }
  assert (forall bn, 0 <= bn -> fblk img (setf 4 8 v (e_din e)) bn = fblk img (e_din e) bn) as Hb.
  { intros bn Hbn. unfold fblk. by rewrite !Ha. }
  split; cbn [e_din e_nb e_ind e_data]; try done.
  - rewrite length_setf. split; [apply H1|]. apply setf_byte, H1.
  - intros bn Hbn. rewrite Hb by lia. by apply H4.
  - intros bn Hbn. rewrite Ha by lia. by apply H5.
  - destruct (e_ind e); [|by rewrite Ha]. rewrite Ha by done. destruct H6 as [H6 H6']. split; [done|].
    intros bn Hbn Hge. rewrite Hb by (unfold NDIRECT in *; lia). by apply H6'.
  - intros k Hk. rewrite Hb by (apply Z.div_pos; [lia|done]). by apply H7.
Qed.

(** Only inode blocks changed. *)
Lemma world_winode s ow E i din : world s ow E -> 0 <= i < NINODES ->
  length din = Z.to_nat sizeof_dinode /\ Forall is_byte din ->
  world (set_img (<[Z.to_nat (IBLOCK i make_sb) := blit (dip_off i) din (sect (m_img s) (IBLOCK i make_sb))]> (m_img s)) s) ow E.
Proof.
  intros [H1 H2 H3 H4] Hi Hd. set (s' := set_img _ s).
  pose proof (winode_image s i din H1 H2 Hi Hd) as Him. split; [done|done|done|].
  intros j Hj. apply (file_ok_frame (m_img s) _ ow _ (freeblock s)); [by apply H4|done|].
  intros b p Hb Hp. split; [|done]. apply (winode_other s i din H1 H2 Hi Hd).
  - change nmeta with 59 in Hb. lia.
  - right. change nmeta with 59 in Hb. lia.
Qed.

Lemma apart_refl i ow s : apart i ow s s.
Proof. by split. Qed.

Lemma meta_ok_ext img img' : (forall b, 0 <= b < 32 -> sect img' b = sect img b) -> meta_ok img -> meta_ok img'.
Proof. intros H [H1 H2]. split; [by rewrite H|]. intros b Hb. rewrite H by lia. by apply H2. Qed.

(** The header of an inode with a new size. *)
Lemma hdr_extend t e p din : hdr t e -> take 12 din = take 12 (e_din e) -> length din = Z.to_nat sizeof_dinode ->
  size_of e + Z.of_nat (length p) < 2 ^ 32 ->
  hdr t (extend e p (setf 4 8 (size_of e + Z.of_nat (length p)) din)).
Proof.
  intros [H1 H2 H3 H4 H5] Ht Hl Hs.
  assert (forall n k, (k + n <= 8)%nat -> getf n k (setf 4 8 (size_of e + Z.of_nat (length p)) din) = getf n k (e_din e)) as Hf.
  { intros n k Hk. rewrite getf_setf_ne by lia.
    rewrite <-(getf_take n k 12), Ht by lia. apply getf_take. lia. }
  split; cbn [extend e_din]; rewrite ?Hf by lia; try done.
  rewrite size_extend. unfold din_size. rewrite getf_setf_eq by (rewrite Hl; change (Z.to_nat sizeof_dinode) with 64%nat; lia).
  apply Z.mod_small. unfold size_of in *. lia.
Qed.

Section Iappend.
Context (s : mst) (ow : owners) (E : Z -> ent) (T : Z -> Z) (i : Z) (p : list Z).
Context (Hb : built s ow E T) (Hi : 1 <= i < freeinode s) (Hby : Forall is_byte p).
Let n := size_of (E i) + Z.of_nat (length p).
Context (Hmax : n <= MAXFILE * BSIZE) (Hcap : freeblock s + blocks_for (nblk n) - blocks_for (e_nb (E i)) <= FSSIZE).

Lemma iappend_correct : exists s' ow' din, iappend i p (Z.of_nat (length p)) s = Ret tt s' /\
  built s' ow' (upd_ent i (extend (E i) p din) E) T /\ freeinode s' = freeinode s /\
  freeblock s' = freeblock s + blocks_for (nblk n) - blocks_for (e_nb (E i)).
Proof using All.
  destruct Hb as [Hw Ht Hd Hh Hm Hf]. pose proof (w_ino _ _ _ Hw) as Hni.
  assert (0 <= size_of (E i)) as Hs0 by (unfold size_of; lia). change (MAXFILE * BSIZE) with 71680 in Hmax.
  destruct (iappend_loop_correct (S (Z.to_nat (Z.of_nat (length p)))) s ow E i p Hw Hi (Ht i Hi) Hby)
    as (s1 & ow1 & din & Er & Had); [lia|done|done|].
  fold n in Er. pose proof (ad_apart _ _ _ _ _ _ _ _ Had) as Ha. pose proof (ad_world _ _ _ _ _ _ _ _ Had) as Hw1.
  pose proof (ap_ino _ _ _ _ Ha) as Ei1. fold n in Hw1.
  pose proof (w_files _ _ _ Hw1 i ltac:(lia)) as He1. rewrite upd_ent_eq in He1.
  set (din' := setf 4 8 n din). pose proof (file_ok_size _ _ _ _ _ n He1) as He2. cbn [e_din e_nb e_ind e_data] in He2. fold din' in He2.
  pose proof (fo_din _ _ _ _ _ He2) as Hdin'. cbn [e_din] in Hdin'.
  assert (world s1 ow1 (upd_ent i (extend (E i) p din') E)) as Hw2.
  { eapply world_ext; [|eapply (world_step s1 s1 ow1 ow1 _ i _ Hw1 (apart_refl i ow1 s1) (w_img _ _ _ Hw1)); [done|exact He2]].
    intros j. unfold upd_ent. by case_decide. }
  assert (0 <= i < NINODES) as Hir by lia.
  pose proof (world_winode s1 ow1 _ i din' Hw2 Hir Hdin') as Hw3.
  pose proof (winode_run s1 i din' (w_img _ _ _ Hw1) (w_sb _ _ _ Hw1) Hir Hdin') as Ew.
  pose proof (winode_same s1 i din' (w_img _ _ _ Hw1) (w_sb _ _ _ Hw1) Hir Hdin') as Es.
  pose proof (winode_others s1 i din' (w_img _ _ _ Hw1) (w_sb _ _ _ Hw1) Hir Hdin') as Eo.
  pose proof (winode_other s1 i din' (w_img _ _ _ Hw1) (w_sb _ _ _ Hw1) Hir Hdin') as Eb.
  set (s2 := set_img _ s1) in *.
  exists s2, ow1, din'. split_and!; [| |done|apply Had].
  - unfold iappend, bind at 1. rewrite rinode_run by (apply Hw || lia). rewrite (Hd i Hi), (hd_size _ _ (Hh i Hi)).
    rewrite xint_small by lia. unfold bind. rewrite Er. rewrite xint_small by (unfold n in *; lia). exact Ew.
  - split; [exact Hw3| | | | |].
    + intros j Hj. change (freeinode s2) with (freeinode s1) in Hj. unfold upd_ent. case_decide; [apply tight_extend|apply Ht; lia].
    + intros j Hj. change (freeinode s2) with (freeinode s1) in Hj. unfold upd_ent. case_decide as Hji; [by subst j|].
      rewrite Eo by (lia || done). rewrite <-Hd by lia. unfold on_disk.
      destruct (iblock_range j ltac:(lia)) as [_ Hjb]. by rewrite (ap_meta _ _ _ _ Ha) by (change nmeta with 59; lia).
    + intros j Hj. change (freeinode s2) with (freeinode s1) in Hj. unfold upd_ent. case_decide as Hji; [|apply Hh; lia].
      subst j. apply hdr_extend; [by apply Hh|apply Had|apply He1|unfold n in *; lia].
    + apply (meta_ok_ext (m_img s)); [|done]. intros b Hbr. rewrite Eb by lia.
      apply (ap_meta _ _ _ _ Ha). change nmeta with 59. lia.
    + change (freeblock s2) with (freeblock s1). change (freeinode s2) with (freeinode s1).
      rewrite Ei1, total_upd by lia. rewrite (ad_fb _ _ _ _ _ _ _ _ Had), Hf. cbn [extend e_nb]. fold n. lia.
Qed.
End Iappend.

(** *** ialloc() *)

Definition new_din (t : Z) : list Z :=
  setf 4 8 (xint 0) (setf 2 6 (xshort 1) (setf 2 0 (xshort t) (replicate (Z.to_nat sizeof_dinode) 0))).

Definition new_ent (t : Z) : ent := mkEnt (new_din t) 0 false [].

Lemma getf_zero n k m : getf n k (replicate m 0) = 0.
Proof.
  unfold getf, slice. rewrite drop_replicate, take_replicate. generalize (n `min` (m - k))%nat.
  intros j. induction j as [|j IH]; [done|]. cbn [replicate le_val]. lia.
Qed.

Lemma new_din_ok t : length (new_din t) = Z.to_nat sizeof_dinode /\ Forall is_byte (new_din t).
Proof.
  unfold new_din. rewrite !length_setf, length_replicate. split; [done|].
  repeat apply setf_byte. apply Forall_replicate. by split.
Qed.

Lemma new_din_addr t k : 0 <= k -> din_addr (new_din t) k = 0.
Proof. intros Hk. unfold din_addr, new_din. rewrite !getf_setf_ne by lia. apply getf_zero. Qed.

Lemma new_ent_hdr t : 0 <= t < 2 ^ 16 -> hdr t (new_ent t).
Proof.
  intros Ht. split; cbn [new_ent e_din]; unfold din_size, new_din.
  - rewrite !getf_setf_ne by lia. rewrite getf_setf_eq by (rewrite length_replicate; change (Z.to_nat sizeof_dinode) with 64%nat; lia).
    rewrite xshort_small by lia. by apply Z.mod_small.
  - rewrite !getf_setf_ne by lia. apply getf_zero.
  - rewrite !getf_setf_ne by lia. apply getf_zero.
  - rewrite getf_setf_ne by lia. by rewrite getf_setf_eq by (rewrite length_setf, length_replicate; change (Z.to_nat sizeof_dinode) with 64%nat; lia).
  - by rewrite getf_setf_eq by (rewrite !length_setf, length_replicate; change (Z.to_nat sizeof_dinode) with 64%nat; lia).
Qed.

Lemma new_ent_ok img ow fb i t : file_ok img ow fb i (new_ent t).
Proof.
  split; cbn [new_ent e_din e_nb e_ind e_data].
  - apply new_din_ok.
  - by split.
  - done.
  - lia.
  - intros bn Hbn. apply new_din_addr. lia.
  - split; [by apply new_din_addr|done].
  - lia.
Qed.

Section Ialloc.
Context (s : mst) (ow : owners) (E : Z -> ent) (T : Z -> Z).
Context (Hb : built s ow E T) (Hi : freeinode s < NINODES).
Let i := freeinode s.
Context (Ht : 0 <= T i < 2 ^ 16).

Lemma ialloc_correct : exists s', ialloc (T i) s = Ret i s' /\
  built s' ow (upd_ent i (new_ent (T i)) E) T /\ freeinode s' = i + 1 /\ freeblock s' = freeblock s.
Proof using All.
  destruct Hb as [Hw Htg Hd Hh Hm Hf]. pose proof (w_ino _ _ _ Hw) as Hni. fold i in Hni.
  assert (0 <= i < NINODES) as Hir by (unfold i in *; lia).
  set (s1 := set_freeinode (i + 1) s).
  assert (world s1 ow (upd_ent i (new_ent (T i)) E)) as Hw1.
  { split; [apply Hw|apply Hw|cbn; lia|]. intros j Hj. cbn in Hj. unfold upd_ent. case_decide.
    - subst j. apply new_ent_ok.
    - apply Hw. fold i. lia. }
  pose proof (new_din_ok (T i)) as Hdin.
  pose proof (world_winode s1 ow _ i (new_din (T i)) Hw1 Hir Hdin) as Hw2.
  pose proof (winode_run s1 i _ (w_img _ _ _ Hw1) (w_sb _ _ _ Hw1) Hir Hdin) as Ew.
  pose proof (winode_same s1 i _ (w_img _ _ _ Hw1) (w_sb _ _ _ Hw1) Hir Hdin) as Es.
  pose proof (winode_others s1 i _ (w_img _ _ _ Hw1) (w_sb _ _ _ Hw1) Hir Hdin) as Eo.
  pose proof (winode_other s1 i _ (w_img _ _ _ Hw1) (w_sb _ _ _ Hw1) Hir Hdin) as Eb.
  set (s2 := set_img _ s1) in *. exists s2. split_and!; [| |done|done].
  - unfold ialloc, bind at 1, gets. fold i. unfold bind at 1, modify.
    rewrite u32_small by (unfold NINODES in Hir; lia). fold s1. fold (new_din (T i)). unfold bind. by rewrite Ew.
  - assert (freeinode s2 = i + 1) as Ei by done. split; [exact Hw2| | | | |]; rewrite ?Ei.
    + intros j Hj. unfold upd_ent. case_decide; [by split|apply Htg; fold i; lia].
    + intros j Hj. unfold upd_ent. case_decide as Hji; [by subst j|].
      rewrite Eo by (done || lia). change (on_disk s1 j) with (on_disk s j). apply Hd. fold i. lia.
    + intros j Hj. unfold upd_ent. case_decide as Hji; [subst j; by apply new_ent_hdr|apply Hh; fold i; lia].
    + apply (meta_ok_ext (m_img s)); [|done]. intros b Hbr. apply Eb; lia.
    + change (freeblock s2) with (freeblock s). rewrite Hf. fold i.
      replace (Z.to_nat (i + 1 - 1)) with (S (Z.to_nat (i - 1))) by lia. cbn [total].
      replace (Z.of_nat (S (Z.to_nat (i - 1)))) with i by lia. rewrite upd_ent_eq. cbn [new_ent e_nb].
      change (blocks_for 0) with 0. rewrite total_new by lia. lia.
Qed.
End Ialloc.

(** *** The files *)

(** From the files [E] to the files [E'], of which [i] got more bytes. *)
Record grown (i : Z) (p : list Z) (E E' : Z -> ent) (s s' : mst) : Prop := {
  gr_data : e_data (E' i) = e_data (E i) ++ p;
  gr_other : forall j, j <> i -> E' j = E j;
  gr_ino : freeinode s' = freeinode s;
  gr_fb : freeblock s' = freeblock s + blocks_for (nblk (size_of (E i) + Z.of_nat (length p))) - blocks_for (e_nb (E i));
}.

Lemma grown_size i p E E' s s' : grown i p E E' s s' -> size_of (E' i) = size_of (E i) + Z.of_nat (length p).
Proof. intros H. unfold size_of. rewrite (gr_data _ _ _ _ _ _ H), length_app. lia. Qed.

Lemma iappend_grown s ow E T i p : built s ow E T -> 1 <= i < freeinode s -> Forall is_byte p ->
  size_of (E i) + Z.of_nat (length p) <= MAXFILE * BSIZE ->
  freeblock s + blocks_for (nblk (size_of (E i) + Z.of_nat (length p))) - blocks_for (e_nb (E i)) <= FSSIZE ->
  exists s' ow' E', iappend i p (Z.of_nat (length p)) s = Ret tt s' /\ built s' ow' E' T /\ grown i p E E' s s'.
Proof.
  intros Hb Hi Hby Hmax Hcap.
  destruct (iappend_correct s ow E T i p Hb Hi Hby Hmax Hcap) as (s' & ow' & din & Er & Hb' & Hfi & Hfb).
  exists s', ow'. eexists. split_and!; [done|exact Hb'|]. split; [by rewrite upd_ent_eq| |done|done].
  intros j Hj. by rewrite upd_ent_ne.
Qed.

Lemma built_nb s ow E T i : built s ow E T -> 1 <= i < freeinode s -> e_nb (E i) = nblk (size_of (E i)).
Proof. intros Hb Hi. apply (bu_tight _ _ _ _ Hb i Hi). Qed.

Lemma iappend_all_grown chunks : forall s ow E T i, built s ow E T -> 1 <= i < freeinode s ->
  Forall is_byte (concat chunks) ->
  size_of (E i) + Z.of_nat (length (concat chunks)) <= MAXFILE * BSIZE ->
  freeblock s + blocks_for (nblk (size_of (E i) + Z.of_nat (length (concat chunks)))) - blocks_for (e_nb (E i)) <= FSSIZE ->
  exists s' ow' E', iappend_all i chunks s = Ret tt s' /\ built s' ow' E' T /\ grown i (concat chunks) E E' s s'.
Proof.
  induction chunks as [|c cs IH]; intros s ow E T i Hb Hi Hby Hmax Hcap; cbn [iappend_all concat] in *.
  - exists s, ow, E. split_and!; [done|done|]. split; [by rewrite app_nil_r|done|done|].
    change (Z.of_nat (length [])) with 0. rewrite Z.add_0_r, <-(built_nb s ow E T i) by done. lia.
  - apply Forall_app in Hby as [Hc Hcs]. rewrite length_app, Nat2Z.inj_add in *.
    destruct (iappend_grown s ow E T i c Hb Hi Hc) as (s1 & ow1 & E1 & Er1 & Hb1 & Hg1).
    { lia. }
    { pose proof (blocks_for_mono (nblk (size_of (E i) + Z.of_nat (length c)))
        (nblk (size_of (E i) + (Z.of_nat (length c) + Z.of_nat (length (concat cs))))) ltac:(apply nblk_mono; lia)). lia. }
    pose proof (grown_size _ _ _ _ _ _ Hg1) as Hs1. pose proof (gr_ino _ _ _ _ _ _ Hg1) as Hi1.
    pose proof (built_nb s1 ow1 E1 T i Hb1 ltac:(lia)) as Hn1. rewrite Hs1 in Hn1.
    destruct (IH s1 ow1 E1 T i Hb1) as (s2 & ow2 & E2 & Er2 & Hb2 & Hg2); [lia|done|lia| |].
    { rewrite Hs1, Hn1, (gr_fb _ _ _ _ _ _ Hg1), <-Z.add_assoc. lia. }
    exists s2, ow2, E2. split_and!; [unfold bind; by rewrite Er1|done|]. split.
    + by rewrite (gr_data _ _ _ _ _ _ Hg2), (gr_data _ _ _ _ _ _ Hg1), app_assoc.
    + intros j Hj. by rewrite (gr_other _ _ _ _ _ _ Hg2), (gr_other _ _ _ _ _ _ Hg1).
    + by rewrite (gr_ino _ _ _ _ _ _ Hg2).
    + rewrite (gr_fb _ _ _ _ _ _ Hg2), (gr_fb _ _ _ _ _ _ Hg1), Hs1, Hn1, length_app, Nat2Z.inj_add, Z.add_assoc. lia.
Qed.

(** An entry of a directory has the size of a struct dirent. *)
Lemma length_strncpy n p : length (strncpy_bytes n p) = n.
Proof.
  revert p. induction n as [|n IH]; intros p; [done|]. cbn [strncpy_bytes]. destruct p as [|c p].
  - by rewrite length_replicate.
  - destruct (c =? 0); [by rewrite length_replicate|]. cbn. by rewrite IH.
Qed.

Lemma strncpy_byte n p : Forall is_byte p -> Forall is_byte (strncpy_bytes n p).
Proof.
  intros Hp. revert p Hp. induction n as [|n IH]; intros p Hp; [constructor|]. cbn [strncpy_bytes].
  destruct Hp as [|c p Hc Hp]; [by apply Forall_replicate; split|].
  destruct (c =? 0); [by apply Forall_replicate; split|]. constructor; auto.
Qed.

Lemma make_dirent_ok inum name : Forall is_byte name ->
  Z.of_nat (length (make_dirent inum name)) = sizeof_dirent /\ Forall is_byte (make_dirent inum name).
Proof.
  intros Hn. unfold make_dirent. rewrite length_app, length_setf, length_replicate, length_strncpy.
  split; [done|]. apply Forall_app. split; [|by apply strncpy_byte].
  apply setf_byte. by repeat constructor.
Qed.

Definition ftype (i : Z) : Z := if i =? 1 then T_DIR else T_FILE.

(** The blocks of a file of [n] bytes. *)
Definition fblocks (n : Z) : Z := blocks_for (nblk n).

Lemma fblocks_mono m n : m <= n -> fblocks m <= fblocks n.
Proof. intros. by apply blocks_for_mono, nblk_mono. Qed.

Section Files.
Context (host : list Z -> option (list (list Z))).

Definition contents (arg : list Z) : list Z := concat (default [] (host arg)).
Definition fname (arg : list Z) : list Z :=
  match arg with c :: arg' => if c =? 95 then arg' else arg | [] => arg end.

(** A file that the host has and that fits. *)
Record arg_ok (arg : list Z) : Prop := {
  ar_slash : SLASH ∉ arg;
  ar_byte : Forall is_byte arg;
  ar_open : is_Some (host arg);
  ar_data : Forall is_byte (contents arg);
  ar_size : Z.of_nat (length (contents arg)) <= MAXFILE * BSIZE;
}.

Lemma fname_byte arg : Forall is_byte arg -> Forall is_byte (fname arg).
Proof. intros [|c arg' Hc Ha]; cbn; [constructor|]. destruct (c =? 95); [done|by constructor]. Qed.

Fixpoint file_blocks (args : list (list Z)) : Z :=
  match args with [] => 0 | a :: args' => fblocks (Z.of_nat (length (contents a))) + file_blocks args' end.

Lemma fblocks_nonneg n : 0 <= n -> 0 <= fblocks n.
Proof.
  intros Hn. unfold fblocks, blocks_for. assert (0 <= nblk n) by (apply Z.div_pos; [unfold BSIZE; lia|done]).
  destruct (NDIRECT <? nblk n); lia.
Qed.

Lemma file_blocks_nonneg args : 0 <= file_blocks args.
Proof. induction args as [|a args IH]; cbn [file_blocks]; [lia|]. pose proof (fblocks_nonneg (Z.of_nat (length (contents a)))). lia. Qed.

(** The directory and the files after some of the arguments. *)
Record added (args : list (list Z)) (i : Z) (E E' : Z -> ent) (s s' : mst) : Prop := {
  dd_root : e_data (E' 1) = e_data (E 1) ++ concat (imap (fun k a => make_dirent (i + Z.of_nat k) (fname a)) args);
  dd_files : forall k a, args !! k = Some a -> e_data (E' (i + Z.of_nat k)) = contents a;
  dd_other : forall j, 1 < j < i -> E' j = E j;
  dd_ino : freeinode s' = i + Z.of_nat (length args);
  dd_fb : freeblock s' = freeblock s + fblocks (size_of (E' 1)) - fblocks (size_of (E 1)) + file_blocks args;
}.

Lemma add_file_correct s ow E arg : arg_ok arg -> built s ow E ftype -> 2 <= freeinode s < NINODES ->
  size_of (E 1) + sizeof_dirent <= MAXFILE * BSIZE ->
  freeblock s + fblocks (size_of (E 1) + sizeof_dirent) - fblocks (size_of (E 1)) + file_blocks [arg] <= FSSIZE ->
  exists s' ow' E', add_file host ROOTINO arg s = Ret tt s' /\ built s' ow' E' ftype /\
    added [arg] (freeinode s) E E' s s' /\ size_of (E' 1) = size_of (E 1) + sizeof_dirent.
Proof.
  intros [A1 A2 [chunks A3] A4 A5] Hb Hi Hmax Hcap. set (i := freeinode s) in *.
  assert (contents arg = concat chunks) as Ec by (unfold contents; by rewrite A3).
  rewrite Ec in A4, A5.
  assert (ftype i = T_FILE) as Et by (unfold ftype; by rewrite (proj2 (Z.eqb_neq _ _)) by lia).
  destruct (ialloc_correct s ow E ftype Hb ltac:(fold i; lia)) as (s1 & Er1 & Hb1 & Hi1 & Hf1).
  { fold i. by rewrite Et. }
  fold i in Er1, Hb1, Hi1. rewrite Et in Er1, Hb1. set (E1 := upd_ent i (new_ent T_FILE) E) in *.
  assert (E1 1 = E 1) as E11 by (apply upd_ent_ne; lia).
  assert (E1 i = new_ent T_FILE) as E1i by apply upd_ent_eq.
  destruct (make_dirent_ok i (fname arg) (fname_byte _ A2)) as [Hl Hdb].
  assert (file_blocks [arg] = fblocks (Z.of_nat (length (concat chunks)))) as Efb by (cbn [file_blocks]; rewrite Ec; lia).
  pose proof (fblocks_nonneg (Z.of_nat (length (concat chunks))) ltac:(lia)) as Hnn.
  assert (forall s' ow' E', built s' ow' E' ftype -> 1 < freeinode s' -> blocks_for (e_nb (E' 1)) = fblocks (size_of (E' 1))) as Hroot.
  { intros s' ow' E' Hb' Hlt. unfold fblocks. by rewrite (built_nb s' ow' E' ftype) by (done || lia). }
  destruct (iappend_grown s1 ow E1 ftype 1 (make_dirent i (fname arg)) Hb1) as (s2 & ow2 & E2 & Er2 & Hb2 & Hg2).
  { lia. } { done. } { by rewrite E11, Hl. }
  { rewrite (Hroot s1 ow) by (done || lia). rewrite E11, Hl, Hf1. fold (fblocks (size_of (E 1) + sizeof_dirent)). lia. }
  rewrite Hl in Er2. pose proof (gr_fb _ _ _ _ _ _ Hg2) as Hf2. rewrite (Hroot s1 ow), E11, Hl, Hf1 in Hf2 by (done || lia).
  fold (fblocks (size_of (E 1) + sizeof_dirent)) in Hf2.
  assert (E2 i = new_ent T_FILE) as E2i by (rewrite (gr_other _ _ _ _ _ _ Hg2) by lia; done).
  pose proof (gr_ino _ _ _ _ _ _ Hg2) as Hi2.
  destruct (iappend_all_grown chunks s2 ow2 E2 ftype i Hb2) as (s3 & ow3 & E3 & Er3 & Hb3 & Hg3); rewrite ?E2i.
  { lia. } { done. } { change (size_of (new_ent T_FILE)) with 0. lia. }
  { change (size_of (new_ent T_FILE)) with 0. change (blocks_for (e_nb (new_ent T_FILE))) with 0. rewrite Z.add_0_l.
    fold (fblocks (Z.of_nat (length (concat chunks)))). lia. }
  exists s3, ow3, E3. assert (E3 1 = E2 1) as E31 by (apply (gr_other _ _ _ _ _ _ Hg3); lia).
  assert (size_of (E3 1) = size_of (E 1) + sizeof_dirent) as Es by (rewrite E31, (grown_size _ _ _ _ _ _ Hg2), E11, Hl; done).
  split_and!; [|done| |done].
  - unfold add_file. rewrite bool_decide_false by done. rewrite A3. unfold bind at 1. rewrite Er1.
    unfold bind. fold (fname arg). change ROOTINO with 1. rewrite Er2. exact Er3.
  - split.
    + rewrite E31, (gr_data _ _ _ _ _ _ Hg2), E11.
      change (concat (imap _ [arg])) with (make_dirent (i + Z.of_nat 0) (fname arg) ++ []).
      by rewrite Z.add_0_r, app_nil_r.
    + intros k a Hk. apply list_lookup_singleton_Some in Hk as [-> <-]. rewrite Z.add_0_r, (gr_data _ _ _ _ _ _ Hg3), E2i.
      by rewrite Ec.
    + intros j Hj. rewrite (gr_other _ _ _ _ _ _ Hg3), (gr_other _ _ _ _ _ _ Hg2) by lia. apply upd_ent_ne. lia.
    + cbn [length]. pose proof (gr_ino _ _ _ _ _ _ Hg3). lia.
    + rewrite Es, (gr_fb _ _ _ _ _ _ Hg3), E2i, Hf2, Efb. change (size_of (new_ent T_FILE)) with 0.
      change (blocks_for (e_nb (new_ent T_FILE))) with 0. rewrite Z.add_0_l. fold (fblocks (Z.of_nat (length (concat chunks)))). lia.
Qed.

Lemma added_cons a args i E E1 E2 s s1 s2 : 1 < i -> added [a] i E E1 s s1 -> added args (i + 1) E1 E2 s1 s2 ->
  added (a :: args) i E E2 s s2.
Proof.
  intros Hi [A1 A2 A3 A4 A5] [B1 B2 B3 B4 B5]. split.
  - rewrite B1, A1, <-app_assoc. f_equal. rewrite imap_cons. cbn [imap concat]. f_equal; [by rewrite app_nil_r|].
    f_equal. apply imap_ext. intros k x _.
    change (make_dirent (i + 1 + Z.of_nat k) (fname x) = make_dirent (i + Z.of_nat (S k)) (fname x)). f_equal. lia.
  - intros [|k] x Hk.
    + rewrite B3 by lia. by apply (A2 0%nat).
    + replace (i + Z.of_nat (S k)) with (i + 1 + Z.of_nat k) by lia. by apply B2.
  - intros j Hj. rewrite B3 by lia. by apply A3.
  - rewrite B4. cbn [length]. lia.
  - rewrite B5, A5. cbn [file_blocks]. lia.
Qed.

Lemma add_files_correct args : forall s ow E, Forall arg_ok args -> built s ow E ftype ->
  2 <= freeinode s -> freeinode s + Z.of_nat (length args) <= NINODES ->
  size_of (E 1) + Z.of_nat (length args) * sizeof_dirent <= MAXFILE * BSIZE ->
  freeblock s + fblocks (size_of (E 1) + Z.of_nat (length args) * sizeof_dirent) - fblocks (size_of (E 1)) + file_blocks args <= FSSIZE ->
  exists s' ow' E', add_files host ROOTINO args s = Ret tt s' /\ built s' ow' E' ftype /\ added args (freeinode s) E E' s s'.
Proof.
  induction args as [|a args IH]; intros s ow E Ha Hb Hi Hn Hmax Hcap; cbn [add_files].
  - exists s, ow, E. split_and!; [done|done|]. split; [by cbn; rewrite app_nil_r|by intros k x Hk; rewrite lookup_nil in Hk|done|cbn; lia|].
    cbn [file_blocks]. lia.
  - apply Forall_cons in Ha as [Ha Has]. cbn [length file_blocks] in *. unfold sizeof_dirent, DIRSIZ in *.
    pose proof (file_blocks_nonneg args) as Hnn.
    destruct (add_file_correct s ow E a Ha Hb) as (s1 & ow1 & E1 & Er & Hb1 & Had & Es1); unfold sizeof_dirent, DIRSIZ in *.
    { lia. } { lia. }
    { cbn [file_blocks]. pose proof (fblocks_mono (size_of (E 1) + (2 + 14)) (size_of (E 1) + Z.of_nat (S (length args)) * (2 + 14)) ltac:(lia)). lia. }
    pose proof (dd_ino _ _ _ _ _ _ Had) as Hi1. cbn [length] in Hi1.
    pose proof (dd_fb _ _ _ _ _ _ Had) as Hf1. cbn [file_blocks] in Hf1.
    replace (size_of (E 1) + Z.of_nat (S (length args)) * (2 + 14)) with (size_of (E1 1) + Z.of_nat (length args) * (2 + 14)) in Hcap by lia.
    destruct (IH s1 ow1 E1 Has Hb1) as (s2 & ow2 & E2 & Er2 & Hb2 & Had2); [lia..|].
    exists s2, ow2, E2. split_and!; [unfold bind; by rewrite Er|done|].
    replace (freeinode s1) with (freeinode s + 1) in Had2 by lia. by apply (added_cons a args _ E E1 E2 s s1 s2); [lia|..].
Qed.
End Files.

(** *** The start of main() *)

Lemma zero_disk n : forall lo s, 0 <= lo -> lo + Z.of_nat n <= FSSIZE -> m_img s = replicate (Z.to_nat lo) zeroes ->
  for_range n lo (fun i => wsect i zeroes) s = Ret tt (set_img (replicate (Z.to_nat lo + n) zeroes) s).
Proof.
  induction n as [|n IH]; intros lo s Hlo Hle Him; cbn [for_range].
  - unfold ret. rewrite Nat.add_0_r, <-Him. by destruct s.
  - unfold bind, wsect at 1, modify. rewrite sector_small by lia.
    rewrite Him, length_replicate. replace (S (Z.to_nat lo) - Z.to_nat lo)%nat with 1%nat by lia.
    assert (<[Z.to_nat lo:=zeroes]> (replicate (Z.to_nat lo) zeroes ++ replicate 1 zeroes) = replicate (Z.to_nat (lo + 1)) zeroes) as ->.
    { rewrite <-replicate_add, insert_replicate. f_equal. lia. }
    rewrite IH by (done || lia). by replace (Z.to_nat (lo + 1) + n)%nat with (Z.to_nat lo + S n)%nat by lia.
Qed.

(** The state in which the first inode is allocated. *)
Definition formatted : mst :=
  mkMst (<[1%nat := blit 0 (encode_sb make_sb) zeroes]> (replicate (Z.to_nat FSSIZE) zeroes)) make_sb 1 nmeta.

Lemma zeroes_ok : length zeroes = Z.to_nat BSIZE /\ Forall is_byte zeroes.
Proof. split; [apply length_replicate|]. by apply Forall_replicate. Qed.

Lemma encode_sb_byte v : Forall is_byte (encode_sb v).
Proof.
  unfold encode_sb. apply Forall_concat. apply Forall_fmap. apply Forall_true. intros x. apply le_bytes_byte.
Qed.

Lemma formatted_built E : built formatted (fun _ => None) E ftype.
Proof.
  assert (forall b, 0 <= b < FSSIZE -> b <> 1 -> sect (m_img formatted) b = zeroes) as Hz.
  { intros b Hb Hne. unfold sect, formatted. cbn [m_img].
    rewrite list_lookup_total_insert_ne by lia. apply lookup_total_replicate_2. lia. }
  split; try (intros i Hi; change (freeinode formatted) with 1 in Hi; lia).
  - split; [|done|done|intros i Hi; change (freeinode formatted) with 1 in Hi; lia].
    change (freeblock formatted) with 59. split; cbn [m_img formatted].
    + by rewrite length_insert, length_replicate.
    + apply Forall_insert; [apply Forall_replicate, zeroes_ok|].
      rewrite length_blit. split; [apply zeroes_ok|]. apply blit_byte; [apply encode_sb_byte|apply zeroes_ok].
    + done.
    + intros b Hb. apply Hz; lia.
  - split.
    + unfold sect, formatted. cbn [m_img]. apply list_lookup_total_insert_eq. rewrite length_replicate. unfold FSSIZE. lia.
    + intros b Hb. apply Hz; unfold FSSIZE; lia.
  - done.
Qed.
