(* ===== verification/MkfsImage.v ===== *)
(** The image that main() of mkfs.c leaves. *)

From S2P Require Import WriteSpec.
From S2P Require Export MkfsMain.

Open Scope Z_scope.

Section Image.
Context (host : list Z -> option (list (list Z))) (args : list (list Z)).

(** The bytes of the root directory. *)
Definition root_data : list Z :=
  make_dirent 1 [46] ++ make_dirent 1 [46; 46] ++
  concat (imap (fun k a => make_dirent (2 + Z.of_nat k) (fname a)) args).

Definition root_size : Z := (2 + Z.of_nat (length args)) * sizeof_dirent.

(** The files exist and fit into the inodes and the blocks. *)
Record args_ok : Prop := {
  as_files : Forall (arg_ok host) args;
  as_inodes : 2 + Z.of_nat (length args) <= NINODES;
  as_blocks : nmeta + fblocks root_size + file_blocks host args <= FSSIZE;
}.

(** The bitmap of the blocks below [used]. *)
Definition bitmap (used : Z) : list Z := foldl (fun buf i => set_bit i buf) zeroes (seqZ 0 used).

Definition rounded (n : Z) : Z := (n / BSIZE + 1) * BSIZE.

Record finished (s : mst) (ow : owners) (E : Z -> ent) : Prop := {
  fi_world : world s ow E;
  fi_tight : forall i, 1 <= i < freeinode s -> tight (E i);
  fi_disk : forall i, 1 < i < freeinode s -> on_disk s i = e_din (E i);
  fi_rootdisk : on_disk s 1 = setf 4 8 (rounded root_size) (e_din (E 1));
  fi_hdr : forall i, 1 <= i < freeinode s -> hdr (ftype i) (E i);
  fi_meta : meta_ok (m_img s);
  fi_bitmap : sect (m_img s) 58 = bitmap (freeblock s);
  fi_root : e_data (E 1) = root_data;
  fi_files : forall k a, args !! k = Some a -> e_data (E (2 + Z.of_nat k)) = contents host a;
  fi_ino : freeinode s = 2 + Z.of_nat (length args);
  fi_fb : freeblock s = nmeta + fblocks root_size + file_blocks host args;
}.

Lemma dot_ok : Forall is_byte [46] /\ Forall is_byte [46; 46].
Proof. unfold is_byte. split; repeat constructor; lia. Qed.

Lemma length_dirents i l : Forall (fun a => Forall is_byte a) l ->
  Z.of_nat (length (concat (imap (fun k a => make_dirent (i + Z.of_nat k) (fname a)) l))) = Z.of_nat (length l) * sizeof_dirent.
Proof.
  intros Hl. revert i. induction Hl as [|a l Ha _ IH]; intros i; [done|].
  rewrite imap_cons. cbn [concat length]. rewrite length_app.
  assert (imap ((fun k a => make_dirent (i + Z.of_nat k) (fname a)) ∘ S) l = imap (fun k a => make_dirent (i + 1 + Z.of_nat k) (fname a)) l) as ->.
  { apply imap_ext. intros k x _. change (make_dirent (i + Z.of_nat (S k)) (fname x) = make_dirent (i + 1 + Z.of_nat k) (fname x)). f_equal. lia. }
  destruct (make_dirent_ok (i + Z.of_nat 0) (fname a) (fname_byte _ Ha)) as [E _]. specialize (IH (i + 1)).
  rewrite Nat2Z.inj_add, E, IH. unfold sizeof_dirent. lia.
Qed.

Lemma length_root_data : Forall (arg_ok host) args -> Z.of_nat (length root_data) = root_size.
Proof.
  intros Ha. unfold root_data, root_size. rewrite !length_app, !Nat2Z.inj_add, length_dirents.
  - destruct dot_ok as [D1 D2]. rewrite (proj1 (make_dirent_ok 1 _ D1)), (proj1 (make_dirent_ok 1 _ D2)).
    unfold sizeof_dirent. lia.
  - eapply Forall_impl; [exact Ha|]. intros a Hab. apply Hab.
Qed.

(** The files are all there when the loop over the arguments ends. *)
Lemma main_files (Hok : args_ok) (E0 : Z -> ent) : exists s1 s2 s3 s ow E,
  ialloc T_DIR formatted = Ret 1 s1 /\ iappend 1 (make_dirent 1 [46]) sizeof_dirent s1 = Ret tt s2 /\
  iappend 1 (make_dirent 1 [46; 46]) sizeof_dirent s2 = Ret tt s3 /\ add_files host 1 args s3 = Ret tt s /\
  built s ow E ftype /\ e_data (E 1) = root_data /\
  (forall k a, args !! k = Some a -> e_data (E (2 + Z.of_nat k)) = contents host a) /\
  freeinode s = 2 + Z.of_nat (length args) /\ freeblock s = nmeta + fblocks root_size + file_blocks host args.
Proof.
  destruct Hok as [Ha Hi Hcap]. destruct dot_ok as [D1 D2].
  destruct (make_dirent_ok 1 _ D1) as [L1 B1]. destruct (make_dirent_ok 1 _ D2) as [L2 B2].
  pose proof (file_blocks_nonneg host args) as Hnn.
  destruct (ialloc_correct formatted _ E0 ftype (formatted_built E0)) as (s1 & Er1 & Hb1 & Hi1 & Hf1); [done|done|].
  change (freeinode formatted) with 1 in *. change (ftype 1) with T_DIR in *. change (freeblock formatted) with nmeta in *.
  set (E1 := upd_ent 1 (new_ent T_DIR) E0) in *. assert (E1 1 = new_ent T_DIR) as E11 by apply upd_ent_eq.
  destruct (iappend_grown s1 _ E1 ftype 1 (make_dirent 1 [46]) Hb1) as (s2 & ow2 & E2 & Er2 & Hb2 & Hg2); rewrite ?E11, ?Hi1, ?Hf1.
  { lia. } { done. } { done. } { done. }
  pose proof (grown_size _ _ _ _ _ _ Hg2) as S2. pose proof (gr_fb _ _ _ _ _ _ Hg2) as F2. pose proof (gr_ino _ _ _ _ _ _ Hg2) as I2.
  rewrite E11, L1 in S2, F2. rewrite L1 in Er2. change (size_of (new_ent T_DIR) + sizeof_dirent) with 16 in S2, F2.
  change (blocks_for (nblk 16)) with 1 in F2. change (blocks_for (e_nb (new_ent T_DIR))) with 0 in F2.
  assert (e_nb (E2 1) = 1) as N2 by (rewrite (built_nb s2 ow2 E2 ftype 1), S2 by (done || lia); done).
  destruct (iappend_grown s2 ow2 E2 ftype 1 (make_dirent 1 [46; 46]) Hb2) as (s3 & ow3 & E3 & Er3 & Hb3 & Hg3);
    rewrite ?S2, ?N2, ?L2, ?F2, ?Hf1; [lia|done|done|done|].
  pose proof (grown_size _ _ _ _ _ _ Hg3) as S3. pose proof (gr_fb _ _ _ _ _ _ Hg3) as F3. pose proof (gr_ino _ _ _ _ _ _ Hg3) as I3.
  rewrite S2, L2 in S3. rewrite S2, N2, L2 in F3. rewrite L2 in Er3. change (16 + sizeof_dirent) with 32 in S3, F3.
  change (blocks_for (nblk 32)) with 1 in F3. change (blocks_for 1) with 1 in F3.
  assert (freeblock s3 = 60) as F3' by (rewrite F3, F2, Hf1; done).
  assert (32 + Z.of_nat (length args) * sizeof_dirent = root_size) as Ers by (unfold root_size, sizeof_dirent, DIRSIZ; lia).
  destruct (add_files_correct host args s3 ow3 E3) as (s4 & ow4 & E4 & Er4 & Hb4 & Had); rewrite ?S3, ?Ers.
  { done. } { done. } { lia. } { lia. }
  { unfold root_size, sizeof_dirent, DIRSIZ, NINODES in *. change (MAXFILE * BSIZE) with 71680. lia. }
  { change (fblocks 32) with 1. change nmeta with 59 in Hcap. lia. }
  exists s1, s2, s3, s4, ow4, E4. assert (freeinode s3 = 2) as Hi3 by lia. rewrite Hi3 in Had. destruct Had as [A1 A2 A3 A4 A5].
  assert (e_data (E4 1) = root_data) as Hroot.
  { rewrite A1, (gr_data _ _ _ _ _ _ Hg3), (gr_data _ _ _ _ _ _ Hg2), E11. unfold root_data. cbn [new_ent e_data app].
    by rewrite <-app_assoc. }
  split_and!; [done..|].
  rewrite A5, F3', S3. change (fblocks 32) with 1. change nmeta with 59.
  unfold size_of. rewrite Hroot, length_root_data by done. lia.
Qed.

(** *** The end of main() *)

Lemma bitmap_ok n : (n <= Z.to_nat BPB)%nat ->
  block_ok (bitmap (Z.of_nat n)) /\ forall b, 0 <= b < BPB -> bit (bitmap (Z.of_nat n)) b = (b <? Z.of_nat n).
Proof.
  induction n as [|n IH]; intros Hn.
  - split; [apply zeroes_ok|]. intros b Hb. rewrite (proj2 (Z.ltb_ge _ _)) by lia.
    unfold bit, bitmap, byte_at. change (seqZ 0 (Z.of_nat 0)) with (@nil Z). cbn [foldl]. unfold zeroes.
    rewrite lookup_total_replicate_2; [apply Z.bits_0|].
    assert (b / 8 < 512) by (apply Z.div_lt_upper_bound; [lia|change BPB with 4096 in Hb; lia]). unfold BSIZE. lia.
  - destruct (IH ltac:(lia)) as [Hok Hbit]. unfold bitmap in *. rewrite Nat2Z.inj_succ. unfold Z.succ.
    rewrite seqZ_app by lia. assert (seqZ (0 + Z.of_nat n) 1 = [Z.of_nat n]) as -> by (unfold seqZ; cbn; f_equal; lia).
    rewrite foldl_snoc. split; [by apply set_bit_ok|].
    intros b Hb. rewrite bit_set_bit by (done || lia). rewrite Hbit by done.
    case_decide; [symmetry; apply Z.ltb_lt; lia|]. apply eq_true_iff_eq. rewrite !Z.ltb_lt. lia.
Qed.

Lemma root_size_bound : 2 + Z.of_nat (length args) <= NINODES ->
  0 < root_size < 4096 /\ 0 < rounded root_size < 2 ^ 31.
Proof.
  intros Hn. assert (0 < root_size < 4096) as Hrs by (unfold root_size, sizeof_dirent, DIRSIZ, NINODES in *; lia).
  split; [done|]. unfold rounded, BSIZE.
  assert (0 <= root_size / 512 < 8) by (split; [apply Z.div_pos; lia|apply Z.div_lt_upper_bound; lia]). lia.
Qed.

(** The size of the root directory and the bitmap. *)
Section Finish.
Context (s : mst) (ow : owners) (E : Z -> ent) (Hb : built s ow E ftype) (Hok : args_ok).
Context (Hroot : e_data (E 1) = root_data)
  (Hfiles : forall k a, args !! k = Some a -> e_data (E (2 + Z.of_nat k)) = contents host a)
  (Hi : freeinode s = 2 + Z.of_nat (length args)) (Hf : freeblock s = nmeta + fblocks root_size + file_blocks host args).

Let din := setf 4 8 (rounded root_size) (e_din (E 1)).
Let s1 := set_img (<[Z.to_nat (IBLOCK 1 make_sb) := blit (dip_off 1) din (sect (m_img s) (IBLOCK 1 make_sb))]> (m_img s)) s.
Let s2 := set_img (<[Z.to_nat 58 := bitmap (freeblock s)]> (m_img s1)) s1.

Lemma finish_din : length din = Z.to_nat sizeof_dinode /\ Forall is_byte din.
Proof using Hb Hi.
  pose proof (fo_din _ _ _ _ _ (w_files _ _ _ (bu_world _ _ _ _ Hb) 1 ltac:(lia))) as [L B].
  unfold din. rewrite length_setf. split; [done|by apply setf_byte].
Qed.

Lemma finish_sizes : 0 <= root_size < 4096 /\ 0 < rounded root_size < 2 ^ 31 /\ 59 <= freeblock s <= FSSIZE.
Proof using Hb Hi Hok.
  destruct (root_size_bound (as_inodes Hok)). split; [lia|]. split; [done|apply (w_img _ _ _ (bu_world _ _ _ _ Hb))].
Qed.

Lemma finish_bitmap : block_ok (bitmap (freeblock s)).
Proof using Hb Hi Hok.
  destruct finish_sizes as (_ & _ & Hfr). unfold FSSIZE in Hfr. rewrite <-(Z2Nat.id (freeblock s)) by lia.
  apply bitmap_ok. change (Z.to_nat BPB) with (Z.to_nat 4096). lia.
Qed.

Lemma finish_run :
  (din <- rinode 1 ;;
   let off := u32 ((xint (din_size din) / BSIZE + 1) * BSIZE) in
   winode 1 (setf 4 8 (xint off) din) ;;
   b <- gets freeblock ;; balloc b)%kernel s = Ret tt s2.
Proof using Hb Hi Hok Hroot.
  destruct finish_sizes as (Hrs & Hrd & Hfr). destruct Hb as [Hw Ht Hd Hh Hm Hfb].
  unfold bind at 1. rewrite rinode_run by (apply Hw || done). rewrite Hd by lia.
  rewrite (hd_size _ _ (Hh 1 ltac:(lia))). unfold size_of at 1. rewrite Hroot, length_root_data by apply Hok.
  rewrite (xint_small root_size) by lia. fold (rounded root_size). rewrite (u32_small (rounded root_size)) by lia. cbv zeta.
  rewrite (xint_small (rounded root_size)) by lia. fold din.
  unfold bind at 1. rewrite (winode_run s 1 din (w_img _ _ _ Hw) (w_sb _ _ _ Hw) ltac:(done) finish_din). fold s1.
  unfold bind at 1, gets. change (freeblock s1) with (freeblock s). unfold balloc.
  rewrite (proj2 (Z.ltb_lt _ _)) by (unfold FSSIZE, BSIZE in *; lia). cbn [negb]. fold (bitmap (freeblock s)).
  unfold bind, gets. change (m_sb s1) with (m_sb s). rewrite (w_sb _ _ _ Hw). apply wsect_run; [|done].
  unfold s1. cbn [m_img set_img]. rewrite length_insert. apply Hw.
Qed.

Lemma finish_finished : finished s2 ow E.
Proof using All.
  destruct finish_sizes as (Hrs & Hrd & Hfr). pose proof Hb as [Hw Ht Hd Hh Hm Hfb].
  assert (0 <= 1 < NINODES) as H1 by done. pose proof finish_din as Hdin.
  pose proof (winode_same s 1 din (w_img _ _ _ Hw) (w_sb _ _ _ Hw) H1 Hdin) as Es. fold s1 in Es.
  pose proof (winode_others s 1 din (w_img _ _ _ Hw) (w_sb _ _ _ Hw) H1 Hdin) as Eo. fold s1 in Eo.
  pose proof (winode_other s 1 din (w_img _ _ _ Hw) (w_sb _ _ _ Hw) H1 Hdin) as Eb. fold s1 in Eb.
  pose proof (world_winode s ow E 1 din Hw H1 Hdin) as Hw1. fold s1 in Hw1.
  assert (forall b, 0 <= b -> b <> 58 -> sect (m_img s2) b = sect (m_img s1) b) as E2.
  { intros b Hb0 Hb1. apply sect_insert_ne; lia. }
  assert (forall i, 0 <= i < NINODES -> on_disk s2 i = on_disk s1 i) as Ed.
  { intros i Hir. destruct (iblock_range i Hir) as [_ Hib]. unfold on_disk. by rewrite E2 by lia. }
  assert (freeinode s2 = freeinode s /\ freeblock s2 = freeblock s) as [Ei Ef] by done.
  pose proof (w_ino _ _ _ Hw) as Hni.
  split; rewrite ?Ei, ?Ef; [|done| | |done| | |done..].
  - destruct Hw1 as [W1 W2 W3 W4]. split; [|done|done|].
    + destruct W1 as [I1 I2 I3 I4]. split; [by cbn; rewrite length_insert| |done|].
      * apply Forall_insert; [done|]. apply finish_bitmap.
      * intros b Hbr. rewrite E2; [by apply I4|..]; change (freeblock s2) with (freeblock s) in Hbr; lia.
    + intros i Hir. apply (file_ok_frame (m_img s1) _ ow _ (freeblock s1)); [by apply W4|done|].
      intros b p Hbr Ho. change nmeta with 59 in Hbr. by rewrite E2 by lia.
  - intros i Hir. rewrite Ed, Eo by lia. apply Hd. lia.
  - by rewrite Ed.
  - apply (meta_ok_ext (m_img s)); [|done]. intros b Hbr. rewrite E2, Eb by lia. done.
  - apply sect_insert_eq; [done|]. cbn [s1 m_img set_img]. rewrite length_insert. apply Hw.
Qed.
End Finish.

Lemma main_correct : args_ok -> exists s ow E, main host args mkfs_start = Ret tt s /\ finished s ow E.
Proof.
  intros Hok. destruct (main_files Hok (fun _ => new_ent 0)) as (s1 & s2 & s3 & s4 & ow & E & R1 & R2 & R3 & R4 & Hb & Hroot & Hfiles & Hi & Hf).
  eexists _, ow, E. split; [|by eapply finish_finished].
  unfold main, bind at 1, modify at 1, bind at 1, modify at 1, bind at 1.
  rewrite zero_disk by done. unfold bind at 1. rewrite wsect_run by done.
  match goal with |- (bind _ _) ?t = _ => change t with formatted end.
  unfold bind at 1. rewrite R1. change (negb (1 =? ROOTINO)) with false. cbn match.
  unfold bind at 1. rewrite R2. unfold bind at 1. rewrite R3. unfold bind at 1. rewrite R4.
  by apply (finish_run s4 ow E).
Qed.
End Image.
