(* ===== verification/MkfsKernel.v ===== *)
(** The kernel on the image that mkfs made: readi() gives the bytes of the files, dirlookup()
    finds their names, and the bitmap has exactly the blocks in use. *)

From S2P Require Import WriteSpec.
From S2P Require Export MkfsImage.

Open Scope Z_scope.

(** The kernel runs on a disk with the blocks of the image. *)
Record on_image (t : fsys) (img : list (list Z)) : Prop := {
  oi_size : disksize t = FSSIZE;
  oi_view : forall b, 0 <= b < FSSIZE -> view t b = sect img b;
}.

(** The inode as ilock() reads it. *)
Definition kinode (t : fsys) (inum : Z) (x : inode) : inode :=
  get_dinode (dip_off inum) (view t (IBLOCK inum make_sb)) x.

Lemma getf_slice n k m off bs : (k + n <= m)%nat -> getf n k (slice off m bs) = getf n (off + k) bs.
Proof.
  intros H. unfold getf. f_equal. apply list_eq. intros i. destruct (decide (i < n)%nat).
  - rewrite !slice_lookup by lia. f_equal. lia.
  - rewrite !lookup_ge_None_2; [done|unfold slice; rewrite length_take; lia..].
Qed.

Section Kernel.
Context (host : list Z -> option (list (list Z))) (args : list (list Z)).
Context (s : mst) (ow : owners) (E : Z -> ent) (Hfin : finished host args s ow E).
Context (t : fsys) (Ht : on_image t (m_img s)).
Context (i : Z) (Hi : 1 <= i < freeinode s) (x0 : inode).

Let e := E i.
Let x := kinode t i x0.

Lemma k_block : view t (IBLOCK i make_sb) = sect (m_img s) (IBLOCK i make_sb).
Proof using All.
  pose proof (w_ino _ _ _ (fi_world _ _ _ _ _ Hfin)) as Hn. destruct (iblock_range i ltac:(lia)) as [_ Hb].
  apply (oi_view _ _ Ht). unfold FSSIZE. lia.
Qed.

Lemma k_file : file_ok (m_img s) ow (freeblock s) i e.
Proof using All. by apply (fi_world _ _ _ _ _ Hfin). Qed.

(** The inode on the disk, but for the size of the root directory. *)
Lemma k_din n k : (k + n <= 8)%nat \/ (12 <= k)%nat -> (k + n <= 64)%nat ->
  getf n k (on_disk s i) = getf n k (e_din e).
Proof using All.
  intros Hk Hn. unfold e. destruct (decide (i = 1)) as [->|Hne].
  - rewrite (fi_rootdisk _ _ _ _ _ Hfin). apply getf_setf_ne. lia.
  - by rewrite (fi_disk _ _ _ _ _ Hfin) by lia.
Qed.

Lemma k_addr k : 0 <= k <= NDIRECT -> i_addr x k = din_addr (e_din e) k.
Proof using All.
  unfold NDIRECT. intros Hk. unfold x, kinode, i_addr, getw. cbn [get_dinode i_addrs]. rewrite k_block.
  rewrite getf_slice by (change (Z.to_nat sizeof_addrs) with 52%nat; lia).
  unfold din_addr. rewrite <-k_din by lia. unfold on_disk.
  rewrite getf_slice by (change (Z.to_nat sizeof_dinode) with 64%nat; lia). f_equal. lia.
Qed.

Lemma k_hdr : i_type x = ftype i /\ i_nlink x = 1 /\ i_major x = 0 /\ i_minor x = 0.
Proof using All.
  destruct (fi_hdr _ _ _ _ _ Hfin i Hi) as [H1 H2 H3 H4 _]. unfold x, kinode. cbn [get_dinode i_type i_nlink i_major i_minor].
  rewrite k_block. fold e in H1, H2, H3, H4. rewrite <-k_din in H1, H2, H3, H4 by lia.
  unfold on_disk in *. rewrite getf_slice in H1, H2, H3, H4 by (change (Z.to_nat sizeof_dinode) with 64%nat; lia).
  rewrite Nat.add_0_r in H1. rewrite H1, H2, H3, H4. split_and!; [|done..]. unfold ftype. by destruct (i =? 1).
Qed.

Lemma k_size : i_size x = if decide (i = 1) then rounded (root_size args) else size_of e.
Proof using All.
  unfold x, kinode. cbn [get_dinode i_size]. rewrite k_block.
  rewrite <-(getf_slice 4 8 (Z.to_nat sizeof_dinode)) by (change (Z.to_nat sizeof_dinode) with 64%nat; lia).
  fold (on_disk s i). case_decide as Hi1.
  - assert (on_disk s i = setf 4 8 (rounded (root_size args)) (e_din e)) as -> by (unfold e; rewrite Hi1; apply (fi_rootdisk _ _ _ _ _ Hfin)).
    pose proof (fo_din _ _ _ _ _ k_file) as [L _]. rewrite getf_setf_eq by (rewrite L; change (Z.to_nat sizeof_dinode) with 64%nat; lia).
    apply Z.mod_small. destruct (root_size_bound args) as [_ Hr]; [|lia].
    rewrite <-(fi_ino _ _ _ _ _ Hfin). apply (fi_world _ _ _ _ _ Hfin).
  - rewrite (fi_disk _ _ _ _ _ Hfin) by lia. apply (fi_hdr _ _ _ _ _ Hfin i Hi).
Qed.

Lemma k_fblock bn : 0 <= bn < e_nb e -> fblock t x bn = fblk (m_img s) (e_din e) bn.
Proof using All.
  intros Hbn. pose proof k_file as Hf. unfold fblock, fblk. destruct (Z.ltb_spec bn NDIRECT).
  - apply k_addr. lia.
  - rewrite k_addr by (unfold NDIRECT; lia). pose proof (fo_ind _ _ _ _ _ Hf) as H6.
    destruct (e_ind e); [|lia]. destruct H6 as [[Ha _] _].
    pose proof (im_free _ _ (w_img _ _ _ (fi_world _ _ _ _ _ Hfin))). assert (0 < nmeta) by done.
    by rewrite (oi_view _ _ Ht) by lia.
Qed.

Lemma k_mapped bn : 0 <= bn < e_nb e -> mapped t x bn.
Proof using All.
  intros Hbn. pose proof k_file as Hf. pose proof (fo_nb _ _ _ _ _ Hf) as Hnb.
  pose proof (im_free _ _ (w_img _ _ _ (fi_world _ _ _ _ _ Hfin))) as Hfr. assert (0 < nmeta) as Hm by done.
  destruct (fo_data _ _ _ _ _ Hf bn Hbn) as [Hr _].
  split; [lia|rewrite k_fblock, (oi_size _ _ Ht) by done; lia|].
  intros Hge. rewrite k_addr, (oi_size _ _ Ht) by (unfold NDIRECT; lia).
  pose proof (fo_ind _ _ _ _ _ Hf) as H6. destruct (e_ind e); [|lia]. destruct H6 as [[Ha _] _]. lia.
Qed.

Lemma k_byte k : 0 <= k < e_nb e * BSIZE -> file_byte t x k = data_at (e_data e) k.
Proof using All.
  intros Hk. pose proof k_file as Hf. pose proof (block_in _ _ Hk) as Hb.
  destruct (fo_data _ _ _ _ _ Hf _ Hb) as [Hr _]. assert (0 < nmeta) as Hm by done.
  pose proof (im_free _ _ (w_img _ _ _ (fi_world _ _ _ _ _ Hfin))) as Hfr.
  unfold file_byte. rewrite k_fblock by done. rewrite (oi_view _ _ Ht) by lia. by apply (fo_bytes _ _ _ _ _ Hf).
Qed.

Lemma k_regular : i_dev x0 = 1 -> i_size x <= e_nb e * BSIZE -> regular t x.
Proof using All.
  intros Hdev Hs. pose proof (fo_nb _ _ _ _ _ k_file) as Hnb. destruct k_hdr as (Ety & _). split.
  - rewrite Ety. unfold ftype. by destruct (i =? 1).
  - done.
  - assert (MAXFILE * BSIZE < 2 ^ 31) by done. unfold BSIZE in *. split; [|lia].
    unfold x, kinode. cbn [get_dinode i_size]. rewrite k_block. apply getf_bound.
    destruct (iblock_range i) as [_ Hb]; [pose proof (w_ino _ _ _ (fi_world _ _ _ _ _ Hfin)); lia|].
    apply (sect_ok _ (freeblock s)); [apply (fi_world _ _ _ _ _ Hfin)|unfold FSSIZE; lia].
  - intros k Hk. apply k_mapped, block_in. lia.
Qed.

Lemma k_own : i_size x <= e_nb e * BSIZE -> own_blocks t x.
Proof using All.
  intros Hs. pose proof k_file as Hf. pose proof (fo_nb _ _ _ _ _ Hf) as Hnb.
  assert (forall k, 0 <= k < i_size x -> 0 <= k / BSIZE < e_nb e) as Hin by (intros k Hk; apply block_in; lia).
  split.
  - intros k l Hk Hl. rewrite !k_fblock by by apply Hin. intros Heq.
    destruct (fo_data _ _ _ _ _ Hf _ (Hin k Hk)) as [_ H1]. destruct (fo_data _ _ _ _ _ Hf _ (Hin l Hl)) as [_ H2].
    rewrite Heq, H2 in H1. by injection H1.
  - intros k l Hk Hl Hge. rewrite k_fblock by by apply Hin. rewrite k_addr by (unfold NDIRECT; lia). intros Heq.
    destruct (fo_data _ _ _ _ _ Hf _ (Hin k Hk)) as [_ H1]. pose proof (fo_ind _ _ _ _ _ Hf) as H6.
    specialize (Hin l Hl). destruct (e_ind e); [|lia]. destruct H6 as [[_ H6] _].
    rewrite Heq, H6 in H1. injection H1 as H1. specialize (block_in k (e_nb e)). lia.
Qed.

Lemma k_bytes off n : 0 <= off -> 0 <= n -> off + n <= e_nb e * BSIZE ->
  file_bytes t x off n = data_at (e_data e) <$> seqZ off n.
Proof using All.
  intros Ho Hn Hle. apply list_fmap_ext. intros j k Hk. apply lookup_seqZ in Hk as [-> Hk]. apply k_byte. lia.
Qed.
End Kernel.

Lemma data_at_all (l : list Z) : data_at l <$> seqZ 0 (Z.of_nat (length l)) = l.
Proof.
  apply list_eq. intros j. rewrite list_lookup_fmap. destruct (decide (j < length l)%nat).
  - rewrite lookup_seqZ_lt by lia. destruct (lookup_lt_is_Some_2 l j) as [v Hv]; [done|].
    change (Some (data_at l (0 + Z.of_nat j)) = l !! j). unfold data_at.
    replace (Z.to_nat (0 + Z.of_nat j)) with j by lia. by rewrite Hv.
  - rewrite lookup_seqZ_ge by lia. by rewrite lookup_ge_None_2 by lia.
Qed.

Section Theorems.
Context (host : list Z -> option (list (list Z))) (args : list (list Z)).

Lemma tight_le e : tight e -> size_of e <= e_nb e * BSIZE.
Proof.
  intros [-> _]. unfold BSIZE. pose proof (Z.div_mod (size_of e + (512 - 1)) 512 ltac:(done)).
  pose proof (Z.mod_pos_bound (size_of e + (512 - 1)) 512 eq_refl). lia.
Qed.

(** The size of the contents of the [i]-th inode. *)
Definition size_of_file (i : Z) : Z :=
  if i =? 1 then root_size args else Z.of_nat (length (contents host (args !!! Z.to_nat (i - 2)))).

Lemma finished_size s ow E : args_ok host args -> finished host args s ow E ->
  forall i, 1 <= i < freeinode s -> size_of_file i = size_of (E i).
Proof.
  intros Hok Hfin i Hi. rewrite (fi_ino _ _ _ _ _ Hfin) in Hi. unfold size_of_file, size_of.
  destruct (Z.eqb_spec i 1) as [->|Hne].
  - rewrite (fi_root _ _ _ _ _ Hfin). symmetry. apply (length_root_data host), Hok.
  - destruct (lookup_lt_is_Some_2 args (Z.to_nat (i - 2))) as [a Ha]; [lia|].
    pose proof (fi_files _ _ _ _ _ Hfin _ _ Ha) as Hd. replace (2 + Z.of_nat (Z.to_nat (i - 2))) with i in Hd by lia.
    by rewrite Hd, (list_lookup_total_correct _ _ _ Ha).
Qed.

(** C23. What mkfs stores the kernel reads. For files that exist and fit, mkfs makes an image that
    has a superblock for the layout of the disk and, for each argument, an inode of a regular file
    with one link, its size, blocks of its own, and a readi() of the file on any kernel state that
    has this image as its disk returns the bytes that mkfs read from the host, across direct and
    indirect blocks. *)
Theorem mkfs_roundtrip : args_ok host args ->
  exists s, main host args mkfs_start = Ret tt s /\
    length (m_img s) = Z.to_nat FSSIZE /\ Forall block_ok (m_img s) /\ decode_sb (sect (m_img s) 1) = make_sb /\
    forall t D ip k a x0 devsw, on_image t (m_img s) -> reading t D -> args !! k = Some a -> i_dev x0 = 1 ->
    let x := kinode t (2 + Z.of_nat k) x0 in
    let n := Z.of_nat (length (contents host a)) in
    ino t ip = x ->
    i_type x = T_FILE /\ i_nlink x = 1 /\ i_size x = n /\ own_blocks t x /\
    wp (readi devsw ip 0 n) (fun r t' => r = (n, contents host a) /\ quiet t t') t.
Proof.
  intros Hok. destruct (main_correct host args Hok) as (s & ow & E & Er & Hfin).
  exists s. split; [exact Er|]. clear Er. split; [apply (fi_world _ _ _ _ _ Hfin)|].
  split; [apply (fi_world _ _ _ _ _ Hfin)|].
  split; [rewrite (mo_super _ (fi_meta _ _ _ _ _ Hfin)); reflexivity|].
  intros t D ip k a x0 devsw Ht HD Ha Hdev x n Hx.
  pose proof (lookup_lt_Some _ _ _ Ha) as Hk. pose proof (fi_ino _ _ _ _ _ Hfin) as Hi.
  assert (1 <= 2 + Z.of_nat k < freeinode s) as Hir by lia.
  pose proof (k_hdr host args s ow E Hfin t Ht _ Hir x0) as (H1 & H2 & _).
  pose proof (k_size host args s ow E Hfin t Ht _ Hir x0) as H3. fold x in H1, H2, H3.
  rewrite decide_False in H3 by lia. pose proof (fi_files _ _ _ _ _ Hfin k a Ha) as Hd.
  pose proof (tight_le _ (fi_tight _ _ _ _ _ Hfin _ Hir)) as Hle.
  assert (size_of (E (2 + Z.of_nat k)) = n) as Hn by (unfold size_of; by rewrite Hd). rewrite Hn in H3, Hle.
  assert (regular t x) as Hreg by (apply (k_regular host args s ow E Hfin t Ht _ Hir); [done|fold x; lia]).
  split_and!; [|done|done|apply (k_own host args s ow E Hfin t Ht _ Hir); fold x; lia|].
  { rewrite H1. unfold ftype. by rewrite (proj2 (Z.eqb_neq _ _)) by lia. }
  eapply wp_mono; [apply (wp_readi devsw t D ip x 0 n HD Hx Hreg); pose proof (rg_size _ _ Hreg); lia|].
  intros r t' (-> & _ & Q). split; [|done]. rewrite H3, Z.sub_0_r, Z.min_id. f_equal. unfold x.
  rewrite (k_bytes host args s ow E Hfin t Ht _ Hir) by lia. rewrite Hd. apply data_at_all.
Qed.

(** No block is used twice: the blocks of all files and of the root directory are different,
    and the bitmap marks exactly the blocks that are in use. *)
Theorem mkfs_blocks : args_ok host args ->
  exists s, main host args mkfs_start = Ret tt s /\
    forall t x0, on_image t (m_img s) ->
    (forall b, 0 <= b < FSSIZE -> bit (view t 58) b = (b <? freeblock s)) /\
    (forall i bn, 1 <= i < freeinode s -> 0 <= bn < nblk (size_of_file i) ->
      nmeta <= fblock t (kinode t i x0) bn < freeblock s) /\
    (forall i j bn bm, 1 <= i < freeinode s -> 1 <= j < freeinode s ->
      0 <= bn < nblk (size_of_file i) -> 0 <= bm < nblk (size_of_file j) ->
      fblock t (kinode t i x0) bn = fblock t (kinode t j x0) bm -> i = j /\ bn = bm).
Proof.
  intros Hok. destruct (main_correct host args Hok) as (s & ow & E & Er & Hfin).
  exists s. split; [exact Er|]. clear Er. intros t x0 Ht.
  assert (forall i, 1 <= i < freeinode s -> nblk (size_of_file i) = e_nb (E i)) as Hnb.
  { intros i Hi. rewrite (ti_nb _ (fi_tight _ _ _ _ _ Hfin i Hi)). unfold nblk. do 2 f_equal.
    apply (finished_size s ow E Hok Hfin i Hi). }
  pose proof (im_free _ _ (w_img _ _ _ (fi_world _ _ _ _ _ Hfin))) as Hfr. change nmeta with 59 in *.
  split_and!.
  - intros b Hb. rewrite (oi_view _ _ Ht), (fi_bitmap _ _ _ _ _ Hfin) by (unfold FSSIZE; lia). unfold FSSIZE in *.
    rewrite <-(Z2Nat.id (freeblock s)) by lia. apply bitmap_ok; change (Z.to_nat BPB) with (Z.to_nat 4096); change BPB with 4096; lia.
  - intros i bn Hi Hbn. rewrite Hnb in Hbn by done. rewrite (k_fblock host args s ow E Hfin t Ht i Hi) by done.
    by apply (fo_data _ _ _ _ _ (w_files _ _ _ (fi_world _ _ _ _ _ Hfin) i Hi)).
  - intros i j bn bm Hi Hj Hbn Hbm Heq. rewrite Hnb in Hbn, Hbm by done.
    rewrite !(k_fblock host args s ow E Hfin t Ht) in Heq by done.
    destruct (fo_data _ _ _ _ _ (w_files _ _ _ (fi_world _ _ _ _ _ Hfin) i Hi) bn Hbn) as [_ H1].
    destruct (fo_data _ _ _ _ _ (w_files _ _ _ (fi_world _ _ _ _ _ Hfin) j Hj) bm Hbm) as [_ H2].
    rewrite Heq, H2 in H1. by injection H1.
Qed.

(** *** Names *)

(** The entries of the root directory, and their names. *)
Definition dirents : list (list Z) :=
  make_dirent 1 [46] :: make_dirent 1 [46; 46] :: imap (fun k a => make_dirent (2 + Z.of_nat k) (fname a)) args.

Lemma root_data_dirents : root_data args = concat dirents.
Proof. unfold root_data, dirents. cbn [concat]. done. Qed.

Lemma slice_concat (L : list (list Z)) k n de : Forall (fun l => length l = n) L -> L !! k = Some de ->
  slice (k * n) n (concat L) = de.
Proof.
  intros HL. revert k. induction HL as [|l L Hl _ IH]; intros k Hk; [done|]. cbn [concat]. unfold slice.
  destruct k as [|k]; cbn in Hk.
  - injection Hk as <-. rewrite drop_0. by rewrite take_app_length' by done.
  - rewrite drop_app_ge by lia. replace (S k * n - length l)%nat with (k * n)%nat by lia. by apply IH.
Qed.

Lemma de_inum_make inum name : 0 <= inum < 2 ^ 16 -> de_inum (make_dirent inum name) = inum.
Proof.
  intros Hi. unfold de_inum, make_dirent. rewrite xshort_small by done.
  unfold getf, slice. rewrite drop_0, take_app_le by (rewrite length_setf; cbn; lia).
  rewrite take_ge by (rewrite length_setf; cbn; lia).
  pose proof (getf_setf_eq 2 0 inum (replicate 2 0) ltac:(cbn; lia)) as H. unfold getf, slice in H.
  rewrite drop_0, take_ge in H by (rewrite length_setf; cbn; lia). rewrite H. by apply Z.mod_small.
Qed.

Lemma de_name_make inum name : de_name (make_dirent inum name) = strncpy_bytes (Z.to_nat DIRSIZ) name.
Proof.
  unfold de_name, slice, make_dirent. rewrite drop_app_length' by by rewrite length_setf.
  apply take_ge. by rewrite length_strncpy.
Qed.

Lemma names_make inum name n : 0 < inum < 2 ^ 16 ->
  names n (make_dirent inum name) <-> cname (Z.to_nat DIRSIZ) n = cname (Z.to_nat DIRSIZ) name.
Proof.
  intros Hi. unfold names. rewrite de_inum_make, de_name_make, cname_strncpy by lia. split; [by intros [_ ?]|]. split; [lia|done].
Qed.

Definition root_names : list (list Z) := [46] :: [46; 46] :: (fname <$> args).
Definition root_inum (k : nat) : Z := if (k <? 2)%nat then 1 else Z.of_nat k.

Lemma dirents_lookup k nm : root_names !! k = Some nm -> dirents !! k = Some (make_dirent (root_inum k) nm).
Proof.
  unfold root_names, dirents. destruct k as [|[|k]]; [by intros [= <-]..|].
  intros H. change ((fname <$> args) !! k = Some nm) in H.
  change (imap (fun k a => make_dirent (2 + Z.of_nat k) (fname a)) args !! k = Some (make_dirent (Z.of_nat (S (S k))) nm)).
  rewrite list_lookup_fmap in H. rewrite list_lookup_imap. destruct (args !! k) as [a|]; [|done].
  injection H as <-. change (Some (make_dirent (2 + Z.of_nat k) (fname a)) = Some (make_dirent (Z.of_nat (S (S k))) (fname a))).
  do 2 f_equal. lia.
Qed.

Lemma length_dirents_all : Forall (arg_ok host) args -> Forall (fun l => length l = 16%nat) dirents.
Proof.
  intros Ha. assert (forall inum nm, Forall is_byte nm -> length (make_dirent inum nm) = 16%nat) as H.
  { intros inum nm Hn. pose proof (proj1 (make_dirent_ok inum nm Hn)) as H. change sizeof_dirent with 16 in H. lia. }
  destruct dot_ok as [D1 D2]. repeat constructor; [by apply H..|].
  apply Forall_lookup. intros k de Hk. rewrite list_lookup_imap in Hk. destruct (args !! k) as [a|] eqn:Ea; [|done].
  cbn in Hk. injection Hk as <-. apply H, fname_byte. rewrite Forall_lookup in Ha. apply (Ha k a Ea).
Qed.

Lemma data_at_slice (l : list Z) off n : (off + n <= length l)%nat ->
  data_at l <$> seqZ (Z.of_nat off) (Z.of_nat n) = slice off n l.
Proof.
  intros H. apply list_eq. intros j. rewrite list_lookup_fmap. destruct (decide (j < n)%nat).
  - rewrite lookup_seqZ_lt, slice_lookup by lia. destruct (lookup_lt_is_Some_2 l (off + j)) as [v Hv]; [lia|].
    change (Some (data_at l (Z.of_nat off + Z.of_nat j)) = l !! (off + j)%nat). unfold data_at.
    replace (Z.to_nat (Z.of_nat off + Z.of_nat j)) with (off + j)%nat by lia. by rewrite Hv.
  - rewrite lookup_seqZ_ge by lia. symmetry. apply lookup_ge_None_2. unfold slice. rewrite length_take. lia.
Qed.

Section Root.
Context (s : mst) (ow : owners) (E : Z -> ent) (Hok : args_ok host args) (Hfin : finished host args s ow E).
Context (t : fsys) (Ht : on_image t (m_img s)) (x0 : inode) (Hdev : i_dev x0 = 1).
Context (Hmod : (2 + Z.of_nat (length args)) mod 32 <> 0).
Let x := kinode t ROOTINO x0.

Lemma root_size_blocks : 1 <= 1 < freeinode s /\ i_size x = e_nb (E 1) * BSIZE /\ root_size args <= i_size x.
Proof using All.
  pose proof (fi_ino _ _ _ _ _ Hfin) as Hi. assert (1 <= 1 < freeinode s) as H1 by lia. split; [done|].
  pose proof (k_size host args s ow E Hfin t Ht 1 H1 x0) as Hs. rewrite decide_True in Hs by done.
  change (kinode t 1 x0) with x in Hs. rewrite Hs.
  rewrite (ti_nb _ (fi_tight _ _ _ _ _ Hfin 1 H1)), <-(finished_size s ow E Hok Hfin 1 H1).
  unfold size_of_file. cbn [Z.eqb Pos.eqb]. unfold rounded, BSIZE.
  assert (root_size args = (2 + Z.of_nat (length args)) * 16) as Er by done.
  pose proof (Z.div_mod (root_size args) 512 ltac:(done)) as Hd. pose proof (Z.mod_pos_bound (root_size args) 512 eq_refl) as Hm.
  assert (root_size args mod 512 <> 0) as Hne.
  { rewrite Er. change 512 with (32 * 16). rewrite Z.mul_mod_distr_r by done. lia. }
  assert ((root_size args + (512 - 1)) / 512 = root_size args / 512 + 1) as ->; [|lia].
  symmetry. apply (Z.div_unique _ 512 _ (root_size args mod 512 - 1)); lia.
Qed.

Lemma root_directory : directory t x.
Proof using All.
  destruct root_size_blocks as (H1 & Hs & _). split.
  - by destruct (k_hdr host args s ow E Hfin t Ht 1 H1 x0).
  - apply (k_regular host args s ow E Hfin t Ht 1 H1 x0); [done|]. change (kinode t 1 x0) with x. lia.
  - rewrite Hs. unfold BSIZE, sizeof_dirent, DIRSIZ. replace (e_nb (E 1) * 512) with (e_nb (E 1) * 32 * 16) by lia. by apply Z.mod_mul.
Qed.

Lemma root_entry k de : dirents !! k = Some de -> entries t x !! k = Some de.
Proof using All.
  intros Hk. destruct root_size_blocks as (H1 & Hs & Hle). pose proof (lookup_lt_Some _ _ _ Hk) as Hlt.
  assert (length dirents = 2 + length args)%nat as Hl by (unfold dirents; cbn; by rewrite length_imap).
  assert (root_size args = (2 + Z.of_nat (length args)) * 16) as Er by done.
  unfold entries. rewrite list_lookup_fmap, lookup_seq_lt.
  2: { change sizeof_dirent with 16. assert (Z.of_nat (2 + length args) <= i_size x / 16) by (apply Z.div_le_lower_bound; lia). lia. }
  cbn [fmap option_fmap option_map]. f_equal. unfold entry. change sizeof_dirent with 16. cbn [Nat.add].
  assert (0 <= Z.of_nat k * 16 /\ Z.of_nat k * 16 + 16 <= e_nb (E 1) * BSIZE) as [K1 K2] by lia.
  unfold x. change ROOTINO with 1.
  rewrite (k_bytes host args s ow E Hfin t Ht 1 H1 x0) by lia. rewrite (fi_root _ _ _ _ _ Hfin).
  replace (Z.of_nat k * 16) with (Z.of_nat (k * 16)) by lia. change 16 with (Z.of_nat 16).
  pose proof (length_root_data host args (as_files _ _ Hok)) as Hlr.
  rewrite data_at_slice by lia. rewrite root_data_dirents. by apply slice_concat; [apply length_dirents_all, Hok|].
Qed.

Lemma root_find k nm : NoDup (cname (Z.to_nat DIRSIZ) <$> root_names) -> root_names !! k = Some nm ->
  dir_find t x nm = Some (k, make_dirent (root_inum k) nm).
Proof using All.
  intros Hnd Hk. assert (forall j, (j < 2 + length args)%nat -> 0 < root_inum j < 2 ^ 16) as Hin.
  { intros j Hj. pose proof (as_inodes _ _ Hok) as Hn. unfold NINODES in Hn. unfold root_inum. destruct (Nat.ltb_spec j 2); lia. }
  assert (length root_names = 2 + length args)%nat as Hl by (unfold root_names; cbn; by rewrite length_fmap).
  pose proof (lookup_lt_Some _ _ _ Hk) as Hlt. apply list_find_Some. split_and!.
  - by apply root_entry, dirents_lookup.
  - apply names_make; [apply Hin; lia|done].
  - intros j de Hj Hjk. destruct (lookup_lt_is_Some_2 root_names j) as [nj Hnj]; [lia|].
    rewrite (root_entry j _ (dirents_lookup j nj Hnj)) in Hj. injection Hj as <-.
    rewrite names_make by (apply Hin; lia). intros Heq.
    assert (j = k) as ->; [|lia]. eapply (NoDup_lookup _ _ _ (cname (Z.to_nat DIRSIZ) nm) Hnd); rewrite list_lookup_fmap.
    + by rewrite Hnj, Heq.
    + by rewrite Hk.
Qed.
End Root.

(** The kernel finds the files by their names. When the names, without the leading underscore
    and cut to DIRSIZ bytes, are different, dirlookup() in the root directory of an image that mkfs
    made gives for each of them, and for . and .., the inode that has the file (the entries of
    the directory do not end with a block). *)
Theorem mkfs_names : args_ok host args -> (2 + Z.of_nat (length args)) mod 32 <> 0 ->
  NoDup (cname (Z.to_nat DIRSIZ) <$> root_names) ->
  exists s, main host args mkfs_start = Ret tt s /\
    forall t D dp x0 devsw k nm, on_image t (m_img s) -> reading t D -> ic_wf t -> i_dev x0 = 1 ->
    ino t dp = kinode t ROOTINO x0 -> root_names !! k = Some nm ->
    outcome_is (dirlookup devsw dp nm t)
      (fun r t' => exists ip, r = Some (ip, Z.of_nat k * sizeof_dirent) /\
         i_dev (ino t' ip) = 1 /\ i_inum (ino t' ip) = root_inum k)
      (fun e => e = "iget: no inodes"%string).
Proof.
  intros Hok Hmod Hnd. destruct (main_correct host args Hok) as (s & ow & E & Er & Hfin).
  exists s. split; [exact Er|]. clear Er. intros t D dp x0 devsw k nm Ht HD Hic Hdev Hx Hk.
  pose proof (root_directory s ow E Hok Hfin t Ht x0 Hdev Hmod) as Hdir. rewrite <-Hx in Hdir.
  pose proof (dirlookup_run devsw t D dp nm HD Hic Hdir) as Hrun. cbv zeta in Hrun.
  rewrite Hx, (root_find s ow E Hok Hfin t Ht x0 Hdev Hmod k nm Hnd Hk) in Hrun.
  assert (0 <= root_inum k < 2 ^ 16) as Hr.
  { pose proof (as_inodes _ _ Hok) as Hn. unfold NINODES in Hn. pose proof (lookup_lt_Some _ _ _ Hk) as Hl.
    unfold root_names in Hl. cbn in Hl. rewrite length_fmap in Hl. unfold root_inum. destruct (Nat.ltb_spec k 2); lia. }
  rewrite de_inum_make in Hrun by done.
  destruct (dirlookup devsw dp nm t); cbn in *; try done. destruct Hrun as (ip & H1 & H2 & H3 & _). by exists ip.
Qed.

(** The size of the root directory is rounded up to one block too many when its entries fill
    their last block, as with 30 files: the directory then has a block that is not allocated. *)
Theorem mkfs_root_hole : args_ok host args -> (2 + Z.of_nat (length args)) mod 32 = 0 ->
  exists s, main host args mkfs_start = Ret tt s /\
    forall t x0, on_image t (m_img s) ->
    let x := kinode t ROOTINO x0 in
    i_type x = T_DIR /\ i_size x = root_size args + BSIZE /\ fblock t x (i_size x / BSIZE - 1) = 0.
Proof.
  intros Hok Hmod. destruct (main_correct host args Hok) as (s & ow & E & Er & Hfin).
  exists s. split; [exact Er|]. clear Er. intros t x0 Ht x. pose proof (fi_ino _ _ _ _ _ Hfin) as Hi.
  assert (1 <= 1 < freeinode s) as H1 by lia. destruct (k_hdr host args s ow E Hfin t Ht 1 H1 x0) as (Ht1 & _).
  pose proof (k_size host args s ow E Hfin t Ht 1 H1 x0) as Hs. rewrite decide_True in Hs by done.
  change (kinode t 1 x0) with x in Ht1, Hs.
  destruct (root_size_bound args (as_inodes _ _ Hok)) as [Hrs _].
  pose proof (Z.div_mod (2 + Z.of_nat (length args)) 32 ltac:(done)) as Hdm. rewrite Hmod in Hdm.
  set (q := (2 + Z.of_nat (length args)) / 32) in *.
  assert (root_size args = q * 512) as Eq by (unfold root_size, sizeof_dirent, DIRSIZ; lia).
  assert (rounded (root_size args) = root_size args + BSIZE) as Er'.
  { unfold rounded, BSIZE. rewrite Eq, Z.div_mul by done. lia. }
  split_and!; [done|by rewrite Hs|].
  rewrite Hs, Er', Eq. unfold BSIZE. replace (q * 512 + 512) with ((q + 1) * 512) by lia. rewrite Z.div_mul by done.
  replace (q + 1 - 1) with q by lia.
  pose proof (k_file host args s ow E Hfin t Ht 1 H1 x0) as Hf.
  assert (e_nb (E 1) = q) as Enb.
  { rewrite (ti_nb _ (fi_tight _ _ _ _ _ Hfin 1 H1)). rewrite <-(finished_size s ow E Hok Hfin 1 H1).
    unfold size_of_file. cbn [Z.eqb Pos.eqb]. rewrite Eq. unfold BSIZE. symmetry. apply (Z.div_unique _ 512 _ 511); lia. }
  unfold fblock. rewrite (proj2 (Z.ltb_lt _ _)) by (unfold NDIRECT; lia).
  rewrite (k_addr host args s ow E Hfin t Ht 1 H1 x0) by (unfold NDIRECT; lia).
  apply (fo_none _ _ _ _ _ Hf). unfold NDIRECT. lia.
Qed.
End Theorems.
