(* ===== verification/MkfsDemo.v ===== *)
(** mkfs on two small files, and a kernel that boots from the image. *)

From S2P Require Import Txn.
From S2P Require Import WriteSpec.
From S2P Require Export MkfsKernel.

Open Scope Z_scope.

(** An entry of the inode cache for an inode, and a free one. *)
Definition entry_of (inum : Z) : inode := mkInode 1 inum 1 initsleeplock 0 0 0 0 0 0 [].
Definition entry_free : inode := mkInode 0 0 0 initsleeplock 0 0 0 0 0 0 [].

(** A kernel after binit() on an image, with an inode of it in the cache. *)
Lemma boot_image img inum : length img = Z.to_nat FSSIZE -> Forall block_ok img ->
  exists t, on_image t img /\ reading t [] /\ ic_wf t /\ ino t 0 = kinode t inum (entry_of inum).
Proof.
  intros Hl Hb. set (t0 := set_disk img [] demo_start).
  assert (bufs_zero t0) as Hz0.
  { split; [done|]. intros b Hlt. unfold bufat. cbn [t0 set_disk demo_start bufs].
    rewrite lookup_total_replicate_2 by lia. done. }
  destruct (proj1 (wp_run _ _ _) (wp_binit t0 Hz0 Hb)) as (r & t1 & _ & Hset & Hz & Hwf & _ & Hv).
  assert (memdisk t1 = img) as Hm by (change (memdisk (set_bufs [] t1) = img); by rewrite Hset).
  assert (ic_lock t1 = false) as Hlk by (change (ic_lock (set_bufs [] t1) = false); by rewrite Hset).
  set (t := set_icache (kinode t1 inum (entry_of inum) :: replicate 49 entry_free) t1). exists t.
  assert (forall ip, (0 < ip < Z.to_nat NINODE)%nat -> ino t ip = entry_free) as Hfree.
  { intros [|ip] Hip; [lia|]. unfold ino, t. cbn [set_icache icache].
    change ((replicate 49 entry_free) !!! ip = entry_free). apply lookup_total_replicate_2. unfold NINODE in Hip. lia. }
  split_and!.
  - split; [unfold disksize; change (memdisk t) with (memdisk t1); rewrite Hm, Hl; done|].
    intros b Hbr. change (view t b) with (view t1 b). rewrite Hv. unfold dblock. by rewrite Hm.
  - split; [|vm_compute; lia]. destruct (bufs_zero_cache t1 Hwf Hz) as [[? ? ? Hbw ? ?] ? ?].
    split; [split; try done|done|done]. intros b Hlt. by destruct (Hbw b Hlt).
  - split; [done|done| |].
    + intros [|ip] Hip; [done|]. by rewrite Hfree by lia.
    + intros ip jp Hip Hjp Hr1 Hr2 _ _. destruct ip as [|ip], jp as [|jp]; [done| | |];
        rewrite ?(Hfree (S ip)), ?(Hfree (S jp)) in * by lia; cbn in *; lia.
  - done.
Qed.

(** Two files, the second with an indirect block. *)
Definition demo_host (name : list Z) : option (list (list Z)) :=
  if decide (name = [97]) then Some [[104; 105]] else Some (replicate 14 (replicate 512 7)).
Definition demo_args : list (list Z) := [[97]; [95; 98]].

Lemma demo_arg_ok a : a ∈ demo_args -> arg_ok demo_host a.
Proof.
  intros Ha. assert (a = [97] \/ a = [95; 98]) as [-> | ->] by (unfold demo_args in Ha; set_solver).
  - split; [unfold SLASH; set_solver| |done| |].
    + unfold is_byte. repeat constructor; lia.
    + change (Forall is_byte [104; 105]). unfold is_byte. repeat constructor; lia.
    + change (2 <= MAXFILE * BSIZE). done.
  - split; [unfold SLASH; set_solver| |done| |].
    + unfold is_byte. repeat constructor; lia.
    + change (Forall is_byte (concat (replicate 14 (replicate 512 7)))).
      apply Forall_concat, Forall_replicate, Forall_replicate. unfold is_byte. lia.
    + vm_compute. discriminate.
Qed.

Lemma demo_args_ok : args_ok demo_host demo_args.
Proof.
  split; [|vm_compute; discriminate|vm_compute; discriminate].
  apply Forall_forall. apply demo_arg_ok.
Qed.

(** readi() of the second file on the image gives its 7168 bytes. *)
Lemma mkfs_roundtrip_witness : exists s, main demo_host demo_args mkfs_start = Ret tt s /\
  exists t, on_image t (m_img s) /\ ino t 0 = kinode t 3 (entry_of 3) /\ i_size (ino t 0) = 7168 /\
    wp (readi (fun _ => mkDevsw None None) 0 0 7168)
      (fun r _ => r = (7168, concat (replicate 14 (replicate 512 7)))) t.
Proof.
  destruct (mkfs_roundtrip demo_host demo_args demo_args_ok) as (s & Es & Hl & Hb & _ & H).
  exists s. split; [exact Es|]. clear Es. destruct (boot_image (m_img s) 3 Hl Hb) as (t & Ht & Hr & _ & Hx).
  exists t. destruct (H t [] 0%nat 1%nat [95; 98] (entry_of 3) (fun _ => mkDevsw None None) Ht Hr eq_refl eq_refl Hx)
    as (_ & _ & Hs & _ & Hw).
  split; [exact Ht|]. split; [exact Hx|]. split; [rewrite Hx; exact Hs|].
  eapply wp_mono; [exact Hw|]. intros r t' [-> _]. reflexivity.
Defined.

Lemma mkfs_blocks_witness : exists s, main demo_host demo_args mkfs_start = Ret tt s /\
  forall t, on_image t (m_img s) -> bit (view t 58) 58 = true.
Proof.
  destruct (mkfs_blocks demo_host demo_args demo_args_ok) as (s & Es & H). exists s. split; [exact Es|].
  destruct (main_correct demo_host demo_args demo_args_ok) as (s' & ow & E & Es' & Hfin).
  assert (s = s') as -> by congruence. clear Es Es'. intros t Ht.
  destruct (H t (entry_of 1) Ht) as (Hb & _). rewrite Hb by (unfold FSSIZE; lia).
  pose proof (im_free _ _ (w_img _ _ _ (fi_world _ _ _ _ _ Hfin))) as Hf. change nmeta with 59 in Hf.
  apply Z.ltb_lt. lia.
Defined.

(** The name of the second file. *)
Lemma mkfs_names_witness : exists s, main demo_host demo_args mkfs_start = Ret tt s /\
  exists t, on_image t (m_img s) /\ ino t 0 = kinode t ROOTINO (entry_of 1) /\
    outcome_is (dirlookup (fun _ => mkDevsw None None) 0 [98] t)
      (fun r t' => exists ip, r = Some (ip, 48) /\ i_dev (ino t' ip) = 1 /\ i_inum (ino t' ip) = 3)
      (fun e => e = "iget: no inodes"%string).
Proof.
  destruct (mkfs_names demo_host demo_args demo_args_ok) as (s & Es & H).
  { vm_compute. discriminate. }
  { apply (bool_decide_unpack _). vm_compute. exact I. }
  exists s. split; [exact Es|].
  destruct (main_correct demo_host demo_args demo_args_ok) as (s' & ow & E & Es' & Hfin).
  assert (s = s') as -> by congruence. clear Es Es'.
  destruct (w_img _ _ _ (fi_world _ _ _ _ _ Hfin)) as [Hl Hb _ _].
  destruct (boot_image (m_img s') 1 Hl Hb) as (t & Ht & Hr & Hic & Hx). exists t.
  split; [exact Ht|]. split; [exact Hx|].
  exact (H t [] 0%nat (entry_of 1) (fun _ => mkDevsw None None) 3%nat [98] Ht Hr Hic eq_refl Hx eq_refl).
Defined.

(** Thirty empty files. *)
Lemma mkfs_root_hole_witness : exists s, main (fun _ => Some []) (replicate 30 [97]) mkfs_start = Ret tt s /\
  forall t, on_image t (m_img s) -> i_size (kinode t ROOTINO (entry_of 1)) = 1024.
Proof.
  destruct (mkfs_root_hole (fun _ => Some []) (replicate 30 [97])) as (s & Es & H).
  - split; [|vm_compute; discriminate|vm_compute; discriminate].
    apply Forall_replicate. split; [unfold SLASH; set_solver| |done|constructor|done].
    unfold is_byte. repeat constructor; lia.
  - reflexivity.
  - exists s. split; [exact Es|]. clear Es. intros t Ht. destruct (H t (entry_of 1) Ht) as (_ & Hs & _). exact Hs.
Defined.
