(* ===== verification/Pipe.v ===== *)
(** pipe.c: a ring buffer between two ends.

    pipewrite() and piperead() sleep in the middle of a call, so a call is a sequence of
    critical sections. Each section runs from taking the lock to releasing it, by returning or
    by sleep(); what is left of a call that sleeps is a value ([inr]) from which the next
    section continues. *)

From S2P Require Export Locks.
From stdpp Require Export relations.

Open Scope Z_scope.

Definition PIPESIZE : Z := 512.

Record pipe := mkPipe {
  p_lock : bool;
  p_data : list Z;
  p_nread : Z;
  p_nwrite : Z;
  p_readopen : Z;
  p_writeopen : Z;
}.

(** The pipe, [proc->killed] of the process that runs, and the channels woken so far. *)
Record pst := mkPst { pp : pipe; pk : bool; pw : list chan }.

Definition upd_pipe (f : pipe -> pipe) (s : pst) : pst := mkPst (f (pp s)) (pk s) (pw s).
Definition set_p_lock (v : bool) (p : pipe) : pipe :=
  mkPipe v (p_data p) (p_nread p) (p_nwrite p) (p_readopen p) (p_writeopen p).
Definition set_readopen (v : Z) (p : pipe) : pipe :=
  mkPipe (p_lock p) (p_data p) (p_nread p) (p_nwrite p) v (p_writeopen p).
Definition set_writeopen (v : Z) (p : pipe) : pipe :=
  mkPipe (p_lock p) (p_data p) (p_nread p) (p_nwrite p) (p_readopen p) v.

Definition p_lk : lens pst bool := mkLens (fun s => p_lock (pp s)) (fun v => upd_pipe (set_p_lock v)).
Definition pwakeup (ch : chan) : M pst unit := modify (fun s => mkPst (pp s) (pk s) (pw s ++ [ch])).

Open Scope kernel_scope.

(** The initialisation in pipealloc(), on a page with arbitrary contents. *)
Definition pipe_init (page : list Z) : pipe := mkPipe false page 0 0 1 1.

(** Returns whether the page of the pipe is freed. *)
Definition pipeclose (writable : bool) : M pst bool :=
  acquire p_lk ;;
  (if writable
   then modify (upd_pipe (set_writeopen 0)) ;; pwakeup ChPipeRead
   else modify (upd_pipe (set_readopen 0)) ;; pwakeup ChPipeWrite) ;;
  p <- gets pp ;;
  if (p_readopen p =? 0) && (p_writeopen p =? 0)
  then release p_lk ;; ret true
  else release p_lk ;; ret false.

(** [p->data[p->nwrite++ % PIPESIZE] = c] *)
Definition put_char (c : Z) (p : pipe) : pipe :=
  mkPipe (p_lock p) (<[Z.to_nat (p_nwrite p mod PIPESIZE) := c]> (p_data p)) (p_nread p)
    (u32 (p_nwrite p + 1)) (p_readopen p) (p_writeopen p).

(** [p->data[p->nread++ % PIPESIZE]] *)
Definition get_char (p : pipe) : Z * pipe :=
  (p_data p !!! Z.to_nat (p_nread p mod PIPESIZE),
   mkPipe (p_lock p) (p_data p) (u32 (p_nread p + 1)) (p_nwrite p) (p_readopen p) (p_writeopen p)).

(** The loop, with the bytes that are left of the [n] of the call. *)
Fixpoint pipewrite_loop (addr : list Z) (n : Z) : M pst (Z + list Z) :=
  match addr with
  | [] => pwakeup ChPipeRead ;; release p_lk ;; ret (inl n)
  | c :: rest =>
      p <- gets pp ;; killed <- gets pk ;;
      if p_nwrite p =? u32 (p_nread p + PIPESIZE) then
        if (p_readopen p =? 0) || killed then release p_lk ;; ret (inl (-1))
        else pwakeup ChPipeRead ;; release p_lk ;; ret (inr (c :: rest))
      else
        modify (upd_pipe (put_char c)) ;;
        pipewrite_loop rest n
  end.

(** From the start, or from a sleep() that returns with the lock taken again. *)
Definition pipewrite (addr : list Z) (n : Z) : M pst (Z + list Z) :=
  acquire p_lk ;; pipewrite_loop addr n.

Fixpoint piperead_loop (n : nat) (i : Z) (addr : list Z) : M pst (Z * list Z) :=
  match n with
  | O => ret (i, addr)
  | S n' =>
      p <- gets pp ;;
      if p_nread p =? p_nwrite p then ret (i, addr)
      else
        let '(c, p') := get_char p in
        modify (upd_pipe (fun _ => p')) ;;
        piperead_loop n' (i + 1) (addr ++ [c])
  end.

(** [inr] when the reader sleeps: it has read nothing yet. *)
Definition piperead (n : Z) : M pst ((Z * list Z) + unit) :=
  acquire p_lk ;;
  p <- gets pp ;; killed <- gets pk ;;
  if (p_nread p =? p_nwrite p) && negb (p_writeopen p =? 0) then
    if killed : bool then release p_lk ;; ret (inl (-1, []))
    else release p_lk ;; ret (inr tt)
  else
    r <- piperead_loop (Z.to_nat n) 0 [] ;;
    pwakeup ChPipeWrite ;;
    release p_lk ;;
    ret (inl r).

(** *** The pipe as a queue *)

(** The number of bytes in the pipe; the counters wrap around. *)
Definition p_len (p : pipe) : Z := u32 (p_nwrite p - p_nread p).

Definition slot (p : pipe) (i : Z) : Z := p_data p !!! Z.to_nat ((p_nread p + i) mod PIPESIZE).

Definition contents (p : pipe) : list Z := slot p <$> seqZ 0 (p_len p).

Record pipe_wf (p : pipe) : Prop := {
  pw_data : length (p_data p) = Z.to_nat PIPESIZE;
  pw_nread : is_u32 (p_nread p);
  pw_nwrite : is_u32 (p_nwrite p);
  pw_len : p_len p <= PIPESIZE;
}.

Lemma length_contents p : length (contents p) = Z.to_nat (p_len p).
Proof. unfold contents. by rewrite length_fmap, length_seqZ. Qed.

Lemma p_len_pos p : 0 <= p_len p < 2 ^ 32.
Proof. apply Z.mod_pos_bound. lia. Qed.

(** PIPESIZE divides 2^32, so the wrap-around of the counters does not move the slots. *)
Lemma u32_mod x : u32 x mod PIPESIZE = x mod PIPESIZE.
Proof.
  unfold u32, PIPESIZE. change (2 ^ 32) with (512 * 2 ^ 23). rewrite Z.rem_mul_r by lia.
  rewrite (Z.mul_comm 512), Z.mod_add by lia. apply Z.mod_mod. lia.
Qed.

Lemma full_iff p : pipe_wf p -> p_nwrite p = u32 (p_nread p + PIPESIZE) <-> p_len p = PIPESIZE.
Proof.
  intros [_ Hr Hw _]. unfold p_len, u32, is_u32, PIPESIZE in *. split.
  - intros ->. rewrite Zminus_mod_idemp_l. replace (p_nread p + 512 - p_nread p) with 512 by lia. done.
  - intros H. rewrite <- H, Zplus_mod_idemp_r. replace (p_nread p + (p_nwrite p - p_nread p)) with
      (p_nwrite p) by lia. by rewrite Z.mod_small.
Qed.

Lemma empty_iff p : pipe_wf p -> p_nread p = p_nwrite p <-> p_len p = 0.
Proof.
  intros [_ Hr Hw _]. unfold p_len, u32, is_u32 in *. split.
  - intros ->. by rewrite Z.sub_diag.
  - intros H. destruct (decide (p_nread p <= p_nwrite p)).
    + rewrite Z.mod_small in H by lia. lia.
    + rewrite <- (Z.mod_add _ 1) in H by lia. rewrite Z.mod_small in H by lia. lia.
Qed.

Lemma slot_bound p x : pipe_wf p -> (Z.to_nat (x mod PIPESIZE) < length (p_data p))%nat.
Proof. intros Hw. rewrite (pw_data p Hw). pose proof (Z.mod_pos_bound x PIPESIZE eq_refl). lia. Qed.

(** [nwrite] is [nread] plus the number of bytes, up to the wrap-around. *)
Lemma nwrite_slot p : p_nwrite p mod PIPESIZE = (p_nread p + p_len p) mod PIPESIZE.
Proof.
  unfold p_len. rewrite <- Zplus_mod_idemp_r, u32_mod, Zplus_mod_idemp_r. f_equal. lia.
Qed.

Lemma slots_differ r i n :
  0 <= i < n -> n < PIPESIZE -> (r + i) mod PIPESIZE <> (r + n) mod PIPESIZE.
Proof.
  unfold PIPESIZE. intros Hi Hn He.
  pose proof (Z.div_mod (r + i) 512 ltac:(lia)). pose proof (Z.div_mod (r + n) 512 ltac:(lia)). lia.
Qed.

Lemma put_char_spec c p :
  pipe_wf p -> p_len p < PIPESIZE ->
  pipe_wf (put_char c p) /\ contents (put_char c p) = contents p ++ [c].
Proof.
  intros Hw Hl. pose proof (p_len_pos p) as Hp.
  assert (Hlen : p_len (put_char c p) = p_len p + 1).
  { unfold p_len, put_char, u32, PIPESIZE in *. simpl. rewrite Zminus_mod_idemp_l.
    replace (p_nwrite p + 1 - p_nread p) with (p_nwrite p - p_nread p + 1) by lia.
    rewrite <- Zplus_mod_idemp_l. apply Z.mod_small. lia. }
  split.
  - split; simpl; [by rewrite length_insert, (pw_data p Hw)|apply Hw| |lia].
    apply Z.mod_pos_bound. lia.
  - unfold contents. rewrite Hlen, (seqZ_app 0 (p_len p) 1), fmap_app by lia. f_equal.
    + apply list_fmap_ext. intros k i Hk. apply lookup_seqZ in Hk. unfold slot. simpl.
      apply list_lookup_total_insert_ne. rewrite nwrite_slot.
      pose proof (slots_differ (p_nread p) i (p_len p) ltac:(lia) Hl) as Hd.
      pose proof (Z.mod_pos_bound (p_nread p + i) PIPESIZE eq_refl).
      pose proof (Z.mod_pos_bound (p_nread p + p_len p) PIPESIZE eq_refl). lia.
    + simpl. unfold slot. simpl. rewrite <- nwrite_slot.
      by rewrite list_lookup_total_insert_eq by (by apply slot_bound).
Qed.

Lemma get_char_spec p :
  pipe_wf p -> 0 < p_len p ->
  pipe_wf (snd (get_char p)) /\ contents p = fst (get_char p) :: contents (snd (get_char p)).
Proof.
  intros Hw Hl. pose proof (p_len_pos p) as Hp. pose proof (pw_len p Hw) as H512.
  assert (Hlen : p_len (snd (get_char p)) = p_len p - 1).
  { unfold p_len, get_char, u32 in *. simpl. rewrite Zminus_mod_idemp_r.
    replace (p_nwrite p - (p_nread p + 1)) with (p_nwrite p - p_nread p - 1) by lia.
    rewrite <- Zminus_mod_idemp_l. apply Z.mod_small. lia. }
  split.
  - split; simpl; [apply Hw| |apply Hw|unfold get_char in Hlen; simpl in Hlen; lia].
    apply Z.mod_pos_bound. lia.
  - unfold contents. rewrite Hlen. replace (p_len p) with (1 + (p_len p - 1)) at 1 by lia.
    rewrite (seqZ_app 0 1 (p_len p - 1)), fmap_app by lia. simpl. f_equal.
    + unfold slot. by rewrite Z.add_0_r.
    + rewrite <- (fmap_add_seqZ 1 0), <- list_fmap_compose. apply list_fmap_ext. intros k i Hk.
      unfold slot, compose. simpl. f_equal. f_equal.
      rewrite <- (Zplus_mod_idemp_l (u32 _)), u32_mod, Zplus_mod_idemp_l. f_equal. lia.
Qed.

(** What every section keeps. *)
Record same_ends (s s' : pst) : Prop := {
  se_read : p_readopen (pp s') = p_readopen (pp s);
  se_write : p_writeopen (pp s') = p_writeopen (pp s);
  se_killed : pk s' = pk s;
}.

(** A section of pipewrite(): it appends a prefix of the bytes, of length [k]. *)
Definition write_post (addr : list Z) (n : Z) (s : pst) (r : Z + list Z) (s' : pst) : Prop :=
  p_lock (pp s') = false /\ pipe_wf (pp s') /\ same_ends s s' /\
  exists k, (k <= length addr)%nat /\ contents (pp s') = contents (pp s) ++ take k addr /\
    match r with
    | inl v =>
        (v = n /\ k = length addr /\ pw s' = pw s ++ [ChPipeRead]) \/
        (v = -1 /\ (k < length addr)%nat /\ p_len (pp s') = PIPESIZE /\
         (p_readopen (pp s) = 0 \/ pk s = true) /\ pw s' = pw s)
    | inr rest =>
        rest = drop k addr /\ rest <> [] /\ p_len (pp s') = PIPESIZE /\
        p_readopen (pp s) <> 0 /\ pk s = false /\ pw s' = pw s ++ [ChPipeRead]
    end.

Lemma pipe_wf_lock v p : pipe_wf p -> pipe_wf (set_p_lock v p).
Proof. by intros []. Qed.

Lemma wp_pipewrite_loop addr n s :
  pipe_wf (pp s) -> p_lock (pp s) = true -> wp (pipewrite_loop addr n) (write_post addr n s) s.
Proof.
  revert s. induction addr as [|c rest IH]; intros s Hw Hl; cbn [pipewrite_loop].
  - apply wp_bind, wp_modify, wp_bind, wp_release; [done|]. apply wp_ret.
    split_and!; [done|by apply pipe_wf_lock|done|]. exists 0%nat. rewrite app_nil_r.
    split_and!; [done|done|by left].
  - apply wp_bind, wp_gets, wp_bind, wp_gets.
    destruct (Z.eqb_spec (p_nwrite (pp s)) (u32 (p_nread (pp s) + PIPESIZE))) as [Hf|Hf];
      rewrite full_iff in Hf by done.
    + assert (H0 : contents (pp s) = contents (pp s) ++ take 0 (c :: rest)) by
        (by rewrite app_nil_r).
      destruct ((p_readopen (pp s) =? 0) || pk s) eqn:Eo.
      * apply wp_bind, wp_release; [done|]. apply wp_ret.
        split_and!; [done|by apply pipe_wf_lock|done|]. exists 0%nat.
        split_and!; [simpl; lia|exact H0|]. right. split_and!; [done|simpl; lia|done| |done].
        apply orb_true_iff in Eo as [?%Z.eqb_eq|?]; auto.
      * apply orb_false_iff in Eo as [Eo%Z.eqb_neq Ek].
        apply wp_bind, wp_modify, wp_bind, wp_release; [done|]. apply wp_ret.
        split_and!; [done|by apply pipe_wf_lock|done|]. exists 0%nat.
        split_and!; [simpl; lia|exact H0|done..].
    + pose proof (pw_len _ Hw). destruct (put_char_spec c (pp s) Hw ltac:(lia)) as [Hw' Hc'].
      apply wp_bind, wp_modify. eapply wp_mono; [by apply IH|].
      intros r s' (L & W & [E1 E2 E3] & k & Hk & Hc & Hr). split_and!; [done..|].
      exists (S k). rewrite Hc. simpl in *. rewrite Hc', <- app_assoc.
      split_and!; [lia|done|]. destruct r as [v|rest']; [|done].
      destruct Hr as [(-> & -> & ?)|(-> & ? & ? & ? & ?)]; [by left|]. right. split_and!; try done. lia.
Qed.

Lemma wp_pipewrite addr n s :
  pipe_wf (pp s) -> p_lock (pp s) = false -> wp (pipewrite addr n) (write_post addr n s) s.
Proof.
  intros Hw Hl. unfold pipewrite. apply wp_bind, wp_acquire; [done|].
  eapply wp_mono; [apply wp_pipewrite_loop; [by apply pipe_wf_lock|done]|].
  intros r s' (L & W & [E1 E2 E3] & H). by split_and!.
Qed.

(** A section of piperead(): it takes bytes from the front, or sleeps on an empty pipe. *)
Definition read_post (n : Z) (s : pst) (r : (Z * list Z) + unit) (s' : pst) : Prop :=
  p_lock (pp s') = false /\ pipe_wf (pp s') /\ same_ends s s' /\
  match r with
  | inl (v, bs) =>
      contents (pp s) = bs ++ contents (pp s') /\
      ((v = Z.of_nat (length bs) /\ bs = take (Z.to_nat n) (contents (pp s)) /\
        pw s' = pw s ++ [ChPipeWrite] /\ (p_len (pp s) <> 0 \/ p_writeopen (pp s) = 0)) \/
       (v = -1 /\ bs = [] /\ pw s' = pw s /\ p_len (pp s) = 0 /\ p_writeopen (pp s) <> 0 /\
        pk s = true))
  | inr _ =>
      contents (pp s') = [] /\ contents (pp s) = [] /\ p_writeopen (pp s) <> 0 /\ pk s = false /\
      pw s' = pw s
  end.

Lemma contents_nil p : p_len p = 0 -> contents p = [].
Proof. intros H. unfold contents. by rewrite H. Qed.

Lemma wp_piperead_loop n i addr s :
  pipe_wf (pp s) ->
  wp (piperead_loop n i addr) (fun r s' =>
    pipe_wf (pp s') /\ same_ends s s' /\ p_lock (pp s') = p_lock (pp s) /\ pw s' = pw s /\
    let bs := take n (contents (pp s)) in
    r = (i + Z.of_nat (length bs), addr ++ bs) /\ contents (pp s) = bs ++ contents (pp s')) s.
Proof.
  revert i addr s. induction n as [|n IH]; intros i addr s Hw; cbn [piperead_loop].
  - apply wp_ret. simpl. by rewrite app_nil_r, Z.add_0_r.
  - apply wp_bind, wp_gets. destruct (Z.eqb_spec (p_nread (pp s)) (p_nwrite (pp s))) as [He|He];
      rewrite empty_iff in He by done.
    + apply wp_ret. rewrite (contents_nil _ He). simpl. by rewrite app_nil_r, Z.add_0_r.
    + pose proof (p_len_pos (pp s)). destruct (get_char_spec (pp s) Hw ltac:(lia)) as [Hw' Hc'].
      destruct (get_char (pp s)) as [c p'] eqn:Eg. simpl in *. apply wp_bind, wp_modify.
      eapply wp_mono; [by apply IH|]. simpl. intros r s' (W & [E1 E2 E3] & L & P & -> & Hc).
      unfold get_char in Eg. simplify_eq. simpl in *. rewrite Hc'. simpl.
      split_and!; [done..| |by rewrite <- Hc].
      rewrite <- app_assoc. simpl. f_equal. lia.
Qed.

Lemma wp_piperead n s :
  pipe_wf (pp s) -> p_lock (pp s) = false -> wp (piperead n) (read_post n s) s.
Proof.
  intros Hw Hl. unfold piperead. apply wp_bind, wp_acquire; [done|].
  apply wp_bind, wp_gets, wp_bind, wp_gets. cbn [pp upd_pipe lset p_lk set_p_lock p_nread p_nwrite p_writeopen pk].
  destruct ((p_nread (pp s) =? p_nwrite (pp s)) && negb (p_writeopen (pp s) =? 0)) eqn:E.
  - apply andb_true_iff in E as [He%Z.eqb_eq Ho%negb_true_iff%Z.eqb_neq].
    rewrite empty_iff in He by done. pose proof (contents_nil _ He) as Hn.
    destruct (pk s) eqn:Ek; (apply wp_bind, wp_release; [done|]; apply wp_ret;
      split; [done|split; [by destruct Hw|split; [done|]]]).
    + split; [by rewrite Hn|]. right. split_and!; done.
    + split_and!; done.
  - eapply wp_seq; [apply wp_piperead_loop; by apply pipe_wf_lock|].
    intros r s' (W & [E1 E2 E3] & L & P & -> & Hc). apply wp_bind, wp_modify, wp_bind.
    apply wp_release; [done|]. apply wp_ret. simpl in *.
    split; [done|]. split; [by destruct W|]. split; [done|]. split; [exact Hc|].
    left. split_and!; [lia|done|by rewrite P|].
    apply andb_false_iff in E as [He%Z.eqb_neq|Ho%negb_false_iff%Z.eqb_eq]; [left|by right].
    by rewrite <- empty_iff.
Qed.
