(* ===== verification/PipeSteps.v ===== *)
(** Processes that read and write one pipe, interleaved in any order: the bytes come out in
    the order they went in, and nobody sleeps who could run. *)

From S2P Require Export Pipe.

Open Scope kernel_scope.

(** A call in progress: what is left of it. *)
Inductive pcall : Type :=
| CWrite (addr : list Z) (n : Z)
| CRead (n : Z)
| CDone (r : Z).

(** A thread, with the call as it was made. *)
Record thread := mkThread { th_arg : pcall; th_call : pcall; th_sleep : option chan; th_killed : bool }.

(** The pipe and its users, with all the bytes that the calls of piperead() returned. *)
Record psys := mkPsys {
  sy_pipe : pipe;
  sy_threads : list thread;
  sy_read : list Z;
}.

(** What a section does: the rest of the call, the channel it sleeps on, the bytes read, and
    the pipe and the channels woken. *)
Definition run_call (c : pcall) (killed : bool) (p : pipe)
    : option (pcall * option chan * list Z * pst) :=
  match c with
  | CWrite addr n =>
      match pipewrite addr n (mkPst p killed []) with
      | Ret (inl v) s => Some (CDone v, None, [], s)
      | Ret (inr rest) s => Some (CWrite rest n, Some ChPipeWrite, [], s)
      | _ => None
      end
  | CRead n =>
      match piperead n (mkPst p killed []) with
      | Ret (inl (v, bs)) s => Some (CDone v, None, bs, s)
      | Ret (inr _) s => Some (CRead n, Some ChPipeRead, [], s)
      | _ => None
      end
  | CDone _ => None
  end.

(** wakeup(): the threads that sleep on the channels run again. *)
Definition wake (ws : list chan) (t : thread) : thread :=
  match th_sleep t with
  | Some ch => if decide (ch ∈ ws) then mkThread (th_arg t) (th_call t) None (th_killed t) else t
  | None => t
  end.

(** The bytes of a call of pipewrite(addr, n) are the [n] bytes at [addr]. *)
Definition well_made (c : pcall) : Prop :=
  match c with CWrite addr n => n = Z.of_nat (length addr) | CRead _ => True | CDone _ => False end.

#[export] Instance well_made_dec c : Decision (well_made c).
Proof. destruct c; apply _. Defined.

Definition uses_end (writable : bool) (c : pcall) : bool :=
  match c with CWrite _ _ => writable | CRead _ => negb writable | CDone _ => false end.

Definition end_open (writable : bool) (p : pipe) : Prop :=
  if writable then p_writeopen p <> 0 else p_readopen p <> 0.

#[export] Instance end_open_dec w p : Decision (end_open w p).
Proof. destruct w; apply _. Defined.

Inductive pstep (kills : bool) : psys -> psys -> Prop :=
| PStart y c w :
    well_made c -> uses_end w c = true -> end_open w (sy_pipe y) ->
    pstep kills y (mkPsys (sy_pipe y) (sy_threads y ++ [mkThread c c None false]) (sy_read y))
| PRun y i t c' sl bs s' :
    sy_threads y !! i = Some t -> th_sleep t = None ->
    run_call (th_call t) (th_killed t) (sy_pipe y) = Some (c', sl, bs, s') ->
    pstep kills y
      (mkPsys (pp s') (<[i := mkThread (th_arg t) c' sl (th_killed t)]> (wake (pw s') <$> sy_threads y))
         (sy_read y ++ bs))
| PClose y w s' :
    end_open w (sy_pipe y) -> Forall (fun t => uses_end w (th_call t) = false) (sy_threads y) ->
    pipeclose w (mkPst (sy_pipe y) false []) = Ret false s' ->
    pstep kills y (mkPsys (pp s') (wake (pw s') <$> sy_threads y) (sy_read y))
| PKill y i t :
    kills = true -> sy_threads y !! i = Some t ->
    pstep kills y
      (mkPsys (sy_pipe y) (<[i := mkThread (th_arg t) (th_call t) None true]> (sy_threads y)) (sy_read y)).

Definition pipe_start (page : list Z) : psys := mkPsys (pipe_init page) [] [].

(** *** First in, first out *)

(** A history: the bytes that went into the pipe, in order, each with the number of the thread
    that wrote it; and what of it thread [i] wrote. *)
Definition from (i : nat) (h : list (nat * Z)) : list Z := (filter (fun x => x.1 = i) h).*2.

(** What thread [t] has put into the pipe, [bs], for its call: a writer in its call the bytes
    before those that are left, a writer whose call has returned the number of its bytes all of
    them, one that got -1 some first bytes, and a reader none. *)
Definition sent (t : thread) (bs : list Z) : Prop :=
  match th_arg t with
  | CWrite addr n =>
      match th_call t with
      | CWrite rest _ => bs ++ rest = addr
      | CRead _ => False
      | CDone r => (r = n /\ bs = addr) \/ (r = -1 /\ bs `prefix_of` addr)
      end
  | _ => bs = []
  end.

Record history (y : psys) (h : list (nat * Z)) : Prop := {
  hi_order : h.*2 = sy_read y ++ contents (sy_pipe y);
  hi_threads : Forall (fun x => (x.1 < length (sy_threads y))%nat) h;
  hi_sent : forall i t, sy_threads y !! i = Some t -> sent t (from i h);
}.

(** The call of a thread is of the kind and the size that it was made with. *)
Definition same_call (t : thread) : Prop :=
  match th_arg t, th_call t with
  | CWrite _ n, CWrite _ n' => n = n'
  | CWrite _ _, CDone _ | CRead _, CRead _ | CRead _, CDone _ => True
  | _, _ => False
  end.

Record fifo (y : psys) : Prop := {
  ff_wf : pipe_wf (sy_pipe y);
  ff_lock : p_lock (sy_pipe y) = false;
  ff_calls : Forall same_call (sy_threads y);
  ff_history : exists h, history y h;
}.

(** The two kinds of section, as [run_call] shows them. *)
Lemma run_call_spec c k p c' sl bs s' :
  pipe_wf p -> p_lock p = false -> run_call c k p = Some (c', sl, bs, s') ->
  match c with
  | CWrite addr n => exists r, write_post addr n (mkPst p k []) r s' /\ bs = [] /\
      match r with
      | inl v => c' = CDone v /\ sl = None
      | inr rest => c' = CWrite rest n /\ sl = Some ChPipeWrite
      end
  | CRead n => exists r, read_post n (mkPst p k []) r s' /\
      match r with
      | inl (v, b) => c' = CDone v /\ sl = None /\ bs = b
      | inr _ => c' = CRead n /\ sl = Some ChPipeRead /\ bs = []
      end
  | CDone _ => False
  end.
Proof.
  intros Hw Hl Hr. destruct c as [addr n|n|r]; [| |done]; simpl in Hr.
  - pose proof (wp_pipewrite addr n (mkPst p k []) Hw Hl) as H. unfold wp in H.
    destruct (pipewrite addr n _) as [[v|rest] s1| | |]; try done; simplify_eq; eauto 10.
  - pose proof (wp_piperead n (mkPst p k []) Hw Hl) as H. unfold wp in H.
    destruct (piperead n _) as [[[v b]|[]] s1| | |]; try done; simplify_eq.
    + exists (inl (v, bs)). auto.
    + exists (inr tt). auto.
Qed.

Lemma pipeclose_run w p f s' :
  p_lock p = false -> pipeclose w (mkPst p false []) = Ret f s' ->
  pp s' = (if w then set_writeopen 0 p else set_readopen 0 p) /\
  pw s' = [if w then ChPipeRead else ChPipeWrite].
Proof.
  intros Hl. destruct p as [lk d nr nw ro wo]. simpl in Hl. subst lk.
  destruct w; cbn; repeat case_match; intros Hr; vm_compute in Hr; by simplify_eq/=.
Qed.

Lemma from_app i h h' : from i (h ++ h') = from i h ++ from i h'.
Proof. unfold from. by rewrite filter_app, fmap_app. Qed.

Lemma from_mine i bs : from i (pair i <$> bs) = bs.
Proof. unfold from. induction bs as [|b bs IH]; [done|]. rewrite fmap_cons, filter_cons_True, fmap_cons, IH by done. done. Qed.

Lemma from_other i j bs : i <> j -> from i (pair j <$> bs) = [].
Proof. intros Hne. unfold from. induction bs as [|b bs IH]; [done|]. rewrite fmap_cons, filter_cons_False by (simpl; congruence). done. Qed.

Lemma from_above i h : Forall (fun x => (x.1 < i)%nat) h -> from i h = [].
Proof.
  unfold from. induction 1 as [|x h Hx _ IH]; [done|]. rewrite filter_cons_False by (simpl; lia). done.
Qed.

(** Waking, killing and closing do not touch the calls. *)
Definition calls_kept (t t' : thread) : Prop := th_arg t' = th_arg t /\ th_call t' = th_call t.

Lemma wake_kept ws t : calls_kept t (wake ws t).
Proof. unfold wake. destruct (th_sleep t); [|done]. by case_decide. Qed.

Lemma kept_sent t t' bs : calls_kept t t' -> sent t bs -> sent t' bs.
Proof. intros [Ea Ec]. unfold sent. by rewrite Ea, Ec. Qed.

Lemma kept_same t t' : calls_kept t t' -> same_call t -> same_call t'.
Proof. intros [Ea Ec]. unfold same_call. by rewrite Ea, Ec. Qed.

Lemma fifo_kept y p' ts' :
  Forall2 calls_kept (sy_threads y) ts' -> pipe_wf p' -> p_lock p' = false ->
  contents p' = contents (sy_pipe y) -> fifo y -> fifo (mkPsys p' ts' (sy_read y)).
Proof.
  intros Hk Hw Hl Hc [_ _ Hs (h & [Ho Ht Hb])]. split; [done|done| |].
  - eapply Forall2_Forall_r; [exact Hk|]. eapply Forall_impl; [exact Hs|]. intros t Ht' t' Hkk. by eapply kept_same.
  - exists h. split; simpl; [by rewrite Hc|by rewrite <- (Forall2_length _ _ _ Hk)|].
    intros i t' Hi. destruct (Forall2_lookup_r _ _ _ _ _ Hk Hi) as (t & Hit & Hkk).
    eapply kept_sent; eauto.
Qed.

(** One section of the call of thread [i]: the bytes [new] that it adds are the next ones of the
    call. *)
Lemma section_sent t c' sl bs s' p :
  pipe_wf p -> p_lock p = false -> same_call t -> run_call (th_call t) (th_killed t) p = Some (c', sl, bs, s') ->
  exists new, pipe_wf (pp s') /\ p_lock (pp s') = false /\ contents p ++ new = bs ++ contents (pp s') /\
    same_call (mkThread (th_arg t) c' sl (th_killed t)) /\
    forall old, sent t old -> sent (mkThread (th_arg t) c' sl (th_killed t)) (old ++ new).
Proof.
  intros Hw Hl Hs Hr. pose proof (run_call_spec _ _ _ _ _ _ _ Hw Hl Hr) as Hp.
  unfold same_call, sent in *. cbn [th_arg th_call]. destruct (th_call t) as [rest n|n|r]; [| |done].
  - destruct (th_arg t) as [addr n0| |]; [subst n0|done..].
    destruct Hp as (r & (L & W & _ & k & Hk & Hc & Hp) & -> & Hr'). exists (take k rest).
    split_and!; [done|done|by rewrite Hc|by destruct r as [v|rest']; destruct Hr' as [-> _]|].
    intros old Hold. destruct r as [v|rest']; destruct Hr' as [-> _].
    + destruct Hp as [(-> & -> & _)|(-> & _)]; [left|right]; (split; [done|]).
      * by rewrite firstn_all.
      * exists (drop k rest). by rewrite <- app_assoc, take_drop.
    + destruct Hp as (-> & _). by rewrite <- app_assoc, take_drop.
  - destruct (th_arg t) as [|n0|]; [done| |done].
    destruct Hp as (r & (L & W & _ & Hp) & Hr'). exists []. rewrite app_nil_r.
    split_and!; [done|done| |by destruct r as [[v b]|]; destruct Hr' as (-> & _)|intros old ->; done].
    destruct r as [[v b]|]; [destruct Hp as [Hc _]|destruct Hp as (Hc & Hc' & _)]; destruct Hr' as (_ & _ & ->); [done|].
    cbn [pp] in Hc'. by rewrite Hc, Hc'.
Qed.

Lemma fifo_step kills y y' : fifo y -> pstep kills y y' -> fifo y'.
Proof.
  intros Hf Hst. pose proof Hf as [Hw Hl Hs (h & [Ho Ht Hb])].
  destruct Hst as [y c w Hm Hu _|y i t c' sl bs s' Hi Hsl Hr|y w s' _ _ Hc|y i t _ Hi]; simpl in *.
  - split; simpl; [done|done| |].
    + apply Forall_app_2; [done|]. apply Forall_singleton. unfold same_call. by destruct c.
    + exists h. split; simpl; [done| |].
      * eapply Forall_impl; [exact Ht|]. intros x. rewrite length_app. simpl. lia.
      * intros i t [Hi|[Hi Hi']]%lookup_app_Some; [by apply Hb|].
        apply list_lookup_singleton_Some in Hi' as [Hi' <-].
        replace i with (length (sy_threads y)) by lia. rewrite from_above by done.
        unfold sent. by destruct c.
  - pose proof (proj1 (Forall_lookup _ _) Hs i t Hi) as Hsi.
    destruct (section_sent t c' sl bs s' _ Hw Hl Hsi Hr) as (new & W & L & Hc & Hsame & Hsent).
    assert (Hlt : (i < length (sy_threads y))%nat) by (by eapply lookup_lt_Some).
    split; simpl; [done|done| |].
    + apply Forall_insert; [|done]. apply Forall_fmap. eapply Forall_impl; [exact Hs|].
      intros u. apply kept_same, wake_kept.
    + exists (h ++ (pair i <$> new)). split; simpl.
      * rewrite fmap_app, Ho, <- !app_assoc, <- Hc, <- list_fmap_compose. f_equal. f_equal. apply list_fmap_id.
      * rewrite length_insert, length_fmap. apply Forall_app_2; [done|]. by apply Forall_fmap, Forall_forall.
      * intros j u Hj. rewrite from_app. destruct (decide (i = j)) as [<-|Hne].
        -- rewrite list_lookup_insert_eq in Hj by (by rewrite length_fmap). simplify_eq. rewrite from_mine.
           by apply Hsent, Hb.
        -- rewrite list_lookup_insert_ne, list_lookup_fmap in Hj by done. rewrite from_other, app_nil_r by done.
           destruct (sy_threads y !! j) as [u'|] eqn:Ej; [|done]. simplify_eq/=.
           eapply kept_sent; [apply wake_kept|by apply Hb].
  - destruct (pipeclose_run _ _ _ _ Hl Hc) as [Hp _]. rewrite Hp. apply fifo_kept; [|destruct w; by destruct Hw|by destruct w| |done].
    + apply Forall2_fmap_r, Forall_Forall2_diag, Forall_forall. intros t _. apply wake_kept.
    + by destruct w.
  - apply fifo_kept; [|done..]. rewrite <- (list_insert_id (sy_threads y) i t) at 1 by done.
    apply Forall2_insert; [|done]. by apply Forall_Forall2_diag, Forall_forall.
Qed.

(** C7. A pipe is a queue of the bytes that its writers pass to pipewrite(). However the reads,
    writes, kills and closes of any number of processes interleave, there is one order in which
    bytes went in such that the bytes returned by piperead() so far, followed by the bytes in the
    pipe, are these bytes; and of each writer these are the first bytes of its buffer, in order:
    with those that its call still has to write they make up the buffer, when the call has
    returned the number of its bytes they are the whole buffer, and a call that returned -1 has
    written some of them. There are never more than PIPESIZE bytes in the pipe, and the 32-bit
    counters may wrap around. *)
Theorem pipe_fifo page y :
  length page = Z.to_nat PIPESIZE -> rtc (pstep true) (pipe_start page) y ->
  p_len (sy_pipe y) <= PIPESIZE /\
  exists h : list (nat * Z),
    h.*2 = sy_read y ++ contents (sy_pipe y) /\
    Forall (fun x => (x.1 < length (sy_threads y))%nat) h /\
    forall i t, sy_threads y !! i = Some t -> sent t (from i h).
Proof.
  intros Hp Hr.
  assert (Hf : fifo y).
  { refine (rtc_ind_r (fun y => fifo y) _ _ _ _ Hr); [|intros; by eapply fifo_step].
    split; [split; [done|split; done..|done]|done|constructor|]. exists []. by split. }
  destruct Hf as [Hw _ _ (h & [Ho Ht Hb])]. split; [apply Hw|eauto].
Qed.

(** *** Sleeping *)

(** Whoever sleeps has a reason to: a reader the empty pipe, a writer the full one. *)
Definition sleeps_well (p : pipe) (t : thread) : Prop :=
  match th_sleep t with
  | None => True
  | Some ch =>
      (ch = ChPipeRead /\ uses_end false (th_call t) = true /\ p_len p = 0 /\ p_writeopen p <> 0) \/
      (ch = ChPipeWrite /\ uses_end true (th_call t) = true /\ p_len p = PIPESIZE /\
       p_readopen p <> 0)
  end.

(** A thread that is in a call has its end open, and is not killed. *)
Definition in_call (p : pipe) (t : thread) : Prop :=
  th_killed t = false /\ forall w, uses_end w (th_call t) = true -> end_open w p.

Record awake (y : psys) : Prop := {
  aw_fifo : fifo y;
  aw_sleep : Forall (sleeps_well (sy_pipe y)) (sy_threads y);
  aw_call : Forall (in_call (sy_pipe y)) (sy_threads y);
}.

Lemma wake_in_call p p' ws t :
  p_readopen p' = p_readopen p -> p_writeopen p' = p_writeopen p ->
  in_call p t -> in_call p' (wake ws t).
Proof.
  intros Er Ew [Hk He]. unfold wake. assert (H : in_call p' t).
  { split; [done|]. intros [] Hu; specialize (He _ Hu); simpl in *; congruence. }
  destruct (th_sleep t); [|done]. by case_decide.
Qed.

(** The others after a section: those who should run were woken. *)
Lemma wake_sleeps p p' ws t :
  sleeps_well p t -> p_readopen p' = p_readopen p -> p_writeopen p' = p_writeopen p ->
  (ChPipeRead ∉ ws -> uses_end false (th_call t) = true -> p_len p = 0 -> p_len p' = 0) ->
  (ChPipeWrite ∉ ws -> p_len p = PIPESIZE -> p_len p' = PIPESIZE) ->
  sleeps_well p' (wake ws t).
Proof.
  intros Hs Er Ew Hr Hw. unfold wake, sleeps_well in *.
  destruct (th_sleep t) as [ch|] eqn:Et; [|by rewrite Et]. case_decide as Hin; [done|].
  rewrite Et. destruct Hs as [(-> & ? & ? & ?)|(-> & ? & ? & ?)]; [left|right]; rewrite ?Er, ?Ew;
    split_and!; auto.
Qed.

Lemma p_len_contents p : p_len p = Z.of_nat (length (contents p)).
Proof. rewrite length_contents. pose proof (p_len_pos p). lia. Qed.

(** One section run by a thread that is not killed. *)
Lemma section_sleeps a c p c' sl bs s' :
  pipe_wf p -> p_lock p = false -> run_call c false p = Some (c', sl, bs, s') ->
  (forall w, uses_end w c = true -> end_open w p) ->
  sleeps_well (pp s') (mkThread a c' sl false) /\
  (forall w, uses_end w c' = true -> uses_end w c = true) /\
  p_readopen (pp s') = p_readopen p /\ p_writeopen (pp s') = p_writeopen p /\
  (p_readopen p <> 0 -> ChPipeRead ∉ pw s' -> p_len p = 0 -> p_len (pp s') = 0) /\
  (ChPipeWrite ∉ pw s' -> p_len p = PIPESIZE -> p_len (pp s') = PIPESIZE).
Proof.
  intros Hw Hl Hr He. pose proof (run_call_spec _ _ _ _ _ _ _ Hw Hl Hr) as Hp.
  destruct c as [addr n|n|r]; [| |done].
  - destruct Hp as (r & (L & W & [E1 E2 _] & k & _ & Hc & Hp) & -> & Hr'). simpl in *.
    assert (Hlen : p_len p <= p_len (pp s')).
    { rewrite !p_len_contents, Hc, length_app. lia. }
    pose proof (pw_len _ W). split_and!; try done; try lia.
    + destruct r as [v|rest]; destruct Hr' as [-> ->]; [done|]. right. destruct Hp as (_ & _ & ? & ? & _).
      by rewrite E1.
    + intros w. destruct r as [v|rest]; by destruct Hr' as [-> ->].
    + intros Hro Hnin. destruct r as [v|rest].
      * destruct Hp as [(_ & _ & Hpw)|(_ & _ & _ & [?|?] & _)]; [|done..]. rewrite Hpw in Hnin.
        set_solver.
      * destruct Hp as (_ & _ & _ & _ & _ & Hpw). rewrite Hpw in Hnin. set_solver.
  - destruct Hp as (r & (L & W & [E1 E2 _] & Hp) & Hr'). simpl in *.
    assert (Hsleep : p_len p = 0 -> p_len (pp s') = 0).
    { rewrite !p_len_contents. destruct r as [[v b]|].
      - destruct Hp as [-> _]. rewrite length_app. lia.
      - by destruct Hp as (-> & -> & _). }
    split_and!; try done; auto.
    + destruct r as [[v b]|]; [by destruct Hr' as (-> & -> & _)|]. destruct Hr' as (-> & -> & _). left.
      destruct Hp as (Hc & _ & ? & _). split_and!; [done|done| |by rewrite E2].
      rewrite p_len_contents, Hc. done.
    + intros w. destruct r as [[v b]|]; by destruct Hr' as (-> & _).
    + intros Hnin Hf. destruct r as [[v b]|].
      * destruct Hp as [_ [(_ & _ & Hpw & _)|(_ & _ & _ & H0 & _)]]; [rewrite Hpw in Hnin; set_solver|].
        rewrite Hf in H0. done.
      * destruct Hp as (_ & Hc & _). rewrite p_len_contents, Hc in Hf. done.
Qed.

Lemma awake_step y y' : awake y -> pstep false y y' -> awake y'.
Proof.
  intros [Hf Hs Hc] Hst. pose proof (fifo_step _ _ _ Hf Hst) as Hf'. destruct Hf as [Hw Hl _ _].
  split; [done|..]; clear Hf'; destruct Hst as [y c w Hm Hu Hop|y i t c' sl bs s' Ht Hsl Hr|y w s' Hop Hno Hcl|y i t Hk Ht];
    try done; simpl in *.
  - by apply Forall_app_2, Forall_singleton.
  - pose proof (proj1 (Forall_lookup _ _) Hc i t Ht) as [Hk He]. rewrite Hk in Hr.
    destruct (section_sleeps (th_arg t) _ _ _ _ _ _ Hw Hl Hr He) as (S1 & _ & E1 & E2 & S2 & S3).
    apply Forall_insert; [|by rewrite Hk]. apply Forall_fmap.
    apply Forall_forall. intros u Hin. rewrite Forall_forall in Hs, Hc.
    eapply wake_sleeps; eauto. intros Hn Hus. apply S2; [|done]. by apply (Hc u Hin) in Hus.
  - destruct (pipeclose_run _ _ _ _ Hl Hcl) as [Hp Hpw]. simpl in *. rewrite Hp, Hpw.
    apply Forall_fmap, Forall_forall. intros u Hin. rewrite Forall_forall in Hs, Hno, Hc.
    specialize (Hs u Hin). specialize (Hno u Hin). unfold compose, wake, sleeps_well in *.
    destruct (th_sleep u) as [ch|] eqn:Eu; [|by rewrite Eu].
    case_decide as Hd; [done|]. rewrite Eu.
    destruct Hs as [(-> & ? & ? & ?)|(-> & ? & ? & ?)]; destruct w; try congruence; set_solver.
  - apply Forall_app_2; [done|]. apply Forall_singleton. split; [done|]. intros w' Hu'.
    destruct c, w, w'; simpl in *; done.
  - pose proof (proj1 (Forall_lookup _ _) Hc i t Ht) as [Hk He]. rewrite Hk in Hr.
    destruct (section_sleeps (th_arg t) _ _ _ _ _ _ Hw Hl Hr He) as (_ & Hu & E1 & E2 & _).
    apply Forall_insert.
    + apply Forall_fmap, Forall_forall. intros u Hin. rewrite Forall_forall in Hc.
      apply (wake_in_call (sy_pipe y)); auto.
    + split; [done|]. intros w Hw'. specialize (He w (Hu w Hw')). destruct w; simpl in *; congruence.
  - destruct (pipeclose_run _ _ _ _ Hl Hcl) as [Hp _]. simpl in *. rewrite Hp.
    apply Forall_fmap, Forall_forall. intros u Hin. rewrite Forall_forall in Hc, Hno.
    destruct (Hc u Hin) as [Hk He]. specialize (Hno u Hin).
    assert (Hi : forall t', th_call t' = th_call u -> th_killed t' = th_killed u ->
      in_call (if w then set_writeopen 0 (sy_pipe y) else set_readopen 0 (sy_pipe y)) t').
    { intros t' E1 E2. split; [congruence|]. rewrite E1. intros w' Hu'. specialize (He w' Hu').
      destruct w, w'; simpl in *; congruence. }
    unfold compose, wake. destruct (th_sleep u); [case_decide|]; by apply Hi.
Qed.

(** C31. No wakeup is lost while no process is killed: a reader that sleeps does so on an empty
    pipe whose write end is open, and a writer that sleeps on a full pipe whose read end is
    open. In particular a reader and a writer never sleep at the same time. *)
Theorem pipe_no_lost_wakeup page y t ch :
  length page = Z.to_nat PIPESIZE -> rtc (pstep false) (pipe_start page) y ->
  t ∈ sy_threads y -> th_sleep t = Some ch ->
  match th_call t with
  | CRead _ => contents (sy_pipe y) = [] /\ p_writeopen (sy_pipe y) <> 0
  | CWrite _ _ => p_len (sy_pipe y) = PIPESIZE /\ p_readopen (sy_pipe y) <> 0
  | CDone _ => False
  end.
Proof.
  intros Hp Hr Hin Hsl.
  assert (Ha : awake y).
  { refine (rtc_ind_r (fun y => awake y) _ _ _ _ Hr); [|intros; by eapply awake_step].
    split; [|constructor..]. split; [split; [done|split; done..|done]|done|constructor|]. exists []. by split. }
  pose proof (aw_sleep y Ha) as Hs. rewrite Forall_forall in Hs. specialize (Hs t Hin).
  unfold sleeps_well in Hs. rewrite Hsl in Hs.
  destruct Hs as [(_ & Hu & ? & ?)|(_ & Hu & ? & ?)]; destruct (th_call t); try done.
  split; [by apply contents_nil|done].
Qed.

(** *** Runs *)

Inductive pact : Type := AStart (c : pcall) | ARun (i : nat) | AKill (i : nat).

Definition pact_run (a : pact) (y : psys) : option psys :=
  match a with
  | AStart c =>
      match c with
      | CDone _ => None
      | _ =>
          let w := uses_end true c in
          if decide (well_made c /\ end_open w (sy_pipe y)) then
            Some (mkPsys (sy_pipe y) (sy_threads y ++ [mkThread c c None false]) (sy_read y))
          else None
      end
  | ARun i =>
      t ← sy_threads y !! i;
      match th_sleep t with
      | Some _ => None
      | None =>
          '(c', sl, bs, s') ← run_call (th_call t) (th_killed t) (sy_pipe y);
          Some (mkPsys (pp s') (<[i := mkThread (th_arg t) c' sl (th_killed t)]> (wake (pw s') <$> sy_threads y))
                  (sy_read y ++ bs))
      end
  | AKill i =>
      t ← sy_threads y !! i;
      Some (mkPsys (sy_pipe y) (<[i := mkThread (th_arg t) (th_call t) None true]> (sy_threads y)) (sy_read y))
  end.

Definition no_kill (a : pact) : bool := match a with AKill _ => false | _ => true end.

Fixpoint pacts (l : list pact) (y : psys) : option psys :=
  match l with
  | [] => Some y
  | a :: l' => y' ← pact_run a y; pacts l' y'
  end.

Lemma pact_run_step kills a y y' :
  kills || no_kill a = true -> pact_run a y = Some y' -> pstep kills y y'.
Proof.
  intros Hk Hr. destruct a as [c|i|i]; simpl in Hr.
  - destruct c as [addr n|n|r]; [| |done]; case_decide; simplify_eq/=.
    + by apply (PStart kills y _ true); [apply H|..|apply H].
    + by apply (PStart kills y _ false); [apply H|..|apply H].
  - destruct (sy_threads y !! i) as [t|] eqn:Ht; [|done]. simpl in Hr.
    destruct (th_sleep t) eqn:Es; [done|].
    destruct (run_call _ _ _) as [[[[c' sl] bs] s']|] eqn:Er; [|done]. simplify_eq/=.
    by eapply PRun.
  - destruct (sy_threads y !! i) as [t|] eqn:Ht; [|done]. simplify_eq/=.
    apply PKill; [|done]. by destruct kills.
Qed.

Lemma pacts_steps kills l y y' :
  forallb (fun a => kills || no_kill a) l = true -> pacts l y = Some y' -> rtc (pstep kills) y y'.
Proof.
  revert y. induction l as [|a l IH]; intros y Hk Hr; simpl in *; [simplify_eq; constructor|].
  apply andb_true_iff in Hk as [Hk1 Hk2].
  destruct (pact_run a y) as [y1|] eqn:E; [|done]. simpl in Hr.
  eapply rtc_l; [by eapply pact_run_step|by apply IH].
Qed.

Definition blank_page : list Z := replicate (Z.to_nat PIPESIZE) 0.

(** A writer with more bytes than fit, and a reader. *)
Definition write_then_read : list pact :=
  [AStart (CWrite (seqZ 0 600) 600); ARun 0; AStart (CRead 3); ARun 1; ARun 0].

Lemma pipe_fifo_witness :
  exists y, pacts write_then_read (pipe_start blank_page) = Some y /\ sy_read y = [0; 1; 2] /\
    (p_len (sy_pipe y) <= PIPESIZE /\
     exists h : list (nat * Z),
       h.*2 = sy_read y ++ contents (sy_pipe y) /\
       Forall (fun x => (x.1 < length (sy_threads y))%nat) h /\
       forall i t, sy_threads y !! i = Some t -> sent t (from i h)).
Proof.
  destruct (pacts write_then_read (pipe_start blank_page)) as [y|] eqn:E;
    [|vm_compute in E; discriminate].
  exists y. split; [done|]. split; [vm_compute in E; simplify_eq; reflexivity|].
  apply (pipe_fifo blank_page); [reflexivity|].
  apply (pacts_steps true write_then_read); [reflexivity|exact E].
Defined.

Lemma pipe_no_lost_wakeup_witness :
  exists y t, pacts write_then_read (pipe_start blank_page) = Some y /\ t ∈ sy_threads y /\
    th_call t = CWrite (seqZ 515 85) 600 /\ th_sleep t = Some ChPipeWrite /\
    match th_call t with
    | CRead _ => contents (sy_pipe y) = [] /\ p_writeopen (sy_pipe y) <> 0
    | CWrite _ _ => p_len (sy_pipe y) = PIPESIZE /\ p_readopen (sy_pipe y) <> 0
    | CDone _ => False
    end.
Proof.
  destruct (pacts write_then_read (pipe_start blank_page)) as [y|] eqn:E;
    [|vm_compute in E; discriminate].
  exists y, (mkThread (CWrite (seqZ 0 600) 600) (CWrite (seqZ 515 85) 600) (Some ChPipeWrite) false).
  assert (Hin : mkThread (CWrite (seqZ 0 600) 600) (CWrite (seqZ 515 85) 600) (Some ChPipeWrite) false ∈ sy_threads y).
  { apply (list_elem_of_lookup_2 _ 0%nat). vm_compute in E. simplify_eq. reflexivity. }
  do 2 (split; [done|]). do 2 (split; [reflexivity|]).
  apply (pipe_no_lost_wakeup blank_page y _ ChPipeWrite); [reflexivity| |exact Hin|reflexivity].
  apply (pacts_steps false write_then_read); [reflexivity|exact E].
Defined.

(** A killed writer loses a wakeup: it fills the empty pipe on which a reader sleeps, sees
    that the pipe is full and that it is killed, and returns without a wakeup of the reader,
    which then sleeps although the pipe holds PIPESIZE bytes. *)
Theorem pipe_killed_writer_loses_wakeup :
  exists y t,
    rtc (pstep true) (pipe_start blank_page) y /\ t ∈ sy_threads y /\ th_killed t = false /\
    th_call t = CRead 1 /\ th_sleep t = Some ChPipeRead /\
    length (contents (sy_pipe y)) = Z.to_nat PIPESIZE /\
    forall u, u ∈ sy_threads y -> u = t \/ th_call u = CDone (-1).
Proof.
  pose (l := [AStart (CRead 1); ARun 0; AStart (CWrite (seqZ 0 513) 513); AKill 1; ARun 1]).
  destruct (pacts l (pipe_start blank_page)) as [y|] eqn:E; [|vm_compute in E; discriminate].
  exists y, (mkThread (CRead 1) (CRead 1) (Some ChPipeRead) false).
  assert (Ht : sy_threads y =
    [mkThread (CRead 1) (CRead 1) (Some ChPipeRead) false; mkThread (CWrite (seqZ 0 513) 513) (CDone (-1)) None true]).
  { vm_compute in E. simplify_eq. reflexivity. }
  assert (Hc : length (contents (sy_pipe y)) = Z.to_nat PIPESIZE).
  { vm_compute in E. simplify_eq. vm_compute. reflexivity. }
  pose proof (pacts_steps true l (pipe_start blank_page) y eq_refl E) as Hr. clear E.
  rewrite Ht. split; [exact Hr|]. split; [set_solver|]. do 3 (split; [reflexivity|]).
  split; [exact Hc|]. clear. set_solver.
Qed.
