(* ===== verification/Mmu.v ===== *)
(** mmu.h and memlayout.h: pages, the parts of a virtual address and page-table entries. *)

From S2P Require Export Prelude.

(** memlayout.h *)
Definition EXTMEM : Z := 0x100000.
Definition PHYSTOP : Z := 0xE000000.
Definition DEVSPACE : Z := 0xFE000000.
Definition KERNBASE : Z := 0x80000000.
Definition KERNLINK : Z := KERNBASE + EXTMEM.
Definition V2P (a : Z) : Z := u32 (a - KERNBASE).
Definition P2V (a : Z) : Z := u32 (a + KERNBASE).

(** mmu.h *)
Definition PGSIZE : Z := 4096.
Definition PTXSHIFT : Z := 12.
Definition PDXSHIFT : Z := 22.
Definition NPDENTRIES : Z := 1024.
Definition NPTENTRIES : Z := 1024.
Definition PDX (va : Z) : Z := Z.land (Z.shiftr (u32 va) PDXSHIFT) 0x3FF.
Definition PTX (va : Z) : Z := Z.land (Z.shiftr (u32 va) PTXSHIFT) 0x3FF.
Definition PGADDR (d t o : Z) : Z :=
  u32 (Z.lor (Z.lor (Z.shiftl d PDXSHIFT) (Z.shiftl t PTXSHIFT)) o).
Definition PGROUNDUP (sz : Z) : Z := Z.land (u32 (sz + PGSIZE - 1)) (Z.lnot (PGSIZE - 1)).
Definition PGROUNDDOWN (a : Z) : Z := Z.land a (Z.lnot (PGSIZE - 1)).
Definition PTE_P : Z := 0x001.
Definition PTE_W : Z := 0x002.
Definition PTE_U : Z := 0x004.
Definition PTE_ADDR (pte : Z) : Z := Z.land pte (Z.lnot 0xFFF).
Definition PTE_FLAGS (pte : Z) : Z := Z.land pte 0xFFF.

(** *** Arithmetic *)

Lemma land_lnot_page a : Z.land a (Z.lnot 4095) = a - a mod 4096.
Proof.
  rewrite <- Z.ldiff_land. change 4095 with (Z.ones 12). rewrite Z.ldiff_ones_r by lia.
  rewrite Z.shiftr_div_pow2, Z.shiftl_mul_pow2 by lia. change (2 ^ 12) with 4096.
  pose proof (Z.div_mod a 4096). lia.
Qed.

Lemma PGROUNDDOWN_eq a : PGROUNDDOWN a = a - a mod 4096.
Proof. apply land_lnot_page. Qed.

Lemma PTE_ADDR_eq a : PTE_ADDR a = a - a mod 4096.
Proof. apply land_lnot_page. Qed.

Lemma PTE_FLAGS_eq a : PTE_FLAGS a = a mod 4096.
Proof. unfold PTE_FLAGS. change 0xFFF with (Z.ones 12). by rewrite Z.land_ones. Qed.

Lemma PGROUNDUP_eq sz :
  0 <= sz -> sz + 4095 < 2 ^ 32 ->
  PGROUNDUP sz mod 4096 = 0 /\ sz <= PGROUNDUP sz < sz + 4096.
Proof.
  intros H0 H1. unfold PGROUNDUP, PGSIZE, u32. rewrite (Z.mod_small (sz + 4096 - 1) (2 ^ 32)) by lia.
  change (4096 - 1) with 4095. rewrite land_lnot_page.
  pose proof (Z.mod_pos_bound (sz + 4096 - 1) 4096). split; [|lia].
  rewrite Zminus_mod_idemp_r, Z.sub_diag. done.
Qed.

Lemma PDX_eq va : is_u32 va -> PDX va = va / 2 ^ 22.
Proof.
  intros Hv. unfold is_u32 in Hv. unfold PDX, PDXSHIFT, u32. rewrite Z.mod_small by done.
  change 0x3FF with (Z.ones 10). rewrite Z.land_ones, Z.shiftr_div_pow2 by lia.
  apply Z.mod_small. split; [apply Z.div_pos; lia|]. apply Z.div_lt_upper_bound; lia.
Qed.

Lemma PTX_eq va : is_u32 va -> PTX va = va / 4096 mod 1024.
Proof.
  intros Hv. unfold is_u32 in Hv. unfold PTX, PTXSHIFT, u32. rewrite Z.mod_small by done.
  change 0x3FF with (Z.ones 10). by rewrite Z.land_ones, Z.shiftr_div_pow2 by lia.
Qed.

Lemma PDX_bound va : 0 <= PDX va < 1024.
Proof. unfold PDX. change 0x3FF with (Z.ones 10). rewrite Z.land_ones by lia. by apply Z.mod_pos_bound. Qed.

Lemma PTX_bound va : 0 <= PTX va < 1024.
Proof. unfold PTX. change 0x3FF with (Z.ones 10). rewrite Z.land_ones by lia. by apply Z.mod_pos_bound. Qed.

(** The page of an address is the pair of its indices. *)
Lemma PDX_PTX va : is_u32 va -> PDX va * 1024 + PTX va = va / 4096.
Proof.
  intros Hv. rewrite PDX_eq, PTX_eq by done. change (2 ^ 22) with (4096 * 1024).
  rewrite <- Z.div_div by lia. pose proof (Z.div_mod (va / 4096) 1024). lia.
Qed.

Lemma same_page va vb :
  is_u32 va -> is_u32 vb -> PDX va = PDX vb -> PTX va = PTX vb -> va / 4096 = vb / 4096.
Proof. intros Ha Hb Hd Ht. rewrite <- !PDX_PTX by done. congruence. Qed.
