(* ===== verification/Kalloc.v ===== *)
(** kalloc.c: the page allocator. The free pages form a linked list through their first
    words; memory is the byte-addressed memory of Mem.v, at kernel addresses. *)

From S2P Require Export Locks Mmu StringC.
From stdpp Require Export relations.

Open Scope Z_scope.
Open Scope kernel_scope.

(** The memory and [kmem]. *)
Record kst := mkKst { km : mem; k_lock : bool; k_use_lock : Z; k_freelist : Z }.

Definition set_km (m : mem) (s : kst) : kst := mkKst m (k_lock s) (k_use_lock s) (k_freelist s).
Definition set_freelist (r : Z) (s : kst) : kst := mkKst (km s) (k_lock s) (k_use_lock s) r.
Definition set_use_lock (v : Z) (s : kst) : kst := mkKst (km s) (k_lock s) v (k_freelist s).
Definition k_lk : lens kst bool :=
  mkLens k_lock (fun v s => mkKst (km s) v (k_use_lock s) (k_freelist s)).

(** [if(kmem.use_lock) acquire(&kmem.lock)] *)
Definition k_acquire : M kst unit :=
  u <- gets k_use_lock ;; when (negb (u =? 0)) (acquire k_lk).
Definition k_release : M kst unit :=
  u <- gets k_use_lock ;; when (negb (u =? 0)) (release k_lk).

Section Kalloc.
(** The first address after the kernel; the linker sets it. *)
Context (kend : Z).

Definition kfree (v : Z) : M kst unit :=
  if negb (v mod PGSIZE =? 0) || (v <? kend) || (PHYSTOP <=? V2P v) then panic "kfree" else
  modify (fun s => set_km (StringC.memset (km s) v 1 PGSIZE) s) ;;
  k_acquire ;;
  modify (fun s => set_km (wr32 (km s) v (k_freelist s)) s) ;;
  modify (set_freelist v) ;;
  k_release.

Definition kalloc : M kst Z :=
  k_acquire ;;
  r <- gets k_freelist ;;
  when (negb (r =? 0)) (modify (fun s => set_freelist (rd32 (km s) r) s)) ;;
  k_release ;;
  ret r.

Fixpoint freerange_loop (fuel : nat) (p vend : Z) : M kst unit :=
  if p + PGSIZE <=? vend then
    match fuel with
    | O => diverge
    | S f => kfree p ;; freerange_loop f (p + PGSIZE) vend
    end
  else ret tt.

Definition freerange (vstart vend : Z) : M kst unit :=
  freerange_loop (Z.to_nat ((vend - vstart) / PGSIZE)) (PGROUNDUP vstart) vend.

Definition kinit1 (vstart vend : Z) : M kst unit :=
  modify (lset k_lk false) ;;
  modify (set_use_lock 0) ;;
  freerange vstart vend.

Definition kinit2 (vstart vend : Z) : M kst unit :=
  freerange vstart vend ;;
  modify (set_use_lock 1).

(** *** The free list *)

(** A page that kfree() accepts. *)
Record page_ok (p : Z) : Prop := {
  pg_pos : 0 < p < 2 ^ 32;
  pg_align : p mod PGSIZE = 0;
  pg_end : kend <= p;
  pg_phys : V2P p < PHYSTOP;
}.

Fixpoint chain (m : mem) (r : Z) (l : list Z) : Prop :=
  match l with
  | [] => r = 0
  | p :: l' => r = p /\ chain m (rd32 m p) l'
  end.

Record kinv (s : kst) (l : list Z) : Prop := {
  ki_chain : chain (km s) (k_freelist s) l;
  ki_ok : Forall page_ok l;
  ki_nodup : NoDup l;
  ki_lock : k_lock s = false;
}.

(** Distinct pages do not overlap. *)
Lemma pages_apart p q : p mod PGSIZE = 0 -> q mod PGSIZE = 0 -> p <> q -> p + PGSIZE <= q \/ q + PGSIZE <= p.
Proof.
  unfold PGSIZE. intros Hp Hq Hne. pose proof (Z.div_mod p 4096). pose proof (Z.div_mod q 4096).
  assert (p / 4096 <> q / 4096) by lia. lia.
Qed.

(** The memory outside the pages [l]. *)
Definition in_page (p a : Z) : Prop := p <= a < p + PGSIZE.

Lemma chain_ext m m' r l :
  Forall page_ok l -> (forall p a, p ∈ l -> in_page p a -> rd m' a = rd m a) ->
  chain m r l -> chain m' r l.
Proof.
  intros Hok. revert r. induction Hok as [|p l Hp Hl IH]; intros r Hext; simpl; [done|].
  intros [-> Hc]. split; [done|]. rewrite (rd32_ext m' m p).
  - apply IH; [|done]. intros q a Hq. apply Hext. set_solver.
  - intros b Hb. apply (Hext p); [set_solver|]. unfold in_page, PGSIZE. lia.
Qed.

Lemma k_critical (f : kst -> kst) (Q : unit -> kst -> Prop) s :
  k_lock s = false -> (forall t, k_lock (f t) = k_lock t) ->
  (forall v t, lset k_lk v (f t) = f (lset k_lk v t)) ->
  (forall t, k_use_lock (f t) = k_use_lock t) ->
  Q tt (f s) -> wp (k_acquire ;; modify f ;; k_release) Q s.
Proof.
  intros Hl Hfl Hfs Hfu HQ. unfold k_acquire, k_release. apply wp_bind, wp_bind, wp_gets.
  unfold when. destruct (k_use_lock s =? 0) eqn:Eu; simpl.
  - apply wp_ret, wp_bind, wp_modify, wp_bind, wp_gets. rewrite Hfu, Eu. apply wp_ret. done.
  - apply wp_acquire; [done|]. apply wp_bind, wp_modify, wp_bind, wp_gets. rewrite Hfu.
    cbn [k_use_lock lset k_lk]. rewrite Eu. simpl. apply wp_release; [by rewrite Hfl|].
    rewrite Hfs. destruct s; simpl in *. by subst.
Qed.

(** The effect of kfree() on the memory: junk, with the link in the first word. *)
Definition freed (m : mem) (v r : Z) : mem := wr32 (StringC.memset m v 1 PGSIZE) v r.

Lemma rd_freed m v r a : ~ in_page v a -> rd (freed m v r) a = rd m a.
Proof.
  unfold in_page, freed. intros Ha. rewrite rd_wr32_ne by (unfold PGSIZE in *; lia).
  rewrite StringC.memset_fills by done. by rewrite decide_False.
Qed.

Lemma wp_kfree v s l :
  kinv s l -> page_ok v -> v ∉ l ->
  wp (kfree v) (fun _ s' => kinv s' (v :: l) /\ km s' = freed (km s) v (k_freelist s) /\
    k_use_lock s' = k_use_lock s) s.
Proof.
  intros [Hc Hok Hnd Hlk] Hv Hnin. unfold kfree.
  assert (Hg : negb (v mod PGSIZE =? 0) || (v <? kend) || (PHYSTOP <=? V2P v) = false).
  { destruct Hv as [V0 V1 V2 V3]. rewrite V1. simpl. rewrite (proj2 (Z.ltb_ge _ _)) by lia.
    by rewrite (proj2 (Z.leb_gt _ _)) by lia. }
  rewrite Hg. apply wp_bind, wp_modify.
  set (s1 := set_km _ s).
  assert (Hk : forall Q : unit -> kst -> Prop,
    Q tt (set_freelist v (set_km (freed (km s) v (k_freelist s)) s)) ->
    wp (k_acquire ;; modify (fun s => set_km (wr32 (km s) v (k_freelist s)) s) ;;
        modify (set_freelist v) ;; k_release) Q s1).
  { intros Q HQ. apply (k_critical (fun s => set_freelist v (set_km (wr32 (km s) v (k_freelist s)) s)) Q s1);
      done. }
  apply Hk. clear Hk. split_and!; [|done|done]. split; simpl; [|by constructor|by constructor|done].
  split; [done|].
  assert (Hr : u32 (k_freelist s) = k_freelist s).
  { destruct l as [|p l]; simpl in Hc; [by rewrite Hc|]. destruct Hc as [-> _].
    apply Forall_cons in Hok as [[? _ _ _] _]. apply Z.mod_small. lia. }
  unfold freed at 2. rewrite rd32_wr32_eq, Hr. apply (chain_ext (km s)); [done| |done].
  intros p a Hp Ha. apply rd_freed. unfold in_page in *. rewrite Forall_forall in Hok.
  destruct (pages_apart v p (pg_align _ Hv) (pg_align _ (Hok p Hp)) ltac:(congruence)); lia.
Qed.

Lemma wp_kalloc s l :
  kinv s l ->
  wp kalloc (fun r s' => km s' = km s /\ k_use_lock s' = k_use_lock s /\
    match l with
    | [] => r = 0 /\ s' = s
    | p :: l' => r = p /\ kinv s' l'
    end) s.
Proof.
  intros [Hc Hok Hnd Hlk]. unfold kalloc.
  set (f := fun t => if k_freelist s =? 0 then t else set_freelist (rd32 (km s) (k_freelist s)) t).
  assert (Hs : wp (k_acquire ;; modify f ;; k_release ;; ret (k_freelist s))
    (fun r s' => r = k_freelist s /\ s' = f s) s).
  { pose proof (k_critical f (fun _ t => t = f s) s Hlk) as H.
    assert (Ha : forall t, k_lock (f t) = k_lock t) by (intros t; unfold f; by destruct (_ =? 0)).
    assert (Hb : forall v t, lset k_lk v (f t) = f (lset k_lk v t))
      by (intros v t; unfold f; by destruct (_ =? 0)).
    assert (Hd : forall t, k_use_lock (f t) = k_use_lock t)
      by (intros t; unfold f; by destruct (_ =? 0)).
    specialize (H Ha Hb Hd eq_refl). unfold wp, bind in *.
    destruct (k_acquire s) as [? t| | |]; try done. simpl in *.
    destruct (k_release (f t)) as [? u| | |]; try done. }
  assert (Hrun : wp (k_acquire ;; r <- gets k_freelist ;;
    when (negb (r =? 0)) (modify (fun s => set_freelist (rd32 (km s) r) s)) ;; k_release ;; ret r)
    (fun r s' => r = k_freelist s /\ s' = f s) s).
  { unfold wp, bind in Hs |- *. destruct (k_acquire s) as [? t| | |] eqn:Ea; try done. simpl in *.
    assert (Ht : k_freelist t = k_freelist s /\ km t = km s).
    { unfold k_acquire, bind, gets, when in Ea. destruct (negb _) in Ea; simpl in Ea.
      - unfold acquire in Ea. destruct (lget k_lk s); [done|]. by simplify_eq/=.
      - by unfold ret in Ea; simplify_eq. }
    destruct Ht as [Ht1 Ht2]. rewrite Ht1. unfold f, when in *. destruct (k_freelist s =? 0); simpl in *;
      [done|]. by rewrite Ht2. }
  eapply wp_mono; [exact Hrun|]. intros r s' [-> ->]. unfold f.
  destruct l as [|p l]; simpl in Hc.
  - rewrite Hc. done.
  - destruct Hc as [-> Hc]. apply Forall_cons in Hok as [Hp Hok]. apply NoDup_cons in Hnd as [Hn Hnd].
    rewrite (proj2 (Z.eqb_neq _ _)) by (destruct Hp; lia). split_and!; try done.
Qed.

(** *** Initialisation *)

Fixpoint pages (p : Z) (n : nat) : list Z :=
  match n with
  | O => []
  | S n' => p :: pages (p + PGSIZE) n'
  end.

Lemma elem_of_pages p n q :
  q ∈ pages p n <-> exists i, 0 <= i < Z.of_nat n /\ q = p + PGSIZE * i.
Proof.
  revert p. induction n as [|n IH]; intros p; simpl.
  - split; [by intros ?%not_elem_of_nil|intros (i & ? & _); lia].
  - rewrite elem_of_cons, IH. split.
    + intros [->|(i & Hi & ->)]; [exists 0; lia|exists (i + 1); lia].
    + intros (i & Hi & ->). destruct (decide (i = 0)) as [->|]; [left; lia|].
      right. exists (i - 1). lia.
Qed.

(** The number of pages of a range. *)
Definition npages (p vend : Z) : nat := Z.to_nat ((vend - p) / PGSIZE).

Lemma npages_S p vend : p + PGSIZE <= vend -> npages p vend = S (npages (p + PGSIZE) vend).
Proof.
  unfold npages, PGSIZE. intros H.
  replace (vend - p) with ((vend - (p + 4096)) + 1 * 4096) by lia. rewrite Z.div_add by lia.
  assert (0 <= (vend - (p + 4096)) / 4096) by (apply Z.div_pos; lia). lia.
Qed.

Lemma npages_0 p vend : vend < p + PGSIZE -> npages p vend = 0%nat.
Proof.
  unfold npages, PGSIZE. intros H. assert ((vend - p) / 4096 < 1) by (apply Z.div_lt_upper_bound; lia).
  lia.
Qed.

Lemma wp_freerange_loop fuel p vend s l :
  kinv s l -> (npages p vend <= fuel)%nat -> Forall page_ok (pages p (npages p vend)) ->
  (forall q, q ∈ l -> q < p) ->
  wp (freerange_loop fuel p vend)
    (fun _ s' => kinv s' (rev (pages p (npages p vend)) ++ l) /\ k_use_lock s' = k_use_lock s) s.
Proof.
  revert p s l. induction fuel as [|fuel IH]; intros p s l Hi Hf Hok Hlt;
    simpl; destruct (Z.leb_spec (p + PGSIZE) vend) as [Hle|Hgt].
  - rewrite npages_S in Hf by done. lia.
  - rewrite npages_0 by done. by apply wp_ret.
  - rewrite npages_S in * by done. simpl in *. apply Forall_cons in Hok as [Hp Hok].
    eapply wp_seq; [apply wp_kfree; [done|done|]|].
    { intros Hin. specialize (Hlt p Hin). lia. }
    intros _ s1 (Hi1 & _ & Hu). eapply wp_mono; [apply (IH (p + PGSIZE) s1 (p :: l)); auto; [lia|]|].
    + intros q [->|Hq]%elem_of_cons; unfold PGSIZE in *; [lia|]. specialize (Hlt q Hq). lia.
    + intros _ s2 [Hi2 Hu2]. rewrite <- app_assoc. split; [done|congruence].
  - rewrite npages_0 by done. by apply wp_ret.
Qed.

(** *** Use *)

(** What the kernel does with the allocator: take a page, give back a page it holds, and
    write to the pages it holds. *)
Inductive kstep : kst * list Z -> kst * list Z -> Prop :=
| KAlloc s A p s' : kalloc s = Ret p s' -> p <> 0 -> kstep (s, A) (s', p :: A)
| KFree s A1 A2 p s' : kfree p s = Ret tt s' -> kstep (s, A1 ++ p :: A2) (s', A1 ++ A2)
| KUse s A m' :
    (forall a, (forall p, p ∈ A -> ~ in_page p a) -> rd m' a = rd (km s) a) ->
    kstep (s, A) (set_km m' s, A).

(** The pages [all] are split between the holders and the free list. *)
Definition kshare (all : list Z) (sa : kst * list Z) : Prop :=
  exists l, kinv (fst sa) l /\ snd sa ++ l ≡ₚ all.

Lemma kshare_step all sa sb :
  Forall page_ok all -> NoDup all -> kshare all sa -> kstep sa sb -> kshare all sb.
Proof.
  intros Hok Hnd (l & Hi & Hp) Hst. unfold kshare.
  assert (Hok' : Forall page_ok (snd sa ++ l)) by (by rewrite Hp).
  assert (Hnd' : NoDup (snd sa ++ l)) by (by rewrite Hp).
  destruct Hst as [s A p s' Ha Hne|s A1 A2 p s' Hf|s A m' Hu]; simpl in *.
  - pose proof (wp_kalloc s l Hi) as Hw. unfold wp in Hw. rewrite Ha in Hw.
    destruct Hw as (_ & _ & Hl). destruct l as [|q l]; [by destruct Hl|]. destruct Hl as [-> Hi'].
    exists l. split; [done|]. rewrite <- Hp. by rewrite Permutation_middle.
  - assert (Hpl : page_ok p /\ p ∉ l).
    { rewrite Forall_app, Forall_app, Forall_cons in Hok'. split; [tauto|].
      apply NoDup_app in Hnd' as (_ & Hd & _). apply Hd. set_solver. }
    pose proof (wp_kfree p s l Hi (proj1 Hpl) (proj2 Hpl)) as Hw. unfold wp in Hw. rewrite Hf in Hw.
    exists (p :: l). split; [by destruct Hw|]. rewrite <- Hp, <- !app_assoc. simpl.
    apply Permutation_app_head. symmetry. apply Permutation_middle.
  - exists l. split; [|done]. destruct Hi as [Hc Ho Hn Hl]. split; auto. simpl.
    apply (chain_ext (km s)); [done| |done]. intros p a Hpl Ha. apply Hu. intros q Hq Hqa.
    apply NoDup_app in Hnd' as (_ & Hd & _). rewrite Forall_app, !Forall_forall in Hok'.
    assert (Hne : p <> q) by (intros ->; by apply (Hd q Hq)).
    unfold in_page in *. destruct Hok' as [Hq' Hp'].
    destruct (pages_apart p q (pg_align _ (Hp' p Hpl)) (pg_align _ (Hq' q Hq)) Hne); lia.
Qed.

(** The pages of the memory from the end of the kernel to [vend]. *)
Definition all_pages (vend : Z) : list Z := pages (PGROUNDUP kend) (npages (PGROUNDUP kend) vend).

Lemma pages_NoDup p n : NoDup (pages p n).
Proof.
  revert p. induction n as [|n IH]; intros p; simpl; constructor; [|done].
  rewrite elem_of_pages. intros (i & Hi & He). unfold PGSIZE in He. lia.
Qed.

Lemma pages_ok p vend :
  KERNBASE <= kend <= p -> p mod PGSIZE = 0 -> vend <= KERNBASE + PHYSTOP ->
  Forall page_ok (pages p (npages p vend)).
Proof.
  unfold KERNBASE, PHYSTOP. intros Hk Hp Hv. apply Forall_forall. intros q Hq.
  apply elem_of_pages in Hq as (i & Hi & ->). unfold npages, PGSIZE in *.
  pose proof (Z.mul_div_le (vend - p) 4096).
  split; unfold V2P, u32, KERNBASE, PHYSTOP, PGSIZE; rewrite ?(Z.mod_small (_ - _)); try lia.
  rewrite (Z.mul_comm 4096), Z.mod_add by lia. done.
Qed.

Lemma pages_app p n k : pages p (n + k) = pages p n ++ pages (p + PGSIZE * Z.of_nat n) k.
Proof.
  revert p. induction n as [|n IH]; intros p; simpl.
  - f_equal. lia.
  - rewrite IH. do 3 f_equal. unfold PGSIZE. lia.
Qed.

Lemma npages_split p vmid vend :
  p mod PGSIZE = 0 -> vmid mod PGSIZE = 0 -> p <= vmid <= vend ->
  vmid = p + PGSIZE * Z.of_nat (npages p vmid) /\
  npages p vend = (npages p vmid + npages vmid vend)%nat.
Proof.
  unfold npages, PGSIZE. intros Hp Hm Hr. pose proof (Z.div_mod p 4096).
  pose proof (Z.div_mod vmid 4096).
  assert (He : (vmid - p) / 4096 = vmid / 4096 - p / 4096).
  { symmetry. apply Z.div_unique with 0; lia. }
  assert (Hv : (vend - p) / 4096 = (vmid / 4096 - p / 4096) + (vend - vmid) / 4096).
  { rewrite <- (Z.div_add_l (vmid / 4096 - p / 4096) 4096) by lia. f_equal. lia. }
  assert (0 <= (vend - vmid) / 4096) by (apply Z.div_pos; lia). rewrite He, Hv. lia.
Qed.

Lemma wp_freerange vstart vend s l :
  kinv s l -> KERNBASE <= kend <= vstart -> vend <= KERNBASE + PHYSTOP -> vstart <= vend ->
  (forall q, q ∈ l -> q < PGROUNDUP vstart) ->
  wp (freerange vstart vend)
    (fun _ s' => kinv s' (rev (pages (PGROUNDUP vstart) (npages (PGROUNDUP vstart) vend)) ++ l)) s.
Proof.
  intros Hi Hk Hv Hse Hl. unfold KERNBASE, PHYSTOP in *.
  destruct (PGROUNDUP_eq vstart) as [Ha Hb]; [lia|lia|].
  eapply wp_mono; [apply (wp_freerange_loop _ (PGROUNDUP vstart) vend s l); auto|by intros _ s' []].
  - unfold npages, PGSIZE.
    assert ((vend - PGROUNDUP vstart) / 4096 <= (vend - vstart) / 4096) by (apply Z.div_le_mono; lia).
    lia.
  - apply pages_ok; unfold KERNBASE, PHYSTOP; [lia|done|lia].
Qed.

(** The two phases of the initialisation, as main() calls them, free every page once. *)
Lemma wp_kinit s vmid vend :
  KERNBASE <= kend <= vmid -> vmid <= vend <= KERNBASE + PHYSTOP ->
  vmid mod PGSIZE = 0 -> k_freelist s = 0 ->
  wp (kinit1 kend vmid ;; kinit2 vmid vend) (fun _ s' => kshare (all_pages vend) (s', [])) s.
Proof.
  intros Hk Hv Ha Hf.
  assert (Hup : PGROUNDUP vmid = vmid /\ PGROUNDUP kend mod PGSIZE = 0 /\ kend <= PGROUNDUP kend <= vmid).
  { unfold KERNBASE, PHYSTOP, PGSIZE in *. destruct (PGROUNDUP_eq vmid) as [A B]; [lia|lia|].
    destruct (PGROUNDUP_eq kend) as [A' B']; [lia|lia|].
    pose proof (Z.div_mod vmid 4096). pose proof (Z.div_mod (PGROUNDUP vmid) 4096).
    pose proof (Z.div_mod (PGROUNDUP kend) 4096). lia. }
  destruct Hup as (Hum & Hua & Hur).
  destruct (npages_split (PGROUNDUP kend) vmid vend) as [Hmid Hn]; [done|done|lia|].
  unfold kinit1, kinit2. apply wp_bind, wp_bind, wp_modify, wp_bind, wp_modify.
  eapply wp_mono; [apply (wp_freerange kend vmid _ []); try done; try lia; try by intros ? ?%not_elem_of_nil|].
  { split; [done|constructor..|done]. }
  intros r s1 Hi. rewrite app_nil_r in Hi. apply wp_bind.
  eapply wp_mono; [apply (wp_freerange vmid vend _ _ Hi); try lia|].
  - rewrite Hum. intros q Hq. rewrite <- Permutation_rev in Hq.
    apply elem_of_pages in Hq as (i & Hi' & ->). unfold PGSIZE in *. lia.
  - intros r2 s2 Hi2. apply wp_modify.
    exists (rev (all_pages vend)). split; [|simpl; by rewrite <- Permutation_rev].
    unfold all_pages. rewrite Hn, pages_app, <- Hmid, rev_app_distr. rewrite Hum in Hi2.
    by destruct Hi2.
Qed.

(** C4. The page allocator: after the two phases of the initialisation, and whatever the kernel
    then does (take pages, give back pages it holds, write anything to the pages it holds),
    the pages held are distinct pages between the end of the kernel and [vend]; kalloc()
    returns a page that nobody holds, or 0 exactly when every page is held; and kfree() of a
    page that is held does not panic. *)
Theorem kalloc_safe s0 vmid vend :
  KERNBASE <= kend <= vmid -> vmid <= vend <= KERNBASE + PHYSTOP ->
  vmid mod PGSIZE = 0 -> k_freelist s0 = 0 ->
  wp (kinit1 kend vmid ;; kinit2 vmid vend) (fun _ s1 =>
    forall s A, rtc kstep (s1, []) (s, A) ->
      NoDup A /\ A ⊆ all_pages vend /\
      wp kalloc (fun p _ => if decide (p = 0) then all_pages vend ⊆ A
                            else p ∈ all_pages vend /\ p ∉ A) s /\
      forall p, p ∈ A -> wp (kfree p) (fun _ _ => True) s) s0.
Proof.
  intros Hk Hv Ha Hf. eapply wp_mono; [by apply (wp_kinit s0 vmid vend)|].
  intros [] s1 Hs1 s A Hr.
  assert (Hok : Forall page_ok (all_pages vend)).
  { unfold KERNBASE, PHYSTOP in *. destruct (PGROUNDUP_eq kend); [lia|lia|].
    apply pages_ok; unfold KERNBASE, PHYSTOP; [lia|done|lia]. }
  assert (Hs : kshare (all_pages vend) (s, A)).
  { refine (rtc_ind_r (kshare (all_pages vend)) _ _ _ _ Hr); [done|].
    intros sa sb _ Hst Hsh. eapply kshare_step; eauto. apply pages_NoDup. }
  destruct Hs as (l & Hi & Hp). simpl in *.
  assert (Hnd : NoDup (A ++ l)) by (rewrite Hp; apply pages_NoDup).
  apply NoDup_app in Hnd as (HA & Hd & _).
  split_and!; [done|intros p Hp'; rewrite <- Hp; set_solver| |].
  - eapply wp_mono; [by apply (wp_kalloc s l)|]. intros r s' (_ & _ & Hl).
    destruct l as [|q l].
    + destruct Hl as [-> _]. simpl. intros p. rewrite <- Hp. set_solver.
    + destruct Hl as [-> _]. assert (Hq : q ∈ all_pages vend) by (rewrite <- Hp; set_solver).
      rewrite Forall_forall in Hok. destruct (Hok q Hq) as [Hpos _ _ _].
      rewrite decide_False by lia. split; [done|]. intros HqA. apply (Hd q HqA). set_solver.
  - intros p HpA. eapply wp_mono; [apply (wp_kfree p s l); [done| |by apply Hd]|done].
    rewrite Forall_forall in Hok. apply Hok. rewrite <- Hp. set_solver.
Qed.
End Kalloc.

(** Memory with three pages after a kernel that ends in the middle of a page. *)
Definition demo_end : Z := KERNBASE + 0x200123.

Lemma kalloc_safe_witness :
  all_pages demo_end (demo_end + 4 * PGSIZE) =
    [KERNBASE + 0x201000; KERNBASE + 0x202000; KERNBASE + 0x203000] /\
  wp (kinit1 demo_end demo_end (KERNBASE + 0x202000) ;;
      kinit2 demo_end (KERNBASE + 0x202000) (demo_end + 4 * PGSIZE)) (fun _ s1 =>
    forall s A, rtc (kstep demo_end) (s1, []) (s, A) ->
      NoDup A /\ A ⊆ all_pages demo_end (demo_end + 4 * PGSIZE) /\
      wp kalloc (fun p _ => if decide (p = 0) then all_pages demo_end (demo_end + 4 * PGSIZE) ⊆ A
                            else p ∈ all_pages demo_end (demo_end + 4 * PGSIZE) /\ p ∉ A) s /\
      forall p, p ∈ A -> wp (kfree demo_end p) (fun _ _ => True) s) (mkKst ∅ false 0 0).
Proof.
  split; [vm_compute; reflexivity|].
  apply kalloc_safe; [vm_compute; split; discriminate..|reflexivity|reflexivity].
Defined.
