(* ===== verification/Vm.v ===== *)
(** vm.c: page tables. They live in the memory of the page allocator: a page directory or a
    page table is a page of 1024 words, and a physical address is accessed at P2V of it. The
    segment and control registers (seginit, switchkvm, switchuvm) are in Segs.v; no
    operation here reads them. *)

From S2P Require Export Kalloc.

Open Scope Z_scope.
Open Scope kernel_scope.

Definition store32 (a v : Z) : M kst unit := modify (fun s => set_km (wr32 (km s) a v) s).
Definition load32 (a : Z) : M kst Z := gets (fun s => rd32 (km s) a).

Section Vm.
(** [end] and [data], which the linker sets. *)
Context (kend kdata : Z).

(** Returns the address of the entry, or 0. *)
Definition walkpgdir (pgdir va : Z) (alloc : bool) : M kst Z :=
  let pde := pgdir + 4 * PDX va in
  e <- load32 pde ;;
  if negb (Z.land e PTE_P =? 0) then ret (P2V (PTE_ADDR e) + 4 * PTX va) else
  if negb alloc then ret 0 else
  pgtab <- kalloc ;;
  if pgtab =? 0 then ret 0 else
  modify (fun s => set_km (StringC.memset (km s) pgtab 0 PGSIZE) s) ;;
  store32 pde (Z.lor (Z.lor (Z.lor (V2P pgtab) PTE_P) PTE_W) PTE_U) ;;
  ret (pgtab + 4 * PTX va).

Fixpoint mappages_loop (fuel : nat) (pgdir a last pa perm : Z) : M kst Z :=
  pte <- walkpgdir pgdir a true ;;
  if pte =? 0 then ret (-1) else
  e <- load32 pte ;;
  if negb (Z.land e PTE_P =? 0) then panic "remap" else
  store32 pte (Z.lor (Z.lor pa perm) PTE_P) ;;
  if a =? last then ret 0 else
  match fuel with
  | O => diverge
  | S f => mappages_loop f pgdir (u32 (a + PGSIZE)) last (u32 (pa + PGSIZE)) perm
  end.

Definition mappages (pgdir va size pa perm : Z) : M kst Z :=
  let a := PGROUNDDOWN va in
  let last := PGROUNDDOWN (u32 (va + size - 1)) in
  mappages_loop (Z.to_nat (u32 (last - a) / PGSIZE)) pgdir a last pa perm.

(** The rows of [kmap]: virt, phys_start, phys_end, perm. *)
Definition kmap : list (Z * Z * Z * Z) :=
  [(KERNBASE, 0, EXTMEM, PTE_W);
   (KERNLINK, V2P KERNLINK, V2P kdata, 0);
   (kdata, V2P kdata, PHYSTOP, PTE_W);
   (DEVSPACE, DEVSPACE, 0, PTE_W)].

Fixpoint setupkvm_loop (rows : list (Z * Z * Z * Z)) (pgdir : Z) : M kst Z :=
  match rows with
  | [] => ret pgdir
  | (virt, phys_start, phys_end, perm) :: rows' =>
      r <- mappages pgdir virt (u32 (phys_end - phys_start)) phys_start perm ;;
      if r <? 0 then ret 0 else setupkvm_loop rows' pgdir
  end.

Definition setupkvm : M kst Z :=
  pgdir <- kalloc ;;
  if pgdir =? 0 then ret 0 else
  modify (fun s => set_km (StringC.memset (km s) pgdir 0 PGSIZE) s) ;;
  if DEVSPACE <? P2V PHYSTOP then panic "PHYSTOP too high" else
  setupkvm_loop kmap pgdir.

Definition inituvm (pgdir init sz : Z) : M kst unit :=
  if PGSIZE <=? sz then panic "inituvm: more than a page" else
  mem <- kalloc ;;
  modify (fun s => set_km (StringC.memset (km s) mem 0 PGSIZE) s) ;;
  mappages pgdir 0 PGSIZE (V2P mem) (Z.lor PTE_W PTE_U) ;;
  modify (fun s => set_km (StringC.memmove (km s) mem init sz) s).

Fixpoint deallocuvm_loop (fuel : nat) (pgdir a oldsz : Z) : M kst unit :=
  if a <? oldsz then
    match fuel with
    | O => diverge
    | S f =>
        pte <- walkpgdir pgdir a false ;;
        if pte =? 0 then
          deallocuvm_loop f pgdir (u32 (u32 (PGADDR (PDX a + 1) 0 0 - PGSIZE) + PGSIZE)) oldsz
        else
          e <- load32 pte ;;
          when (negb (Z.land e PTE_P =? 0))
            (if PTE_ADDR e =? 0 then panic "kfree"
             else kfree kend (P2V (PTE_ADDR e)) ;; store32 pte 0) ;;
          deallocuvm_loop f pgdir (u32 (a + PGSIZE)) oldsz
    end
  else ret tt.

Definition deallocuvm (pgdir oldsz newsz : Z) : M kst Z :=
  if oldsz <=? newsz then ret oldsz else
  deallocuvm_loop (S (Z.to_nat (oldsz / PGSIZE))) pgdir (PGROUNDUP newsz) oldsz ;;
  ret newsz.

(** The loop of allocuvm(); the messages on the console are left out. *)
Fixpoint allocuvm_loop (fuel : nat) (pgdir a oldsz newsz : Z) : M kst Z :=
  if a <? newsz then
    match fuel with
    | O => diverge
    | S f =>
        mem <- kalloc ;;
        if mem =? 0 then deallocuvm pgdir newsz oldsz ;; ret 0 else
        modify (fun s => set_km (StringC.memset (km s) mem 0 PGSIZE) s) ;;
        r <- mappages pgdir a PGSIZE (V2P mem) (Z.lor PTE_W PTE_U) ;;
        if r <? 0 then deallocuvm pgdir newsz oldsz ;; kfree kend mem ;; ret 0 else
        allocuvm_loop f pgdir (u32 (a + PGSIZE)) oldsz newsz
    end
  else ret newsz.

Definition allocuvm (pgdir oldsz newsz : Z) : M kst Z :=
  if KERNBASE <=? newsz then ret 0 else
  if newsz <? oldsz then ret oldsz else
  allocuvm_loop (S (Z.to_nat (newsz / PGSIZE))) pgdir (PGROUNDUP oldsz) oldsz newsz.

Definition freevm (pgdir : Z) : M kst unit :=
  if pgdir =? 0 then panic "freevm: no pgdir" else
  deallocuvm pgdir KERNBASE 0 ;;
  for_range (Z.to_nat NPDENTRIES) 0 (fun i =>
    e <- load32 (pgdir + 4 * i) ;;
    when (negb (Z.land e PTE_P =? 0)) (kfree kend (P2V (PTE_ADDR e)))) ;;
  kfree kend pgdir.

Definition clearpteu (pgdir uva : Z) : M kst unit :=
  pte <- walkpgdir pgdir uva false ;;
  if pte =? 0 then panic "clearpteu" else
  e <- load32 pte ;;
  store32 pte (Z.land e (Z.lnot PTE_U)).

(** Returns false at [goto bad]. *)
Fixpoint copyuvm_loop (fuel : nat) (pgdir d i sz : Z) : M kst bool :=
  if i <? sz then
    match fuel with
    | O => diverge
    | S f =>
        pte <- walkpgdir pgdir i false ;;
        if pte =? 0 then panic "copyuvm: pte should exist" else
        e <- load32 pte ;;
        if Z.land e PTE_P =? 0 then panic "copyuvm: page not present" else
        mem <- kalloc ;;
        if mem =? 0 then ret false else
        modify (fun s => set_km (StringC.memmove (km s) mem (P2V (PTE_ADDR e)) PGSIZE) s) ;;
        r <- mappages d i PGSIZE (V2P mem) (PTE_FLAGS e) ;;
        if r <? 0 then ret false else
        copyuvm_loop f pgdir d (u32 (i + PGSIZE)) sz
    end
  else ret true.

Definition copyuvm (pgdir sz : Z) : M kst Z :=
  d <- setupkvm ;;
  if d =? 0 then ret 0 else
  ok <- copyuvm_loop (S (Z.to_nat (sz / PGSIZE))) pgdir d 0 sz ;;
  if ok : bool then ret d else freevm d ;; ret 0.

(** uva2ka() reads the entry without a test for null; the model stops there. *)
Definition uva2ka (pgdir uva : Z) : M kst Z :=
  pte <- walkpgdir pgdir uva false ;;
  if pte =? 0 then panic "uva2ka: null entry" else
  e <- load32 pte ;;
  if Z.land e PTE_P =? 0 then ret 0 else
  if Z.land e PTE_U =? 0 then ret 0 else
  ret (P2V (PTE_ADDR e)).

Fixpoint copyout_loop (fuel : nat) (pgdir va buf len : Z) : M kst Z :=
  if 0 <? len then
    match fuel with
    | O => diverge
    | S f =>
        let va0 := PGROUNDDOWN va in
        pa0 <- uva2ka pgdir va0 ;;
        if pa0 =? 0 then ret (-1) else
        let n := Z.min (PGSIZE - (va - va0)) len in
        modify (fun s => set_km (StringC.memmove (km s) (pa0 + (va - va0)) buf n) s) ;;
        copyout_loop f pgdir (u32 (va0 + PGSIZE)) (buf + n) (len - n)
    end
  else ret 0.

Definition copyout (pgdir va p len : Z) : M kst Z :=
  copyout_loop (S (S (Z.to_nat (len / PGSIZE)))) pgdir va p len.

End Vm.
