(* ===== verification/VmSpec.v ===== *)
(** What the page tables mean: the entry that the hardware finds for an address, and what
    walkpgdir(), mappages() and copyout() do to it. *)

From S2P Require Export Vm.

Open Scope Z_scope.
Open Scope kernel_scope.

Definition present (e : Z) : bool := negb (Z.land e PTE_P =? 0).

(** The page table of directory entry [i]. *)
Definition pde (m : mem) (pgdir i : Z) : Z := rd32 m (pgdir + 4 * i).
Definition tab (m : mem) (pgdir i : Z) : Z := P2V (PTE_ADDR (pde m pgdir i)).

(** The entry for an address; 0, which is not present, where there is no page table. *)
Definition pte_of (m : mem) (pgdir va : Z) : Z :=
  if present (pde m pgdir (PDX va)) then rd32 m (tab m pgdir (PDX va) + 4 * PTX va) else 0.

Section Spec.
Context (kend : Z).

(** The directory and its tables are distinct pages that are not free. *)
Record pt_wf (m : mem) (pgdir : Z) (l : list Z) : Prop := {
  pt_dir : page_ok kend pgdir;
  pt_dir_used : pgdir ∉ l;
  pt_tab : forall i, 0 <= i < 1024 -> present (pde m pgdir i) = true ->
    page_ok kend (tab m pgdir i) /\ (tab m pgdir i ∉ l) /\ tab m pgdir i <> pgdir;
  pt_inj : forall i j, 0 <= i < 1024 -> 0 <= j < 1024 -> present (pde m pgdir i) = true ->
    present (pde m pgdir j) = true -> tab m pgdir i = tab m pgdir j -> i = j;
}.

Lemma page_ok_align p : page_ok kend p -> p mod 4096 = 0.
Proof. by intros []. Qed.

Lemma entry_in_page p i : 0 <= i < 1024 -> forall b, p + 4 * i <= b < p + 4 * i + 4 -> in_page p b.
Proof. unfold in_page, PGSIZE. lia. Qed.

Lemma rd32_page_ext m m' p i :
  0 <= i < 1024 -> (forall b, in_page p b -> rd m' b = rd m b) ->
  rd32 m' (p + 4 * i) = rd32 m (p + 4 * i).
Proof. intros Hi Hb. apply rd32_ext. intros b Hr. apply Hb. by eapply entry_in_page. Qed.

Lemma in_other_page p q b :
  page_ok kend p -> page_ok kend q -> p <> q -> in_page p b -> ~ in_page q b.
Proof.
  intros Hp Hq Hne Ha Hb. unfold in_page in *.
  destruct (pages_apart p q (pg_align _ _ Hp) (pg_align _ _ Hq) Hne); lia.
Qed.

(** Storing an entry of one page changes no entry of another page, and no other entry of the
    same page. *)
Lemma rd32_store_other m p i q j v :
  page_ok kend p -> page_ok kend q -> 0 <= i < 1024 -> 0 <= j < 1024 -> p <> q \/ i <> j ->
  rd32 (wr32 m (p + 4 * i) v) (q + 4 * j) = rd32 m (q + 4 * j).
Proof.
  intros Hp Hq Hi Hj Hne. apply rd32_wr32_ne. destruct (decide (p = q)) as [->|Hd]; [lia|].
  destruct (pages_apart p q (pg_align _ _ Hp) (pg_align _ _ Hq) Hd); unfold PGSIZE in *; lia.
Qed.

(** *** Entries *)

Lemma P2V_V2P p : 0 <= p < 2 ^ 32 -> P2V (V2P p) = p.
Proof.
  intros Hp. unfold P2V, V2P, u32, KERNBASE. rewrite Zplus_mod_idemp_l.
  replace (p - 0x80000000 + 0x80000000) with p by lia. by apply Z.mod_small.
Qed.

Lemma V2P_align p : p mod 4096 = 0 -> V2P p mod 4096 = 0.
Proof.
  intros Hp. unfold V2P, u32. change (2 ^ 32) with (4096 * 1048576).
  rewrite Z.rem_mul_r, (Z.mul_comm 4096), Z.mod_add, Z.mod_mod by lia.
  rewrite Zminus_mod, Hp. done.
Qed.

Lemma lor_low_bits_addr pa f : pa mod 4096 = 0 -> 0 <= f < 4096 -> PTE_ADDR (Z.lor pa f) = pa.
Proof.
  intros Hp Hf. unfold PTE_ADDR. rewrite Z.land_lor_distr_l. change 0xFFF with 4095.
  rewrite !land_lnot_page, Hp, (Z.mod_small f) by lia. rewrite Z.sub_diag, Z.lor_0_r. lia.
Qed.

Lemma lor_u32 a b : is_u32 a -> is_u32 b -> is_u32 (Z.lor a b).
Proof.
  unfold is_u32. intros Ha Hb. split; [apply Z.lor_nonneg; lia|].
  destruct (Z.eq_dec (Z.lor a b) 0) as [->|Hne]; [lia|].
  assert (0 < Z.lor a b) by (assert (0 <= Z.lor a b) by (apply Z.lor_nonneg; lia); lia).
  apply Z.log2_lt_pow2; [lia|]. rewrite Z.log2_lor by lia.
  apply Z.max_lub_lt; [destruct (Z.eq_dec a 0) as [->|]; [done|]|
    destruct (Z.eq_dec b 0) as [->|]; [done|]]; apply Z.log2_lt_pow2; lia.
Qed.

Lemma present_lor e : present (Z.lor e PTE_P) = true.
Proof.
  unfold present, PTE_P. apply negb_true_iff, Z.eqb_neq. intros H.
  assert (Hb : Z.testbit (Z.land (Z.lor e 1) 1) 0 = true)
    by (rewrite Z.land_spec, Z.lor_spec; by rewrite orb_true_r).
  by rewrite H in Hb.
Qed.

(** The directory entry that walkpgdir() makes for a new page table. *)
Definition new_pde (t : Z) : Z := Z.lor (Z.lor (Z.lor (V2P t) PTE_P) PTE_W) PTE_U.

Lemma new_pde_spec t : page_ok kend t ->
  u32 (new_pde t) = new_pde t /\ present (new_pde t) = true /\ P2V (PTE_ADDR (new_pde t)) = t.
Proof.
  intros Ht. pose proof (V2P_align t (page_ok_align t Ht)) as Ha. destruct Ht as [H1 _ _ _].
  assert (He : new_pde t = Z.lor (V2P t) 7).
  { unfold new_pde, PTE_P, PTE_W, PTE_U. by rewrite <- !Z.lor_assoc. }
  assert (Hu : is_u32 (new_pde t)).
  { rewrite He. apply lor_u32; [apply Z.mod_pos_bound; lia|split; lia]. }
  split_and!.
  - by apply Z.mod_small.
  - rewrite He. change 7 with (Z.lor 6 PTE_P). rewrite Z.lor_assoc. apply present_lor.
  - rewrite He, lor_low_bits_addr by (done || lia). apply P2V_V2P. lia.
Qed.

(** *** walkpgdir *)

(** The memory after a new page table [t] is put in place for [va]. *)
Definition with_table (m : mem) (pgdir va t : Z) : mem :=
  wr32 (StringC.memset m t 0 PGSIZE) (pgdir + 4 * PDX va) (new_pde t).

Lemma rd_cleared m t b : rd (StringC.memset m t 0 PGSIZE) b = if decide (in_page t b) then 0 else rd m b.
Proof. rewrite StringC.memset_fills by done. unfold in_page. by repeat case_decide. Qed.

Lemma rd_with_table m pgdir va t b :
  ~ in_page t b -> ~ in_page pgdir b -> rd (with_table m pgdir va t) b = rd m b.
Proof.
  intros Ht Hp. unfold with_table. rewrite rd_wr32_ne.
  - rewrite rd_cleared. by rewrite decide_False.
  - intros H. apply Hp. eapply entry_in_page; [apply PDX_bound|exact H].
Qed.

Section NewTable.
Context (m : mem) (pgdir va t : Z) (l : list Z).
Context (Hwf : pt_wf m pgdir (t :: l)) (Ht : page_ok kend t) (Hnd : t ∉ l).

Lemma fresh_dir : t <> pgdir.
Proof. intros He. apply (pt_dir_used _ _ _ Hwf). rewrite <- He. set_solver. Qed.

Lemma pde_with_table i : 0 <= i < 1024 ->
  pde (with_table m pgdir va t) pgdir i = if decide (i = PDX va) then new_pde t else pde m pgdir i.
Proof.
  intros Hi. unfold pde, with_table. pose proof (pt_dir _ _ _ Hwf) as Hd. case_decide as He.
  - subst i. rewrite rd32_wr32_eq. by apply new_pde_spec.
  - rewrite rd32_store_other by (auto using PDX_bound). apply rd32_page_ext; [done|].
    intros b Hb. rewrite rd_cleared, decide_False; [done|].
    apply (in_other_page pgdir); auto. symmetry. apply fresh_dir.
Qed.

Lemma old_table_apart i : 0 <= i < 1024 -> present (pde m pgdir i) = true -> tab m pgdir i <> t.
Proof.
  intros Hi Hp He. destruct (pt_tab _ _ _ Hwf i Hi Hp) as (_ & Hn & _). rewrite He in Hn. set_solver.
Qed.

Lemma tab_with_table i : 0 <= i < 1024 ->
  tab (with_table m pgdir va t) pgdir i = if decide (i = PDX va) then t else tab m pgdir i.
Proof.
  intros Hi. unfold tab at 1. rewrite pde_with_table by done. case_decide; [|done].
  by apply new_pde_spec.
Qed.

Lemma pt_wf_with_table :
  present (pde m pgdir (PDX va)) = false -> pt_wf (with_table m pgdir va t) pgdir l.
Proof.
  intros Hnp. pose proof Hwf as [W1 W2 W3 W4]. split; [done|set_solver| |].
  - intros i Hi. rewrite pde_with_table, tab_with_table by done. case_decide.
    + intros _. split_and!; [done|done|apply fresh_dir].
    + intros Hp. destruct (W3 i Hi Hp) as (A & B & C). split_and!; [done|set_solver|done].
  - intros i j Hi Hj. rewrite !pde_with_table, !tab_with_table by done.
    repeat case_decide; subst; auto; intros P1 P2 He; exfalso.
    + by eapply (old_table_apart j).
    + by eapply (old_table_apart i).
Qed.

Lemma pte_with_table vb :
  present (pde m pgdir (PDX va)) = false ->
  pte_of (with_table m pgdir va t) pgdir vb = pte_of m pgdir vb.
Proof.
  intros Hnp. unfold pte_of. pose proof (PDX_bound vb) as Hb. pose proof (PTX_bound vb) as Ht'.
  rewrite pde_with_table, tab_with_table by done. case_decide as He.
  - rewrite He, Hnp. destruct (new_pde_spec t Ht) as (_ & -> & _).
    unfold with_table. rewrite rd32_store_other; [|apply Hwf|done|apply PDX_bound|done|];
      [|left; intros Hx; by apply fresh_dir]. unfold rd32.
    assert (Hz : rd_bytes (StringC.memset m t 0 PGSIZE) (t + 4 * PTX vb) 4 = [0; 0; 0; 0]); [|by rewrite Hz].
    cbn [rd_bytes]. rewrite !rd_cleared. rewrite !decide_True by (unfold in_page, PGSIZE; lia). done.
  - destruct (present (pde m pgdir (PDX vb))) eqn:Ep; [|done].
    destruct (pt_tab _ _ _ Hwf _ Hb Ep) as (A & B & C). apply rd32_page_ext; [done|].
    intros b Hin. apply rd_with_table; [apply (in_other_page (tab m pgdir (PDX vb)))|
      apply (in_other_page (tab m pgdir (PDX vb)))]; auto; [set_solver|apply Hwf].
Qed.
End NewTable.

(** The address of the entry for [va] when its table is there. *)
Definition pte_at (m : mem) (pgdir va r : Z) : Prop :=
  present (pde m pgdir (PDX va)) = true /\ r = tab m pgdir (PDX va) + 4 * PTX va.

Definition same_ptes (m m' : mem) (pgdir : Z) : Prop :=
  forall vb, pte_of m' pgdir vb = pte_of m pgdir vb.

Lemma wp_walkpgdir_find pgdir va s (Q : Z -> kst -> Prop) :
  Q (if present (pde (km s) pgdir (PDX va)) then tab (km s) pgdir (PDX va) + 4 * PTX va else 0) s ->
  wp (walkpgdir pgdir va false) Q s.
Proof.
  intros HQ. unfold walkpgdir. apply wp_bind, wp_gets. unfold tab, pde, present in *.
  by destruct (negb _).
Qed.

Lemma wp_walkpgdir_alloc pgdir va s l :
  kinv kend s l -> pt_wf (km s) pgdir l ->
  wp (walkpgdir pgdir va true) (fun r s' =>
    (r = 0 /\ l = [] /\ s' = s) \/
    (r <> 0 /\ pte_at (km s') pgdir va r /\ same_ptes (km s) (km s') pgdir /\
     exists ts l', l = ts ++ l' /\ (length ts <= 1)%nat /\ kinv kend s' l' /\ pt_wf (km s') pgdir l' /\
       forall b, ~ in_page pgdir b -> (forall t, t ∈ ts -> ~ in_page t b) ->
         rd (km s') b = rd (km s) b)) s.
Proof.
  intros Hi Hwf. unfold walkpgdir. apply wp_bind, wp_gets.
  change (rd32 (km s) (pgdir + 4 * PDX va)) with (pde (km s) pgdir (PDX va)).
  fold (present (pde (km s) pgdir (PDX va))).
  destruct (present (pde (km s) pgdir (PDX va))) eqn:Ep.
  - apply wp_ret. right. destruct (pt_tab _ _ _ Hwf _ (PDX_bound va) Ep) as ([A _ _ _] & _).
    pose proof (PTX_bound va). unfold tab in A. split_and!; [lia|done|done|].
    exists [], l. split_and!; try done. simpl. lia.
  - simpl. eapply wp_seq; [by apply (wp_kalloc kend s l)|]. intros r s1 (Hm & Hu & Hl).
    destruct l as [|t l].
    { destruct Hl as [-> ->]. apply wp_ret. left. done. }
    destruct Hl as [-> Hi1]. pose proof (ki_ok _ _ _ Hi) as Hok. apply Forall_cons in Hok as [Ht Hok].
    pose proof (ki_nodup _ _ _ Hi) as [Hn Hnd]%NoDup_cons.
    rewrite (proj2 (Z.eqb_neq _ _)) by (destruct Ht; lia).
    apply wp_bind, wp_modify, wp_bind, wp_modify, wp_ret. cbn [km set_km]. rewrite Hm.
    fold (new_pde t). fold (with_table (km s) pgdir va t).
    right. pose proof (PTX_bound va). split_and!.
    + destruct Ht. lia.
    + split; [rewrite pde_with_table with (l := l) by (auto using PDX_bound)|
        rewrite tab_with_table with (l := l) by (auto using PDX_bound)]; rewrite decide_True by done; [|done].
      by apply new_pde_spec.
    + intros vb. by apply pte_with_table with (l := l).
    + exists [t], l. split_and!; [done|done| |by apply pt_wf_with_table|].
      * destruct Hi1 as [Hc Ho Hnd' Hlk]. split; auto. simpl.
        apply (chain_ext kend (km s1)); [done| |done]. intros p a Hp Ha. rewrite Hm.
        rewrite Forall_forall in Ho. apply rd_with_table.
        -- apply (in_other_page p); auto. set_solver.
        -- apply (in_other_page p); auto; [apply Hwf|]. intros ->.
           apply (pt_dir_used _ _ _ Hwf). set_solver.
      * intros b Hb Htb. apply rd_with_table; [apply Htb; set_solver|done].
Qed.

(** *** Storing an entry *)

Section StorePte.
Context (m : mem) (pgdir va r v : Z) (l : list Z).
Context (Hwf : pt_wf m pgdir l) (Hr : pte_at m pgdir va r).

Lemma store_tab : page_ok kend (tab m pgdir (PDX va)) /\ (tab m pgdir (PDX va) ∉ l) /\
  tab m pgdir (PDX va) <> pgdir.
Proof. apply (pt_tab _ _ _ Hwf); [apply PDX_bound|apply Hr]. Qed.

Lemma pde_store i : 0 <= i < 1024 -> pde (wr32 m r v) pgdir i = pde m pgdir i.
Proof.
  intros Hi. destruct store_tab as (A & B & C), Hr as [_ ->]. unfold pde.
  apply rd32_store_other; [done|apply Hwf|apply PTX_bound|done|by left].
Qed.

Lemma tab_store i : 0 <= i < 1024 -> tab (wr32 m r v) pgdir i = tab m pgdir i.
Proof. intros Hi. unfold tab. by rewrite pde_store. Qed.

Lemma pt_wf_store : pt_wf (wr32 m r v) pgdir l.
Proof.
  pose proof Hwf as [W1 W2 W3 W4]. split; [done|done| |].
  - intros i Hi. rewrite pde_store, tab_store by done. by apply W3.
  - intros i j Hi Hj. rewrite !pde_store, !tab_store by done. by apply W4.
Qed.

Lemma pte_store vb :
  pte_of (wr32 m r v) pgdir vb =
    if decide (PDX vb = PDX va /\ PTX vb = PTX va) then u32 v else pte_of m pgdir vb.
Proof.
  unfold pte_of. pose proof (PDX_bound vb) as Hb. rewrite pde_store, tab_store by done.
  destruct store_tab as (A & _ & _), Hr as [Hp Hr'].
  case_decide as He.
  - destruct He as [-> ->]. rewrite Hp, Hr'. apply rd32_wr32_eq.
  - destruct (present (pde m pgdir (PDX vb))) eqn:Ep; [|done]. rewrite Hr'.
    apply rd32_store_other; [done|by apply (pt_tab _ _ _ Hwf)|apply PTX_bound|apply PTX_bound|].
    destruct (decide (PTX va = PTX vb)) as [Ht|Ht]; [|by right]. left. intros Heq. apply He.
    split; [|done]. symmetry. apply (pt_inj _ _ _ Hwf); auto using PDX_bound.
Qed.

Lemma chain_store r0 : Forall (page_ok kend) l -> chain m r0 l -> chain (wr32 m r v) r0 l.
Proof.
  intros Hok. apply (chain_ext kend); [done|]. intros p a Hp Ha. apply rd_wr32_ne.
  destruct store_tab as (A & B & _), Hr as [_ ->]. rewrite Forall_forall in Hok. intros Hin.
  assert (Hne : p <> tab m pgdir (PDX va)) by (intros ->; done).
  apply (in_other_page p _ a (Hok p Hp) A Hne Ha). eapply entry_in_page; [|exact Hin]. apply PTX_bound.
Qed.
End StorePte.

Lemma same_indices va vb :
  is_u32 va -> is_u32 vb -> PDX vb = PDX va /\ PTX vb = PTX va <-> vb / 4096 = va / 4096.
Proof.
  intros Ha Hb. split.
  - intros [H1 H2]. by apply same_page.
  - intros H. rewrite !PDX_eq, !PTX_eq by done. change (2 ^ 22) with (4096 * 1024).
    rewrite <- !Z.div_div by lia. by rewrite H.
Qed.

Lemma pte_of_page m pgdir va vb :
  is_u32 va -> is_u32 vb -> vb / 4096 = va / 4096 -> pte_of m pgdir vb = pte_of m pgdir va.
Proof. intros Ha Hb He. apply same_indices in He as [H1 H2]; [|done..]. unfold pte_of. by rewrite H1, H2. Qed.

(** *** mappages *)

Definition map_entry (pa perm : Z) : Z := Z.lor (Z.lor pa perm) PTE_P.

(** The [j] pages from [a] on are mapped to the pages from [pa] on, the others as before. *)
Definition mapped_pages (m m' : mem) (pgdir a pa perm : Z) (j : Z) : Prop :=
  forall vb, is_u32 vb -> pte_of m' pgdir vb =
    if decide (a <= vb < a + PGSIZE * j)
    then map_entry (pa + PGSIZE * ((vb - a) / PGSIZE)) perm else pte_of m pgdir vb.

Definition mappages_post (s : kst) (l : list Z) (pgdir a pa perm n : Z) (r : Z) (s' : kst) : Prop :=
  exists j ts l', l = ts ++ l' /\ kinv kend s' l' /\ pt_wf (km s') pgdir l' /\
    mapped_pages (km s) (km s') pgdir a pa perm j /\
    ((r = 0 /\ j = n) \/ (r = -1 /\ 0 <= j < n /\ l' = [])).

Lemma map_entry_u32 pa perm : is_u32 pa -> 0 <= perm < 4096 -> u32 (map_entry pa perm) = map_entry pa perm.
Proof.
  intros Hp Hf. apply Z.mod_small. apply lor_u32; [apply lor_u32; [done|split; lia]|].
  unfold is_u32, PTE_P. lia.
Qed.

Lemma mapped_pages_cons m m1 m2 m3 pgdir a pa perm j :
  is_u32 a -> a mod 4096 = 0 -> 0 <= j ->
  same_ptes m m1 pgdir ->
  (forall vb, is_u32 vb -> pte_of m2 pgdir vb =
     if decide (vb / 4096 = a / 4096) then map_entry pa perm else pte_of m1 pgdir vb) ->
  mapped_pages m2 m3 pgdir (a + PGSIZE) (pa + PGSIZE) perm j ->
  mapped_pages m m3 pgdir a pa perm (j + 1).
Proof.
  intros Hau Ha Hj H1 H2 H3 vb Hb. rewrite H3 by done. unfold PGSIZE in *.
  pose proof (Z.div_mod a 4096). pose proof (Z.div_mod vb 4096).
  pose proof (Z.mod_pos_bound vb 4096).
  destruct (decide (a + 4096 <= vb < a + 4096 + 4096 * j)).
  - rewrite decide_True by lia. f_equal.
    replace (vb - a) with (vb - (a + 4096) + 1 * 4096) by lia. rewrite Z.div_add by lia. lia.
  - rewrite H2 by done. destruct (decide (vb / 4096 = a / 4096)) as [He|He].
    + rewrite decide_True by lia. f_equal. rewrite Z.div_small by lia. lia.
    + rewrite decide_False by lia. apply H1.
Qed.

(** One turn of the loop. *)
Lemma wp_map_one s l pgdir a pa perm (K : M kst Z) (Q : Z -> kst -> Prop) :
  kinv kend s l -> pt_wf (km s) pgdir l -> is_u32 a -> is_u32 pa -> 0 <= perm < 4096 ->
  present (pte_of (km s) pgdir a) = false ->
  (l = [] -> Q (-1) s) ->
  (forall s2 ts l2 m1, l = ts ++ l2 -> kinv kend s2 l2 -> pt_wf (km s2) pgdir l2 ->
     same_ptes (km s) m1 pgdir ->
     (forall vb, is_u32 vb -> pte_of (km s2) pgdir vb =
        if decide (vb / 4096 = a / 4096) then map_entry pa perm else pte_of m1 pgdir vb) ->
     wp K Q s2) ->
  wp (pte <- walkpgdir pgdir a true ;;
      if pte =? 0 then ret (-1) else
      e <- load32 pte ;;
      if negb (Z.land e PTE_P =? 0) then panic "remap" else
      store32 pte (Z.lor (Z.lor pa perm) PTE_P) ;; K) Q s.
Proof.
  intros Hi Hwf Ha Hpa Hperm Hf0 HQ HK.
  eapply wp_seq; [by apply (wp_walkpgdir_alloc pgdir a s l)|].
  intros r s1 [(-> & Hl & ->)|(Hr0 & Hr & Hs1 & ts & l1 & Hl & _ & Hi1 & Hwf1 & _)].
  { simpl. apply wp_ret. auto. }
  rewrite (proj2 (Z.eqb_neq _ _)) by done. apply wp_bind, wp_gets.
  assert (He : rd32 (km s1) r = pte_of (km s1) pgdir a)
    by (destruct Hr as [Hp ->]; unfold pte_of; by rewrite Hp).
  rewrite <- Hs1, <- He in Hf0. unfold present in Hf0. rewrite Hf0. apply wp_bind, wp_modify.
  apply (HK _ ts l1 (km s1)); [done| |by eapply pt_wf_store|done|].
  - destruct Hi1 as [Hc Hok Hnd Hlk]. split; auto. by eapply chain_store.
  - intros vb Hb. cbn [km set_km]. rewrite (pte_store (km s1) pgdir a r _ l1) by done.
    fold (map_entry pa perm). rewrite map_entry_u32 by done.
    destruct (decide (vb / 4096 = a / 4096)) as [Hs|Hs].
    + rewrite decide_True; [done|]. by apply same_indices.
    + rewrite decide_False; [done|]. intros Hx. by apply same_indices in Hx.
Qed.

Lemma wp_mappages_loop fuel s l pgdir a pa perm n :
  kinv kend s l -> pt_wf (km s) pgdir l -> 0 <= n -> (Z.to_nat n <= fuel)%nat ->
  0 <= a -> a mod 4096 = 0 -> a + PGSIZE * n < 2 ^ 32 -> 0 <= pa -> pa + PGSIZE * n < 2 ^ 32 ->
  0 <= perm < 4096 ->
  (forall k, 0 <= k <= n -> present (pte_of (km s) pgdir (a + PGSIZE * k)) = false) ->
  wp (mappages_loop fuel pgdir a (a + PGSIZE * n) pa perm)
    (mappages_post s l pgdir a pa perm (n + 1)) s.
Proof.
  revert s l a pa n. induction fuel as [|fuel IH]; intros s l a pa n Hi Hwf Hn Hf Ha0 Haa Han Hp0 Hpn Hperm Hfree.
  all: cbn [mappages_loop]; unfold PGSIZE in *; pose proof (Hfree 0 ltac:(lia)) as Hf0;
    rewrite Z.mul_0_r, Z.add_0_r in Hf0; apply (wp_map_one s l); auto; try (split; lia).
  1, 3: intros Hl; subst l; exists 0, [], []; split_and!; try done; [|right; split_and!; done || lia];
    intros vb Hb; by rewrite decide_False by (unfold PGSIZE; lia).
  all: intros s2 ts l2 m1 Hl Hi2 Hwf2 Hs1 Hs2; destruct (Z.eqb_spec a (a + 4096 * n)) as [Hz|Hz].
  1, 3: assert (n = 0) as -> by lia; apply wp_ret; exists 1, ts, l2; split_and!; try done;
    [|by left]; change 1 with (0 + 1); eapply (mapped_pages_cons _ m1 (km s2)); try done; [split; lia|];
    intros vb Hb; by rewrite decide_False by (unfold PGSIZE; lia).
  - lia.
  - assert (Ea : u32 (a + 4096) = a + 4096) by (apply Z.mod_small; lia).
    assert (Ep : u32 (pa + 4096) = pa + 4096) by (apply Z.mod_small; lia).
    rewrite Ea, Ep. replace (a + 4096 * n) with ((a + 4096) + 4096 * (n - 1)) by lia.
    eapply wp_mono; [apply (IH s2 l2 (a + 4096) (pa + 4096) (n - 1)); auto; try lia|].
    + rewrite <- (Z.mul_1_l 4096) at 1. by rewrite Z.mod_add by lia.
    + intros k Hk. rewrite Hs2 by (split; lia).
      replace (a + 4096 + 4096 * k) with (a + (k + 1) * 4096) by lia. rewrite Z.div_add by lia.
      rewrite decide_False by lia. rewrite Hs1. rewrite Z.mul_comm. apply Hfree. lia.
    + intros r s3 (j & ts' & l3 & Hl2 & Hi3 & Hwf3 & Hm & Hr).
      exists (j + 1), (ts ++ ts'), l3. rewrite Hl, Hl2, app_assoc. split_and!; try done.
      * eapply (mapped_pages_cons _ m1 (km s2)); try done; [split; lia|lia].
      * destruct Hr as [[-> ->]|(-> & ? & ->)]; [left; lia|right; split_and!; [done|lia|lia|done]].
Qed.

Lemma map_entry_parts pa perm :
  pa mod 4096 = 0 -> 0 <= perm < 4096 ->
  PTE_ADDR (map_entry pa perm) = pa /\ PTE_FLAGS (map_entry pa perm) = Z.lor perm PTE_P.
Proof.
  intros Hp Hf. unfold map_entry. rewrite <- Z.lor_assoc. set (f := Z.lor perm PTE_P).
  assert (H : 0 <= f < 4096).
  { split; [apply Z.lor_nonneg; unfold PTE_P; lia|]. unfold f, PTE_P.
    assert (0 <= Z.lor perm 1) by (apply Z.lor_nonneg; lia).
    destruct (Z.eq_dec (Z.lor perm 1) 0) as [->|]; [lia|].
    apply (Z.log2_lt_pow2 _ 12); [lia|]. rewrite Z.log2_lor by lia.
    apply Z.max_lub_lt; [|done]. destruct (Z.eq_dec perm 0) as [->|]; [done|].
    apply Z.log2_lt_pow2; lia. }
  split; [by apply lor_low_bits_addr|]. unfold PTE_FLAGS. rewrite Z.land_lor_distr_l.
  change 0xFFF with (Z.ones 12). rewrite !Z.land_ones by lia. change (2 ^ 12) with 4096.
  rewrite Hp, (Z.mod_small f) by lia. by rewrite Z.lor_0_l.
Qed.

(** C9. mappages() maps the pages of a range that was not mapped: afterwards every address of
    those pages translates to the page of the physical range at the same distance, with the
    permissions given and the present bit, and every other address as before. It fails only
    when the allocator has no page left for a page table, having mapped a prefix. The page
    tables and the free list stay well formed. *)
Theorem mappages_correct s l pgdir va size pa perm :
  let a := va - va mod 4096 in
  let n := (va + size - 1) / 4096 - va / 4096 + 1 in
  kinv kend s l -> pt_wf (km s) pgdir l ->
  0 <= va -> 0 < size -> va + size <= 2 ^ 32 ->
  0 <= pa -> pa mod 4096 = 0 -> pa + PGSIZE * n <= 2 ^ 32 -> 0 <= perm < 4096 ->
  (forall vb, a <= vb < a + PGSIZE * n -> present (pte_of (km s) pgdir vb) = false) ->
  wp (mappages pgdir va size pa perm) (fun r s' =>
    exists j ts l', l = ts ++ l' /\ kinv kend s' l' /\ pt_wf (km s') pgdir l' /\
      (forall vb, is_u32 vb ->
         if decide (a <= vb < a + PGSIZE * j)
         then present (pte_of (km s') pgdir vb) = true /\
              PTE_ADDR (pte_of (km s') pgdir vb) = pa + PGSIZE * ((vb - a) / PGSIZE) /\
              PTE_FLAGS (pte_of (km s') pgdir vb) = Z.lor perm PTE_P
         else pte_of (km s') pgdir vb = pte_of (km s) pgdir vb) /\
      ((r = 0 /\ j = n) \/ (r = -1 /\ 0 <= j < n /\ l' = []))) s.
Proof.
  intros a n Hi Hwf Hva Hsz Hend Hpa Hpal Hpn Hperm Hfree.
  pose proof (Z.div_mod va 4096) as Dv. pose proof (Z.mod_pos_bound va 4096) as Mv.
  pose proof (Z.div_mod (va + size - 1) 4096) as Dl.
  pose proof (Z.mod_pos_bound (va + size - 1) 4096) as Ml.
  assert (Hle : va / 4096 <= (va + size - 1) / 4096) by (apply Z.div_le_mono; lia).
  unfold mappages, PGSIZE in *. 
  assert (Hu : u32 (va + size - 1) = va + size - 1) by (apply Z.mod_small; lia).
  rewrite Hu, !PGROUNDDOWN_eq. fold a.
  replace (va + size - 1 - (va + size - 1) mod 4096) with (a + 4096 * (n - 1)) by lia.
  eapply wp_mono; [apply (wp_mappages_loop _ s l pgdir a pa perm (n - 1)); auto; unfold PGSIZE; try lia|].
  - replace (a + 4096 * (n - 1) - a) with ((n - 1) * 4096) by lia.
    unfold u32. rewrite Z.mod_small by lia. by rewrite Z.div_mul.
  - unfold a. rewrite Zminus_mod_idemp_r, Z.sub_diag. done.
  - intros k Hk. apply Hfree. lia.
  - intros r s' (j & ts & l' & Hl & Hi' & Hwf' & Hm & Hr). exists j, ts, l'. split_and!; try done.
    + intros vb Hb. rewrite Hm by done. unfold PGSIZE. case_decide as Hd; [|done].
      destruct (map_entry_parts (pa + 4096 * ((vb - a) / 4096)) perm) as [E1 E2];
        [by rewrite Z.mul_comm, Z.mod_add by lia|done|].
      split_and!; [apply present_lor|done..].
    + replace (n - 1 + 1) with n in Hr by lia. done.
Qed.
End Spec.
