(* ===== verification/UserMem.v ===== *)
(** User memory: the bytes that a process sees through its page table, and copyout(). *)

From S2P Require Export VmSpec.

Open Scope Z_scope.
Open Scope kernel_scope.

(** May the user access the page of [va], and where is it? *)
Definition uok (m : mem) (pgdir va : Z) : bool :=
  present (pte_of m pgdir va) && negb (Z.land (pte_of m pgdir va) PTE_U =? 0).
Definition upage (m : mem) (pgdir va : Z) : Z := P2V (PTE_ADDR (pte_of m pgdir va)).
Definition ubyte (m : mem) (pgdir va : Z) : Z := rd m (upage m pgdir va + va mod 4096).

Section UserMem.
Context (kend : Z).

(** The user's pages are pages of their own. *)
Record user_map (m : mem) (pgdir : Z) : Prop := {
  us_page : forall va, 0 <= va < KERNBASE -> uok m pgdir va = true ->
    page_ok kend (upage m pgdir va) /\ upage m pgdir va <> pgdir /\
    forall i, 0 <= i < 1024 -> present (pde m pgdir i) = true -> tab m pgdir i <> upage m pgdir va;
  us_inj : forall va vb, 0 <= va < KERNBASE -> 0 <= vb < KERNBASE ->
    uok m pgdir va = true -> uok m pgdir vb = true ->
    upage m pgdir va = upage m pgdir vb -> va / 4096 = vb / 4096;
}.

(** Memory that agrees on the page tables has the same translation. *)
Record same_tables (m m' : mem) (pgdir : Z) : Prop := {
  st_pde : forall i, 0 <= i < 1024 -> pde m' pgdir i = pde m pgdir i;
  st_pte : forall va, pte_of m' pgdir va = pte_of m pgdir va;
}.

Lemma same_tables_trans m1 m2 m3 pgdir :
  same_tables m1 m2 pgdir -> same_tables m2 m3 pgdir -> same_tables m1 m3 pgdir.
Proof.
  intros [P1 E1] [P2 E2]. split; [intros i Hi; by rewrite P2, P1|intros va; by rewrite E2, E1].
Qed.

Lemma same_tables_ext m m' pgdir l :
  pt_wf kend m pgdir l -> (forall b, in_page pgdir b -> rd m' b = rd m b) ->
  (forall i b, 0 <= i < 1024 -> present (pde m pgdir i) = true -> in_page (tab m pgdir i) b ->
     rd m' b = rd m b) ->
  same_tables m m' pgdir.
Proof.
  intros Hwf Hd Ht.
  assert (Hp : forall i, 0 <= i < 1024 -> pde m' pgdir i = pde m pgdir i).
  { intros i Hi. by apply rd32_page_ext. }
  split; [done|]. intros va. unfold pte_of, tab. pose proof (PDX_bound va) as Hb. rewrite Hp by done.
  destruct (present (pde m pgdir (PDX va))) eqn:E; [|done].
  apply rd32_page_ext; [apply PTX_bound|]. intros b. by apply (Ht (PDX va)).
Qed.

Section Same.
Context (m m' : mem) (pgdir : Z) (Hs : same_tables m m' pgdir).

Lemma same_uok va : uok m' pgdir va = uok m pgdir va.
Proof. unfold uok. by rewrite (st_pte _ _ _ Hs). Qed.

Lemma same_upage va : upage m' pgdir va = upage m pgdir va.
Proof. unfold upage. by rewrite (st_pte _ _ _ Hs). Qed.

Lemma same_tab i : 0 <= i < 1024 -> tab m' pgdir i = tab m pgdir i.
Proof. intros Hi. unfold tab. by rewrite (st_pde _ _ _ Hs). Qed.

Lemma same_pt_wf l : pt_wf kend m pgdir l -> pt_wf kend m' pgdir l.
Proof.
  intros [W1 W2 W3 W4]. split; [done|done| |].
  - intros i Hi. rewrite (st_pde _ _ _ Hs), same_tab by done. by apply W3.
  - intros i j Hi Hj. rewrite !(st_pde _ _ _ Hs), !same_tab by done. by apply W4.
Qed.

Lemma same_user_map : user_map m pgdir -> user_map m' pgdir.
Proof.
  intros [U1 U2]. split.
  - intros va Hv. rewrite same_uok, same_upage. intros Hu. destruct (U1 va Hv Hu) as (A & B & C).
    split_and!; [done..|]. intros i Hi. rewrite (st_pde _ _ _ Hs), same_tab by done. by apply C.
  - intros va vb Hv Hb. rewrite !same_uok, !same_upage. by apply U2.
Qed.
End Same.

(** A write inside a user page leaves the page tables alone. *)
Lemma write_user m m' pgdir l va :
  pt_wf kend m pgdir l -> user_map m pgdir -> 0 <= va < KERNBASE -> uok m pgdir va = true ->
  (forall b, ~ in_page (upage m pgdir va) b -> rd m' b = rd m b) -> same_tables m m' pgdir.
Proof.
  intros Hwf [U _] Hv Hu Hb. destruct (U va Hv Hu) as (A & B & C).
  apply (same_tables_ext _ _ _ l); [done| |].
  - intros b Hin. apply Hb. apply (in_other_page kend pgdir); [apply Hwf|done|congruence|done].
  - intros i b Hi Hp Hin. apply Hb. destruct (pt_tab _ _ _ _ Hwf i Hi Hp) as (A' & _).
    apply (in_other_page kend (tab m pgdir i)); auto.
Qed.

Lemma page_start va : (va - va mod 4096) / 4096 = va / 4096.
Proof.
  pose proof (Z.div_mod va 4096). replace (va - va mod 4096) with (va / 4096 * 4096) by lia.
  by rewrite Z.div_mul.
Qed.

Lemma wp_uva2ka pgdir va s (Q : Z -> kst -> Prop) :
  present (pde (km s) pgdir (PDX va)) = true -> page_ok kend (tab (km s) pgdir (PDX va)) ->
  Q (if uok (km s) pgdir va then upage (km s) pgdir va else 0) s -> wp (uva2ka pgdir va) Q s.
Proof.
  intros Hp Ht HQ. unfold uva2ka. apply wp_bind, wp_walkpgdir_find. rewrite Hp.
  pose proof (PTX_bound va). rewrite (proj2 (Z.eqb_neq _ _)) by (destruct Ht; lia).
  apply wp_bind, wp_gets. unfold uok, upage, pte_of in HQ. rewrite Hp in HQ.
  unfold present in HQ. destruct (Z.land _ PTE_P =? 0); [done|]. simpl in HQ.
  by destruct (Z.land _ PTE_U =? 0).
Qed.

Lemma uva2ka_null pgdir va s :
  present (pde (km s) pgdir (PDX va)) = false -> uva2ka pgdir va s = Panic "uva2ka: null entry".
Proof.
  intros Hp. pose proof (wp_walkpgdir_find pgdir va s (fun r s' => r = 0 /\ s' = s)) as Hw.
  rewrite Hp in Hw. unfold wp in Hw. specialize (Hw (conj eq_refl eq_refl)). unfold uva2ka, bind.
  destruct (walkpgdir pgdir va false s); try done. by destruct Hw as [-> ->].
Qed.

(** The code returns with [Q], or follows a null pointer when [E] holds. *)
Definition ends {St A} (m : M St A) (Q : A -> St -> Prop) (E : Prop) (s : St) : Prop :=
  match m s with Ret a s' => Q a s' | Panic _ => E | _ => False end.

Lemma ends_bind {St A B} (m : M St A) (k : A -> M St B) Q (E : Prop) s :
  wp m (fun a s' => ends (k a) Q E s') s -> ends (bind m k) Q E s.
Proof. unfold wp, ends, bind. by destruct (m s). Qed.

Lemma ends_mono {St A} (m : M St A) (Q Q' : A -> St -> Prop) (E E' : Prop) s :
  ends m Q E s -> (forall a s', Q a s' -> Q' a s') -> (E -> E') -> ends m Q' E' s.
Proof. unfold ends. destruct (m s); auto. Qed.

(** The first address of the range that the user may not access is [vb]. *)
Definition first_bad (m : mem) (pgdir va len vb : Z) : Prop :=
  va <= vb < va + len /\ uok m pgdir vb = false /\ forall vc, va <= vc < vb -> uok m pgdir vc = true.

(** What copyout() has done when it returns. *)
Definition copied (m m' : mem) (pgdir va buf len r : Z) : Prop :=
  same_tables m m' pgdir /\
  ((r = 0 /\
    (forall vb, va <= vb < va + len -> uok m pgdir vb = true) /\
    (forall vb, 0 <= vb < KERNBASE -> uok m pgdir vb = true ->
       ubyte m' pgdir vb = if decide (va <= vb < va + len) then rd m (buf + (vb - va))
                           else ubyte m pgdir vb)) \/
   (r = -1 /\ exists vb, first_bad m pgdir va len vb /\ present (pde m pgdir (PDX vb)) = true)).

(** The first address that the user may not access has no page table. *)
Definition no_table (m : mem) (pgdir va len : Z) : Prop :=
  exists vb, first_bad m pgdir va len vb /\ present (pde m pgdir (PDX vb)) = false.

Lemma uok_page m pgdir va vb :
  is_u32 va -> is_u32 vb -> va / 4096 = vb / 4096 -> uok m pgdir va = uok m pgdir vb /\
  upage m pgdir va = upage m pgdir vb.
Proof. intros Ha Hb He. unfold uok, upage. by rewrite (pte_of_page m pgdir vb va). Qed.

(** The bytes [n] that one turn copies into the page of [va]. *)
Lemma copy_page m pgdir l va buf n :
  pt_wf kend m pgdir l -> user_map m pgdir -> 0 <= va -> 0 < n <= 4096 - va mod 4096 ->
  va + n <= KERNBASE -> uok m pgdir va = true ->
  let m' := StringC.memmove m (upage m pgdir va + va mod 4096) buf n in
  same_tables m m' pgdir /\
  (forall b, ~ in_page (upage m pgdir va) b -> rd m' b = rd m b) /\
  forall vb, 0 <= vb < KERNBASE -> uok m pgdir vb = true ->
    ubyte m' pgdir vb = if decide (va <= vb < va + n) then rd m (buf + (vb - va)) else ubyte m pgdir vb.
Proof.
  intros Hwf Hum Hva Hn Hk Hu m'. pose proof (Z.mod_pos_bound va 4096) as Mv.
  pose proof (Z.div_mod va 4096) as Dv.
  assert (Hout : forall b, ~ in_page (upage m pgdir va) b -> rd m' b = rd m b).
  { intros b Hb. unfold m'. rewrite StringC.rd_memmove by lia. rewrite decide_False; [done|].
    unfold in_page, PGSIZE in Hb. lia. }
  assert (Hs : same_tables m m' pgdir) by (eapply write_user; eauto; lia).
  split_and!; [done|done|]. intros vb Hb Hub. unfold ubyte at 1. rewrite (same_upage _ _ _ Hs).
  pose proof (Z.mod_pos_bound vb 4096) as Mb. pose proof (Z.div_mod vb 4096) as Db.
  destruct (decide (vb / 4096 = va / 4096)) as [He|He].
  - assert (Hup : upage m pgdir vb = upage m pgdir va).
    { unfold KERNBASE in *. apply uok_page; [split; lia..|done]. }
    unfold m', ubyte. rewrite Hup, StringC.rd_memmove by lia.
    destruct (decide (va <= vb < va + n)).
    + rewrite decide_True by lia. f_equal. lia.
    + rewrite decide_False by lia. done.
  - rewrite decide_False by lia. unfold ubyte. apply Hout. intros Hin. apply He.
    destruct (us_page _ _ Hum va ltac:(lia) Hu) as (A & _).
    destruct (us_page _ _ Hum vb Hb Hub) as (B & _).
    apply (us_inj _ _ Hum); auto; [lia|]. destruct (decide (upage m pgdir vb = upage m pgdir va)); [done|].
    exfalso. revert Hin. apply (in_other_page kend (upage m pgdir vb)); auto. unfold in_page, PGSIZE. lia.
Qed.

(** The source of the copy lies outside the user's pages. *)
Definition source_apart (m : mem) (pgdir buf len : Z) : Prop :=
  forall vb i, 0 <= vb < KERNBASE -> uok m pgdir vb = true -> 0 <= i < len ->
    ~ in_page (upage m pgdir vb) (buf + i).

Lemma page_uok m pgdir va vb n :
  0 <= va -> va + n <= KERNBASE -> n <= 4096 - va mod 4096 -> uok m pgdir va = true ->
  va <= vb < va + n -> uok m pgdir vb = true.
Proof.
  intros Hva Hk Hpg Hu Hvb. pose proof (Z.mod_pos_bound va 4096) as Mv. pose proof (Z.div_mod va 4096) as Dv.
  rewrite <- Hu. apply uok_page; [unfold is_u32, KERNBASE in *; lia..|].
  symmetry. apply Z.div_unique with (vb - va + va mod 4096); lia.
Qed.

Lemma first_bad_cons m m1 pgdir va len n vb :
  0 < n <= len -> 0 <= va -> va + len <= KERNBASE -> n <= 4096 - va mod 4096 ->
  same_tables m m1 pgdir -> uok m pgdir va = true ->
  first_bad m1 pgdir (va + n) (len - n) vb -> first_bad m pgdir va len vb.
Proof.
  intros Hn Hva Hk Hpg Hs Hu (Hvb & Hf & Ha). split_and!; [lia|lia|by rewrite <- (same_uok _ _ _ Hs)|].
  intros vc Hvc. destruct (decide (vc < va + n)).
  - apply (page_uok _ _ va _ n); auto; lia.
  - rewrite <- (same_uok _ _ _ Hs). apply Ha. lia.
Qed.

Lemma copied_cons m m1 m2 pgdir va buf len n r :
  0 < n <= len -> 0 <= va -> va + len <= KERNBASE -> n <= 4096 - va mod 4096 ->
  n = 4096 - va mod 4096 \/ n = len ->
  same_tables m m1 pgdir -> uok m pgdir va = true -> source_apart m pgdir buf len ->
  (forall b, ~ in_page (upage m pgdir va) b -> rd m1 b = rd m b) ->
  (forall vb, 0 <= vb < KERNBASE -> uok m pgdir vb = true ->
    ubyte m1 pgdir vb = if decide (va <= vb < va + n) then rd m (buf + (vb - va)) else ubyte m pgdir vb) ->
  copied m1 m2 pgdir (va + n) (buf + n) (len - n) r -> copied m m2 pgdir va buf len r.
Proof.
  intros Hn Hva Hk Hpg Hend Hs1 Hu Hsrc Hout Hb1 [Hs2 Hr]. split; [by eapply same_tables_trans|].
  destruct Hr as [(-> & Ha & Hb2)|(-> & vb & Hvb & Hf)].
  - left. split_and!; [done| |].
    + intros vb Hvb. destruct (decide (vb < va + n)).
      * apply (page_uok _ _ va _ n); auto; lia.
      * rewrite <- (same_uok _ _ _ Hs1). apply Ha. lia.
    + intros vb Hvb Hub. rewrite Hb2 by (done || by rewrite (same_uok _ _ _ Hs1)).
      destruct (decide (va + n <= vb < va + n + (len - n))).
      * rewrite decide_True by lia. rewrite Hout; [f_equal; lia|].
        replace (buf + n + (vb - (va + n))) with (buf + (vb - va)) by lia. apply Hsrc; auto; lia.
      * rewrite Hb1 by done. destruct (decide (va <= vb < va + n)).
        -- by rewrite decide_True by lia.
        -- by rewrite decide_False by lia.
  - right. split; [done|]. exists vb. split; [by eapply first_bad_cons|].
    by rewrite <- (st_pde _ _ _ Hs1) by apply PDX_bound.
Qed.

Lemma wp_copyout_loop fuel pgdir va va' buf len s l :
  pt_wf kend (km s) pgdir l -> user_map (km s) pgdir ->
  0 <= va -> 0 <= len -> va + len <= KERNBASE -> (0 < len -> va' = va) ->
  source_apart (km s) pgdir buf len -> (0 < len -> len + va mod 4096 <= 4096 * Z.of_nat fuel) ->
  ends (copyout_loop fuel pgdir va' buf len) (fun r s' => copied (km s) (km s') pgdir va buf len r)
    (no_table (km s) pgdir va len) s.
Proof.
  revert va va' buf len s. induction fuel as [|fuel IH]; intros va va' buf len s Hwf Hum Hva Hlen Hk He Hsrc Hf.
  all: pose proof (Z.mod_pos_bound va 4096) as Mv; pose proof (Z.div_mod va 4096) as Dv.
  all: cbn [copyout_loop]; destruct (Z.ltb_spec 0 len) as [Hl|Hl]; [|split; [done|]; left;
    split_and!; [done|intros; lia|intros; by rewrite decide_False by lia]].
  - specialize (Hf Hl). lia.
  - specialize (Hf Hl). rewrite He by done. clear va' He. rewrite PGROUNDDOWN_eq. unfold KERNBASE in Hk.
    set (va0 := va - va mod 4096). assert (Hu32 : is_u32 va /\ is_u32 va0) by (unfold is_u32; lia).
    destruct Hu32 as [Hu1 Hu2]. pose proof (page_start va) as Hps. fold va0 in Hps.
    destruct (uok_page (km s) pgdir va0 va Hu2 Hu1 Hps) as [E1 E2].
    apply same_indices in Hps as [Hd Ht]; [|done..].
    assert (Hbad : uok (km s) pgdir va = false -> first_bad (km s) pgdir va len va).
    { intros Hu. split_and!; [lia|lia|done|lia]. }
    destruct (present (pde (km s) pgdir (PDX va))) eqn:Hpv.
    2:{ unfold ends, bind. rewrite uva2ka_null by (by rewrite Hd). exists va. split; [|done]. apply Hbad.
        unfold uok, pte_of. by rewrite Hpv. }
    apply ends_bind, wp_uva2ka; rewrite ?Hd; [done|apply (pt_tab _ _ _ _ Hwf); [apply PDX_bound|done]|].
    rewrite E1, E2. destruct (uok (km s) pgdir va) eqn:Eu.
    + destruct (us_page _ _ Hum va ltac:(unfold KERNBASE; lia) Eu) as ([A _ _ _] & _).
      rewrite (proj2 (Z.eqb_neq _ _)) by lia. apply ends_bind, wp_modify.
      replace (va - va0) with (va mod 4096) by lia. unfold PGSIZE.
      set (n := Z.min (4096 - va mod 4096) len).
      assert (Hn : 0 < n <= 4096 - va mod 4096) by lia.
      destruct (copy_page (km s) pgdir l va buf n Hwf Hum Hva Hn ltac:(unfold KERNBASE; lia) Eu)
        as (S1 & S2 & S3).
      eapply ends_mono; [apply (IH (va + n) _ (buf + n) (len - n)); cbn [km set_km]|..].
      * eapply same_pt_wf; eauto.
      * eapply same_user_map; eauto.
      * lia.
      * lia.
      * unfold KERNBASE. lia.
      * intros Hr. unfold u32. rewrite (Z.mod_small (va0 + 4096)) by lia. lia.
      * intros vb i Hvb. rewrite (same_uok _ _ _ S1), (same_upage _ _ _ S1). intros Hub Hi.
        replace (buf + n + i) with (buf + (n + i)) by lia. apply Hsrc; auto. lia.
      * intros Hr. replace (va + n) with ((va / 4096 + 1) * 4096) by lia. rewrite Z.mod_mul by lia. lia.
      * intros r s' Hc. unfold KERNBASE in *.
        apply (copied_cons (km s) _ (km s') pgdir va buf len n r ltac:(lia) Hva
          ltac:(unfold KERNBASE; lia) ltac:(lia) ltac:(lia) S1 Eu Hsrc S2 S3 Hc).
      * intros (vb & Hb & Hnp). cbn [km set_km] in Hb, Hnp. exists vb. split.
        -- by apply (first_bad_cons (km s) _ pgdir va len n vb ltac:(lia) Hva ltac:(unfold KERNBASE; lia)
             ltac:(lia) S1 Eu).
        -- by rewrite <- (st_pde _ _ _ S1) by apply PDX_bound.
    + split; [done|]. right. split; [done|]. exists va. auto.
Qed.

(** C10. copyout() to a range of user addresses, whatever the page table: it returns 0 exactly
    when the user may access every page of the range; then the user sees the copied bytes in the
    range and its old bytes everywhere else. Otherwise the first address of the range that the
    user may not access decides: copyout() returns -1 when that address has a page table, and
    follows a null pointer when it has none, as uva2ka() does not test what walkpgdir() returns.
    The translation of addresses does not change. *)
Theorem copyout_correct s l pgdir va buf len :
  pt_wf kend (km s) pgdir l -> user_map (km s) pgdir ->
  0 <= va -> 0 <= len -> va + len <= KERNBASE -> source_apart (km s) pgdir buf len ->
  match copyout pgdir va buf len s with
  | Ret r s' =>
      (r = 0 \/ r = -1) /\
      (r = 0 <-> forall vb, va <= vb < va + len -> uok (km s) pgdir vb = true) /\
      (forall vb, uok (km s') pgdir vb = uok (km s) pgdir vb /\
                  upage (km s') pgdir vb = upage (km s) pgdir vb) /\
      (r = 0 -> forall vb, 0 <= vb < KERNBASE -> uok (km s) pgdir vb = true ->
         ubyte (km s') pgdir vb = if decide (va <= vb < va + len) then rd (km s) (buf + (vb - va))
                                  else ubyte (km s) pgdir vb) /\
      (r = -1 -> exists vb, first_bad (km s) pgdir va len vb /\ present (pde (km s) pgdir (PDX vb)) = true)
  | Panic _ => exists vb, first_bad (km s) pgdir va len vb /\ present (pde (km s) pgdir (PDX vb)) = false
  | _ => False
  end.
Proof.
  intros Hwf Hum Hva Hlen Hk Hsrc. unfold copyout.
  pose proof (wp_copyout_loop (S (S (Z.to_nat (len / PGSIZE)))) pgdir va va buf len s l Hwf Hum Hva Hlen Hk
    (fun _ => eq_refl) Hsrc) as Hw. unfold ends in Hw.
  assert (Hfuel : 0 < len -> len + va mod 4096 <= 4096 * Z.of_nat (S (S (Z.to_nat (len / PGSIZE))))).
  { intros _. pose proof (Z.mod_pos_bound va 4096). pose proof (Z.div_mod len 4096).
    pose proof (Z.mod_pos_bound len 4096). assert (0 <= len / 4096) by (apply Z.div_pos; lia).
    unfold PGSIZE. lia. }
  specialize (Hw Hfuel). destruct (copyout_loop _ _ _ _ _ _) as [r s'| | |]; try done.
  destruct Hw as [Hs Hr]. split_and!.
  - destruct Hr as [[-> _]|[-> _]]; auto.
  - destruct Hr as [(-> & Ha & _)|(-> & vb & (Hvb & Hf & _) & _)]; [done|]. split; [done|].
    intros Ha. rewrite Ha in Hf by done. done.
  - intros vb. split; [by apply same_uok|by apply same_upage].
  - intros ->. destruct Hr as [(_ & _ & Hb)|[? _]]; [done|lia].
  - intros ->. destruct Hr as [[? _]|[_ Hb]]; [lia|done].
Qed.
End UserMem.

(** *** A small address space *)

(** Four pages: the directory, a page table, a user page at address 4096, and a free page. *)
Definition demo_page (i : Z) : Z := KERNBASE + 0x201000 + PGSIZE * i.
Definition demo_pt : mem :=
  wr32 (wr32 ∅ (demo_page 0 + 4 * 0) (V2P (demo_page 1) + 7)) (demo_page 1 + 4 * 1)
    (V2P (demo_page 2) + 7).

Lemma demo_page_ok i : 0 <= i < 4 -> page_ok demo_end (demo_page i).
Proof.
  intros Hi. assert (i = 0 \/ i = 1 \/ i = 2 \/ i = 3) as [->|[->|[->| ->]]] by lia;
    (split; [vm_compute; split; (discriminate || reflexivity)|vm_compute; reflexivity|
      vm_compute; discriminate|vm_compute; reflexivity]).
Qed.

Lemma rd32_empty a : rd32 ∅ a = 0.
Proof. unfold rd32. cbn [rd_bytes]. by rewrite !rd_empty. Qed.

Lemma demo_pde i : 0 <= i < 1024 ->
  pde demo_pt (demo_page 0) i = if decide (i = 0) then V2P (demo_page 1) + 7 else 0.
Proof.
  intros Hi. unfold pde, demo_pt.
  rewrite (rd32_store_other demo_end) by (try apply demo_page_ok; try lia; left; by vm_compute).
  case_decide as H0; [subst; vm_compute; reflexivity|].
  rewrite (rd32_store_other demo_end) by (try apply demo_page_ok; lia). apply rd32_empty.
Qed.

Lemma demo_tab i : 0 <= i < 1024 -> present (pde demo_pt (demo_page 0) i) = true ->
  i = 0 /\ tab demo_pt (demo_page 0) i = demo_page 1.
Proof.
  intros Hi. rewrite demo_pde by done. case_decide as H0; [|done]. intros _. split; [done|].
  unfold tab. rewrite demo_pde, decide_True by done. vm_compute. reflexivity.
Qed.

Lemma demo_pt_wf : pt_wf demo_end demo_pt (demo_page 0) [demo_page 3].
Proof.
  split.
  - by apply demo_page_ok.
  - intros H%list_elem_of_singleton. by vm_compute in H.
  - intros i Hi Hp. destruct (demo_tab i Hi Hp) as [_ ->].
    split_and!; [by apply demo_page_ok| |by vm_compute].
    intros H%list_elem_of_singleton. by vm_compute in H.
  - intros i j Hi Hj Pi Pj _. destruct (demo_tab i Hi Pi), (demo_tab j Hj Pj). congruence.
Qed.

Lemma demo_pte va : 0 <= va < KERNBASE -> uok demo_pt (demo_page 0) va = true ->
  va / 4096 = 1 /\ upage demo_pt (demo_page 0) va = demo_page 2.
Proof.
  intros Hv. assert (Hu : is_u32 va) by (unfold is_u32, KERNBASE in *; lia).
  pose proof (PDX_PTX va Hu) as Hd. pose proof (PTX_bound va) as Ht.
  assert (Hp : pte_of demo_pt (demo_page 0) va =
    if decide (va / 4096 = 1) then V2P (demo_page 2) + 7 else 0).
  { unfold pte_of. destruct (present _) eqn:Ep.
    - destruct (demo_tab _ (PDX_bound va) Ep) as [H0 ->]. unfold demo_pt.
      case_decide as He; [replace (PTX va) with 1 by lia; vm_compute; reflexivity|].
      rewrite (rd32_store_other demo_end) by (try apply demo_page_ok; lia).
      rewrite (rd32_store_other demo_end) by (try apply demo_page_ok; try lia; left; by vm_compute).
      apply rd32_empty.
    - case_decide as He; [|done]. assert (H0 : PDX va = 0) by lia. rewrite H0 in Ep. by vm_compute in Ep. }
  unfold uok, upage. rewrite Hp. case_decide; [|done]. intros _. split; [done|]. vm_compute. reflexivity.
Qed.

Lemma demo_user_map : user_map demo_end demo_pt (demo_page 0).
Proof.
  split.
  - intros va Hv Hu. destruct (demo_pte va Hv Hu) as [_ ->].
    split_and!; [by apply demo_page_ok|by vm_compute|].
    intros i Hi Hp. destruct (demo_tab i Hi Hp) as [_ ->]. by vm_compute.
  - intros va vb Hv Hb Hu1 Hu2 _. destruct (demo_pte va Hv Hu1), (demo_pte vb Hb Hu2). congruence.
Qed.

(** The state of the allocator with these pages. *)
Definition demo_kst : kst := mkKst demo_pt false 1 (demo_page 3).

Lemma demo_kinv : kinv demo_end demo_kst [demo_page 3].
Proof.
  split; [vm_compute; split; reflexivity|apply Forall_singleton, demo_page_ok; lia|
    apply NoDup_singleton|reflexivity].
Qed.

(** A range inside the user page, and one that runs on into addresses without a page table. *)
Lemma copyout_correct_witness :
  let post := fun va len =>
    match copyout (demo_page 0) va (KERNBASE + 0x100) len demo_kst with
    | Ret r s' =>
        (r = 0 \/ r = -1) /\
        (r = 0 <-> forall vb, va <= vb < va + len -> uok demo_pt (demo_page 0) vb = true) /\
        (forall vb, uok (km s') (demo_page 0) vb = uok demo_pt (demo_page 0) vb /\
                    upage (km s') (demo_page 0) vb = upage demo_pt (demo_page 0) vb) /\
        (r = 0 -> forall vb, 0 <= vb < KERNBASE -> uok demo_pt (demo_page 0) vb = true ->
           ubyte (km s') (demo_page 0) vb =
             if decide (va <= vb < va + len) then rd demo_pt (KERNBASE + 0x100 + (vb - va))
             else ubyte demo_pt (demo_page 0) vb) /\
        (r = -1 -> exists vb, first_bad demo_pt (demo_page 0) va len vb /\
           present (pde demo_pt (demo_page 0) (PDX vb)) = true)
    | Panic _ => exists vb, first_bad demo_pt (demo_page 0) va len vb /\
        present (pde demo_pt (demo_page 0) (PDX vb)) = false
    | _ => False
    end in
  post 4100 20 /\ post (2 ^ 22) 20.
Proof.
  assert (Hsrc : source_apart demo_pt (demo_page 0) (KERNBASE + 0x100) 20).
  { intros vb i Hvb Hu Hi. destruct (demo_pte vb Hvb Hu) as [_ E]. rewrite E.
    unfold in_page, demo_page, KERNBASE, PGSIZE. lia. }
  split; apply (copyout_correct demo_end demo_kst [demo_page 3]);
    (exact demo_pt_wf || exact demo_user_map || exact Hsrc || lia || (vm_compute; discriminate)).
Defined.

(** Mapping a page at address 2^22, for which there is no page table yet. *)
Lemma mappages_correct_witness :
  let va := 2 ^ 22 in let size := 100 in let perm := Z.lor PTE_W PTE_U in
  let a := va - va mod 4096 in
  let n := (va + size - 1) / 4096 - va / 4096 + 1 in
  wp (mappages (demo_page 0) va size 0x5000 perm) (fun r s' =>
    exists j ts l', [demo_page 3] = ts ++ l' /\ kinv demo_end s' l' /\
      pt_wf demo_end (km s') (demo_page 0) l' /\
      (forall vb, is_u32 vb ->
         if decide (a <= vb < a + PGSIZE * j)
         then present (pte_of (km s') (demo_page 0) vb) = true /\
              PTE_ADDR (pte_of (km s') (demo_page 0) vb) = 0x5000 + PGSIZE * ((vb - a) / PGSIZE) /\
              PTE_FLAGS (pte_of (km s') (demo_page 0) vb) = Z.lor perm PTE_P
         else pte_of (km s') (demo_page 0) vb = pte_of demo_pt (demo_page 0) vb) /\
      ((r = 0 /\ j = n) \/ (r = -1 /\ 0 <= j < n /\ l' = []))) demo_kst.
Proof.
  intros va size perm a n.
  apply (mappages_correct demo_end demo_kst [demo_page 3]);
    [exact demo_kinv|exact demo_pt_wf|vm_compute; (discriminate || reflexivity)..| |].
  - vm_compute. split; (discriminate || reflexivity).
  - intros vb Hvb. assert (Hr : 4194304 <= vb < 4198400) by exact Hvb. clear Hvb. unfold pte_of.
    rewrite PDX_eq by (split; lia).
    replace (vb / 2 ^ 22) with 1 by (apply Z.div_unique with (vb - 4194304); lia).
    change (km demo_kst) with demo_pt. rewrite demo_pde by lia. reflexivity.
Defined.
