(* ===== verification/Mp.v ===== *)
(** mp.c and mp.h: the search for the tables in which the firmware describes the processors,
    and their interpretation. *)

From S2P Require Export StringC Param Mmu.

Open Scope Z_scope.
Open Scope kernel_scope.

(** *** mp.h: struct mp, struct mpconf and the entries of the table *)

Definition sizeof_mp : Z := 16.
Definition mp_physaddr : Z := 4.
Definition mp_imcrp : Z := 12.

Definition sizeof_mpconf : Z := 44.
Definition mpconf_length : Z := 4.
Definition mpconf_version : Z := 6.
Definition mpconf_lapicaddr : Z := 36.

Definition sizeof_mpproc : Z := 20.
Definition sizeof_mpioapic : Z := 8.

Definition MPPROC : Z := 0x00.
Definition MPBUS : Z := 0x01.
Definition MPIOAPIC : Z := 0x02.
Definition MPIOINTR : Z := 0x03.
Definition MPLINTR : Z := 0x04.

(** The variables that mpinit() sets, the apicid fields of cpus[], and the ports it writes. *)
Record mpst := mkMpst {
  ismp : Z;
  ncpu : Z;
  ioapicid : Z;
  mp_lapic : Z;
  apicids : list Z;
  mp_out : list (Z * Z);
}.

Definition set_ismp (v : Z) (s : mpst) : mpst :=
  mkMpst v (ncpu s) (ioapicid s) (mp_lapic s) (apicids s) (mp_out s).
Definition set_ncpu (v : Z) (s : mpst) : mpst :=
  mkMpst (ismp s) v (ioapicid s) (mp_lapic s) (apicids s) (mp_out s).
Definition set_ioapicid (v : Z) (s : mpst) : mpst :=
  mkMpst (ismp s) (ncpu s) v (mp_lapic s) (apicids s) (mp_out s).
Definition set_lapic (v : Z) (s : mpst) : mpst :=
  mkMpst (ismp s) (ncpu s) (ioapicid s) v (apicids s) (mp_out s).
Definition set_apicid (i v : Z) (s : mpst) : mpst :=
  mkMpst (ismp s) (ncpu s) (ioapicid s) (mp_lapic s) (<[Z.to_nat i := v]> (apicids s)) (mp_out s).
Definition outb (port v : Z) (s : mpst) : mpst :=
  mkMpst (ismp s) (ncpu s) (ioapicid s) (mp_lapic s) (apicids s) (mp_out s ++ [(port, v)]).

Section Mp.
(** The string literals "_MP_" and "PCMP", and the ports. *)
Context (str_mp str_pcmp : Z) (inb : Z -> Z).
Implicit Types m : mem.

Fixpoint sum_loop (n : nat) m (addr acc : Z) : Z :=
  match n with
  | O => acc
  | S n' => sum_loop n' m (addr + 1) (acc + rd m addr)
  end.
(** sum(addr, len) *)
Definition sum m (addr len : Z) : Z := u8 (sum_loop (Z.to_nat len) m addr 0).

(** The loop of mpsearch1(), for at most [fuel] structures; 0 is the null pointer. *)
Fixpoint mpsearch1_loop (fuel : nat) m (p e : Z) : Z :=
  match fuel with
  | O => 0
  | S f =>
      if p <? e then
        if (StringC.memcmp m p str_mp 4 =? 0) && (sum m p sizeof_mp =? 0) then p
        else mpsearch1_loop f m (p + sizeof_mp) e
      else 0
  end.
Definition mpsearch1 m (a len : Z) : Z :=
  let addr := P2V a in
  mpsearch1_loop (Z.to_nat (len / sizeof_mp + 1)) m addr (addr + len).

Definition mpsearch m : Z :=
  let bda := P2V 0x400 in
  let p := u32 (Z.shiftl (Z.lor (Z.shiftl (rd m (bda + 0x0F)) 8) (rd m (bda + 0x0E))) 4) in
  let mp :=
    if negb (p =? 0) then mpsearch1 m p 1024
    else mpsearch1 m
           (u32 (u32 (Z.lor (Z.shiftl (rd m (bda + 0x14)) 8) (rd m (bda + 0x13)) * 1024) - 1024)) 1024 in
  if negb (mp =? 0) then mp else mpsearch1 m 0xF0000 0x10000.

(** mpconfig(): the configuration table and the structure that points to it. *)
Definition mpconfig m : option (Z * Z) :=
  let mp := mpsearch m in
  if (mp =? 0) || (rd32 m (mp + mp_physaddr) =? 0) then None else
  let conf := P2V (rd32 m (mp + mp_physaddr)) in
  let version := rd m (conf + mpconf_version) in
  if negb (StringC.memcmp m conf str_pcmp 4 =? 0) then None
  else if negb (version =? 1) && negb (version =? 4) then None
  else if negb (sum m conf (le_val (rd_bytes m (conf + mpconf_length) 2)) =? 0) then None
  else Some (mp, conf).

(** The loop of mpinit() over the entries. The [break] of the default case leaves the switch,
    not the loop. *)
Fixpoint mpinit_loop (fuel : nat) m (p e : Z) : M mpst unit :=
  if p <? e then
    match fuel with
    | O => diverge
    | S f =>
        let type := rd m p in
        if type =? MPPROC then
          n <- gets ncpu ;;
          when (n <? NCPU) (modify (set_apicid n (rd m (p + 1))) ;; modify (set_ncpu (n + 1))) ;;
          mpinit_loop f m (p + sizeof_mpproc) e
        else if type =? MPIOAPIC then
          modify (set_ioapicid (rd m (p + 1))) ;;
          mpinit_loop f m (p + sizeof_mpioapic) e
        else if (type =? MPBUS) || (type =? MPIOINTR) || (type =? MPLINTR) then
          mpinit_loop f m (p + 8) e
        else
          modify (set_ismp 0) ;;
          mpinit_loop f m p e
    end
  else ret tt.

(** mpinit() *)
Definition mpinit (fuel : nat) m : M mpst unit :=
  match mpconfig m with
  | None => ret tt
  | Some (mp, conf) =>
      modify (set_ismp 1) ;;
      modify (set_lapic (rd32 m (conf + mpconf_lapicaddr))) ;;
      mpinit_loop fuel m (conf + sizeof_mpconf)
        (conf + le_val (rd_bytes m (conf + mpconf_length) 2)) ;;
      ok <- gets ismp ;;
      if ok =? 0 then
        modify (set_ncpu 1) ;; modify (set_lapic 0) ;; modify (set_ioapicid 0)
      else
        when (negb (rd m (mp + mp_imcrp) =? 0))
          (modify (outb 0x22 0x70) ;; modify (outb 0x23 (Z.lor (inb 0x23) 1)))
  end.
End Mp.

(** ** What mp.c finds: the structures that the search accepts, the processors that a table names,
    and a table on which mpinit() does not end. *)

(** *** The table *)

(** An entry of the table: its kind, and the bytes after the ones that are read. *)
Inductive mpentry : Type :=
| EProc (apicid : Z) (rest : list Z)
| EIoapic (apicno : Z) (rest : list Z)
| ESkip (type : Z) (rest : list Z).

Definition entry_bytes (e : mpentry) : list Z :=
  match e with
  | EProc a r => MPPROC :: a :: r
  | EIoapic a r => MPIOAPIC :: a :: r
  | ESkip t r => t :: r
  end.
Definition entry_ok (e : mpentry) : Prop :=
  match e with
  | EProc _ r => length r = 18%nat
  | EIoapic _ r => length r = 6%nat
  | ESkip t r => length r = 7%nat /\ (t = MPBUS \/ t = MPIOINTR \/ t = MPLINTR)
  end.
Definition table_bytes (es : list mpentry) : list Z := concat (entry_bytes <$> es).

(** What the table says: the processors, in order, and the last I/O APIC. *)
Definition procs (es : list mpentry) : list Z :=
  omap (fun e => match e with EProc a _ => Some a | _ => None end) es.
Definition last_ioapic (es : list mpentry) (d : Z) : Z :=
  foldl (fun x e => match e with EIoapic a _ => a | _ => x end) d es.

Lemma entry_length e : entry_ok e ->
  Z.of_nat (length (entry_bytes e)) = match e with EProc _ _ => sizeof_mpproc | _ => 8 end.
Proof. destruct e; simpl; unfold sizeof_mpproc; lia. Qed.

Lemma rd_bytes_app m a n1 n2 :
  rd_bytes m a (n1 + n2) = rd_bytes m a n1 ++ rd_bytes m (a + Z.of_nat n1) n2.
Proof.
  revert a. induction n1 as [|n1 IH]; intros a; cbn [Nat.add rd_bytes app].
  - f_equal. lia.
  - rewrite IH. do 3 f_equal. lia.
Qed.

Lemma rd_bytes_cut m p l1 l2 :
  rd_bytes m p (length (l1 ++ l2)) = l1 ++ l2 ->
  rd_bytes m p (length l1) = l1 /\ rd_bytes m (p + Z.of_nat (length l1)) (length l2) = l2.
Proof.
  rewrite length_app, rd_bytes_app. intros H. apply app_inj_1 in H; [done|]. apply length_rd_bytes.
Qed.

(** What the loop makes of a state. *)
Definition add_proc (s : mpst) (a : Z) : mpst :=
  if ncpu s <? NCPU then set_ncpu (ncpu s + 1) (set_apicid (ncpu s) a s) else s.
Definition enter (s : mpst) (e : mpentry) : mpst :=
  match e with EProc a _ => add_proc s a | EIoapic a _ => set_ioapicid a s | ESkip _ _ => s end.

(** The loop on a stretch of well-formed entries. *)
Lemma mpinit_loop_entries fuel m p e es s :
  Forall entry_ok es -> rd_bytes m p (length (table_bytes es)) = table_bytes es ->
  p + Z.of_nat (length (table_bytes es)) <= e ->
  mpinit_loop (length es + fuel) m p e s =
    mpinit_loop fuel m (p + Z.of_nat (length (table_bytes es))) e (foldl enter s es).
Proof.
  intros Hok. revert p s. induction Hok as [|x es Hx _ IH]; intros p s Hm He.
  - simpl. by rewrite Z.add_0_r.
  - unfold table_bytes in *. rewrite fmap_cons in *. cbn [concat] in *.
    apply rd_bytes_cut in Hm as [Hm1 Hm2]. pose proof (entry_length x Hx) as Hl.
    rewrite length_app, Nat2Z.inj_add, Hl in He. rewrite Hl in Hm2.
    rewrite length_app, Nat2Z.inj_add, Hl, Z.add_assoc. cbn [length Nat.add foldl].
    rewrite <- (IH _ (enter s x) Hm2) by (destruct x; unfold sizeof_mpproc in *; lia).
    cbn [mpinit_loop]. rewrite (proj2 (Z.ltb_lt p e)) by (destruct x; unfold sizeof_mpproc in *; lia).
    destruct x as [a r|a r|t r]; cbn [entry_bytes length rd_bytes] in Hm1.
    + injection Hm1 as H1 H2 _. rewrite H1, H2. unfold bind, gets, when, modify, ret, enter, add_proc.
      cbn. by destruct (ncpu s <? NCPU).
    + injection Hm1 as H1 H2 _. rewrite H1, H2. done.
    + injection Hm1 as H1 _. rewrite H1. by destruct Hx as [_ [->|[->| ->]]].
Qed.

(** The processors that the loop records, from [ncpu s] on. *)
Lemma enter_procs es s :
  0 <= ncpu s <= NCPU -> length (apicids s) = Z.to_nat NCPU ->
  let s' := foldl enter s es in
  ncpu s' = Z.min NCPU (ncpu s + Z.of_nat (length (procs es))) /\
  length (apicids s') = Z.to_nat NCPU /\
  take (Z.to_nat (ncpu s')) (apicids s') =
    take (Z.to_nat NCPU) (take (Z.to_nat (ncpu s)) (apicids s) ++ procs es) /\
  ioapicid s' = last_ioapic es (ioapicid s) /\
  ismp s' = ismp s /\ mp_lapic s' = mp_lapic s /\ mp_out s' = mp_out s.
Proof.
  revert s. induction es as [|e es IH]; intros s Hn Hl; cbn [foldl].
  - cbn. split_and!; try done; [lia|]. rewrite app_nil_r, take_take. f_equal. lia.
  - destruct e as [a r|a r|t r]; cbn [enter].
    + change (procs (EProc a r :: es)) with (a :: procs es). unfold add_proc. destruct (Z.ltb_spec (ncpu s) NCPU) as [Hlt|Hge].
      * set (s1 := set_ncpu _ _). destruct (IH s1) as (H1 & H2 & H3 & H4); [subst s1; simpl; lia|
          subst s1; simpl; by rewrite length_insert|].
        split_and!; [|done| |by apply H4..].
        -- rewrite H1. subst s1. cbn [ncpu set_ncpu length]. lia.
        -- rewrite H3. subst s1. cbn [ncpu apicids set_ncpu set_apicid].
           rewrite Z2Nat.inj_add by lia. rewrite Nat.add_comm. change (Z.to_nat 1) with 1%nat.
           rewrite (take_S_r _ _ a) by (apply list_lookup_insert_eq; lia).
           rewrite take_insert_ge, <- app_assoc by lia. done.
      * assert (Hn' : ncpu s = NCPU) by lia. destruct (IH s Hn Hl) as (H1 & H2 & H3 & H4).
        split_and!; [|done| |by apply H4..].
        -- rewrite H1. cbn [length]. lia.
        -- rewrite H3, Hn'. rewrite !take_app, !take_take, length_take, Hl, Nat.min_id, Nat.sub_diag. done.
    + destruct (IH (set_ioapicid a s) Hn Hl) as (H1 & H2 & H3 & H4). split_and!; try done; by apply H4.
    + destruct (IH s Hn Hl) as (H1 & H2 & H3 & H4). split_and!; try done; by apply H4.
Qed.

(** The loop stays at an entry of another type. *)
Lemma mpinit_loop_unknown fuel m p e s : 4 < rd m p -> p < e -> mpinit_loop fuel m p e s = Diverge.
Proof.
  intros Ht He. revert s. induction fuel as [|f IH]; intros s; cbn [mpinit_loop];
    rewrite (proj2 (Z.ltb_lt p e)) by done; [done|].
  unfold MPPROC, MPIOAPIC, MPBUS, MPIOINTR, MPLINTR. rewrite !(proj2 (Z.eqb_neq (rd m p) _)) by lia.
  cbn. apply IH.
Qed.

(** Too little fuel for the entries. *)
Lemma mpinit_loop_short fuel m p e es s :
  Forall entry_ok es -> rd_bytes m p (length (table_bytes es)) = table_bytes es ->
  p + Z.of_nat (length (table_bytes es)) <= e -> (fuel < length es)%nat ->
  mpinit_loop fuel m p e s = Diverge.
Proof.
  intros Hok Hm He Hf. rewrite <- (take_drop fuel es) in Hok, Hm, He.
  apply Forall_app in Hok as [Hok1 Hok2]. unfold table_bytes in *.
  rewrite fmap_app, concat_app in Hm, He. pose proof Hm as [Hm1 _]%rd_bytes_cut.
  rewrite length_app, Nat2Z.inj_add in He.
  assert (Hpos : 0 < Z.of_nat (length (concat (entry_bytes <$> drop fuel es)))).
  { destruct (drop fuel es) as [|x l] eqn:E; [apply (f_equal length) in E; rewrite length_drop in E; simpl in E; lia|].
    rewrite fmap_cons. cbn [concat]. rewrite length_app. destruct x; simpl; lia. }
  replace fuel with (length (take fuel es) + 0)%nat at 1 by (rewrite length_take; lia).
  rewrite mpinit_loop_entries by (done || (unfold table_bytes; lia)).
  unfold table_bytes. cbn [mpinit_loop]. by rewrite (proj2 (Z.ltb_lt _ _)) by lia.
Qed.

Section Mpinit.
Context (str_mp str_pcmp : Z) (inb : Z -> Z).

(** The table at [conf] begins with the entries [es]; [len] bytes of it are left after them. *)
Record mptable (m : mem) (conf : Z) (es : list mpentry) (len : Z) : Prop := mkMptable {
  mt_ok : Forall entry_ok es;
  mt_bytes : rd_bytes m (conf + sizeof_mpconf) (length (table_bytes es)) = table_bytes es;
  mt_length : le_val (rd_bytes m (conf + mpconf_length) 2)
    = sizeof_mpconf + Z.of_nat (length (table_bytes es)) + len;
}.

(** When the search has found a configuration table of well-formed entries, mpinit() ends, and
    records the first NCPU processors of the table in cpus[], their number, the address of the
    local APIC and the last I/O APIC; [fuel] only has to be the number of entries. *)
Lemma mpinit_table m mp conf es fuel s :
  mpconfig str_mp str_pcmp m = Some (mp, conf) -> mptable m conf es 0 -> (length es <= fuel)%nat ->
  ncpu s = 0 -> length (apicids s) = Z.to_nat NCPU ->
  exists s', mpinit str_mp str_pcmp inb fuel m s = Ret tt s' /\
    ismp s' = 1 /\ ncpu s' = Z.min NCPU (Z.of_nat (length (procs es))) /\
    take (Z.to_nat (ncpu s')) (apicids s') = take (Z.to_nat NCPU) (procs es) /\
    mp_lapic s' = rd32 m (conf + mpconf_lapicaddr) /\ length (apicids s') = Z.to_nat NCPU /\
    ioapicid s' = last_ioapic es (ioapicid s).
Proof.
  intros Hc [Hok Hb Hl] Hf Hn Ha. rewrite Z.add_0_r in Hl.
  set (s1 := set_lapic (rd32 m (conf + mpconf_lapicaddr)) (set_ismp 1 s)).
  destruct (enter_procs es s1) as (H1 & H2 & H3 & H4 & H5 & H6 & H7); [subst s1; cbn; rewrite Hn; done|done|].
  assert (Hloop : mpinit_loop fuel m (conf + sizeof_mpconf)
            (conf + le_val (rd_bytes m (conf + mpconf_length) 2)) s1 = Ret tt (foldl enter s1 es)).
  { replace fuel with (length es + (fuel - length es))%nat by lia.
    rewrite mpinit_loop_entries by (done || lia).
    rewrite Hl. destruct (fuel - length es)%nat; cbn [mpinit_loop];
      by rewrite (proj2 (Z.ltb_ge _ _)) by lia. }
  set (s2 := foldl enter s1 es) in *.
  exists (if negb (rd m (mp + mp_imcrp) =? 0)
          then outb 0x23 (Z.lor (inb 0x23) 1) (outb 0x22 0x70 s2) else s2).
  split.
  { unfold mpinit. rewrite Hc. unfold bind at 1 2, modify at 1 2. fold s1. unfold bind at 1.
    rewrite Hloop. unfold bind at 1, gets. rewrite H5. cbn.
    by destruct (rd m (mp + mp_imcrp) =? 0). }
  assert (Hout : forall b : bool, let s' := if b then outb 0x23 (Z.lor (inb 0x23) 1) (outb 0x22 0x70 s2) else s2 in
    ismp s' = ismp s2 /\ ncpu s' = ncpu s2 /\ apicids s' = apicids s2 /\ mp_lapic s' = mp_lapic s2
    /\ ioapicid s' = ioapicid s2) by (by intros []).
  destruct (Hout (negb (rd m (mp + mp_imcrp) =? 0))) as (-> & -> & -> & -> & ->).
  rewrite H1, H2, H4, H5, H6. rewrite H1 in H3. rewrite H3. subst s1. cbn [ncpu set_lapic set_ismp ismp mp_lapic].
  by rewrite Hn.
Qed.

(** C39. A table that mpinit() does not accept. If an entry of another type follows, the default
    case sets ismp to 0 and leaves the switch, but the loop goes on with the same entry: mpinit()
    does not return for any [fuel], and never falls back to one processor as it means to. *)
Theorem mpinit_unknown_hangs m mp conf es len fuel s :
  mpconfig str_mp str_pcmp m = Some (mp, conf) -> mptable m conf es len -> 0 < len ->
  4 < rd m (conf + sizeof_mpconf + Z.of_nat (length (table_bytes es))) ->
  mpinit str_mp str_pcmp inb fuel m s = Diverge.
Proof.
  intros Hc [Hok Hb Hl] Hlen Ht. unfold mpinit. rewrite Hc. unfold bind at 1 2, modify at 1 2.
  set (s1 := set_lapic _ _). unfold bind at 1.
  enough (Hloop : forall p, p = conf + sizeof_mpconf ->
    mpinit_loop fuel m p (conf + le_val (rd_bytes m (conf + mpconf_length) 2)) s1 = Diverge)
    by (by rewrite Hloop).
  intros p ->. destruct (Nat.le_gt_cases (length es) fuel) as [Hf|Hf].
  - replace fuel with (length es + (fuel - length es))%nat by lia.
    rewrite mpinit_loop_entries by (done || lia). apply mpinit_loop_unknown; lia.
  - apply (mpinit_loop_short _ _ _ _ es); done || lia.
Qed.
End Mpinit.

(** *** The search *)

Section Search.
Context (str_mp : Z).

(** A structure that the search accepts. *)
Definition valid_mp (m : mem) (p : Z) : bool :=
  (StringC.memcmp m p str_mp 4 =? 0) && (sum m p sizeof_mp =? 0).

Lemma mpsearch1_loop_spec fuel m p e :
  p <> 0 -> (forall k, (k < fuel)%nat -> p + 16 * Z.of_nat k <> 0) -> e <= p + 16 * Z.of_nat fuel ->
  let r := mpsearch1_loop str_mp fuel m p e in
  (r = 0 /\ forall k, p + 16 * Z.of_nat k < e -> valid_mp m (p + 16 * Z.of_nat k) = false) \/
  exists k, r = p + 16 * Z.of_nat k /\ r < e /\ valid_mp m r = true /\
    forall j, (j < k)%nat -> valid_mp m (p + 16 * Z.of_nat j) = false.
Proof.
  revert p. induction fuel as [|f IH]; intros p Hp0 Hnz He; cbn [mpsearch1_loop].
  - left. split; [done|]. intros k Hk. lia.
  - destruct (Z.ltb_spec p e) as [Hlt|Hge].
    2: { left. split; [done|]. intros k Hk. lia. }
    fold (valid_mp m p). destruct (valid_mp m p) eqn:Hv.
    { right. exists 0%nat. rewrite Z.add_0_r. split_and!; try done. intros j Hj. lia. }
    destruct f as [|f'].
    { left. split; [done|]. intros k Hk. assert (k = 0%nat) as -> by lia. by rewrite Z.add_0_r. }
    unfold sizeof_mp in *. destruct (IH (p + 16)) as [[Hr Hno]|(k & Hr & Hre & Hrv & Hno)].
    + specialize (Hnz 1%nat ltac:(lia)). lia.
    + intros k Hk. specialize (Hnz (S k) ltac:(lia)). lia.
    + lia.
    + left. split; [done|]. intros [|k] Hk; [by rewrite Z.add_0_r|].
      replace (p + 16 * Z.of_nat (S k)) with (p + 16 + 16 * Z.of_nat k) in * by lia. by apply Hno.
    + right. exists (S k). split_and!; [lia|done|done|]. intros [|j] Hj; [by rewrite Z.add_0_r|].
      replace (p + 16 * Z.of_nat (S j)) with (p + 16 + 16 * Z.of_nat j) by lia. apply Hno. lia.
Qed.

(** mpsearch1() returns the first structure of the area that is valid, or 0 if there is none. *)
Lemma mpsearch1_spec m a len :
  0 < P2V a -> 0 <= len ->
  let r := mpsearch1 str_mp m a len in
  (r = 0 /\ forall k, 16 * Z.of_nat k < len -> valid_mp m (P2V a + 16 * Z.of_nat k) = false) \/
  exists k, r = P2V a + 16 * Z.of_nat k /\ 16 * Z.of_nat k < len /\ valid_mp m r = true /\
    forall j, (j < k)%nat -> valid_mp m (P2V a + 16 * Z.of_nat j) = false.
Proof.
  intros Ha Hl. unfold mpsearch1.
  destruct (mpsearch1_loop_spec (Z.to_nat (len / sizeof_mp + 1)) m (P2V a) (P2V a + len)) as [[-> H]|(k & -> & H1 & H2 & H3)].
  - lia.
  - intros k Hk. lia.
  - unfold sizeof_mp. pose proof (Z.mul_succ_div_gt len 16 ltac:(lia)).
    rewrite Z2Nat.id by (pose proof (Z.div_pos len 16); lia). lia.
  - left. split; [done|]. intros k Hk. apply H. lia.
  - right. exists k. split_and!; [done|lia|done|done].
Qed.
End Search.

(** *** Tables at work *)

(** The bytes of a structure, with the checksum at [off]. *)
Definition with_checksum (off : nat) (l : list Z) : list Z :=
  <[off := (- foldr Z.add 0 l) mod 256]> l.

Definition demo_floating : list Z :=
  with_checksum 10 ([95; 77; 80; 95] ++ le_bytes 4 0xF1000 ++ [1; 4; 0; 0; 0; 0; 0; 0]).
Definition demo_conf (tail : list Z) : list Z :=
  with_checksum 7 ([80; 67; 77; 80] ++ le_bytes 2 (44 + Z.of_nat (length tail)) ++ [4; 0] ++
    replicate 28 0 ++ le_bytes 4 0xFEE00000 ++ replicate 4 0 ++ tail).
Definition demo_lit_mp : Z := 0x80108000.
Definition demo_lit_pcmp : Z := 0x80108008.
Definition demo_firmware (tail : list Z) : mem :=
  wr_bytes (wr_bytes (wr_bytes (wr_bytes ∅ demo_lit_mp [95; 77; 80; 95]) demo_lit_pcmp [80; 67; 77; 80])
    (P2V 0xF0000) demo_floating) (P2V 0xF1000) (demo_conf tail).
Definition demo_entries : list mpentry :=
  [EProc 0 (replicate 18 0); EProc 3 (replicate 18 0); ESkip MPBUS (replicate 7 0);
   EIoapic 2 (replicate 6 0)].
Definition mp0 : mpst := mkMpst 0 0 0 0 (replicate (Z.to_nat NCPU) 0) [].

Lemma demo_entries_ok : Forall entry_ok demo_entries.
Proof. repeat constructor. Qed.

(** One processor and an entry of type 0x81. *)
Lemma mpinit_unknown_hangs_witness :
  mpinit demo_lit_mp demo_lit_pcmp (fun _ => 0) 1000
    (demo_firmware (table_bytes [EProc 0 (replicate 18 0)] ++ 0x81 :: replicate 7 0)) mp0 = Diverge.
Proof.
  apply (mpinit_unknown_hangs demo_lit_mp demo_lit_pcmp (fun _ => 0)
    (demo_firmware (table_bytes [EProc 0 (replicate 18 0)] ++ 0x81 :: replicate 7 0))
    (P2V 0xF0000) (P2V 0xF1000) [EProc 0 (replicate 18 0)] 8 1000 mp0).
  - vm_compute. reflexivity.
  - split; [repeat constructor|vm_compute; reflexivity|vm_compute; reflexivity].
  - lia.
  - vm_compute. reflexivity.
Defined.
