(* ===== verification/Spinlock.v ===== *)
(** spinlock.c: spin locks between CPUs, and the nesting of pushcli() and popcli().

    The operations of several CPUs on one lock are interleaved memory access by memory access
    (the memory is sequentially consistent here; the barriers in the code are what makes the
    hardware so). *)

From S2P Require Export Prelude.
From stdpp Require Export relations.

Open Scope Z_scope.
Open Scope kernel_scope.

(** *** pushcli and popcli *)

(** The interrupt flag and the fields [ncli] and [intena] of struct cpu. *)
Record cpu := mkCpu { c_if : bool; c_ncli : Z; c_intena : bool }.

Definition pushcli : M cpu unit :=
  eflags <- gets c_if ;;
  modify (fun c => mkCpu false (c_ncli c) (c_intena c)) ;;
  n <- gets c_ncli ;;
  when (n =? 0) (modify (fun c => mkCpu (c_if c) (c_ncli c) eflags)) ;;
  modify (fun c => mkCpu (c_if c) (c_ncli c + 1) (c_intena c)).

Definition popcli : M cpu unit :=
  eflags <- gets c_if ;;
  if eflags : bool then panic "popcli - interruptible" else
  modify (fun c => mkCpu (c_if c) (c_ncli c - 1) (c_intena c)) ;;
  c <- gets (fun c => c) ;;
  if c_ncli c <? 0 then panic "popcli" else
  when ((c_ncli c =? 0) && c_intena c) (modify (fun c => mkCpu true (c_ncli c) (c_intena c))).

Fixpoint repeat_m {St} (n : nat) (m : M St unit) : M St unit :=
  match n with
  | O => ret tt
  | S n' => m ;; repeat_m n' m
  end.

(** Inside: interrupts are off. Outside: no nesting. *)
Definition cpu_ok (c : cpu) : Prop := 0 <= c_ncli c /\ (0 < c_ncli c -> c_if c = false).

Lemma pushcli_run c :
  pushcli c = Ret tt (mkCpu false (c_ncli c + 1) (if c_ncli c =? 0 then c_if c else c_intena c)).
Proof.
  unfold pushcli, bind, gets, modify, when, ret. simpl. by destruct (c_ncli c =? 0).
Qed.

Lemma popcli_run c :
  c_if c = false -> 0 < c_ncli c ->
  popcli c = Ret tt (mkCpu ((c_ncli c =? 1) && c_intena c) (c_ncli c - 1) (c_intena c)).
Proof.
  destruct c as [f n e]. simpl. intros -> Hn. unfold popcli, bind, gets, modify, when, ret. simpl.
  rewrite (proj2 (Z.ltb_ge _ _)) by lia.
  destruct (Z.eqb_spec (n - 1) 0), (Z.eqb_spec n 1); try lia; [by destruct e|done].
Qed.

Lemma repeat_pop n c :
  (0 < n)%nat -> c_ncli c = Z.of_nat n -> c_if c = false ->
  repeat_m n popcli c = Ret tt (mkCpu (c_intena c) 0 (c_intena c)).
Proof.
  revert c. induction n as [|n IH]; intros c Hn Hc Hi; [lia|]. cbn [repeat_m]. unfold bind.
  rewrite popcli_run by (done || lia). destruct n as [|n].
  - rewrite Hc. simpl. done.
  - rewrite (proj2 (Z.eqb_neq _ _)) by lia. simpl andb. rewrite IH; simpl; [done|lia|lia|done].
Qed.

Lemma repeat_push n c :
  0 < c_ncli c -> c_if c = false ->
  repeat_m n pushcli c = Ret tt (mkCpu false (c_ncli c + Z.of_nat n) (c_intena c)).
Proof.
  revert c. induction n as [|n IH]; intros c Hc Hi; cbn [repeat_m].
  - destruct c. simpl in *. subst. unfold ret. do 2 f_equal. lia.
  - unfold bind. rewrite pushcli_run, (proj2 (Z.eqb_neq _ _)) by lia.
    rewrite IH; simpl; [|lia|done]. do 2 f_equal. lia.
Qed.

(** pushcli() and popcli() are matched: after [n] calls of pushcli() interrupts are off,
    and [n] calls of popcli() then restore the interrupt flag, whatever it was; one popcli()
    more panics. *)
Theorem pushcli_popcli_nest n c :
  (0 < n)%nat -> c_ncli c = 0 ->
  wp (repeat_m n pushcli) (fun _ c1 => c_if c1 = false /\ c_ncli c1 = Z.of_nat n /\
    wp (repeat_m n popcli) (fun _ c2 => c_if c2 = c_if c /\ c_ncli c2 = 0 /\
      exists e, popcli c2 = Panic e) c1) c.
Proof.
  intros Hn Hc. destruct n as [|n]; [lia|]. cbn [repeat_m].
  eapply wp_ret_eq; [unfold bind; rewrite pushcli_run, Hc; by apply repeat_push|].
  simpl. split; [done|]. split; [lia|].
  eapply wp_ret_eq; [apply (repeat_pop (S n)); simpl; [lia|lia|done]|]. simpl.
  split_and!; [done|done|]. unfold popcli, bind, gets, modify, panic. simpl.
  destruct (c_if c); eauto.
Qed.

Lemma pushcli_popcli_nest_witness :
  wp (repeat_m 3 pushcli) (fun _ c1 => c_if c1 = false /\ c_ncli c1 = Z.of_nat 3 /\
    wp (repeat_m 3 popcli) (fun _ c2 => c_if c2 = true /\ c_ncli c2 = 0 /\
      exists e, popcli c2 = Panic e) c1) (mkCpu true 0 false).
Proof. apply (pushcli_popcli_nest 3 (mkCpu true 0 false)); [lia|reflexivity]. Defined.

(** *** The lock *)

(** struct spinlock: [lk_cpu] is the CPU that holds the lock. *)
Record spinlock := mkSpinlock { lk_locked : Z; lk_cpu : option nat }.

Definition initlock : spinlock := mkSpinlock 0 None.

(** [holding], in one step. *)
Definition holding (me : nat) (lk : spinlock) : bool :=
  negb (lk_locked lk =? 0) && bool_decide (lk_cpu lk = Some me).

(** Where a CPU is: before an access of acquire() or release(). *)
Inductive pc : Type :=
| Idle                 (** outside *)
| AcqLocked            (** acquire: holding() is about to read [lk->locked] *)
| AcqCpu               (** acquire: holding() is about to read [lk->cpu] *)
| Spin                 (** acquire: about to xchg *)
| SetCpu               (** acquire: about to set [lk->cpu] *)
| Critical             (** has the lock *)
| RelLocked            (** release: holding() is about to read [lk->locked] *)
| RelCpu               (** release: holding() is about to read [lk->cpu] *)
| ClearCpu             (** release: about to clear [lk->cpu] *)
| Unlock               (** release: about to store 0 *)
| Pop                  (** release: about to popcli *)
| Failed.              (** panic("acquire") or panic("release") *)

#[export] Instance pc_eq_dec : EqDecision pc.
Proof. solve_decision. Defined.

(** One access of CPU [me]: the new lock, the next access and what pushcli/popcli did. *)
Definition cpu_step (me : nat) (lk : spinlock) (x : pc) (c : cpu) : option (spinlock * pc * cpu) :=
  match x with
  | Idle => match pushcli c with Ret _ c' => Some (lk, AcqLocked, c') | _ => Some (lk, Failed, c) end
  | AcqLocked => Some (lk, if lk_locked lk =? 0 then Spin else AcqCpu, c)
  | AcqCpu => Some (lk, if decide (lk_cpu lk = Some me) then Failed else Spin, c)
  | Spin => Some (mkSpinlock 1 (lk_cpu lk), if lk_locked lk =? 0 then SetCpu else Spin, c)
  | SetCpu => Some (mkSpinlock (lk_locked lk) (Some me), Critical, c)
  | Critical => Some (lk, RelLocked, c)
  | RelLocked => Some (lk, if lk_locked lk =? 0 then Failed else RelCpu, c)
  | RelCpu => Some (lk, if decide (lk_cpu lk = Some me) then ClearCpu else Failed, c)
  | ClearCpu => Some (mkSpinlock (lk_locked lk) None, Unlock, c)
  | Unlock => Some (mkSpinlock 0 (lk_cpu lk), Pop, c)
  | Pop => match popcli c with Ret _ c' => Some (lk, Idle, c') | _ => Some (lk, Failed, c) end
  | Failed => None
  end.

Record machine := mkMachine { m_lock : spinlock; m_pc : list pc; m_cpu : list cpu }.

Inductive mstep : machine -> machine -> Prop :=
| Mstep m i x c lk' x' c' :
    m_pc m !! i = Some x -> m_cpu m !! i = Some c ->
    cpu_step i (m_lock m) x c = Some (lk', x', c') ->
    mstep m (mkMachine lk' (<[i := x']> (m_pc m)) (<[i := c']> (m_cpu m))).

(** The CPU is between the xchg that took the lock and the store that gives it back. *)
Definition has_lock (x : pc) : bool :=
  match x with
  | SetCpu | Critical | RelLocked | RelCpu | ClearCpu | Unlock => true
  | _ => false
  end.

(** [lk->cpu] names the CPU. *)
Definition named (x : pc) : bool :=
  match x with Critical | RelLocked | RelCpu | ClearCpu => true | _ => false end.

(** [o] is the CPU that has the lock. *)
Record minv (o : option nat) (m : machine) : Prop := {
  mi_owner : forall i x, m_pc m !! i = Some x -> (has_lock x = true <-> o = Some i);
  mi_in : forall i, o = Some i -> is_Some (m_pc m !! i);
  mi_locked : lk_locked (m_lock m) = match o with Some _ => 1 | None => 0 end;
  mi_cpu : forall i x, m_pc m !! i = Some x -> (lk_cpu (m_lock m) = Some i <-> named x = true);
  mi_name : forall i, lk_cpu (m_lock m) = Some i -> o = Some i;
  mi_ok : forall i x, m_pc m !! i = Some x -> x <> Failed;
  mi_cli : forall i x c, m_pc m !! i = Some x -> m_cpu m !! i = Some c ->
    c_ncli c = (if decide (x = Idle) then 0 else 1) /\ (x <> Idle -> c_if c = false);
}.

(** The invariant after an access of CPU [i], from what the access did. *)
Lemma minv_step o o' m i x lk' x' c' :
  minv o m -> m_pc m !! i = Some x ->
  (forall j, j <> i -> o' = Some j <-> o = Some j) -> (has_lock x' = true <-> o' = Some i) ->
  lk_locked lk' = match o' with Some _ => 1 | None => 0 end ->
  (forall j, j <> i -> lk_cpu lk' = Some j <-> lk_cpu (m_lock m) = Some j) ->
  (lk_cpu lk' = Some i <-> named x' = true) -> (named x' = true -> has_lock x' = true) ->
  x' <> Failed ->
  c_ncli c' = (if decide (x' = Idle) then 0 else 1) -> (x' <> Idle -> c_if c' = false) ->
  minv o' (mkMachine lk' (<[i := x']> (m_pc m)) (<[i := c']> (m_cpu m))).
Proof.
  intros [W1 W2 W3 W4 W7 W5 W6] Hx Ho Hoi Hl Hc Hci Hnh Hf Hcl Hif.
  assert (Hlt : (i < length (m_pc m))%nat) by (by apply lookup_lt_Some in Hx).
  split; simpl; try done.
  - intros j y Hy. destruct (decide (j = i)) as [->|Hne].
    + rewrite list_lookup_insert_eq in Hy by done. by simplify_eq.
    + rewrite list_lookup_insert_ne in Hy by done. rewrite Ho by done. by apply W1.
  - intros j Hj. destruct (decide (j = i)) as [->|Hne].
    + rewrite list_lookup_insert_eq by done. eauto.
    + rewrite list_lookup_insert_ne by done. apply W2. by apply Ho.
  - intros j y Hy. destruct (decide (j = i)) as [->|Hne].
    + rewrite list_lookup_insert_eq in Hy by done. by simplify_eq.
    + rewrite list_lookup_insert_ne in Hy by done. rewrite Hc by done. by apply W4.
  - intros j Hj. destruct (decide (j = i)) as [->|Hne]; [by apply Hoi, Hnh, Hci|].
    apply Ho; [done|]. by apply W7, Hc.
  - intros j y Hy. destruct (decide (j = i)) as [->|Hne].
    + rewrite list_lookup_insert_eq in Hy by done. by simplify_eq.
    + rewrite list_lookup_insert_ne in Hy by done. eauto.
  - intros j y d Hy Hd. destruct (decide (j = i)) as [->|Hne].
    + rewrite list_lookup_insert_eq in Hy by done. simplify_eq.
      assert (Hi' : (i < length (m_cpu m))%nat)
        by (apply lookup_lt_Some in Hd; by rewrite length_insert in Hd).
      rewrite list_lookup_insert_eq in Hd by done. by simplify_eq.
    + rewrite list_lookup_insert_ne in Hy by done. rewrite list_lookup_insert_ne in Hd by done. eauto.
Qed.

Lemma mstep_inv o m m' : minv o m -> mstep m m' -> exists o', minv o' m'.
Proof.
  intros Hm Hst. revert Hm. destruct Hst as [m i x c lk' x' c' Hx Hc Hs]. intros Hm.
  pose proof Hm as [W1 W2 W3 W4 W7 W5 W6].
  pose proof (W1 i x Hx) as Ho. pose proof (W4 i x Hx) as Hn. pose proof (W5 i x Hx) as Hf.
  destruct (W6 i x c Hx Hc) as [Hcl Hif].
  assert (Hoth : o = Some i -> forall j, j <> i -> lk_cpu (m_lock m) <> Some j).
  { intros -> j Hj He. apply W7 in He. congruence. }
  destruct x; simpl in Hs, Ho, Hn, Hcl, Hif; try done.
  - rewrite pushcli_run in Hs. simplify_eq/=. exists o.
    eapply minv_step; eauto; simpl; rewrite ?Hcl; done.
  - simplify_eq. exists o. destruct (lk_locked (m_lock m) =? 0); eapply minv_step; eauto; done.
  - simplify_eq. exists o. case_decide as Hd; [by apply Hn in Hd|]. eapply minv_step; eauto; done.
  - simplify_eq. destruct (Z.eqb_spec (lk_locked (m_lock m)) 0) as [H0|H0].
    + exists (Some i). rewrite W3 in H0. destruct o; [done|].
      eapply minv_step; eauto; simpl; try done. intros j Hj. split; congruence.
    + exists o. rewrite W3 in H0. eapply minv_step; eauto; simpl; try done. by destruct o.
  - simplify_eq. assert (Hoi : o = Some i) by (by apply Ho). exists o.
    eapply minv_step; eauto; simpl; try done. intros j Hj. specialize (Hoth Hoi j Hj). split; congruence.
  - simplify_eq. exists o. eapply minv_step; eauto; done.
  - simplify_eq. assert (Hoi : o = Some i) by (by apply Ho). exists o. rewrite W3, Hoi. simpl.
    rewrite Hoi in *. eapply minv_step; eauto; done.
  - simplify_eq. exists o. rewrite decide_True by (by apply Hn). eapply minv_step; eauto; done.
  - simplify_eq. assert (Hoi : o = Some i) by (by apply Ho). exists o.
    eapply minv_step; eauto; simpl; try done. intros j Hj. specialize (Hoth Hoi j Hj). split; congruence.
  - simplify_eq. assert (Hoi : o = Some i) by (by apply Ho). exists None.
    eapply minv_step; eauto; simpl; try done. intros j Hj. rewrite Hoi. split; congruence.
  - rewrite popcli_run in Hs by (auto; rewrite Hcl; lia). simplify_eq. exists o.
    eapply minv_step; eauto; simpl; rewrite ?Hcl; done.
Qed.

(** [n] CPUs with interrupts on or off, and a lock after initlock(). *)
Definition machine_start (flags : list bool) : machine :=
  mkMachine initlock (replicate (length flags) Idle) ((fun f => mkCpu f 0 false) <$> flags).

Lemma minv_start flags : minv None (machine_start flags).
Proof.
  split; simpl; try done.
  - intros i x Hx. apply lookup_replicate in Hx as [-> _]. done.
  - intros i x Hx. apply lookup_replicate in Hx as [-> _]. done.
  - intros i x Hx. apply lookup_replicate in Hx as [-> _]. done.
  - intros i x c Hx Hc. apply lookup_replicate in Hx as [-> _].
    rewrite list_lookup_fmap in Hc. destruct (flags !! i); simplify_eq/=. done.
Qed.

(** C3. A spin lock excludes: however the accesses of any number of CPUs interleave, at most
    one CPU is between the xchg() that took the lock and the store that releases it, that CPU
    runs with interrupts off, and neither acquire() nor release() panics although holding()
    reads the lock in two accesses without holding it. *)
Theorem spinlock_mutual_exclusion flags m :
  rtc mstep (machine_start flags) m ->
  (forall i j x y, m_pc m !! i = Some x -> m_pc m !! j = Some y ->
     has_lock x = true -> has_lock y = true -> i = j) /\
  (forall i x c, m_pc m !! i = Some x -> m_cpu m !! i = Some c -> has_lock x = true ->
     c_if c = false) /\
  (forall i x, m_pc m !! i = Some x -> x <> Failed) /\
  (forall i x, m_pc m !! i = Some x -> x = Critical -> holding i (m_lock m) = true).
Proof.
  intros Hr.
  assert (Hm : exists o, minv o m).
  { refine (rtc_ind_r (fun m => exists o, minv o m) _ _ _ _ Hr); [exists None; apply minv_start|].
    intros m1 m2 _ Hs [o Ho]. by eapply mstep_inv. }
  destruct Hm as [o Hm]. split_and!.
  - intros i j x y Hx Hy Hhx Hhy. apply (mi_owner _ _ Hm _ _ Hx) in Hhx.
    apply (mi_owner _ _ Hm _ _ Hy) in Hhy. congruence.
  - intros i x c Hx Hc Hh. apply (mi_cli _ _ Hm i x c Hx Hc). by intros ->.
  - apply Hm.
  - intros i x Hx ->. pose proof (proj1 (mi_owner _ _ Hm _ _ Hx) eq_refl) as Ho. unfold holding.
    rewrite (mi_locked _ _ Hm), Ho. simpl. apply bool_decide_eq_true.
    by apply (mi_cpu _ _ Hm _ _ Hx).
Qed.

(** A schedule: the CPU that makes the next access. *)
Fixpoint run_cpus (l : list nat) (m : machine) : option machine :=
  match l with
  | [] => Some m
  | i :: l' =>
      x ← m_pc m !! i; c ← m_cpu m !! i;
      '(lk', x', c') ← cpu_step i (m_lock m) x c;
      run_cpus l' (mkMachine lk' (<[i := x']> (m_pc m)) (<[i := c']> (m_cpu m)))
  end.

Lemma run_cpus_steps l m m' : run_cpus l m = Some m' -> rtc mstep m m'.
Proof.
  revert m. induction l as [|i l IH]; intros m Hr; simpl in Hr; [simplify_eq; constructor|].
  destruct (m_pc m !! i) as [x|] eqn:Hx; [|done]. simpl in Hr.
  destruct (m_cpu m !! i) as [c|] eqn:Hc; [|done]. simpl in Hr.
  destruct (cpu_step i (m_lock m) x c) as [[[lk' x'] c']|] eqn:Hs; [|done]. simpl in Hr.
  eapply rtc_l; [by eapply Mstep|by apply IH].
Qed.

Lemma spinlock_mutual_exclusion_witness :
  exists m, run_cpus [0; 1; 0; 1; 1; 1; 0; 0; 0]%nat (machine_start [true; true]) = Some m /\
    m_pc m = [Spin; Critical] /\
    (forall i x, m_pc m !! i = Some x -> x <> Failed).
Proof.
  destruct (run_cpus [0; 1; 0; 1; 1; 1; 0; 0; 0]%nat (machine_start [true; true])) as [m|] eqn:E;
    [|vm_compute in E; discriminate].
  exists m. split; [done|]. split; [vm_compute in E; simplify_eq; reflexivity|].
  apply (spinlock_mutual_exclusion [true; true]). eapply run_cpus_steps. exact E.
Defined.
