(* ===== verification/ProcTab.v ===== *)
(** The process table of proc.c: the part of each operation that runs with ptable.lock held.

    A pointer to a process is an index of the table. [tb_cur] is [proc], the process that runs
    on this CPU, or null while the scheduler runs. sched() switches to the scheduler: the
    operation ends there, with the lock held, and what follows the call of sched() is what the
    process does when the scheduler resumes it. *)

From S2P Require Export Locks Param.

Open Scope kernel_scope.

Inductive procstate : Type := UNUSED | EMBRYO | SLEEPING | RUNNABLE | RUNNING | ZOMBIE.

#[export] Instance procstate_eq_dec : EqDecision procstate.
Proof. solve_decision. Defined.

(** struct proc; [p_tf] and [p_context] are the addresses of the frames on the kernel stack. *)
Record proc := mkProc {
  p_sz : Z;
  p_pgdir : Z;
  p_kstack : Z;
  p_state : procstate;
  p_pid : Z;
  p_parent : option nat;
  p_tf : Z;
  p_context : Z;
  p_chan : option chan;
  p_killed : Z;
  p_ofile : list (option nat);
  p_cwd : option nat;
  p_name : list Z;
}.

(** A slot of the table before its first use: static storage, all zero. *)
Definition proc0 : proc :=
  mkProc 0 0 0 UNUSED 0 None 0 0 None 0 (replicate (Z.to_nat NOFILE) None) None
    (replicate 16 0).

#[export] Instance proc_inhabited : Inhabited proc := populate proc0.

Definition p_set_sz (v : Z) (p : proc) : proc :=
  mkProc v (p_pgdir p) (p_kstack p) (p_state p) (p_pid p) (p_parent p) (p_tf p) (p_context p)
    (p_chan p) (p_killed p) (p_ofile p) (p_cwd p) (p_name p).
Definition p_set_pgdir (v : Z) (p : proc) : proc :=
  mkProc (p_sz p) v (p_kstack p) (p_state p) (p_pid p) (p_parent p) (p_tf p) (p_context p)
    (p_chan p) (p_killed p) (p_ofile p) (p_cwd p) (p_name p).
Definition p_set_kstack (v : Z) (p : proc) : proc :=
  mkProc (p_sz p) (p_pgdir p) v (p_state p) (p_pid p) (p_parent p) (p_tf p) (p_context p)
    (p_chan p) (p_killed p) (p_ofile p) (p_cwd p) (p_name p).
Definition p_set_state (v : procstate) (p : proc) : proc :=
  mkProc (p_sz p) (p_pgdir p) (p_kstack p) v (p_pid p) (p_parent p) (p_tf p) (p_context p)
    (p_chan p) (p_killed p) (p_ofile p) (p_cwd p) (p_name p).
Definition p_set_pid (v : Z) (p : proc) : proc :=
  mkProc (p_sz p) (p_pgdir p) (p_kstack p) (p_state p) v (p_parent p) (p_tf p) (p_context p)
    (p_chan p) (p_killed p) (p_ofile p) (p_cwd p) (p_name p).
Definition p_set_parent (v : option nat) (p : proc) : proc :=
  mkProc (p_sz p) (p_pgdir p) (p_kstack p) (p_state p) (p_pid p) v (p_tf p) (p_context p)
    (p_chan p) (p_killed p) (p_ofile p) (p_cwd p) (p_name p).
Definition p_set_frames (tf context : Z) (p : proc) : proc :=
  mkProc (p_sz p) (p_pgdir p) (p_kstack p) (p_state p) (p_pid p) (p_parent p) tf context
    (p_chan p) (p_killed p) (p_ofile p) (p_cwd p) (p_name p).
Definition p_set_chan (v : option chan) (p : proc) : proc :=
  mkProc (p_sz p) (p_pgdir p) (p_kstack p) (p_state p) (p_pid p) (p_parent p) (p_tf p)
    (p_context p) v (p_killed p) (p_ofile p) (p_cwd p) (p_name p).
Definition p_set_killed (v : Z) (p : proc) : proc :=
  mkProc (p_sz p) (p_pgdir p) (p_kstack p) (p_state p) (p_pid p) (p_parent p) (p_tf p)
    (p_context p) (p_chan p) v (p_ofile p) (p_cwd p) (p_name p).
Definition p_set_ofile (v : list (option nat)) (p : proc) : proc :=
  mkProc (p_sz p) (p_pgdir p) (p_kstack p) (p_state p) (p_pid p) (p_parent p) (p_tf p)
    (p_context p) (p_chan p) (p_killed p) v (p_cwd p) (p_name p).
Definition p_set_cwd (v : option nat) (p : proc) : proc :=
  mkProc (p_sz p) (p_pgdir p) (p_kstack p) (p_state p) (p_pid p) (p_parent p) (p_tf p)
    (p_context p) (p_chan p) (p_killed p) (p_ofile p) v (p_name p).
Definition p_set_name (v : list Z) (p : proc) : proc :=
  mkProc (p_sz p) (p_pgdir p) (p_kstack p) (p_state p) (p_pid p) (p_parent p) (p_tf p)
    (p_context p) (p_chan p) (p_killed p) (p_ofile p) (p_cwd p) v.

(** [ptable], [nextpid], [initproc] and [proc]. *)
Record ptab := mkPtab {
  tb_lock : bool;
  tb_proc : list proc;
  tb_nextpid : Z;
  tb_init : option nat;
  tb_cur : option nat;
}.

Definition set_procs (v : list proc) (t : ptab) : ptab :=
  mkPtab (tb_lock t) v (tb_nextpid t) (tb_init t) (tb_cur t).
Definition set_nextpid (v : Z) (t : ptab) : ptab :=
  mkPtab (tb_lock t) (tb_proc t) v (tb_init t) (tb_cur t).
Definition set_init (v : option nat) (t : ptab) : ptab :=
  mkPtab (tb_lock t) (tb_proc t) (tb_nextpid t) v (tb_cur t).
Definition set_cur (v : option nat) (t : ptab) : ptab :=
  mkPtab (tb_lock t) (tb_proc t) (tb_nextpid t) (tb_init t) v.
Definition tb_lk : lens ptab bool :=
  mkLens tb_lock (fun v t => mkPtab v (tb_proc t) (tb_nextpid t) (tb_init t) (tb_cur t)).

Definition pat (t : ptab) (i : nat) : proc := tb_proc t !!! i.
Definition upd_proc (i : nat) (f : proc -> proc) (t : ptab) : ptab :=
  set_procs (alter f i (tb_proc t)) t.
Definition upd_p (i : nat) (f : proc -> proc) : M ptab unit := modify (upd_proc i f).

(** [proc], in code that runs in a process. *)
Definition curproc : M ptab nat := fun t =>
  match tb_cur t with Some i => Ret i t | None => Panic "no process" end.

(** *** Operations *)

(** The first slot whose process satisfies the test. *)
Definition find_slot (f : proc -> bool) (l : list proc) : option nat :=
  fst <$> list_find (fun p => f p = true) l.

Definition is_state (st : procstate) (p : proc) : bool := bool_decide (p_state p = st).

(** allocproc() up to the release of the lock. *)
Definition allocproc_slot : M ptab (option nat) :=
  acquire tb_lk ;;
  l <- gets tb_proc ;;
  match find_slot (is_state UNUSED) l with
  | None => release tb_lk ;; ret None
  | Some i =>
      upd_p i (p_set_state EMBRYO) ;;
      n <- gets tb_nextpid ;;
      upd_p i (p_set_pid n) ;;
      modify (set_nextpid (s32 (n + 1))) ;;
      release tb_lk ;;
      ret (Some i)
  end.

(** [acquire; p->state = RUNNABLE; release] at the end of fork() and userinit(). *)
Definition make_runnable (i : nat) : M ptab unit :=
  acquire tb_lk ;; upd_p i (p_set_state RUNNABLE) ;; release tb_lk.

Definition wake_proc (ch : chan) (p : proc) : proc :=
  if bool_decide (p_state p = SLEEPING /\ p_chan p = Some ch) then p_set_state RUNNABLE p else p.

Definition wakeup1 (ch : chan) : M ptab unit :=
  modify (fun t => set_procs (wake_proc ch <$> tb_proc t) t).

Definition wakeup_procs (ch : chan) : M ptab unit :=
  acquire tb_lk ;; wakeup1 ch ;; release tb_lk.

Definition kill (pid : Z) : M ptab Z :=
  acquire tb_lk ;;
  l <- gets tb_proc ;;
  match find_slot (fun p => p_pid p =? pid) l with
  | Some i =>
      upd_p i (p_set_killed 1) ;;
      t <- gets (fun t => t) ;;
      when (is_state SLEEPING (pat t i)) (upd_p i (p_set_state RUNNABLE)) ;;
      release tb_lk ;;
      ret 0
  | None => release tb_lk ;; ret (-1)
  end.

(** The tests of sched() on the process table; the switch to the scheduler is the end. *)
Definition sched : M ptab unit :=
  i <- curproc ;;
  t <- gets (fun t => t) ;;
  if negb (tb_lock t) then panic "sched ptable.lock" else
  if is_state RUNNING (pat t i) then panic "sched running" else ret tt.

Definition yield : M ptab unit :=
  acquire tb_lk ;;
  i <- curproc ;;
  upd_p i (p_set_state RUNNABLE) ;;
  sched.

(** sleep() from the point where it holds ptable.lock and has released [lk]. *)
Definition sleep_proc (ch : chan) : M ptab unit :=
  i <- curproc ;;
  upd_p i (p_set_chan (Some ch)) ;;
  upd_p i (p_set_state SLEEPING) ;;
  sched.

(** One turn of the loop of exit() that passes the children on to init. *)
Definition reparent (cur init : nat) (i : nat) : M ptab unit :=
  t <- gets (fun t => t) ;;
  when (bool_decide (p_parent (pat t i) = Some cur))
    (upd_p i (p_set_parent (Some init)) ;;
     when (is_state ZOMBIE (pat t i)) (wakeup1 (ChProc init))).

(** exit() from the acquisition of the lock. *)
Definition exit_locked : M ptab unit :=
  acquire tb_lk ;;
  i <- curproc ;;
  t <- gets (fun t => t) ;;
  match p_parent (pat t i) with
  | Some q => wakeup1 (ChProc q)
  | None => ret tt
  end ;;
  match tb_init t with
  | Some init => for_range (Z.to_nat NPROC) 0 (fun j => reparent i init (Z.to_nat j))
  | None => ret tt
  end ;;
  upd_p i (p_set_state ZOMBIE) ;;
  sched.

(** The scan of wait(): a child that has exited, or whether there are children. *)
Fixpoint wait_scan (cur : nat) (i : nat) (l : list proc) (havekids : bool) : nat + bool :=
  match l with
  | [] => inr havekids
  | p :: l' =>
      if bool_decide (p_parent p = Some cur) then
        if is_state ZOMBIE p then inl i else wait_scan cur (S i) l' true
      else wait_scan cur (S i) l' havekids
  end.

(** The fields that wait() resets; the memory of the process is freed separately. *)
Definition reap (p : proc) : proc :=
  p_set_state UNUSED (p_set_killed 0 (p_set_name (<[0%nat := 0]> (p_name p))
    (p_set_parent None (p_set_pid 0 (p_set_kstack 0 p))))).

(** The scheduler: the next process to run, from position [pos] of its loop. *)
Fixpoint next_runnable (pos : nat) (l : list proc) : option nat :=
  match l with
  | [] => None
  | p :: l' => if is_state RUNNABLE p then Some pos else next_runnable (S pos) l'
  end.

(** A turn of the loop of scheduler(): from [pos] to the end of the table, and if nobody there
    is runnable again from the start. Returns the process that it switches to. *)
Definition schedule (pos : nat) : M ptab (option nat) :=
  t <- gets (fun t => t) ;;
  let r := match next_runnable pos (drop pos (tb_proc t)) with
           | Some i => Some i
           | None => next_runnable 0 (tb_proc t)
           end in
  match r with
  | None => ret None
  | Some i =>
      modify (set_cur (Some i)) ;;
      upd_p i (p_set_state RUNNING) ;;
      ret (Some i)
  end.
