(* ===== verification/ProcSpec.v ===== *)
(** The process table: an invariant of every operation, the fairness of the scheduler, and
    what kill() does. *)

From S2P Require Export ProcTab.
From stdpp Require Export relations.

Open Scope Z_scope.
Open Scope kernel_scope.

(** *** Lemmas on the table *)

Lemma pat_upd_eq t i f : (i < length (tb_proc t))%nat -> pat (upd_proc i f t) i = f (pat t i).
Proof.
  intros H. unfold pat, upd_proc. simpl. apply list_lookup_total_correct.
  rewrite list_lookup_alter_eq, list_lookup_lookup_total_lt by done. done.
Qed.

Lemma pat_upd_ne t i j f : i <> j -> pat (upd_proc i f t) j = pat t j.
Proof.
  intros H. unfold pat, upd_proc. simpl.
  by rewrite !list_lookup_total_alt, list_lookup_alter_ne by done.
Qed.

Lemma find_slot_Some f l i :
  find_slot f l = Some i -> (i < length l)%nat /\ f (l !!! i) = true /\
    forall j, (j < i)%nat -> f (l !!! j) = false.
Proof.
  unfold find_slot. intros (x & Hx & Hf)%fmap_Some. destruct x as [k p]. simpl in Hf. subst k.
  apply list_find_Some in Hx as (Hp & Ht & Hb). split; [by apply lookup_lt_Some in Hp|].
  split; [by rewrite (list_lookup_total_correct _ _ _ Hp)|]. intros j Hj.
  assert (Hjl : (j < length l)%nat) by (apply lookup_lt_Some in Hp; lia).
  apply not_true_is_false. apply (Hb j); [|done]. by rewrite list_lookup_lookup_total_lt.
Qed.

Lemma find_slot_None f l i : find_slot f l = None -> (i < length l)%nat -> f (l !!! i) = false.
Proof.
  unfold find_slot. intros Hx%fmap_None Hi. rewrite list_find_None, Forall_forall in Hx.
  apply not_true_is_false, Hx, list_elem_of_lookup_total_2. done.
Qed.

(** *** The scheduler *)

Lemma next_runnable_spec pos l :
  match next_runnable pos l with
  | Some j => (pos <= j < pos + length l)%nat /\ is_state RUNNABLE (l !!! (j - pos)%nat) = true /\
      forall k, (pos <= k < j)%nat -> is_state RUNNABLE (l !!! (k - pos)%nat) = false
  | None => forall k, (pos <= k < pos + length l)%nat -> is_state RUNNABLE (l !!! (k - pos)%nat) = false
  end.
Proof.
  revert pos. induction l as [|p l IH]; intros pos; simpl; [intros k Hk; lia|].
  destruct (is_state RUNNABLE p) eqn:Ep.
  - rewrite Nat.sub_diag. split_and!; [lia|lia|done|]. intros k Hk. lia.
  - specialize (IH (S pos)).
    assert (Hs : forall k, (S pos <= k)%nat -> (p :: l) !!! (k - pos)%nat = l !!! (k - S pos)%nat).
    { intros k Hk. by replace (k - pos)%nat with (S (k - S pos)) by lia. }
    destruct (next_runnable (S pos) l) as [j|].
    + destruct IH as (A & B & C). split_and!; [lia|lia|by rewrite Hs by lia|].
      intros k Hk. destruct (decide (k = pos)) as [->|]; [by rewrite Nat.sub_diag|].
      rewrite Hs by lia. apply C. lia.
    + intros k Hk. destruct (decide (k = pos)) as [->|]; [by rewrite Nat.sub_diag|].
      rewrite Hs by lia. apply IH. lia.
Qed.

(** The choice of [schedule]: the first runnable process at or after [pos], in cyclic order. *)
Lemma schedule_choice pos t j t' :
  schedule pos t = Ret (Some j) t' ->
  (j < length (tb_proc t))%nat /\ p_state (pat t j) = RUNNABLE /\
  t' = upd_proc j (p_set_state RUNNING) (set_cur (Some j) t) /\
  ((pos <= j)%nat /\ (forall k, (pos <= k < j)%nat -> p_state (pat t k) <> RUNNABLE) \/
   (forall k, (pos <= k < length (tb_proc t))%nat -> p_state (pat t k) <> RUNNABLE) /\
   (forall k, (k < j)%nat -> p_state (pat t k) <> RUNNABLE)).
Proof.
  unfold schedule, bind, gets. intros Hs.
  pose proof (next_runnable_spec pos (drop pos (tb_proc t))) as H1.
  pose proof (next_runnable_spec 0 (tb_proc t)) as H2. rewrite length_drop in H1.
  assert (Hd : forall k, (pos <= k)%nat -> drop pos (tb_proc t) !!! (k - pos)%nat = pat t k).
  { intros k Hk. unfold pat. rewrite !list_lookup_total_alt, lookup_drop. do 2 f_equal. lia. }
  assert (Hz : forall k, tb_proc t !!! (k - 0)%nat = pat t k) by (intros; by rewrite Nat.sub_0_r).
  assert (Hst : forall p, is_state RUNNABLE p = false -> p_state p <> RUNNABLE)
    by (intros p; unfold is_state; by rewrite bool_decide_eq_false).
  destruct (next_runnable pos (drop pos (tb_proc t))) as [i|].
  - destruct H1 as (A & B & C). unfold modify, upd_p, ret in Hs. simplify_eq/=.
    rewrite Hd in B by lia. apply bool_decide_eq_true in B. split_and!; [lia|done|done|].
    left. split; [lia|]. intros k Hk. apply Hst. rewrite <- Hd by lia. apply C. lia.
  - destruct (next_runnable 0 (tb_proc t)) as [i|]; [|by unfold ret in Hs].
    destruct H2 as (A & B & C). unfold modify, upd_p, ret in Hs. simplify_eq/=.
    rewrite Hz in B. apply bool_decide_eq_true in B. split_and!; [lia|done|done|].
    right. split.
    + intros k Hk. apply Hst. rewrite <- Hd by lia. apply H1. lia.
    + intros k Hk. apply Hst. rewrite <- Hz. apply C. lia.
Qed.

(** The processes that the scheduler picks, one after the other, while process [i] waits to
    run; what happens to the table between two picks is arbitrary. *)
Inductive picks (i : nat) : nat -> list nat -> Prop :=
| picks_nil pos : picks i pos []
| picks_cons pos t t' j js :
    length (tb_proc t) = Z.to_nat NPROC -> p_state (pat t i) = RUNNABLE ->
    schedule pos t = Ret (Some j) t' -> picks i (S j) js -> picks i pos (j :: js).

(** How far the scheduler is from [i]. *)
Definition distance (i pos : nat) : nat :=
  if decide (pos <= i)%nat then i - pos else Z.to_nat NPROC - pos + i.

Lemma pick_closer i pos t j t' :
  (i < Z.to_nat NPROC)%nat -> (pos <= Z.to_nat NPROC)%nat ->
  length (tb_proc t) = Z.to_nat NPROC -> p_state (pat t i) = RUNNABLE ->
  schedule pos t = Ret (Some j) t' -> j <> i -> (distance i (S j) < distance i pos)%nat.
Proof.
  intros Hi Hp Hl Hr Hs Hj. destruct (schedule_choice _ _ _ _ Hs) as (A & _ & _ & Hc).
  rewrite Hl in *. unfold distance. destruct Hc as [[B C]|[B C]].
  - destruct (decide (pos <= i)%nat).
    + assert (j < i)%nat.
      { destruct (decide (i < j)%nat); [|lia]. by destruct (C i ltac:(lia)). }
      rewrite decide_True by lia. lia.
    + case_decide; lia.
  - assert (j < i)%nat.
    { destruct (decide (i < j)%nat); [|lia]. by destruct (C i ltac:(lia)). }
    rewrite decide_True by lia. case_decide; [|lia]. by destruct (B i ltac:(lia)).
Qed.

Lemma picks_bound i pos js :
  (i < Z.to_nat NPROC)%nat -> (pos <= Z.to_nat NPROC)%nat -> picks i pos js ->
  (i ∉ js) -> (length js <= distance i pos)%nat.
Proof.
  intros Hi Hp Hj. induction Hj as [|pos t t' j js Hl Hr Hs Hjs IH]; intros Hn; simpl; [lia|].
  apply not_elem_of_cons in Hn as [Hij Hn].
  pose proof (pick_closer i pos t j t' Hi Hp Hl Hr Hs ltac:(congruence)).
  destruct (schedule_choice _ _ _ _ Hs) as (A & _). specialize (IH ltac:(lia) Hn). lia.
Qed.

(** C29. The scheduler is fair: a process that stays runnable runs after fewer than NPROC other
    choices, wherever in the table the scheduler is and whatever the other processes do. *)
Theorem scheduler_fair i pos js :
  (i < Z.to_nat NPROC)%nat -> (pos <= Z.to_nat NPROC)%nat -> picks i pos js ->
  (Z.to_nat NPROC <= length js)%nat -> i ∈ js.
Proof.
  intros Hi Hp Hj Hl. destruct (decide (i ∈ js)) as [|Hn]; [done|]. exfalso.
  pose proof (picks_bound i pos js Hi Hp Hj Hn) as Hb. unfold distance in Hb. case_decide; lia.
Qed.

(** A table in which everybody is runnable is served in order. *)
Definition busy_table : ptab :=
  mkPtab true (replicate (Z.to_nat NPROC) (p_set_state RUNNABLE proc0)) 1 None None.

Lemma busy_picks i n pos :
  (i < 64)%nat -> (pos + n <= 64)%nat -> picks i pos (seq pos n).
Proof.
  intros Hi. revert pos. induction n as [|n IH]; intros pos Hn; simpl; [constructor|].
  eapply (picks_cons i pos busy_table); [done| | |apply IH; lia].
  - unfold pat, busy_table. cbn [tb_proc]. change (Z.to_nat NPROC) with 64%nat.
    by rewrite (list_lookup_total_correct _ _ (p_set_state RUNNABLE proc0)) by (by apply lookup_replicate_2).
  - unfold schedule, bind, gets. unfold busy_table at 1. cbn [tb_proc].
    change (Z.to_nat NPROC) with 64%nat. rewrite drop_replicate.
    destruct (64 - pos)%nat eqn:E; [lia|]. reflexivity.
Qed.

Lemma scheduler_fair_witness : picks 5 0 (seq 0 64) /\ 5%nat ∈ seq 0 64.
Proof.
  assert (H : picks 5 0 (seq 0 64)) by (apply busy_picks; lia). split; [exact H|].
  apply (scheduler_fair 5 0 (seq 0 64)); [vm_compute; lia|vm_compute; lia|exact H|vm_compute; lia].
Defined.

(** *** The invariant *)

(** [n] bounds the pids handed out since boot: as long as it is below [INT_MAX] the counter
    [nextpid] has not wrapped round. *)
Record tb_wf (n : Z) (t : ptab) : Prop := {
  tw_len : length (tb_proc t) = Z.to_nat NPROC;
  tw_running : forall i, (i < Z.to_nat NPROC)%nat ->
    p_state (pat t i) = RUNNING <-> tb_cur t = Some i;
  tw_cur : forall i, tb_cur t = Some i -> (i < Z.to_nat NPROC)%nat;
  tw_pid : n < 2 ^ 31 - 1 -> forall i, (i < Z.to_nat NPROC)%nat -> p_state (pat t i) <> UNUSED ->
    0 < p_pid (pat t i) < tb_nextpid t;
  tw_uniq : n < 2 ^ 31 - 1 -> forall i j, (i < Z.to_nat NPROC)%nat -> (j < Z.to_nat NPROC)%nat ->
    p_state (pat t i) <> UNUSED -> p_state (pat t j) <> UNUSED ->
    p_pid (pat t i) = p_pid (pat t j) -> i = j;
  tw_chan : forall i, (i < Z.to_nat NPROC)%nat -> p_state (pat t i) = SLEEPING ->
    p_chan (pat t i) <> None;
  tw_next : n < 2 ^ 31 - 1 -> 1 <= tb_nextpid t <= 1 + n;
}.

(** What happens to the table on one CPU. [proc] is a process during its operations and null in
    the scheduler, to which yield, sleep and exit give control with the lock held. The index
    is the number of pids the step hands out. *)
Inductive tstep : Z -> ptab -> ptab -> Prop :=
| TAlloc t i t' : allocproc_slot t = Ret (Some i) t' -> tstep 1 t t'
| TFull t t' : allocproc_slot t = Ret None t' -> tstep 0 t t'
| TAbort t i : p_state (pat t i) = EMBRYO -> tstep 0 t (upd_proc i (p_set_state UNUSED) t)
| TReady t i t' : p_state (pat t i) = EMBRYO -> make_runnable i t = Ret tt t' -> tstep 0 t t'
| TWakeup t ch t' : wakeup_procs ch t = Ret tt t' -> tstep 0 t t'
| TKill t pid r t' : kill pid t = Ret r t' -> tstep 0 t t'
| TYield t t' : yield t = Ret tt t' -> tstep 0 t (set_cur None t')
| TSleep t ch t' : tb_lock t = true -> sleep_proc ch t = Ret tt t' -> tstep 0 t (set_cur None t')
| TExit t t' : tb_cur t <> tb_init t -> exit_locked t = Ret tt t' -> tstep 0 t (set_cur None t')
| TReap t cur i : tb_cur t = Some cur -> tb_lock t = true ->
    wait_scan cur 0 (tb_proc t) false = inl i -> tstep 0 t (upd_proc i reap t)
| TSched t pos r t' : tb_cur t = None -> tb_lock t = true -> schedule pos t = Ret r t' -> tstep 0 t t'
| TAwake t cur : tb_cur t = Some cur -> tstep 0 t (upd_proc cur (p_set_chan None) t)
| TAcquire t t' : acquire tb_lk t = Ret tt t' -> tstep 0 t t'
| TRelease t t' : release tb_lk t = Ret tt t' -> tstep 0 t t'.

(** The tables reached from a given one by handing out [n] pids. *)
Inductive treach (t0 : ptab) : Z -> ptab -> Prop :=
| TStart : treach t0 0 t0
| TStep n k t t' : treach t0 n t -> tstep k t t' -> treach t0 (n + k) t'.

Section Invariant.
Context (n : Z).

(** Changing one process and not who runs. *)
Lemma tb_wf_upd t i f :
  tb_wf n t -> (i < Z.to_nat NPROC)%nat ->
  p_pid (f (pat t i)) = p_pid (pat t i) ->
  (p_state (f (pat t i)) = RUNNING <-> p_state (pat t i) = RUNNING) ->
  (p_state (pat t i) = UNUSED -> p_state (f (pat t i)) = UNUSED) ->
  (p_state (f (pat t i)) = SLEEPING -> p_chan (f (pat t i)) <> None) ->
  tb_wf n (upd_proc i f t).
Proof.
  intros [W1 W2 W3 W4 W5 W6 W7] Hi Hpid Hrun Hun Hch.
  assert (He : forall j, pat (upd_proc i f t) j = if decide (j = i) then f (pat t i) else pat t j).
  { intros j. case_decide; [subst; apply pat_upd_eq; lia|by apply pat_upd_ne]. }
  split; try done.
  - simpl. by rewrite length_alter.
  - intros j Hj. rewrite He. simpl. case_decide; subst; [rewrite Hrun|]; by apply W2.
  - intros Hn j Hj. specialize (W4 Hn). rewrite He. simpl. case_decide; subst; [|by apply W4]. rewrite Hpid.
    intros Hu. apply W4; [done|]. auto.
  - intros Hn j k Hj Hk. specialize (W5 Hn). rewrite !He.
    repeat case_decide; subst; auto; rewrite ?Hpid; intros Hu1 Hu2;
      apply W5; auto.
  - intros j Hj. rewrite He. case_decide; subst; auto.
Qed.

Lemma tb_wf_lock v t : tb_wf n t -> tb_wf n (lset tb_lk v t).
Proof. by intros []. Qed.

Lemma pat_upd t i f j :
  (i < length (tb_proc t))%nat -> pat (upd_proc i f t) j = if decide (j = i) then f (pat t i) else pat t j.
Proof. intros Hi. case_decide; [subst; by apply pat_upd_eq|by apply pat_upd_ne]. Qed.

(** The running process gives up the CPU. *)
Lemma tb_wf_leave t i f :
  tb_wf n t -> tb_cur t = Some i -> p_pid (f (pat t i)) = p_pid (pat t i) ->
  p_state (f (pat t i)) <> RUNNING ->
  (p_state (f (pat t i)) = SLEEPING -> p_chan (f (pat t i)) <> None) ->
  tb_wf n (set_cur None (upd_proc i f t)).
Proof.
  intros [W1 W2 W3 W4 W5 W6 W7] Hc Hpid Hrun Hch. pose proof (W3 i Hc) as Hi.
  assert (Hri : p_state (pat t i) = RUNNING) by (by apply W2).
  assert (He : forall j, pat (set_cur None (upd_proc i f t)) j =
    if decide (j = i) then f (pat t i) else pat t j) by (intros j; apply pat_upd; lia).
  split; try done.
  - simpl. by rewrite length_alter.
  - intros j Hj. rewrite He. simpl. case_decide; [done|]. rewrite W2 by done. split; congruence.
  - intros Hn j Hj. specialize (W4 Hn). rewrite He. simpl. case_decide; subst; [|by apply W4]. rewrite Hpid.
    intros _. apply W4; [done|congruence].
  - intros Hn j k Hj Hk. specialize (W5 Hn). rewrite !He.
    repeat case_decide; subst; auto; rewrite ?Hpid; intros Hu1 Hu2;
      apply W5; auto; congruence.
  - intros j Hj. rewrite He. case_decide; subst; auto.
Qed.

(** A slot that nobody runs becomes unused. *)
Lemma tb_wf_free t i f :
  tb_wf n t -> (i < Z.to_nat NPROC)%nat -> p_state (pat t i) <> RUNNING ->
  p_state (f (pat t i)) = UNUSED -> tb_wf n (upd_proc i f t).
Proof.
  intros [W1 W2 W3 W4 W5 W6 W7] Hi Hrun Hf.
  assert (He : forall j, pat (upd_proc i f t) j = if decide (j = i) then f (pat t i) else pat t j)
    by (intros j; apply pat_upd; lia).
  split; try done.
  - simpl. by rewrite length_alter.
  - intros j Hj. rewrite He. simpl. case_decide; subst; [|by apply W2].
    rewrite Hf. split; [done|]. intros Hc. by apply W2 in Hc.
  - intros Hn j Hj. specialize (W4 Hn). rewrite He. simpl. case_decide; subst; [|by apply W4]. by rewrite Hf.
  - intros Hn j k Hj Hk. specialize (W5 Hn). rewrite !He.
    repeat case_decide; subst; auto; intros Hu1 Hu2; done.
  - intros j Hj. rewrite He. case_decide; subst; [|by apply W6]. by rewrite Hf.
Qed.

(** A change of every process that at most wakes it. *)
Lemma tb_wf_map t g :
  tb_wf n t ->
  (forall p, p_pid (g p) = p_pid p /\
     (p_state (g p) = p_state p /\ p_chan (g p) = p_chan p \/
      p_state p = SLEEPING /\ p_state (g p) = RUNNABLE)) ->
  tb_wf n (set_procs (g <$> tb_proc t) t).
Proof.
  intros [W1 W2 W3 W4 W5 W6 W7] Hg.
  assert (He : forall j, (j < Z.to_nat NPROC)%nat -> pat (set_procs (g <$> tb_proc t) t) j = g (pat t j)).
  { intros j Hj. unfold pat. simpl. apply list_lookup_total_correct.
    by rewrite list_lookup_fmap, list_lookup_lookup_total_lt by lia. }
  assert (Hu : forall p, p_state (g p) <> UNUSED -> p_state p <> UNUSED).
  { intros p. destruct (Hg p) as [_ [[-> _]|[-> _]]]; done. }
  split; try done.
  - simpl. by rewrite length_fmap.
  - intros j Hj. rewrite He by done. simpl. rewrite <- W2 by done.
    destruct (Hg (pat t j)) as [_ [[-> _]|[-> ->]]]; done.
  - intros Hn j Hj. specialize (W4 Hn). rewrite He by done. simpl. destruct (Hg (pat t j)) as [-> _]. eauto.
  - intros Hn j k Hj Hk. specialize (W5 Hn). rewrite !He by done.
    destruct (Hg (pat t j)) as [-> _].
    destruct (Hg (pat t k)) as [-> _]. eauto.
  - intros j Hj. rewrite He by done. destruct (Hg (pat t j)) as [_ [[-> ->]|[_ ->]]]; [|done]. eauto.
Qed.

Lemma tb_wf_wakeup1 t ch : tb_wf n t -> tb_wf n (set_procs (wake_proc ch <$> tb_proc t) t).
Proof.
  intros Hw. apply tb_wf_map; [done|]. intros p. unfold wake_proc.
  case_bool_decide as Hd; [|auto]. destruct Hd as [Hs _]. auto.
Qed.

Lemma wf_full t t' : tb_wf n t -> allocproc_slot t = Ret None t' -> tb_wf n t'.
Proof.
  intros Hw Ha. unfold allocproc_slot, bind, acquire, release, gets, upd_p, modify, ret in Ha.
  destruct (lget tb_lk t) eqn:El; [done|]. simpl in Ha.
  destruct (find_slot (is_state UNUSED) (tb_proc t)) as [i|]; simplify_eq/=. by destruct Hw.
Qed.

Lemma wf_alloc t i t' :
  tb_wf n t -> allocproc_slot t = Ret (Some i) t' -> tb_wf (n + 1) t'.
Proof.
  intros Hw Ha. pose proof Hw as [W1 W2 W3 W4 W5 W6 W7].
  unfold allocproc_slot, bind, acquire, release, gets, upd_p, modify, ret in Ha.
  destruct (lget tb_lk t) eqn:El; [done|]. simpl in Ha.
  destruct (find_slot (is_state UNUSED) (tb_proc t)) as [k|] eqn:Ef; simplify_eq/=.
  apply find_slot_Some in Ef as (Hi & Hu%bool_decide_eq_true & _). fold (pat t i) in Hu.
  assert (Hs : n + 1 < 2 ^ 31 - 1 -> s32 (tb_nextpid t + 1) = tb_nextpid t + 1).
  { intros Hn. specialize (W7 ltac:(lia)). unfold s32, u32. rewrite Z.mod_small by lia. by rewrite (proj2 (Z.ltb_lt _ _)) by lia. }
  set (f := fun p => p_set_pid (tb_nextpid t) (p_set_state EMBRYO p)).
  match goal with |- tb_wf _ ?x => set (u := x) end.
  assert (He : forall j, pat u j = if decide (j = i) then f (pat t i) else pat t j).
  { intros j. change (pat u j) with (pat (upd_proc i (p_set_pid (tb_nextpid t))
      (upd_proc i (p_set_state EMBRYO) t)) j).
    rewrite pat_upd by (simpl; by rewrite length_alter). rewrite !pat_upd by done.
    by repeat case_decide. }
  split.
  - simpl. by rewrite !length_alter.
  - intros j Hj. rewrite He. simpl. case_decide; subst; [|by apply W2]. split; [done|].
    intros Hc. apply W2 in Hc; [|lia]. congruence.
  - simpl. exact W3.
  - intros Hn j Hj. specialize (W4 ltac:(lia) j Hj). specialize (W7 ltac:(lia)). rewrite He. simpl.
    rewrite (Hs Hn). case_decide; subst; simpl; [lia|]. intros Hu'. specialize (W4 Hu'). lia.
  - intros Hn j k Hj Hk. specialize (W4 ltac:(lia)). specialize (W5 ltac:(lia)). rewrite !He.
    repeat case_decide; subst; simpl; auto; intros H1 H2 Hp; exfalso;
      [specialize (W4 k Hk H2)|specialize (W4 j Hj H1)]; lia.
  - intros j Hj. rewrite He. case_decide; subst; simpl; [done|]. by apply W6.
  - intros Hn. simpl. rewrite (Hs Hn). specialize (W7 ltac:(lia)). lia.
Qed.

Lemma wf_kill t pid r t' : tb_wf n t -> kill pid t = Ret r t' -> tb_wf n t'.
Proof.
  intros Hw Hk. pose proof Hw as [W1 W2 W3 W4 W5 W6 W7].
  unfold kill, bind, acquire, release, gets, upd_p, modify, ret, when in Hk.
  destruct (lget tb_lk t) eqn:El; [done|]. cbn [lset tb_lk tb_proc] in Hk.
  destruct (find_slot _ (tb_proc t)) as [i|] eqn:Ef; [|simplify_eq/=; by split].
  apply find_slot_Some in Ef as (Hi & _ & _).
  set (t1 := upd_proc i (p_set_killed 1) _) in Hk.
  assert (Hw1 : tb_wf n t1).
  { apply tb_wf_upd; [by apply (tb_wf_lock true)|lia|done|done|done|]. apply W6. lia. }
  assert (Hl1 : tb_lock t1 = true) by done. clearbody t1.
  destruct (is_state SLEEPING (pat t1 i)) eqn:Es; simpl in Hk; rewrite Hl1 in Hk; simplify_eq.
  - apply (tb_wf_lock false (upd_proc i (p_set_state RUNNABLE) t1)).
    apply bool_decide_eq_true in Es.
    apply tb_wf_upd; simpl; auto; [lia|rewrite Es; done|rewrite Es; done].
  - by apply (tb_wf_lock false t1).
Qed.

(** What the loop of exit() keeps. *)
Definition exiting (c : option nat) (t : ptab) : Prop := tb_wf n t /\ tb_cur t = c /\ tb_lock t = true.

Lemma reparent_exiting c cur init j t :
  (j < Z.to_nat NPROC)%nat -> exiting c t -> wp (reparent cur init j) (fun _ => exiting c) t.
Proof.
  intros Hj (Hw & Hc & Hl). unfold reparent, when. apply wp_bind, wp_gets.
  case_bool_decide; [|by apply wp_ret]. apply wp_bind, wp_modify.
  assert (He : exiting c (upd_proc j (p_set_parent (Some init)) t)).
  { split_and!; [|done..]. apply tb_wf_upd; auto. simpl. by apply (tw_chan _ t Hw). }
  destruct (is_state ZOMBIE _); [|by apply wp_ret]. apply wp_modify.
  destruct He as (A & B & C). split_and!; [by apply tb_wf_wakeup1|done..].
Qed.

Lemma wp_curproc i t (Q : nat -> ptab -> Prop) : tb_cur t = Some i -> Q i t -> wp curproc Q t.
Proof. unfold wp, curproc. by intros ->. Qed.

Lemma wf_exit t t' : tb_wf n t -> exit_locked t = Ret tt t' -> tb_wf n (set_cur None t').
Proof.
  intros Hw He.
  assert (H : wp exit_locked (fun _ t' => tb_wf n (set_cur None t')) t \/ exit_locked t <> Ret tt t').
  2: { destruct H as [H|H]; [|done]. unfold wp in H. by rewrite He in H. }
  destruct (tb_lock t) eqn:El; [right; unfold exit_locked, bind, acquire; simpl; by rewrite El|].
  destruct (tb_cur t) as [i|] eqn:Ec.
  2: { right. unfold exit_locked, bind, acquire, curproc. simpl. by rewrite El, Ec. }
  left. unfold exit_locked. apply wp_bind, wp_acquire; [done|]. apply wp_bind.
  apply (wp_curproc i); [done|]. apply wp_bind, wp_gets.
  set (t1 := lset tb_lk true t). assert (H1 : exiting (Some i) t1) by (split_and!; [by apply tb_wf_lock|done..]).
  clearbody t1. apply wp_bind. eapply (wp_mono _ (fun _ => exiting (Some i))).
  { destruct H1 as (A & B & C). destruct (p_parent (pat t1 i)); [apply wp_modify|by apply wp_ret].
    split_and!; [by apply tb_wf_wakeup1|done..]. }
  intros _ t2 H2. apply wp_bind. eapply (wp_mono _ (fun _ => exiting (Some i))).
  { destruct (tb_init t1) as [init|]; [|by apply wp_ret].
    eapply wp_mono; [apply (wp_for_range (fun _ => exiting (Some i)))|]; [done| |by intros ? ?].
    intros j s Hj Hs. apply reparent_exiting; [lia|done]. }
  intros _ t3 (A & B & C). apply wp_bind, wp_modify. unfold sched.
  pose proof (tw_cur _ _ A i B) as Hi. pose proof (tw_len _ _ A) as Hlen.
  apply wp_bind, (wp_curproc i); [done|]. apply wp_bind, wp_gets. cbn [tb_lock upd_proc set_procs]. rewrite C. cbn [negb].
  rewrite pat_upd_eq by lia. simpl. apply wp_ret.
  apply tb_wf_leave; auto.
Qed.

Lemma sched_same t r t' : sched t = Ret r t' -> t' = t.
Proof.
  unfold sched, bind, curproc, gets, panic, ret. destruct (tb_cur t); [|done].
  destruct (negb _); [done|]. by destruct (is_state RUNNING _); intros; simplify_eq.
Qed.

Lemma wf_yield t t' : tb_wf n t -> yield t = Ret tt t' -> tb_wf n (set_cur None t').
Proof.
  intros Hw Hy. unfold yield, acquire, bind in Hy. destruct (lget tb_lk t); [done|].
  unfold curproc at 1 in Hy. destruct (tb_cur (lset tb_lk true t)) as [i|] eqn:Ec; [|done].
  apply sched_same in Hy. subst t'.
  apply (tb_wf_leave (lset tb_lk true t) i); [by apply tb_wf_lock|done..].
Qed.

Lemma wf_sleep t ch t' : tb_wf n t -> sleep_proc ch t = Ret tt t' -> tb_wf n (set_cur None t').
Proof.
  intros Hw Hy. unfold sleep_proc, bind in Hy. unfold curproc at 1 in Hy.
  destruct (tb_cur t) as [i|] eqn:Ec; [|done]. apply sched_same in Hy. subst t'.
  pose proof (tw_cur _ _ Hw i Ec) as Hi. pose proof (tw_len _ _ Hw) as Hl.
  apply (tb_wf_leave (upd_proc i (p_set_chan (Some ch)) t) i); [|done|done|done|].
  - apply tb_wf_upd; auto.
  - intros _. simpl. by rewrite pat_upd_eq by lia.
Qed.

Lemma wait_scan_spec cur i0 l h i :
  wait_scan cur i0 l h = inl i -> (i0 <= i < i0 + length l)%nat /\
    p_state (l !!! (i - i0)%nat) = ZOMBIE /\ p_parent (l !!! (i - i0)%nat) = Some cur.
Proof.
  revert i0 h. induction l as [|p l IH]; intros i0 h; simpl; [done|].
  assert (Hrec : forall h', wait_scan cur (S i0) l h' = inl i ->
    (i0 <= i < i0 + S (length l))%nat /\ p_state ((p :: l) !!! (i - i0)%nat) = ZOMBIE /\
    p_parent ((p :: l) !!! (i - i0)%nat) = Some cur).
  { intros h' Hs. destruct (IH _ _ Hs) as (A & B & C).
    replace (i - i0)%nat with (S (i - S i0)) by lia. split_and!; [lia|lia|done|done]. }
  case_bool_decide as Hp; [|apply Hrec]. destruct (is_state ZOMBIE p) eqn:Ez; [|apply Hrec].
  intros [= <-]. rewrite Nat.sub_diag. apply bool_decide_eq_true in Ez. split_and!; [lia|lia|done|done].
Qed.

Lemma wf_sched t pos r t' : tb_wf n t -> tb_cur t = None -> schedule pos t = Ret r t' -> tb_wf n t'.
Proof.
  intros Hw Hc Hs. destruct r as [j|].
  - destruct (schedule_choice _ _ _ _ Hs) as (A & B & -> & _).
    pose proof Hw as [W1 W2 W3 W4 W5 W6 W7].
    assert (He : forall k, pat (upd_proc j (p_set_state RUNNING) (set_cur (Some j) t)) k =
      if decide (k = j) then p_set_state RUNNING (pat t j) else pat t k).
    { intros k. by rewrite pat_upd. }
    split; try done.
    + simpl. by rewrite length_alter.
    + intros k Hk. rewrite He. simpl. case_decide; subst; [done|]. rewrite W2 by done.
      split; congruence.
    + intros k Hk. simpl in Hk. simplify_eq. lia.
    + intros Hn k Hk. specialize (W4 Hn). rewrite He. simpl. case_decide; subst; [|by apply W4]. intros _. apply W4; [lia|congruence].
    + intros Hn k l Hk Hl. specialize (W5 Hn). rewrite !He.
    repeat case_decide; subst; simpl; auto; intros H1 H2; apply W5; congruence.
    + intros k Hk. rewrite He. case_decide; subst; [done|by apply W6].
  - unfold schedule, bind, gets, modify, upd_p, ret in Hs.
    destruct (match next_runnable pos _ with Some i => Some i | None => next_runnable 0 (tb_proc t) end);
      by simplify_eq.
Qed.

Lemma tb_wf_step k t t' : tb_wf n t -> tstep k t t' -> tb_wf (n + k) t'.
Proof.
  intros Hw. destruct 1 as [t i t' Ha|t t' Ha|t i Hi|t i t' Hi Hr|t ch t' Hk|t pid r t' Hk|t t' Hy
    |t ch t' _ Hs|t t' _ He|t cur i Hc _ Hs|t pos r t' Hc _ Hs|t cur Hc|t t' Ha|t t' Ha].
  { by eapply wf_alloc. }
  all: rewrite Z.add_0_r.
  - by eapply wf_full.
  - assert (Hlt : (i < length (tb_proc t))%nat).
    { destruct (decide (i < length (tb_proc t))%nat); [done|]. unfold pat in Hi.
      rewrite list_lookup_total_alt, lookup_ge_None_2 in Hi by lia. done. }
    rewrite (tw_len _ _ Hw) in Hlt. apply tb_wf_free; auto. congruence.
  - assert (Hlt : (i < length (tb_proc t))%nat).
    { destruct (decide (i < length (tb_proc t))%nat); [done|]. unfold pat in Hi.
      rewrite list_lookup_total_alt, lookup_ge_None_2 in Hi by lia. done. }
    rewrite (tw_len _ _ Hw) in Hlt.
    unfold make_runnable, bind, acquire, release, upd_p, modify in Hr. destruct (lget tb_lk t); [done|].
    simplify_eq/=. apply (tb_wf_lock false (upd_proc i (p_set_state RUNNABLE) (lset tb_lk true t))).
    apply tb_wf_upd; [by apply tb_wf_lock|done|done| | |done]; simpl; change (pat (mkPtab true _ _ _ _) i)
      with (pat t i); rewrite Hi; done.
  - unfold wakeup_procs, wakeup1, bind, acquire, release, modify in Hk. destruct (lget tb_lk t); [done|].
    injection Hk as <-. pose proof (tb_wf_wakeup1 t ch Hw) as Hw'. by destruct Hw'.
  - by eapply wf_kill.
  - by apply wf_yield in Hy.
  - by apply wf_sleep in Hs.
  - by apply wf_exit in He.
  - apply wait_scan_spec in Hs as (A & B & _). rewrite Nat.sub_0_r in B. fold (pat t i) in B.
    rewrite (tw_len _ _ Hw) in A. apply tb_wf_free; auto; [lia|congruence].
  - by eapply wf_sched.
  - pose proof (tw_cur _ _ Hw cur Hc) as Hi. pose proof (proj2 (tw_running _ _ Hw cur Hi) Hc) as Hr.
    apply tb_wf_upd; auto. simpl. by rewrite Hr.
  - unfold acquire in Ha. destruct (lget tb_lk t); simplify_eq. by apply tb_wf_lock.
  - unfold release in Ha. destruct (lget tb_lk t); simplify_eq. by apply tb_wf_lock.
Qed.

End Invariant.

(** The table at boot. *)
Definition boot_table : ptab := mkPtab false (replicate (Z.to_nat NPROC) proc0) 1 None None.

Lemma boot_table_wf : tb_wf 0 boot_table.
Proof.
  assert (Hp : forall i, (i < Z.to_nat NPROC)%nat -> pat boot_table i = proc0).
  { intros i Hi. apply list_lookup_total_correct. by apply lookup_replicate_2. }
  split; try done; intros; rewrite ?Hp in * by done; done.
Qed.


(** The first process is made, scheduled, and forks. *)
Definition demo_table : ptab :=
  match (allocproc_slot ;; make_runnable 0 ;; acquire tb_lk ;; schedule 0 ;;
         release tb_lk ;; allocproc_slot) boot_table with
  | Ret _ t => t
  | _ => boot_table
  end.

Lemma demo_table_reached : treach boot_table 2 demo_table.
Proof.
  pose (t1 := match allocproc_slot boot_table with Ret _ t => t | _ => boot_table end).
  pose (t2 := match make_runnable 0 t1 with Ret _ t => t | _ => boot_table end).
  pose (t3 := match acquire tb_lk t2 with Ret _ t => t | _ => boot_table end).
  pose (t4 := match schedule 0 t3 with Ret _ t => t | _ => boot_table end).
  pose (t5 := match release tb_lk t4 with Ret _ t => t | _ => boot_table end).
  assert (E1 : allocproc_slot boot_table = Ret (Some 0%nat) t1) by (vm_compute; reflexivity).
  assert (E2 : make_runnable 0 t1 = Ret tt t2) by (vm_compute; reflexivity).
  assert (E3 : acquire tb_lk t2 = Ret tt t3) by (vm_compute; reflexivity).
  assert (E4 : schedule 0 t3 = Ret (Some 0%nat) t4) by (vm_compute; reflexivity).
  assert (E5 : release tb_lk t4 = Ret tt t5) by (vm_compute; reflexivity).
  assert (E6 : allocproc_slot t5 = Ret (Some 1%nat) demo_table) by (vm_compute; reflexivity).
  change 2 with (0 + 1 + 0 + 0 + 0 + 0 + 1). apply (TStep _ _ _ t5); [|eapply TAlloc; exact E6].
  apply (TStep _ _ _ t4); [|by apply TRelease].
  apply (TStep _ _ _ t3); [|eapply TSched; [vm_compute; reflexivity..|exact E4]].
  apply (TStep _ _ _ t2); [|by apply TAcquire].
  apply (TStep _ _ _ t1); [|apply (TReady _ 0); [vm_compute; reflexivity|exact E2]].
  apply (TStep _ _ _ boot_table); [apply TStart|eapply TAlloc; exact E1].
Qed.


(** kill(0) returns 0, although there is no process 0: it finds the first free slot, whose
    pid is 0, and marks it killed. allocproc() does not reset the mark, so the next process
    that gets the slot is killed from the start. *)
Theorem kill_zero_kills_next_process t i :
  tb_lock t = false ->
  find_slot (is_state UNUSED) (tb_proc t) = Some i ->
  find_slot (fun p => p_pid p =? 0) (tb_proc t) = Some i ->
  exists t1 t2, kill 0 t = Ret 0 t1 /\ allocproc_slot t1 = Ret (Some i) t2 /\
    p_state (pat t2 i) = EMBRYO /\ p_killed (pat t2 i) = 1.
Proof.
  intros Hl Hu Hz. pose proof (find_slot_Some _ _ _ Hu) as (Hi & Hui%bool_decide_eq_true & Hbu).
  fold (pat t i) in Hui.
  set (t1 := lset tb_lk false (upd_proc i (p_set_killed 1) (lset tb_lk true t))).
  assert (Hk : kill 0 t = Ret 0 t1).
  { unfold kill, bind, acquire, release, gets, upd_p, modify, ret, when. cbn [lget tb_lk].
    rewrite Hl. cbn [lset tb_lk tb_proc]. rewrite Hz. unfold is_state at 1.
    rewrite pat_upd_eq by done. cbn [p_state p_set_killed].
    change (pat (mkPtab true _ _ _ _) i) with (pat t i). rewrite Hui. reflexivity. }
  assert (Hu1 : find_slot (is_state UNUSED) (tb_proc t1) = Some i).
  { unfold find_slot. apply fmap_Some. exists (i, p_set_killed 1 (pat t i)). split; [|done].
    apply list_find_Some. split_and!.
    - unfold t1. simpl. rewrite list_lookup_alter_eq, list_lookup_lookup_total_lt by done. done.
    - unfold is_state. simpl. by rewrite Hui.
    - intros j y Hy Hj. unfold t1 in Hy. simpl in Hy. rewrite list_lookup_alter_ne in Hy by lia.
      specialize (Hbu j Hj). rewrite (list_lookup_total_correct _ _ _ Hy) in Hbu. by rewrite Hbu. }
  eexists t1, _. split; [exact Hk|]. unfold allocproc_slot, bind, acquire, release, gets, upd_p, modify, ret.
  change (lget tb_lk t1) with false. cbn [lset tb_lk tb_proc].
  rewrite Hu1. split; [reflexivity|].
  set (u := upd_proc i (p_set_pid (tb_nextpid t1)) (upd_proc i (p_set_state EMBRYO) t1)).
  assert (Hp : pat u i = p_set_pid (tb_nextpid t1) (p_set_state EMBRYO (p_set_killed 1 (pat t i)))).
  { unfold u. rewrite !pat_upd_eq; [|simpl; rewrite ?length_alter; done..].
    unfold t1. change (pat (lset tb_lk false ?x) i) with (pat x i). by rewrite pat_upd_eq. }
  split; change (pat (mkPtab false _ _ _ _) i) with (pat u i); by rewrite Hp.
Qed.

Lemma kill_zero_kills_next_process_witness :
  exists t1 t2, kill 0 demo_table = Ret 0 t1 /\ allocproc_slot t1 = Ret (Some 2%nat) t2 /\
    p_state (pat t2 2) = EMBRYO /\ p_killed (pat t2 2) = 1.
Proof. apply kill_zero_kills_next_process; vm_compute; reflexivity. Defined.
