(* ===== verification/Kernel.v ===== *)
(** The state of the whole kernel, as the system calls see it: the file system, the open
    files, the pipes, the memory, the process table, the clock and the system call counters.

    Code of a component runs on its part of the state. A call of wakeup() in the file system
    or in a pipe wakes the processes of the process table when the code returns or sleeps. *)

From S2P Require Export Fs Pipe Vm UserMem ProcTab.

Open Scope Z_scope.
Open Scope kernel_scope.

(** struct file *)
Inductive ftype : Type := FD_NONE | FD_PIPE | FD_INODE.

#[export] Instance ftype_eq_dec : EqDecision ftype.
Proof. solve_decision. Defined.

(** [f_pipe] is the address of the pipe, [f_ip] the inode. *)
Record file := mkFile {
  f_type : ftype;
  f_ref : Z;
  f_readable : bool;
  f_writable : bool;
  f_pipe : Z;
  f_ip : nat;
  f_off : Z;
}.

#[export] Instance file_inhabited : Inhabited file := populate (mkFile FD_NONE 0 false false 0 0 0).

Record kern := mkKern {
  k_fs : fsys;
  k_ftlock : bool;
  k_files : list file;
  k_pipes : gmap Z pipe;
  k_mem : kst;
  k_tab : ptab;
  k_ticks : Z;
  k_tickslock : bool;
  k_calls : list Z;
  k_first : bool;
}.

Definition set_fs (v : fsys) (k : kern) : kern :=
  mkKern v (k_ftlock k) (k_files k) (k_pipes k) (k_mem k) (k_tab k) (k_ticks k) (k_tickslock k)
    (k_calls k) (k_first k).
Definition set_files (v : list file) (k : kern) : kern :=
  mkKern (k_fs k) (k_ftlock k) v (k_pipes k) (k_mem k) (k_tab k) (k_ticks k) (k_tickslock k)
    (k_calls k) (k_first k).
Definition set_pipes (v : gmap Z pipe) (k : kern) : kern :=
  mkKern (k_fs k) (k_ftlock k) (k_files k) v (k_mem k) (k_tab k) (k_ticks k) (k_tickslock k)
    (k_calls k) (k_first k).
Definition set_mem (v : kst) (k : kern) : kern :=
  mkKern (k_fs k) (k_ftlock k) (k_files k) (k_pipes k) v (k_tab k) (k_ticks k) (k_tickslock k)
    (k_calls k) (k_first k).
Definition set_tab (v : ptab) (k : kern) : kern :=
  mkKern (k_fs k) (k_ftlock k) (k_files k) (k_pipes k) (k_mem k) v (k_ticks k) (k_tickslock k)
    (k_calls k) (k_first k).
Definition set_ticks (v : Z) (k : kern) : kern :=
  mkKern (k_fs k) (k_ftlock k) (k_files k) (k_pipes k) (k_mem k) (k_tab k) v (k_tickslock k)
    (k_calls k) (k_first k).
Definition set_calls (v : list Z) (k : kern) : kern :=
  mkKern (k_fs k) (k_ftlock k) (k_files k) (k_pipes k) (k_mem k) (k_tab k) (k_ticks k)
    (k_tickslock k) v (k_first k).
Definition set_first (v : bool) (k : kern) : kern :=
  mkKern (k_fs k) (k_ftlock k) (k_files k) (k_pipes k) (k_mem k) (k_tab k) (k_ticks k)
    (k_tickslock k) (k_calls k) v.

Definition ft_lk : lens kern bool :=
  mkLens k_ftlock (fun v k => mkKern (k_fs k) v (k_files k) (k_pipes k) (k_mem k) (k_tab k)
    (k_ticks k) (k_tickslock k) (k_calls k) (k_first k)).
Definition ticks_lk : lens kern bool :=
  mkLens k_tickslock (fun v k => mkKern (k_fs k) (k_ftlock k) (k_files k) (k_pipes k) (k_mem k)
    (k_tab k) (k_ticks k) v (k_calls k) (k_first k)).

(** *** Components on the kernel's state *)

(** The processes that sleep on the channels run again. *)
Definition wake_all (ws : list chan) (k : kern) : kern :=
  set_tab (foldl (fun t ch => set_procs (wake_proc ch <$> tb_proc t) t) (k_tab k) ws) k.

Definition cur_proc (k : kern) : proc :=
  match tb_cur (k_tab k) with Some i => pat (k_tab k) i | None => proc0 end.

(** [proc->field = v] *)
Definition upd_cur (f : proc -> proc) : M kern unit :=
  modify (fun k => match tb_cur (k_tab k) with
                   | Some i => set_tab (upd_proc i f (k_tab k)) k
                   | None => k
                   end).

(** sleep() from the acquisition of ptable.lock on; [lk] has been released. *)
Definition do_sleep (ch : chan) (k : kern) : kern :=
  match (acquire tb_lk ;; sleep_proc ch) (k_tab k) with
  | Ret _ t => set_tab t k
  | _ => k
  end.
Definition sleep_k {A} (ch : chan) : M kern A := fun k => Sleep ch (do_sleep ch k).

Definition with_pid (pid : Z) (s : fsys) : fsys :=
  mkFsys (memdisk s) (wtrace s) (bc_lock s) (bufs s) (fslog s) (sb s) (ic_lock s) (icache s) []
    pid.

Definition in_fs {A} (m : M fsys A) : M kern A := fun k =>
  match m (with_pid (p_pid (cur_proc k)) (k_fs k)) with
  | Ret a s => Ret a (wake_all (woken s) (set_fs s k))
  | Panic e => Panic e
  | Sleep c s => Sleep c (do_sleep c (wake_all (woken s) (set_fs s k)))
  | Diverge => Diverge
  end.

Definition in_mem {A} (m : M kst A) : M kern A := lift k_mem set_mem m.
Definition in_tab {A} (m : M ptab A) : M kern A := lift k_tab set_tab m.

Definition pipe_chan (a : Z) (ch : chan) : chan :=
  match ch with
  | ChPipeRead => ChNread a
  | ChPipeWrite => ChNwrite a
  | _ => ch
  end.

(** Code of pipe.c on the pipe at address [a]. *)
Definition in_pipe {A} (a : Z) (m : M pst A) : M kern A := fun k =>
  match k_pipes k !! a with
  | None => Panic "no pipe"
  | Some p =>
      match m (mkPst p (negb (p_killed (cur_proc k) =? 0)) []) with
      | Ret v s => Ret v (wake_all (pipe_chan a <$> pw s) (set_pipes (<[a := pp s]> (k_pipes k)) k))
      | Panic e => Panic e
      | Sleep c s => Sleep c k
      | Diverge => Diverge
      end
  end.

(** *** User memory *)

(** What the process reads and writes at a user address, through its page table. *)
Definition uread (k : kern) (va : Z) : Z := ubyte (km (k_mem k)) (p_pgdir (cur_proc k)) va.

Fixpoint uread_bytes (k : kern) (va : Z) (n : nat) : list Z :=
  match n with
  | O => []
  | S n' => uread k va :: uread_bytes k (va + 1) n'
  end.

Definition uwrite (va v : Z) (k : kern) : kern :=
  let m := k_mem k in
  set_mem (set_km (wr (km m) (upage (km m) (p_pgdir (cur_proc k)) va + va mod 4096) v) m) k.

Fixpoint uwrite_bytes (va : Z) (bs : list Z) (k : kern) : kern :=
  match bs with
  | [] => k
  | b :: bs' => uwrite_bytes (va + 1) bs' (uwrite va b k)
  end.
