(* ===== verification/File.v ===== *)
(** file.c, and pipealloc() and pipeclose() of pipe.c on the kernel's state. A read returns the
    bytes that it stores; the caller stores them in the memory of the process. *)

From S2P Require Export Kernel.

Open Scope Z_scope.
Open Scope kernel_scope.

Definition fat (k : kern) (f : nat) : file := k_files k !!! f.
Definition upd_file (f : nat) (g : file -> file) : M kern unit :=
  modify (fun k => set_files (alter g f (k_files k)) k).

Definition f_set_ref (v : Z) (f : file) : file :=
  mkFile (f_type f) v (f_readable f) (f_writable f) (f_pipe f) (f_ip f) (f_off f).
Definition f_set_type (v : ftype) (f : file) : file :=
  mkFile v (f_ref f) (f_readable f) (f_writable f) (f_pipe f) (f_ip f) (f_off f).
Definition f_set_off (v : Z) (f : file) : file :=
  mkFile (f_type f) (f_ref f) (f_readable f) (f_writable f) (f_pipe f) (f_ip f) v.
Definition f_set_rw (r w : bool) (f : file) : file :=
  mkFile (f_type f) (f_ref f) r w (f_pipe f) (f_ip f) (f_off f).
Definition f_set_pipe (v : Z) (f : file) : file :=
  mkFile (f_type f) (f_ref f) (f_readable f) (f_writable f) v (f_ip f) (f_off f).
Definition f_set_ip (v : nat) (f : file) : file :=
  mkFile (f_type f) (f_ref f) (f_readable f) (f_writable f) (f_pipe f) v (f_off f).

Section File.
Context (devsw : Z -> devsw_entry) (kend : Z).

Definition fileinit : M kern unit := modify (lset ft_lk false).

Definition filealloc : M kern (option nat) :=
  acquire ft_lk ;;
  l <- gets k_files ;;
  match list_find (fun f => f_ref f = 0) (take (Z.to_nat NFILE) l) with
  | Some (f, _) =>
      upd_file f (f_set_ref 1) ;;
      release ft_lk ;;
      ret (Some f)
  | None => release ft_lk ;; ret None
  end.

Definition filedup (f : nat) : M kern nat :=
  acquire ft_lk ;;
  x <- gets (fun k => fat k f) ;;
  if f_ref x <? 1 then panic "filedup" else
  upd_file f (f_set_ref (f_ref x + 1)) ;;
  release ft_lk ;;
  ret f.

(** pipeclose(), with the kfree() of the page of a pipe that is closed at both ends. *)
Definition pipeclose_k (a : Z) (writable : bool) : M kern unit :=
  freed <- in_pipe a (pipeclose writable) ;;
  when freed
    (modify (fun k => set_pipes (delete a (k_pipes k)) k) ;;
     in_mem (kfree kend a)).

Definition fileclose (f : nat) : M kern unit :=
  acquire ft_lk ;;
  x <- gets (fun k => fat k f) ;;
  if f_ref x <? 1 then panic "fileclose" else
  upd_file f (f_set_ref (f_ref x - 1)) ;;
  if 0 <? f_ref x - 1 then release ft_lk else
  ff <- gets (fun k => fat k f) ;;
  upd_file f (f_set_ref 0) ;;
  upd_file f (f_set_type FD_NONE) ;;
  release ft_lk ;;
  match f_type ff with
  | FD_PIPE => pipeclose_k (f_pipe ff) (f_writable ff)
  | FD_INODE =>
      in_fs begin_op ;;
      in_fs (iput (f_ip ff)) ;;
      in_fs end_op
  | FD_NONE => ret tt
  end.

Definition filestat (f : nat) : M kern (option stat) :=
  x <- gets (fun k => fat k f) ;;
  if bool_decide (f_type x = FD_INODE) then
    in_fs (ilock (Some (f_ip x))) ;;
    st <- in_fs (stati (f_ip x)) ;;
    in_fs (iunlock (Some (f_ip x))) ;;
    ret (Some st)
  else ret None.

(** piperead() and pipewrite() as a whole: a call that has to wait puts the process to sleep. *)
Definition piperead_k (a n : Z) : M kern (Z * list Z) :=
  r <- in_pipe a (piperead n) ;;
  match r with
  | inl v => ret v
  | inr _ => sleep_k (ChNread a)
  end.

Definition pipewrite_k (a : Z) (src : list Z) (n : Z) : M kern Z :=
  r <- in_pipe a (pipewrite (take (Z.to_nat n) src) n) ;;
  match r with
  | inl v => ret v
  | inr _ => sleep_k (ChNwrite a)
  end.

Definition fileread (f : nat) (n : Z) : M kern (Z * list Z) :=
  x <- gets (fun k => fat k f) ;;
  if negb (f_readable x) then ret (-1, []) else
  match f_type x with
  | FD_PIPE => piperead_k (f_pipe x) n
  | FD_INODE =>
      in_fs (ilock (Some (f_ip x))) ;;
      r <- in_fs (readi devsw (f_ip x) (f_off x) n) ;;
      when (0 <? fst r) (upd_file f (f_set_off (u32 (f_off x + fst r)))) ;;
      in_fs (iunlock (Some (f_ip x))) ;;
      ret r
  | FD_NONE => panic "fileread"
  end.

(** [int max = ((LOGSIZE-1-1-2) / 2) * 512] *)
Definition write_max : Z := (LOGSIZE - 1 - 1 - 2) / 2 * 512.

Fixpoint filewrite_loop (fuel : nat) (f : nat) (addr : list Z) (i n : Z) : M kern Z :=
  if i <? n then
    match fuel with
    | O => diverge
    | S fuel' =>
        let n1 := Z.min (n - i) write_max in
        x <- gets (fun k => fat k f) ;;
        in_fs begin_op ;;
        in_fs (ilock (Some (f_ip x))) ;;
        r <- in_fs (writei devsw (f_ip x) (drop (Z.to_nat i) addr) (f_off x) n1) ;;
        when (0 <? r) (upd_file f (f_set_off (u32 (f_off x + r)))) ;;
        in_fs (iunlock (Some (f_ip x))) ;;
        in_fs end_op ;;
        if r <? 0 then ret i else
        if negb (r =? n1) then panic "short filewrite" else
        filewrite_loop fuel' f addr (i + r) n
    end
  else ret i.

Definition filewrite (f : nat) (addr : list Z) (n : Z) : M kern Z :=
  x <- gets (fun k => fat k f) ;;
  if negb (f_writable x) then ret (-1) else
  match f_type x with
  | FD_PIPE => pipewrite_k (f_pipe x) addr n
  | FD_INODE =>
      i <- filewrite_loop (S (Z.to_nat n)) f addr 0 n ;;
      ret (if i =? n then n else -1)
  | FD_NONE => panic "filewrite"
  end.

(** The end of pipealloc() when something could not be allocated. *)
Definition pipealloc_bad (f0 f1 : option nat) : M kern (option (nat * nat)) :=
  match f0 with Some f => fileclose f | None => ret tt end ;;
  match f1 with Some f => fileclose f | None => ret tt end ;;
  ret None.

Definition pipealloc : M kern (option (nat * nat)) :=
  f0 <- filealloc ;;
  match f0 with
  | None => pipealloc_bad None None
  | Some r =>
      f1 <- filealloc ;;
      match f1 with
      | None => pipealloc_bad (Some r) None
      | Some w =>
          a <- in_mem kalloc ;;
          if a =? 0 then pipealloc_bad (Some r) (Some w) else
          modify (fun k => set_pipes
            (<[a := pipe_init (rd_bytes (km (k_mem k)) a (Z.to_nat PIPESIZE))]> (k_pipes k)) k) ;;
          upd_file r (fun f => f_set_pipe a (f_set_rw true false (f_set_type FD_PIPE f))) ;;
          upd_file w (fun f => f_set_pipe a (f_set_rw false true (f_set_type FD_PIPE f))) ;;
          ret (Some (r, w))
      end
  end.

End File.
