(* ===== verification/Sysfile.v ===== *)
(** syscall.c's access to the arguments of a system call, and sysfile.c.

    A user pointer is an address that is checked against the size of the process; the bytes
    behind it are those that the process sees through its page table. *)

From S2P Require Export File.

Open Scope Z_scope.
Open Scope kernel_scope.

(** *** Arguments *)

(** Offsets of the fields of struct trapframe. *)
Definition tf_eax : Z := 28.
Definition tf_es : Z := 40.
Definition tf_ds : Z := 44.
Definition tf_trapno : Z := 48.
Definition tf_eip : Z := 56.
Definition tf_cs : Z := 60.
Definition tf_eflags : Z := 64.
Definition tf_esp : Z := 68.
Definition tf_ss : Z := 72.
Definition sizeof_tf : Z := 76.

Definition tf_get (off : Z) (k : kern) : Z := rd32 (km (k_mem k)) (p_tf (cur_proc k) + off).
Definition tf_set (off v : Z) : M kern unit :=
  modify (fun k => set_mem (set_km (wr32 (km (k_mem k)) (p_tf (cur_proc k) + off) v) (k_mem k)) k).

(** The int at a user address. *)
Definition fetchint (addr : Z) : M kern (option Z) := fun k =>
  let sz := p_sz (cur_proc k) in
  if (sz <=? addr) || (sz <? u32 (addr + 4)) then Ret None k
  else Ret (Some (s32 (le_val (uread_bytes k addr 4)))) k.

(** The loop of fetchstr(): the bytes before the NUL, if it comes before the end. *)
Fixpoint fetchstr_loop (n : nat) (k : kern) (s : Z) : option (list Z) :=
  match n with
  | O => None
  | S n' =>
      if uread k s =? 0 then Some []
      else cons (uread k s) <$> fetchstr_loop n' k (s + 1)
  end.

(** The string at a user address. *)
Definition fetchstr (addr : Z) : M kern (option (list Z)) := fun k =>
  let sz := p_sz (cur_proc k) in
  if sz <=? addr then Ret None k
  else Ret (fetchstr_loop (Z.to_nat (sz - addr)) k addr) k.

Definition argint (n : Z) : M kern (option Z) := fun k =>
  fetchint (u32 (tf_get tf_esp k + 4 + 4 * n)) k.

Definition argptr (n size : Z) : M kern (option Z) :=
  i <- argint n ;;
  match i with
  | None => ret None
  | Some i =>
      sz <- gets (fun k => p_sz (cur_proc k)) ;;
      ret (if (size <? 0) || (sz <=? u32 i) || (sz <? u32 (u32 i + size)) then None else Some (u32 i))
  end.

Definition argstr (n : Z) : M kern (option (list Z)) :=
  a <- argint n ;;
  match a with
  | None => ret None
  | Some addr => fetchstr (u32 addr)
  end.

(** Run the rest of a system call with an argument, or fail with -1. *)
Definition get_arg {A} (m : M kern (option A)) (k : A -> M kern Z) : M kern Z :=
  r <- m ;; match r with None => ret (-1) | Some a => k a end.

(** *** File descriptors *)

(** Returns the descriptor and the file. *)
Definition argfd (n : Z) : M kern (option (Z * nat)) :=
  fd <- argint n ;;
  match fd with
  | None => ret None
  | Some fd =>
      l <- gets (fun k => p_ofile (cur_proc k)) ;;
      ret (if (fd <? 0) || (NOFILE <=? fd) then None
           else match l !!! Z.to_nat fd with Some f => Some (fd, f) | None => None end)
  end.

Definition set_fd (fd : nat) (v : option nat) : M kern unit :=
  upd_cur (fun p => p_set_ofile (<[fd := v]> (p_ofile p)) p).

Definition fdalloc (f : nat) : M kern Z :=
  l <- gets (fun k => p_ofile (cur_proc k)) ;;
  match list_find (fun o => o = None) (take (Z.to_nat NOFILE) l) with
  | Some (fd, _) => set_fd fd (Some f) ;; ret (Z.of_nat fd)
  | None => ret (-1)
  end.

Section Sysfile.
Context (devsw : Z -> devsw_entry) (kend : Z).

Definition sys_dup : M kern Z :=
  get_arg (argfd 0) (fun '(_, f) =>
    fd <- fdalloc f ;;
    if fd <? 0 then ret (-1) else
    filedup f ;;
    ret fd).

Definition sys_read : M kern Z :=
  get_arg (argfd 0) (fun '(_, f) =>
  get_arg (argint 2) (fun n =>
  get_arg (argptr 1 n) (fun p =>
    r <- fileread devsw f n ;;
    modify (uwrite_bytes p (snd r)) ;;
    ret (fst r)))).

Definition sys_write : M kern Z :=
  get_arg (argfd 0) (fun '(_, f) =>
  get_arg (argint 2) (fun n =>
  get_arg (argptr 1 n) (fun p =>
    src <- gets (fun k => uread_bytes k p (Z.to_nat n)) ;;
    filewrite devsw f src n))).

Definition sys_close : M kern Z :=
  get_arg (argfd 0) (fun '(fd, f) =>
    set_fd (Z.to_nat fd) None ;;
    fileclose kend f ;;
    ret 0).

(** stati() to a user address; the padding is not written. *)
Definition store_stat (p : Z) (st : stat) (k : kern) : kern :=
  uwrite_bytes (p + 16) (le_bytes 4 (st_size st))
    (uwrite_bytes (p + 12) (le_bytes 2 (st_nlink st))
      (uwrite_bytes (p + 8) (le_bytes 4 (st_ino st))
        (uwrite_bytes (p + 4) (le_bytes 4 (st_dev st))
          (uwrite_bytes p (le_bytes 2 (st_type st)) k)))).
Definition sizeof_stat : Z := 20.

Definition sys_fstat : M kern Z :=
  get_arg (argfd 0) (fun '(_, f) =>
  get_arg (argptr 1 sizeof_stat) (fun p =>
    st <- filestat f ;;
    match st with
    | Some st => modify (store_stat p st) ;; ret 0
    | None => ret (-1)
    end)).

Definition fs_ino {A} (f : inode -> A) (ip : nat) : M kern A :=
  in_fs (gets (fun s => f (ino s ip))).

(** namei() and nameiparent() from the directory of the process. *)
Definition cwd_namei (path : list Z) : M kern (option nat) :=
  c <- gets (fun k => p_cwd (cur_proc k)) ;;
  in_fs (namei devsw (default 0%nat c) path).
Definition cwd_nameiparent (path : list Z) : M kern (option nat * list Z) :=
  c <- gets (fun k => p_cwd (cur_proc k)) ;;
  in_fs (nameiparent devsw (default 0%nat c) path (replicate (Z.to_nat DIRSIZ) 0)).

(** The end of sys_link() when the new name could not be made. *)
Definition link_bad (ip : nat) : M kern Z :=
  in_fs (ilock (Some ip)) ;;
  n <- fs_ino i_nlink ip ;;
  in_fs (upd_inode ip (i_set_nlink (s16 (n - 1)))) ;;
  in_fs (iupdate ip) ;;
  in_fs (iunlockput (Some ip)) ;;
  in_fs end_op ;;
  ret (-1).

Definition sys_link : M kern Z :=
  get_arg (argstr 0) (fun old =>
  get_arg (argstr 1) (fun new =>
    in_fs begin_op ;;
    r <- cwd_namei old ;;
    match r with
    | None => in_fs end_op ;; ret (-1)
    | Some ip =>
        in_fs (ilock (Some ip)) ;;
        t <- fs_ino i_type ip ;;
        if t =? T_DIR then in_fs (iunlockput (Some ip)) ;; in_fs end_op ;; ret (-1) else
        n <- fs_ino i_nlink ip ;;
        in_fs (upd_inode ip (i_set_nlink (s16 (n + 1)))) ;;
        in_fs (iupdate ip) ;;
        in_fs (iunlock (Some ip)) ;;
        d <- cwd_nameiparent new ;;
        match d with
        | (None, _) => link_bad ip
        | (Some dp, name) =>
            in_fs (ilock (Some dp)) ;;
            dd <- fs_ino i_dev dp ;;
            id <- fs_ino i_dev ip ;;
            inum <- fs_ino i_inum ip ;;
            ok <- (if negb (dd =? id) then ret false
                   else v <- in_fs (dirlink devsw dp name inum) ;; ret (0 <=? v)) ;;
            if negb ok then in_fs (iunlockput (Some dp)) ;; link_bad ip else
            in_fs (iunlockput (Some dp)) ;;
            in_fs (iput ip) ;;
            in_fs end_op ;;
            ret 0
        end
    end)).

Fixpoint isdirempty_loop (fuel : nat) (dp : nat) (off : Z) : M fsys bool :=
  match fuel with
  | O => diverge
  | S f =>
      x <- gets (fun s => ino s dp) ;;
      if off <? i_size x then
        r <- readi devsw dp off sizeof_dirent ;;
        if negb (fst r =? sizeof_dirent) then panic "isdirempty: readi" else
        if negb (de_inum (snd r) =? 0) then ret false else
        isdirempty_loop f dp (off + sizeof_dirent)
      else ret true
  end.

Definition isdirempty (dp : nat) : M fsys bool :=
  x <- gets (fun s => ino s dp) ;;
  isdirempty_loop (dir_fuel (i_size x)) dp (2 * sizeof_dirent).

Definition dot : list Z := [46; 0].
Definition dotdot : list Z := [46; 46; 0].

Definition unlink_bad (dp : nat) : M kern Z :=
  in_fs (iunlockput (Some dp)) ;;
  in_fs end_op ;;
  ret (-1).

Definition sys_unlink : M kern Z :=
  get_arg (argstr 0) (fun path =>
    in_fs begin_op ;;
    d <- cwd_nameiparent path ;;
    match d with
    | (None, _) => in_fs end_op ;; ret (-1)
    | (Some dp, name) =>
        in_fs (ilock (Some dp)) ;;
        if (namecmp name dot =? 0) || (namecmp name dotdot =? 0) then unlink_bad dp else
        r <- in_fs (dirlookup devsw dp name) ;;
        match r with
        | None => unlink_bad dp
        | Some (ip, off) =>
            in_fs (ilock (Some ip)) ;;
            n <- fs_ino i_nlink ip ;;
            if n <? 1 then panic "unlink: nlink < 1" else
            t <- fs_ino i_type ip ;;
            full <- (if t =? T_DIR then e <- in_fs (isdirempty ip) ;; ret (negb e) else ret false) ;;
            if full : bool then in_fs (iunlockput (Some ip)) ;; unlink_bad dp else
            w <- in_fs (writei devsw dp (replicate (Z.to_nat sizeof_dirent) 0) off sizeof_dirent) ;;
            if negb (w =? sizeof_dirent) then panic "unlink: writei" else
            when (t =? T_DIR)
              (dn <- fs_ino i_nlink dp ;;
               in_fs (upd_inode dp (i_set_nlink (s16 (dn - 1)))) ;;
               in_fs (iupdate dp)) ;;
            in_fs (iunlockput (Some dp)) ;;
            n <- fs_ino i_nlink ip ;;
            in_fs (upd_inode ip (i_set_nlink (s16 (n - 1)))) ;;
            in_fs (iupdate ip) ;;
            in_fs (iunlockput (Some ip)) ;;
            in_fs end_op ;;
            ret 0
        end
    end).

(** Returns the inode, locked. *)
Definition create (path : list Z) (type major minor : Z) : M kern (option nat) :=
  d <- cwd_nameiparent path ;;
  match d with
  | (None, _) => ret None
  | (Some dp, name) =>
      in_fs (ilock (Some dp)) ;;
      r <- in_fs (dirlookup devsw dp name) ;;
      match r with
      | Some (ip, _) =>
          in_fs (iunlockput (Some dp)) ;;
          in_fs (ilock (Some ip)) ;;
          t <- fs_ino i_type ip ;;
          if (type =? T_FILE) && (t =? T_FILE) then ret (Some ip) else
          if (type =? T_SFILE) && (t =? T_SFILE) then ret (Some ip) else
          in_fs (iunlockput (Some ip)) ;;
          ret None
      | None =>
          dev <- fs_ino i_dev dp ;;
          ip <- in_fs (ialloc dev type) ;;
          in_fs (ilock (Some ip)) ;;
          in_fs (upd_inode ip (fun x => i_set_nlink 1 (i_set_majmin major minor x))) ;;
          in_fs (iupdate ip) ;;
          inum <- fs_ino i_inum ip ;;
          when (type =? T_DIR)
            (dn <- fs_ino i_nlink dp ;;
             in_fs (upd_inode dp (i_set_nlink (s16 (dn + 1)))) ;;
             in_fs (iupdate dp) ;;
             dinum <- fs_ino i_inum dp ;;
             v <- in_fs (dirlink devsw ip dot inum) ;;
             if v <? 0 then panic "create dots" else
             w <- in_fs (dirlink devsw ip dotdot dinum) ;;
             if w <? 0 then panic "create dots" else ret tt) ;;
          v <- in_fs (dirlink devsw dp name inum) ;;
          if v <? 0 then panic "create: dirlink" else
          in_fs (iunlockput (Some dp)) ;;
          ret (Some ip)
      end
  end.

(** The end of sys_open(), with the inode locked. *)
Definition open_inode (ip : nat) (omode : Z) : M kern Z :=
  f <- filealloc ;;
  fd <- (match f with Some f => fdalloc f | None => ret (-1) end) ;;
  match f with
  | Some f =>
      if fd <? 0 then
        fileclose kend f ;;
        in_fs (iunlockput (Some ip)) ;;
        in_fs end_op ;;
        ret (-1)
      else
        in_fs (iunlock (Some ip)) ;;
        in_fs end_op ;;
        upd_file f (fun x =>
          f_set_rw (Z.land omode O_WRONLY =? 0)
            (negb (Z.land omode O_WRONLY =? 0) || negb (Z.land omode O_RDWR =? 0))
            (f_set_off 0 (f_set_ip ip (f_set_type FD_INODE x)))) ;;
        ret fd
  | None =>
      in_fs (iunlockput (Some ip)) ;;
      in_fs end_op ;;
      ret (-1)
  end.

Definition sys_open : M kern Z :=
  get_arg (argstr 0) (fun path =>
  get_arg (argint 1) (fun omode =>
    in_fs begin_op ;;
    if negb (Z.land omode O_CREATE =? 0) then
      r <- create path (if negb (Z.land omode O_SFILE =? 0) then T_SFILE else T_FILE) 0 0 ;;
      match r with
      | None => ret (-1)
      | Some ip => open_inode ip omode
      end
    else
      r <- cwd_namei path ;;
      match r with
      | None => in_fs end_op ;; ret (-1)
      | Some ip =>
          in_fs (ilock (Some ip)) ;;
          t <- fs_ino i_type ip ;;
          if (t =? T_DIR) && negb (omode =? O_RDONLY) then
            in_fs (iunlockput (Some ip)) ;; in_fs end_op ;; ret (-1)
          else open_inode ip omode
      end)).

Definition sys_mkdir : M kern Z :=
  in_fs begin_op ;;
  path <- argstr 0 ;;
  r <- (match path with Some path => create path T_DIR 0 0 | None => ret None end) ;;
  match r with
  | None => in_fs end_op ;; ret (-1)
  | Some ip => in_fs (iunlockput (Some ip)) ;; in_fs end_op ;; ret 0
  end.

Definition sys_mknod : M kern Z :=
  in_fs begin_op ;;
  path <- argstr 0 ;; major <- argint 1 ;; minor <- argint 2 ;;
  r <- (match path, major, minor with
        | Some path, Some major, Some minor => create path T_DEV (s16 major) (s16 minor)
        | _, _, _ => ret None
        end) ;;
  match r with
  | None => in_fs end_op ;; ret (-1)
  | Some ip => in_fs (iunlockput (Some ip)) ;; in_fs end_op ;; ret 0
  end.

Definition sys_chdir : M kern Z :=
  in_fs begin_op ;;
  path <- argstr 0 ;;
  r <- (match path with Some path => cwd_namei path | None => ret None end) ;;
  match r with
  | None => in_fs end_op ;; ret (-1)
  | Some ip =>
      in_fs (ilock (Some ip)) ;;
      t <- fs_ino i_type ip ;;
      if negb (t =? T_DIR) then in_fs (iunlockput (Some ip)) ;; in_fs end_op ;; ret (-1) else
      in_fs (iunlock (Some ip)) ;;
      c <- gets (fun k => p_cwd (cur_proc k)) ;;
      in_fs (iput (default 0%nat c)) ;;
      in_fs end_op ;;
      upd_cur (p_set_cwd (Some ip)) ;;
      ret 0
  end.

Definition sys_pipe : M kern Z :=
  get_arg (argptr 0 (2 * 4)) (fun fd =>
    r <- pipealloc kend ;;
    match r with
    | None => ret (-1)
    | Some (rf, wf) =>
        fd0 <- fdalloc rf ;;
        fd1 <- (if fd0 <? 0 then ret (-1) else fdalloc wf) ;;
        if (fd0 <? 0) || (fd1 <? 0) then
          when (0 <=? fd0) (set_fd (Z.to_nat fd0) None) ;;
          fileclose kend rf ;;
          fileclose kend wf ;;
          ret (-1)
        else
          modify (uwrite_bytes fd (le_bytes 4 fd0)) ;;
          modify (uwrite_bytes (fd + 4) (le_bytes 4 fd1)) ;;
          ret 0
    end).

End Sysfile.
