(* ===== verification/Proc.v ===== *)
(** proc.c on the kernel's state: making, growing and ending processes. The kernel stack, the
    trap frame and the context of a process are words of the kernel's memory. *)

From S2P Require Export Sysfile.

Open Scope Z_scope.
Open Scope kernel_scope.

Definition KSTACKSIZE : Z := 4096.
Definition sizeof_context : Z := 20.
Definition SEG_UCODE : Z := 4.
Definition SEG_UDATA : Z := 5.
Definition DPL_USER : Z := 3.
Definition FL_IF : Z := 0x200.

Definition wr16 (m : mem) (a v : Z) : mem := wr_bytes m a (le_bytes 2 v).

(** A change of the memory. *)
Definition mem_op (f : mem -> mem) : M kern unit :=
  modify (fun k => set_mem (set_km (f (km (k_mem k))) (k_mem k)) k).

Definition proc_at (i : nat) (k : kern) : proc := pat (k_tab k) i.
Definition upd_at (i : nat) (f : proc -> proc) : M kern unit := in_tab (upd_p i f).

(** The bytes that safestrcpy() stores: a string that ends early is followed by two NULs. *)
Fixpoint safestrcpy_bytes (n : nat) (t : list Z) : list Z :=
  match n with
  | O | S O => [0]
  | S n' => match t with
            | [] => [0; 0]
            | c :: t' => if c =? 0 then [0; 0] else c :: safestrcpy_bytes n' t'
            end
  end.
Definition set_name (name : list Z) (p : proc) : proc :=
  p_set_name (blit 0 (safestrcpy_bytes 16 name) (p_name p)) p.

Section Proc.
Context (devsw : Z -> devsw_entry) (kend kdata : Z).
(** The addresses of forkret() and trapret, and initcode.S as the linker places it. *)
Context (forkret_addr trapret_addr initcode_start initcode_size : Z).

(** pinit() *)
Definition pinit : M ptab unit := modify (lset tb_lk false).

Definition allocproc : M kern (option nat) :=
  r <- in_tab allocproc_slot ;;
  match r with
  | None => ret None
  | Some i =>
      a <- in_mem kalloc ;;
      upd_at i (p_set_kstack a) ;;
      if a =? 0 then upd_at i (p_set_state UNUSED) ;; ret None else
      let sp := a + KSTACKSIZE - sizeof_tf in
      let ctx := sp - 4 - sizeof_context in
      mem_op (fun m => wr32 m (sp - 4) trapret_addr) ;;
      upd_at i (p_set_frames sp ctx) ;;
      mem_op (fun m => StringC.memset m ctx 0 sizeof_context) ;;
      mem_op (fun m => wr32 m (ctx + 16) forkret_addr) ;;
      ret (Some i)
  end.

(** The trap frame of the first process. *)
Definition init_frame (tf : Z) (m : mem) : mem :=
  let m := StringC.memset m tf 0 sizeof_tf in
  let m := wr16 m (tf + tf_cs) (Z.lor (Z.shiftl SEG_UCODE 3) DPL_USER) in
  let ds := Z.lor (Z.shiftl SEG_UDATA 3) DPL_USER in
  let m := wr16 m (tf + tf_ds) ds in
  let m := wr16 m (tf + tf_es) ds in
  let m := wr16 m (tf + tf_ss) ds in
  let m := wr32 m (tf + tf_eflags) FL_IF in
  let m := wr32 m (tf + tf_esp) PGSIZE in
  wr32 m (tf + tf_eip) 0.

Definition str_initcode : list Z := [105; 110; 105; 116; 99; 111; 100; 101; 0].

(** userinit(); allocproc() does not fail for the first process. *)
Definition userinit : M kern unit :=
  r <- allocproc ;;
  match r with
  | None => panic "userinit: no process"
  | Some i =>
      modify (fun k => set_tab (set_init (Some i) (k_tab k)) k) ;;
      pgdir <- in_mem (setupkvm kdata) ;;
      upd_at i (p_set_pgdir pgdir) ;;
      if pgdir =? 0 then panic "userinit: out of memory?" else
      in_mem (inituvm pgdir initcode_start initcode_size) ;;
      upd_at i (p_set_sz PGSIZE) ;;
      tf <- gets (fun k => p_tf (proc_at i k)) ;;
      mem_op (init_frame tf) ;;
      upd_at i (set_name str_initcode) ;;
      ip <- cwd_namei devsw [SLASH] ;;
      upd_at i (p_set_cwd ip) ;;
      in_tab (make_runnable i)
  end.

(** switchuvm(proc): its checks. What it loads (the task state segment and %cr3) is state of the
    hardware, and its pushcli() and popcli() cancel out. *)
Definition switchuvm : M kern unit :=
  p <- gets cur_proc ;;
  if p_kstack p =? 0 then panic "switchuvm: no kstack" else
  if p_pgdir p =? 0 then panic "switchuvm: no pgdir" else ret tt.

Definition growproc (n : Z) : M kern Z :=
  p <- gets cur_proc ;;
  sz <- (if 0 <? n then in_mem (allocuvm kend (p_pgdir p) (p_sz p) (u32 (p_sz p + n)))
         else if n <? 0 then in_mem (deallocuvm kend (p_pgdir p) (p_sz p) (u32 (p_sz p + n)))
         else ret (p_sz p)) ;;
  if negb (n =? 0) && (sz =? 0) then ret (-1) else
  upd_cur (p_set_sz sz) ;;
  switchuvm ;;
  ret 0.

(** The loop of fork() over the open files. *)
Definition dup_files (np : nat) : M kern unit :=
  for_range (Z.to_nat NOFILE) 0 (fun i =>
    l <- gets (fun k => p_ofile (cur_proc k)) ;;
    match l !!! Z.to_nat i with
    | Some f => f <- filedup f ;; upd_at np (fun p => p_set_ofile (<[Z.to_nat i := Some f]> (p_ofile p)) p)
    | None => ret tt
    end).

(** fork()'s frame: that of the parent, but for %eax. *)
Definition child_frame (tf ptf : Z) (m : mem) : mem :=
  wr32 (StringC.memmove m tf ptf sizeof_tf) (tf + tf_eax) 0.

Definition fork : M kern Z :=
  r <- allocproc ;;
  match r with
  | None => ret (-1)
  | Some np =>
      p <- gets cur_proc ;;
      cur <- gets (fun k => tb_cur (k_tab k)) ;;
      d <- in_mem (copyuvm kend kdata (p_pgdir p) (p_sz p)) ;;
      upd_at np (p_set_pgdir d) ;;
      if d =? 0 then
        st <- gets (fun k => p_kstack (proc_at np k)) ;;
        in_mem (kfree kend st) ;;
        upd_at np (p_set_kstack 0) ;;
        upd_at np (p_set_state UNUSED) ;;
        ret (-1)
      else
        upd_at np (p_set_sz (p_sz p)) ;;
        upd_at np (p_set_parent cur) ;;
        tf <- gets (fun k => p_tf (proc_at np k)) ;;
        mem_op (child_frame tf (p_tf p)) ;;
        dup_files np ;;
        cwd <- in_fs (idup (default 0%nat (p_cwd p))) ;;
        upd_at np (p_set_cwd (Some cwd)) ;;
        upd_at np (set_name (p_name p)) ;;
        pid <- gets (fun k => p_pid (proc_at np k)) ;;
        in_tab (make_runnable np) ;;
        ret pid
  end.

(** The loop of exit() that closes the open files. *)
Definition close_files : M kern unit :=
  for_range (Z.to_nat NOFILE) 0 (fun fd =>
    l <- gets (fun k => p_ofile (cur_proc k)) ;;
    match l !!! Z.to_nat fd with
    | Some f => fileclose kend f ;; set_fd (Z.to_nat fd) None
    | None => ret tt
    end).

(** exit(): the process ends in the scheduler; nothing after a call of exit() runs. *)
Definition exit {A} : M kern A :=
  k <- gets (fun k => k) ;;
  if bool_decide (tb_cur (k_tab k) = tb_init (k_tab k)) then panic "init exiting" else
  close_files ;;
  in_fs begin_op ;;
  c <- gets (fun k => p_cwd (cur_proc k)) ;;
  in_fs (iput (default 0%nat c)) ;;
  in_fs end_op ;;
  upd_cur (p_set_cwd None) ;;
  in_tab exit_locked ;;
  sleep_on ChNone.

(** One round of wait(): the child that has exited is freed, or the process sleeps. *)
Definition wait : M kern Z :=
  in_tab (acquire tb_lk) ;;
  t <- gets k_tab ;;
  match tb_cur t with
  | None => panic "wait: no process"
  | Some cur =>
      match wait_scan cur 0 (tb_proc t) false with
      | inl i =>
          in_mem (kfree kend (p_kstack (pat t i))) ;;
          in_mem (freevm kend (p_pgdir (pat t i))) ;;
          upd_at i reap ;;
          in_tab (release tb_lk) ;;
          ret (p_pid (pat t i))
      | inr havekids =>
          if negb havekids || negb (p_killed (pat t cur) =? 0) then
            in_tab (release tb_lk) ;; ret (-1)
          else
            in_tab (sleep_proc (ChProc cur)) ;; sleep_on (ChProc cur)
      end
  end.

(** forkret(): the first process to run initialises the file system. *)
Definition forkret : M kern unit :=
  in_tab (release tb_lk) ;;
  first <- gets k_first ;;
  when first
    (modify (set_first false) ;;
     in_fs (iinit ROOTDEV) ;;
     in_fs (initlog ROOTDEV)).

End Proc.
