(* ===== verification/Exec.v ===== *)
(** exec.c, with loaduvm() of vm.c: replacing the memory of a process by a program. *)

From S2P Require Export Proc.

Open Scope Z_scope.
Open Scope kernel_scope.

(** elf.h: the headers as bytes, and the fields that exec() uses. *)
Definition ELF_MAGIC : Z := 0x464C457F.
Definition ELF_PROG_LOAD : Z := 1.
Definition sizeof_elfhdr : Z := 52.
Definition sizeof_proghdr : Z := 32.
Definition elf_magic (h : list Z) : Z := getf 4 0 h.
Definition elf_entry (h : list Z) : Z := getf 4 24 h.
Definition elf_phoff (h : list Z) : Z := getf 4 28 h.
Definition elf_phnum (h : list Z) : Z := getf 2 44 h.
Definition ph_type (h : list Z) : Z := getf 4 0 h.
Definition ph_off (h : list Z) : Z := getf 4 4 h.
Definition ph_vaddr (h : list Z) : Z := getf 4 8 h.
Definition ph_filesz (h : list Z) : Z := getf 4 16 h.
Definition ph_memsz (h : list Z) : Z := getf 4 20 h.

Section Exec.
Context (devsw : Z -> devsw_entry) (kend kdata : Z).

Fixpoint loaduvm_loop (fuel : nat) (pgdir addr : Z) (ip : nat) (offset sz i : Z) : M kern Z :=
  if i <? sz then
    match fuel with
    | O => diverge
    | S f =>
        pte <- in_mem (walkpgdir pgdir (u32 (addr + i)) false) ;;
        if pte =? 0 then panic "loaduvm: address should exist" else
        e <- in_mem (load32 pte) ;;
        let n := Z.min (sz - i) PGSIZE in
        r <- in_fs (readi devsw ip (u32 (offset + i)) n) ;;
        mem_op (fun m => wr_bytes m (P2V (PTE_ADDR e)) (snd r)) ;;
        if negb (fst r =? n) then ret (-1) else
        loaduvm_loop f pgdir addr ip offset sz (i + PGSIZE)
    end
  else ret 0.

Definition loaduvm (pgdir addr : Z) (ip : nat) (offset sz : Z) : M kern Z :=
  if negb (addr mod PGSIZE =? 0) then panic "loaduvm: addr must be page aligned" else
  loaduvm_loop (S (Z.to_nat (sz / PGSIZE))) pgdir addr ip offset sz 0.

(** The end of exec() after a failure. *)
Definition exec_bad (pgdir : Z) (ip : option nat) : M kern Z :=
  when (negb (pgdir =? 0)) (in_mem (freevm kend pgdir)) ;;
  match ip with
  | Some ip => in_fs (iunlockput (Some ip)) ;; in_fs end_op
  | None => ret tt
  end ;;
  ret (-1).

(** The segments: the new size, or nothing at [goto bad]. *)
Fixpoint load_segments (n : nat) (pgdir : Z) (ip : nat) (off sz : Z) : M kern (option Z) :=
  match n with
  | O => ret (Some sz)
  | S n' =>
      r <- in_fs (readi devsw ip off sizeof_proghdr) ;;
      let ph := snd r in
      if negb (fst r =? sizeof_proghdr) then ret None else
      if negb (ph_type ph =? ELF_PROG_LOAD) then load_segments n' pgdir ip (off + sizeof_proghdr) sz else
      if ph_memsz ph <? ph_filesz ph then ret None else
      if u32 (ph_vaddr ph + ph_memsz ph) <? ph_vaddr ph then ret None else
      sz <- in_mem (allocuvm kend pgdir sz (u32 (ph_vaddr ph + ph_memsz ph))) ;;
      if sz =? 0 then ret None else
      if negb (ph_vaddr ph mod PGSIZE =? 0) then ret None else
      v <- loaduvm pgdir (ph_vaddr ph) ip (ph_off ph) (ph_filesz ph) ;;
      if v <? 0 then ret None else
      load_segments n' pgdir ip (off + sizeof_proghdr) sz
  end.

(** copyout() of bytes that are not in the memory of the model (the strings of the arguments
    and the array [ustack] on the kernel's stack). *)
Fixpoint copyout_bytes (fuel : nat) (pgdir va : Z) (buf : list Z) : M kst Z :=
  match buf with
  | [] => ret 0
  | _ =>
      match fuel with
      | O => diverge
      | S f =>
          let va0 := PGROUNDDOWN va in
          pa0 <- uva2ka pgdir va0 ;;
          if pa0 =? 0 then ret (-1) else
          let n := Z.min (PGSIZE - (va - va0)) (Z.of_nat (length buf)) in
          modify (fun s => set_km (wr_bytes (km s) (pa0 + (va - va0)) (take (Z.to_nat n) buf)) s) ;;
          copyout_bytes f pgdir (u32 (va0 + PGSIZE)) (drop (Z.to_nat n) buf)
      end
  end.

(** The arguments on the new stack: the stack pointer and the addresses of the strings. *)
Fixpoint push_args (argv : list (list Z)) (argc : Z) (pgdir sp : Z) (ustack : list Z)
    : M kern (option (Z * list Z)) :=
  match argv with
  | [] => ret (Some (sp, ustack))
  | a :: argv' =>
      if MAXARG <=? argc then ret None else
      let sp := Z.land (u32 (sp - (Z.of_nat (length a) + 1))) (Z.lnot 3) in
      v <- in_mem (copyout_bytes (S (S (length a))) pgdir sp (a ++ [0])) ;;
      if v <? 0 then ret None else
      push_args argv' (argc + 1) pgdir sp (ustack ++ [sp])
  end.

(** The last element of the path, for the name of the process. *)
Fixpoint last_elem (path last : list Z) : list Z :=
  match path with
  | [] => last
  | c :: p => if c =? SLASH then last_elem p p else last_elem p last
  end.

(** exec() from the point where the file is closed. *)
Definition exec_stack (path : list Z) (argv : list (list Z)) (pgdir sz entry : Z) : M kern Z :=
  let sz := PGROUNDUP sz in
  sz <- in_mem (allocuvm kend pgdir sz (u32 (sz + 2 * PGSIZE))) ;;
  if sz =? 0 then exec_bad pgdir None else
  in_mem (clearpteu pgdir (u32 (sz - 2 * PGSIZE))) ;;
  r <- push_args argv 0 pgdir sz [] ;;
  match r with
  | None => exec_bad pgdir None
  | Some (sp, addrs) =>
      let argc := Z.of_nat (length addrs) in
      let ustack := [0xffffffff; argc; u32 (sp - (argc + 1) * 4)] ++ addrs ++ [0] in
      let sp := u32 (sp - (3 + argc + 1) * 4) in
      v <- in_mem (copyout_bytes (S (length ustack)) pgdir sp (concat (le_bytes 4 <$> ustack))) ;;
      if v <? 0 then exec_bad pgdir None else
      upd_cur (set_name (last_elem path path)) ;;
      old <- gets (fun k => p_pgdir (cur_proc k)) ;;
      upd_cur (p_set_pgdir pgdir) ;;
      upd_cur (p_set_sz sz) ;;
      tf_set tf_eip entry ;;
      tf_set tf_esp sp ;;
      switchuvm ;;
      in_mem (freevm kend old) ;;
      ret 0
  end.

Definition exec (path : list Z) (argv : list (list Z)) : M kern Z :=
  in_fs begin_op ;;
  r <- cwd_namei devsw path ;;
  match r with
  | None => in_fs end_op ;; ret (-1)
  | Some ip =>
      in_fs (ilock (Some ip)) ;;
      r <- in_fs (readi devsw ip 0 sizeof_elfhdr) ;;
      let elf := snd r in
      if negb (fst r =? sizeof_elfhdr) then exec_bad 0 (Some ip) else
      if negb (elf_magic elf =? ELF_MAGIC) then exec_bad 0 (Some ip) else
      pgdir <- in_mem (setupkvm kdata) ;;
      if pgdir =? 0 then exec_bad 0 (Some ip) else
      sz <- load_segments (Z.to_nat (elf_phnum elf)) pgdir ip (elf_phoff elf) 0 ;;
      match sz with
      | None => exec_bad pgdir (Some ip)
      | Some sz =>
          in_fs (iunlockput (Some ip)) ;;
          in_fs end_op ;;
          exec_stack path argv pgdir sz (elf_entry elf)
      end
  end.

(** sys_exec(): the strings of the argument vector. *)
Fixpoint fetch_argv (n : nat) (uargv : Z) : M kern (option (list (list Z))) :=
  match n with
  | O => ret None
  | S n' =>
      uarg <- fetchint uargv ;;
      match uarg with
      | None => ret None
      | Some uarg =>
          if uarg =? 0 then ret (Some []) else
          s <- fetchstr (u32 uarg) ;;
          match s with
          | None => ret None
          | Some s =>
              rest <- fetch_argv n' (u32 (uargv + 4)) ;;
              ret (cons s <$> rest)
          end
      end
  end.

Definition sys_exec : M kern Z :=
  get_arg (argstr 0) (fun path =>
  get_arg (argint 1) (fun uargv =>
  get_arg (fetch_argv (Z.to_nat MAXARG) (u32 uargv)) (fun argv =>
    exec path argv))).

End Exec.
