(* ===== verification/Syscall.v ===== *)
(** syscall.c, sysproc.c and trap.c: the dispatch of system calls with its counters, and the
    handling of traps. *)

From S2P Require Export Exec.

Open Scope Z_scope.
Open Scope kernel_scope.

(** syscall.h *)
Definition SYS_fork : Z := 1.
Definition SYS_exit : Z := 2.
Definition SYS_wait : Z := 3.
Definition SYS_pipe : Z := 4.
Definition SYS_read : Z := 5.
Definition SYS_kill : Z := 6.
Definition SYS_exec : Z := 7.
Definition SYS_fstat : Z := 8.
Definition SYS_chdir : Z := 9.
Definition SYS_dup : Z := 10.
Definition SYS_getpid : Z := 11.
Definition SYS_sbrk : Z := 12.
Definition SYS_sleep : Z := 13.
Definition SYS_uptime : Z := 14.
Definition SYS_open : Z := 15.
Definition SYS_write : Z := 16.
Definition SYS_mknod : Z := 17.
Definition SYS_unlink : Z := 18.
Definition SYS_link : Z := 19.
Definition SYS_mkdir : Z := 20.
Definition SYS_close : Z := 21.
Definition SYS_sysnumcall : Z := 22.

(** traps.h *)
Definition T_SYSCALL : Z := 64.
Definition T_IRQ0 : Z := 32.
Definition IRQ_TIMER : Z := 0.
Definition IRQ_KBD : Z := 1.
Definition IRQ_COM1 : Z := 4.
Definition IRQ_IDE : Z := 14.
Definition IRQ_SPURIOUS : Z := 31.

(** [int sysCalls[23]] *)
Definition NCALLS : nat := 23.

Section Syscall.
Context (devsw : Z -> devsw_entry) (kend kdata forkret_addr trapret_addr : Z).

(** sys_sysnumcall() prints the counters; the model returns what it prints. *)
Definition sysnumcall_report : M kern (list Z) :=
  c <- gets k_calls ;;
  modify (set_calls (replicate NCALLS 0)) ;;
  ret c.
Definition sys_sysnumcall : M kern Z := sysnumcall_report ;; ret 0.

Definition sys_fork : M kern Z := fork kend kdata forkret_addr trapret_addr.
Definition sys_exit : M kern Z := exit kend.
Definition sys_wait : M kern Z := wait kend.
Definition sys_kill : M kern Z := get_arg (argint 0) (fun pid => in_tab (kill pid)).
Definition sys_getpid : M kern Z := gets (fun k => p_pid (cur_proc k)).

Definition sys_sbrk : M kern Z :=
  get_arg (argint 0) (fun n =>
    addr <- gets (fun k => p_sz (cur_proc k)) ;;
    r <- growproc kend n ;;
    ret (if r <? 0 then -1 else addr)).

(** A turn of the loop of sys_sleep() that began at [ticks0]. *)
Definition sleep_turn (ticks0 n : Z) : M kern Z :=
  acquire ticks_lk ;;
  k <- gets (fun k => k) ;;
  if u32 (k_ticks k - ticks0) <? u32 n then
    if negb (p_killed (cur_proc k) =? 0) then release ticks_lk ;; ret (-1)
    else release ticks_lk ;; sleep_k ChTicks
  else release ticks_lk ;; ret 0.

Definition sys_sleep : M kern Z :=
  get_arg (argint 0) (fun n => t0 <- gets k_ticks ;; sleep_turn t0 n).

Definition sys_uptime : M kern Z :=
  acquire ticks_lk ;;
  x <- gets k_ticks ;;
  release ticks_lk ;;
  ret (s32 x).

(** The table of system calls. *)
Definition syscalls (num : Z) : option (M kern Z) :=
  if num =? SYS_fork then Some sys_fork else
  if num =? SYS_exit then Some sys_exit else
  if num =? SYS_wait then Some sys_wait else
  if num =? SYS_pipe then Some (sys_pipe kend) else
  if num =? SYS_read then Some (sys_read devsw) else
  if num =? SYS_kill then Some sys_kill else
  if num =? SYS_exec then Some (sys_exec devsw kend kdata) else
  if num =? SYS_fstat then Some sys_fstat else
  if num =? SYS_chdir then Some (sys_chdir devsw) else
  if num =? SYS_dup then Some sys_dup else
  if num =? SYS_getpid then Some sys_getpid else
  if num =? SYS_sbrk then Some sys_sbrk else
  if num =? SYS_sleep then Some sys_sleep else
  if num =? SYS_uptime then Some sys_uptime else
  if num =? SYS_open then Some (sys_open devsw kend) else
  if num =? SYS_write then Some (sys_write devsw) else
  if num =? SYS_mknod then Some (sys_mknod devsw) else
  if num =? SYS_unlink then Some (sys_unlink devsw) else
  if num =? SYS_link then Some (sys_link devsw) else
  if num =? SYS_mkdir then Some (sys_mkdir devsw) else
  if num =? SYS_close then Some (sys_close kend) else
  if num =? SYS_sysnumcall then Some sys_sysnumcall else None.

(** [sysCalls[i]++] *)
Definition bump (i : nat) (c : list Z) : list Z := alter (fun v => s32 (v + 1)) i c.

Definition syscall : M kern unit :=
  num <- gets (fun k => s32 (tf_get tf_eax k)) ;;
  match (if (0 <? num) && (num <? 23) then syscalls num else None) with
  | Some f =>
      modify (fun k => set_calls (bump 0 (k_calls k)) k) ;;
      modify (fun k => set_calls (bump (Z.to_nat num) (k_calls k)) k) ;;
      r <- f ;;
      tf_set tf_eax r
  | None => tf_set tf_eax (-1)
  end.

(** The device interrupts, which are outside the model. *)
Context (ideintr kbdintr uartintr : M kern unit).

Definition killed : M kern bool := gets (fun k => negb (p_killed (cur_proc k) =? 0)).

(** trap() on CPU 0, in a process ([proc] is not null). A process that yields runs the rest
    when the scheduler resumes it. *)
Definition trap (tf : Z) : M kern unit :=
  trapno <- gets (fun k => rd32 (km (k_mem k)) (tf + tf_trapno)) ;;
  if trapno =? T_SYSCALL then
    d <- killed ;;
    when d (exit kend) ;;
    upd_cur (fun p => p_set_frames tf (p_context p) p) ;;
    syscall ;;
    d <- killed ;;
    when d (exit kend)
  else
    user <- gets (fun k => Z.land (rd32 (km (k_mem k)) (tf + tf_cs)) 3 =? DPL_USER) ;;
    (if trapno =? T_IRQ0 + IRQ_TIMER then
       acquire ticks_lk ;;
       modify (fun k => set_ticks (u32 (k_ticks k + 1)) k) ;;
       modify (wake_all [ChTicks]) ;;
       release ticks_lk
     else if trapno =? T_IRQ0 + IRQ_IDE then ideintr
     else if trapno =? T_IRQ0 + IRQ_IDE + 1 then ret tt
     else if trapno =? T_IRQ0 + IRQ_KBD then kbdintr
     else if trapno =? T_IRQ0 + IRQ_COM1 then uartintr
     else if (trapno =? T_IRQ0 + 7) || (trapno =? T_IRQ0 + IRQ_SPURIOUS) then ret tt
     else
       kernel <- gets (fun k => Z.land (rd32 (km (k_mem k)) (tf + tf_cs)) 3 =? 0) ;;
       if kernel : bool then panic "trap" else upd_cur (p_set_killed 1)) ;;
    d <- killed ;;
    when (d && user) (exit kend) ;;
    st <- gets (fun k => p_state (cur_proc k)) ;;
    when (bool_decide (st = RUNNING) && (trapno =? T_IRQ0 + IRQ_TIMER)) 
      (in_tab yield ;; sleep_on ChNone) ;;
    d <- killed ;;
    when (d && user) (exit kend).

End Syscall.
