(* ===== verification/SysSpec.v ===== *)
(** System calls: the checks on user pointers, and the counters of sysnumcall. *)

From S2P Require Export Syscall.

Open Scope Z_scope.
Open Scope kernel_scope.

(** *** User pointers *)

Lemma fetchstr_loop_spec n k s str :
  fetchstr_loop n k s = Some str ->
  (length str < n)%nat /\ Forall (fun c => c <> 0) str /\
  uread_bytes k s (length str) = str /\ uread k (s + Z.of_nat (length str)) = 0.
Proof.
  revert s str. induction n as [|n IH]; intros s str; simpl; [done|].
  destruct (Z.eqb_spec (uread k s) 0) as [H0|H0].
  - intros [= <-]. simpl. split_and!; [lia|constructor|done|by rewrite Z.add_0_r].
  - intros (r & Hr & Hs)%fmap_Some. subst str. destruct (IH _ _ Hr) as (A & B & C & D). simpl.
    split_and!; [lia|by constructor|by rewrite C|]. rewrite <- D. f_equal. lia.
Qed.

Lemma fetchstr_loop_none n k s :
  fetchstr_loop n k s = None -> forall i, (i < n)%nat -> uread k (s + Z.of_nat i) <> 0.
Proof.
  revert s. induction n as [|n IH]; intros s; simpl; [lia|].
  destruct (Z.eqb_spec (uread k s) 0) as [H0|H0]; [done|]. intros Hr%fmap_None i Hi.
  destruct i as [|i]; [by rewrite Z.add_0_r|].
  replace (s + Z.of_nat (S i)) with (s + 1 + Z.of_nat i) by lia. apply IH; [done|lia].
Qed.

Lemma argint_same n k r k' : argint n k = Ret r k' -> k' = k.
Proof. unfold argint, fetchint. destruct (_ || _); intros; by simplify_eq. Qed.

(** C11. The kernel never follows a user pointer out of the process: the block that argptr()
    accepts lies inside the memory of the process, and the string that argstr() accepts is
    the NUL-terminated string of the process at that address, with its NUL inside. The sum of
    the address and the size does not wrap around. *)
Theorem user_pointers_in_bounds k n size :
  0 <= p_sz (cur_proc k) <= KERNBASE -> size < 2 ^ 31 ->
  (forall p k', argptr n size k = Ret (Some p) k' ->
     k' = k /\ 0 <= size /\ 0 <= p /\ p + size <= p_sz (cur_proc k)) /\
  (forall str k', argstr n k = Ret (Some str) k' ->
     k' = k /\ exists p, 0 <= p /\ p + Z.of_nat (length str) < p_sz (cur_proc k) /\
       Forall (fun c => c <> 0) str /\ uread_bytes k p (length str) = str /\
       uread k (p + Z.of_nat (length str)) = 0).
Proof.
  intros Hsz Hs. unfold KERNBASE in Hsz. split.
  - intros p k'. unfold argptr, bind. destruct (argint n k) as [[i|] k1| | |] eqn:Ea; try done.
    apply argint_same in Ea. subst k1. unfold gets, ret.
    destruct ((size <? 0) || (p_sz (cur_proc k) <=? u32 i) ||
      (p_sz (cur_proc k) <? u32 (u32 i + size))) eqn:Eb; intros H; simplify_eq.
    apply orb_false_iff in Eb as [[E1%Z.ltb_ge E2%Z.leb_gt]%orb_false_iff E3%Z.ltb_ge].
    pose proof (Z.mod_pos_bound i (2 ^ 32)) as Hm. fold (u32 i) in Hm.
    assert (Hw : u32 (u32 i + size) = u32 i + size) by (apply Z.mod_small; lia).
    rewrite Hw in E3. split_and!; auto; lia.
  - intros str k'. unfold argstr, bind. destruct (argint n k) as [[a|] k1| | |] eqn:Ea; try done.
    apply argint_same in Ea. subst k1. unfold fetchstr.
    destruct (Z.leb_spec (p_sz (cur_proc k)) (u32 a)) as [Hge|Hlt]; intros H; simplify_eq.
    split; [done|]. exists (u32 a). destruct (fetchstr_loop_spec _ _ _ _ H) as (A & B & C & D).
    pose proof (Z.mod_pos_bound a (2 ^ 32)) as Hm. fold (u32 a) in Hm. split_and!; auto; lia.
Qed.

(** *** The counters *)

(** The state in which the code returns or gives up the CPU. *)
Definition final {A} (o : outcome kern A) : option kern :=
  match o with Ret _ k | Sleep _ k => Some k | _ => None end.

(** Code that leaves the counters alone. *)
Definition keeps {A} (m : M kern A) : Prop :=
  forall k k', final (m k) = Some k' -> k_calls k' = k_calls k.

Create HintDb keeps discriminated.

Lemma keeps_ret {A} (a : A) : keeps (ret a).
Proof. intros k k' H. by simplify_eq/=. Qed.
Lemma keeps_panic {A} e : keeps (@panic kern A e).
Proof. by intros k k' H. Qed.
Lemma keeps_diverge {A} : keeps (@diverge kern A).
Proof. by intros k k' H. Qed.
Lemma keeps_gets {A} (f : kern -> A) : keeps (gets f).
Proof. intros k k' H. by simplify_eq/=. Qed.
Lemma keeps_modify f : (forall k, k_calls (f k) = k_calls k) -> keeps (modify f).
Proof. intros Hf k k' H. simplify_eq/=. apply Hf. Qed.
Lemma keeps_bind {A B} (m : M kern A) (f : A -> M kern B) :
  keeps m -> (forall a, keeps (f a)) -> keeps (bind m f).
Proof.
  intros Hm Hf k k' H. unfold bind in H. specialize (Hm k).
  destruct (m k) as [a k1| |ch k1|]; try done; [|by apply Hm].
  rewrite (Hf a _ _ H). by apply Hm.
Qed.
Lemma do_sleep_calls ch k : k_calls (do_sleep ch k) = k_calls k.
Proof. unfold do_sleep. by destruct ((acquire tb_lk ;; sleep_proc ch) (k_tab k)). Qed.
Lemma keeps_in_fs {A} (m : M fsys A) : keeps (in_fs m).
Proof.
  intros k k' H. unfold in_fs in H. destruct (m _); simplify_eq/=; [done|]. by rewrite do_sleep_calls.
Qed.
Lemma keeps_in_mem {A} (m : M kst A) : keeps (in_mem m).
Proof. intros k k' H. unfold in_mem, lift in H. destruct (m _); by simplify_eq/=. Qed.
Lemma keeps_in_tab {A} (m : M ptab A) : keeps (in_tab m).
Proof. intros k k' H. unfold in_tab, lift in H. destruct (m _); by simplify_eq/=. Qed.
Lemma keeps_in_pipe {A} a (m : M pst A) : keeps (in_pipe a m).
Proof.
  intros k k' H. unfold in_pipe in H. destruct (_ !! a); [|done]. destruct (m _); by simplify_eq/=.
Qed.
Lemma keeps_sleep_k {A} ch : keeps (@sleep_k A ch).
Proof. intros k k' H. simplify_eq/=. apply do_sleep_calls. Qed.
Lemma keeps_sleep_on {A} ch : keeps (@sleep_on kern A ch).
Proof. intros k k' H. by simplify_eq/=. Qed.
Lemma keeps_acquire l : (forall v k, k_calls (lset l v k) = k_calls k) -> keeps (acquire l).
Proof. intros Hl k k' H. unfold acquire in H. destruct (lget l k); simplify_eq/=. apply Hl. Qed.
Lemma keeps_release l : (forall v k, k_calls (lset l v k) = k_calls k) -> keeps (release l).
Proof. intros Hl k k' H. unfold release in H. destruct (lget l k); simplify_eq/=. apply Hl. Qed.
Lemma keeps_when b m : keeps m -> keeps (when b m).
Proof. intros Hm. destruct b; [done|apply keeps_ret]. Qed.
Lemma keeps_for_range n lo body : (forall i, keeps (body i)) -> keeps (for_range n lo body).
Proof.
  intros Hb. revert lo. induction n as [|n IH]; intros lo; simpl; [apply keeps_ret|].
  by apply keeps_bind.
Qed.
Lemma keeps_upd_cur f : keeps (upd_cur f).
Proof. apply keeps_modify. intros k. by destruct (tb_cur (k_tab k)). Qed.
Lemma keeps_fetchint n : keeps (fetchint n).
Proof. intros k k' H. unfold fetchint in H. destruct (_ || _); by simplify_eq/=. Qed.
Lemma keeps_argint n : keeps (argint n).
Proof. intros k k' H. unfold argint in H. by apply keeps_fetchint in H. Qed.
Lemma keeps_fetchstr n : keeps (fetchstr n).
Proof. intros k k' H. unfold fetchstr in H. destruct (_ <=? _); by simplify_eq/=. Qed.

Lemma uwrite_bytes_calls va bs k : k_calls (uwrite_bytes va bs k) = k_calls k.
Proof. revert va k. induction bs as [|b bs IH]; intros va k; simpl; [done|]. by rewrite IH. Qed.

#[export] Hint Resolve keeps_ret keeps_panic keeps_diverge keeps_gets keeps_in_fs keeps_in_mem
  keeps_in_tab keeps_in_pipe keeps_sleep_k keeps_sleep_on keeps_upd_cur keeps_argint
  keeps_fetchint keeps_fetchstr : keeps.

(** Walk through a program. *)
Ltac keeps_step :=
  match goal with
  | |- keeps (bind _ _) => apply keeps_bind; [|intros]
  | |- keeps (get_arg _ _) => unfold get_arg
  | |- keeps (when _ _) => apply keeps_when
  | |- keeps (modify _) => apply keeps_modify; intros; try reflexivity
  | |- keeps (acquire _) => apply keeps_acquire; reflexivity
  | |- keeps (release _) => apply keeps_release; reflexivity
  | |- keeps (for_range _ _ _) => apply keeps_for_range; intros
  | |- keeps (if ?b then _ else _) => destruct b
  | |- keeps (match ?x with _ => _ end) => destruct x
  | |- keeps (let '(_, _) := ?x in _) => destruct x
  | |- keeps _ => solve [auto with keeps]
  end.
Ltac keeps_tac := repeat keeps_step.

(** *** The system calls leave the counters alone *)

Lemma keeps_filealloc : keeps filealloc.
Proof. unfold filealloc, upd_file. keeps_tac. Qed.
Lemma keeps_filedup f : keeps (filedup f).
Proof. unfold filedup, upd_file. keeps_tac. Qed.
Lemma keeps_fileclose kend f : keeps (fileclose kend f).
Proof. unfold fileclose, pipeclose_k, upd_file. keeps_tac. Qed.
Lemma keeps_filestat f : keeps (filestat f).
Proof. unfold filestat. keeps_tac. Qed.
#[export] Hint Resolve keeps_filealloc keeps_filedup keeps_fileclose keeps_filestat : keeps.

Lemma keeps_fileread devsw f n : keeps (fileread devsw f n).
Proof. unfold fileread, piperead_k, upd_file. keeps_tac. Qed.
Lemma keeps_filewrite_loop devsw fuel f addr i n : keeps (filewrite_loop devsw fuel f addr i n).
Proof.
  revert i. induction fuel as [|fuel IH]; intros i; simpl; unfold upd_file; keeps_tac; apply IH.
Qed.
#[export] Hint Resolve keeps_fileread keeps_filewrite_loop : keeps.
Lemma keeps_filewrite devsw f addr n : keeps (filewrite devsw f addr n).
Proof. unfold filewrite, pipewrite_k. keeps_tac. Qed.
Lemma keeps_pipealloc kend : keeps (pipealloc kend).
Proof. unfold pipealloc, pipealloc_bad, upd_file. keeps_tac. Qed.
Lemma keeps_set_fd fd v : keeps (set_fd fd v).
Proof. unfold set_fd. keeps_tac. Qed.
#[export] Hint Resolve keeps_filewrite keeps_pipealloc keeps_set_fd : keeps.
Lemma keeps_fdalloc f : keeps (fdalloc f).
Proof. unfold fdalloc. keeps_tac. Qed.
Lemma keeps_argfd n : keeps (argfd n).
Proof. unfold argfd. keeps_tac. Qed.
Lemma keeps_argptr n size : keeps (argptr n size).
Proof. unfold argptr. keeps_tac. Qed.
Lemma keeps_argstr n : keeps (argstr n).
Proof. unfold argstr. keeps_tac. Qed.
Lemma keeps_fs_ino {A} (f : inode -> A) ip : keeps (fs_ino f ip).
Proof. unfold fs_ino. keeps_tac. Qed.
Lemma keeps_cwd_namei devsw path : keeps (cwd_namei devsw path).
Proof. unfold cwd_namei. keeps_tac. Qed.
Lemma keeps_cwd_nameiparent devsw path : keeps (cwd_nameiparent devsw path).
Proof. unfold cwd_nameiparent. keeps_tac. Qed.
Lemma keeps_upd_at i f : keeps (upd_at i f).
Proof. unfold upd_at. keeps_tac. Qed.
Lemma keeps_mem_op f : keeps (mem_op f).
Proof. unfold mem_op. keeps_tac. Qed.
#[export] Hint Resolve keeps_fdalloc keeps_argfd keeps_argptr keeps_argstr keeps_fs_ino
  keeps_cwd_namei keeps_cwd_nameiparent keeps_upd_at keeps_mem_op : keeps.

Lemma keeps_create devsw path type major minor : keeps (create devsw path type major minor).
Proof. unfold create. keeps_tac. Qed.
Lemma keeps_open_inode kend ip omode : keeps (open_inode kend ip omode).
Proof. unfold open_inode, upd_file. keeps_tac. Qed.
Lemma keeps_link_bad ip : keeps (link_bad ip).
Proof. unfold link_bad. keeps_tac. Qed.
Lemma keeps_unlink_bad dp : keeps (unlink_bad dp).
Proof. unfold unlink_bad. keeps_tac. Qed.
#[export] Hint Resolve keeps_create keeps_open_inode keeps_link_bad keeps_unlink_bad : keeps.

Lemma keeps_sys_dup : keeps sys_dup.
Proof. unfold sys_dup. keeps_tac. Qed.
Lemma keeps_sys_read devsw : keeps (sys_read devsw).
Proof. unfold sys_read. keeps_tac; apply uwrite_bytes_calls. Qed.
Lemma keeps_sys_write devsw : keeps (sys_write devsw).
Proof. unfold sys_write. keeps_tac. Qed.
Lemma keeps_sys_close kend : keeps (sys_close kend).
Proof. unfold sys_close. keeps_tac. Qed.
Lemma keeps_sys_fstat : keeps sys_fstat.
Proof. unfold sys_fstat, store_stat. keeps_tac; by rewrite !uwrite_bytes_calls. Qed.
Lemma keeps_sys_link devsw : keeps (sys_link devsw).
Proof. unfold sys_link. keeps_tac. Qed.
Lemma keeps_sys_unlink devsw : keeps (sys_unlink devsw).
Proof. unfold sys_unlink. keeps_tac. Qed.
Lemma keeps_sys_open devsw kend : keeps (sys_open devsw kend).
Proof. unfold sys_open. keeps_tac. Qed.
Lemma keeps_sys_mkdir devsw : keeps (sys_mkdir devsw).
Proof. unfold sys_mkdir. keeps_tac. Qed.
Lemma keeps_sys_mknod devsw : keeps (sys_mknod devsw).
Proof. unfold sys_mknod. keeps_tac. Qed.
Lemma keeps_sys_chdir devsw : keeps (sys_chdir devsw).
Proof. unfold sys_chdir. keeps_tac. Qed.
Lemma keeps_sys_pipe kend : keeps (sys_pipe kend).
Proof. unfold sys_pipe. keeps_tac; apply uwrite_bytes_calls. Qed.
#[export] Hint Resolve keeps_sys_dup keeps_sys_read keeps_sys_write keeps_sys_close keeps_sys_fstat
  keeps_sys_link keeps_sys_unlink keeps_sys_open keeps_sys_mkdir keeps_sys_mknod keeps_sys_chdir
  keeps_sys_pipe : keeps.

Lemma keeps_allocproc fa ta : keeps (allocproc fa ta).
Proof. unfold allocproc. keeps_tac. Qed.
#[export] Hint Resolve keeps_allocproc : keeps.
Lemma keeps_fork kend kdata fa ta : keeps (fork kend kdata fa ta).
Proof. unfold fork, dup_files. keeps_tac. Qed.
Lemma keeps_wait kend : keeps (wait kend).
Proof. unfold wait. keeps_tac. Qed.
Lemma keeps_exit {A} kend : keeps (@exit kend A).
Proof. unfold exit, close_files. keeps_tac. Qed.
Lemma keeps_switchuvm : keeps switchuvm.
Proof. unfold switchuvm. keeps_tac. Qed.
#[export] Hint Resolve keeps_switchuvm : keeps.
Lemma keeps_growproc kend n : keeps (growproc kend n).
Proof. unfold growproc. keeps_tac. Qed.
#[export] Hint Resolve keeps_fork keeps_wait keeps_exit keeps_growproc : keeps.

Lemma keeps_loaduvm devsw pgdir addr ip offset sz : keeps (loaduvm devsw pgdir addr ip offset sz).
Proof.
  unfold loaduvm. keeps_step; [auto with keeps|]. generalize 0 as i. generalize (S (Z.to_nat (sz / PGSIZE))).
  intros fuel. induction fuel as [|fuel IH]; intros i; simpl; keeps_tac; apply IH.
Qed.
#[export] Hint Resolve keeps_loaduvm : keeps.
Lemma keeps_load_segments devsw kend n pgdir ip off sz : keeps (load_segments devsw kend n pgdir ip off sz).
Proof.
  revert off sz. induction n as [|n IH]; intros off sz; simpl; keeps_tac; apply IH.
Qed.
Lemma keeps_push_args argv argc pgdir sp ustack : keeps (push_args argv argc pgdir sp ustack).
Proof.
  revert argc sp ustack. induction argv as [|a argv IH]; intros argc sp ustack; simpl; keeps_tac; apply IH.
Qed.
Lemma keeps_fetch_argv n uargv : keeps (fetch_argv n uargv).
Proof. revert uargv. induction n as [|n IH]; intros uargv; simpl; keeps_tac; apply IH. Qed.
Lemma keeps_exec_bad kend pgdir ip : keeps (exec_bad kend pgdir ip).
Proof. unfold exec_bad. keeps_tac. Qed.
#[export] Hint Resolve keeps_load_segments keeps_push_args keeps_fetch_argv keeps_exec_bad : keeps.
Lemma keeps_sys_exec devsw kend kdata : keeps (sys_exec devsw kend kdata).
Proof. unfold sys_exec, exec, exec_stack, tf_set. keeps_tac. Qed.
#[export] Hint Resolve keeps_sys_exec : keeps.

Definition zsum (l : list Z) : Z := foldr Z.add 0 l.

Lemma zsum_alter f i l :
  (i < length l)%nat -> zsum (alter f i l) = zsum l + (f (l !!! i) - l !!! i).
Proof.
  unfold zsum. revert i. induction l as [|x l IH]; intros i Hi; simpl in *; [lia|].
  destruct i as [|i]; simpl; [lia|]. specialize (IH i ltac:(lia)). unfold alter in IH. lia.
Qed.

(** The first counter is the sum of the others (up to the wrap-around of an int). *)
Definition balanced (c : list Z) : Prop :=
  length c = NCALLS /\ u32 (c !!! 0%nat) = u32 (zsum (drop 1 c)).

Lemma bump_balanced c num :
  balanced c -> (0 < num < NCALLS)%nat -> balanced (bump num (bump 0 c)).
Proof.
  intros [Hl Hs] Hn. unfold bump. split; [by rewrite !length_alter|].
  destruct c as [|c0 c]; [done|]. destruct num as [|n]; [lia|].
  unfold NCALLS in *. simpl in Hl, Hs |- *.
  change (list_alter (fun v => s32 (v + 1)) n c) with (alter (fun v => s32 (v + 1)) n c).
  rewrite drop_0 in *. rewrite zsum_alter by lia. rewrite u32_s32.
  unfold u32 in *. rewrite <- (Zplus_mod_idemp_l c0), Hs, Zplus_mod_idemp_l.
  rewrite <- (Zplus_mod_idemp_r (s32 _ - _)), <- (Zminus_mod_idemp_l (s32 _)).
  fold (u32 (s32 (c !!! n + 1))). rewrite u32_s32. unfold u32.
  rewrite Zminus_mod_idemp_l, Zplus_mod_idemp_r. f_equal. lia.
Qed.

Section Counters.
Context (devsw : Z -> devsw_entry) (kend kdata fa ta : Z).

Lemma syscalls_keep num f :
  syscalls devsw kend kdata fa ta num = Some f -> num <> SYS_sysnumcall -> keeps f.
Proof.
  unfold syscalls. intros Hs Hn.
  repeat match type of Hs with
  | (if ?b then _ else _) = Some _ => destruct b eqn:?
  end; simplify_eq; auto with keeps.
  all: unfold sys_fork, sys_exit, sys_wait, sys_kill, sys_getpid, sys_sbrk, sys_sleep, sleep_turn,
    sys_uptime; keeps_tac.
  exfalso. by apply Hn, Z.eqb_eq.
Qed.

Lemma syscalls_total num : 1 <= num <= 22 -> is_Some (syscalls devsw kend kdata fa ta num).
Proof.
  intros Hn. unfold syscalls.
  repeat match goal with
  | |- is_Some (if ?n =? ?c then _ else _) => destruct (Z.eqb_spec n c); [by eexists|]
  end.
  exfalso. unfold SYS_fork, SYS_exit, SYS_wait, SYS_pipe, SYS_read, SYS_kill, SYS_exec, SYS_fstat,
    SYS_chdir, SYS_dup, SYS_getpid, SYS_sbrk, SYS_sleep, SYS_uptime, SYS_open, SYS_write, SYS_mknod,
    SYS_unlink, SYS_link, SYS_mkdir, SYS_close, SYS_sysnumcall in *. lia.
Qed.

Lemma syscalls_sysnumcall : syscalls devsw kend kdata fa ta SYS_sysnumcall = Some sys_sysnumcall.
Proof. reflexivity. Qed.

Lemma gets_bind {St A B} (f : St -> A) (m : A -> M St B) s : bind (gets f) m s = m (f s) s.
Proof. reflexivity. Qed.
Lemma modify_bind {St B} (f : St -> St) (m : unit -> M St B) s : bind (modify f) m s = m tt (f s).
Proof. reflexivity. Qed.

(** What a system call does to the counters. *)
Definition counted (num : Z) (c : list Z) : list Z :=
  if decide (1 <= num <= 21) then bump (Z.to_nat num) (bump 0 c)
  else if decide (num = SYS_sysnumcall) then replicate NCALLS 0 else c.

Lemma counted_balanced num c : balanced c -> balanced (counted num c).
Proof.
  intros Hb. unfold counted. case_decide; [apply bump_balanced; [done|unfold NCALLS; lia]|].
  case_decide; [|done]. split; vm_compute; reflexivity.
Qed.

Lemma tf_set_calls off v : keeps (tf_set off v).
Proof. unfold tf_set. keeps_tac. Qed.

(** C36. The system call counters: a system call of the table counts once in total and once
    under its number before it runs, sysnumcall() resets all of them, and a number that is
    not in the table counts nowhere, also when the call sleeps or does not return to the
    process (exit). So the total is always the sum of the others. *)
Theorem syscall_counters k k' :
  final (syscall devsw kend kdata fa ta k) = Some k' -> balanced (k_calls k) ->
  k_calls k' = counted (s32 (tf_get tf_eax k)) (k_calls k) /\ balanced (k_calls k').
Proof.
  intros Hs Hb. enough (Hc : k_calls k' = counted (s32 (tf_get tf_eax k)) (k_calls k)).
  { split; [done|]. rewrite Hc. by apply counted_balanced. }
  unfold syscall in Hs. rewrite gets_bind in Hs. cbv zeta in Hs.
  set (num := s32 (tf_get tf_eax k)) in *. unfold counted.
  destruct ((0 <? num) && (num <? 23)) eqn:Er.
  - apply andb_true_iff in Er as [R1%Z.ltb_lt R2%Z.ltb_lt].
    destruct (syscalls_total num ltac:(lia)) as [f Ef]. rewrite Ef, !modify_bind in Hs.
    destruct (decide (num = SYS_sysnumcall)) as [E22|E22].
    + rewrite E22, syscalls_sysnumcall in Ef. injection Ef as <-. rewrite decide_False by (unfold SYS_sysnumcall in *; lia).
      unfold sys_sysnumcall, sysnumcall_report, bind, gets, modify, ret in Hs. by apply tf_set_calls in Hs as ->.
    + rewrite decide_True by (unfold SYS_sysnumcall in *; lia).
      assert (Hk : keeps (r <- f ;; tf_set tf_eax r)).
      { apply keeps_bind; [by eapply syscalls_keep|intros; apply tf_set_calls]. }
      by rewrite (Hk _ _ Hs).
  - apply tf_set_calls in Hs as ->. apply andb_false_iff in Er as [R%Z.ltb_ge|R%Z.ltb_ge];
      rewrite !decide_False by (unfold SYS_sysnumcall; lia); done.
Qed.
End Counters.
