(* ===== verification/KernelDemo.v ===== *)
(** A small running kernel, on which the theorems about system calls are instantiated: one
    process, whose memory is the page of [demo_pt] at address 4096, on the file system of
    FsDemo.v with no transaction open. *)

From S2P Require Export SysSpec FsDemo.

Open Scope Z_scope.
Open Scope kernel_scope.

(** The trap frame is on a page outside the pages of the process. *)
Definition demo_tf : Z := KERNBASE + 0x300000.

Definition demo_proc : proc :=
  p_set_frames demo_tf demo_tf
    (mkProc 8192 (demo_page 0) demo_tf RUNNING 7 None 0 0 None 0
       (replicate (Z.to_nat NOFILE) None) (Some 0%nat) (replicate 16 0)).

Definition demo_tab_kern : ptab :=
  mkPtab false (demo_proc :: replicate 63 proc0) 8 (Some 0%nat) (Some 0%nat).

(** The process asks for system call [num]: its stack pointer is 4096, its arguments are the
    words above it, and a string is at address 4196. *)
Definition demo_mem (num : Z) (args str : list Z) : mem :=
  wr_bytes (wr_bytes (wr32 (wr32 demo_pt (demo_tf + tf_eax) num) (demo_tf + tf_esp) 4096)
    (demo_page 2 + 4) (mjoin (le_bytes 4 <$> args))) (demo_page 2 + 100) (str ++ [0]).

Definition demo_str : Z := 4196.

(** The inodes of FsDemo.v, with the superblock read. *)
Definition demo_fs : fsys := set_icache demo_icache (set_sb (decode_sb fs_super) fs_boot).

Definition demo_file0 : file := mkFile FD_NONE 0 false false 0 0 0.

Definition demo_kern (num : Z) (args str : list Z) : kern :=
  mkKern demo_fs false (replicate (Z.to_nat NFILE) demo_file0) ∅
    (mkKst (demo_mem num args str) false 1 (demo_page 3)) demo_tab_kern 0 false
    (replicate NCALLS 0) false.

Definition ret_val {St A} (o : outcome St A) : option A :=
  match o with Ret a _ => Some a | _ => None end.

(** A read of 20 bytes to address 4200, and the string "ab". *)
Lemma user_pointers_in_bounds_witness :
  let k := demo_kern SYS_open [demo_str; 4200; 20] [97; 98] in
  ret_val (argptr 1 20 k) = Some (Some 4200) /\ ret_val (argstr 0 k) = Some (Some [97; 98]) /\
  (forall p k', argptr 1 20 k = Ret (Some p) k' ->
     k' = k /\ 0 <= 20 /\ 0 <= p /\ p + 20 <= 8192) /\
  (forall str k', argstr 0 k = Ret (Some str) k' ->
     k' = k /\ exists p, 0 <= p /\ p + Z.of_nat (length str) < 8192 /\
       Forall (fun c => c <> 0) str /\ uread_bytes k p (length str) = str /\
       uread k (p + Z.of_nat (length str)) = 0).
Proof.
  intros k. split; [by vm_compute|]. split; [by vm_compute|].
  assert (Hsz : p_sz (cur_proc k) = 8192) by reflexivity. rewrite <- Hsz. split.
  - apply (user_pointers_in_bounds k 1 20); rewrite ?Hsz; unfold KERNBASE; lia.
  - apply (user_pointers_in_bounds k 0 20); rewrite ?Hsz; unfold KERNBASE; lia.
Defined.

(** No devices. *)
Definition no_devsw (_ : Z) : devsw_entry := mkDevsw None None.

Definition is_ret {A} (o : option A) : bool := match o with Some _ => true | None => false end.

(** A call of getpid(). *)
Lemma syscall_counters_witness :
  let k := demo_kern SYS_getpid [] [] in
  exists k', final (syscall no_devsw demo_end demo_end 0 0 k) = Some k' /\
    k_calls k' = counted SYS_getpid (k_calls k) /\ balanced (k_calls k').
Proof.
  intros k. assert (Hs : is_ret (final (syscall no_devsw demo_end demo_end 0 0 k)) = true)
    by (vm_compute; reflexivity).
  destruct (final (syscall no_devsw demo_end demo_end 0 0 k)) as [k'|] eqn:E; [|discriminate Hs].
  exists k'. split; [done|].
  assert (Hn : s32 (tf_get tf_eax k) = SYS_getpid) by (vm_compute; reflexivity).
  rewrite <- Hn. apply (syscall_counters no_devsw demo_end demo_end 0 0 k k' E).
  split; vm_compute; reflexivity.
Defined.
