(* ===== verification/Boot.v ===== *)
(** bootmain.c: the boot loader, which reads the kernel from the disk into memory. The disk
    controller is hardware: what it answers to a read of its status register, and the sectors
    of the disk, are parameters. *)

From S2P Require Export Exec.

Open Scope Z_scope.
Open Scope kernel_scope.

Definition SECTSIZE : Z := 512.

(** The memory, the number of reads of the status register, and the writes to the ports. *)
Record boot := mkBoot {
  b_mem : mem;
  b_time : nat;
  b_out : list (Z * Z);
}.

Definition set_bmem (m : mem) (s : boot) : boot := mkBoot m (b_time s) (b_out s).
Definition tick (s : boot) : boot := mkBoot (b_mem s) (S (b_time s)) (b_out s).
Definition add_out (port v : Z) (s : boot) : boot := mkBoot (b_mem s) (b_time s) (b_out s ++ [(port, u8 v)]).

(** The value of a register: the last one written. *)
Definition last_out (port : Z) (l : list (Z * Z)) : Z :=
  foldl (fun v w => if w.1 =? port then w.2 else v) 0 l.
(** The sector that the registers name. *)
Definition lba (l : list (Z * Z)) : Z :=
  last_out 0x1F3 l + 2 ^ 8 * last_out 0x1F4 l + 2 ^ 16 * last_out 0x1F5 l
  + 2 ^ 24 * Z.land (last_out 0x1F6 l) 0xF.

(** A string of bytes stored from address [a] on: addresses have 32 bits. *)
Fixpoint store_bytes (m : mem) (a : Z) (bs : list Z) : mem :=
  match bs with
  | [] => m
  | b :: bs' => store_bytes (wr m (u32 a) b) (a + 1) bs'
  end.

Section Boot.
Context (status : nat -> Z) (disk : Z -> list Z).
(** How long waitdisk() may take. *)
Context (patience : nat).

Fixpoint waitdisk_loop (fuel : nat) : M boot unit :=
  match fuel with
  | O => diverge
  | S f =>
      st <- gets (fun s => status (b_time s)) ;;
      modify tick ;;
      if Z.land st 0xC0 =? 0x40 then ret tt else waitdisk_loop f
  end.
Definition waitdisk : M boot unit := waitdisk_loop patience.

Definition readsect (dst offset : Z) : M boot unit :=
  waitdisk ;;
  modify (add_out 0x1F2 1) ;;
  modify (add_out 0x1F3 offset) ;;
  modify (add_out 0x1F4 (Z.shiftr offset 8)) ;;
  modify (add_out 0x1F5 (Z.shiftr offset 16)) ;;
  modify (add_out 0x1F6 (Z.lor (Z.shiftr offset 24) 0xE0)) ;;
  modify (add_out 0x1F7 0x20) ;;
  waitdisk ;;
  modify (fun s => set_bmem (store_bytes (b_mem s) dst (disk (lba (b_out s)))) s).

Fixpoint readseg_loop (fuel : nat) (pa epa offset : Z) : M boot unit :=
  if pa <? epa then
    match fuel with
    | O => diverge
    | S f => readsect pa offset ;; readseg_loop f (u32 (pa + SECTSIZE)) epa (u32 (offset + 1))
    end
  else ret tt.

(** readseg(): while no pointer wraps around, the loop has a turn per sector; a pointer that
    wraps around starts an endless loop. *)
Definition readseg (pa count offset : Z) : M boot unit :=
  readseg_loop (Z.to_nat (count / SECTSIZE + 2)) (u32 (pa - offset mod SECTSIZE)) (u32 (pa + count))
    (u32 (offset / SECTSIZE + 1)).

Definition ph_paddr (h : list Z) : Z := getf 4 12 h.
Definition BOOT_ELF : Z := 0x10000.

(** The struct at an address. *)
Definition bytes_at (a : Z) (n : Z) (s : boot) : list Z := rd_bytes (b_mem s) a (Z.to_nat n).

(** The loop of bootmain() over the program headers. *)
Fixpoint load_kernel (fuel : nat) (ph eph : Z) : M boot unit :=
  if ph <? eph then
    match fuel with
    | O => diverge
    | S f =>
        h <- gets (bytes_at ph sizeof_proghdr) ;;
        let pa := ph_paddr h in
        readseg pa (ph_filesz h) (ph_off h) ;;
        h <- gets (bytes_at ph sizeof_proghdr) ;;
        when (ph_filesz h <? ph_memsz h)
          (modify (fun s => set_bmem (store_bytes (b_mem s) (u32 (pa + ph_filesz h))
                                        (replicate (Z.to_nat (ph_memsz h - ph_filesz h)) 0)) s)) ;;
        load_kernel f (u32 (ph + sizeof_proghdr)) eph
    end
  else ret tt.

(** bootmain(): the address that it calls, or nothing. *)
Definition bootmain : M boot (option Z) :=
  readseg BOOT_ELF 4096 0 ;;
  elf <- gets (bytes_at BOOT_ELF sizeof_elfhdr) ;;
  if negb (elf_magic elf =? ELF_MAGIC) then ret None else
  let ph := u32 (BOOT_ELF + elf_phoff elf) in
  load_kernel (Z.to_nat (elf_phnum elf)) ph (u32 (ph + sizeof_proghdr * elf_phnum elf)) ;;
  elf <- gets (bytes_at BOOT_ELF sizeof_elfhdr) ;;
  ret (Some (elf_entry elf)).
End Boot.

(** ** The boot loader loads the kernel: every segment of the ELF file on the disk is in memory,
    with its part without contents cleared, when the entry point is called. *)

Lemma land_e0 x : 0 <= x < 16 -> Z.land (u8 (Z.lor x 0xE0)) 0xF = x.
Proof.
  intros H. assert (Hall : forallb (fun n => Z.land (u8 (Z.lor (Z.of_nat n) 0xE0)) 0xF =? Z.of_nat n) (seq 0 16) = true)
    by (vm_compute; reflexivity).
  rewrite forallb_forall in Hall. specialize (Hall (Z.to_nat x)). rewrite Z2Nat.id in Hall by lia.
  apply Z.eqb_eq, Hall, in_seq. lia.
Qed.

Lemma rd_store_bytes m a bs b :
  0 <= a -> a + Z.of_nat (length bs) <= 2 ^ 32 ->
  rd (store_bytes m a bs) b =
    if decide (a <= b < a + Z.of_nat (length bs)) then bs !!! Z.to_nat (b - a) else rd m b.
Proof.
  revert m a. induction bs as [|c bs IH]; intros m a H0 Ha; cbn [store_bytes length] in *.
  - rewrite decide_False by lia. done.
  - rewrite IH by lia. rewrite u32_below by lia. destruct (decide (a = b)) as [<-|Hne].
    + rewrite decide_False, decide_True by lia. rewrite rd_wr_eq, Z.sub_diag. done.
    + rewrite rd_wr_ne by done. repeat case_decide; try (done || lia).
      replace (Z.to_nat (b - a)) with (S (Z.to_nat (b - (a + 1)))) by lia. done.
Qed.

(** The registers get the sector back together. *)
Lemma lba_offset l offset :
  0 <= offset < 2 ^ 28 ->
  lba (l ++ [(0x1F2, u8 1)] ++ [(0x1F3, u8 offset)] ++ [(0x1F4, u8 (Z.shiftr offset 8))]
         ++ [(0x1F5, u8 (Z.shiftr offset 16))] ++ [(0x1F6, u8 (Z.lor (Z.shiftr offset 24) 0xE0))]
         ++ [(0x1F7, u8 0x20)]) = offset.
Proof.
  intros H. unfold lba, last_out. rewrite !foldl_app. cbn [foldl fst snd Z.eqb Pos.eqb].
  rewrite !Z.shiftr_div_pow2 by lia. rewrite land_e0 by (Z.div_mod_to_equations; lia).
  unfold u8. Z.div_mod_to_equations. lia.
Qed.

Section Spec.
Context (status : nat -> Z) (disk : Z -> list Z) (patience : nat).
(** The controller gets ready within [patience] reads of its status, and a sector has 512
    bytes. *)
Hypothesis Hready : forall t, exists k, (k < patience)%nat /\ Z.land (status (t + k)%nat) 0xC0 = 0x40.
Hypothesis Hsector : forall n, length (disk n) = Z.to_nat SECTSIZE.

(** Byte [n] of the kernel file, which starts at sector 1. *)
Definition fbyte (n : Z) : Z := disk (n / SECTSIZE + 1) !!! Z.to_nat (n mod SECTSIZE).
Fixpoint fbytes (off : Z) (n : nat) : list Z :=
  match n with O => [] | S n' => fbyte off :: fbytes (off + 1) n' end.

Lemma wp_waitdisk_loop fuel (Q : unit -> boot -> Prop) s k :
  (k < fuel)%nat -> Z.land (status (b_time s + k)%nat) 0xC0 = 0x40 ->
  (forall t, Q tt (mkBoot (b_mem s) t (b_out s))) -> wp (waitdisk_loop status fuel) Q s.
Proof.
  revert s k. induction fuel as [|f IH]; intros s k Hk Hst HQ; [lia|]. cbn [waitdisk_loop].
  apply wp_bind, wp_gets. apply wp_bind, wp_modify.
  destruct (Z.eqb_spec (Z.land (status (b_time s)) 0xC0) 0x40) as [He|Hne]; [apply wp_ret, HQ|].
  destruct k as [|k]; [by rewrite Nat.add_0_r in Hst|].
  apply (IH _ k); [lia| |done]. cbn [tick b_time]. by rewrite Nat.add_succ_r in Hst.
Qed.

Lemma wp_waitdisk (Q : unit -> boot -> Prop) s :
  (forall t, Q tt (mkBoot (b_mem s) t (b_out s))) -> wp (waitdisk status patience) Q s.
Proof using Hready.
  intros HQ. destruct (Hready (b_time s)) as (k & Hk & Hst). by apply (wp_waitdisk_loop _ _ _ k).
Qed.

Lemma wp_readsect dst offset (Q : unit -> boot -> Prop) s :
  0 <= offset < 2 ^ 28 ->
  (forall s', b_mem s' = store_bytes (b_mem s) dst (disk offset) -> Q tt s') ->
  wp (readsect status disk patience dst offset) Q s.
Proof using Hready.
  intros Ho HQ. unfold readsect. apply wp_bind, wp_waitdisk. intros t.
  do 6 (apply wp_bind, wp_modify). apply wp_bind, wp_waitdisk. intros t'. apply wp_modify, HQ.
  cbn [add_out b_mem b_out set_bmem]. rewrite <- !app_assoc, lba_offset by done. done.
Qed.

Lemma wp_readseg_loop fuel p epa k s :
  0 <= k -> k + Z.of_nat fuel < 2 ^ 28 -> epa <= p + SECTSIZE * Z.of_nat fuel ->
  0 <= p -> epa + SECTSIZE <= 2 ^ 32 ->
  wp (readseg_loop status disk patience fuel p epa k) (fun _ s' =>
    (forall a, p <= a < epa -> rd (b_mem s') a = disk (k + (a - p) / SECTSIZE) !!! Z.to_nat ((a - p) mod SECTSIZE)) /\
    (forall a, a < p \/ epa + SECTSIZE - 1 <= a -> rd (b_mem s') a = rd (b_mem s) a)) s.
Proof using Hready Hsector.
  revert p k s. unfold SECTSIZE in *. induction fuel as [|f IH]; intros p k s Hk Hf He Hp Hb; cbn [readseg_loop].
  - rewrite (proj2 (Z.ltb_ge _ _)) by lia. apply wp_ret. split; [lia|done].
  - destruct (Z.ltb_spec p epa) as [Hlt|Hge]; [|apply wp_ret; split; [lia|done]].
    apply wp_bind, wp_readsect; [lia|]. intros s1 Hs1.
    rewrite (u32_below (k + 1)), (u32_below (p + SECTSIZE)) by (unfold SECTSIZE; lia).
    eapply wp_mono; [apply IH; unfold SECTSIZE; lia|]. intros [] s2 [H1 H2]. unfold SECTSIZE in *. split.
    + intros a Ha. destruct (Z.lt_ge_cases a (p + 512)) as [Hin|Hout].
      * rewrite H2, Hs1, rd_store_bytes by (rewrite ?Hsector; unfold SECTSIZE; lia).
        rewrite Hsector, decide_True by (unfold SECTSIZE; lia).
        rewrite Z.div_small, Z.mod_small, Z.add_0_r by lia. done.
      * rewrite H1 by lia. replace (a - p) with (a - (p + 512) + 1 * 512) by lia.
        rewrite Z.div_add, Z.mod_add by lia. do 2 f_equal. lia.
    + intros a Ha. rewrite H2 by lia. rewrite Hs1, rd_store_bytes by (rewrite ?Hsector; unfold SECTSIZE; lia).
      by rewrite Hsector, decide_False by (unfold SECTSIZE; lia).
Qed.

(** readseg(pa, count, off): the bytes asked for are those of the file; at most the rest of the
    first and of the last sector is written besides. *)
Lemma wp_readseg pa count off s :
  0 <= count -> 0 <= off -> off / 512 + count / 512 + 4 < 2 ^ 28 ->
  0 <= pa - off mod SECTSIZE -> pa + count + SECTSIZE <= 2 ^ 32 ->
  wp (readseg status disk patience pa count off) (fun _ s' =>
    (forall a, pa <= a < pa + count -> rd (b_mem s') a = fbyte (off + (a - pa))) /\
    (forall a, a < pa - off mod SECTSIZE \/ pa + count + SECTSIZE - 1 <= a -> rd (b_mem s') a = rd (b_mem s) a)) s.
Proof using Hready Hsector.
  intros Hc Ho Hs Hlo Hhi. unfold readseg, SECTSIZE in *. pose proof (Z.mod_pos_bound off 512) as Hmb. pose proof (Z.div_pos off 512). pose proof (Z.div_pos count 512).
  rewrite (u32_below (off / 512 + 1)), (u32_below (pa + count)), (u32_below (pa - off mod 512)) by lia.
  eapply wp_mono; [apply wp_readseg_loop; unfold SECTSIZE; [lia|lia| |lia|lia]|].
  - rewrite Z2Nat.id by lia. Z.div_mod_to_equations. lia.
  - intros [] s' [H1 H2]. unfold SECTSIZE in *. split; [|done]. intros a Ha.
    rewrite H1 by (Z.div_mod_to_equations; lia). unfold fbyte, SECTSIZE.
    replace (off + (a - pa)) with (a - (pa - off mod 512) + off / 512 * 512)
      by (Z.div_mod_to_equations; lia).
    rewrite Z.div_add, Z.mod_add by lia. do 2 f_equal. lia.
Qed.

(** *** The kernel file *)

Definition elf : list Z := fbytes 0 52.
Definition phdr (i : nat) : list Z := fbytes (elf_phoff elf + 32 * Z.of_nat i) 32.

(** The place of a segment, with the part of its first sector before it. *)
Definition seg_lo (h : list Z) : Z := ph_paddr h - ph_off h mod SECTSIZE.

Definition loaded (h : list Z) (m : mem) : Prop :=
  forall k, 0 <= k < ph_memsz h ->
    rd m (ph_paddr h + k) = if k <? ph_filesz h then fbyte (ph_off h + k) else 0.

(** The header page is in memory. *)
Definition headers (m : mem) : Prop :=
  forall a, BOOT_ELF <= a < BOOT_ELF + 4096 -> rd m a = fbyte (a - BOOT_ELF).

(** A file that the loader can load: the program headers are in the first page, the segments
    are above it, in the order of their addresses, and fit the disk and the address space, with
    the rest of their last sector. *)
Record kernel_file : Prop := mkKernelFile {
  kf_magic : elf_magic elf = ELF_MAGIC;
  kf_phoff : 0 <= elf_phoff elf;
  kf_phnum : 0 <= elf_phnum elf;
  kf_page : elf_phoff elf + 32 * elf_phnum elf <= 4096;
  kf_seg : forall i, Z.of_nat i < elf_phnum elf ->
    let h := phdr i in
    BOOT_ELF + 4096 <= seg_lo h /\ 0 <= ph_filesz h <= ph_memsz h /\ 0 <= ph_off h /\
    ph_off h / 512 + ph_filesz h / 512 + 4 < 2 ^ 28 /\ ph_paddr h + ph_memsz h + SECTSIZE <= 2 ^ 32;
  kf_order : forall i j, (i < j)%nat -> Z.of_nat j < elf_phnum elf ->
    ph_paddr (phdr i) + ph_memsz (phdr i) <= seg_lo (phdr j);
}.

Lemma rd_bytes_fbytes m a off n :
  (forall i, 0 <= i < Z.of_nat n -> rd m (a + i) = fbyte (off + i)) -> rd_bytes m a n = fbytes off n.
Proof using Type.
  revert a off. induction n as [|n IH]; intros a off H; [done|]. cbn [rd_bytes fbytes]. f_equal.
  - specialize (H 0). rewrite !Z.add_0_r in H. apply H. lia.
  - apply IH. intros i Hi. rewrite <- !Z.add_assoc. apply H. lia.
Qed.

Lemma headers_bytes m off n :
  headers m -> 0 <= off -> off + Z.of_nat n <= 4096 -> rd_bytes m (BOOT_ELF + off) n = fbytes off n.
Proof using Type.
  intros Hh Ho Hn. apply rd_bytes_fbytes. intros i Hi. rewrite Hh by lia. f_equal. lia.
Qed.

(** The loop over the program headers, from header [i] on. *)
Lemma wp_load_kernel n i s :
  kernel_file -> Z.of_nat (i + n) = elf_phnum elf -> headers (b_mem s) ->
  (forall j, (j < i)%nat -> loaded (phdr j) (b_mem s)) ->
  wp (load_kernel status disk patience n (BOOT_ELF + (elf_phoff elf + 32 * Z.of_nat i))
        (BOOT_ELF + (elf_phoff elf + 32 * elf_phnum elf))) (fun _ s' =>
    headers (b_mem s') /\ forall j, Z.of_nat j < elf_phnum elf -> loaded (phdr j) (b_mem s')) s.
Proof using Hready Hsector.
  intros Hk. revert i s. induction n as [|n IH]; intros i s Hn Hh Hl; cbn [load_kernel].
  - rewrite (proj2 (Z.ltb_ge _ _)) by lia. apply wp_ret. split; [done|]. intros j Hj. apply Hl. lia.
  - rewrite (proj2 (Z.ltb_lt _ _)) by lia. pose proof Hk as [_ Hpo _ Hpg Hseg Hord].
    assert (Hb : forall s, headers (b_mem s) ->
      bytes_at (BOOT_ELF + (elf_phoff elf + 32 * Z.of_nat i)) sizeof_proghdr s = phdr i).
    { intros s0 H0. apply headers_bytes; [done|lia|]. unfold sizeof_proghdr. lia. }
    destruct (Hseg i) as (Hlo & Hsz & Hoff & Hdisk & Htop); [lia|]. set (h := phdr i) in *.
    pose proof (Z.mod_pos_bound (ph_off h) SECTSIZE ltac:(done)) as Hmod. unfold seg_lo in Hlo.
    apply wp_bind, wp_gets. rewrite (Hb s Hh). cbv zeta.
    eapply wp_seq; [apply wp_readseg; [lia|done|done|unfold BOOT_ELF in *; lia|lia]|]. intros [] s1 [H1 H2].
    assert (Hh1 : headers (b_mem s1)).
    { intros a Ha. rewrite H2 by lia. by apply Hh. }
    apply wp_bind, wp_gets. rewrite (Hb s1 Hh1).
    set (s2 := if ph_filesz h <? ph_memsz h then set_bmem (store_bytes (b_mem s1) (u32 (ph_paddr h + ph_filesz h))
                 (replicate (Z.to_nat (ph_memsz h - ph_filesz h)) 0)) s1 else s1).
    assert (Hm2 : forall a, rd (b_mem s2) a =
      if decide (ph_paddr h + ph_filesz h <= a < ph_paddr h + ph_memsz h) then 0 else rd (b_mem s1) a).
    { intros a. subst s2. destruct (Z.ltb_spec (ph_filesz h) (ph_memsz h)); cbn [set_bmem b_mem].
      - unfold SECTSIZE, BOOT_ELF in *. rewrite u32_below by lia. rewrite rd_store_bytes by (rewrite ?length_replicate; lia).
        rewrite length_replicate, Z2Nat.id by lia. repeat case_decide; try (done || lia).
        rewrite lookup_total_replicate_2; [done|lia].
      - rewrite decide_False; [done|lia]. }
    assert (Hgo : wp (load_kernel status disk patience n (u32 (BOOT_ELF + (elf_phoff elf + 32 * Z.of_nat i) + sizeof_proghdr))
        (BOOT_ELF + (elf_phoff elf + 32 * elf_phnum elf)))
      (fun _ s' => headers (b_mem s') /\ forall j, Z.of_nat j < elf_phnum elf -> loaded (phdr j) (b_mem s')) s2).
    { replace (BOOT_ELF + (elf_phoff elf + 32 * Z.of_nat i) + sizeof_proghdr)
        with (BOOT_ELF + (elf_phoff elf + 32 * Z.of_nat (S i))) by (unfold sizeof_proghdr; lia).
      rewrite u32_below by (unfold BOOT_ELF; lia). apply IH; [lia| |].
      - intros a Ha. rewrite Hm2, decide_False by lia. by apply Hh1.
      - intros j Hj k Hkk. destruct (decide (j = i)) as [->|Hne].
        + fold h. rewrite Hm2. destruct (Z.ltb_spec k (ph_filesz h)).
          * rewrite decide_False, H1 by (fold h in Hkk; lia). f_equal. lia.
          * rewrite decide_True; [done|fold h in Hkk; lia].
        + pose proof (Hord j i ltac:(lia) ltac:(lia)) as Ho. unfold seg_lo in Ho. fold h in Ho.
          rewrite Hm2, decide_False, H2 by lia. apply Hl; [lia|done]. }
    unfold when. subst s2. destruct (ph_filesz h <? ph_memsz h).
    + apply wp_bind, wp_modify. done.
    + apply wp_bind, wp_ret. done.
Qed.

End Spec.

(** *** A kernel of two segments *)

Definition demo_phdr (off paddr filesz memsz : Z) : list Z :=
  mjoin (le_bytes 4 <$> [1; off; 0; paddr; filesz; memsz; 7; 4]).
Definition demo_image : list Z :=
  le_bytes 4 ELF_MAGIC ++ replicate 20 0 ++ le_bytes 4 0x100002 ++ le_bytes 4 52 ++ replicate 12 0 ++
  le_bytes 2 2 ++ replicate 6 0 ++ demo_phdr 116 0x100000 4 8 ++ demo_phdr 120 0x101000 2 2 ++
  [1; 2; 3; 4; 5; 6].
Definition demo_disk (n : Z) : list Z :=
  if n =? 1 then take 512 (demo_image ++ replicate 512 0) else replicate 512 0.
(** The controller is ready at every other poll. *)
Definition demo_status (t : nat) : Z := if Nat.even t then 0x80 else 0x50.

Lemma demo_kernel_file : kernel_file demo_disk.
Proof.
  assert (Hn : elf_phnum (elf demo_disk) = 2) by (vm_compute; reflexivity).
  split; rewrite ?Hn.
  - vm_compute. reflexivity.
  - vm_compute. discriminate.
  - done.
  - vm_compute. discriminate.
  - intros i Hi. destruct i as [|[|i]]; [..|lia]; cbv zeta; split_and!; vm_compute; done.
  - intros i j Hij Hj. assert (i = 0%nat /\ j = 1%nat) as [-> ->] by lia. vm_compute. discriminate.
Qed.

