(* ===== verification/Irq.v ===== *)
(** picirq.c, ioapic.c and timer.c: the interrupt controllers and the timer of a machine with
    one processor. The devices are modelled by their registers. *)

From S2P Require Export Syscall.

Open Scope Z_scope.

(** *** The 8259A *)

(** The mask, the base of the vectors, the words of the initialisation, and how many of these
    the chip still waits for. *)
Record pic := mkPic {
  pic_imr : Z;
  pic_base : Z;
  pic_icw3 : Z;
  pic_icw4 : Z;
  pic_wait : nat;
}.

(** A write to the command port: an initialisation word starts over and clears the mask, other
    commands do not concern the mask and the base. *)
Definition pic_command (v : Z) (p : pic) : pic :=
  if Z.testbit v 4 then mkPic 0 (pic_base p) (pic_icw3 p) (pic_icw4 p) 3 else p.
(** A write to the data port. *)
Definition pic_data (v : Z) (p : pic) : pic :=
  match pic_wait p with
  | O => mkPic v (pic_base p) (pic_icw3 p) (pic_icw4 p) 0
  | 1%nat => mkPic (pic_imr p) (pic_base p) (pic_icw3 p) v 0
  | 2%nat => mkPic (pic_imr p) (pic_base p) v (pic_icw4 p) 1
  | _ => mkPic (pic_imr p) (Z.land v 0xF8) (pic_icw3 p) (pic_icw4 p) 2
  end.

(** *** picirq.c *)

Definition IO_PIC1 : Z := 0x20.
Definition IO_PIC2 : Z := 0xA0.
Definition IRQ_SLAVE : Z := 2.

(** [irqmask], the two chips, and what was written to other ports. *)
Record irqs := mkIrqs {
  irqmask : Z;
  pic1 : pic;
  pic2 : pic;
  other_out : list (Z * Z);
}.

Definition irqmask0 : Z := Z.land 0xFFFF (Z.lnot (Z.shiftl 1 IRQ_SLAVE)).

Definition set_irqmask (v : Z) (s : irqs) : irqs := mkIrqs v (pic1 s) (pic2 s) (other_out s).
Definition outb (port v : Z) (s : irqs) : irqs :=
  let v := u8 v in
  if port =? IO_PIC1 then mkIrqs (irqmask s) (pic_command v (pic1 s)) (pic2 s) (other_out s)
  else if port =? IO_PIC1 + 1 then mkIrqs (irqmask s) (pic_data v (pic1 s)) (pic2 s) (other_out s)
  else if port =? IO_PIC2 then mkIrqs (irqmask s) (pic1 s) (pic_command v (pic2 s)) (other_out s)
  else if port =? IO_PIC2 + 1 then mkIrqs (irqmask s) (pic1 s) (pic_data v (pic2 s)) (other_out s)
  else mkIrqs (irqmask s) (pic1 s) (pic2 s) (other_out s ++ [(port, v)]).

Definition picsetmask (mask : Z) (s : irqs) : irqs :=
  let s := set_irqmask mask s in
  let s := outb (IO_PIC1 + 1) mask s in
  outb (IO_PIC2 + 1) (Z.shiftr mask 8) s.

Definition picenable (irq : Z) (s : irqs) : irqs :=
  picsetmask (u16 (Z.land (irqmask s) (Z.lnot (Z.shiftl 1 irq)))) s.

Definition picinit (s : irqs) : irqs :=
  let s := outb (IO_PIC1 + 1) 0xFF s in
  let s := outb (IO_PIC2 + 1) 0xFF s in
  let s := outb IO_PIC1 0x11 s in
  let s := outb (IO_PIC1 + 1) T_IRQ0 s in
  let s := outb (IO_PIC1 + 1) (Z.shiftl 1 IRQ_SLAVE) s in
  let s := outb (IO_PIC1 + 1) 0x3 s in
  let s := outb IO_PIC2 0x11 s in
  let s := outb (IO_PIC2 + 1) (T_IRQ0 + 8) s in
  let s := outb (IO_PIC2 + 1) IRQ_SLAVE s in
  let s := outb (IO_PIC2 + 1) 0x3 s in
  let s := outb IO_PIC1 0x68 s in
  let s := outb IO_PIC1 0x0a s in
  let s := outb IO_PIC2 0x68 s in
  let s := outb IO_PIC2 0x0a s in
  if negb (irqmask s =? 0xFFFF) then picsetmask (irqmask s) s else s.

(** *** timer.c *)

Definition IO_TIMER1 : Z := 0x040.
Definition TIMER_FREQ : Z := 1193182.
Definition TIMER_DIV (x : Z) : Z := (TIMER_FREQ + x / 2) / x.
Definition TIMER_MODE : Z := IO_TIMER1 + 3.
Definition TIMER_SEL0 : Z := 0x00.
Definition TIMER_RATEGEN : Z := 0x04.
Definition TIMER_16BIT : Z := 0x30.

Definition timerinit (s : irqs) : irqs :=
  let s := outb TIMER_MODE (Z.lor (Z.lor TIMER_SEL0 TIMER_RATEGEN) TIMER_16BIT) s in
  let s := outb IO_TIMER1 (TIMER_DIV 100 mod 256) s in
  let s := outb IO_TIMER1 (TIMER_DIV 100 / 256) s in
  picenable IRQ_TIMER s.

(** *** ioapic.c *)

Definition REG_ID : Z := 0x00.
Definition REG_VER : Z := 0x01.
Definition REG_TABLE : Z := 0x10.
Definition INT_DISABLED : Z := 0x00010000.

(** The selected register and the registers. *)
Record ioapic := mkIoapic { io_sel : Z; io_regs : Z -> Z }.

Definition ioapicread (reg : Z) (s : ioapic) : Z * ioapic := (io_regs s reg, mkIoapic reg (io_regs s)).
Definition ioapicwrite (reg data : Z) (s : ioapic) : ioapic :=
  mkIoapic reg (fun r => if r =? reg then u32 data else io_regs s r).

Fixpoint ioapicinit_loop (n : nat) (i : Z) (s : ioapic) : ioapic :=
  match n with
  | O => s
  | S n' =>
      ioapicinit_loop n' (i + 1)
        (ioapicwrite (REG_TABLE + 2 * i + 1) 0
          (ioapicwrite (REG_TABLE + 2 * i) (Z.lor INT_DISABLED (T_IRQ0 + i)) s))
  end.
(** ioapicinit(): the message about the id is the only use of it. *)
Definition ioapicinit (ismp : Z) (s : ioapic) : ioapic :=
  if ismp =? 0 then s else
  let '(v, s) := ioapicread REG_VER s in
  let maxintr := Z.land (Z.shiftr v 16) 0xFF in
  let '(id, s) := ioapicread REG_ID s in
  ioapicinit_loop (Z.to_nat (maxintr + 1)) 0 s.

Definition ioapicenable (ismp irq cpunum : Z) (s : ioapic) : ioapic :=
  if ismp =? 0 then s else
  ioapicwrite (REG_TABLE + 2 * irq + 1) (Z.shiftl cpunum 24)
    (ioapicwrite (REG_TABLE + 2 * irq) (T_IRQ0 + irq) s).

(** ** The interrupt lines that the drivers enable, and no others, reach the processor, under the
    numbers that trap() expects. *)

(** *** The 8259A *)

(** The interrupt that line [i] raises; the second chip is behind line 2 of the first. *)
Definition pic_delivers (s : irqs) (i : Z) : option Z :=
  if i <? 8 then
    if Z.testbit (pic_imr (pic1 s)) i then None else Some (pic_base (pic1 s) + i)
  else
    if Z.testbit (pic_imr (pic1 s)) IRQ_SLAVE || Z.testbit (pic_imr (pic2 s)) (i - 8) then None
    else Some (pic_base (pic2 s) + (i - 8)).

(** The chips are set up and have the mask of the driver. *)
Record pic_sync (s : irqs) : Prop := mkPicSync {
  py_mask : 0 <= irqmask s < 2 ^ 16;
  py_imr1 : pic_imr (pic1 s) = u8 (irqmask s);
  py_imr2 : pic_imr (pic2 s) = u8 (Z.shiftr (irqmask s) 8);
  py_base1 : pic_base (pic1 s) = T_IRQ0;
  py_base2 : pic_base (pic2 s) = T_IRQ0 + 8;
  py_wait1 : pic_wait (pic1 s) = 0%nat;
  py_wait2 : pic_wait (pic2 s) = 0%nat;
}.

Lemma picsetmask_sync m s :
  pic_sync s \/ (pic_base (pic1 s) = T_IRQ0 /\ pic_base (pic2 s) = T_IRQ0 + 8 /\
    pic_wait (pic1 s) = 0%nat /\ pic_wait (pic2 s) = 0%nat) ->
  0 <= m < 2 ^ 16 -> pic_sync (picsetmask m s) /\ irqmask (picsetmask m s) = m.
Proof.
  intros Hs Hm.
  assert (H : pic_base (pic1 s) = T_IRQ0 /\ pic_base (pic2 s) = T_IRQ0 + 8 /\
    pic_wait (pic1 s) = 0%nat /\ pic_wait (pic2 s) = 0%nat) by (destruct Hs as [[]|]; auto).
  destruct H as (H1 & H2 & H3 & H4).
  change (picsetmask m s) with
    (mkIrqs m (pic_data (u8 m) (pic1 s)) (pic_data (u8 (Z.shiftr m 8)) (pic2 s)) (other_out s)).
  unfold pic_data. rewrite H3, H4. by split.
Qed.

(** Whatever the chips were doing, the initialisation words get through. *)
Lemma picinit_sync s :
  irqmask s = irqmask0 -> pic_sync (picinit s) /\ irqmask (picinit s) = irqmask0.
Proof.
  intros Hm. unfold picinit. cbv zeta.
  match goal with |- context [irqmask ?t =? 0xFFFF] => set (s1 := t) end.
  assert (E : irqmask s1 = irqmask0) by exact Hm. rewrite E. cbn [negb irqmask0 Z.eqb].
  apply picsetmask_sync; [right; done|]. vm_compute. done.
Qed.

Lemma picenable_sync irq s :
  pic_sync s -> pic_sync (picenable irq s) /\
  irqmask (picenable irq s) = Z.land (irqmask s) (Z.lnot (Z.shiftl 1 irq)).
Proof.
  intros Hs. unfold picenable. pose proof (py_mask _ Hs) as Hm.
  assert (Hb : 0 <= Z.land (irqmask s) (Z.lnot (Z.shiftl 1 irq)) < 2 ^ 16).
  { rewrite <- Z.ldiff_land. pose proof (Z.ldiff_nonneg (irqmask s) (Z.shiftl 1 irq)).
    split; [lia|]. rewrite <- (Z.mod_small (irqmask s) (2 ^ 16)) by done.
    rewrite <- Z.land_ones, Z.ldiff_land, <- Z.land_assoc, (Z.land_comm (Z.ones 16)), Z.land_assoc, Z.land_ones by lia.
    apply Z.mod_pos_bound. lia. }
  rewrite (Z.mod_small _ _ Hb : u16 _ = _). by apply picsetmask_sync; [left|].
Qed.

(** The lines that are not masked: that of the second chip, and those that were enabled. *)
Lemma picenables_sync es s :
  pic_sync s -> Forall (fun e => 0 <= e) es ->
  let s' := foldl (fun s e => picenable e s) s es in
  pic_sync s' /\ forall i, 0 <= i < 16 ->
    Z.testbit (irqmask s') i = Z.testbit (irqmask s) i && negb (bool_decide (i ∈ es)).
Proof.
  intros Hs He. revert s Hs. induction He as [|e es He _ IH]; intros s Hs; cbn [foldl].
  - split; [done|]. intros i Hi. rewrite bool_decide_false by apply not_elem_of_nil. by rewrite andb_true_r.
  - destruct (picenable_sync e s Hs) as [Hs1 Hm1]. destruct (IH _ Hs1) as [Hs2 Hb]. split; [done|].
    intros i Hi. rewrite Hb, Hm1 by done. rewrite Z.land_spec, Z.lnot_spec, Z.shiftl_spec by lia.
    destruct (decide (i = e)) as [->|Hne].
    + rewrite Z.sub_diag, andb_false_r. simpl.
      rewrite (bool_decide_true (e ∈ e :: es)) by set_solver. by rewrite andb_false_r.
    + assert (Z.testbit 1 (i - e) = false) as ->.
      { destruct (Z.lt_ge_cases (i - e) 0); [by apply Z.testbit_neg_r|].
        destruct (i - e) eqn:E; [lia| |lia]. by rewrite Z.bits_above_log2 by (simpl; lia). }
      rewrite andb_true_r. f_equal. f_equal. apply bool_decide_ext. set_solver.
Qed.

Lemma testbit_u8 x i : 0 <= i < 8 -> Z.testbit (u8 x) i = Z.testbit x i.
Proof. intros Hi. unfold u8. change 256 with (2 ^ 8). by rewrite Z.mod_pow2_bits_low by lia. Qed.

Lemma pic_delivers_sync s i :
  pic_sync s -> 0 <= i < 16 -> Z.testbit (irqmask s) IRQ_SLAVE = false ->
  pic_delivers s i = if Z.testbit (irqmask s) i then None else Some (T_IRQ0 + i).
Proof.
  intros [Hm H1 H2 H3 H4 _ _] Hi Hsl. unfold pic_delivers. rewrite H1, H2, H3, H4.
  destruct (Z.ltb_spec i 8).
  - by rewrite testbit_u8 by lia.
  - rewrite !testbit_u8 by (unfold IRQ_SLAVE; lia). rewrite Hsl, Z.shiftr_spec by lia. cbn [orb].
    replace (i - 8 + 8) with i by lia. destruct (Z.testbit _ i); [done|]. f_equal. lia.
Qed.

(** *** The I/O APIC *)

(** The interrupt that line [i] raises, and the processor that gets it. *)
Definition io_delivers (s : ioapic) (i : Z) : option (Z * Z) :=
  let lo := io_regs s (REG_TABLE + 2 * i) in
  if Z.testbit lo 16 then None
  else Some (Z.land lo 0xFF, Z.shiftr (io_regs s (REG_TABLE + 2 * i + 1)) 24).

Lemma io_write_enable ismp irq cpu s i :
  ismp <> 0 -> 0 <= irq -> irq + T_IRQ0 < 256 -> 0 <= cpu < 256 -> 0 <= i ->
  io_delivers (ioapicenable ismp irq cpu s) i =
    if i =? irq then Some (T_IRQ0 + irq, cpu) else io_delivers s i.
Proof.
  intros Hs H0 H1 Hc Hi. unfold ioapicenable. rewrite (proj2 (Z.eqb_neq _ _) Hs).
  unfold io_delivers, ioapicwrite. cbn [io_regs]. unfold REG_TABLE, T_IRQ0 in *.
  destruct (Z.eqb_spec i irq) as [->|Hne].
  - rewrite !(proj2 (Z.eqb_neq (16 + 2 * irq) (16 + 2 * irq + 1))), !Z.eqb_refl by lia.
    rewrite u32_small by lia. rewrite (Z.bits_above_log2 (32 + irq) 16); [|lia|].
    2: { apply Z.log2_lt_pow2; lia. }
    change 0xFF with (Z.ones 8). rewrite Z.land_ones, Z.mod_small by lia.
    unfold u32. rewrite Z.shiftl_mul_pow2, Z.mod_small, Z.shiftr_div_pow2, Z.div_mul by lia. done.
  - rewrite !(proj2 (Z.eqb_neq _ _)) by lia. done.
Qed.

(** The value of a disabled entry. *)
Lemma io_disabled j : 0 <= j -> j + T_IRQ0 < 256 -> Z.testbit (u32 (Z.lor INT_DISABLED (T_IRQ0 + j))) 16 = true.
Proof.
  intros H0 H1. unfold u32. change (2 ^ 32) with (2 ^ 32).
  rewrite Z.mod_pow2_bits_low by lia. rewrite Z.lor_spec. done.
Qed.

Lemma ioapicinit_loop_regs n i s r :
  0 <= i -> i + Z.of_nat n <= 256 ->
  (r < REG_TABLE + 2 * i \/ REG_TABLE + 2 * (i + Z.of_nat n) <= r ->
   io_regs (ioapicinit_loop n i s) r = io_regs s r) /\
  (forall j, i <= j < i + Z.of_nat n ->
   io_regs (ioapicinit_loop n i s) (REG_TABLE + 2 * j) = u32 (Z.lor INT_DISABLED (T_IRQ0 + j))).
Proof.
  revert i s r. induction n as [|n IH]; intros i s r Hi Hn; cbn [ioapicinit_loop].
  - split; [done|]. lia.
  - set (s1 := ioapicwrite _ _ _). split.
    + intros Hr. rewrite (proj1 (IH (i + 1) s1 r ltac:(lia) ltac:(lia))) by lia.
      subst s1. cbn. rewrite !(proj2 (Z.eqb_neq _ _)) by lia. done.
    + intros j Hj. destruct (decide (j = i)) as [->|Hne].
      * rewrite (proj1 (IH (i + 1) s1 (REG_TABLE + 2 * i) ltac:(lia) ltac:(lia))) by lia.
        subst s1. cbn [ioapicwrite io_regs]. rewrite (proj2 (Z.eqb_neq _ _)), Z.eqb_refl by lia. done.
      * apply (IH (i + 1) s1 r); lia.
Qed.

Lemma ioapicinit_masks ismp s i :
  ismp <> 0 -> 0 <= i <= Z.land (Z.shiftr (io_regs s REG_VER) 16) 0xFF -> i + T_IRQ0 < 256 ->
  io_delivers (ioapicinit ismp s) i = None.
Proof.
  intros Hs Hi H1. unfold ioapicinit. rewrite (proj2 (Z.eqb_neq _ _) Hs). cbn [ioapicread io_regs].
  set (n := Z.to_nat _). assert (Hn : i < Z.of_nat n <= 256).
  { subst n. change 0xFF with (Z.ones 8) in *. rewrite Z.land_ones in * by lia.
    pose proof (Z.mod_pos_bound (Z.shiftr (io_regs s REG_VER) 16) (2 ^ 8) ltac:(lia)). lia. }
  unfold io_delivers. set (s1 := mkIoapic _ _).
  destruct (ioapicinit_loop_regs n 0 s1 0 ltac:(lia) ltac:(lia)) as [_ H]. rewrite H by lia.
  by rewrite io_disabled by lia.
Qed.

(** The processor of the last request for line [i]. *)
Definition routed (i : Z) (es : list (Z * Z)) : option Z :=
  foldl (fun r e => if i =? e.1 then Some e.2 else r) None es.

Lemma io_enables ismp es s i :
  ismp <> 0 -> 0 <= i -> Forall (fun e => 0 <= e.1 /\ e.1 + T_IRQ0 < 256 /\ 0 <= e.2 < 256) es ->
  io_delivers s i = None ->
  io_delivers (foldl (fun s e => ioapicenable ismp e.1 e.2 s) s es) i =
    (fun cpu => (T_IRQ0 + i, cpu)) <$> routed i es.
Proof.
  intros Hs Hi He Hn. unfold routed.
  assert (H : forall r s, io_delivers s i = (fun cpu => (T_IRQ0 + i, cpu)) <$> r ->
    io_delivers (foldl (fun s e => ioapicenable ismp e.1 e.2 s) s es) i =
    (fun cpu => (T_IRQ0 + i, cpu)) <$> foldl (fun r e => if i =? e.1 then Some e.2 else r) r es).
  { clear Hn s. induction He as [|e es (H1 & H2 & H3) _ IH]; intros r s Hr; cbn [foldl]; [done|].
    apply IH. rewrite io_write_enable by done. destruct (Z.eqb_spec i e.1) as [->|]; done. }
  by apply (H None).
Qed.

(** Interrupt lines and trap numbers. After picinit(), whatever state the controllers were
    in, and any sequence of picenable() calls, line [i] of the two 8259A raises interrupt
    T_IRQ0 + i if it was enabled and none otherwise. After ioapicinit() on a multiprocessor and
    the corresponding ioapicenable() calls, line [i] of the I/O APIC raises the same interrupt on
    the processor of the last call, and none if there was no call. *)
Theorem irqs_routed s io ismp es i :
  irqmask s = irqmask0 -> ismp <> 0 -> 15 <= Z.land (Z.shiftr (io_regs io REG_VER) 16) 0xFF ->
  Forall (fun e => 0 <= e.1 < 16 /\ 0 <= e.2 < 256) es -> 0 <= i < 16 -> i <> IRQ_SLAVE ->
  pic_delivers (foldl (fun s e => picenable e s) (picinit s) es.*1) i =
    (if decide (i ∈ es.*1) then Some (T_IRQ0 + i) else None) /\
  io_delivers (foldl (fun s e => ioapicenable ismp e.1 e.2 s) (ioapicinit ismp io) es) i =
    (fun cpu => (T_IRQ0 + i, cpu)) <$> routed i es.
Proof.
  intros Hm Hmp Hmax He Hi Hsl. split.
  - destruct (picinit_sync s Hm) as [Hs Hm'].
    destruct (picenables_sync es.*1 _ Hs) as [Hs' Hb].
    { apply Forall_fmap. eapply Forall_impl; [done|]. simpl. lia. }
    assert (H0 : forall j, 0 <= j < 16 -> Z.testbit irqmask0 j = negb (j =? IRQ_SLAVE)).
    { intros j Hj. assert (j ∈ Z.of_nat <$> seq 0 16) as (k & -> & Hk)%list_elem_of_fmap.
      { apply list_elem_of_fmap. exists (Z.to_nat j). split; [lia|]. apply elem_of_seq. lia. }
      apply elem_of_seq in Hk. do 16 (destruct k as [|k]; [reflexivity|]). lia. }
    rewrite pic_delivers_sync by (done || (rewrite Hb, Hm', H0 by done; done)).
    rewrite Hb, Hm', H0, (proj2 (Z.eqb_neq _ _) Hsl) by done. cbn [negb andb].
    case_decide; [by rewrite bool_decide_true|by rewrite bool_decide_false].
  - apply io_enables; [done|lia| |].
    + eapply Forall_impl; [done|]. unfold T_IRQ0. simpl. lia.
    + apply ioapicinit_masks; [done|lia|unfold T_IRQ0; lia].
Qed.

(** The keyboard and the disk, on the machine with two processors. *)
Lemma irqs_routed_witness :
  let s := mkIrqs irqmask0 (mkPic 0xB8 8 0 0 2) (mkPic 0x8F 112 0 0 0) [] in
  let io := mkIoapic 0 (fun r => if r =? REG_VER then 0x170011 else 0) in
  pic_delivers (foldl (fun s e => picenable e s) (picinit s) [IRQ_KBD; IRQ_IDE]) IRQ_IDE = Some 46 /\
  io_delivers (foldl (fun s e => ioapicenable 1 e.1 e.2 s) (ioapicinit 1 io) [(IRQ_KBD, 0); (IRQ_IDE, 1)]) IRQ_IDE
    = Some (46, 1).
Proof.
  intros s io. apply (irqs_routed s io 1 [(IRQ_KBD, 0); (IRQ_IDE, 1)] IRQ_IDE); try done.
  repeat constructor; unfold IRQ_KBD, IRQ_IDE; simpl; lia.
Defined.
