(* ===== verification/Lapic.v ===== *)
(** lapic.c: the local APIC, and the clock of the CMOS. The registers of the local APIC and the
    ports of the clock are hardware. *)

From S2P Require Export Mp Syscall.

Open Scope Z_scope.
Open Scope kernel_scope.

(** *** Registers *)

Definition ID : Z := 0x0020 / 4.
Definition VER : Z := 0x0030 / 4.
Definition TPR : Z := 0x0080 / 4.
Definition EOI : Z := 0x00B0 / 4.
Definition SVR : Z := 0x00F0 / 4.
Definition ENABLE : Z := 0x00000100.
Definition ESR : Z := 0x0280 / 4.
Definition ICRLO : Z := 0x0300 / 4.
Definition INIT : Z := 0x00000500.
Definition STARTUP : Z := 0x00000600.
Definition DELIVS : Z := 0x00001000.
Definition ASSERT : Z := 0x00004000.
Definition LEVEL : Z := 0x00008000.
Definition BCAST : Z := 0x00080000.
Definition ICRHI : Z := 0x0310 / 4.
Definition TIMER : Z := 0x0320 / 4.
Definition X1 : Z := 0x0000000B.
Definition PERIODIC : Z := 0x00020000.
Definition PCINT : Z := 0x0340 / 4.
Definition LINT0 : Z := 0x0350 / 4.
Definition LINT1 : Z := 0x0360 / 4.
Definition ERROR : Z := 0x0370 / 4.
Definition MASKED : Z := 0x00010000.
Definition TICR : Z := 0x0380 / 4.
Definition TDCR : Z := 0x03E0 / 4.
Definition IRQ_ERROR : Z := 19.

(** What the driver writes: a register of the local APIC, or a port. *)
Inductive lwrite : Type :=
| LReg (index value : Z)
| LPort (port value : Z).

(** The writes so far, the number of reads of a register that changes by itself, the memory, and
    the count of cpunum()'s warnings. *)
Record lst := mkLst { l_out : list lwrite; l_time : nat; l_mem : mem; l_warned : Z }.

Definition l_write (w : lwrite) (s : lst) : lst := mkLst (l_out s ++ [w]) (l_time s) (l_mem s) (l_warned s).
Definition l_tick (s : lst) : lst := mkLst (l_out s) (S (l_time s)) (l_mem s) (l_warned s).
Definition l_set_mem (m : mem) (s : lst) : lst := mkLst (l_out s) (l_time s) m (l_warned s).
Definition l_set_warned (n : Z) (s : lst) : lst := mkLst (l_out s) (l_time s) (l_mem s) n.

Section Lapic.
(** What mpinit() has found, and what the registers of the local APIC read as. *)
Context (mp : mpst) (lapic : nat -> Z -> Z).

Definition lapicw (index value : Z) : M lst unit := modify (l_write (LReg index (u32 value))).

Definition lapicr (index : Z) : M lst Z :=
  v <- gets (fun s => lapic (l_time s) index) ;;
  modify l_tick ;;
  ret v.

(** [while(lapic[ICRLO] & DELIVS);] *)
Fixpoint wait_delivery (fuel : nat) : M lst unit :=
  match fuel with
  | O => diverge
  | S f => v <- lapicr ICRLO ;; if Z.land v DELIVS =? 0 then ret tt else wait_delivery f
  end.

Definition lapicinit (fuel : nat) : M lst unit :=
  if mp_lapic mp =? 0 then ret tt else
  lapicw SVR (Z.lor ENABLE (T_IRQ0 + IRQ_SPURIOUS)) ;;
  lapicw TDCR X1 ;;
  lapicw TIMER (Z.lor PERIODIC (T_IRQ0 + IRQ_TIMER)) ;;
  lapicw TICR 10000000 ;;
  lapicw LINT0 MASKED ;;
  lapicw LINT1 MASKED ;;
  v <- lapicr VER ;;
  when (4 <=? Z.land (Z.shiftr v 16) 0xFF) (lapicw PCINT MASKED) ;;
  lapicw ERROR (T_IRQ0 + IRQ_ERROR) ;;
  lapicw ESR 0 ;;
  lapicw ESR 0 ;;
  lapicw EOI 0 ;;
  lapicw ICRHI 0 ;;
  lapicw ICRLO (Z.lor (Z.lor BCAST INIT) LEVEL) ;;
  wait_delivery fuel ;;
  lapicw TPR 0.

(** The loop of cpunum() *)
Fixpoint cpunum_loop (n : nat) (i apicid : Z) : M lst Z :=
  match n with
  | O => panic "unknown apicid"
  | S n' => if apicids mp !!! Z.to_nat i =? apicid then ret i else cpunum_loop n' (i + 1) apicid
  end.
(** cpunum(), with the flags of the processor. The warning is printed once. *)
Definition cpunum (eflags : Z) : M lst Z :=
  (if negb (Z.land eflags FL_IF =? 0) then modify (fun s => l_set_warned (s32 (l_warned s + 1)) s) else ret tt) ;;
  if mp_lapic mp =? 0 then ret 0 else
  id <- lapicr ID ;;
  cpunum_loop (Z.to_nat (ncpu mp)) 0 (Z.shiftr id 24).

Definition lapiceoi : M lst unit := if mp_lapic mp =? 0 then ret tt else lapicw EOI 0.

Definition CMOS_PORT : Z := 0x70.

Definition outb_l (port v : Z) : M lst unit := modify (l_write (LPort port (u8 v))).
Definition store16 (a v : Z) : M lst unit := modify (fun s => l_set_mem (wr16 (l_mem s) a v) s).

(** The startup interrupt, which lapicstartap() sends twice. *)
Definition send_startup (apicid addr : Z) : M lst unit :=
  lapicw ICRHI (Z.shiftl apicid 24) ;;
  lapicw ICRLO (Z.lor STARTUP (Z.shiftr addr 12)).
Definition lapicstartap (apicid addr : Z) : M lst unit :=
  outb_l CMOS_PORT 0xF ;;
  outb_l (CMOS_PORT + 1) 0x0A ;;
  let wrv := P2V (Z.lor (Z.shiftl 0x40 4) 0x67) in
  store16 wrv 0 ;;
  store16 (wrv + 2) (u16 (Z.shiftr addr 4)) ;;
  lapicw ICRHI (Z.shiftl apicid 24) ;;
  lapicw ICRLO (Z.lor (Z.lor INIT LEVEL) ASSERT) ;;
  lapicw ICRLO (Z.lor INIT LEVEL) ;;
  send_startup apicid addr ;;
  send_startup apicid addr.
End Lapic.

(** *** The clock *)

Definition CMOS_STATA : Z := 0x0a.
Definition CMOS_STATB : Z := 0x0b.
Definition CMOS_UIP : Z := Z.shiftl 1 7.
Definition SECS : Z := 0x00.
Definition MINS : Z := 0x02.
Definition HOURS : Z := 0x04.
Definition DAY : Z := 0x07.
Definition MONTH : Z := 0x08.
Definition YEAR : Z := 0x09.

(** struct rtcdate *)
Record rtcdate := mkDate { second : Z; minute : Z; hour : Z; day : Z; month : Z; year : Z }.

#[export] Instance rtcdate_eq_dec : EqDecision rtcdate.
Proof. solve_decision. Defined.

Section Cmos.
(** The registers of the clock, by the number of reads before. *)
Context (rtc : nat -> Z -> Z).

Definition cmos_read (reg : Z) : M lst Z :=
  outb_l CMOS_PORT reg ;;
  v <- gets (fun s => rtc (l_time s) reg) ;;
  modify l_tick ;;
  ret v.

Definition fill_rtcdate : M lst rtcdate :=
  s <- cmos_read SECS ;;
  mi <- cmos_read MINS ;;
  h <- cmos_read HOURS ;;
  d <- cmos_read DAY ;;
  mo <- cmos_read MONTH ;;
  y <- cmos_read YEAR ;;
  ret (mkDate s mi h d mo y).

Definition CONV (x : Z) : Z := Z.shiftr x 4 * 10 + Z.land x 0xf.
Definition conv_date (t : rtcdate) : rtcdate :=
  mkDate (CONV (second t)) (CONV (minute t)) (CONV (hour t)) (CONV (day t)) (CONV (month t)) (CONV (year t)).

(** The loop of cmostime() *)
Fixpoint cmostime_loop (fuel : nat) : M lst rtcdate :=
  match fuel with
  | O => diverge
  | S f =>
      t1 <- fill_rtcdate ;;
      a <- cmos_read CMOS_STATA ;;
      if negb (Z.land a CMOS_UIP =? 0) then cmostime_loop f else
      t2 <- fill_rtcdate ;;
      if decide (t1 = t2) then ret t1 else cmostime_loop f
  end.

Definition cmostime (fuel : nat) : M lst rtcdate :=
  sb <- cmos_read CMOS_STATB ;;
  let bcd := Z.land sb (Z.shiftl 1 2) =? 0 in
  t1 <- cmostime_loop fuel ;;
  let t1 := if bcd then conv_date t1 else t1 in
  ret (mkDate (second t1) (minute t1) (hour t1) (day t1) (month t1) (year t1 + 2000)).
End Cmos.

(** ** The numbers of the processors, and the time of day. *)

(** *** cpunum() *)

Lemma cpunum_loop_finds mp n i k id s :
  0 <= i -> (Z.to_nat i + n <= length (apicids mp))%nat -> (k < n)%nat ->
  apicids mp !! (Z.to_nat i + k)%nat = Some id ->
  (forall j, (j < k)%nat -> apicids mp !! (Z.to_nat i + j)%nat <> Some id) ->
  cpunum_loop mp n i id s = Ret (i + Z.of_nat k) s.
Proof.
  revert i k. induction n as [|n IH]; intros i k Hi Hn Hk Hid Hne; [lia|]. cbn [cpunum_loop].
  destruct (lookup_lt_is_Some_2 (apicids mp) (Z.to_nat i)) as [x Hx]; [lia|].
  rewrite (list_lookup_total_correct _ _ _ Hx). destruct k as [|k].
  - rewrite Nat.add_0_r, Hx in Hid. simplify_eq. rewrite Z.eqb_refl, Z.add_0_r. done.
  - destruct (Z.eqb_spec x id) as [->|Hx'].
    { exfalso. apply (Hne 0%nat); [lia|]. by rewrite Nat.add_0_r. }
    rewrite (IH (i + 1) k); [f_equal; lia|lia|lia|lia| |].
    + rewrite <- Hid. f_equal. lia.
    + intros j Hj He. apply (Hne (S j)); [lia|]. rewrite <- He. f_equal. lia.
Qed.

(** The processors are numbered. When mpinit() has read a configuration table of at most NCPU
    processors with different APIC identifiers, cpunum() on the processor with the k-th of them
    returns k, whatever the state of the interrupt flag; so every processor finds its own entry of
    cpus[]. *)
Theorem processors_numbered str_mp str_pcmp inb m mp conf es fuel s k id lapic eflags l :
  mpconfig str_mp str_pcmp m = Some (mp, conf) -> mptable m conf es 0 -> (length es <= fuel)%nat ->
  ncpu s = 0 -> length (apicids s) = Z.to_nat NCPU ->
  Z.of_nat (length (procs es)) <= NCPU -> NoDup (procs es) -> rd32 m (conf + mpconf_lapicaddr) <> 0 ->
  procs es !! k = Some id -> Z.shiftr (lapic (l_time l) ID) 24 = id ->
  exists s' l', mpinit str_mp str_pcmp inb fuel m s = Ret tt s' /\
    ncpu s' = Z.of_nat (length (procs es)) /\ cpunum s' lapic eflags l = Ret (Z.of_nat k) l'.
Proof.
  intros Hc Ht Hf Hn Ha Hlen Hnd Hlap Hk Hid.
  destruct (mpinit_table str_mp str_pcmp inb m mp conf es fuel s) as (s' & Hrun & _ & Hncpu & Hids & Hla & Hlen' & _);
    try done.
  rewrite Z.min_r in Hncpu by lia. rewrite Hncpu, Nat2Z.id, (take_ge (procs es)) in Hids by lia.
  assert (Hlook : forall j x, procs es !! j = Some x -> apicids s' !! j = Some x).
  { intros j x Hj. rewrite <- Hids in Hj. by apply lookup_take_Some in Hj as [Hj _]. }
  set (l1 := l_tick (if negb (Z.land eflags FL_IF =? 0) then l_set_warned (s32 (l_warned l + 1)) l else l)).
  exists s', l1. split_and!; [done|done|]. unfold cpunum. rewrite Hla, (proj2 (Z.eqb_neq _ _) Hlap).
  assert (Hk' : (k < length (procs es))%nat) by (by eapply lookup_lt_Some).
  transitivity (cpunum_loop s' (Z.to_nat (ncpu s')) 0 id l1).
  { unfold bind, lapicr, gets, modify, ret. subst l1.
    destruct (negb _); cbn; by rewrite Hid. }
  rewrite Hncpu, Nat2Z.id. apply (cpunum_loop_finds s' _ 0 k id); [lia|cbn; lia|done| |].
  - by apply Hlook.
  - intros j Hj He. change (apicids s' !! j = Some id) in He. destruct (lookup_lt_is_Some_2 (procs es) j) as [x Hx]; [lia|].
    pose proof (Hlook j x Hx) as Hx'. rewrite He in Hx'. simplify_eq.
    pose proof (NoDup_lookup _ _ _ _ Hnd Hx Hk). lia.
Qed.

(** Two processors, with the APIC numbers 0 and 3; the second runs cpunum(). *)
Lemma processors_numbered_witness :
  exists s' l', mpinit demo_lit_mp demo_lit_pcmp (fun _ => 0) 4 (demo_firmware (table_bytes demo_entries)) mp0
      = Ret tt s' /\ ncpu s' = 2 /\
    cpunum s' (fun _ r => if r =? ID then 0x03000000 else 0) FL_IF (mkLst [] 0 ∅ 0) = Ret 1 l'.
Proof.
  apply (processors_numbered demo_lit_mp demo_lit_pcmp (fun _ => 0) (demo_firmware (table_bytes demo_entries))
    (P2V 0xF0000) (P2V 0xF1000) demo_entries 4 mp0 1 3
    (fun _ r => if r =? ID then 0x03000000 else 0) FL_IF (mkLst [] 0 ∅ 0)).
  - vm_compute. reflexivity.
  - split; [apply demo_entries_ok|vm_compute; reflexivity|vm_compute; reflexivity].
  - done.
  - done.
  - done.
  - done.
  - apply (bool_decide_unpack _). by vm_compute.
  - vm_compute. discriminate.
  - done.
  - done.
Defined.

(** *** The time *)

Section Clock.
Context (rtc : nat -> Z -> Z).

(** The date that six reads from time [t] on give. *)
Definition reads (t : nat) : rtcdate :=
  mkDate (rtc t SECS) (rtc (S t) MINS) (rtc (2 + t)%nat HOURS) (rtc (3 + t)%nat DAY)
    (rtc (4 + t)%nat MONTH) (rtc (5 + t)%nat YEAR).

(** Two equal readings from [t] on, with no update in progress between them. *)
Definition steady (t : nat) : Prop :=
  Z.land (rtc (6 + t)%nat CMOS_STATA) CMOS_UIP = 0 /\ reads t = reads (7 + t)%nat.

(** How the clock shows a date: in decimal digits of four bits, or in binary. *)
Definition bcd (n : Z) : Z := n / 10 * 16 + n mod 10.
Definition shown (is_bcd : bool) (d : rtcdate) : rtcdate :=
  if is_bcd then mkDate (bcd (second d)) (bcd (minute d)) (bcd (hour d)) (bcd (day d)) (bcd (month d)) (bcd (year d))
  else d.
Definition date_ok (d : rtcdate) : Prop :=
  (0 <= second d < 100 /\ 0 <= minute d < 100 /\ 0 <= hour d < 100) /\
  (0 <= day d < 100 /\ 0 <= month d < 100 /\ 0 <= year d < 100).

Lemma CONV_bcd n : 0 <= n < 100 -> CONV (bcd n) = n.
Proof.
  intros H. assert (Hall : forallb (fun k => CONV (bcd (Z.of_nat k)) =? Z.of_nat k) (seq 0 100) = true)
    by (vm_compute; reflexivity).
  rewrite forallb_forall in Hall. specialize (Hall (Z.to_nat n)). rewrite Z2Nat.id in Hall by lia.
  apply Z.eqb_eq, Hall, in_seq. lia.
Qed.

Lemma conv_shown (b : bool) d : date_ok d -> (if b then conv_date (shown b d) else shown b d) = d.
Proof.
  intros [(H1 & H2 & H3) (H4 & H5 & H6)]. destruct b; [|done]. destruct d. simpl in *.
  unfold conv_date. simpl. by rewrite !CONV_bcd.
Qed.

(** The six reads. *)
Lemma fill_reads s : exists s', fill_rtcdate rtc s = Ret (reads (l_time s)) s' /\ l_time s' = (6 + l_time s)%nat.
Proof. eexists. split; reflexivity. Qed.

Lemma status_read reg s : exists s', cmos_read rtc reg s = Ret (rtc (l_time s) reg) s' /\ l_time s' = S (l_time s).
Proof. eexists. split; reflexivity. Qed.

(** The loop ends at the latest when the clock stands still. *)
Lemma cmostime_loop_ends T fuel s :
  (forall t, (T <= t)%nat -> steady t) -> (T - l_time s < fuel)%nat ->
  exists t0 s', cmostime_loop rtc fuel s = Ret (reads t0) s' /\ steady t0 /\ (l_time s <= t0)%nat.
Proof.
  intros HT. revert s. induction fuel as [|f IH]; intros s Hf; [lia|]. cbn [cmostime_loop].
  destruct (fill_reads s) as (s1 & E1 & T1). destruct (status_read CMOS_STATA s1) as (s2 & E2 & T2).
  destruct (fill_reads s2) as (s3 & E3 & T3).
  unfold bind at 1. rewrite E1. unfold bind at 1. rewrite E2, T1.
  assert (Hnext : forall s', (7 + l_time s <= l_time s')%nat -> ~ steady (l_time s) ->
    exists t0 s'', cmostime_loop rtc f s' = Ret (reads t0) s'' /\ steady t0 /\ (l_time s <= t0)%nat).
  { intros s' Hs' Hns. assert (~ (T <= l_time s)%nat) by (intros Hle; by apply Hns, HT).
    destruct (IH s') as (t0 & s'' & ? & ? & ?); [lia|]. exists t0, s''. split_and!; [done|done|lia]. }
  destruct (Z.eqb_spec (Z.land (rtc (6 + l_time s)%nat CMOS_STATA) CMOS_UIP) 0) as [Hu|Hu]; cbn [negb].
  - unfold bind at 1. rewrite E3. rewrite T2, T1. case_decide as Hd.
    + exists (l_time s), s3. split_and!; [done|by split|done].
    + apply Hnext; [lia|]. by intros [_ ?].
  - apply Hnext; [lia|]. by intros [? _].
Qed.

(** The time of day. If the clock of the machine at last stands still for two readings,
    cmostime() returns; and the date it returns was read twice with the same result and no update
    in progress between the readings, so it is not mixed from before and after an update: for a
    date that the clock showed then, in BCD or in binary as its status says, it is this date, with
    2000 added to the year. *)
Theorem cmostime_consistent T fuel s :
  (forall t, (T <= t)%nat -> steady t) -> (T < fuel)%nat ->
  let is_bcd := Z.land (rtc (l_time s) CMOS_STATB) 4 =? 0 in
  exists t0 d s', cmostime rtc fuel s = Ret d s' /\ steady t0 /\
    forall date, date_ok date -> reads t0 = shown is_bcd date ->
      d = mkDate (second date) (minute date) (hour date) (day date) (month date) (year date + 2000).
Proof.
  intros HT Hf is_bcd. destruct (status_read CMOS_STATB s) as (s1 & E1 & T1).
  destruct (cmostime_loop_ends T fuel s1 HT) as (t0 & s2 & E2 & Hs & _); [lia|].
  set (t1 := if is_bcd then conv_date (reads t0) else reads t0).
  exists t0, (mkDate (second t1) (minute t1) (hour t1) (day t1) (month t1) (year t1 + 2000)), s2.
  split_and!; [|done|].
  - unfold cmostime. unfold bind at 1. rewrite E1. unfold bind at 1. rewrite E2. done.
  - intros date Hd Hsh. assert (t1 = date) as ->; [|done]. subst t1. rewrite Hsh. by apply conv_shown.
Qed.
End Clock.

(** A clock that shows the 16th of November 2026, 10:59:30, in BCD, from the 20th read on. *)
Definition demo_date : rtcdate := mkDate 30 59 10 16 11 26.
Definition demo_rtc (t : nat) (reg : Z) : Z :=
  if reg =? CMOS_STATB then 2
  else if (t <? 20)%nat then if reg =? CMOS_STATA then 0x80 else Z.of_nat t
  else if reg =? SECS then 0x30 else if reg =? MINS then 0x59 else if reg =? HOURS then 0x10
  else if reg =? DAY then 0x16 else if reg =? MONTH then 0x11 else if reg =? YEAR then 0x26 else 0.

Lemma cmostime_consistent_witness :
  exists t0 d s', cmostime demo_rtc 30 (mkLst [] 0 ∅ 0) = Ret d s' /\ steady demo_rtc t0 /\
    forall date, date_ok date -> reads demo_rtc t0 = shown true date ->
      d = mkDate (second date) (minute date) (hour date) (day date) (month date) (year date + 2000).
Proof.
  apply (cmostime_consistent demo_rtc 20 30 (mkLst [] 0 ∅ 0)); [|lia].
  intros t Ht. assert (Hr : forall k reg, demo_rtc (k + t) reg = demo_rtc 20 reg).
  { intros k reg. unfold demo_rtc. rewrite (proj2 (Nat.ltb_ge (k + t) 20)) by lia. done. }
  split; [by rewrite Hr|]. unfold reads. pose proof (Hr 0%nat) as H0. pose proof (Hr 1%nat) as H1.
  cbn [Nat.add] in H0, H1.
  by rewrite !H0, !H1, !Nat.add_assoc, !Hr, <- !Nat.add_succ_l, !Hr.
Defined.
