(* ===== verification/Segs.v ===== *)
(** Segments and gates: the descriptors of mmu.h, seginit() and switchuvm() of vm.c, and
    tvinit() and idtinit() of trap.c.

    The tables are bytes of memory. The processor's side of the format (how it takes a
    descriptor apart, and what lgdt, lidt, ltr and a load of %gs do) is here as well. *)

From S2P Require Export Syscall.

Open Scope Z_scope.

(** *** Bit fields *)

(** A struct of bit fields, first field in the low bits: pairs of a width and a value. *)
Fixpoint pack (l : list (Z * Z)) : Z :=
  match l with
  | [] => 0
  | (w, v) :: l' => v mod 2 ^ w + 2 ^ w * pack l'
  end.

(** [n] bits at bit [off]. *)
Definition field (w off n : Z) : Z := (w / 2 ^ off) mod 2 ^ n.

(** Words of [n] bytes in memory. *)
Definition rdn (n : nat) (m : mem) (a : Z) : Z := le_val (rd_bytes m a n).
Definition wrn (n : nat) (m : mem) (a v : Z) : mem := wr_bytes m a (le_bytes n v).

(** *** Descriptors of mmu.h *)

Definition SEG_KCODE : Z := 1.
Definition SEG_KDATA : Z := 2.
Definition SEG_KCPU : Z := 3.
Definition SEG_TSS : Z := 6.
Definition NSEGS : Z := 7.
Definition STA_X : Z := 0x8.
Definition STA_W : Z := 0x2.
Definition STA_R : Z := 0x2.
Definition STS_T32A : Z := 0x9.
Definition STS_IG32 : Z := 0xE.
Definition STS_TG32 : Z := 0xF.

Record segdesc := mkSegdesc {
  sd_lim_15_0 : Z;
  sd_base_15_0 : Z;
  sd_base_23_16 : Z;
  sd_type : Z;
  sd_s : Z;
  sd_dpl : Z;
  sd_p : Z;
  sd_lim_19_16 : Z;
  sd_avl : Z;
  sd_rsv1 : Z;
  sd_db : Z;
  sd_g : Z;
  sd_base_31_24 : Z;
}.

Definition segdesc_fields (d : segdesc) : list (Z * Z) :=
  [(16, sd_lim_15_0 d); (16, sd_base_15_0 d); (8, sd_base_23_16 d); (4, sd_type d);
   (1, sd_s d); (2, sd_dpl d); (1, sd_p d); (4, sd_lim_19_16 d); (1, sd_avl d);
   (1, sd_rsv1 d); (1, sd_db d); (1, sd_g d); (8, sd_base_31_24 d)].
Definition segdesc_bits (d : segdesc) : Z := pack (segdesc_fields d).

Definition SEG (type base lim dpl : Z) : segdesc :=
  mkSegdesc (Z.land (Z.shiftr lim 12) 0xffff) (Z.land (u32 base) 0xffff)
    (Z.land (Z.shiftr (u32 base) 16) 0xff) type 1 dpl 1
    (Z.shiftr (u32 lim) 28) 0 0 1 1 (Z.shiftr (u32 base) 24).
Definition SEG16 (type base lim dpl : Z) : segdesc :=
  mkSegdesc (Z.land lim 0xffff) (Z.land (u32 base) 0xffff)
    (Z.land (Z.shiftr (u32 base) 16) 0xff) type 1 dpl 1
    (Z.shiftr (u32 lim) 16) 0 0 1 0 (Z.shiftr (u32 base) 24).

Definition sd_set_s (v : Z) (d : segdesc) : segdesc :=
  mkSegdesc (sd_lim_15_0 d) (sd_base_15_0 d) (sd_base_23_16 d) (sd_type d) v (sd_dpl d)
    (sd_p d) (sd_lim_19_16 d) (sd_avl d) (sd_rsv1 d) (sd_db d) (sd_g d) (sd_base_31_24 d).

Record gatedesc := mkGatedesc {
  gd_off_15_0 : Z;
  gd_cs : Z;
  gd_args : Z;
  gd_rsv1 : Z;
  gd_type : Z;
  gd_s : Z;
  gd_dpl : Z;
  gd_p : Z;
  gd_off_31_16 : Z;
}.

Definition gatedesc_fields (d : gatedesc) : list (Z * Z) :=
  [(16, gd_off_15_0 d); (16, gd_cs d); (5, gd_args d); (3, gd_rsv1 d); (4, gd_type d);
   (1, gd_s d); (2, gd_dpl d); (1, gd_p d); (16, gd_off_31_16 d)].
Definition gatedesc_bits (d : gatedesc) : Z := pack (gatedesc_fields d).

Definition SETGATE (istrap : bool) (sel off d : Z) : gatedesc :=
  mkGatedesc (Z.land (u32 off) 0xffff) sel 0 0 (if istrap then STS_TG32 else STS_IG32)
    0 d 1 (Z.shiftr (u32 off) 16).

(** *** What the processor reads in a descriptor *)

Definition d_base (w : Z) : Z := field w 16 16 + 2 ^ 16 * field w 32 8 + 2 ^ 24 * field w 56 8.
Definition d_limit (w : Z) : Z :=
  let l := field w 0 16 + 2 ^ 16 * field w 48 4 in
  if field w 55 1 =? 1 then l * 4096 + 4095 else l.
Definition d_type (w : Z) : Z := field w 40 4.
Definition d_s (w : Z) : Z := field w 44 1.
Definition d_dpl (w : Z) : Z := field w 45 2.
Definition d_p (w : Z) : Z := field w 47 1.
Definition d_db (w : Z) : Z := field w 54 1.

Definition g_off (w : Z) : Z := field w 0 16 + 2 ^ 16 * field w 48 16.
Definition g_sel (w : Z) : Z := field w 16 16.
Definition g_type (w : Z) : Z := field w 40 4.
Definition g_s (w : Z) : Z := field w 44 1.

(** The registers that hold the tables: of %gs and of the task register, what the processor
    keeps of the descriptor. *)
Record hw := mkHw {
  gdtr_lim : Z;
  gdtr_base : Z;
  idtr_lim : Z;
  idtr_base : Z;
  gs_base : Z;
  tr_base : Z;
  tr_lim : Z;
  r_cr3 : Z;
}.

(** The three halfwords that lgdt() and lidt() of x86.h build, and their load. *)
Definition pseudo_desc (p size : Z) : list Z := [u16 (size - 1); u16 p; u16 (Z.shiftr (u32 p) 16)].
Definition pd_lim (pd : list Z) : Z := pd !!! 0%nat.
Definition pd_base (pd : list Z) : Z := pd !!! 1%nat + 2 ^ 16 * pd !!! 2%nat.

Definition lgdt (p size : Z) (h : hw) : hw :=
  let pd := pseudo_desc p size in
  mkHw (pd_lim pd) (pd_base pd) (idtr_lim h) (idtr_base h) (gs_base h) (tr_base h) (tr_lim h) (r_cr3 h).
Definition lidt (p size : Z) (h : hw) : hw :=
  let pd := pseudo_desc p size in
  mkHw (gdtr_lim h) (gdtr_base h) (pd_lim pd) (pd_base pd) (gs_base h) (tr_base h) (tr_lim h) (r_cr3 h).

(** The descriptor that a selector names. *)
Definition gdt_entry (h : hw) (m : mem) (sel : Z) : Z := rdn 8 m (gdtr_base h + 8 * (sel / 8)).

Definition loadgs (m : mem) (v : Z) (h : hw) : hw :=
  mkHw (gdtr_lim h) (gdtr_base h) (idtr_lim h) (idtr_base h) (d_base (gdt_entry h m v))
    (tr_base h) (tr_lim h) (r_cr3 h).
Definition ltr (m : mem) (sel : Z) (h : hw) : hw :=
  mkHw (gdtr_lim h) (gdtr_base h) (idtr_lim h) (idtr_base h) (gs_base h)
    (d_base (gdt_entry h m sel)) (d_limit (gdt_entry h m sel)) (r_cr3 h).
Definition lcr3 (v : Z) (h : hw) : hw :=
  mkHw (gdtr_lim h) (gdtr_base h) (idtr_lim h) (idtr_base h) (gs_base h) (tr_base h) (tr_lim h) v.

(** *** struct cpu and struct taskstate: offsets *)

Definition cpu_ts : Z := 8.
Definition cpu_gdt : Z := 112.
Definition cpu_cpu : Z := 180.
Definition cpu_proc : Z := 184.
Definition sizeof_gdt : Z := 8 * NSEGS.
Definition ts_esp0 : Z := 4.
Definition ts_ss0 : Z := 8.
Definition ts_iomb : Z := 102.
Definition sizeof_ts : Z := 104.

Definition set_gdt (c i : Z) (d : segdesc) (m : mem) : mem :=
  wrn 8 m (c + cpu_gdt + 8 * i) (segdesc_bits d).

(** seginit() of the CPU whose struct cpu is at [c]: the descriptors, and the loads. The
    assignments to [cpu] and [proc] go through %gs. *)
Definition seginit_gdt (c : Z) (m : mem) : mem :=
  let m := set_gdt c SEG_KCODE (SEG (Z.lor STA_X STA_R) 0 0xffffffff 0) m in
  let m := set_gdt c SEG_KDATA (SEG STA_W 0 0xffffffff 0) m in
  let m := set_gdt c SEG_UCODE (SEG (Z.lor STA_X STA_R) 0 0xffffffff DPL_USER) m in
  let m := set_gdt c SEG_UDATA (SEG STA_W 0 0xffffffff DPL_USER) m in
  set_gdt c SEG_KCPU (SEG STA_W (c + cpu_cpu) 8 0) m.
Definition seginit (c : Z) (h : hw) (m : mem) : hw * mem :=
  let m := seginit_gdt c m in
  let h := lgdt (c + cpu_gdt) sizeof_gdt h in
  let h := loadgs m (Z.shiftl SEG_KCPU 3) h in
  let m := wrn 4 m (gs_base h) c in
  let m := wrn 4 m (gs_base h + 4) 0 in
  (h, m).

(** What switchuvm(p) loads, once it has made its checks ([switchuvm]). *)
Definition switchuvm_load (c kstack pgdir : Z) (h : hw) (m : mem) : hw * mem :=
  let d := SEG16 STS_T32A (c + cpu_ts) (sizeof_ts - 1) 0 in
  let m := set_gdt c SEG_TSS d m in
  let m := set_gdt c SEG_TSS (sd_set_s 0 d) m in
  let m := wrn 2 m (c + cpu_ts + ts_ss0) (Z.shiftl SEG_KDATA 3) in
  let m := wrn 4 m (c + cpu_ts + ts_esp0) (u32 (kstack + KSTACKSIZE)) in
  let m := wrn 2 m (c + cpu_ts + ts_iomb) 0xFFFF in
  let h := ltr m (Z.shiftl SEG_TSS 3) h in
  (lcr3 (V2P pgdir) h, m).

Definition switchkvm (kpgdir : Z) (h : hw) : hw := lcr3 (V2P kpgdir) h.
Definition kvmalloc (kdata : Z) (h : hw) : M kst (Z * hw) :=
  kpgdir <- setupkvm kdata ;;
  ret (kpgdir, switchkvm kpgdir h).

Section Idt.
(** The table that vectors.S defines, and the address of [idt]. *)
Context (vectors : Z -> Z) (idt : Z).

Definition set_idt (i : Z) (d : gatedesc) (m : mem) : mem := wrn 8 m (idt + 8 * i) (gatedesc_bits d).

(** The loop of tvinit(). *)
Fixpoint tvinit_loop (n : nat) (i : Z) (m : mem) : mem :=
  match n with
  | O => m
  | S n' => tvinit_loop n' (i + 1) (set_idt i (SETGATE false (Z.shiftl SEG_KCODE 3) (vectors i) 0) m)
  end.
Definition tvinit (m : mem) : mem :=
  set_idt T_SYSCALL
    (SETGATE true (Z.shiftl SEG_KCODE 3) (vectors T_SYSCALL) DPL_USER)
    (tvinit_loop 256 0 m).
Definition idtinit (h : hw) : hw := lidt idt (256 * 8) h.
End Idt.

(** *** Lemmas *)

Lemma rdn_wrn_eq n m a v : rdn n (wrn n m a v) a = v mod 2 ^ (8 * Z.of_nat n).
Proof.
  unfold rdn, wrn. rewrite <- (length_le_bytes n v) at 2.
  rewrite rd_bytes_wr_bytes, le_val_le_bytes. f_equal. rewrite Z.pow_mul_r by lia. done.
Qed.

Lemma rd_wrn_ne n m a v b : ~ (a <= b < a + Z.of_nat n) -> rd (wrn n m a v) b = rd m b.
Proof. intros H. unfold wrn. by rewrite rd_wr_bytes, length_le_bytes, decide_False. Qed.

Lemma rdn_ext k m1 m2 b :
  (forall a, b <= a < b + Z.of_nat k -> rd m1 a = rd m2 a) -> rdn k m1 b = rdn k m2 b.
Proof. intros H. unfold rdn. f_equal. by apply rd_bytes_ext. Qed.

Lemma rdn_wrn_ne k n m a b v :
  b + Z.of_nat k <= a \/ a + Z.of_nat n <= b -> rdn k (wrn n m a v) b = rdn k m b.
Proof. intros H. apply rdn_ext. intros c Hc. apply rd_wrn_ne. lia. Qed.

(** The bits that a list of fields takes. *)
Definition width (l : list (Z * Z)) : Z := foldr (fun f n => f.1 + n) 0 l.

Lemma width_nonneg l : Forall (fun f => 0 <= f.1) l -> 0 <= width l.
Proof. induction 1; simpl; lia. Qed.

Lemma pack_bound l : Forall (fun f => 0 <= f.1) l -> 0 <= pack l < 2 ^ width l.
Proof.
  induction 1 as [|[w v] l Hw Hl IH]; simpl in *; [lia|].
  pose proof (width_nonneg l Hl). rewrite Z.pow_add_r by lia.
  pose proof (Z.mod_pos_bound v (2 ^ w) ltac:(lia)). nia.
Qed.

(** A field of a packed struct, at the sum of the widths before it. *)
Lemma pack_field l1 w v l2 :
  Forall (fun f => 0 <= f.1) l1 -> 0 <= w ->
  field (pack (l1 ++ (w, v) :: l2)) (width l1) w = v mod 2 ^ w.
Proof.
  intros Hl Hw. unfold field. induction Hl as [|[w' v'] l Hw' Hl IH]; simpl in *.
  - rewrite Z.div_1_r, (Z.mul_comm (2 ^ w)), Z.mod_add by lia. apply Zmod_mod.
  - pose proof (width_nonneg l Hl). rewrite Z.pow_add_r, <- Z.div_div by lia.
    rewrite (Z.mul_comm (2 ^ w')), Z.div_add, (Z.div_small (v' mod _)) by
      first [lia | apply Z.mod_pos_bound; lia].
    exact IH.
Qed.

(** Field number [k] of a packed struct. *)
Ltac field_is l k :=
  refine (pack_field (take k l) _ _ (drop (S k) l) _ _); [repeat constructor; simpl; lia | lia].

Lemma segdesc_bits_fields d :
  field (segdesc_bits d) 0 16 = sd_lim_15_0 d mod 2 ^ 16 /\
  field (segdesc_bits d) 16 16 = sd_base_15_0 d mod 2 ^ 16 /\
  field (segdesc_bits d) 32 8 = sd_base_23_16 d mod 2 ^ 8 /\
  field (segdesc_bits d) 40 4 = sd_type d mod 2 ^ 4 /\
  field (segdesc_bits d) 44 1 = sd_s d mod 2 ^ 1 /\
  field (segdesc_bits d) 45 2 = sd_dpl d mod 2 ^ 2 /\
  field (segdesc_bits d) 47 1 = sd_p d mod 2 ^ 1 /\
  field (segdesc_bits d) 48 4 = sd_lim_19_16 d mod 2 ^ 4 /\
  field (segdesc_bits d) 54 1 = sd_db d mod 2 ^ 1 /\
  field (segdesc_bits d) 55 1 = sd_g d mod 2 ^ 1 /\
  field (segdesc_bits d) 56 8 = sd_base_31_24 d mod 2 ^ 8.
Proof.
  split_and!; [field_is (segdesc_fields d) 0%nat | field_is (segdesc_fields d) 1%nat
    | field_is (segdesc_fields d) 2%nat | field_is (segdesc_fields d) 3%nat
    | field_is (segdesc_fields d) 4%nat | field_is (segdesc_fields d) 5%nat
    | field_is (segdesc_fields d) 6%nat | field_is (segdesc_fields d) 7%nat
    | field_is (segdesc_fields d) 10%nat | field_is (segdesc_fields d) 11%nat
    | field_is (segdesc_fields d) 12%nat].
Qed.

Lemma gatedesc_bits_fields d :
  field (gatedesc_bits d) 0 16 = gd_off_15_0 d mod 2 ^ 16 /\
  field (gatedesc_bits d) 16 16 = gd_cs d mod 2 ^ 16 /\
  field (gatedesc_bits d) 40 4 = gd_type d mod 2 ^ 4 /\
  field (gatedesc_bits d) 44 1 = gd_s d mod 2 ^ 1 /\
  field (gatedesc_bits d) 45 2 = gd_dpl d mod 2 ^ 2 /\
  field (gatedesc_bits d) 47 1 = gd_p d mod 2 ^ 1 /\
  field (gatedesc_bits d) 48 16 = gd_off_31_16 d mod 2 ^ 16.
Proof.
  split_and!; [field_is (gatedesc_fields d) 0%nat | field_is (gatedesc_fields d) 1%nat
    | field_is (gatedesc_fields d) 4%nat | field_is (gatedesc_fields d) 5%nat
    | field_is (gatedesc_fields d) 6%nat | field_is (gatedesc_fields d) 7%nat
    | field_is (gatedesc_fields d) 8%nat].
Qed.

(** The masks and shifts of the macros as remainders and quotients. *)
Lemma land_ffff x : Z.land x 0xffff = x mod 2 ^ 16.
Proof. change 0xffff with (Z.ones 16). by apply Z.land_ones. Qed.
Lemma land_ff x : Z.land x 0xff = x mod 2 ^ 8.
Proof. change 0xff with (Z.ones 8). by apply Z.land_ones. Qed.

(** An address taken apart and put together again. *)
Lemma split_32 x :
  0 <= x < 2 ^ 32 ->
  x mod 2 ^ 16 + 2 ^ 16 * (x / 2 ^ 16 mod 2 ^ 8) + 2 ^ 24 * (x / 2 ^ 24) = x.
Proof. intros H. Z.div_mod_to_equations. lia. Qed.

(** What a descriptor says to the processor. *)
Record seg_is (w base lim type s dpl : Z) : Prop := mkSegIs {
  si_base : d_base w = base;
  si_limit : d_limit w = lim;
  si_type : d_type w = type;
  si_s : d_s w = s;
  si_dpl : d_dpl w = dpl;
  si_p : d_p w = 1;
  si_db : d_db w = 1;
}.

(** SEG() describes a segment of whole pages. *)
Lemma SEG_is type base lim dpl :
  0 <= type < 16 -> 0 <= base < 2 ^ 32 -> 0 <= lim < 2 ^ 32 -> 0 <= dpl < 4 ->
  seg_is (segdesc_bits (SEG type base lim dpl)) base (lim / 4096 * 4096 + 4095) type 1 dpl.
Proof.
  intros Ht Hb Hl Hd.
  destruct (segdesc_bits_fields (SEG type base lim dpl))
    as (Hl0 & Hb0 & Hb1 & Hty & Hs0 & Hdpl & Hp & Hl1 & Hdb & Hg & Hb2).
  set (w := segdesc_bits _) in *. clearbody w.
  unfold SEG in *; cbn [sd_lim_15_0 sd_base_15_0 sd_base_23_16 sd_type sd_s sd_dpl sd_p sd_lim_19_16 sd_avl sd_rsv1 sd_db sd_g
    sd_base_31_24] in *.
  rewrite ?u32_below, ?land_ffff, ?land_ff, ?Z.shiftr_div_pow2, ?Zmod_mod in * by lia.
  split; unfold d_base, d_limit, d_type, d_s, d_dpl, d_p, d_db.
  - rewrite Hb0, Hb1, Hb2, (Z.mod_small (base / 2 ^ 24)) by (Z.div_mod_to_equations; lia).
    by apply split_32.
  - rewrite Hl0, Hl1, Hg. simpl. Z.div_mod_to_equations. lia.
  - rewrite Hty. apply Z.mod_small. lia.
  - rewrite Hs0. apply Z.mod_small. lia.
  - rewrite Hdpl. apply Z.mod_small. lia.
  - by rewrite Hp.
  - by rewrite Hdb.
Qed.

(** SEG16() describes a segment of up to 2^20 bytes. *)
Lemma SEG16_is type base lim s dpl :
  0 <= type < 16 -> 0 <= base < 2 ^ 32 -> 0 <= lim < 2 ^ 20 -> 0 <= s < 2 -> 0 <= dpl < 4 ->
  seg_is (segdesc_bits (sd_set_s s (SEG16 type base lim dpl))) base lim type s dpl.
Proof.
  intros Ht Hb Hl Hs Hd.
  destruct (segdesc_bits_fields (sd_set_s s (SEG16 type base lim dpl)))
    as (Hl0 & Hb0 & Hb1 & Hty & Hs0 & Hdpl & Hp & Hl1 & Hdb & Hg & Hb2).
  set (w := segdesc_bits _) in *. clearbody w.
  unfold sd_set_s, SEG16 in *; cbn [sd_lim_15_0 sd_base_15_0 sd_base_23_16 sd_type sd_s sd_dpl sd_p sd_lim_19_16 sd_avl sd_rsv1 sd_db sd_g
    sd_base_31_24] in *.
  rewrite ?u32_below, ?land_ffff, ?land_ff, ?Z.shiftr_div_pow2, ?Zmod_mod in * by lia.
  split; unfold d_base, d_limit, d_type, d_s, d_dpl, d_p, d_db.
  - rewrite Hb0, Hb1, Hb2, (Z.mod_small (base / 2 ^ 24)) by (Z.div_mod_to_equations; lia).
    by apply split_32.
  - rewrite Hl0, Hl1, Hg. simpl. Z.div_mod_to_equations. lia.
  - rewrite Hty. apply Z.mod_small. lia.
  - rewrite Hs0. apply Z.mod_small. lia.
  - rewrite Hdpl. apply Z.mod_small. lia.
  - by rewrite Hp.
  - by rewrite Hdb.
Qed.

(** What a gate says to the processor. *)
Record gate_is (w off sel type dpl : Z) : Prop := mkGateIs {
  gi_off : g_off w = off;
  gi_sel : g_sel w = sel;
  gi_type : g_type w = type;
  gi_s : g_s w = 0;
  gi_dpl : d_dpl w = dpl;
  gi_p : d_p w = 1;
}.

Lemma SETGATE_is istrap sel off dpl :
  0 <= sel < 2 ^ 16 -> 0 <= off < 2 ^ 32 -> 0 <= dpl < 4 ->
  gate_is (gatedesc_bits (SETGATE istrap sel off dpl)) off sel
    (if istrap then STS_TG32 else STS_IG32) dpl.
Proof.
  intros Hs Ho Hd.
  destruct (gatedesc_bits_fields (SETGATE istrap sel off dpl))
    as (Ho0 & Hcs & Hty & Hs0 & Hdpl & Hp & Ho1).
  set (w := gatedesc_bits _) in *. clearbody w.
  unfold SETGATE in *; cbn [gd_off_15_0 gd_cs gd_args gd_rsv1 gd_type gd_s gd_dpl gd_p gd_off_31_16] in *.
  rewrite ?u32_below, ?land_ffff, ?Z.shiftr_div_pow2, ?Zmod_mod in * by lia.
  split; unfold g_off, g_sel, g_type, g_s, d_dpl, d_p.
  - rewrite Ho0, Ho1. Z.div_mod_to_equations. lia.
  - rewrite Hcs. by apply Z.mod_small.
  - rewrite Hty. by destruct istrap.
  - by rewrite Hs0.
  - rewrite Hdpl. by apply Z.mod_small.
  - by rewrite Hp.
Qed.

Lemma pack_fits l (n : Z) : Forall (fun f => 0 <= f.1) l -> width l = n -> pack l mod 2 ^ n = pack l.
Proof. intros Hl <-. apply Z.mod_small. by apply pack_bound. Qed.

Lemma rdn_set_gdt c i d m : rdn 8 (set_gdt c i d m) (c + cpu_gdt + 8 * i) = segdesc_bits d.
Proof. unfold set_gdt. rewrite rdn_wrn_eq. apply pack_fits; [|done]. repeat constructor; simpl; lia. Qed.

Lemma rdn_set_gdt_ne n c i d m a :
  a + Z.of_nat n <= c + cpu_gdt + 8 * i \/ c + cpu_gdt + 8 * i + 8 <= a ->
  rdn n (set_gdt c i d m) a = rdn n m a.
Proof. intros H. unfold set_gdt. apply rdn_wrn_ne. lia. Qed.

Section Idt.
Context (vectors : Z -> Z) (idt : Z).

Lemma rdn_set_idt i d m : rdn 8 (set_idt idt i d m) (idt + 8 * i) = gatedesc_bits d.
Proof. unfold set_idt. rewrite rdn_wrn_eq. apply pack_fits; [|done]. repeat constructor; simpl; lia. Qed.

Lemma rdn_set_idt_ne i j d m : i <> j -> rdn 8 (set_idt idt i d m) (idt + 8 * j) = rdn 8 m (idt + 8 * j).
Proof. intros H. unfold set_idt. apply rdn_wrn_ne. lia. Qed.

Lemma rdn_tvinit_loop n i m j :
  rdn 8 (tvinit_loop vectors idt n i m) (idt + 8 * j) =
    if decide (i <= j < i + Z.of_nat n)
    then gatedesc_bits (SETGATE false (Z.shiftl SEG_KCODE 3) (vectors j) 0)
    else rdn 8 m (idt + 8 * j).
Proof.
  revert i m. induction n as [|n IH]; intros i m; cbn [tvinit_loop].
  - rewrite decide_False; [done|lia].
  - rewrite IH. destruct (decide (i = j)) as [->|Hne].
    + rewrite decide_False, decide_True by lia. apply rdn_set_idt.
    + rewrite rdn_set_idt_ne by done. repeat case_decide; done || lia.
Qed.

(** The gate of interrupt [j] after tvinit(). *)
Lemma tvinit_gate m j :
  0 <= j < 256 -> 0 <= vectors j < 2 ^ 32 ->
  gate_is (rdn 8 (tvinit vectors idt m) (idt + 8 * j)) (vectors j) (Z.shiftl SEG_KCODE 3)
    (if j =? T_SYSCALL then STS_TG32 else STS_IG32) (if j =? T_SYSCALL then DPL_USER else 0).
Proof.
  intros Hj Hv. unfold tvinit. destruct (Z.eqb_spec j T_SYSCALL) as [->|Hne].
  - rewrite rdn_set_idt. by apply (SETGATE_is true).
  - rewrite rdn_set_idt_ne, rdn_tvinit_loop, decide_True by lia. by apply (SETGATE_is false).
Qed.
End Idt.

(** *** The tables in force *)

Definition sel_kcode : Z := Z.shiftl SEG_KCODE 3.
Definition sel_kdata : Z := Z.shiftl SEG_KDATA 3.
Definition sel_kcpu : Z := Z.shiftl SEG_KCPU 3.
Definition sel_ucode : Z := Z.lor (Z.shiftl SEG_UCODE 3) DPL_USER.
Definition sel_udata : Z := Z.lor (Z.shiftl SEG_UDATA 3) DPL_USER.

(** The segments of the CPU at [c]: the kernel and the user have all of memory, and %gs has
    the variables of the CPU. *)
Record segs_set (c : Z) (h : hw) (m : mem) : Prop := mkSegsSet {
  ss_base : gdtr_base h = c + cpu_gdt;
  ss_lim : gdtr_lim h = sizeof_gdt - 1;
  ss_kcode : seg_is (gdt_entry h m sel_kcode) 0 (2 ^ 32 - 1) (Z.lor STA_X STA_R) 1 0;
  ss_kdata : seg_is (gdt_entry h m sel_kdata) 0 (2 ^ 32 - 1) STA_W 1 0;
  ss_kcpu : seg_is (gdt_entry h m sel_kcpu) (c + cpu_cpu) 4095 STA_W 1 0;
  ss_ucode : seg_is (gdt_entry h m sel_ucode) 0 (2 ^ 32 - 1) (Z.lor STA_X STA_R) 1 DPL_USER;
  ss_udata : seg_is (gdt_entry h m sel_udata) 0 (2 ^ 32 - 1) STA_W 1 DPL_USER;
  ss_gs : gs_base h = c + cpu_cpu;
}.

(** The task state: where the processor finds the kernel stack. *)
Record task_set (c kstack : Z) (h : hw) (m : mem) : Prop := mkTaskSet {
  ts_base : tr_base h = c + cpu_ts;
  ts_lim : tr_lim h = sizeof_ts - 1;
  ts_esp : rdn 4 m (tr_base h + ts_esp0) = kstack + KSTACKSIZE;
  ts_ss : rdn 2 m (tr_base h + ts_ss0) = sel_kdata;
  ts_io : tr_lim h < rdn 2 m (tr_base h + ts_iomb);
}.

Lemma pseudo_desc_base p size : 0 <= p < 2 ^ 32 -> pd_base (pseudo_desc p size) = p.
Proof.
  intros H. unfold pd_base, pseudo_desc, u16. simpl. rewrite u32_below, Z.shiftr_div_pow2 by lia.
  Z.div_mod_to_equations. lia.
Qed.

Ltac offsets :=
  cbv [cpu_gdt cpu_ts cpu_cpu ts_esp0 ts_ss0 ts_iomb sizeof_gdt sizeof_ts NSEGS SEG_KCODE SEG_KDATA
       SEG_KCPU SEG_UCODE SEG_UDATA SEG_TSS STA_X STA_W STA_R STS_T32A DPL_USER KSTACKSIZE] in *.

(** Read through the stores to other places. *)
Ltac stores :=
  repeat first
    [ rewrite rdn_set_gdt
    | rewrite rdn_set_gdt_ne by (offsets; lia)
    | rewrite rdn_wrn_eq
    | rewrite (rdn_wrn_ne 8 4) by (offsets; lia)
    | rewrite rdn_wrn_ne by (offsets; lia) ].

(** The entry that a selector names, by its number. *)
Lemma gdt_entry_at c h m sel i :
  gdtr_base h = c + cpu_gdt -> sel / 8 = i -> gdt_entry h m sel = rdn 8 m (c + cpu_gdt + 8 * i).
Proof. intros Hb <-. unfold gdt_entry. by rewrite Hb. Qed.

Lemma gdt_entry_hw h1 h2 m sel : gdtr_base h1 = gdtr_base h2 -> gdt_entry h1 m sel = gdt_entry h2 m sel.
Proof. unfold gdt_entry. by intros ->. Qed.

Lemma seginit_eq c h m :
  0 <= c -> c + 188 <= 2 ^ 32 ->
  let m1 := wrn 4 (wrn 4 (seginit_gdt c m) (c + cpu_cpu) c) (c + cpu_cpu + 4) 0 in
  seginit c h m = ((seginit c h m).1, m1) /\
  gdtr_base (seginit c h m).1 = c + cpu_gdt /\ gs_base (seginit c h m).1 = c + cpu_cpu.
Proof.
  intros H0 Hc.
  assert (Hb : pd_base (pseudo_desc (c + cpu_gdt) sizeof_gdt) = c + cpu_gdt)
    by (apply pseudo_desc_base; offsets; lia).
  assert (Hg : d_base (gdt_entry (lgdt (c + cpu_gdt) sizeof_gdt h) (seginit_gdt c m)
                 (Z.shiftl SEG_KCPU 3)) = c + cpu_cpu).
  { rewrite (gdt_entry_at c _ _ _ SEG_KCPU) by done. unfold seginit_gdt. rewrite rdn_set_gdt.
    apply SEG_is; offsets; lia. }
  unfold seginit, loadgs. cbn [fst gs_base gdtr_base]. rewrite Hg. done.
Qed.

Lemma seginit_gdt_set c h m m' :
  0 <= c -> c + 188 <= 2 ^ 32 -> gdtr_base h = c + cpu_gdt -> gdtr_lim h = sizeof_gdt - 1 ->
  gs_base h = c + cpu_cpu ->
  (forall i, 1 <= i <= 5 -> rdn 8 m' (c + cpu_gdt + 8 * i) = rdn 8 (seginit_gdt c m) (c + cpu_gdt + 8 * i)) ->
  segs_set c h m'.
Proof.
  intros H0 Hc Hb Hl Hg Hm. split; try done.
  - rewrite (gdt_entry_at c _ _ _ SEG_KCODE), Hm by done. unfold seginit_gdt. stores.
    by apply SEG_is.
  - rewrite (gdt_entry_at c _ _ _ SEG_KDATA), Hm by done. unfold seginit_gdt. stores.
    by apply SEG_is.
  - rewrite (gdt_entry_at c _ _ _ SEG_KCPU), Hm by done. unfold seginit_gdt. stores.
    apply SEG_is; offsets; lia.
  - rewrite (gdt_entry_at c _ _ _ SEG_UCODE), Hm by done. unfold seginit_gdt. stores.
    by apply SEG_is.
  - rewrite (gdt_entry_at c _ _ _ SEG_UDATA), Hm by done. unfold seginit_gdt. stores.
    by apply SEG_is.
Qed.

(** After seginit(): the segments are set, and [cpu] and [proc] are the fields of this CPU. *)
Lemma seginit_sets c h m h' m' :
  0 <= c -> c + 188 <= 2 ^ 32 -> seginit c h m = (h', m') ->
  segs_set c h' m' /\ rdn 4 m' (c + cpu_cpu) = c /\ rdn 4 m' (c + cpu_proc) = 0.
Proof.
  intros H0 Hc He. destruct (seginit_eq c h m H0 Hc) as (Heq & Hb & Hg).
  assert (Hl : gdtr_lim (seginit c h m).1 = sizeof_gdt - 1) by done.
  rewrite Heq in He. simplify_eq/=. split_and!.
  - apply (seginit_gdt_set _ _ m); try done. intros i Hi. by stores.
  - stores. apply Z.mod_small. simpl. lia.
  - replace (c + cpu_proc) with (c + cpu_cpu + 4) by (offsets; unfold cpu_proc; lia). by stores.
Qed.

(** After switchuvm(): the task state is that of the process, the segments are as before. *)
Lemma switchuvm_sets c kstack pgdir h m h' m' :
  0 <= c -> c + 188 <= 2 ^ 32 -> 0 <= kstack -> kstack + KSTACKSIZE < 2 ^ 32 ->
  segs_set c h m -> switchuvm_load c kstack pgdir h m = (h', m') ->
  task_set c kstack h' m' /\ segs_set c h' m' /\ r_cr3 h' = V2P pgdir.
Proof.
  intros H0 Hc Hk0 Hk Hs He. unfold switchuvm_load, lcr3, ltr in He.
  cbv zeta in He.
  destruct Hs as [Hb Hl H1 H2 H3 H4 H5 Hg].
  set (m1 := wrn 2 _ (c + cpu_ts + ts_iomb) _) in He.
  cbn [gdtr_lim gdtr_base idtr_lim idtr_base gs_base tr_base tr_lim] in He.
  assert (Ht : seg_is (gdt_entry h m1 (Z.shiftl SEG_TSS 3)) (c + cpu_ts) (sizeof_ts - 1) STS_T32A 0 0).
  { rewrite (gdt_entry_at c _ _ _ SEG_TSS) by done. subst m1. stores.
    apply SEG16_is; offsets; lia. }
  destruct Ht as [Ht1 Ht2 _ _ _ _ _].
  assert (Hm : forall sel, 1 <= sel / 8 <= 5 -> gdt_entry h m1 sel = gdt_entry h m sel).
  { intros sel Hsel. rewrite !(gdt_entry_at c _ _ _ (sel / 8)) by done. subst m1. by stores. }
  rewrite Ht1, Ht2 in He. injection He as <- <-.
  split_and!; [split|split|done]; cbn [gdtr_base gdtr_lim gs_base tr_base tr_lim]; try done;
    try (rewrite (gdt_entry_hw _ h), Hm by done; done); subst m1; stores; [|done|done].
  rewrite u32_below by (offsets; lia). apply Z.mod_small. offsets. lia.
Qed.

Lemma tvinit_frame vectors idt m b : b < idt \/ idt + 2048 <= b -> rd (tvinit vectors idt m) b = rd m b.
Proof.
  intros Hb. unfold tvinit, set_idt. rewrite rd_wrn_ne by (unfold T_SYSCALL; lia).
  enough (H : forall n i m, 0 <= i -> i + Z.of_nat n <= 256 -> rd (tvinit_loop vectors idt n i m) b = rd m b)
    by (apply H; lia).
  induction n as [|n IH]; intros i m' Hi Hn; [done|]. cbn [tvinit_loop].
  rewrite IH by lia. unfold set_idt. apply rd_wrn_ne. lia.
Qed.

Lemma switchuvm_frame c kstack pgdir h m b :
  b < c + cpu_ts \/ c + cpu_gdt + sizeof_gdt <= b -> rd (switchuvm_load c kstack pgdir h m).2 b = rd m b.
Proof.
  intros Hb. unfold switchuvm_load, set_gdt. cbn [snd].
  rewrite !rd_wrn_ne by (offsets; lia). done.
Qed.

(** The segments depend on the descriptors only. *)
Lemma segs_set_ext c h h' m m' :
  segs_set c h m -> gdtr_base h' = gdtr_base h -> gdtr_lim h' = gdtr_lim h -> gs_base h' = gs_base h ->
  (forall b, c <= b < c + 188 -> rd m' b = rd m b) -> segs_set c h' m'.
Proof.
  intros [Hb Hl H1 H2 H3 H4 H5 Hg] Hb' Hl' Hg' Hm.
  assert (He : forall sel, 1 <= sel / 8 <= 5 -> gdt_entry h' m' sel = gdt_entry h m sel).
  { intros sel Hs. rewrite (gdt_entry_hw h' h) by done.
    rewrite !(gdt_entry_at c _ _ _ (sel / 8)) by done. apply rdn_ext. intros b Hbb.
    apply Hm. offsets. lia. }
  split; rewrite ?He by done; congruence.
Qed.

(** All the tables that a trap needs. *)
Record ready (vectors : Z -> Z) (c kstack : Z) (h : hw) (m : mem) : Prop := mkReady {
  ry_segs : segs_set c h m;
  ry_task : task_set c kstack h m;
  ry_lim : idtr_lim h = 256 * 8 - 1;
  ry_idt : forall j, 0 <= j < 256 ->
    gate_is (rdn 8 m (idtr_base h + 8 * j)) (vectors j) sel_kcode
      (if j =? T_SYSCALL then STS_TG32 else STS_IG32) (if j =? T_SYSCALL then DPL_USER else 0);
}.

Lemma ready_ext vectors c kstack h m m' :
  (forall b, c <= b < c + 188 \/ idtr_base h <= b < idtr_base h + 2048 -> rd m' b = rd m b) ->
  ready vectors c kstack h m -> ready vectors c kstack h m'.
Proof.
  intros Hm [Hs [T1 T2 T3 T4 T5] Hl Hi]. split; [|split|done|].
  - apply (segs_set_ext c h _ m); auto.
  - done.
  - done.
  - rewrite <- T3. apply rdn_ext. intros b Hb. apply Hm. left. rewrite T1 in Hb. offsets. lia.
  - rewrite <- T4. apply rdn_ext. intros b Hb. apply Hm. left. rewrite T1 in Hb. offsets. lia.
  - erewrite rdn_ext; [exact T5|]. intros b Hb. apply Hm. left. rewrite T1 in Hb. offsets. lia.
  - intros j Hj. erewrite rdn_ext; [by apply Hi|]. intros b Hb. apply Hm. right. lia.
Qed.

(** Memory and registers after the set-up, in the order of main() and scheduler(). *)
Definition setup (vectors : Z -> Z) (idt c kstack pgdir : Z) (h0 : hw) (m0 : mem) : hw * mem :=
  let (h1, m1) := seginit c h0 m0 in
  switchuvm_load c kstack pgdir (idtinit idt h1) (tvinit vectors idt m1).

Lemma setup_sets vectors idt c kstack pgdir h0 m0 :
  0 <= c -> c + 188 <= 2 ^ 32 -> 0 <= idt -> idt + 2048 <= 2 ^ 32 ->
  c + 188 <= idt \/ idt + 2048 <= c ->
  0 <= kstack -> kstack + KSTACKSIZE < 2 ^ 32 ->
  (forall j, 0 <= j < 256 -> 0 <= vectors j < 2 ^ 32) ->
  let (h, m) := setup vectors idt c kstack pgdir h0 m0 in
  ready vectors c kstack h m /\ gs_base h = c + cpu_cpu /\
  rdn 4 m (c + cpu_cpu) = c /\ r_cr3 h = V2P pgdir /\ idtr_base h = idt.
Proof.
  intros H0 Hc Hi0 Hi Hd Hk0 Hk Hv. unfold setup. destruct (seginit c h0 m0) as [h1 m1] eqn:E1.
  destruct (seginit_sets _ _ _ _ _ H0 Hc E1) as (Hs1 & Hcpu & _).
  destruct (switchuvm_load _ _ _ _ _) as [h2 m2] eqn:E2.
  assert (Hs2 : segs_set c (idtinit idt h1) (tvinit vectors idt m1)).
  { apply (segs_set_ext _ h1 _ m1); [done..|]. intros b Hb. apply tvinit_frame. lia. }
  destruct (switchuvm_sets _ _ _ _ _ _ _ H0 Hc Hk0 Hk Hs2 E2) as (Ht & Hs3 & Hcr).
  assert (Hh : idtr_base h2 = idt /\ idtr_lim h2 = 2047 /\ gs_base h2 = c + cpu_cpu).
  { assert (Eh : h2 = (switchuvm_load c kstack pgdir (idtinit idt h1) (tvinit vectors idt m1)).1)
      by (by rewrite E2).
    rewrite Eh. split_and!; [apply pseudo_desc_base; lia|done|apply Hs1]. }
  assert (Hm : forall b, b < c + cpu_ts \/ c + cpu_gdt + sizeof_gdt <= b ->
            rd m2 b = rd (tvinit vectors idt m1) b).
  { intros b Hb.
    rewrite <- (switchuvm_frame c kstack pgdir (idtinit idt h1) (tvinit vectors idt m1)) by done.
    by rewrite E2. }
  destruct Hh as (Hib & Hil & Hgs). split_and!; [split; [done|done|done|]|done|..|done|done].
  - intros j Hj. rewrite Hib. pose proof (tvinit_gate vectors idt m1 j Hj (Hv j Hj)) as Hg.
    erewrite rdn_ext; [exact Hg|]. intros b Hb. apply Hm. offsets. lia.
  - rewrite <- Hcpu at 2. apply rdn_ext. intros b Hb. offsets.
    rewrite Hm by (offsets; lia). apply tvinit_frame. lia.
Qed.

(** C16. Setting up the processor: seginit(), tvinit(), idtinit() and switchuvm(). Whatever was in
    memory, the processor then reads flat kernel and user segments with the right privileges,
    %gs covers the CPU's own variables and [cpu] reads back the struct of this CPU, the task
    state has the top of the process's kernel stack, and the gate of every interrupt leads to
    its vector in the kernel's code segment; only the gate of the system call is a trap gate
    that user code may call. *)
Theorem tables_ready vectors idt c kstack pgdir h0 m0 :
  0 <= c -> c + 188 <= 2 ^ 32 -> 0 <= idt -> idt + 2048 <= 2 ^ 32 ->
  c + 188 <= idt \/ idt + 2048 <= c ->
  0 <= kstack -> kstack + KSTACKSIZE < 2 ^ 32 ->
  (forall j, 0 <= j < 256 -> 0 <= vectors j < 2 ^ 32) ->
  let (h, m) := setup vectors idt c kstack pgdir h0 m0 in
  ready vectors c kstack h m /\ rdn 4 m (gs_base h) = c /\ r_cr3 h = V2P pgdir.
Proof.
  intros H0 Hc Hi0 Hi Hd Hk0 Hk Hv.
  pose proof (setup_sets vectors idt c kstack pgdir h0 m0 H0 Hc Hi0 Hi Hd Hk0 Hk Hv) as Hs.
  destruct (setup _ _ _ _ _ _ _) as [h m]. destruct Hs as (Hr & -> & Hcpu & Hcr & _). done.
Qed.

Lemma tables_ready_witness :
  let (h, m) := setup (fun j => 0x80105a00 + 8 * j) 0x80114ca0 0x80112800 0x8dfff000 0x8dffe000
                  (mkHw 0 0 0 0 0 0 0 0) ∅ in
  ready (fun j => 0x80105a00 + 8 * j) 0x80112800 0x8dfff000 h m /\
  rdn 4 m (gs_base h) = 0x80112800 /\ r_cr3 h = V2P 0x8dffe000.
Proof.
  apply (tables_ready (fun j => 0x80105a00 + 8 * j) 0x80114ca0 0x80112800 0x8dfff000 0x8dffe000
           (mkHw 0 0 0 0 0 0 0 0) ∅); try (offsets; lia).
Defined.
