(* ===== verification/Asm.v ===== *)
(** The assembly of the kernel: swtch.S, vectors.S, trapasm.S, usys.S and initcode.S, and the
    part of the 386 that they use.

    The memory of the machine is the virtual memory of the current address space; the kernel's
    part of it is the same in every address space. The tables that the processor uses are those
    of Segs.v. The assembler and the linker choose where code is: the instruction at an address,
    the length of an instruction and the addresses of the labels are parameters. A load of a bad
    selector, which faults, is outside the model. *)

From S2P Require Export Segs.

Open Scope Z_scope.

(** *** The machine *)

Inductive reg : Type := EAX | ECX | EDX | EBX | ESP | EBP | ESI | EDI.
Inductive seg : Type := CS | SS | DS | ES | FS | GS.

Record regs := mkRegs {
  r_eax : Z; r_ecx : Z; r_edx : Z; r_ebx : Z; r_esp : Z; r_ebp : Z; r_esi : Z; r_edi : Z;
}.
Record segs := mkSegs { s_cs : Z; s_ss : Z; s_ds : Z; s_es : Z; s_fs : Z; s_gs : Z }.

Definition rget (r : reg) (x : regs) : Z :=
  match r with
  | EAX => r_eax x | ECX => r_ecx x | EDX => r_edx x | EBX => r_ebx x
  | ESP => r_esp x | EBP => r_ebp x | ESI => r_esi x | EDI => r_edi x
  end.
Definition rset (r : reg) (v : Z) (x : regs) : regs :=
  let 'mkRegs a c d b sp bp si di := x in
  match r with
  | EAX => mkRegs v c d b sp bp si di
  | ECX => mkRegs a v d b sp bp si di
  | EDX => mkRegs a c v b sp bp si di
  | EBX => mkRegs a c d v sp bp si di
  | ESP => mkRegs a c d b v bp si di
  | EBP => mkRegs a c d b sp v si di
  | ESI => mkRegs a c d b sp bp v di
  | EDI => mkRegs a c d b sp bp si v
  end.
Definition sget (r : seg) (x : segs) : Z :=
  match r with
  | CS => s_cs x | SS => s_ss x | DS => s_ds x | ES => s_es x | FS => s_fs x | GS => s_gs x
  end.
Definition sset (r : seg) (v : Z) (x : segs) : segs :=
  let 'mkSegs cs ss ds es fs gs := x in
  match r with
  | CS => mkSegs v ss ds es fs gs
  | SS => mkSegs cs v ds es fs gs
  | DS => mkSegs cs ss v es fs gs
  | ES => mkSegs cs ss ds v fs gs
  | FS => mkSegs cs ss ds es v gs
  | GS => mkSegs cs ss ds es fs v
  end.

Record mach := mkMach {
  m_regs : regs;
  m_segs : segs;
  m_pc : Z;
  m_flags : Z;
  m_mem : mem;
}.

Definition m_reg (s : mach) (r : reg) : Z := rget r (m_regs s).
Definition m_seg (s : mach) (r : seg) : Z := sget r (m_segs s).
Definition set_reg (r : reg) (v : Z) (s : mach) : mach :=
  mkMach (rset r v (m_regs s)) (m_segs s) (m_pc s) (m_flags s) (m_mem s).
Definition set_seg (r : seg) (v : Z) (s : mach) : mach :=
  mkMach (m_regs s) (sset r v (m_segs s)) (m_pc s) (m_flags s) (m_mem s).
Definition set_pc (v : Z) (s : mach) : mach := mkMach (m_regs s) (m_segs s) v (m_flags s) (m_mem s).
Definition set_flags (v : Z) (s : mach) : mach := mkMach (m_regs s) (m_segs s) (m_pc s) v (m_mem s).
Definition set_mmem (v : mem) (s : mach) : mach := mkMach (m_regs s) (m_segs s) (m_pc s) (m_flags s) v.

Inductive instr : Type :=
| Mov (src dst : reg)
| MovImm (v : Z) (dst : reg)
| Load (off : Z) (base dst : reg)
| Store (src base : reg)
| MovAx (v : Z)                       (* movw $v, %ax *)
| MovSeg (dst : seg)                  (* movw %ax, %dst *)
| Push (r : reg)
| PushImm (v : Z)
| PushSeg (r : seg)
| Pop (r : reg)
| PopSeg (r : seg)
| Pushal
| Popal
| AddEsp (v : Z)
| Jmp (a : Z)
| CallTo (a : Z)
| Int (n : Z)
| RetNear
| Iret.

Definition esp (s : mach) : Z := m_reg s ESP.

(** A push of [n] bytes of [v] into a slot of four: of a segment register only two are
    certain. *)
Definition push_n (n : nat) (v : Z) (s : mach) : mach :=
  let a := u32 (esp s - 4) in
  set_mmem (wrn n (m_mem s) a v) (set_reg ESP a s).
Definition push (v : Z) (s : mach) : mach := push_n 4 v s.

Definition top (n : nat) (s : mach) : Z := rdn n (m_mem s) (esp s).
Definition drop_esp (v : Z) (s : mach) : mach := set_reg ESP (u32 (esp s + v)) s.

(** The current privilege level, and the privilege level of a selector. *)
Definition rpl (sel : Z) : Z := Z.land sel 3.

Definition pushal (s : mach) : mach :=
  push (m_reg s EDI) (push (m_reg s ESI) (push (m_reg s EBP) (push (esp s) (push (m_reg s EBX)
    (push (m_reg s EDX) (push (m_reg s ECX) (push (m_reg s EAX) s))))))).

Definition pop (r : reg) (s : mach) : mach :=
  let v := top 4 s in set_reg r v (drop_esp 4 s).
Definition pop_seg (r : seg) (s : mach) : mach :=
  let v := top 2 s in set_seg r v (drop_esp 4 s).
Definition popal (s : mach) : mach :=
  pop EAX (pop ECX (pop EDX (pop EBX (drop_esp 4 (pop EBP (pop ESI (pop EDI s))))))).

(** The flags that a gate clears: TF, NT, RF and VM; an interrupt gate IF as well. *)
Definition gate_flags (type fl : Z) : Z :=
  Z.ldiff fl (if type =? STS_IG32 then Z.lor 0x34100 FL_IF else 0x34100).

Section Machine.
(** The tables in force, the length and the place of the instructions, and the flags after an
    addition. *)
Context (h : hw) (ilen : instr -> Z) (prog : Z -> option instr) (add_flags : Z -> Z -> Z).

Definition cpl (s : mach) : Z := rpl (m_seg s CS).

(** An interrupt or exception through gate [n], which returns to [pc]. Where the code segment
    of the gate has more privilege the processor takes that level's stack from the task state
    and saves the old one there. Some exceptions push an error code [err]. A gate that is
    missing or not of 32 bits is outside the model. *)
Definition interrupt (n : Z) (err : option Z) (pc : Z) (s : mach) : option mach :=
  let g := rdn 8 (m_mem s) (idtr_base h + 8 * n) in
  let level := d_dpl (gdt_entry h (m_mem s) (g_sel g)) in
  if (idtr_lim h <? 8 * n + 7) || negb (d_p g =? 1) || negb (g_s g =? 0)
     || negb ((g_type g =? STS_IG32) || (g_type g =? STS_TG32)) then None else
  let s1 := if level <? cpl s then
              let sp := rdn 4 (m_mem s) (tr_base h + ts_esp0 + 8 * level) in
              let ss := rdn 2 (m_mem s) (tr_base h + ts_ss0 + 8 * level) in
              push (esp s) (push_n 2 (m_seg s SS) (set_seg SS ss (set_reg ESP sp s)))
            else s in
  let s2 := push pc (push_n 2 (m_seg s CS) (push (m_flags s) s1)) in
  let s3 := match err with Some e => push e s2 | None => s2 end in
  Some (set_pc (g_off g) (set_flags (gate_flags (g_type g) (m_flags s))
    (set_seg CS (g_sel g / 4 * 4 + Z.min level (cpl s)) s3))).

(** The instruction [int n]: a gate that needs more privilege is a general protection fault,
    whose error code names the gate. *)
Definition T_GPFLT : Z := 13.
Definition int_n (n : Z) (next : Z) (s : mach) : option mach :=
  if d_dpl (rdn 8 (m_mem s) (idtr_base h + 8 * n)) <? cpl s
  then interrupt T_GPFLT (Some (8 * n + 2)) (m_pc s) s
  else interrupt n None next s.

(** On a return to user mode, a data segment register that user code may not use is cleared. *)
Definition user_seg (m : mem) (v : Z) : Z :=
  if (4 <=? v) && (d_dpl (gdt_entry h m v) <? 3) then 0 else v.

(** [iret]; to an outer level it pops the stack pointer too. *)
Definition iret (s : mach) : mach :=
  let sp := esp s in
  let m := m_mem s in
  let cs := rdn 2 m (u32 (sp + 4)) in
  let s1 := set_pc (rdn 4 m sp) (set_flags (rdn 4 m (u32 (sp + 8))) (set_seg CS cs s)) in
  if cpl s <? rpl cs then
    let f r := user_seg m (m_seg s r) in
    set_reg ESP (rdn 4 m (u32 (sp + 12))) (set_seg SS (rdn 2 m (u32 (sp + 16)))
      (set_seg DS (f DS) (set_seg ES (f ES) (set_seg FS (f FS) (set_seg GS (f GS) s1)))))
  else set_reg ESP (u32 (sp + 12)) s1.

(** The instruction at [m_pc s]. *)
Definition exec_instr (i : instr) (s : mach) : option mach :=
  let next := m_pc s + ilen i in
  match i with
  | Mov src dst => Some (set_pc next (set_reg dst (m_reg s src) s))
  | MovImm v dst => Some (set_pc next (set_reg dst v s))
  | Load off base dst =>
      Some (set_pc next (set_reg dst (rdn 4 (m_mem s) (u32 (m_reg s base + off))) s))
  | Store src base =>
      Some (set_pc next (set_mmem (wrn 4 (m_mem s) (m_reg s base) (m_reg s src)) s))
  | MovAx v => Some (set_pc next (set_reg EAX (m_reg s EAX / 2 ^ 16 * 2 ^ 16 + u16 v) s))
  | MovSeg dst => Some (set_pc next (set_seg dst (u16 (m_reg s EAX)) s))
  | Push r => Some (set_pc next (push (m_reg s r) s))
  | PushImm v => Some (set_pc next (push v s))
  | PushSeg r => Some (set_pc next (push_n 2 (m_seg s r) s))
  | Pop r => Some (set_pc next (pop r s))
  | PopSeg r => Some (set_pc next (pop_seg r s))
  | Pushal => Some (set_pc next (pushal s))
  | Popal => Some (set_pc next (popal s))
  | AddEsp v => Some (set_pc next (set_flags (add_flags (esp s) v) (drop_esp v s)))
  | Jmp a => Some (set_pc a s)
  | CallTo a => Some (set_pc a (push next s))
  | Int n => int_n n next s
  | RetNear => Some (set_pc (top 4 s) (drop_esp 4 s))
  | Iret => Some (iret s)
  end.

Definition mstep (s : mach) : option mach :=
  match prog (m_pc s) with Some i => exec_instr i s | None => None end.
Fixpoint msteps (n : nat) (s : mach) : option mach :=
  match n with
  | O => Some s
  | S n' => match mstep s with Some s' => msteps n' s' | None => None end
  end.

(** The code is at the address. *)
Fixpoint code_at (a : Z) (l : list instr) : Prop :=
  match l with
  | [] => True
  | i :: l' => prog a = Some i /\ code_at (a + ilen i) l'
  end.
Fixpoint code_end (a : Z) (l : list instr) : Z :=
  match l with [] => a | i :: l' => code_end (a + ilen i) l' end.
End Machine.

(** *** The code *)

(** swtch.S *)
Definition swtch_code : list instr :=
  [Load 4 ESP EAX; Load 8 ESP EDX;
   Push EBP; Push EBX; Push ESI; Push EDI;
   Store ESP EAX; Mov EDX ESP;
   Pop EDI; Pop ESI; Pop EBX; Pop EBP;
   RetNear].

(** The exceptions for which the processor pushes an error code. *)
Definition has_err (n : Z) : bool :=
  (n =? 8) || ((10 <=? n) && (n <=? 14)) || (n =? 17).

(** vectors.S, which vectors.pl writes: the code of vector [n]. *)
Definition vector_code (alltraps n : Z) : list instr :=
  (if has_err n then [] else [PushImm 0]) ++ [PushImm n; Jmp alltraps].

(** trapasm.S: the call of trap() is at the end of the first part. *)
Definition alltraps_code (trap_addr : Z) : list instr :=
  [PushSeg DS; PushSeg ES; PushSeg FS; PushSeg GS; Pushal;
   MovAx (Z.shiftl SEG_KDATA 3); MovSeg DS; MovSeg ES;
   MovAx (Z.shiftl SEG_KCPU 3); MovSeg FS; MovSeg GS;
   Push ESP; CallTo trap_addr].
Definition trapret_code : list instr :=
  [Popal; PopSeg GS; PopSeg FS; PopSeg ES; PopSeg DS; AddEsp 8; Iret].
(** The call, and what follows it. *)
Definition trap_return_code : list instr := AddEsp 4 :: trapret_code.

(** usys.S: the stub of system call [num]. *)
Definition usys_code (num : Z) : list instr := [MovImm num EAX; Int T_SYSCALL; RetNear].

(** initcode.S: the code at [start], with the addresses of its labels. *)
Definition initcode (argv init exit : Z) : list instr :=
  [PushImm argv; PushImm init; PushImm 0; MovImm SYS_exec EAX; Int T_SYSCALL;
   MovImm SYS_exit EAX; Int T_SYSCALL; Jmp exit].

(** ** Context switches, traps and system calls at the level of the instructions: swtch() saves
    and restores contexts, and a trap saves the interrupted state in the trap frame that
    trap() and the rest of the kernel read, and restores it from there. *)

(** *** Running straight-line code *)

(** Instructions after which the next one runs. *)
Definition straight (i : instr) : bool :=
  match i with Jmp _ | CallTo _ | Int _ | RetNear | Iret => false | _ => true end.

Section Run.
Context (h : hw) (ilen : instr -> Z) (prog : Z -> option instr) (add_flags : Z -> Z -> Z).
Local Abbreviation exec := (exec_instr h ilen add_flags).
Local Abbreviation steps := (msteps h ilen prog add_flags).
Local Abbreviation code := (code_at ilen prog).

Fixpoint exec_list (l : list instr) (s : mach) : option mach :=
  match l with
  | [] => Some s
  | i :: l' => match exec i s with Some s' => exec_list l' s' | None => None end
  end.

Lemma straight_pc i s :
  straight i = true -> exists s', exec i s = Some s' /\ m_pc s' = m_pc s + ilen i.
Proof. destruct i; try done; intros _; eexists; (split; [reflexivity|done]). Qed.

Lemma code_app a l1 l2 : code a (l1 ++ l2) <-> code a l1 /\ code (code_end ilen a l1) l2.
Proof using Type.
  clear add_flags h. revert a. induction l1 as [|i l1 IH]; intros a; simpl; [tauto|].
  rewrite IH. tauto.
Qed.

(** A block runs to its end, where the last instruction may go elsewhere. *)
Lemma steps_block l i s :
  forallb straight l = true -> code (m_pc s) (l ++ [i]) ->
  steps (length (l ++ [i])) s = exec_list (l ++ [i]) s.
Proof.
  revert s. induction l as [|j l IH]; intros s Hl; cbn [app length msteps exec_list code_at]; unfold mstep.
  - intros [-> _]. by destruct (exec i s).
  - simpl in Hl. apply andb_prop in Hl as [Hj Hl]. intros [-> Hc].
    destruct (straight_pc j s Hj) as (s' & -> & Hpc). apply IH; [done|]. by rewrite Hpc.
Qed.

Lemma steps_app n1 n2 s s' : steps n1 s = Some s' -> steps (n1 + n2) s = steps n2 s'.
Proof.
  revert s. induction n1 as [|n1 IH]; intros s; simpl; [by intros [= ->]|].
  destruct (mstep h ilen prog add_flags s); [apply IH|done].
Qed.
End Run.

(** *** Addresses *)

(** Remove the wrap-around of addresses that do not wrap around. *)
Ltac nowrap :=
  repeat match goal with
  | |- context [u32 ?e] =>
      lazymatch e with context [u32 _] => fail | _ => rewrite (u32_below e) by lia end
  end.

(** Compute what the machine does. *)
Ltac machine :=
  cbv beta iota zeta delta
    [exec_list exec_instr take app swtch_code trapret_code trap_return_code alltraps_code
     m_reg m_seg m_regs m_segs m_pc m_flags m_mem set_reg set_seg set_pc set_flags set_mmem
     rget rset sget sset r_eax r_ecx r_edx r_ebx r_esp r_ebp r_esi r_edi s_cs s_ss s_ds s_es s_fs s_gs
     push push_n pop pop_seg top drop_esp esp pushal popal].

(** Add up the constants of an address. *)
Ltac sums :=
  rewrite <- ?Z.add_assoc;
  repeat match goal with
  | |- context [Z.pos ?a + Z.pos ?b] =>
      let v := eval vm_compute in (Z.pos a + Z.pos b) in change (Z.pos a + Z.pos b) with v
  end.

Definition word (v : Z) : Prop := 0 <= v < 2 ^ 32.
Definition half (v : Z) : Prop := 0 <= v < 2 ^ 16.

Lemma rdn_wrn_at n m a b v : a = b -> rdn n (wrn n m a v) b = v mod 2 ^ (8 * Z.of_nat n).
Proof. intros ->. apply rdn_wrn_eq. Qed.

Lemma word_mod v : word v -> v mod 2 ^ (8 * Z.of_nat 4) = v.
Proof. intros H. apply Z.mod_small. exact H. Qed.
Lemma half_mod v : half v -> v mod 2 ^ (8 * Z.of_nat 2) = v.
Proof. intros H. apply Z.mod_small. exact H. Qed.

(** Read through stores to other places, up to the store to the same place. *)
Ltac reads :=
  repeat first [rewrite rdn_wrn_ne by lia | rewrite rdn_wrn_at by lia];
  rewrite ?word_mod, ?half_mod by (assumption || (unfold word, half in *; lia)).

(** The ranges of all the registers. *)
Ltac ranges Hr :=
  pose proof (Hr EAX); pose proof (Hr ECX); pose proof (Hr EDX); pose proof (Hr EBX);
  pose proof (Hr ESP); pose proof (Hr EBP); pose proof (Hr ESI); pose proof (Hr EDI); clear Hr;
  cbv [m_reg rget m_regs r_eax r_ecx r_edx r_ebx r_esp r_ebp r_esi r_edi] in *.
Ltac seg_ranges Hs :=
  pose proof (Hs CS); pose proof (Hs SS); pose proof (Hs DS); pose proof (Hs ES);
  pose proof (Hs FS); pose proof (Hs GS); clear Hs;
  cbv [m_seg sget m_segs s_cs s_ss s_ds s_es s_fs s_gs] in *.

(** The offsets of the trap frame. *)
Ltac tf_offsets :=
  cbv [KSTACKSIZE sizeof_tf tf_eax tf_es tf_ds tf_trapno tf_eip tf_cs tf_eflags tf_esp tf_ss] in *.

(** movw leaves the high half. *)
Lemma movw_low x v : u16 (x / 2 ^ 16 * 2 ^ 16 + u16 v) = u16 v.
Proof. unfold u16. rewrite Z.add_comm. rewrite Z.mod_add by lia. apply Zmod_mod. Qed.

(** The values in the registers are words, those in segment registers halfwords. *)
Record regs_ok (s : mach) : Prop := mkRegsOk {
  ro_reg : forall r, word (m_reg s r);
  ro_seg : forall r, half (m_seg s r);
  ro_flags : word (m_flags s);
  ro_pc : word (m_pc s);
}.

(** *** swtch() *)

(** struct context: offsets *)
Definition ctx_reg (r : reg) : option Z :=
  match r with EDI => Some 0 | ESI => Some 4 | EBX => Some 8 | EBP => Some 12 | _ => None end.
Definition ctx_eip : Z := 16.

(** The context at [ctx] holds the callee-saved registers [rg] and the return address [pc]. *)
Definition context_at (m : mem) (ctx : Z) (rg : reg -> Z) (pc : Z) : Prop :=
  (forall r off, ctx_reg r = Some off -> rdn 4 m (ctx + off) = rg r) /\ rdn 4 m (ctx + ctx_eip) = pc.

Section Swtch.
Context (h : hw) (ilen : instr -> Z) (prog : Z -> option instr) (add_flags : Z -> Z -> Z).
Local Abbreviation steps := (msteps h ilen prog add_flags).
Local Abbreviation code := (code_at ilen prog).

Lemma swtch_run s :
  let sp := esp s in
  let old := rdn 4 (m_mem s) (sp + 4) in
  let new := rdn 4 (m_mem s) (sp + 8) in
  code (m_pc s) swtch_code -> regs_ok s ->
  16 <= sp -> sp + 12 <= 2 ^ 32 -> 0 <= old -> 0 <= new -> new + 20 < 2 ^ 32 ->
  old + 4 <= sp - 16 \/ sp + 4 <= old ->
  exists s', steps 13 s = Some s'
    /\ (context_at (m_mem s') (sp - 16) (m_reg s) (rdn 4 (m_mem s) sp)
        /\ rdn 4 (m_mem s') old = sp - 16
        /\ (forall b, ~ (sp - 16 <= b < sp) -> ~ (old <= b < old + 4) -> rd (m_mem s') b = rd (m_mem s) b))
    /\ context_at (m_mem s') new (m_reg s') (m_pc s') /\ esp s' = new + 20
    /\ m_segs s' = m_segs s /\ m_flags s' = m_flags s.
Proof.
  intros sp old new Hc Hok H16 Hsp Ho0 Hn0 Hnew Hold.
  pose proof (steps_block h ilen prog add_flags (take 12 swtch_code) RetNear s eq_refl Hc
    : steps 13 s = _) as ->.
  destruct s as [[a c d b sp' bp si di] sg pc fl m]. destruct Hok as [Hr _ _ _].
  unfold esp, m_reg in *. cbn [rget m_regs m_mem r_esp] in *.
  assert (Esp : sp' = sp) by done. assert (Eold : rdn 4 m (sp + 4) = old) by done.
  assert (Enew : rdn 4 m (sp + 8) = new) by done. clearbody sp old new. subst sp'.
  eexists. split; [machine; nowrap; rewrite Eold, Enew; nowrap; reflexivity|]. machine.
  ranges Hr. unfold context_at, ctx_eip. split_and!; try done.
  - intros r off Hoff. destruct r; simplify_eq/=; reads; lia.
  - reads. f_equal. lia.
  - reads. lia.
  - intros x Hx1 Hx2. rewrite !rd_wrn_ne by lia. done.
  - intros r off Hoff. destruct r; simplify_eq/=; f_equal; lia.
  - f_equal. lia.
  - lia.
Qed.

(** C6. swtch() is a coroutine jump. A thread calls swtch(&c1, c2) and thereby leaves its
    context in c1; when later, in any state of the machine and from any stack, swtch(&c3, c1) is
    called and the thread's stack has not been written in between, the machine goes on after
    the first call, with the stack pointer and the callee-saved registers of the first thread.
    The state that the second thread leaves is saved in the same way. *)
Theorem swtch_resumes s1 s1' s2 :
  let old1 := rdn 4 (m_mem s1) (esp s1 + 4) in
  let old2 := rdn 4 (m_mem s2) (esp s2 + 4) in
  code (m_pc s1) swtch_code -> regs_ok s1 -> 16 <= esp s1 -> esp s1 + 12 <= 2 ^ 32 ->
  0 <= old1 -> 0 <= rdn 4 (m_mem s1) (esp s1 + 8) < 2 ^ 32 - 20 ->
  old1 + 4 <= esp s1 - 16 \/ esp s1 + 4 <= old1 ->
  steps 13 s1 = Some s1' ->
  m_pc s2 = m_pc s1 -> regs_ok s2 -> 16 <= esp s2 -> esp s2 + 12 <= 2 ^ 32 ->
  0 <= old2 -> old2 + 4 <= esp s2 - 16 \/ esp s2 + 4 <= old2 ->
  rdn 4 (m_mem s2) (esp s2 + 8) = rdn 4 (m_mem s1') old1 ->
  (forall b, esp s1 - 16 <= b < esp s1 + 4 -> rd (m_mem s2) b = rd (m_mem s1') b) ->
  esp s1 + 4 <= esp s2 - 16 \/ esp s2 <= esp s1 - 16 ->
  old2 + 4 <= esp s1 - 16 \/ esp s1 + 4 <= old2 ->
  exists s2', steps 13 s2 = Some s2' /\
    m_pc s2' = rdn 4 (m_mem s1) (esp s1) /\ esp s2' = esp s1 + 4 /\
    (forall r, is_Some (ctx_reg r) -> m_reg s2' r = m_reg s1 r) /\
    context_at (m_mem s2') (rdn 4 (m_mem s2') old2) (m_reg s2) (rdn 4 (m_mem s2) (esp s2)).
Proof.
  intros old1 old2 Hc Hok1 H16 Hsp1 Ho1 Hn1 Hd1 Hrun Hpc Hok2 H16' Hsp2 Ho2 Hd2 Hnew Hkeep Hstk Hd12.
  destruct (swtch_run s1) as (s & Hs & ((Hregs & Hret) & Hctx & Hm) & _); try (done || lia).
  rewrite Hrun in Hs. simplify_eq. fold old1 in Hctx. rewrite Hctx in Hnew.
  destruct (swtch_run s2) as (s2' & Hs2 & ((Hregs2 & Hret2) & Hctx2 & Hm2) & (Hl & Hlpc) & Hlsp & _);
    try (done || lia || by rewrite Hpc).
  fold old2 in Hctx2, Hm2. rewrite Hnew in *.
  assert (Hsame : forall a, esp s1 - 16 <= a -> a + 4 <= esp s1 + 4 ->
            rdn 4 (m_mem s2') a = rdn 4 (m_mem s) a).
  { intros a Ha1 Ha2. apply rdn_ext. intros b Hb. rewrite Hm2 by lia. apply Hkeep. lia. }
  exists s2'. split_and!; [done|..].
  - rewrite <- Hlpc, <- Hret. unfold ctx_eip. apply Hsame; lia.
  - rewrite Hlsp. lia.
  - intros r [off Hoff]. rewrite <- (Hl r off Hoff), <- (Hregs r off Hoff).
    apply Hsame; destruct r; simplify_eq/=; lia.
  - rewrite Hctx2. by split.
Qed.
End Swtch.

(** *** The trap frame *)

(** struct trapframe: offsets; the stack pointer is the one the processor saves. *)
Definition tf_reg (r : reg) : Z :=
  match r with
  | EDI => 0 | ESI => 4 | EBP => 8 | EBX => 16 | EDX => 20 | ECX => 24 | EAX => tf_eax
  | ESP => tf_esp
  end.
Definition tf_seg (r : seg) : Z :=
  match r with GS => 32 | FS => 36 | ES => tf_es | DS => tf_ds | CS => tf_cs | SS => tf_ss end.
Definition tf_err : Z := 52.

(** The trap frame at [tf] holds these registers. *)
Record frame_at (m : mem) (tf : Z) (rg : reg -> Z) (sg : seg -> Z) (pc fl : Z) : Prop := mkFrameAt {
  fa_reg : forall r, rdn 4 m (tf + tf_reg r) = rg r;
  fa_seg : forall r, rdn 2 m (tf + tf_seg r) = sg r;
  fa_eip : rdn 4 m (tf + tf_eip) = pc;
  fa_eflags : rdn 4 m (tf + tf_eflags) = fl;
}.

(** The frame after a change of %eax. *)
Lemma frame_at_eax m m' tf rg sg pc fl v :
  frame_at m tf rg sg pc fl ->
  (forall b, tf <= b < tf + sizeof_tf -> ~ (tf + tf_eax <= b < tf + tf_eax + 4) -> rd m' b = rd m b) ->
  rdn 4 m' (tf + tf_eax) = v ->
  frame_at m' tf (fun r => match r with EAX => v | _ => rg r end) sg pc fl.
Proof.
  intros [Hr Hs He Hf] Hm Hv. split; intros.
  - destruct r; [exact Hv|rewrite <- Hr..]; apply rdn_ext; intros b Hb; apply Hm;
      cbv [tf_reg] in Hb; tf_offsets; lia.
  - rewrite <- Hs. apply rdn_ext. intros b Hb. apply Hm; destruct r; cbv [tf_seg] in Hb; tf_offsets; lia.
  - rewrite <- He. apply rdn_ext. intros b Hb. apply Hm; tf_offsets; lia.
  - rewrite <- Hf. apply rdn_ext. intros b Hb. apply Hm; tf_offsets; lia.
Qed.

#[local] Opaque rdn wrn u32.

Section Trap.
Context (h : hw) (ilen : instr -> Z) (prog : Z -> option instr) (add_flags : Z -> Z -> Z).
Context (vectors : Z -> Z) (c alltraps trap_addr : Z).
Local Abbreviation steps := (msteps h ilen prog add_flags).
Local Abbreviation code := (code_at ilen prog).

(** What the processor does with an interrupt in user mode. *)
Definition user_interrupt (n kstack : Z) (err : option Z) (pc : Z) (s : mach) : mach :=
  let s0 := set_seg SS sel_kdata (set_reg ESP (kstack + KSTACKSIZE) s) in
  let s1 := push (esp s) (push_n 2 (m_seg s SS) s0) in
  let s2 := push pc (push_n 2 (m_seg s CS) (push (m_flags s) s1)) in
  let s3 := match err with Some e => push e s2 | None => s2 end in
  set_pc (vectors n)
    (set_flags (gate_flags (if n =? T_SYSCALL then STS_TG32 else STS_IG32) (m_flags s))
      (set_seg CS sel_kcode s3)).

Lemma interrupt_user n kstack err pc s :
  ready vectors c kstack h (m_mem s) -> cpl s = 3 -> 0 <= n < 256 ->
  interrupt h n err pc s = Some (user_interrupt n kstack err pc s).
Proof.
  intros [Hs Ht Hl Hi] Hc Hn. destruct (Hi n Hn) as [H1 H2 H3 H4 H5 H6].
  destruct (ss_kcode _ _ _ Hs) as [_ _ _ _ Hd _ _].
  unfold interrupt. rewrite H1, H2, H3, H4, H6, Hd, Hl, Hc.
  rewrite (proj2 (Z.ltb_ge (256 * 8 - 1) (8 * n + 7))) by lia.
  rewrite !Z.mul_0_r, !Z.add_0_r, (ts_esp _ _ _ _ Ht), (ts_ss _ _ _ _ Ht).
  unfold user_interrupt. by destruct (n =? T_SYSCALL).
Qed.

(** [int n] in user mode. *)
Lemma int_user n kstack next s :
  ready vectors c kstack h (m_mem s) -> cpl s = 3 -> 0 <= n < 256 ->
  int_n h n next s =
    Some (if n =? T_SYSCALL then user_interrupt n kstack None next s
          else user_interrupt T_GPFLT kstack (Some (8 * n + 2)) (m_pc s) s).
Proof.
  intros Hr Hc Hn. unfold int_n. rewrite (gi_dpl _ _ _ _ _ (ry_idt _ _ _ _ _ Hr n Hn)), Hc.
  destruct (n =? T_SYSCALL); by apply interrupt_user.
Qed.

(** The error code that the frame gets. *)
Lemma vector_run n kstack err pc s :
  has_err n = bool_decide (is_Some err) ->
  code (vectors n) (vector_code alltraps n) ->
  exists k, steps k (user_interrupt n kstack err pc s)
    = Some (set_pc alltraps (push n (user_interrupt n kstack (Some (default 0 err)) pc s))).
Proof.
  intros He Hc. unfold vector_code in Hc. destruct err as [e|].
  - rewrite bool_decide_true in He by done. rewrite He in Hc. exists 2%nat.
    etransitivity; [apply (steps_block h ilen prog add_flags [PushImm n] (Jmp alltraps)); done|].
    destruct s as [[] [] ? ? ?]. unfold user_interrupt. machine. reflexivity.
  - rewrite bool_decide_false in He by (by intros [? ?]). rewrite He in Hc. exists 3%nat.
    etransitivity; [apply (steps_block h ilen prog add_flags [PushImm 0; PushImm n] (Jmp alltraps)); done|].
    destruct s as [[] [] ? ? ?]. unfold user_interrupt. machine. reflexivity.
Qed.

(** The state in which trap() is entered. *)
Record trap_entered (n kstack e pc : Z) (s s' : mach) : Prop := mkTrapEntered {
  te_pc : m_pc s' = trap_addr;
  te_esp : esp s' = kstack + KSTACKSIZE - sizeof_tf - 8;
  te_arg : rdn 4 (m_mem s') (esp s' + 4) = kstack + KSTACKSIZE - sizeof_tf;
  te_ret : rdn 4 (m_mem s') (esp s') = code_end ilen alltraps (alltraps_code trap_addr);
  te_frame : frame_at (m_mem s') (kstack + KSTACKSIZE - sizeof_tf) (m_reg s) (m_seg s) pc (m_flags s);
  te_trapno : rdn 4 (m_mem s') (kstack + KSTACKSIZE - sizeof_tf + tf_trapno) = n;
  te_err : rdn 4 (m_mem s') (kstack + KSTACKSIZE - sizeof_tf + tf_err) = e;
  te_segs : m_segs s' = mkSegs sel_kcode sel_kdata sel_kdata sel_kdata sel_kcpu sel_kcpu;
  te_flags : m_flags s' = gate_flags (if n =? T_SYSCALL then STS_TG32 else STS_IG32) (m_flags s);
  te_mem : forall b, ~ (kstack + KSTACKSIZE - sizeof_tf - 8 <= b < kstack + KSTACKSIZE) ->
    rd (m_mem s') b = rd (m_mem s) b;
}.

Lemma alltraps_run n kstack e pc s :
  code alltraps (alltraps_code trap_addr) ->
  word (code_end ilen alltraps (alltraps_code trap_addr)) ->
  regs_ok s -> word pc -> word e -> 0 <= n < 256 -> 0 <= kstack -> kstack + KSTACKSIZE < 2 ^ 32 ->
  exists s', steps 13 (set_pc alltraps (push n (user_interrupt n kstack (Some e) pc s))) = Some s' /\
    trap_entered n kstack e pc s s'.
Proof.
  intros Hc Hend Hok Hpc He Hn Hk0 Hk.
  set (s0 := set_pc alltraps _).
  pose proof (steps_block h ilen prog add_flags (take 12 (alltraps_code trap_addr)) (CallTo trap_addr)
    s0 eq_refl Hc : steps 13 s0 = _) as ->. subst s0.
  destruct Hok as [Hr Hs Hf _]. unfold KSTACKSIZE in *.
  destruct s as [[a c0 d b sp bp si di] [cs ss ds es fs gs] pc0 fl m].
  eexists. split.
  { unfold user_interrupt, KSTACKSIZE. machine. nowrap. reflexivity. }
  ranges Hr. seg_ranges Hs. unfold word, half in *. cbv [code_end alltraps_code] in Hend.
  split; unfold tf_err; tf_offsets; machine.
  - done.
  - lia.
  - reads. lia.
  - cbv [code_end]. by reads.
  - split; intros; try destruct r; cbv [tf_reg tf_seg]; tf_offsets; reads; done.
  - by reads.
  - by reads.
  - by rewrite !movw_low.
  - done.
  - intros x Hx. by rewrite !rd_wrn_ne by lia.
Qed.

(** trapret, from the frame at the stack pointer to user mode. *)
Lemma trapret_run s rg sg pc fl :
  code (m_pc s) trapret_code -> 0 <= esp s -> esp s + sizeof_tf < 2 ^ 32 ->
  frame_at (m_mem s) (esp s) rg sg pc fl -> cpl s = 0 -> rpl (sg CS) = 3 ->
  exists s', steps 7 s = Some s' /\
    (forall r, m_reg s' r = rg r) /\ m_seg s' CS = sg CS /\ m_seg s' SS = sg SS /\
    (forall r, r <> CS -> r <> SS -> m_seg s' r = user_seg h (m_mem s) (sg r)) /\
    m_pc s' = pc /\ m_flags s' = fl /\ m_mem s' = m_mem s.
Proof.
  intros Hc H0 Hlt [Hr Hs He Hf] Hcpl Hrpl.
  pose proof (steps_block h ilen prog add_flags (take 6 trapret_code) Iret s eq_refl Hc
    : steps 7 s = _) as ->.
  destruct s as [[a c0 d b sp bp si di] [cs ss ds es fs gs] pc0 fl0 m].
  ranges Hr. seg_ranges Hs. cbv [esp cpl m_seg sget m_segs s_cs m_mem m_reg rget m_regs r_esp tf_reg tf_seg] in *.
  tf_offsets. eexists. split.
  { machine. nowrap. unfold iret, cpl. machine. nowrap. sums.
    rewrite Z.add_0_r in *. repeat match goal with E : rdn _ _ _ = _ |- _ => rewrite E; clear E end.
    rewrite Hcpl, Hrpl. reflexivity. }
  machine. split_and!; try done; by intros [].
Qed.

(** A selector that a user program can have in a data segment register: none, or a segment of
    its own level. *)
Definition user_sel (v : Z) : Prop := 0 <= v < 4 \/ v = sel_udata \/ v = sel_ucode.

Lemma user_sel_seg m v : segs_set c h m -> user_sel v -> user_seg h m v = v.
Proof.
  intros Hs [Hv|[->| ->]]; unfold user_seg.
  - rewrite (proj2 (Z.leb_gt 4 v)) by lia. done.
  - by rewrite (si_dpl _ _ _ _ _ _ (ss_udata _ _ _ Hs)).
  - by rewrite (si_dpl _ _ _ _ _ _ (ss_ucode _ _ _ Hs)).
Qed.

(** The code of traps is in place. *)
Record trap_code (n : Z) : Prop := mkTrapCode {
  tc_vector : code (vectors n) (vector_code alltraps n);
  tc_alltraps : code alltraps (alltraps_code trap_addr ++ trap_return_code);
  tc_word : word (code_end ilen alltraps (alltraps_code trap_addr));
}.

(** A program in user mode, on the CPU whose tables are ready for it. *)
Record user_state (kstack : Z) (s : mach) : Prop := mkUserState {
  us_ready : ready vectors c kstack h (m_mem s);
  us_cpl : cpl s = 3;
  us_regs : regs_ok s;
  us_sels : forall r, r <> CS -> r <> SS -> user_sel (m_seg s r);
  us_kstack : 0 <= kstack /\ kstack + KSTACKSIZE < 2 ^ 32;
}.

Lemma trap_enters n kstack err pc s :
  trap_code n -> user_state kstack s -> 0 <= n < 256 -> has_err n = bool_decide (is_Some err) ->
  word (default 0 err) -> word pc ->
  exists k s', steps k (user_interrupt n kstack err pc s) = Some s' /\
    trap_entered n kstack (default 0 err) pc s s'.
Proof.
  intros [Hv Ha Hw] [_ _ Hr _ [Hk0 Hk]] Hn He Hew Hpc.
  destruct (vector_run n kstack err pc s He Hv) as (k1 & Hk1).
  apply code_app in Ha as [Ha _].
  destruct (alltraps_run n kstack (default 0 err) pc s) as (s' & Hs' & Ht); try done.
  exists (k1 + 13)%nat, s'. split; [|done]. by rewrite (steps_app _ _ _ _ _ _ _ _ Hk1).
Qed.

(** The way back, when trap() has returned to its caller: the frame decides. *)
Lemma trap_leaves kstack s3 rg sg pc fl :
  let tf := kstack + KSTACKSIZE - sizeof_tf in
  code alltraps (alltraps_code trap_addr ++ trap_return_code) ->
  0 <= kstack -> kstack + KSTACKSIZE < 2 ^ 32 ->
  m_pc s3 = code_end ilen alltraps (alltraps_code trap_addr) -> esp s3 = tf - 4 -> cpl s3 = 0 ->
  frame_at (m_mem s3) tf rg sg pc fl -> rpl (sg CS) = 3 -> segs_set c h (m_mem s3) ->
  (forall r, r <> CS -> r <> SS -> user_sel (sg r)) ->
  exists s4, steps 8 s3 = Some s4 /\ m_pc s4 = pc /\ m_flags s4 = fl /\ m_mem s4 = m_mem s3 /\
    (forall r, m_reg s4 r = rg r) /\ (forall r, m_seg s4 r = sg r).
Proof.
  intros tf Ha Hk0 Hk Hpc Hesp Hcpl Hf Hrpl Hs Hsel. apply code_app in Ha as [_ [Hadd Hret]].
  set (s3' := set_pc (m_pc s3 + ilen (AddEsp 4)) (set_flags (add_flags (esp s3) 4) (drop_esp 4 s3))).
  assert (H1 : steps 1 s3 = Some s3') by (simpl; unfold mstep; by rewrite Hpc, Hadd).
  assert (Htf : esp s3' = tf).
  { subst s3'. destruct s3 as [[] [] ? ? ?]. revert Hesp. machine. intros ->.
    rewrite u32_below; subst tf; tf_offsets; lia. }
  destruct (trapret_run s3' rg sg pc fl) as (s4 & H4 & Hr & Hcs & Hss & Hd & Hp & Hfl & Hm).
  - subst s3'. cbn. by rewrite Hpc.
  - rewrite Htf. subst tf. tf_offsets. lia.
  - rewrite Htf. subst tf. tf_offsets. lia.
  - by rewrite Htf.
  - done.
  - done.
  - exists s4. split_and!; try done.
    + change 8%nat with (1 + 7)%nat. by rewrite (steps_app _ _ _ _ 1 7 _ _ H1).
    + intros r. destruct r; try done; rewrite Hd by done; apply user_sel_seg; try done; by apply Hsel.
Qed.

(** C5. A trap saves and restores the interrupted program. In user mode, any interrupt or
    exception [n] of the processor leads through its vector and alltraps to trap(), on the top
    of the kernel stack of the process, with the kernel's segments, and with a trap frame that
    holds all the registers, the number and the error code; nothing else is written. When trap()
    returns, whatever else it has done, a frame whose %eax it has set to [v] and whose other
    fields are as they were takes the program back to [pc] with the same registers, segments and
    flags, but for [v] in %eax. *)
Theorem trap_roundtrip n kstack err pc s :
  let tf := kstack + KSTACKSIZE - sizeof_tf in
  trap_code n -> user_state kstack s -> 0 <= n < 256 -> has_err n = bool_decide (is_Some err) ->
  word (default 0 err) -> word pc ->
  exists s1 k s2, interrupt h n err pc s = Some s1 /\ steps k s1 = Some s2 /\
    trap_entered n kstack (default 0 err) pc s s2 /\
    forall s3 v, m_pc s3 = rdn 4 (m_mem s2) (esp s2) -> esp s3 = esp s2 + 4 ->
      m_segs s3 = m_segs s2 -> segs_set c h (m_mem s3) ->
      (forall b, tf <= b < tf + sizeof_tf -> ~ (tf + tf_eax <= b < tf + tf_eax + 4) ->
        rd (m_mem s3) b = rd (m_mem s2) b) ->
      rdn 4 (m_mem s3) (tf + tf_eax) = v ->
      exists s4, steps 8 s3 = Some s4 /\ m_pc s4 = pc /\ m_flags s4 = m_flags s /\
        m_mem s4 = m_mem s3 /\ (forall r, m_seg s4 r = m_seg s r) /\
        (forall r, m_reg s4 r = match r with EAX => v | _ => m_reg s r end).
Proof.
  intros tf Hc Hu Hn He Hew Hpc. pose proof Hu as [Hready Hcpl _ Hsel [Hk0 Hk]].
  destruct (trap_enters n kstack err pc s) as (k & s2 & Hk2 & Ht); try done.
  exists (user_interrupt n kstack err pc s), k, s2.
  split_and!; [by apply interrupt_user|done|done|].
  intros s3 v Hpc3 Hesp3 Hseg3 Hs3 Hkeep Hv. pose proof Ht as [_ Hesp _ Hret Hf _ _ Hsegs _ _].
  destruct (trap_leaves kstack s3 (fun r => match r with EAX => v | _ => m_reg s r end) (m_seg s) pc (m_flags s))
    as (s4 & H4 & Hp & Hfl & Hm & Hr & Hsg); try done.
  - apply Hc.
  - by rewrite Hpc3, Hret.
  - rewrite Hesp3, Hesp. lia.
  - unfold cpl, m_seg. by rewrite Hseg3, Hsegs.
  - by apply (frame_at_eax (m_mem s2) _ _ (m_reg s)).
  - exists s4. by split_and!.
Qed.

(** The instruction [int n] in user mode, when the tables are ready. *)
Lemma int_enters n kstack s :
  let gp := negb (n =? T_SYSCALL) in
  let no := if gp then T_GPFLT else T_SYSCALL in
  trap_code no -> user_state kstack s -> 0 <= n < 256 -> prog (m_pc s) = Some (Int n) ->
  word (m_pc s + ilen (Int n)) ->
  exists k s', steps k s = Some s' /\
    trap_entered no kstack (if gp then 8 * n + 2 else 0)
      (if gp then m_pc s else m_pc s + ilen (Int n)) s s'.
Proof.
  intros gp no Hc Hu Hn Hi Hw. pose proof Hu as [Hready Hcpl [_ _ _ Hpc] _ _].
  pose proof (int_user n kstack (m_pc s + ilen (Int n)) s Hready Hcpl Hn) as Hint.
  assert (Hstep : mstep h ilen prog add_flags s = int_n h n (m_pc s + ilen (Int n)) s)
    by (unfold mstep; by rewrite Hi).
  subst gp no. destruct (Z.eqb_spec n T_SYSCALL) as [->|Hne]; simpl in *.
  - destruct (trap_enters T_SYSCALL kstack None (m_pc s + ilen (Int T_SYSCALL)) s)
      as (k & s' & Hk & Ht); try done.
    exists (S k), s'. split; [|done]. simpl. by rewrite Hstep, Hint.
  - destruct (trap_enters T_GPFLT kstack (Some (8 * n + 2)) (m_pc s) s)
      as (k & s' & Hk & Ht); try done; [unfold word; simpl; lia|].
    exists (S k), s'. split; [|done]. simpl. by rewrite Hstep, Hint.
Qed.
End Trap.

(** C14. System calls are the only way into the kernel that a program has, as seginit(),
    tvinit(), idtinit() and switchuvm() have set up the processor: with the tables that they
    make still in memory, the instruction [int n] in user mode enters trap() with trap number 64,
    and the program goes on after the instruction, if n is T_SYSCALL; for every other n it is a
    general protection fault: trap() sees number 13, the error code that names the gate, and the
    address of the instruction itself. *)
Theorem int_protected ilen prog add_flags vectors alltraps trap_addr idt c kstack pgdir h0 m0 n s :
  0 <= c -> c + 188 <= 2 ^ 32 -> 0 <= idt -> idt + 2048 <= 2 ^ 32 ->
  c + 188 <= idt \/ idt + 2048 <= c ->
  0 <= kstack -> kstack + KSTACKSIZE < 2 ^ 32 ->
  (forall j, 0 <= j < 256 -> 0 <= vectors j < 2 ^ 32) ->
  let (h, m) := setup vectors idt c kstack pgdir h0 m0 in
  let gp := negb (n =? T_SYSCALL) in
  let no := if gp then T_GPFLT else T_SYSCALL in
  (forall b, c <= b < c + 188 \/ idt <= b < idt + 2048 -> rd (m_mem s) b = rd m b) ->
  trap_code ilen prog vectors alltraps trap_addr no ->
  cpl s = 3 -> regs_ok s -> (forall r, r <> CS -> r <> SS -> user_sel (m_seg s r)) ->
  0 <= n < 256 -> prog (m_pc s) = Some (Int n) -> word (m_pc s + ilen (Int n)) ->
  exists k s', msteps h ilen prog add_flags k s = Some s' /\
    trap_entered ilen alltraps trap_addr no kstack (if gp then 8 * n + 2 else 0)
      (if gp then m_pc s else m_pc s + ilen (Int n)) s s'.
Proof.
  intros H0 Hc Hi0 Hi Hd Hk0 Hk Hv.
  pose proof (setup_sets vectors idt c kstack pgdir h0 m0 H0 Hc Hi0 Hi Hd Hk0 Hk Hv) as Hs.
  destruct (setup _ _ _ _ _ _ _) as [h m]. destruct Hs as (Hr & _ & _ & _ & Hib).
  intros gp no Hm Hcode Hcpl Hregs Hsel Hn Hp Hw.
  apply (int_enters h ilen prog add_flags vectors c alltraps trap_addr n kstack s); try done.
  split; try done. apply (ready_ext vectors c kstack h m); [|done]. by rewrite Hib.
Qed.

(** *** The first program *)

Section Init.
Context (h : hw) (ilen : instr -> Z) (prog : Z -> option instr) (add_flags : Z -> Z -> Z).

(** initcode.S makes the system call exec(init, argv), with the arguments where the kernel
    looks for them, above the word for a return address. *)
Lemma initcode_calls argv init exit s :
  code_at ilen prog (m_pc s) (initcode argv init exit) -> 12 <= esp s < 2 ^ 32 -> word argv -> word init ->
  exists s', msteps h ilen prog add_flags 4 s = Some s' /\ prog (m_pc s') = Some (Int T_SYSCALL) /\
    m_reg s' EAX = SYS_exec /\ esp s' = esp s - 12 /\
    rdn 4 (m_mem s') (esp s' + 4) = init /\ rdn 4 (m_mem s') (esp s' + 8) = argv /\
    forall b, b < esp s - 12 \/ esp s <= b -> rd (m_mem s') b = rd (m_mem s) b.
Proof.
  intros Hc Hsp Ha Hi.
  assert (Hrun : msteps h ilen prog add_flags 4 s =
    exec_list h ilen add_flags [PushImm argv; PushImm init; PushImm 0; MovImm SYS_exec EAX] s).
  { apply (steps_block h ilen prog add_flags [PushImm argv; PushImm init; PushImm 0] (MovImm SYS_exec EAX)); [done|].
    cbn [initcode code_at app] in *. tauto. }
  rewrite Hrun. clear Hrun. destruct s as [[a c d b sp bp si di] sg pc fl m].
  unfold esp, m_reg in *. cbn [rget m_regs m_mem m_pc r_esp initcode code_at] in *.
  eexists. split; [machine; nowrap; reflexivity|]. machine. split_and!; try (done || lia).
  - by destruct Hc as (_ & _ & _ & _ & Hc & _).
  - reads. done.
  - reads. done.
  - intros x Hx. by rewrite !rd_wrn_ne by lia.
Qed.
End Init.
