(* ===== verification/AsmProc.v ===== *)
(** How a new process gets to run: the frames that allocproc(), userinit() and fork() build on
    its kernel stack take the machine from the scheduler's swtch() through forkret() and
    trapret to user mode. *)

From S2P Require Export Asm ProcSpec KernelDemo.

Open Scope Z_scope.

(** *** The frames *)

Lemma rd_bytes_move m m' a a' n :
  (forall i, 0 <= i < Z.of_nat n -> rd m' (a' + i) = rd m (a + i)) -> rd_bytes m' a' n = rd_bytes m a n.
Proof.
  revert a a'. induction n as [|n IH]; intros a a' H; [done|]. cbn [rd_bytes]. f_equal.
  - specialize (H 0). rewrite !Z.add_0_r in H. apply H. lia.
  - apply IH. intros i Hi. rewrite <- !Z.add_assoc. apply H. lia.
Qed.

(** The same frame at another place. *)
Lemma frame_at_move m tf' tf m' rg sg pc fl :
  frame_at m tf rg sg pc fl ->
  (forall b, tf' <= b < tf' + sizeof_tf -> rd m' b = rd m (tf + (b - tf'))) ->
  frame_at m' tf' rg sg pc fl.
Proof.
  intros [Hr Hs He Hf] Hm.
  assert (Hn : forall n off, 0 <= off -> off + Z.of_nat n <= sizeof_tf -> rdn n m' (tf' + off) = rdn n m (tf + off)).
  { intros n off H1 H2. unfold rdn. f_equal. apply rd_bytes_move. intros i Hi.
    rewrite Hm by lia. f_equal. lia. }
  split; intros; try destruct r; rewrite Hn by (cbv [tf_reg tf_seg]; tf_offsets; lia);
    by rewrite ?Hr, ?Hs, ?He, ?Hf.
Qed.

Lemma rdn_memset k m a n b :
  0 <= n -> a <= b -> b + Z.of_nat k <= a + n -> rdn k (StringC.memset m a 0 n) b = 0.
Proof.
  intros Hn Ha Hb. transitivity (rdn k ∅ b).
  - apply rdn_ext. intros x Hx. rewrite StringC.memset_fills, decide_True, rd_empty by lia. done.
  - unfold rdn. clear. revert b. induction k as [|k IH]; intros b; [done|].
    cbn [rd_bytes le_val]. by rewrite IH, rd_empty.
Qed.

Section Frames.
Context (forkret_addr trapret_addr : Z).

(** What allocproc() leaves for process [p] in memory [m]. *)
Record new_frames (p : proc) (m : mem) : Prop := mkNewFrames {
  nf_tf : p_tf p = p_kstack p + KSTACKSIZE - sizeof_tf;
  nf_ctx : p_context p = p_tf p - 4 - sizeof_context;
  nf_context : context_at m (p_context p) (fun _ => 0) (u32 forkret_addr);
  nf_ret : rdn 4 m (p_tf p - 4) = u32 trapret_addr;
}.

Lemma new_frames_ext p m m' :
  new_frames p m -> (forall b, p_context p <= b < p_tf p -> rd m' b = rd m b) -> new_frames p m'.
Proof.
  intros [Ht Hc [Hx He] Hr] Hm. unfold sizeof_context, ctx_eip in *. split; try done; [split|].
  - intros r off Hoff. rewrite <- (Hx r off Hoff). apply rdn_ext. intros b Hb. apply Hm.
    destruct r; simplify_eq/=; lia.
  - rewrite <- He. apply rdn_ext. intros b Hb. apply Hm. unfold ctx_eip in *. lia.
  - rewrite <- Hr. apply rdn_ext. intros b Hb. apply Hm. lia.
Qed.

(** The stores of allocproc(). *)
Lemma allocproc_stores m sp :
  let ctx := sp - 4 - sizeof_context in
  let m' := wr32 (StringC.memset (wr32 m (sp - 4) trapret_addr) ctx 0 sizeof_context) (ctx + 16) forkret_addr in
  context_at m' ctx (fun _ => 0) (u32 forkret_addr) /\ rdn 4 m' (sp - 4) = u32 trapret_addr.
Proof.
  intros ctx m'.
  assert (Hz : forall a, ctx <= a < ctx + 16 -> rd m' a = 0).
  { intros a Ha. subst m'. rewrite rd_wr32_ne by lia. rewrite StringC.memset_fills by done.
    rewrite decide_True; [done|unfold sizeof_context; lia]. }
  split; [split|].
  - intros r off Hoff. transitivity (rdn 4 ∅ 0); [|done].
    assert (Ho : 0 <= off <= 12) by (destruct r; simplify_eq/=; lia).
    unfold rdn. simpl. by rewrite !Hz by lia.
  - apply rd32_wr32_eq.
  - subst m'. change (rdn 4) with rd32. rewrite rd32_wr32_ne by (subst ctx; unfold sizeof_context; lia).
    rewrite <- (rd32_wr32_eq m (sp - 4) trapret_addr). apply rd32_ext. intros a Ha.
    rewrite StringC.memset_fills by done. rewrite decide_False; [done|].
    subst ctx. unfold sizeof_context. lia.
Qed.

Lemma allocproc_frames k i k' :
  allocproc forkret_addr trapret_addr k = Ret (Some i) k' ->
  new_frames (proc_at i k') (km (k_mem k')).
Proof.
  unfold allocproc, in_tab, lift, bind. intros Ha.
  destruct (allocproc_slot (k_tab k)) as [[j|] t| | |] eqn:Hslot; try done.
  assert (Hj : (j < length (tb_proc t))%nat).
  { revert Hslot. unfold allocproc_slot, bind, acquire, release, gets, upd_p, modify, ret.
    destruct (lget tb_lk (k_tab k)); [done|].
    destruct (find_slot _ _) as [x|] eqn:Hf; [|by intros].
    apply find_slot_Some in Hf as [Hf _]. intros Hslot. simpl in *. simplify_eq.
    simpl. by rewrite !length_alter. }
  destruct (in_mem kalloc (set_tab t k)) as [a k1| | |] eqn:Hk; try done.
  assert (Ht1 : k_tab k1 = t).
  { revert Hk. unfold in_mem, lift. destruct (kalloc _); intros; by simplify_eq. }
  destruct (Z.eqb_spec a 0) as [->|Ha0].
  { revert Ha. unfold upd_at, in_tab, lift, upd_p, modify, ret. done. }
  revert Ha. unfold upd_at, in_tab, lift, upd_p, mem_op, modify, ret.
  cbn -[wr32 StringC.memset Z.add Z.sub upd_proc]. intros Ha. simplify_eq.
  destruct (allocproc_stores (km (k_mem k1)) (a + KSTACKSIZE - sizeof_tf)) as [Hc Hr].
  unfold proc_at. cbn -[wr32 StringC.memset Z.add Z.sub upd_proc].
  assert (Hp : pat (upd_proc i (p_set_frames (a + KSTACKSIZE - sizeof_tf)
            (a + KSTACKSIZE - sizeof_tf - 4 - sizeof_context)) (upd_proc i (p_set_kstack a) (k_tab k1))) i
          = p_set_frames (a + KSTACKSIZE - sizeof_tf)
            (a + KSTACKSIZE - sizeof_tf - 4 - sizeof_context) (p_set_kstack a (pat (k_tab k1) i))).
  { rewrite !pat_upd_eq; [done|done|]. cbn. by rewrite length_alter. }
  rewrite Hp. by split.
Qed.

(** userinit()'s frame: the program starts at address 0 with a stack of one page, with the
    user's segments and with interrupts on. *)
Definition init_reg (r : reg) : Z := match r with ESP => PGSIZE | _ => 0 end.
Definition init_seg (r : seg) : Z :=
  match r with CS => sel_ucode | SS | DS | ES => sel_udata | _ => 0 end.

Lemma init_frame_at tf m : frame_at (init_frame tf m) tf init_reg init_seg 0 FL_IF.
Proof.
  unfold init_frame. cbv zeta.
  change (wr32 (wr32 (wr32 ?m ?a ?v) ?b ?w) ?c ?u) with (wrn 4 (wrn 4 (wrn 4 m a v) b w) c u).
  change wr16 with (wrn 2).
  split; intros; try destruct r; cbv [tf_reg tf_seg]; tf_offsets;
    repeat first [rewrite rdn_wrn_ne by lia | rewrite rdn_wrn_at by lia
                 | rewrite rdn_memset by lia]; done.
Qed.

Lemma child_frame_at tf ptf m rg sg pc fl :
  frame_at m ptf rg sg pc fl ->
  frame_at (child_frame tf ptf m) tf (fun r => match r with EAX => 0 | _ => rg r end) sg pc fl.
Proof.
  intros Hf. apply (frame_at_eax (StringC.memmove m tf ptf sizeof_tf)).
  - apply (frame_at_move m tf ptf); [done|]. intros b Hb.
    rewrite StringC.rd_memmove, decide_True by (unfold sizeof_tf in *; lia). done.
  - intros b Hb Hne. unfold child_frame. by rewrite rd_wr32_ne.
  - by rewrite (rd32_wr32_eq _ _ 0 : rdn 4 (child_frame tf ptf m) (tf + tf_eax) = _).
Qed.
End Frames.

(** *** From the scheduler to user mode *)

Section Start.
Context (h : hw) (ilen : instr -> Z) (prog : Z -> option instr) (add_flags : Z -> Z -> Z).
Context (c forkret_addr trapret_addr : Z).
Local Abbreviation steps := (msteps h ilen prog add_flags).
Local Abbreviation code := (code_at ilen prog).

(** The scheduler is about to run swtch(&cpu->scheduler, p->context). *)
Record scheduling (p : proc) (s : mach) : Prop := mkScheduling {
  sc_code : code (m_pc s) swtch_code;
  sc_regs : regs_ok s;
  sc_sp : 16 <= esp s /\ esp s + 12 <= 2 ^ 32;
  sc_old : let old := rdn 4 (m_mem s) (esp s + 4) in
    0 <= old /\ (old + 4 <= esp s - 16 \/ esp s + 4 <= old)
    /\ (old + 4 <= p_context p \/ p_kstack p + KSTACKSIZE <= old);
  sc_new : rdn 4 (m_mem s) (esp s + 8) = p_context p;
  sc_apart : esp s <= p_context p \/ p_kstack p + KSTACKSIZE <= esp s - 16;
}.

(** forkret() is entered on the new stack, and its return address is trapret. *)
Lemma starts_forkret p s :
  new_frames forkret_addr trapret_addr p (m_mem s) -> scheduling p s ->
  0 <= p_kstack p -> p_kstack p + KSTACKSIZE < 2 ^ 32 ->
  exists s1, steps 13 s = Some s1 /\ m_pc s1 = u32 forkret_addr /\ esp s1 = p_tf p - 4 /\
    rdn 4 (m_mem s1) (esp s1) = u32 trapret_addr /\ m_segs s1 = m_segs s /\
    context_at (m_mem s1) (rdn 4 (m_mem s1) (rdn 4 (m_mem s) (esp s + 4))) (m_reg s) (rdn 4 (m_mem s) (esp s)).
Proof.
  intros [Htf Hctx [Hregs Heip] Hret] [Hc Hok [H16 Hsp] (Ho0 & Hos & Hop) Hnew Hap] Hk0 Hk.
  unfold KSTACKSIZE, sizeof_tf, sizeof_context in *.
  destruct (swtch_run h ilen prog add_flags s) as (s1 & H1 & ((Hr1 & He1) & Hold & Hm) & (_ & Hpc) & Hesp & Hsg & _);
    try (done || lia).
  rewrite Hnew in *. unfold ctx_eip in *.
  assert (Hkeep : forall a, p_context p <= a -> a + 4 <= p_kstack p + 4096 ->
            rdn 4 (m_mem s1) a = rdn 4 (m_mem s) a).
  { intros a Ha1 Ha2. apply rdn_ext. intros b Hb. apply Hm; lia. }
  exists s1. split_and!; try done.
  - rewrite <- Hpc, Hkeep by lia. done.
  - lia.
  - rewrite Hesp, <- Hret, Hkeep by lia. f_equal. lia.
  - rewrite Hold. by split.
Qed.

(** C15. fork() returns in the child. Let allocproc() make a process, whose trap frame fork()
    copies from the parent with 0 in %eax. When the scheduler switches to it, the machine
    enters forkret() on the kernel stack of the child and the scheduler's own context is saved;
    and when forkret() returns, whatever it has done outside the frame, the machine is in user
    mode in the child, at the address where the parent's system call returns, with all the
    registers of the parent but for 0 in %eax. *)
Theorem fork_child_returns k i k' s m ptf rg sg pc fl :
  let p := proc_at i k' in
  allocproc forkret_addr trapret_addr k = Ret (Some i) k' ->
  0 <= p_kstack p -> p_kstack p + KSTACKSIZE < 2 ^ 32 ->
  (forall b, p_context p <= b < p_tf p -> rd (m_mem s) b = rd (km (k_mem k')) b) ->
  scheduling p s -> frame_at m ptf rg sg pc fl -> rpl (sg CS) = 3 ->
  (forall r, r <> CS -> r <> SS -> user_sel (sg r)) -> code (u32 trapret_addr) trapret_code ->
  exists s1, steps 13 s = Some s1 /\ m_pc s1 = u32 forkret_addr /\ esp s1 = p_tf p - 4 /\
    context_at (m_mem s1) (rdn 4 (m_mem s1) (rdn 4 (m_mem s) (esp s + 4))) (m_reg s)
      (rdn 4 (m_mem s) (esp s)) /\
    forall s2, m_pc s2 = rdn 4 (m_mem s1) (esp s1) -> esp s2 = esp s1 + 4 -> cpl s2 = 0 ->
      segs_set c h (m_mem s2) ->
      (forall b, p_tf p <= b < p_tf p + sizeof_tf ->
        rd (m_mem s2) b = rd (child_frame (p_tf p) ptf m) b) ->
      exists s3, steps 7 s2 = Some s3 /\ m_pc s3 = pc /\ m_flags s3 = fl /\
        (forall r, m_reg s3 r = match r with EAX => 0 | _ => rg r end) /\
        (forall r, m_seg s3 r = sg r).
Proof.
  intros p Ha Hk0 Hk Hctx Hsch Hf Hrpl Hsel Htr.
  pose proof (allocproc_frames _ _ _ _ _ Ha) as Hnf. fold p in Hnf.
  destruct (starts_forkret p s) as (s1 & H1 & Hpc & Hesp & Hret & _ & Hsaved); try done.
  { by apply (new_frames_ext _ _ _ (km (k_mem k'))). }
  exists s1. split_and!; try done. intros s2 Hpc2 Hesp2 Hcpl Hs2 Hfr.
  assert (Hf2 : frame_at (m_mem s2) (p_tf p) (fun r => match r with EAX => 0 | _ => rg r end) sg pc fl).
  { apply (frame_at_move (child_frame (p_tf p) ptf m) (p_tf p) (p_tf p)); [by apply child_frame_at|].
    intros b Hb. rewrite Hfr by done. f_equal. lia. }
  assert (E : esp s2 = p_tf p) by lia.
  destruct Hnf as [Htf _ _ _]. unfold KSTACKSIZE, sizeof_tf in *.
  destruct (trapret_run h ilen prog add_flags s2 (fun r => match r with EAX => 0 | _ => rg r end) sg pc fl)
    as (s3 & H3 & Hr & Hcs & Hss & Hd & Hp3 & Hfl & _); rewrite ?E, ?Hpc2, ?Hret; try (done || (tf_offsets; lia)).
  exists s3. split_and!; try done.
  intros r. destruct r; try done; rewrite Hd by done; apply (user_sel_seg h c); try done; by apply Hsel.
Qed.
End Start.

(** ** The theorems about swtch(), traps and new processes at work: a kernel whose code is placed
    at concrete addresses, one byte for each instruction, and states in which it runs. *)

(** *** The image *)

Definition demo_swtch : Z := 0x80104a00.
Definition demo_alltraps : Z := 0x80105600.
Definition demo_trapret : Z := 0x8010560e.
Definition demo_trap : Z := 0x80105000.
Definition demo_forkret : Z := 0x80103a00.
Definition demo_vectors (n : Z) : Z := 0x80106000 + 8 * n.
Definition demo_len (i : instr) : Z := 1.
Definition demo_flags (a b : Z) : Z := 0x202.

Definition at_offset (l : list instr) (off : Z) : option instr :=
  if off <? 0 then None else l !! Z.to_nat off.

(** The user program at 0x100 is [int 3]. *)
Definition demo_prog (a : Z) : option instr :=
  if (0x80106000 <=? a) && (a <? 0x80106800)
  then at_offset (vector_code demo_alltraps ((a - 0x80106000) / 8)) ((a - 0x80106000) mod 8)
  else if demo_alltraps <=? a
  then at_offset (alltraps_code demo_trap ++ trap_return_code) (a - demo_alltraps)
  else if demo_swtch <=? a then at_offset swtch_code (a - demo_swtch)
  else if a =? 0x100 then Some (Int 3) else None.

Definition demo_cpu : Z := 0x80112800.
Definition demo_kstack : Z := 0x8dfff000.
Definition demo_setup : hw * mem :=
  setup demo_vectors 0x80114ca0 demo_cpu demo_kstack 0x8dffe000 (mkHw 0 0 0 0 0 0 0 0) ∅.
Definition demo_hw : hw := demo_setup.1.
Definition demo_tables : mem := demo_setup.2.

Lemma demo_ready : ready demo_vectors demo_cpu demo_kstack demo_hw demo_tables.
Proof.
  pose proof (setup_sets demo_vectors 0x80114ca0 demo_cpu demo_kstack 0x8dffe000 (mkHw 0 0 0 0 0 0 0 0) ∅)
    as H.
  unfold demo_hw, demo_tables, demo_setup.
  destruct (setup _ _ _ _ _ _ _) as [h m]. apply H; unfold demo_cpu, demo_kstack, demo_vectors, KSTACKSIZE; lia.
Qed.

Ltac in_range := unfold word, half; vm_compute; split; [discriminate|reflexivity].
Ltac regs_in_range := split; intros; try match goal with r : _ |- _ => destruct r end; in_range.

(** *** Traps *)

Definition demo_user : mach :=
  mkMach (mkRegs 1 2 3 4 0x3fc0 6 7 8) (mkSegs sel_ucode sel_udata sel_udata sel_udata 0 0)
    0x100 0x202 demo_tables.

Lemma demo_user_state : user_state demo_hw demo_vectors demo_cpu demo_kstack demo_user.
Proof.
  split.
  - apply demo_ready.
  - reflexivity.
  - regs_in_range.
  - intros r Hcs Hss. unfold user_sel. destruct r; try done; first [by (right; left)|left; cbn; lia].
  - unfold demo_kstack, KSTACKSIZE. lia.
Qed.

Lemma demo_trap_code n : n = 13 \/ n = 64 -> trap_code demo_len demo_prog demo_vectors demo_alltraps demo_trap n.
Proof. intros [->| ->]; (split; [repeat split|repeat split|in_range]). Qed.

Lemma trap_roundtrip_witness :
  let tf := demo_kstack + KSTACKSIZE - sizeof_tf in
  exists s1 k s2, interrupt demo_hw 64 None 0x101 demo_user = Some s1 /\
    msteps demo_hw demo_len demo_prog demo_flags k s1 = Some s2 /\
    trap_entered demo_len demo_alltraps demo_trap 64 demo_kstack 0 0x101 demo_user s2 /\
    forall s3 v, m_pc s3 = rdn 4 (m_mem s2) (esp s2) -> esp s3 = esp s2 + 4 ->
      m_segs s3 = m_segs s2 -> segs_set demo_cpu demo_hw (m_mem s3) ->
      (forall b, tf <= b < tf + sizeof_tf -> ~ (tf + tf_eax <= b < tf + tf_eax + 4) ->
        rd (m_mem s3) b = rd (m_mem s2) b) ->
      rdn 4 (m_mem s3) (tf + tf_eax) = v ->
      exists s4, msteps demo_hw demo_len demo_prog demo_flags 8 s3 = Some s4 /\ m_pc s4 = 0x101 /\
        m_flags s4 = m_flags demo_user /\ m_mem s4 = m_mem s3 /\
        (forall r, m_seg s4 r = m_seg demo_user r) /\
        (forall r, m_reg s4 r = match r with EAX => v | _ => m_reg demo_user r end).
Proof.
  apply (trap_roundtrip demo_hw demo_len demo_prog demo_flags demo_vectors demo_cpu demo_alltraps
    demo_trap 64 demo_kstack None 0x101 demo_user).
  - apply demo_trap_code. by right.
  - apply demo_user_state.
  - lia.
  - reflexivity.
  - in_range.
  - in_range.
Defined.

Lemma int_protected_witness :
  exists k s', msteps demo_hw demo_len demo_prog demo_flags k demo_user = Some s' /\
    trap_entered demo_len demo_alltraps demo_trap T_GPFLT demo_kstack 26 0x100 demo_user s'.
Proof.
  pose proof (int_protected demo_len demo_prog demo_flags demo_vectors demo_alltraps demo_trap 0x80114ca0
    demo_cpu demo_kstack 0x8dffe000 (mkHw 0 0 0 0 0 0 0 0) ∅ 3 demo_user) as H.
  fold demo_setup in H. rewrite (surjective_pairing demo_setup) in H.
  destruct demo_user_state as [_ Hcpl Hregs Hsels _]. apply H; try assumption.
  1-8: unfold demo_cpu, demo_kstack, demo_vectors, KSTACKSIZE; lia.
  - intros b _. reflexivity.
  - apply demo_trap_code. by left.
  - lia.
  - reflexivity.
  - in_range.
Defined.

(** *** Two threads *)

Definition demo_hw0 : hw := mkHw 0 0 0 0 0 0 0 0.

(** The first calls swtch(0x80110000, 0x80108000). *)
Definition demo_t1 : mach :=
  mkMach (mkRegs 1 2 3 4 0x8dffef00 6 7 8) (mkSegs sel_kcode sel_kdata sel_kdata sel_kdata sel_kcpu sel_kcpu)
    demo_swtch 2 (wrn 4 (wrn 4 (wrn 4 ∅ 0x8dffef00 0x80101111) 0x8dffef04 0x80110000) 0x8dffef08 0x80108000).
Definition demo_t1' : mach :=
  default demo_t1 (msteps demo_hw0 demo_len demo_prog demo_flags 13 demo_t1).
(** The second, swtch(0x80110004, what the first has saved). *)
Definition demo_t2 : mach :=
  mkMach (mkRegs 11 12 13 14 0x80107f00 16 17 18)
    (mkSegs sel_kcode sel_kdata sel_kdata sel_kdata sel_kcpu sel_kcpu) demo_swtch 2
    (wrn 4 (wrn 4 (wrn 4 (m_mem demo_t1') 0x80107f00 0x80102222) 0x80107f04 0x80110004)
       0x80107f08 0x8dffeef0).

Lemma swtch_resumes_witness :
  exists s2', msteps demo_hw0 demo_len demo_prog demo_flags 13 demo_t2 = Some s2' /\
    m_pc s2' = 0x80101111 /\ esp s2' = 0x8dffef04 /\
    (forall r, is_Some (ctx_reg r) -> m_reg s2' r = m_reg demo_t1 r) /\
    context_at (m_mem s2') (rdn 4 (m_mem s2') 0x80110004) (m_reg demo_t2) 0x80102222.
Proof.
  apply (swtch_resumes demo_hw0 demo_len demo_prog demo_flags demo_t1 demo_t1' demo_t2).
  - repeat split.
  - regs_in_range.
  - by vm_compute.
  - by vm_compute.
  - by vm_compute.
  - in_range.
  - left. by vm_compute.
  - vm_compute. reflexivity.
  - reflexivity.
  - regs_in_range.
  - by vm_compute.
  - by vm_compute.
  - by vm_compute.
  - right. by vm_compute.
  - by vm_compute.
  - intros b Hb. assert (Hr : 0x8dffeef0 <= b < 0x8dffef04) by exact Hb.
    unfold demo_t2. cbn [m_mem]. by rewrite !rd_wrn_ne by lia.
  - right. by vm_compute.
  - left. by vm_compute.
Defined.

(** *** A child *)

(** The kernel after allocproc(), and the scheduler about to switch to the new process, with
    the scheduler's context pointer at 0x80110000. *)
Definition demo_alloc : kern :=
  match allocproc demo_forkret demo_trapret (demo_kern 1 [] []) with
  | Ret _ k' => k' | _ => demo_kern 1 [] []
  end.
Definition demo_child : proc := proc_at 1 demo_alloc.
Definition demo_sched : mach :=
  mkMach (mkRegs 1 2 3 4 0x8dffef00 6 7 8) (mkSegs sel_kcode sel_kdata sel_kdata sel_kdata sel_kcpu sel_kcpu)
    demo_swtch 2
    (wrn 4 (wrn 4 (wrn 4 (km (k_mem demo_alloc)) 0x8dffef00 0x80101111) 0x8dffef04 0x80110000)
       0x8dffef08 (p_context demo_child)).

Lemma fork_child_returns_witness :
  exists s1, msteps demo_hw demo_len demo_prog demo_flags 13 demo_sched = Some s1 /\
    m_pc s1 = demo_forkret /\ esp s1 = p_tf demo_child - 4 /\
    context_at (m_mem s1) (rdn 4 (m_mem s1) 0x80110000) (m_reg demo_sched) 0x80101111 /\
    forall s2, m_pc s2 = rdn 4 (m_mem s1) (esp s1) -> esp s2 = esp s1 + 4 -> cpl s2 = 0 ->
      segs_set demo_cpu demo_hw (m_mem s2) ->
      (forall b, p_tf demo_child <= b < p_tf demo_child + sizeof_tf ->
        rd (m_mem s2) b = rd (child_frame (p_tf demo_child) demo_tf (init_frame demo_tf ∅)) b) ->
      exists s3, msteps demo_hw demo_len demo_prog demo_flags 7 s2 = Some s3 /\ m_pc s3 = 0 /\
        m_flags s3 = FL_IF /\
        (forall r, m_reg s3 r = match r with EAX => 0 | _ => init_reg r end) /\
        (forall r, m_seg s3 r = init_seg r).
Proof.
  apply (fork_child_returns demo_hw demo_len demo_prog demo_flags demo_cpu demo_forkret demo_trapret
    (demo_kern 1 [] []) 1 demo_alloc demo_sched (init_frame demo_tf ∅) demo_tf init_reg init_seg 0 FL_IF).
  - vm_compute. reflexivity.
  - by vm_compute.
  - by vm_compute.
  - intros b Hb. assert (Hr : 0x80204f9c <= b < 0x80204fb4) by exact Hb.
    unfold demo_sched. cbn [m_mem]. by rewrite !rd_wrn_ne by lia.
  - split; [repeat split|regs_in_range|by vm_compute|split_and!; [by vm_compute|left; by vm_compute|]|..].
    + left. by vm_compute.
    + by vm_compute.
    + right. by vm_compute.
  - apply init_frame_at.
  - reflexivity.
  - intros r H1 H2. unfold user_sel. destruct r; try done; first [by (right; left)|left; cbn; lia].
  - repeat split.
Defined.
