(* ===== verification/Start.v ===== *)
(** bootasm.S, entry.S and entryother.S: the way of a processor from real mode into the C code
    of the boot loader and of the kernel, and [entrypgdir] of main.c, the page table on the way.

    The byte at physical address [p] is the byte at [P2V p] of the memory, as in Kalloc.v. The
    processor's side (segments in the two modes, the descriptor table, the translation of
    addresses) is here as well; descriptors are taken apart as in Segs.v. The assembler and the
    linker choose the addresses of the labels: they are parameters. *)

From S2P Require Export Asm.

Open Scope Z_scope.
Open Scope kernel_scope.

(** *** The processor *)

Definition CR0_PE : Z := 0x00000001.
Definition CR0_WP : Z := 0x00010000.
Definition CR0_PG : Z := 0x80000000.
Definition CR4_PSE : Z := 0x00000010.
Definition PTE_PS : Z := 0x080.

(** The selectors and the base addresses that the processor keeps for them, the flags, the
    tables and %cr3 ([c_hw]), the writes to ports and the number of reads of a port. *)
Record core := mkCpu {
  c_eax : Z;
  c_esp : Z;
  c_flags : Z;
  c_cr0 : Z;
  c_cr4 : Z;
  c_sel : segs;
  c_base : segs;
  c_hw : hw;
  c_mem : mem;
  c_out : list (Z * Z);
  c_time : nat;
}.

Definition set_eax (v : Z) (s : core) : core :=
  mkCpu v (c_esp s) (c_flags s) (c_cr0 s) (c_cr4 s) (c_sel s) (c_base s) (c_hw s) (c_mem s) (c_out s) (c_time s).
Definition set_esp (v : Z) (s : core) : core :=
  mkCpu (c_eax s) v (c_flags s) (c_cr0 s) (c_cr4 s) (c_sel s) (c_base s) (c_hw s) (c_mem s) (c_out s) (c_time s).
Definition set_cflags (v : Z) (s : core) : core :=
  mkCpu (c_eax s) (c_esp s) v (c_cr0 s) (c_cr4 s) (c_sel s) (c_base s) (c_hw s) (c_mem s) (c_out s) (c_time s).
Definition set_cr0 (v : Z) (s : core) : core :=
  mkCpu (c_eax s) (c_esp s) (c_flags s) v (c_cr4 s) (c_sel s) (c_base s) (c_hw s) (c_mem s) (c_out s) (c_time s).
Definition set_cr4 (v : Z) (s : core) : core :=
  mkCpu (c_eax s) (c_esp s) (c_flags s) (c_cr0 s) v (c_sel s) (c_base s) (c_hw s) (c_mem s) (c_out s) (c_time s).
Definition set_sel (r : seg) (sel base : Z) (s : core) : core :=
  mkCpu (c_eax s) (c_esp s) (c_flags s) (c_cr0 s) (c_cr4 s) (sset r sel (c_sel s)) (sset r base (c_base s))
    (c_hw s) (c_mem s) (c_out s) (c_time s).
Definition set_hw (v : hw) (s : core) : core :=
  mkCpu (c_eax s) (c_esp s) (c_flags s) (c_cr0 s) (c_cr4 s) (c_sel s) (c_base s) v (c_mem s) (c_out s) (c_time s).
Definition set_cmem (v : mem) (s : core) : core :=
  mkCpu (c_eax s) (c_esp s) (c_flags s) (c_cr0 s) (c_cr4 s) (c_sel s) (c_base s) (c_hw s) v (c_out s) (c_time s).
Definition c_write (port v : Z) (s : core) : core :=
  mkCpu (c_eax s) (c_esp s) (c_flags s) (c_cr0 s) (c_cr4 s) (c_sel s) (c_base s) (c_hw s) (c_mem s)
    (c_out s ++ [(port, v)]) (c_time s).
Definition c_tick (s : core) : core :=
  mkCpu (c_eax s) (c_esp s) (c_flags s) (c_cr0 s) (c_cr4 s) (c_sel s) (c_base s) (c_hw s) (c_mem s)
    (c_out s) (S (c_time s)).

Definition has (v bit : Z) : bool := negb (Z.land v bit =? 0).

(** The physical address of a linear address, if there is one: with paging off the same, with
    paging on by the page table, whose directory entries may map 4 Mbyte. *)
Definition phys (s : core) (a : Z) : option Z :=
  if has (c_cr0 s) CR0_PG then
    let pde := rdn 4 (c_mem s) (P2V (PTE_ADDR (r_cr3 (c_hw s)) + 4 * PDX a)) in
    if negb (has pde PTE_P) then None
    else if has (c_cr4 s) CR4_PSE && has pde PTE_PS then
      Some (pde / 2 ^ PDXSHIFT * 2 ^ PDXSHIFT + a mod 2 ^ PDXSHIFT)
    else
      let pte := rdn 4 (c_mem s) (P2V (PTE_ADDR pde + 4 * PTX a)) in
      if has pte PTE_P then Some (PTE_ADDR pte + a mod PGSIZE) else None
  else Some (u32 a).

Definition linear (r : seg) (off : Z) (s : core) : Z := u32 (sget r (c_base s) + off).

(** A load of [n] bytes, and a push of a word. *)
Definition load (n : nat) (r : seg) (off : Z) : M core Z := fun s =>
  match phys s (linear r off s) with
  | Some p => Ret (rdn n (c_mem s) (P2V p)) s
  | None => Panic "page fault"
  end.
Definition push_word (v : Z) : M core unit := fun s =>
  let sp := u32 (c_esp s - 4) in
  match phys s (linear SS sp s) with
  | Some p => Ret tt (set_esp sp (set_cmem (wrn 4 (c_mem s) (P2V p) v) s))
  | None => Panic "page fault"
  end.

(** A load of a segment register: in real mode the base is 16 times the selector, in protected
    mode it is that of the descriptor, which has to be in the table and present. A null selector
    can be loaded, not into CS and SS. *)
Definition load_seg (r : seg) (sel : Z) : M core unit := fun s =>
  if negb (has (c_cr0 s) CR0_PE) then Ret tt (set_sel r sel (16 * sel) s)
  else if sel / 4 =? 0 then
    match r with
    | CS | SS => Panic "general protection"
    | _ => Ret tt (set_sel r sel 0 s)
    end
  else
    let d := rdn 8 (c_mem s) (P2V (gdtr_base (c_hw s) + 8 * (sel / 8))) in
    if (8 * (sel / 8) + 7 <=? gdtr_lim (c_hw s)) && (d_p d =? 1) then Ret tt (set_sel r sel (d_base d) s)
    else Panic "general protection".

(** *** Instructions *)

Definition cli : M core unit := modify (fun s => set_cflags (Z.ldiff (c_flags s) FL_IF) s).
(** [movw $v, %ax] and [xorw %ax, %ax] *)
Definition movw_ax (v : Z) : M core unit := modify (fun s => set_eax (c_eax s / 2 ^ 16 * 2 ^ 16 + u16 v) s).
Definition movl_eax (v : Z) : M core unit := modify (set_eax v).
Definition movl_esp (v : Z) : M core unit := modify (set_esp v).
(** [movw %ax, %r] *)
Definition movw_seg (r : seg) : M core unit := ax <- gets (fun s => u16 (c_eax s)) ;; load_seg r ax.
Definition orl_eax (v : Z) : M core unit := modify (fun s => set_eax (Z.lor (c_eax s) v) s).
(** [movl %cr0, %eax], [movl %eax, %cr0] and so on *)
Definition from_cr0 : M core unit := modify (fun s => set_eax (c_cr0 s) s).
Definition to_cr0 : M core unit := modify (fun s => set_cr0 (c_eax s) s).
Definition from_cr4 : M core unit := modify (fun s => set_eax (c_cr4 s) s).
Definition to_cr4 : M core unit := modify (fun s => set_cr4 (c_eax s) s).
Definition to_cr3 : M core unit := modify (fun s => set_hw (lcr3 (c_eax s) (c_hw s)) s).
(** [movb $v, %al; outb %al, $port] *)
Definition movb_al (v : Z) : M core unit := modify (fun s => set_eax (c_eax s / 2 ^ 8 * 2 ^ 8 + u8 v) s).
Definition outb_al (port : Z) : M core unit := modify (fun s => c_write port (u8 (c_eax s)) s).
(** [outw %ax, %dx] *)
Definition outw_ax (dx : Z) : M core unit := modify (fun s => c_write dx (u16 (c_eax s)) s).

(** [lgdt gdtdesc] of 16-bit code: the limit, and 24 bits of the base. *)
Definition lgdt16 (gdtdesc : Z) : M core unit :=
  lim <- load 2 DS (u16 gdtdesc) ;;
  base <- load 4 DS (u16 (gdtdesc + 2)) ;;
  modify (fun s =>
    let h := c_hw s in
    set_hw (mkHw lim (base mod 2 ^ 24) (idtr_lim h) (idtr_base h) (gs_base h) (tr_base h) (tr_lim h) (r_cr3 h)) s).

(** *** asm.h, and the table at the end of bootasm.S and entryother.S *)

Definition SEG_NULLASM : list Z := replicate 8 0.
Definition SEG_ASM (type base lim : Z) : list Z :=
  le_bytes 2 (Z.land (Z.shiftr lim 12) 0xffff) ++ le_bytes 2 (Z.land base 0xffff) ++
  [Z.land (Z.shiftr base 16) 0xff; Z.lor 0x90 type;
   Z.lor 0xC0 (Z.land (Z.shiftr lim 28) 0xf); Z.land (Z.shiftr base 24) 0xff].

(** [gdt] at address [gdt], and [gdtdesc] after it *)
Definition gdt_bytes : list Z :=
  SEG_NULLASM ++ SEG_ASM (Z.lor STA_X STA_R) 0x0 0xffffffff ++ SEG_ASM STA_W 0x0 0xffffffff.
Definition gdt_image (gdt : Z) : list Z :=
  gdt_bytes ++ le_bytes 2 (gdt + Z.of_nat (length gdt_bytes) - gdt - 1) ++ le_bytes 4 gdt.
Definition gdtdesc_of (gdt : Z) : Z := gdt + Z.of_nat (length gdt_bytes).

(** *** The code *)

(** What bootasm.S and entryother.S have in common: the first lines, the switch to protected
    mode and the segments after it. [xorw %ax, %ax] and [movw $0, %ax] leave the same %ax. *)
Definition zero_segs : M core unit :=
  cli ;;
  movw_ax 0 ;;
  movw_seg DS ;;
  movw_seg ES ;;
  movw_seg SS.
Definition to_protected (gdt : Z) : M core unit :=
  lgdt16 (gdtdesc_of gdt) ;;
  from_cr0 ;;
  orl_eax CR0_PE ;;
  to_cr0 ;;
  load_seg CS (Z.shiftl SEG_KCODE 3).
Definition protected_segs : M core unit :=
  movw_ax (Z.shiftl SEG_KDATA 3) ;;
  movw_seg DS ;;
  movw_seg ES ;;
  movw_seg SS ;;
  movw_ax 0 ;;
  movw_seg FS ;;
  movw_seg GS.

(** After a call that should not return. *)
Definition spin : M core unit :=
  movw_ax 0x8a00 ;;
  outw_ax 0x8a00 ;;
  movw_ax 0x8ae0 ;;
  outw_ax 0x8a00 ;;
  diverge.

Section Bootasm.
(** What the keyboard controller's status reads as, by the number of reads before. *)
Context (status : nat -> Z).
(** The labels, and the address after the call. *)
Context (start gdt bootmain after : Z).

(** [seta20.1] and [seta20.2]: wait until the controller is not busy. *)
Fixpoint seta20 (fuel : nat) : M core unit :=
  match fuel with
  | O => diverge
  | S f =>
      st <- gets (fun s => status (c_time s)) ;;
      modify c_tick ;;
      movb_al st ;;
      al <- gets (fun s => u8 (c_eax s)) ;;
      if Z.land al 0x2 =? 0 then ret tt else seta20 f
  end.

(** bootasm.S up to the call: the address that is called. *)
Definition bootasm (fuel : nat) : M core Z :=
  zero_segs ;;
  seta20 fuel ;;
  movb_al 0xd1 ;;
  outb_al 0x64 ;;
  seta20 fuel ;;
  movb_al 0xdf ;;
  outb_al 0x60 ;;
  to_protected gdt ;;
  protected_segs ;;
  movl_esp start ;;
  push_word after ;;
  ret bootmain.
End Bootasm.

(** *** entry.S *)

(** The lines that entry.S and entryother.S have in common. *)
Definition page_size_extension : M core unit := from_cr4 ;; orl_eax CR4_PSE ;; to_cr4.

Section Entry.
Context (entrypgdir stack main : Z).
Definition entry : M core Z :=
  page_size_extension ;;
  movl_eax (V2P entrypgdir) ;;
  to_cr3 ;;
  from_cr0 ;;
  orl_eax (Z.lor CR0_PG CR0_WP) ;;
  to_cr0 ;;
  movl_esp (u32 (stack + KSTACKSIZE)) ;;
  movl_eax main ;;
  gets c_eax.
End Entry.

(** *** entryother.S *)

Section Entryother.
Context (start gdt after : Z).
Definition entryother : M core Z :=
  zero_segs ;;
  to_protected gdt ;;
  protected_segs ;;
  page_size_extension ;;
  pgdir <- load 4 DS (start - 12) ;;
  movl_eax pgdir ;;
  to_cr3 ;;
  from_cr0 ;;
  orl_eax (Z.lor (Z.lor CR0_PE CR0_PG) CR0_WP) ;;
  to_cr0 ;;
  sp <- load 4 DS (start - 4) ;;
  movl_esp sp ;;
  f <- load 4 DS (start - 8) ;;
  push_word after ;;
  ret f.
End Entryother.

(** *** entrypgdir of main.c *)

Definition entrypgdir_entry (i : Z) : Z :=
  if i =? 0 then Z.lor (Z.lor (Z.lor 0 PTE_P) PTE_W) PTE_PS
  else if i =? Z.shiftr KERNBASE PDXSHIFT then Z.lor (Z.lor (Z.lor 0 PTE_P) PTE_W) PTE_PS
  else 0.
Definition entrypgdir_words : list Z := entrypgdir_entry <$> seqZ 0 NPDENTRIES.

(** ** The segments after the switch cover all addresses, and the kernel's code runs at the
    addresses for which it is linked. *)

Lemma has_lor a b c : has (Z.lor a b) c = has a c || has b c.
Proof.
  unfold has. rewrite Z.land_lor_distr_l. destruct (Z.eqb_spec (Z.land a c) 0) as [->|Ha]; [done|].
  simpl. destruct (Z.eqb_spec (Z.lor (Z.land a c) (Z.land b c)) 0) as [H|]; [|done].
  by apply Z.lor_eq_0_iff in H as [? _].
Qed.

Lemma P2V_low a : 0 <= a < 2 ^ 31 -> P2V a = KERNBASE + a.
Proof. intros H. unfold P2V, u32, KERNBASE. rewrite Z.mod_small; lia. Qed.

Lemma rd_bytes_slice m a n (i k : nat) :
  (i + k <= n)%nat -> rd_bytes m (a + Z.of_nat i) k = slice i k (rd_bytes m a n).
Proof.
  intros Hn. apply list_eq. intros j. destruct (decide (j < k)%nat) as [Hj|Hj].
  - rewrite slice_lookup by done. rewrite !rd_bytes_lookup by lia. f_equal. f_equal. lia.
  - rewrite !lookup_ge_None_2; [done| |rewrite length_rd_bytes; lia].
    rewrite length_slice; rewrite ?length_rd_bytes; lia.
Qed.

(** *** The table *)

(** The table of bootasm.S or entryother.S is in memory. *)
Record gdt_at (m : mem) (gdt : Z) : Prop := mkGdtAt {
  ga_addr : 0 <= gdt < 2 ^ 16 - 32;
  ga_bytes : rd_bytes m (P2V gdt) 30 = gdt_image gdt;
}.

Lemma gdt_at_word m gdt (i k : nat) :
  gdt_at m gdt -> (i + k <= 30)%nat ->
  rdn k m (P2V (gdt + Z.of_nat i)) = le_val (slice i k (gdt_image gdt)).
Proof.
  intros [Ha Hb] Hik. rewrite <- Hb, !P2V_low, Z.add_assoc by lia. unfold rdn.
  by rewrite (rd_bytes_slice _ _ 30).
Qed.

Lemma gdt_at_desc m gdt :
  gdt_at m gdt -> rdn 2 m (P2V (gdtdesc_of gdt)) = 23 /\ rdn 4 m (P2V (gdtdesc_of gdt + 2)) = gdt.
Proof.
  intros H. pose proof (ga_addr _ _ H). unfold gdtdesc_of. change (Z.of_nat (length gdt_bytes)) with 24.
  rewrite <- Z.add_assoc. change (24 + 2) with (Z.of_nat 26). change 24 with (Z.of_nat 24).
  rewrite (gdt_at_word m gdt 24 2 H), (gdt_at_word m gdt 26 4 H) by lia. unfold gdt_image.
  replace (gdt + Z.of_nat (length gdt_bytes) - gdt - 1) with 23 by (change (Z.of_nat (length gdt_bytes)) with 24; lia).
  split; [reflexivity|]. change (slice 26 4 _) with (le_bytes 4 gdt). rewrite le_val_le_bytes.
  apply Z.mod_small. lia.
Qed.

(** The code segment and the data segment of the table. *)
Definition flat_desc (type d : Z) : Prop :=
  d_p d = 1 /\ d_base d = 0 /\ d_limit d = 0xffffffff /\ d_type d = type /\ d_s d = 1 /\ d_dpl d = 0 /\ d_db d = 1.

Lemma gdt_at_segs m gdt :
  gdt_at m gdt ->
  flat_desc (Z.lor STA_X STA_R) (rdn 8 m (P2V (gdt + 8 * SEG_KCODE))) /\
  flat_desc STA_W (rdn 8 m (P2V (gdt + 8 * SEG_KDATA))).
Proof.
  intros H. change (8 * SEG_KCODE) with (Z.of_nat 8). change (8 * SEG_KDATA) with (Z.of_nat 16).
  rewrite !(gdt_at_word m gdt _ 8 H) by lia.
  change (slice 8 8 _) with (SEG_ASM (Z.lor STA_X STA_R) 0x0 0xffffffff).
  change (slice 16 8 _) with (SEG_ASM STA_W 0x0 0xffffffff).
  vm_compute. auto 20.
Qed.

(** *** The switch to protected mode *)

(** Paging is off. *)
Definition unpaged (s : core) : Prop := has (c_cr0 s) CR0_PG = false.

Lemma phys_unpaged s a : unpaged s -> phys s a = Some (u32 a).
Proof. unfold unpaged, phys. by intros ->. Qed.

Lemma u32_u32 x : u32 (u32 x) = u32 x.
Proof. apply Zmod_mod. Qed.

Lemma wp_load n r off (Q : Z -> core -> Prop) s p :
  phys s (linear r off s) = Some p -> Q (rdn n (c_mem s) (P2V p)) s -> wp (load n r off) Q s.
Proof. intros Hp HQ. unfold wp, load. by rewrite Hp. Qed.

Lemma wp_load_seg_real r sel (Q : unit -> core -> Prop) s :
  has (c_cr0 s) CR0_PE = false -> Q tt (set_sel r sel (16 * sel) s) -> wp (load_seg r sel) Q s.
Proof. intros Hp HQ. unfold wp, load_seg. by rewrite Hp. Qed.

Lemma wp_load_seg_null r sel (Q : unit -> core -> Prop) s :
  has (c_cr0 s) CR0_PE = true -> sel / 4 = 0 -> r <> CS -> r <> SS ->
  Q tt (set_sel r sel 0 s) -> wp (load_seg r sel) Q s.
Proof. intros Hp Hs H1 H2 HQ. unfold wp, load_seg. rewrite Hp, Hs. by destruct r. Qed.

Lemma wp_load_seg_flat r sel type gdt (Q : unit -> core -> Prop) s :
  has (c_cr0 s) CR0_PE = true -> 1 <= sel / 8 <= 2 -> gdtr_base (c_hw s) = gdt -> gdtr_lim (c_hw s) = 23 ->
  flat_desc type (rdn 8 (c_mem s) (P2V (gdt + 8 * (sel / 8)))) ->
  Q tt (set_sel r sel 0 s) -> wp (load_seg r sel) Q s.
Proof.
  intros Hp Hs Hb Hl (Hd & Hb0 & _) HQ. unfold wp, load_seg. rewrite Hp, Hb, Hl, Hd, Hb0. cbn [negb].
  assert (H4 : sel / 4 <> 0) by (pose proof (Z.div_mod sel 8); pose proof (Z.div_mod sel 4);
    pose proof (Z.mod_pos_bound sel 8); pose proof (Z.mod_pos_bound sel 4); lia).
  rewrite (proj2 (Z.eqb_neq (sel / 4) 0)) by done. by rewrite (proj2 (Z.leb_le (8 * (sel / 8) + 7) 23)) by lia.
Qed.

(** The state after [zero_segs]. *)
Lemma wp_zero_segs (Q : unit -> core -> Prop) s :
  has (c_cr0 s) CR0_PE = false ->
  Q tt (set_sel SS 0 0 (set_sel ES 0 0 (set_sel DS 0 0
    (set_eax (c_eax s / 2 ^ 16 * 2 ^ 16) (set_cflags (Z.ldiff (c_flags s) FL_IF) s))))) ->
  wp zero_segs Q s.
Proof.
  intros Hp HQ. unfold zero_segs, cli, movw_ax, movw_seg. apply wp_bind, wp_modify, wp_bind, wp_modify.
  assert (He : u16 (c_eax s / 2 ^ 16 * 2 ^ 16 + u16 0) = 0) by (unfold u16; rewrite Z.add_0_r; by apply Z.mod_mul).
  do 2 apply wp_bind. apply wp_gets. cbn [c_eax set_eax set_cflags]. rewrite He. apply wp_load_seg_real; [exact Hp|].
  do 2 apply wp_bind. apply wp_gets. cbn [c_eax set_eax set_cflags set_sel]. rewrite He.
  apply wp_load_seg_real; [exact Hp|].
  apply wp_bind, wp_gets. cbn [c_eax set_eax set_cflags set_sel]. rewrite He.
  apply wp_load_seg_real; [exact Hp|]. change (u16 0) with 0. by rewrite Z.add_0_r.
Qed.

(** After the switch: protected mode with flat segments, paging still off, and the rest as it
    was. *)
Record protected (gdt : Z) (s s' : core) : Prop := mkProtected {
  pr_cr0 : c_cr0 s' = Z.lor (c_cr0 s) CR0_PE;
  pr_sel : c_sel s' = mkSegs 8 16 16 16 0 0;
  pr_base : c_base s' = mkSegs 0 0 0 0 0 0;
  pr_gdtr : gdtr_base (c_hw s') = gdt /\ gdtr_lim (c_hw s') = 23;
  pr_flags : c_flags s' = c_flags s;
  pr_cr4 : c_cr4 s' = c_cr4 s;
  pr_mem : c_mem s' = c_mem s;
  pr_out : c_out s' = c_out s;
}.

Lemma pr_unpaged gdt s s' : protected gdt s s' -> unpaged s -> unpaged s'.
Proof. intros H Hu. unfold unpaged. rewrite (pr_cr0 _ _ _ H), has_lor, Hu. done. Qed.

Lemma linear_low r off s : sget r (c_base s) = 0 -> 0 <= off < 2 ^ 32 -> linear r off s = off.
Proof. intros Hb Ho. unfold linear. rewrite Hb. by apply Z.mod_small. Qed.

Lemma wp_to_protected gdt s :
  unpaged s -> sget DS (c_base s) = 0 -> gdt_at (c_mem s) gdt ->
  wp (to_protected gdt) (fun _ s' =>
    c_cr0 s' = Z.lor (c_cr0 s) CR0_PE /\ s_cs (c_sel s') = 8 /\ s_cs (c_base s') = 0 /\
    gdtr_base (c_hw s') = gdt /\ gdtr_lim (c_hw s') = 23 /\ c_flags s' = c_flags s /\
    c_cr4 s' = c_cr4 s /\ c_mem s' = c_mem s /\ c_out s' = c_out s) s.
Proof.
  intros Hu Hds Hg. pose proof (ga_addr _ _ Hg) as Ha. destruct (gdt_at_desc _ _ Hg) as [Hd1 Hd2].
  assert (Hgd : gdtdesc_of gdt = gdt + 24) by done.
  unfold to_protected, lgdt16. apply wp_bind, wp_bind.
  assert (Hl : forall x, 0 <= x < 2 ^ 16 -> phys s (linear DS (u16 x) s) = Some x).
  { intros x Hx. unfold u16. rewrite (Z.mod_small x) by lia. rewrite phys_unpaged, linear_low by (done || lia).
    f_equal. apply Z.mod_small. lia. }
  apply (wp_load 2 DS _ _ s (gdtdesc_of gdt)); [apply Hl; lia|]. rewrite Hd1.
  apply wp_bind, (wp_load 4 DS _ _ s (gdtdesc_of gdt + 2)); [apply Hl; lia|]. rewrite Hd2, (Z.mod_small gdt) by lia.
  unfold from_cr0, orl_eax, to_cr0. apply wp_modify. do 3 apply wp_bind, wp_modify.
  apply (wp_load_seg_flat CS (Z.shiftl SEG_KCODE 3) (Z.lor STA_X STA_R) gdt);
    [cbn; rewrite has_lor; apply orb_true_r|done|done|done|apply (gdt_at_segs _ _ Hg)|].
  cbn. destruct (c_sel s), (c_base s). done.
Qed.

Lemma wp_protected_segs gdt s :
  has (c_cr0 s) CR0_PE = true -> s_cs (c_sel s) = 8 -> s_cs (c_base s) = 0 ->
  gdtr_base (c_hw s) = gdt -> gdtr_lim (c_hw s) = 23 -> gdt_at (c_mem s) gdt ->
  wp protected_segs (fun _ s' =>
    c_cr0 s' = c_cr0 s /\ c_sel s' = mkSegs 8 16 16 16 0 0 /\ c_base s' = mkSegs 0 0 0 0 0 0 /\
    c_hw s' = c_hw s /\ c_flags s' = c_flags s /\
    c_cr4 s' = c_cr4 s /\ c_mem s' = c_mem s /\ c_out s' = c_out s) s.
Proof.
  intros Hp Hcs Hcb Hb Hl Hg. destruct (gdt_at_segs _ _ Hg) as [_ Hd]. unfold protected_segs, movw_ax, movw_seg.
  assert (He : forall x v, u16 (x / 2 ^ 16 * 2 ^ 16 + u16 v) = u16 v) by apply movw_low.
  apply wp_bind, wp_modify.
  do 3 (apply wp_bind, wp_bind, wp_gets; cbn [c_eax set_eax set_sel]; rewrite He;
    apply (wp_load_seg_flat _ _ STA_W gdt); [exact Hp|done|exact Hb|exact Hl|exact Hd|]).
  apply wp_bind, wp_modify. apply wp_bind, wp_bind, wp_gets. cbn [c_eax set_eax set_sel]. rewrite He.
  apply wp_load_seg_null; [exact Hp|done|done|done|].
  apply wp_bind, wp_gets. cbn [c_eax set_eax set_sel]. rewrite He.
  apply wp_load_seg_null; [exact Hp|done|done|done|].
  cbn. destruct (c_sel s), (c_base s). cbn in *. by subst.
Qed.

Lemma wp_switch {A} gdt (k : M core A) (Q : A -> core -> Prop) s :
  unpaged s -> sget DS (c_base s) = 0 -> gdt_at (c_mem s) gdt ->
  (forall s', protected gdt s s' -> wp k Q s') ->
  wp (to_protected gdt ;; protected_segs ;; k) Q s.
Proof.
  intros Hu Hd Hg HQ. eapply wp_seq; [by apply wp_to_protected|].
  intros [] s1 (Hc & Hcs & Hcb & Hb & Hl & Hf & H4 & Hm & Ho). rewrite <- Hm in Hg.
  eapply wp_seq; [apply (wp_protected_segs gdt); try done; rewrite Hc, has_lor; apply orb_true_r|].
  intros [] s2 (Hc2 & Hsel & Hbase & Hh & Hf2 & H42 & Hm2 & Ho2). apply HQ. split; congruence || (rewrite Hh; auto).
Qed.

(** *** entrypgdir *)

Record entrypgdir_at (m : mem) (e : Z) : Prop := mkEntrypgdirAt {
  ea_align : e mod PGSIZE = 0;
  ea_range : KERNBASE <= e < KERNBASE + 2 ^ 22;
  ea_words : forall i, 0 <= i < NPDENTRIES -> rdn 4 m (e + 4 * i) = entrypgdir_entry i;
}.

(** The addresses with entrypgdir: the first 4 Mbyte of memory at 0 and at KERNBASE. *)
Definition entry_map (a : Z) : option Z :=
  if a <? 2 ^ 22 then Some a
  else if (KERNBASE <=? a) && (a <? KERNBASE + 2 ^ 22) then Some (a - KERNBASE)
  else None.

(** Paging is on, with entrypgdir. *)
Record paged (e : Z) (s : core) : Prop := mkPaged {
  pa_pg : has (c_cr0 s) CR0_PG = true;
  pa_pse : has (c_cr4 s) CR4_PSE = true;
  pa_cr3 : r_cr3 (c_hw s) = V2P e;
}.

Lemma phys_entry e s a :
  paged e s -> entrypgdir_at (c_mem s) e -> is_u32 a -> phys s a = entry_map a.
Proof.
  intros [Hpg Hpse Hcr3] [Hal Hr Hw] Ha. unfold phys, is_u32, PGSIZE in *. rewrite Hpg, Hpse, Hcr3.
  pose proof (PDX_bound a) as Hb. pose proof (Z.div_mod a (2 ^ 22)) as Hdm.
  pose proof (Z.mod_pos_bound a (2 ^ 22)) as Hmb.
  assert (He : V2P e = e - KERNBASE) by (unfold V2P, u32; apply Z.mod_small; unfold KERNBASE in *; lia).
  assert (Hp : PTE_ADDR (V2P e) = e - KERNBASE).
  { rewrite PTE_ADDR_eq, He. unfold KERNBASE. rewrite Zminus_mod, Hal. change ((0 - 0x80000000 mod 4096) mod 4096) with 0. lia. }
  rewrite Hp, P2V_low by lia. replace (KERNBASE + (e - KERNBASE + 4 * PDX a)) with (e + 4 * PDX a) by lia.
  rewrite Hw by done. rewrite PDX_eq in * by done. unfold entry_map, entrypgdir_entry, PDXSHIFT.
  change (Z.shiftr KERNBASE 22) with 512. unfold KERNBASE in *.
  change (Z.lor (Z.lor (Z.lor 0 PTE_P) PTE_W) PTE_PS) with 131.
  destruct (Z.eqb_spec (a / 2 ^ 22) 0) as [H0|H0]; [|destruct (Z.eqb_spec (a / 2 ^ 22) 512) as [H5|H5]].
  - rewrite (proj2 (Z.ltb_lt a (2 ^ 22))) by lia.
    change (has 131 PTE_P) with true. change (has 131 PTE_PS) with true. change (131 / 2 ^ 22 * 2 ^ 22) with 0.
    cbn [negb andb]. f_equal. lia.
  - rewrite (proj2 (Z.ltb_ge a (2 ^ 22))), (proj2 (Z.leb_le _ a)), (proj2 (Z.ltb_lt a _)) by lia.
    change (has 131 PTE_P) with true. change (has 131 PTE_PS) with true. change (131 / 2 ^ 22 * 2 ^ 22) with 0.
    cbn [negb andb]. f_equal. lia.
  - rewrite (proj2 (Z.ltb_ge a (2 ^ 22))) by lia. change (has 0 PTE_P) with false. cbn [negb].
    destruct (Z.leb_spec 0x80000000 a); [|done]. rewrite (proj2 (Z.ltb_ge a _)) by lia. done.
Qed.

(** *** The three entries *)

Lemma wp_page_size_extension (Q : unit -> core -> Prop) s :
  (forall v, Q tt (set_cr4 (Z.lor (c_cr4 s) CR4_PSE) (set_eax v s))) -> wp page_size_extension Q s.
Proof.
  intros HQ. unfold page_size_extension, from_cr4, orl_eax, to_cr4.
  apply wp_bind, wp_modify, wp_bind, wp_modify, wp_modify. apply HQ.
Qed.

Lemma wp_seta20 status fuel (Q : unit -> core -> Prop) s j :
  (j < fuel)%nat -> Z.land (u8 (status (c_time s + j)%nat)) 0x2 = 0 ->
  (forall v t, Q tt (set_eax v (mkCpu (c_eax s) (c_esp s) (c_flags s) (c_cr0 s) (c_cr4 s) (c_sel s) (c_base s)
    (c_hw s) (c_mem s) (c_out s) t))) ->
  wp (seta20 status fuel) Q s.
Proof.
  revert j s. induction fuel as [|f IH]; intros j s Hj Hst HQ; [lia|]. cbn [seta20].
  unfold movb_al. apply wp_bind, wp_gets, wp_bind, wp_modify, wp_bind, wp_modify, wp_bind, wp_gets.
  assert (He : forall x v, u8 (x / 2 ^ 8 * 2 ^ 8 + u8 v) = u8 v).
  { intros x v. unfold u8. rewrite Z.add_comm, Z.mod_add by lia. apply Zmod_mod. }
  cbn [c_eax set_eax c_tick]. rewrite He. destruct (Z.eqb_spec (Z.land (u8 (status (c_time s))) 2) 0) as [_|Hne].
  - apply wp_ret. exact (HQ _ (S (c_time s))).
  - destruct j as [|j]; [by rewrite Nat.add_0_r in Hst|].
    apply (IH j); [lia| |intros v t; exact (HQ v t)]. cbn [c_time set_eax c_tick].
    replace (S (c_time s) + j)%nat with (c_time s + S j)%nat by lia. done.
Qed.

(** Interrupts are off. *)
Definition no_interrupts (s : core) : Prop := Z.land (c_flags s) FL_IF = 0.

Lemma ldiff_off x y : Z.land (Z.ldiff x y) y = 0.
Proof.
  apply Z.bits_inj'. intros n Hn. rewrite Z.land_spec, Z.ldiff_spec, Z.bits_0.
  destruct (Z.testbit x n), (Z.testbit y n); done.
Qed.

(** C25. The boot sector reaches C. A processor that starts bootasm.S in real mode, with the
    table of the boot sector in memory and a keyboard controller that becomes ready again, calls
    bootmain() in protected mode: all data and code segments have base 0, paging and interrupts are
    off, the stack grows down from the boot sector, the only memory written is the return address,
    and the A20 line was asked for in two writes to the ports of the controller. *)
Theorem bootasm_correct status start gdt bootmain after fuel s :
  has (c_cr0 s) CR0_PE = false -> unpaged s -> gdt_at (c_mem s) gdt -> 4 <= start < 2 ^ 16 ->
  (forall t, exists j, (j < fuel)%nat /\ Z.land (u8 (status (t + j)%nat)) 0x2 = 0) ->
  exists s', bootasm status start gdt bootmain after fuel s = Ret bootmain s' /\
    has (c_cr0 s') CR0_PE = true /\ unpaged s' /\ no_interrupts s' /\
    c_sel s' = mkSegs 8 16 16 16 0 0 /\ c_base s' = mkSegs 0 0 0 0 0 0 /\
    c_esp s' = start - 4 /\ c_mem s' = wrn 4 (c_mem s) (P2V (start - 4)) after /\
    c_out s' = c_out s ++ [(0x64, 0xd1); (0x60, 0xdf)].
Proof.
  intros Hpe Hu Hg Hst Hk.
  assert (Hb8 : forall x v, u8 (x / 2 ^ 8 * 2 ^ 8 + u8 v) = u8 v).
  { intros x v. unfold u8. rewrite Z.add_comm, Z.mod_add by lia. apply Zmod_mod. }
  cut (wp (bootasm status start gdt bootmain after fuel) (fun r s' => r = bootmain /\
    has (c_cr0 s') CR0_PE = true /\ unpaged s' /\ no_interrupts s' /\
    c_sel s' = mkSegs 8 16 16 16 0 0 /\ c_base s' = mkSegs 0 0 0 0 0 0 /\
    c_esp s' = start - 4 /\ c_mem s' = wrn 4 (c_mem s) (P2V (start - 4)) after /\
    c_out s' = c_out s ++ [(0x64, 0xd1); (0x60, 0xdf)]) s).
  { intros Hw. apply wp_run in Hw as (r & s' & Hr & -> & Hs'). eauto. }
  unfold bootasm, outb_al. apply wp_bind, wp_zero_segs; [done|].
  match goal with |- wp _ _ ?x => destruct (Hk (c_time x)) as (j & Hj & Hz) end.
  apply wp_bind, (wp_seta20 status fuel _ _ j Hj Hz). intros v1 t1.
  apply wp_bind, wp_modify, wp_bind, wp_modify.
  match goal with |- wp _ _ ?x => destruct (Hk (c_time x)) as (j2 & Hj2 & Hz2) end.
  apply wp_bind, (wp_seta20 status fuel _ _ j2 Hj2 Hz2). intros v2 t2.
  apply wp_bind, wp_modify, wp_bind, wp_modify.
  apply wp_switch; [exact Hu|cbn; by destruct (c_base s)|exact Hg|]. intros s1 Hs1.
  pose proof (pr_unpaged _ _ _ Hs1 Hu) as Hu1. destruct Hs1 as [Hc0 Hsel Hbase _ Hfl _ Hm Ho].
  cbn in Hc0, Hfl, Hm, Ho. rewrite !Hb8 in Ho. rewrite <- app_assoc in Ho.
  apply wp_bind, wp_modify, wp_bind. unfold wp, push_word.
  cbn [c_esp set_esp]. replace (u32 (start - 4)) with (start - 4) by (symmetry; apply Z.mod_small; lia).
  rewrite phys_unpaged by exact Hu1. rewrite linear_low; [|cbn; by rewrite Hbase|lia].
  replace (u32 (start - 4)) with (start - 4) by (symmetry; apply Z.mod_small; lia). cbn.
  split_and!; try done.
  - rewrite Hc0, has_lor. apply orb_true_r.
  - unfold no_interrupts. cbn. rewrite Hfl. apply ldiff_off.
  - by rewrite Hm.
Qed.

(** The witness's boot sector: the table 40 bytes after its start, in otherwise empty memory,
    and a controller that is busy at every other read. *)
Definition demo_gdt : Z := 0x7c28.
Definition demo_cpu (m : mem) : core :=
  mkCpu 0x1234 0 0x202 0x10 0 (mkSegs 0 0 0 0 0 0) (mkSegs 0 0 0 0 0 0)
    (mkHw 0xffff 0 0x3ff 0 0 0 0 0) m [] 0.
Definition demo_status (t : nat) : Z := if Nat.even t then 0x1e else 0x1c.

Lemma bootasm_correct_witness :
  let s := demo_cpu (wr_bytes ∅ (P2V demo_gdt) (gdt_image demo_gdt)) in
  exists s', bootasm demo_status 0x7c00 demo_gdt 0x7d3b 0x7c4d 2 s = Ret 0x7d3b s' /\
    has (c_cr0 s') CR0_PE = true /\ unpaged s' /\ no_interrupts s' /\
    c_sel s' = mkSegs 8 16 16 16 0 0 /\ c_base s' = mkSegs 0 0 0 0 0 0 /\
    c_esp s' = 0x7c00 - 4 /\ c_mem s' = wrn 4 (c_mem s) (P2V (0x7c00 - 4)) 0x7c4d /\
    c_out s' = c_out s ++ [(0x64, 0xd1); (0x60, 0xdf)].
Proof.
  intros s. apply (bootasm_correct demo_status 0x7c00 demo_gdt 0x7d3b 0x7c4d 2 s).
  - reflexivity.
  - reflexivity.
  - split; [unfold demo_gdt; lia|]. vm_compute. reflexivity.
  - lia.
  - intros t. destruct (Nat.even t) eqn:E.
    + exists 1%nat. split; [lia|]. unfold demo_status. rewrite Nat.even_add, E. reflexivity.
    + exists 0%nat. split; [lia|]. unfold demo_status. rewrite Nat.add_0_r, E. reflexivity.
Defined.

(** C13. The kernel reaches main(). A processor that starts entry.S in protected mode with flat
    segments and paging off jumps to main() on the kernel's first stack, with paging on: memory
    is unchanged, the first 4 Mbyte are mapped at 0, where entry.S still runs, and at KERNBASE,
    where the kernel is linked, and no other address is mapped. *)
Theorem entry_correct e stack main s :
  unpaged s -> entrypgdir_at (c_mem s) e -> is_u32 (stack + KSTACKSIZE) ->
  exists s', entry e stack main s = Ret main s' /\
    c_esp s' = stack + KSTACKSIZE /\ c_mem s' = c_mem s /\ c_sel s' = c_sel s /\ c_base s' = c_base s /\
    has (c_cr0 s') CR0_PE = has (c_cr0 s) CR0_PE /\
    forall a, is_u32 a -> phys s' a = entry_map a.
Proof.
  intros Hu He Hsp.
  cut (wp (entry e stack main) (fun r s' => r = main /\
    c_esp s' = stack + KSTACKSIZE /\ c_mem s' = c_mem s /\ c_sel s' = c_sel s /\ c_base s' = c_base s /\
    has (c_cr0 s') CR0_PE = has (c_cr0 s) CR0_PE /\ forall a, is_u32 a -> phys s' a = entry_map a) s).
  { intros Hw. apply wp_run in Hw as (r & s' & Hr & -> & Hs'). eauto. }
  unfold entry. apply wp_bind, wp_page_size_extension. intros v.
  do 7 apply wp_bind, wp_modify. apply wp_gets. cbn [c_eax set_eax].
  split_and!; try done.
  - apply Z.mod_small. exact Hsp.
  - cbn. rewrite has_lor. apply orb_false_r.
  - intros a Ha. apply (phys_entry e); [|done|done].
    split; cbn; rewrite ?has_lor, ?orb_true_r; done.
Qed.

(** entrypgdir at 0x8010a000, where the linker of this kernel may put it. *)
Definition demo_entrypgdir : Z := 0x8010a000.
Definition demo_entry_mem : mem := wr_bytes ∅ demo_entrypgdir (entrypgdir_words ≫= le_bytes 4).

Lemma demo_entrypgdir_at : entrypgdir_at demo_entry_mem demo_entrypgdir.
Proof.
  split; [reflexivity|unfold demo_entrypgdir, KERNBASE; lia|]. intros i Hi.
  assert (H : forallb (fun i => rdn 4 demo_entry_mem (demo_entrypgdir + 4 * i) =? entrypgdir_entry i)
    (seqZ 0 NPDENTRIES) = true) by (vm_compute; reflexivity).
  rewrite forallb_forall in H. apply Z.eqb_eq, H, list_elem_of_In, elem_of_seqZ. lia.
Qed.

Lemma entry_correct_witness :
  let s := demo_cpu demo_entry_mem in
  exists s', entry demo_entrypgdir 0x8010b5c0 0x80103000 s = Ret 0x80103000 s' /\
    c_esp s' = 0x8010b5c0 + KSTACKSIZE /\ c_mem s' = c_mem s /\ c_sel s' = c_sel s /\ c_base s' = c_base s /\
    has (c_cr0 s') CR0_PE = has (c_cr0 s) CR0_PE /\
    forall a, is_u32 a -> phys s' a = entry_map a.
Proof.
  apply (entry_correct demo_entrypgdir 0x8010b5c0 0x80103000 (demo_cpu demo_entry_mem)).
  - reflexivity.
  - exact demo_entrypgdir_at.
  - unfold is_u32, KSTACKSIZE. lia.
Defined.

(** *** entryother.S *)

(** What startothers() leaves below the code at [start]. *)
Record entry_words (m : mem) (start e sp f : Z) : Prop := mkEntryWords {
  ew_start : 12 <= start < 2 ^ 16;
  ew_pgdir : rdn 4 m (P2V (start - 12)) = V2P e;
  ew_stack : rdn 4 m (P2V (start - 4)) = sp;
  ew_enter : rdn 4 m (P2V (start - 8)) = f;
}.

(** A processor that has called into C with the page table [e] and the stack [sp]. *)
Record in_c (e sp : Z) (s : core) : Prop := mkInC {
  ic_paged : paged e s;
  ic_if : no_interrupts s;
  ic_sel : c_sel s = mkSegs 8 16 16 16 0 0;
  ic_base : c_base s = mkSegs 0 0 0 0 0 0;
  ic_esp : c_esp s = sp - 4;
}.

Lemma wp_entryother start gdt after e sp f s :
  has (c_cr0 s) CR0_PE = false -> unpaged s -> gdt_at (c_mem s) gdt ->
  entry_words (c_mem s) start e sp f -> entrypgdir_at (c_mem s) e ->
  KERNBASE + 4 <= sp <= KERNBASE + 2 ^ 22 ->
  wp (entryother start gdt after) (fun r s' => r = f /\ in_c e sp s' /\
    c_mem s' = wrn 4 (c_mem s) (sp - 4) after) s.
Proof.
  intros Hpe Hu Hg [Hst Hwd Hws Hwe] He Hsp.
  unfold entryother. apply wp_bind, wp_zero_segs; [done|].
  apply wp_switch; [exact Hu|cbn; by destruct (c_base s)|exact Hg|]. intros s1 Hs1.
  pose proof (pr_unpaged _ _ _ Hs1 Hu) as Hu1. destruct Hs1 as [Hc0 Hsel Hbase _ Hfl _ Hm Ho].
  cbn in Hc0, Hfl, Hm. apply wp_bind, wp_page_size_extension. intros v.
  apply wp_bind, (wp_load _ _ _ _ _ (start - 12)).
  { rewrite phys_unpaged by exact Hu1. rewrite linear_low; [|cbn; by rewrite Hbase|lia].
    f_equal. apply Z.mod_small. lia. }
  cbn [c_mem set_cr4 set_eax]. rewrite Hm, Hwd. do 5 apply wp_bind, wp_modify.
  match goal with |- wp _ _ ?x => set (s2 := x) end.
  assert (Hpa : paged e s2) by (split; cbn; rewrite ?has_lor, ?orb_true_r; done).
  assert (Hem : entrypgdir_at (c_mem s2) e) by (cbn; by rewrite Hm).
  assert (Hlow : forall off, 0 <= off < 2 ^ 22 -> phys s2 (linear DS off s2) = Some off).
  { intros off Ho'. rewrite linear_low; [|cbn; by rewrite Hbase|lia].
    rewrite (phys_entry e) by (done || (unfold is_u32; lia)). unfold entry_map. by rewrite (proj2 (Z.ltb_lt _ _)) by lia. }
  apply wp_bind, (wp_load _ _ _ _ _ (start - 4)); [apply Hlow; lia|]. apply wp_bind, wp_modify.
  apply wp_bind, (wp_load _ _ _ _ _ (start - 8)); [apply Hlow; lia|].
  cbn [c_mem set_esp]. change (c_mem s2) with (c_mem s1). rewrite Hm, Hws, Hwe.
  apply wp_bind. unfold wp, push_word. cbn [c_esp set_esp].
  replace (u32 (sp - 4)) with (sp - 4) by (symmetry; apply Z.mod_small; unfold KERNBASE in *; lia).
  rewrite linear_low; [|cbn; by rewrite Hbase|unfold KERNBASE in *; lia].
  rewrite (phys_entry e); [|split; apply Hpa|exact Hem|unfold is_u32, KERNBASE in *; lia]. unfold entry_map.
  rewrite (proj2 (Z.ltb_ge _ _)), (proj2 (Z.leb_le _ _)), (proj2 (Z.ltb_lt _ _)) by (unfold KERNBASE in *; lia).
  cbn [andb ret]. split; [done|]. rewrite P2V_low by (unfold KERNBASE in *; lia).
  replace (KERNBASE + (sp - 4 - KERNBASE)) with (sp - 4) by lia.
  split; [|cbn; by rewrite Hm]. split; [split; apply Hpa| |exact Hsel|exact Hbase|reflexivity].
  unfold no_interrupts. cbn. rewrite Hfl. apply ldiff_off.
Qed.
