(* ===== verification/Main.v ===== *)
(** main.c: how the first processor starts the others ([startothers]), and what each of them
    does until it runs the scheduler ([mpenter], [mpmain]).

    The other processors share the memory and run entryother.S of Start.v. The first one only
    reads [c->started] while another comes up; at which of these reads the other one is done is a
    parameter, as are the registers of a processor after a reset, the registers of the local
    APICs, and what the linker decides: the addresses of symbols and the image of entryother.S. *)

From S2P Require Export Start Lapic.

Open Scope Z_scope.
Open Scope kernel_scope.

(** *** Start-up messages *)

(** What a processor has received through the interrupt command register: the register's upper
    half, whether the processor waits for a start-up message, and the page where it started. *)
Record ipi := mkIpi { i_hi : Z; i_wait : bool; i_vec : option Z }.

(** A write of the first processor, as the processor [apicid] sees it: an INIT message resets it,
    the first STARTUP message after that starts it, a later one is ignored. *)
Definition ipi_step (apicid : Z) (x : ipi) (w : lwrite) : ipi :=
  match w with
  | LPort _ _ => x
  | LReg i v =>
      if i =? ICRHI then mkIpi v (i_wait x) (i_vec x)
      else if (i =? ICRLO) && (Z.shiftr (i_hi x) 24 =? apicid) then
        let mode := Z.land v 0x700 in
        if (mode =? INIT) && has v ASSERT then mkIpi (i_hi x) true None
        else if (mode =? STARTUP) && i_wait x then mkIpi (i_hi x) false (Some (Z.land v 0xff))
        else x
      else x
  end.
Definition startup_vector (out : list lwrite) (apicid : Z) : option Z :=
  i_vec (foldl (ipi_step apicid) (mkIpi 0 false None) out).

(** *** Another processor *)

Definition cpu_started : Z := 168.
Definition sizeof_cpu : Z := 188.

(** A processor and what it has done to its local APIC. *)
Record ap := mkAp { ap_cpu : core; ap_lst : lst }.

Definition on_cpu {A} (m : M core A) : M ap A := lift ap_cpu (fun c s => mkAp c (ap_lst s)) m.
Definition on_lst {A} (m : M lst A) : M ap A := lift ap_lst (fun l s => mkAp (ap_cpu s) l) m.

Section Main.
(** The end of the kernel, what mpinit() found, and the local APIC of each processor. *)
Context (kend : Z) (mp : mpst) (lapics : Z -> nat -> Z -> Z).
(** Symbols of the kernel. *)
Context (cpus idt kpgdir entrypgdir mpenter_addr : Z).
(** The image of entryother.S, and in it [gdt] and the address after the call. *)
Context (entryother_start entryother_size gdt_off after_off : Z).
(** The registers of a processor after a reset, and the number of reads of [c->started] before
    it is set. *)
Context (reset : Z -> core) (slow : Z -> nat).
(** How often a loop may read a register that others change. *)
Context (fuel : nat).

Definition cpu_at (k : Z) : Z := cpus + sizeof_cpu * k.

(** [cpunum()] of processor [k], and seginit() *)
Definition cpunum_on (k : Z) : M ap Z :=
  fl <- on_cpu (gets c_flags) ;;
  on_lst (cpunum mp (lapics k) fl).
Definition seginit_on (k : Z) : M ap unit :=
  n <- cpunum_on k ;;
  on_cpu (modify (fun s =>
    let '(h, m) := seginit (cpu_at n) (c_hw s) (c_mem s) in
    set_sel GS (Z.shiftl SEG_KCPU 3) (gs_base h) (set_hw h (set_cmem m s)))).

(** mpmain() up to the call of scheduler(). The message is a matter of the console. *)
Definition mpmain (k : Z) : M ap unit :=
  n <- cpunum_on k ;;
  on_cpu (modify (fun s => set_hw (idtinit idt (c_hw s)) s)) ;;
  c <- on_cpu (gets (fun s => rdn 4 (c_mem s) (gs_base (c_hw s)))) ;;
  on_cpu (modify (fun s => set_cmem (wrn 4 (c_mem s) (c + cpu_started) 1) s)).

Definition mpenter (k : Z) : M ap unit :=
  on_cpu (modify (fun s => set_hw (switchkvm kpgdir (c_hw s)) s)) ;;
  seginit_on k ;;
  on_lst (lapicinit mp (lapics k) fuel) ;;
  mpmain k.

(** Processor [k] from a start-up message on: entryother.S at [start], and the function that it
    calls. *)
Definition ap_boot (k start : Z) : M ap unit :=
  f <- on_cpu (entryother start (start + gdt_off) (start + after_off)) ;;
  if f =? mpenter_addr then mpenter k else diverge.

(** *** startothers() *)

(** The allocator with the memory, the local APIC, and the processors that run the scheduler. *)
Record sst := mkSst { so_k : kst; so_l : lst; so_aps : list (Z * ap) }.

Definition so_mem (s : sst) : mem := km (so_k s).
Definition so_set_mem (m : mem) (s : sst) : sst := mkSst (set_km m (so_k s)) (so_l s) (so_aps s).
Definition in_kalloc {A} (m : M kst A) : M sst A := lift so_k (fun k s => mkSst k (so_l s) (so_aps s)) m.
Definition in_lapic {A} (m : M lst A) : M sst A :=
  lift (fun s => l_set_mem (so_mem s) (so_l s))
    (fun l s => mkSst (set_km (l_mem l) (so_k s)) l (so_aps s)) m.
Definition store (a v : Z) : M sst unit := modify (fun s => so_set_mem (wr32 (so_mem s) a v) s).

Definition apicid (k : Z) : Z := apicids mp !!! Z.to_nat k.

(** Processor [k] comes up, if it was told to. *)
Definition ap_runs (k : Z) : M sst unit := fun s =>
  match startup_vector (l_out (so_l s)) (apicid k) with
  | None => Ret tt s
  | Some v =>
      match ap_boot k (v * PGSIZE) (mkAp (set_cmem (so_mem s) (reset k)) (mkLst [] 0 ∅ 0)) with
      | Ret _ a => Ret tt (mkSst (set_km (c_mem (ap_cpu a)) (so_k s)) (so_l s) (so_aps s ++ [(k, a)]))
      | _ => Ret tt s
      end
  end.

(** [while(c->started == 0);] after [j] reads *)
Fixpoint wait_started (f : nat) (j : nat) (k : Z) : M sst unit :=
  match f with
  | O => diverge
  | S f' =>
      v <- gets (fun s => rd32 (so_mem s) (cpu_at k + cpu_started)) ;;
      if negb (v =? 0) then ret tt else
      when (Nat.eqb j (slow k)) (ap_runs k) ;;
      wait_started f' (S j) k
  end.

(** The body of the loop of startothers(); [bsp] is the number of the processor that runs it,
    [eflags] its flags. *)
Definition startother (bsp eflags code k : Z) : M sst unit :=
  n <- in_lapic (cpunum mp (lapics bsp) eflags) ;;
  if k =? n then ret tt else
  stack <- in_kalloc kalloc ;;
  store (code - 4) (stack + KSTACKSIZE) ;;
  store (code - 8) mpenter_addr ;;
  store (code - 12) (V2P entrypgdir) ;;
  in_lapic (lapicstartap (apicid k) (V2P code)) ;;
  wait_started fuel 0 k.

Definition startothers (bsp eflags : Z) : M sst unit :=
  let code := P2V 0x7000 in
  modify (fun s => so_set_mem (StringC.memmove (so_mem s) code entryother_start entryother_size) s) ;;
  for_range (Z.to_nat (ncpu mp)) 0 (startother bsp eflags code).
End Main.

(** ** Every processor comes up, on a stack of its own. *)

(** *** Messages *)

(** What lapicstartap() writes. *)
Definition startup_msgs (id addr : Z) : list lwrite :=
  let hi := LReg ICRHI (u32 (Z.shiftl id 24)) in
  let startup := LReg ICRLO (u32 (Z.lor STARTUP (Z.shiftr addr 12))) in
  [LPort CMOS_PORT 0xF; LPort (CMOS_PORT + 1) 0x0A; hi;
   LReg ICRLO (u32 (Z.lor (Z.lor INIT LEVEL) ASSERT)); LReg ICRLO (u32 (Z.lor INIT LEVEL));
   hi; startup; hi; startup].

Lemma ipi_to_me id x v :
  Z.shiftr (i_hi x) 24 = id ->
  ipi_step id x (LReg ICRLO v) =
    if (Z.land v 0x700 =? INIT) && has v ASSERT then mkIpi (i_hi x) true None
    else if (Z.land v 0x700 =? STARTUP) && i_wait x then mkIpi (i_hi x) false (Some (Z.land v 0xff))
    else x.
Proof. intros H. unfold ipi_step. rewrite H, !Z.eqb_refl. reflexivity. Qed.

Lemma startup_received out id :
  0 <= id < 256 -> startup_vector (out ++ startup_msgs id 0x7000) id = Some 7.
Proof.
  intros Hid. unfold startup_vector. rewrite foldl_app. set (x := foldl _ _ out). clearbody x.
  unfold startup_msgs. set (hi := u32 (Z.shiftl id 24)).
  assert (Hsh : Z.shiftr hi 24 = id).
  { subst hi. unfold u32. rewrite Z.shiftl_mul_pow2, Z.mod_small, Z.shiftr_div_pow2, Z.div_mul by lia. done. }
  clearbody hi.
  assert (Hinit : forall w v, ipi_step id (mkIpi hi w v) (LReg ICRLO (u32 (Z.lor (Z.lor INIT LEVEL) ASSERT)))
    = mkIpi hi true None) by (intros; by rewrite ipi_to_me).
  assert (Hdeassert : ipi_step id (mkIpi hi true None) (LReg ICRLO (u32 (Z.lor INIT LEVEL))) = mkIpi hi true None)
    by (by rewrite ipi_to_me).
  assert (Hstart : ipi_step id (mkIpi hi true None) (LReg ICRLO (u32 (Z.lor STARTUP (Z.shiftr 0x7000 12))))
    = mkIpi hi false (Some 7)) by (by rewrite ipi_to_me).
  assert (Hagain : forall v, ipi_step id (mkIpi hi false v) (LReg ICRLO (u32 (Z.lor STARTUP (Z.shiftr 0x7000 12))))
    = mkIpi hi false v) by (intros; by rewrite ipi_to_me).
  assert (Hhi : forall y, ipi_step id y (LReg ICRHI hi) = mkIpi hi (i_wait y) (i_vec y)) by done.
  assert (Hsame : forall w v, ipi_step id (mkIpi hi w v) (LReg ICRHI hi) = mkIpi hi w v) by done.
  cbn [foldl]. rewrite (Hhi (ipi_step id (ipi_step id x (LPort _ _)) (LPort _ _))), Hinit, Hdeassert.
  by rewrite Hsame, Hstart, Hsame, Hagain.
Qed.

(** *** The local APIC *)

(** The processors have different numbers of their own, and processor [k]'s local APIC tells it
    its own. *)
Record apics_ok (mp : mpst) (lapics : Z -> nat -> Z -> Z) (fuel : nat) : Prop := mkApicsOk {
  ap_lapic : mp_lapic mp <> 0;
  ap_ncpu : 0 <= ncpu mp <= NCPU;
  ap_ids : NoDup (take (Z.to_nat (ncpu mp)) (apicids mp));
  ap_len : length (apicids mp) = Z.to_nat NCPU;
  ap_byte : Forall is_byte (apicids mp);
  ap_self : forall k t, 0 <= k < ncpu mp -> Z.shiftr (lapics k t ID) 24 = apicids mp !!! Z.to_nat k;
  ap_delivers : forall k t, exists j, (j < fuel)%nat /\ Z.land (lapics k (t + j)%nat ICRLO) DELIVS = 0;
}.

Lemma wp_cpunum mp lapics fuel k eflags (Q : Z -> lst -> Prop) l :
  apics_ok mp lapics fuel -> 0 <= k < ncpu mp ->
  (forall l', l_out l' = l_out l -> l_mem l' = l_mem l -> Q k l') ->
  wp (cpunum mp (lapics k) eflags) Q l.
Proof.
  intros Ha Hk HQ. pose proof (ap_ncpu _ _ _ Ha) as Hn. pose proof (ap_len _ _ _ Ha) as Hlen.
  unfold cpunum. rewrite (proj2 (Z.eqb_neq _ _) (ap_lapic _ _ _ Ha)).
  apply (wp_seq _ _ (fun _ l1 => l_out l1 = l_out l /\ l_mem l1 = l_mem l)).
  { destruct (negb _); [by apply wp_modify|by apply wp_ret]. }
  intros [] l1 [Ho Hm]. apply wp_bind. unfold lapicr. apply wp_bind, wp_gets, wp_bind, wp_modify, wp_ret.
  rewrite (ap_self _ _ _ Ha) by done.
  destruct (lookup_lt_is_Some_2 (apicids mp) (Z.to_nat k)) as [id Hid]; [lia|].
  rewrite (list_lookup_total_correct _ _ _ Hid). eapply wp_ret_eq.
  - apply (cpunum_loop_finds mp _ 0 (Z.to_nat k)); [lia|lia|lia|done|]. intros j Hj Hj'.
    pose proof (ap_ids _ _ _ Ha) as Hnd. apply (NoDup_lookup _ j (Z.to_nat k) id) in Hnd; [lia| |].
    + by rewrite lookup_take_lt by lia.
    + by rewrite lookup_take_lt by lia.
  - rewrite Z2Nat.id by lia. by apply HQ.
Qed.

Lemma wp_wait_delivery lapic fuel j l :
  (j < fuel)%nat -> Z.land (lapic (l_time l + j)%nat ICRLO) DELIVS = 0 ->
  wp (wait_delivery lapic fuel) (fun _ _ => True) l.
Proof.
  revert j l. induction fuel as [|f IH]; intros j l Hj Hd; [lia|]. cbn [wait_delivery]. unfold lapicr.
  apply wp_bind, wp_bind, wp_gets, wp_bind, wp_modify, wp_ret.
  destruct (Z.eqb_spec (Z.land (lapic (l_time l) ICRLO) DELIVS) 0) as [_|Hne]; [by apply wp_ret|].
  destruct j as [|j]; [by rewrite Nat.add_0_r in Hd|]. apply (IH j); [lia|]. cbn.
  replace (S (l_time l + j)) with (l_time l + S j)%nat by lia. done.
Qed.

Lemma wp_lapicinit mp lapics fuel k l :
  apics_ok mp lapics fuel -> wp (lapicinit mp (lapics k) fuel) (fun _ _ => True) l.
Proof.
  intros Ha. unfold lapicinit. rewrite (proj2 (Z.eqb_neq _ _) (ap_lapic _ _ _ Ha)). unfold lapicw.
  do 6 apply wp_bind, wp_modify. unfold lapicr. apply wp_bind, wp_bind, wp_gets, wp_bind, wp_modify, wp_ret.
  apply (wp_seq _ _ (fun _ _ => True)).
  { destruct (_ <=? _); [by apply wp_modify|by apply wp_ret]. }
  intros [] l1 _. do 6 apply wp_bind, wp_modify.
  match goal with |- wp _ _ ?x => destruct (ap_delivers _ _ _ Ha k (l_time x)) as (j & Hj & Hd) end.
  eapply wp_seq; [by apply (wp_wait_delivery _ _ j)|]. intros [] l2 _. by apply wp_modify.
Qed.

Lemma wp_lift {St T A} (get : T -> St) (set : St -> T -> T) (m : M St A) (Q : A -> T -> Prop) t :
  wp m (fun a s => Q a (set s t)) (get t) -> wp (lift get set m) Q t.
Proof. unfold wp, lift. by destruct (m (get t)). Qed.

Lemma Forall2_impl_elem {A B} (R S : A -> B -> Prop) l k :
  Forall2 R l k -> (forall x y, x ∈ l -> R x y -> S x y) -> Forall2 S l k.
Proof. induction 1; intros HS; constructor; [apply HS; set_solver|]. apply IHForall2. intros. apply HS; set_solver. Qed.

(** *** A processor that comes up *)

Lemma wp_on_lst {A} (m : M lst A) (P : A -> lst -> Prop) (Q : A -> ap -> Prop) s :
  wp m P (ap_lst s) -> (forall r l, P r l -> Q r (mkAp (ap_cpu s) l)) -> wp (on_lst m) Q s.
Proof. intros Hm HQ. apply wp_lift. eapply wp_mono; [exact Hm|]. intros r l. apply HQ. Qed.

Lemma seginit_frame c h m b :
  0 <= c -> c + 188 <= 2 ^ 32 -> ~ (c <= b < c + sizeof_cpu) -> rd (seginit c h m).2 b = rd m b.
Proof.
  intros H0 Hc Hb. destruct (seginit_eq c h m H0 Hc) as [-> _]. unfold seginit_gdt, set_gdt, sizeof_cpu in *.
  cbn [snd]. rewrite !rd_wrn_ne; [done|..]; unfold cpu_cpu, cpu_gdt, SEG_KCODE, SEG_KDATA, SEG_UCODE, SEG_UDATA, SEG_KCPU; lia.
Qed.

Section Started.
Context (kend : Z) (mp : mpst) (lapics : Z -> nat -> Z -> Z).
Context (cpus idt kpgdir entrypgdir mpenter_addr : Z).
Context (entryother_start entryother_size gdt_off after_off : Z).
Context (reset : Z -> core) (slow : Z -> nat).
Context (fuel : nat).
Local Notation at_cpu := (cpu_at cpus).

(** Where the kernel is: below 4 Mbyte, with cpus[] and entrypgdir apart, and with an image of
    entryother.S of at most a page. *)
Record layout : Prop := mkLayout {
  lo_end : KERNLINK <= kend <= KERNBASE + 2 ^ 22;
  lo_cpus : KERNLINK <= cpus /\ cpus + sizeof_cpu * NCPU <= kend;
  lo_pgdir : KERNLINK <= entrypgdir /\ entrypgdir + PGSIZE <= kend;
  lo_apart : cpus + sizeof_cpu * NCPU <= entrypgdir \/ entrypgdir + PGSIZE <= cpus;
  lo_image : KERNLINK <= entryother_start /\ gdt_off + 30 <= entryother_size <= PGSIZE;
  lo_gdt : 0 <= gdt_off;
  lo_words : is_u32 mpenter_addr /\ is_u32 idt;
}.
Context (Hlay : layout) (Hap : apics_ok mp lapics fuel).

(** Processor [k] is up, with memory [m]: on the stack page [p], with the kernel's page table, its own struct cpu
    and the kernel's gates, and interrupts off. *)
Record up (k p : Z) (m : mem) (a : ap) : Prop := mkUp {
  up_esp : c_esp (ap_cpu a) = p + KSTACKSIZE - 4;
  up_cr3 : r_cr3 (c_hw (ap_cpu a)) = V2P kpgdir;
  up_segs : segs_set (at_cpu k) (c_hw (ap_cpu a)) m;
  up_cpu : rdn 4 m (gs_base (c_hw (ap_cpu a))) = at_cpu k;
  up_idt : idtr_base (c_hw (ap_cpu a)) = idt;
  up_if : no_interrupts (ap_cpu a);
}.

Lemma cpu_at_range k : 0 <= k < ncpu mp -> cpus <= at_cpu k /\ at_cpu k + sizeof_cpu <= cpus + sizeof_cpu * NCPU.
Proof. intros Hk. pose proof (ap_ncpu _ _ _ Hap). unfold cpu_at, sizeof_cpu, NCPU in *. lia. Qed.

Lemma cpu_at_u32 k : 0 <= k < ncpu mp -> 0 <= at_cpu k /\ at_cpu k + 188 <= 2 ^ 32.
Proof.
  intros Hk. pose proof (cpu_at_range k Hk). pose proof (lo_cpus Hlay). pose proof (lo_end Hlay).
  unfold sizeof_cpu, KERNLINK, KERNBASE, EXTMEM in *. lia.
Qed.

(** The state of the processor when mpenter() has set up its registers and memory. *)
Lemma wp_mpenter k p s :
  0 <= k < ncpu mp -> c_esp (ap_cpu s) = p + KSTACKSIZE - 4 -> no_interrupts (ap_cpu s) ->
  wp (mpenter mp lapics cpus idt kpgdir fuel k) (fun _ s' =>
    up k p (c_mem (ap_cpu s')) s' /\
    rd32 (c_mem (ap_cpu s')) (at_cpu k + cpu_started) = 1 /\
    forall a, ~ (at_cpu k <= a < at_cpu k + sizeof_cpu) -> rd (c_mem (ap_cpu s')) a = rd (c_mem (ap_cpu s)) a) s.
Proof.
  intros Hk Hesp Hif. destruct (cpu_at_u32 k Hk) as [H0 Hc].
  unfold mpenter, on_cpu. apply wp_bind, wp_lift, wp_modify.
  unfold seginit_on, cpunum_on, on_cpu. apply wp_bind, wp_bind, wp_bind, wp_lift, wp_gets, wp_lift.
  apply (wp_cpunum mp lapics fuel k); [exact Hap|exact Hk|]. intros l1 _ _. apply wp_lift, wp_modify.
  cbn [ap_cpu ap_lst c_hw set_hw c_mem]. set (h0 := switchkvm kpgdir (c_hw (ap_cpu s))).
  destruct (seginit_eq (at_cpu k) h0 (c_mem (ap_cpu s)) H0 Hc) as (Heq & Hgb & Hgs).
  pose proof (seginit_frame (at_cpu k) h0 (c_mem (ap_cpu s))) as Hfr.
  destruct (seginit (at_cpu k) h0 (c_mem (ap_cpu s))) as [h1 m1] eqn:Es.
  destruct (seginit_sets _ _ _ _ _ H0 Hc Es) as (_ & Hcpu & _). cbn [fst snd] in *.
  assert (Hl1 : gdtr_lim h1 = sizeof_gdt - 1 /\ r_cr3 h1 = V2P kpgdir) by (unfold seginit in Es; by simplify_eq/=).
  apply wp_bind, (wp_on_lst _ (fun _ _ => True)); [by apply (wp_lapicinit mp lapics fuel k)|]. intros [] l2 _.
  unfold mpmain, cpunum_on, on_cpu. apply wp_bind, wp_bind, wp_lift, wp_gets, wp_lift.
  apply (wp_cpunum mp lapics fuel k); [exact Hap|exact Hk|]. intros l3 _ _.
  apply wp_bind, wp_lift, wp_modify, wp_bind, wp_lift, wp_gets, wp_lift, wp_modify.
  cbn [ap_cpu c_hw set_hw c_mem set_cmem set_sel idtinit lidt gs_base]. rewrite Hgs, Hcpu.
  injection Heq as Hm1. split; [split|split].
  - exact Hesp.
  - apply Hl1.
  - apply (seginit_gdt_set _ _ (c_mem (ap_cpu s))); try done; [apply Hl1|]. intros i Hi. cbn [ap_cpu c_hw set_hw c_mem set_cmem set_sel gs_base idtr_base idtinit lidt].
    rewrite Hm1, !rdn_wrn_ne by (unfold cpu_gdt, cpu_started, cpu_cpu; lia). done.
  - cbn [ap_cpu c_hw set_hw c_mem set_cmem set_sel gs_base idtr_base idtinit lidt]. rewrite ?Hgs, rdn_wrn_ne by (unfold cpu_cpu, cpu_started; lia). done.
  - cbn [ap_cpu c_hw set_hw c_mem set_cmem set_sel gs_base idtr_base idtinit lidt]. apply pseudo_desc_base. apply (lo_words Hlay).
  - exact Hif.
  - cbn [ap_cpu c_hw set_hw c_mem set_cmem set_sel gs_base idtr_base idtinit lidt]. apply rd32_wr32_eq.
  - intros a Ha. cbn [ap_cpu c_hw set_hw c_mem set_cmem set_sel gs_base idtr_base idtinit lidt]. rewrite rd_wrn_ne by (unfold cpu_started, sizeof_cpu in *; lia). by apply Hfr.
Qed.

(** The words below the code, the code's table and the page table, as a processor needs them. *)
Record ready (m : mem) (p : Z) : Prop := mkReady {
  re_gdt : gdt_at m (0x7000 + gdt_off);
  re_words : entry_words m 0x7000 entrypgdir (p + KSTACKSIZE) mpenter_addr;
  re_pgdir : entrypgdir_at m entrypgdir;
}.
(** A page that a processor can use as a stack before it has the kernel's page table. *)
Definition stack_ok (p : Z) : Prop := kend <= p /\ p + PGSIZE <= KERNBASE + 2 ^ 22.

Lemma wp_ap_boot k p s :
  0 <= k < ncpu mp -> has (c_cr0 (ap_cpu s)) CR0_PE = false -> unpaged (ap_cpu s) ->
  ready (c_mem (ap_cpu s)) p -> stack_ok p ->
  wp (ap_boot mp lapics cpus idt kpgdir mpenter_addr gdt_off after_off fuel k (7 * PGSIZE)) (fun _ s' =>
    up k p (c_mem (ap_cpu s')) s' /\
    rd32 (c_mem (ap_cpu s')) (at_cpu k + cpu_started) = 1 /\
    forall a, ~ in_page p a -> ~ (at_cpu k <= a < at_cpu k + sizeof_cpu) ->
      rd (c_mem (ap_cpu s')) a = rd (c_mem (ap_cpu s)) a) s.
Proof.
  intros Hk Hpe Hu [Hg Hw He] [Hp1 Hp2]. pose proof (lo_end Hlay) as Hend.
  unfold ap_boot, on_cpu. apply wp_bind, wp_lift.
  eapply wp_mono; [apply (wp_entryother _ _ _ entrypgdir (p + KSTACKSIZE) mpenter_addr); [exact Hpe|exact Hu|exact Hg|exact Hw|exact He|]|].
  { unfold KERNLINK, EXTMEM, PGSIZE, KSTACKSIZE in *. lia. }
  intros f c (-> & [_ Hif _ _ Hesp] & Hm). rewrite Z.eqb_refl.
  eapply wp_mono; [by apply (wp_mpenter k p)|]. intros [] s' (Hup & Hst & Hfr). split_and!; [done|done|].
  intros a Ha Hc. rewrite Hfr by done. cbn [ap_cpu]. rewrite Hm. apply rd_wrn_ne.
  unfold in_page, PGSIZE, KSTACKSIZE in *. lia.
Qed.

(** *** The wait *)

Context (Hreset : forall k, has (c_cr0 (reset k)) CR0_PE = false /\ unpaged (reset k)).
Context (Hslow : forall k, (slow k + 2 <= fuel)%nat).
Local Notation runs := (ap_runs mp lapics cpus idt kpgdir mpenter_addr gdt_off after_off reset fuel).
Local Notation wait := (wait_started mp lapics cpus idt kpgdir mpenter_addr gdt_off after_off reset slow fuel).

(** Processor [k] came up on page [p] between the two states. *)
Record joined (k p : Z) (s s' : sst) : Prop := mkJoined {
  jo_up : exists a, so_aps s' = so_aps s ++ [(k, a)] /\ up k p (so_mem s') a;
  jo_started : rd32 (so_mem s') (at_cpu k + cpu_started) = 1;
  jo_frame : forall a, ~ in_page p a -> ~ (at_cpu k <= a < at_cpu k + sizeof_cpu) -> rd (so_mem s') a = rd (so_mem s) a;
  jo_k : so_k s' = set_km (so_mem s') (so_k s);
  jo_l : so_l s' = so_l s;
}.

Lemma wp_ap_runs k p s :
  0 <= k < ncpu mp -> startup_vector (l_out (so_l s)) (apicid mp k) = Some 7 -> ready (so_mem s) p -> stack_ok p ->
  wp (runs k) (fun _ s' => joined k p s s') s.
Proof.
  intros Hk Hv Hr Hp. unfold wp, ap_runs. rewrite Hv.
  destruct (Hreset k) as [Hpe Hu].
  pose proof (wp_ap_boot k p (mkAp (set_cmem (so_mem s) (reset k)) (mkLst [] 0 ∅ 0)) Hk Hpe Hu Hr Hp) as Hw.
  apply wp_run in Hw as ([] & a & -> & Hup & Hst & Hfr). split; try done. by exists a.
Qed.

Lemma wp_wait_started k p f j s :
  0 <= k < ncpu mp -> startup_vector (l_out (so_l s)) (apicid mp k) = Some 7 -> ready (so_mem s) p -> stack_ok p ->
  rd32 (so_mem s) (at_cpu k + cpu_started) = 0 -> (j <= slow k)%nat -> (slow k + 2 <= f + j)%nat ->
  wp (wait f j k) (fun _ s' => joined k p s s') s.
Proof.
  intros Hk Hv Hr Hp Hz. revert j. induction f as [|f IH]; intros j Hj Hf; [lia|].
  cbn [wait_started]. apply wp_bind, wp_gets. rewrite Hz. cbn [negb Z.eqb].
  destruct (Nat.eqb_spec j (slow k)) as [->|Hne].
  - eapply wp_seq; [by apply (wp_ap_runs k p)|]. intros [] s' Hs'. destruct f as [|f]; [lia|].
    cbn [wait_started]. apply wp_bind, wp_gets. rewrite (jo_started _ _ _ _ Hs'). by apply wp_ret.
  - apply wp_bind, wp_ret. apply IH; lia.
Qed.

(** *** One turn of the loop *)

Lemma up_ext k p m m' a :
  (forall b, at_cpu k <= b < at_cpu k + sizeof_cpu -> rd m' b = rd m b) -> up k p m a -> up k p m' a.
Proof.
  intros Hm [He H3 Hs Hc Hi Hf]. split; try done.
  - by apply (segs_set_ext _ (c_hw (ap_cpu a)) _ m).
  - rewrite <- Hc. rewrite (ss_gs _ _ _ Hs). apply rdn_ext. intros b Hb. apply Hm.
    unfold cpu_cpu, sizeof_cpu in *. lia.
Qed.

Lemma gdt_at_ext m m' g :
  (forall b, P2V g <= b < P2V g + 30 -> rd m' b = rd m b) -> gdt_at m g -> gdt_at m' g.
Proof. intros Hm [Ha Hb]. split; [done|]. rewrite <- Hb. apply rd_bytes_ext. intros b Hb'. apply Hm. lia. Qed.

Lemma entrypgdir_at_ext m m' e :
  (forall b, e <= b < e + PGSIZE -> rd m' b = rd m b) -> entrypgdir_at m e -> entrypgdir_at m' e.
Proof.
  intros Hm [Ha Hr Hw]. split; [done|done|]. intros i Hi. rewrite <- Hw by done. apply rdn_ext.
  intros b Hb. apply Hm. unfold NPDENTRIES, PGSIZE in *. lia.
Qed.

Lemma kinv_ext k l m' :
  kinv kend k l -> (forall q a, q ∈ l -> in_page q a -> rd m' a = rd (km k) a) -> kinv kend (set_km m' k) l.
Proof. intros [Hc Ho Hn Hl] Hm. split; try done. by apply (chain_ext kend (km k)). Qed.

Lemma wp_lapicstartap id l :
  wp (lapicstartap id 0x7000) (fun _ l' => l_out l' = l_out l ++ startup_msgs id 0x7000 /\
    forall a, ~ (P2V 0x467 <= a < P2V 0x467 + 4) -> rd (l_mem l') a = rd (l_mem l) a) l.
Proof.
  unfold lapicstartap, send_startup, outb_l, store16, lapicw.
  do 7 apply wp_bind, wp_modify. apply wp_bind, wp_bind, wp_modify, wp_modify, wp_bind, wp_modify, wp_modify.
  cbn [l_out l_mem l_write l_set_mem]. rewrite <- !app_assoc. split; [done|]. intros a Ha.
  change wr16 with (wrn 2). rewrite !rd_wrn_ne; [done|..]; revert Ha; unfold P2V, u32, KERNBASE;
    change (Z.lor (Z.shiftl 0x40 4) 0x67) with 0x467; rewrite Z.mod_small by lia; lia.
Qed.

Definition low (a : Z) : Prop := a < KERNLINK.

(** What startother() does for another processor. *)
Record launched (k p : Z) (s s' : sst) : Prop := mkLaunched {
  la_joined : exists a, so_aps s' = so_aps s ++ [(k, a)] /\ up k p (so_mem s') a;
  la_started : rd32 (so_mem s') (at_cpu k + cpu_started) = 1;
  la_gdt : gdt_at (so_mem s') (0x7000 + gdt_off);
  la_out : l_out (so_l s') = l_out (so_l s) ++ startup_msgs (apicid mp k) 0x7000;
  la_frame : forall a, ~ low a -> ~ in_page p a -> ~ (at_cpu k <= a < at_cpu k + sizeof_cpu) ->
    rd (so_mem s') a = rd (so_mem s) a;
}.

(** The words that startothers() writes, and the warm reset vector of lapicstartap(). *)
Lemma words_ready m p m' :
  let code := P2V 0x7000 in
  let m3 := wr32 (wr32 (wr32 m (code - 4) (p + KSTACKSIZE)) (code - 8) mpenter_addr) (code - 12) (V2P entrypgdir) in
  stack_ok p -> gdt_at m (0x7000 + gdt_off) -> entrypgdir_at m entrypgdir ->
  (forall a, ~ (P2V 0x467 <= a < P2V 0x467 + 4) -> rd m' a = rd m3 a) ->
  ready m' p /\ forall a, ~ low a -> rd m' a = rd m a.
Proof.
  intros code m3 [Hp1 Hp2] Hg He Hm. pose proof (lo_end Hlay) as Hend. pose proof (lo_pgdir Hlay) as Hpg.
  pose proof (lo_gdt Hlay) as Hgo. assert (Hc : code = KERNBASE + 0x7000) by done.
  unfold KERNLINK, EXTMEM in *. change (P2V 0x467) with (KERNBASE + 0x467) in Hm.
  assert (Hhi : forall a, KERNBASE + 0x7000 <= a -> rd m' a = rd m a).
  { intros a Ha. rewrite Hm by lia. subst m3. rewrite !rd_wr32_ne by lia. done. }
  assert (Hw : forall b, code - 12 <= b < code -> rd m' b = rd m3 b) by (intros b Hb; apply Hm; lia).
  assert (Hr : forall b, code - 12 <= b -> b + 4 <= code -> rdn 4 m' b = rd32 m3 b).
  { intros b H1 H2. apply rd32_ext. intros c Hc'. apply Hw. lia. }
  split; [split|intros a Ha; apply Hhi; unfold low, KERNLINK, EXTMEM in Ha; lia].
  - apply (gdt_at_ext m); [|done]. intros b Hb. apply Hhi. pose proof (ga_addr _ _ Hg).
    rewrite P2V_low in Hb by lia. lia.
  - split; [lia|..]; rewrite P2V_low, Hr by lia; subst m3; unfold KERNBASE, KSTACKSIZE, PGSIZE in *.
    + replace (0x80000000 + (0x7000 - 12)) with (code - 12) by lia. rewrite rd32_wr32_eq. apply u32_u32.
    + replace (0x80000000 + (0x7000 - 4)) with (code - 4) by lia.
      rewrite !rd32_wr32_ne, rd32_wr32_eq by lia. apply Z.mod_small. lia.
    + replace (0x80000000 + (0x7000 - 8)) with (code - 8) by lia.
      rewrite rd32_wr32_ne, rd32_wr32_eq by lia. apply Z.mod_small. apply (lo_words Hlay).
  - apply (entrypgdir_at_ext m); [|done]. intros b Hb. apply Hhi. lia.
Qed.

Context (bsp eflags : Z) (Hbsp : 0 <= bsp < ncpu mp).
Local Notation turn := (startother mp lapics cpus idt kpgdir entrypgdir mpenter_addr gdt_off after_off
  reset slow fuel bsp eflags (P2V 0x7000)).

(** cpunum() in the loop changes neither the memory nor what was sent. *)
Lemma wp_bsp_cpunum (Q : Z -> sst -> Prop) s :
  (forall l, l_out l = l_out (so_l s) -> Q bsp (mkSst (so_k s) l (so_aps s))) ->
  wp (in_lapic (cpunum mp (lapics bsp) eflags)) Q s.
Proof.
  intros HQ. apply wp_lift. apply (wp_cpunum mp lapics fuel bsp); [exact Hap|exact Hbsp|]. intros l Ho Hm.
  rewrite Hm. specialize (HQ l Ho). destruct s as [[] ? ?]. exact HQ.
Qed.

Lemma apicid_byte k : 0 <= k < ncpu mp -> 0 <= apicid mp k < 256.
Proof.
  intros Hk. unfold apicid. pose proof (ap_byte _ _ _ Hap) as Hb. pose proof (ap_len _ _ _ Hap) as Hlen.
  pose proof (ap_ncpu _ _ _ Hap). destruct (lookup_lt_is_Some_2 (apicids mp) (Z.to_nat k)) as [x Hx]; [lia|].
  rewrite (list_lookup_total_correct _ _ _ Hx). by apply (Forall_lookup_1 _ _ _ _ Hb Hx).
Qed.

Lemma wp_startother k p l s :
  0 <= k < ncpu mp -> k <> bsp -> kinv kend (so_k s) (p :: l) -> stack_ok p ->
  gdt_at (so_mem s) (0x7000 + gdt_off) -> entrypgdir_at (so_mem s) entrypgdir ->
  rd32 (so_mem s) (at_cpu k + cpu_started) = 0 ->
  wp (turn k) (fun _ s' => launched k p s s' /\ kinv kend (so_k s') l) s.
Proof.
  intros Hk Hne Hi Hp Hg He Hz. pose proof (cpu_at_range k Hk) as Hcr.
  pose proof (lo_cpus Hlay) as Hcp. pose proof (lo_end Hlay) as Hend.
  unfold startother. apply wp_bind, wp_bsp_cpunum. intros l1 Ho1. rewrite (proj2 (Z.eqb_neq _ _) Hne).
  apply wp_bind, wp_lift. eapply wp_mono; [by apply (wp_kalloc kend _ (p :: l))|].
  intros q k2 (Hm2 & _ & -> & Hi2). cbn [so_k so_l so_aps] in *. do 3 apply wp_bind, wp_modify.
  apply wp_bind, wp_lift. eapply wp_mono; [apply wp_lapicstartap|]. intros [] l3 [Ho3 Hm3].
  cbn [l_out l_mem l_set_mem so_l so_k so_mem so_set_mem km set_km so_aps] in *.
  change (so_mem (mkSst k2 l1 (so_aps s))) with (km k2) in Hm3. rewrite Hm2 in Hm3.
  destruct (words_ready (so_mem s) p (l_mem l3) Hp Hg He Hm3) as [Hr Hlow].
  match goal with |- wp _ _ ?x => set (s4 := x) end.
  eapply wp_mono; [apply (wp_wait_started k p fuel 0 s4); try done|].
  - unfold s4. cbn [so_l]. rewrite Ho3. by apply startup_received, apicid_byte.
  - rewrite <- Hz. apply rd32_ext. intros b Hb. apply Hlow. unfold low, cpu_started, sizeof_cpu, NCPU in *. lia.
  - lia.
  - specialize (Hslow k). lia.
  - intros [] s5 [Hup Hst Hfr Hk5 Hl5]. change (so_mem s4) with (l_mem l3) in Hfr.
    split; [split|].
    + exact Hup.
    + exact Hst.
    + apply (gdt_at_ext (l_mem l3)); [|apply Hr]. intros b Hb. pose proof (ga_addr _ _ Hg) as Hga.
      rewrite P2V_low in Hb by lia. destruct Hp as [Hp1 Hp2]. unfold in_page, KERNLINK, EXTMEM in *. apply Hfr; lia.
    + rewrite Hl5. unfold s4. cbn [so_l]. by rewrite Ho3, Ho1.
    + intros a Ha Hpa Hca. rewrite Hfr by done. by apply Hlow.
    + rewrite Hk5. unfold s4. cbn [so_k]. change (set_km (so_mem s5) _) with (set_km (so_mem s5) k2).
      apply kinv_ext; [done|]. intros q a Hq Ha. rewrite Hm2.
      destruct Hi as [_ Hok Hnd _]. rewrite Forall_forall in Hok. apply NoDup_cons in Hnd as [Hpl _].
      pose proof (Hok q ltac:(set_solver)) as Hqok. pose proof (pg_end _ _ Hqok).
      assert (Hpq : p <> q) by (intros ->; done).
      destruct (pages_apart p q (pg_align _ _ (Hok p ltac:(set_solver))) (pg_align _ _ Hqok) Hpq) as [|];
        unfold in_page in *; (rewrite Hfr; [apply Hlow; unfold low|..]); unfold sizeof_cpu, NCPU in *; lia.
Qed.

(** *** The loop *)

(** The other processors among the first [n]. *)
Definition others (n : Z) : list Z := filter (fun k => k <> bsp) (seqZ 0 n).

Lemma others_next i : 0 <= i -> others (i + 1) = others i ++ (if decide (i <> bsp) then [i] else []).
Proof.
  intros Hi. unfold others. rewrite seqZ_app by lia. rewrite filter_app. f_equal.
Qed.

Lemma length_others i : 0 <= i -> Z.of_nat (length (others i)) = if bsp <? i then i - 1 else i.
Proof.
  intros Hi. pattern i. apply natlike_ind; [| |done].
  - simpl. destruct (Z.ltb_spec bsp 0); [lia|done].
  - intros j Hj IH. change (Z.succ j) with (j + 1). rewrite others_next, length_app, Nat2Z.inj_add, IH by done.
    destruct (Z.ltb_spec bsp j), (Z.ltb_spec bsp (j + 1)), (decide (j <> bsp)); simpl; lia.
Qed.

(** The state before turn [i] of the loop; [l] are the pages that were free at the start. *)
Record progress (s0 : sst) (l : list Z) (i : Z) (s : sst) : Prop := mkProgress {
  pr_aps : exists aps, so_aps s = so_aps s0 ++ aps /\ aps.*1 = others i /\
    Forall2 (fun x p => up x.1 p (so_mem s) x.2) aps (take (length (others i)) l);
  pr_free : kinv kend (so_k s) (drop (length (others i)) l);
  pr_gdt : gdt_at (so_mem s) (0x7000 + gdt_off);
  pr_pgdir : entrypgdir_at (so_mem s) entrypgdir;
  pr_started : forall k, 0 <= k < ncpu mp -> k <> bsp ->
    rd32 (so_mem s) (at_cpu k + cpu_started) = if k <? i then 1 else 0;
  pr_sent : l_out (so_l s) = l_out (so_l s0) ++ (others i ≫= fun k => startup_msgs (apicid mp k) 0x7000);
}.

Lemma cpu_at_apart j k a b :
  j <> k -> at_cpu j <= a < at_cpu j + sizeof_cpu -> at_cpu k <= b < at_cpu k + sizeof_cpu -> a <> b.
Proof. unfold cpu_at, sizeof_cpu. nia. Qed.

(** A launch leaves the struct cpu of every other processor as it is. *)
Lemma launched_cpu k p s s' j b :
  launched k p s s' -> stack_ok p -> 0 <= j < ncpu mp -> j <> k ->
  at_cpu j <= b < at_cpu j + sizeof_cpu -> rd (so_mem s') b = rd (so_mem s) b.
Proof.
  intros Hl [Hp _] Hj Hne Hb. pose proof (cpu_at_range j Hj) as Hr. pose proof (lo_cpus Hlay) as Hc.
  apply (la_frame _ _ _ _ Hl).
  - unfold low. lia.
  - unfold in_page. lia.
  - intros Hk. by apply (cpu_at_apart j k b b Hne).
Qed.

Lemma progress_launch s0 l i p l' s s' :
  0 <= i < ncpu mp -> i <> bsp -> drop (length (others i)) l = p :: l' -> stack_ok p ->
  progress s0 l i s -> launched i p s s' -> kinv kend (so_k s') l' -> progress s0 l (i + 1) s'.
Proof.
  intros Hi Hne Hd Hp [(aps & Ha & Hf & Hu) _ _ He Hst Hse] Hl Hk.
  destruct (la_joined _ _ _ _ Hl) as (a & Haps & Hup).
  assert (Hon : others (i + 1) = others i ++ [i]) by (rewrite others_next by lia; by rewrite decide_True).
  assert (Hlp : l !! length (others i) = Some p).
  { rewrite <- (Nat.add_0_r (length _)), <- lookup_drop, Hd. done. }
  split.
  - exists (aps ++ [(i, a)]). split_and!; [by rewrite Haps, Ha, app_assoc|by rewrite fmap_app, Hf, Hon|].
    rewrite Hon, length_app, Nat.add_1_r, (take_S_r _ _ p) by done. apply Forall2_app; [|by constructor].
    eapply Forall2_impl_elem; [exact Hu|]. intros x q Hx Hxq. apply (up_ext _ _ (so_mem s)); [|done].
    assert (Hxi : x.1 ∈ others i) by (rewrite <- Hf; by apply list_elem_of_fmap_2).
    unfold others in Hxi. apply list_elem_of_filter in Hxi as [_ Hxi%elem_of_seqZ].
    intros b Hb. apply (launched_cpu i p s s' x.1 b); try done; lia.
  - rewrite Hon, length_app, <- drop_drop, Hd. done.
  - apply Hl.
  - apply (entrypgdir_at_ext (so_mem s)); [|done]. intros b Hb. pose proof (lo_pgdir Hlay). pose proof (lo_apart Hlay).
    pose proof (cpu_at_range i Hi). destruct Hp as [Hp _]. apply (la_frame _ _ _ _ Hl); unfold low, in_page; lia.
  - intros j Hj Hjb. destruct (decide (j = i)) as [->|Hji].
    + rewrite (proj2 (Z.ltb_lt i (i + 1))) by lia. apply Hl.
    + rewrite (rd32_ext _ (so_mem s)), Hst by (done || (intros b Hb; apply (launched_cpu i p s s' j); try done;
        unfold cpu_started, sizeof_cpu in *; lia)).
      destruct (Z.ltb_spec j i), (Z.ltb_spec j (i + 1)); lia || done.
  - rewrite (la_out _ _ _ _ Hl), Hse, Hon, bind_app, <- app_assoc. reflexivity.
Qed.

Lemma wp_turn s0 l i s :
  0 <= i < ncpu mp -> Forall stack_ok l -> ncpu mp - 1 <= Z.of_nat (length l) ->
  progress s0 l i s -> wp (turn i) (fun _ s' => progress s0 l (i + 1) s') s.
Proof.
  intros Hi Hl Hlen Hpr. destruct (decide (i = bsp)) as [->|Hne].
  - unfold startother. apply wp_bind, wp_bsp_cpunum. intros l1 Ho. rewrite Z.eqb_refl. apply wp_ret.
    assert (Hon : others (bsp + 1) = others bsp).
    { rewrite others_next by lia. rewrite decide_False by tauto. apply app_nil_r. }
    destruct Hpr as [Ha Hf Hg He Hst Hse]. split; cbn [so_k so_l so_aps]; rewrite ?Hon; try done.
    + intros k Hk Hkb. rewrite Hst by done. destruct (Z.ltb_spec k bsp), (Z.ltb_spec k (bsp + 1)); done || lia.
    + by rewrite Ho.
  - pose proof (length_others i ltac:(lia)) as Hlo.
    destruct (drop (length (others i)) l) as [|p l'] eqn:Hd.
    { apply (f_equal length) in Hd. rewrite length_drop in Hd. simpl in Hd. destruct (Z.ltb_spec bsp i); lia. }
    assert (Hp : stack_ok p).
    { apply (Forall_drop _ (length (others i))) in Hl. rewrite Hd in Hl. by apply Forall_cons in Hl as [? _]. }
    pose proof Hpr as [_ Hf Hg He Hst _]. rewrite Hd in Hf.
    eapply wp_mono; [apply (wp_startother i p l'); try done; rewrite Hst by done; by rewrite Z.ltb_irrefl|].
    intros [] s' [Hla Hk]. by apply (progress_launch s0 l i p l' s).
Qed.

(** C24. The other processors are started. With enough free pages below 4 Mbyte and the kernel and
    the firmware's tables in order, startothers() returns, however long each processor takes to
    come up: every processor but the one that runs it gets its INIT and STARTUP messages in turn,
    goes through entryother.S into mpenter(), and is about to run the scheduler with the kernel's
    page table, its own struct cpu, the kernel's gates and interrupts off, on a page of the
    allocator that no other processor has; [started] is set for each, and the allocator has
    the remaining pages. *)
Theorem startothers_correct s l :
  kinv kend (so_k s) l -> Forall stack_ok l -> ncpu mp - 1 <= Z.of_nat (length l) ->
  rd_bytes (so_mem s) (entryother_start + gdt_off) 30 = gdt_image (0x7000 + gdt_off) ->
  entrypgdir_at (so_mem s) entrypgdir ->
  (forall k, 0 <= k < ncpu mp -> k <> bsp -> rd32 (so_mem s) (at_cpu k + cpu_started) = 0) ->
  exists s' aps,
    startothers mp lapics cpus idt kpgdir entrypgdir mpenter_addr entryother_start entryother_size
      gdt_off after_off reset slow fuel bsp eflags s = Ret tt s' /\
    so_aps s' = so_aps s ++ aps /\ aps.*1 = others (ncpu mp) /\
    Forall2 (fun x p => up x.1 p (so_mem s') x.2) aps (take (length aps) l) /\
    (forall k, 0 <= k < ncpu mp -> k <> bsp -> rd32 (so_mem s') (at_cpu k + cpu_started) = 1) /\
    kinv kend (so_k s') (drop (length aps) l) /\
    l_out (so_l s') = l_out (so_l s) ++ (others (ncpu mp) ≫= fun k => startup_msgs (apicid mp k) 0x7000).
Proof.
  intros Hi Hl Hlen Himg He Hz. pose proof (ap_ncpu _ _ _ Hap) as Hn.
  pose proof (lo_image Hlay) as Him. pose proof (lo_gdt Hlay) as Hgo. pose proof (lo_end Hlay) as Hend.
  pose proof (lo_pgdir Hlay) as Hpg. pose proof (lo_cpus Hlay) as Hcp. unfold KERNLINK, EXTMEM in *.
  set (m1 := StringC.memmove (so_mem s) (P2V 0x7000) entryother_start entryother_size).
  assert (Hmm : forall a, KERNBASE + 0x8000 <= a -> rd m1 a = rd (so_mem s) a).
  { intros a Ha. subst m1. rewrite StringC.rd_memmove, decide_False; [done| |lia].
    change (P2V 0x7000) with (KERNBASE + 0x7000). unfold PGSIZE in *. lia. }
  assert (Hw : wp (startothers mp lapics cpus idt kpgdir entrypgdir mpenter_addr entryother_start entryother_size
      gdt_off after_off reset slow fuel bsp eflags) (fun _ s' => progress s l (ncpu mp) s') s).
  { unfold startothers. apply wp_bind, wp_modify.
    apply (wp_mono _ (fun _ s' => progress s l (0 + Z.of_nat (Z.to_nat (ncpu mp))) s'));
      [|intros [] s'; by rewrite Z.add_0_l, Z2Nat.id by lia].
    apply (wp_for_range (progress s l)); [|intros i s' Hi' Hpr; apply wp_turn; try done; lia]. fold m1.
    split; cbn [so_k so_l so_aps so_mem so_set_mem km set_km].
    - exists []. rewrite app_nil_r. split_and!; [done|done|constructor].
    - apply kinv_ext; [done|]. intros q a Hq Ha. apply Hmm. destruct Hi as [_ Hok _ _].
      rewrite Forall_forall in Hok. pose proof (pg_end _ _ (Hok q Hq)). unfold in_page in Ha. lia.
    - split; [unfold PGSIZE in *; lia|]. rewrite <- Himg. apply list_eq_same_length with (n := 30%nat);
        rewrite ?length_rd_bytes; [done..|]. intros j x y Hj Hx Hy. rewrite rd_bytes_lookup in Hx, Hy by lia.
      subst m1. rewrite StringC.rd_memmove in Hx by lia. unfold PGSIZE in *. rewrite !P2V_low in Hx by lia.
      rewrite decide_True in Hx by lia.
      replace (entryother_start + _) with (entryother_start + gdt_off + Z.of_nat j) in Hx by lia. congruence.
    - apply (entrypgdir_at_ext (so_mem s)); [|done]. intros b Hb. apply Hmm. lia.
    - intros k Hk Hkb. rewrite (proj2 (Z.ltb_ge k 0)) by lia. rewrite <- (Hz k) by done. apply rd32_ext.
      intros b Hb. apply Hmm. pose proof (cpu_at_range k Hk). unfold cpu_started in *. lia.
    - by rewrite app_nil_r. }
  apply wp_run in Hw as ([] & s' & Hr & [(aps & Ha & Hf & Hu) Hk _ _ Hst Hse]).
  exists s', aps. rewrite <- Hf, length_fmap in Hu, Hk. split_and!; try done.
  intros k Hk' Hkb. rewrite Hst by done. by rewrite (proj2 (Z.ltb_lt _ _)) by lia.
Qed.
End Started.

(** Two processors, two free pages, and a processor that needs a few reads to come up. *)
Definition demo_mp : mpst := mkMpst 1 2 0 0xfee00000 [0; 1; 0; 0; 0; 0; 0; 0] [].
Definition demo_lapics (k : Z) (_ : nat) (r : Z) : Z := if r =? ID then Z.shiftl k 24 else 0.
Definition demo_reset (_ : Z) : core := demo_cpu ∅.
Definition demo_kmem : mem :=
  wr32 (wr_bytes demo_entry_mem (0x8010c000 + 0x58) (gdt_image (0x7000 + 0x58))) 0x80115000 0x80116000.
Definition demo_sst : sst := mkSst (mkKst demo_kmem false 0 0x80115000) (mkLst [] 0 ∅ 0) [].

Lemma demo_layout :
  layout 0x80114000 0x80112780 0x80113000 demo_entrypgdir 0x80103010 0x8010c000 0x80 0x58.
Proof.
  split; unfold demo_entrypgdir, KERNLINK, KERNBASE, EXTMEM, sizeof_cpu, NCPU, PGSIZE, is_u32; lia.
Qed.

Lemma demo_apics : apics_ok demo_mp demo_lapics 5.
Proof.
  split.
  - done.
  - by cbn.
  - cbn. repeat constructor; set_solver.
  - reflexivity.
  - repeat constructor; done.
  - intros k t Hk. cbn in Hk. assert (k = 0 \/ k = 1) as [-> | ->] by lia; reflexivity.
  - intros k t. exists 0%nat. split; [lia|]. reflexivity.
Qed.

Lemma startothers_correct_witness :
  exists s' aps,
    startothers demo_mp demo_lapics 0x80112780 0x80113000 0x803ff000 demo_entrypgdir 0x80103010 0x8010c000 0x80
      0x58 0x50 demo_reset (fun _ => 3%nat) 5 0 0x2 demo_sst = Ret tt s' /\
    so_aps s' = so_aps demo_sst ++ aps /\ aps.*1 = [1] /\
    Forall2 (fun x p => up 0x80112780 0x80113000 0x803ff000 x.1 p (so_mem s') x.2) aps
      (take (length aps) [0x80115000; 0x80116000]) /\
    (forall k, 0 <= k < 2 -> k <> 0 -> rd32 (so_mem s') (cpu_at 0x80112780 k + cpu_started) = 1) /\
    kinv 0x80114000 (so_k s') (drop (length aps) [0x80115000; 0x80116000]) /\
    l_out (so_l s') = l_out (so_l demo_sst) ++ startup_msgs 1 0x7000.
Proof.
  apply (startothers_correct 0x80114000 demo_mp demo_lapics 0x80112780 0x80113000 0x803ff000 demo_entrypgdir
    0x80103010 0x8010c000 0x80 0x58 0x50 demo_reset (fun _ => 3%nat) 5 demo_layout demo_apics
    (fun _ => conj eq_refl eq_refl) (fun _ => Nat.le_refl 5) 0 0x2 ltac:(cbn; lia) demo_sst
    [0x80115000; 0x80116000]).
  - split; [by vm_compute| |repeat constructor; set_solver|done].
    repeat constructor; vm_compute; done.
  - repeat constructor; vm_compute; done.
  - cbn. lia.
  - by vm_compute.
  - apply (entrypgdir_at_ext demo_entry_mem); [|exact demo_entrypgdir_at]. intros b Hb.
    unfold so_mem, demo_sst, demo_kmem, demo_entrypgdir, PGSIZE in *. cbn [so_k km].
    rewrite rd_wr32_ne by lia. rewrite rd_wr_bytes, decide_False; [done|].
    change (Z.of_nat (length (gdt_image (0x7000 + 0x58)))) with 30. lia.
  - intros k Hk Hk0. cbn in Hk. assert (k = 1) as -> by lia. by vm_compute.
Defined.
