(* ===== verification/Balance.v ===== *)
(** Transactions are balanced: a system call that returns has closed the transaction that it
    opened, with one exception, sys_open() when create() fails. *)

From S2P Require Export KernelDemo.

Open Scope Z_scope.
Open Scope kernel_scope.

(** *** Code that moves a counter *)

(** A counter of the state: here [log.outstanding]. *)
Class Counter (St : Type) := count : St -> Z.

#[export] Instance count_fs : Counter fsys := fun s => l_outstanding (fslog s).
#[export] Instance count_kern : Counter kern := fun k => l_outstanding (fslog (k_fs k)).

(** When [m] returns it has added [d] to the counter. *)
Definition moves {St A} `{Counter St} (d : Z) (m : M St A) : Prop :=
  forall s a s', m s = Ret a s' -> count s' = count s + d.

Create HintDb moves discriminated.
#[export] Hint Constants Opaque : moves.

Section Moves.
Context {St : Type} `{Counter St}.

Lemma moves_ret {A} (a : A) : moves 0 (ret a).
Proof. intros s r s' E. unfold ret in E. simplify_eq. lia. Qed.
Lemma moves_gets {A} (f : St -> A) : moves 0 (gets f).
Proof. intros s r s' E. unfold gets in E. simplify_eq. lia. Qed.
Lemma moves_panic {A} d e : moves d (@panic St A e).
Proof. by intros s r s' E. Qed.
Lemma moves_diverge {A} d : moves d (@diverge St A).
Proof. by intros s r s' E. Qed.
Lemma moves_sleep_on {A} d ch : moves d (@sleep_on St A ch).
Proof. by intros s r s' E. Qed.
Lemma moves_modify f : (forall s, count (f s) = count s) -> moves 0 (modify f).
Proof. intros Hf s r s' E. unfold modify in E. simplify_eq. rewrite Hf. lia. Qed.
Lemma moves_bind {A B} d e (m : M St A) (f : A -> M St B) :
  moves e m -> (forall a, moves (d - e) (f a)) -> moves d (bind m f).
Proof.
  intros Hm Hf s r s' E. unfold bind in E. destruct (m s) as [a s1| | |] eqn:E1; try done.
  apply Hf in E. apply Hm in E1. lia.
Qed.
Lemma moves_eq {A} d e (m : M St A) : moves e m -> e = d -> moves d m.
Proof. by intros ? <-. Qed.
Lemma moves_when b m : moves 0 m -> moves 0 (when b m).
Proof. intros Hm. destruct b; [done|apply moves_ret]. Qed.
Lemma moves_for_range n lo body : (forall i, moves 0 (body i)) -> moves 0 (for_range n lo body).
Proof.
  intros Hb. revert lo. induction n as [|n IH]; intros lo; simpl; [apply moves_ret|].
  by apply (moves_bind 0 0).
Qed.
Lemma moves_find_range {A} n lo (body : Z -> M St (option A)) :
  (forall i, moves 0 (body i)) -> moves 0 (find_range n lo body).
Proof.
  intros Hb. revert lo. induction n as [|n IH]; intros lo; cbn [find_range]; [apply moves_ret|].
  apply (moves_bind 0 0); [done|]. intros [a|]; [apply moves_ret|apply IH].
Qed.
Lemma moves_acquire l : (forall v s, count (lset l v s) = count s) -> moves 0 (acquire l).
Proof. intros Hl s r s' E. unfold acquire in E. destruct (lget l s); simplify_eq. rewrite Hl. lia. Qed.
Lemma moves_release l : (forall v s, count (lset l v s) = count s) -> moves 0 (release l).
Proof. intros Hl s r s' E. unfold release in E. destruct (lget l s); simplify_eq. rewrite Hl. lia. Qed.
End Moves.

#[export] Hint Resolve moves_ret moves_gets moves_panic moves_diverge moves_sleep_on : moves.

(** Walk through a program; the calls that move the counter are in the database with what they
    add. *)
Ltac moves_norm :=
  match goal with |- moves ?d ?m => let d' := eval compute in d in change (moves d' m) end.
Ltac moves_step :=
  match goal with
  | |- moves _ (bind _ _) =>
      first [ eapply moves_bind; [solve [eauto with moves]|intros; moves_norm]
            | apply moves_bind with (e := 0); [|intros; moves_norm] ]
  | |- moves _ (get_arg _ _) => unfold get_arg
  | |- moves 0 (when _ _) => apply moves_when
  | |- moves 0 (modify _) => apply moves_modify; intros; try reflexivity
  | |- moves 0 (acquire _) => apply moves_acquire; intros; try reflexivity
  | |- moves 0 (release _) => apply moves_release; intros; try reflexivity
  | |- moves 0 (for_range _ _ _) => apply moves_for_range; intros
  | |- moves 0 (find_range _ _ _) => apply moves_find_range; intros
  | |- moves _ (if ?b then _ else _) => destruct b
  | |- moves _ (match ?x with _ => _ end) => destruct x
  | |- moves _ (let '(_, _) := ?x in _) => destruct x
  | |- moves _ _ => solve [auto with moves]
  end.
Ltac moves_tac := repeat moves_step.

(** *** The file system *)

Lemma moves_wakeup ch : moves 0 (wakeup ch).
Proof. unfold wakeup. moves_tac. Qed.
#[export] Hint Resolve moves_wakeup : moves.

Lemma moves_acquiresleep lk ch pid :
  (forall v s, count (lset lk v s) = count s) -> moves 0 (@acquiresleep fsys lk ch pid).
Proof. intros Hl. unfold acquiresleep, sl_lk_lens, set_locked, sleep. moves_tac; try apply Hl. Qed.
Lemma moves_releasesleep lk ch : 
  (forall v s, count (lset lk v s) = count s) -> moves 0 (releasesleep lk ch wakeup).
Proof. intros Hl. unfold releasesleep, sl_lk_lens, set_locked. moves_tac; try apply Hl. Qed.
Lemma moves_holdingsleep lk : 
  (forall v s, count (lset lk v s) = count s) -> moves 0 (@holdingsleep fsys lk).
Proof. intros Hl. unfold holdingsleep, sl_lk_lens. moves_tac; try apply Hl. Qed.

Lemma count_upd_buf b f s : count (upd_buf b f s) = count s.
Proof. reflexivity. Qed.
Lemma moves_buf_acquire b : moves 0 (acquiresleep (buf_lock b) (ChBufLock b) curpid).
Proof. by apply moves_acquiresleep. Qed.
Lemma moves_buf_release b : moves 0 (releasesleep (buf_lock b) (ChBufLock b) wakeup).
Proof. by apply moves_releasesleep. Qed.
Lemma moves_buf_holding b : moves 0 (buf_holding b).
Proof. by apply moves_holdingsleep. Qed.
Lemma moves_ino_acquire ip : moves 0 (acquiresleep (inode_lock ip) (ChInodeLock ip) curpid).
Proof. by apply moves_acquiresleep. Qed.
Lemma moves_ino_release ip : moves 0 (releasesleep (inode_lock ip) (ChInodeLock ip) wakeup).
Proof. by apply moves_releasesleep. Qed.
Lemma moves_ino_holding ip : moves 0 (holdingsleep (inode_lock ip)).
Proof. by apply moves_holdingsleep. Qed.
#[export] Hint Resolve moves_buf_acquire moves_buf_release moves_buf_holding moves_ino_acquire
  moves_ino_release moves_ino_holding : moves.

Lemma moves_iderw b : moves 0 (iderw b).
Proof. unfold iderw. moves_tac. Qed.
Lemma moves_bscan fuel dir test b : moves 0 (bscan fuel dir test b).
Proof. revert b. induction fuel as [|fuel IH]; intros b; simpl; moves_tac; apply IH. Qed.
#[export] Hint Resolve moves_iderw moves_bscan : moves.
Lemma moves_bget dev blockno : moves 0 (bget dev blockno).
Proof. unfold bget. moves_tac. Qed.
#[export] Hint Resolve moves_bget : moves.
Lemma moves_bread dev blockno : moves 0 (bread dev blockno).
Proof. unfold bread. moves_tac. Qed.
Lemma moves_bwrite b : moves 0 (bwrite b).
Proof. unfold bwrite. moves_tac. Qed.
Lemma moves_brelse b : moves 0 (brelse b).
Proof. unfold brelse, move_to_front. moves_tac. Qed.
Lemma moves_upd_data b f : moves 0 (upd_data b f).
Proof. unfold upd_data. moves_tac. Qed.
Lemma moves_copy_data b c : moves 0 (copy_data b c).
Proof. unfold copy_data. moves_tac. Qed.
Lemma moves_set_log_n v : moves 0 (set_log_n v).
Proof. unfold set_log_n, upd_log. moves_tac. Qed.
#[export] Hint Resolve moves_bread moves_bwrite moves_brelse moves_upd_data moves_copy_data
  moves_set_log_n : moves.

(** *** The log *)

Lemma moves_install_trans : moves 0 install_trans.
Proof. unfold install_trans. moves_tac. Qed.
Lemma moves_write_head : moves 0 write_head.
Proof. unfold write_head. moves_tac. Qed.
Lemma moves_write_log : moves 0 write_log.
Proof. unfold write_log. moves_tac. Qed.
#[export] Hint Resolve moves_install_trans moves_write_head moves_write_log : moves.
Lemma moves_commit : moves 0 commit.
Proof. unfold commit. moves_tac. Qed.
Lemma moves_log_write b : moves 0 (log_write b).
Proof. unfold log_write, set_log_block, upd_log. moves_tac. Qed.
#[export] Hint Resolve moves_commit moves_log_write : moves.

Lemma moves_begin_op : moves 1 begin_op.
Proof.
  intros s a s'. unfold begin_op, acquire, gets, sleep, upd_log, modify, release, bind.
  destruct (lget log_lock s); [done|].
  repeat (case_match; try done). intros E. simplify_eq. reflexivity.
Qed.

Lemma moves_outstanding : moves (-1) (upd_log (fun l => l_set_outstanding (l_outstanding l - 1) l)).
Proof. intros s a s' E. unfold upd_log, modify in E. simplify_eq. reflexivity. Qed.
#[export] Hint Resolve moves_begin_op moves_outstanding : moves.

Lemma moves_end_op : moves (-1) end_op.
Proof. unfold end_op. do 4 moves_step. all: unfold upd_log; moves_tac. Qed.
#[export] Hint Resolve moves_end_op : moves.

(** *** fs.c *)

Lemma moves_bzero dev bno : moves 0 (bzero dev bno).
Proof. unfold bzero. moves_tac. Qed.
#[export] Hint Resolve moves_bzero : moves.
Lemma moves_balloc_from fuel dev b : moves 0 (balloc_from fuel dev b).
Proof.
  revert b. induction fuel as [|fuel IH]; intros b; cbn [balloc_from]; moves_tac; apply IH.
Qed.
#[export] Hint Resolve moves_balloc_from : moves.
Lemma moves_balloc dev : moves 0 (balloc dev).
Proof. unfold balloc. moves_tac. Qed.
Lemma moves_readsb dev : moves 0 (readsb dev).
Proof. unfold readsb. moves_tac. Qed.
#[export] Hint Resolve moves_balloc moves_readsb : moves.
Lemma moves_bfree dev b : moves 0 (bfree dev b).
Proof. unfold bfree. moves_tac. Qed.
Lemma moves_upd_inode ip f : moves 0 (upd_inode ip f).
Proof. unfold upd_inode. moves_tac. Qed.
Lemma moves_set_addr ip k v : moves 0 (set_addr ip k v).
Proof. unfold set_addr, upd_inode. moves_tac. Qed.
Lemma moves_iget dev inum : moves 0 (iget dev inum).
Proof. unfold iget, upd_inode. moves_tac. Qed.
#[export] Hint Resolve moves_bfree moves_upd_inode moves_set_addr moves_iget : moves.
Lemma moves_ialloc dev type : moves 0 (ialloc dev type).
Proof. unfold ialloc. moves_tac. Qed.
Lemma moves_iupdate ip : moves 0 (iupdate ip).
Proof. unfold iupdate. moves_tac. Qed.
Lemma moves_idup ip : moves 0 (idup ip).
Proof. unfold idup. moves_tac. Qed.
Lemma moves_ilock p : moves 0 (ilock p).
Proof. unfold ilock. moves_tac. Qed.
Lemma moves_iunlock p : moves 0 (iunlock p).
Proof. unfold iunlock. moves_tac. Qed.
Lemma moves_bmap ip bn : moves 0 (bmap ip bn).
Proof. unfold bmap. moves_tac. Qed.
#[export] Hint Resolve moves_ialloc moves_iupdate moves_idup moves_ilock moves_iunlock moves_bmap : moves.
Lemma moves_itrunc ip : moves 0 (itrunc ip).
Proof. unfold itrunc. moves_tac. Qed.
#[export] Hint Resolve moves_itrunc : moves.
Lemma moves_iput ip : moves 0 (iput ip).
Proof. unfold iput. moves_tac. Qed.
#[export] Hint Resolve moves_iput : moves.
Lemma moves_iunlockput p : moves 0 (iunlockput p).
Proof. unfold iunlockput. moves_tac. Qed.
Lemma moves_stati ip : moves 0 (stati ip).
Proof. unfold stati. moves_tac. Qed.
#[export] Hint Resolve moves_iunlockput moves_stati : moves.

(** The device functions open and close no transaction. *)
Class QuietDevices (devsw : Z -> devsw_entry) := {
  quiet_read : forall i f ip n, d_read (devsw i) = Some f -> moves 0 (f ip n);
  quiet_write : forall i f ip src n, d_write (devsw i) = Some f -> moves 0 (f ip src n);
}.

#[export] Instance no_devsw_quiet : QuietDevices no_devsw.
Proof. by split. Qed.

Section Devices.
Context (devsw : Z -> devsw_entry) `{!QuietDevices devsw}.

Lemma moves_readi_loop fuel ip off n tot out : moves 0 (readi_loop fuel ip off n tot out).
Proof.
  revert off tot out. induction fuel as [|fuel IH]; intros off tot out; cbn [readi_loop];
    cbv zeta; moves_tac; apply IH.
Qed.
Hint Resolve moves_readi_loop : moves.
Lemma moves_readi ip off n : moves 0 (readi devsw ip off n).
Proof.
  unfold readi. cbv zeta. moves_step. destruct (i_type a =? T_DEV); [|moves_tac].
  moves_step; [moves_tac|]. destruct (d_read (devsw (i_major a))) eqn:E; [|moves_tac].
  by eapply quiet_read.
Qed.
Lemma moves_writei_loop fuel ip src off n tot : moves 0 (writei_loop fuel ip src off n tot).
Proof.
  revert src off tot. induction fuel as [|fuel IH]; intros src off tot; cbn [writei_loop];
    cbv zeta; moves_tac; apply IH.
Qed.
Hint Resolve moves_readi moves_writei_loop : moves.
Lemma moves_writei ip src off n : moves 0 (writei devsw ip src off n).
Proof.
  unfold writei. cbv zeta. moves_step. destruct (i_type a =? T_DEV); [|moves_tac].
  moves_step; [moves_tac|]. destruct (d_write (devsw (i_major a))) eqn:E; [|moves_tac].
  by eapply quiet_write.
Qed.
Hint Resolve moves_writei : moves.

Lemma moves_dirlookup_loop fuel dp name off : moves 0 (dirlookup_loop devsw fuel dp name off).
Proof.
  revert off. induction fuel as [|fuel IH]; intros off; cbn [dirlookup_loop]; cbv zeta;
    moves_tac; apply IH.
Qed.
Lemma moves_dirlink_loop fuel dp off : moves 0 (dirlink_loop devsw fuel dp off).
Proof.
  revert off. induction fuel as [|fuel IH]; intros off; cbn [dirlink_loop]; cbv zeta;
    moves_tac; apply IH.
Qed.
Hint Resolve moves_dirlookup_loop moves_dirlink_loop : moves.
Lemma moves_dirlookup dp name : moves 0 (dirlookup devsw dp name).
Proof. unfold dirlookup. moves_tac. Qed.
Hint Resolve moves_dirlookup : moves.
Lemma moves_dirlink dp name inum : moves 0 (dirlink devsw dp name inum).
Proof. unfold dirlink. moves_tac. Qed.
Hint Resolve moves_dirlink : moves.
Lemma moves_namex_loop fuel ip path np name : moves 0 (namex_loop devsw fuel ip path np name).
Proof.
  revert ip path name. induction fuel as [|fuel IH]; intros ip path name; cbn [namex_loop];
    cbv zeta; moves_tac; apply IH.
Qed.
Hint Resolve moves_namex_loop : moves.
Lemma moves_namex cwd path np name : moves 0 (namex devsw cwd path np name).
Proof. unfold namex. moves_tac. Qed.
Hint Resolve moves_namex : moves.
Lemma moves_namei cwd path : moves 0 (namei devsw cwd path).
Proof. unfold namei. moves_tac. Qed.
Lemma moves_nameiparent cwd path name : moves 0 (nameiparent devsw cwd path name).
Proof. unfold nameiparent. moves_tac. Qed.
Hint Resolve moves_namei moves_nameiparent : moves.

(** *** The kernel *)

Lemma moves_in_fs {A} d (m : M fsys A) : moves d m -> moves d (in_fs m).
Proof.
  intros Hm k a k' E. unfold in_fs in E. destruct (m _) as [b s| | |] eqn:Es; simplify_eq.
  apply Hm in Es. done.
Qed.
Lemma moves_in_mem {A} (m : M kst A) : moves 0 (in_mem m).
Proof. intros k a k' E. unfold in_mem, lift in E. destruct (m _); simplify_eq. symmetry. apply Z.add_0_r. Qed.
Lemma moves_in_tab {A} (m : M ptab A) : moves 0 (in_tab m).
Proof. intros k a k' E. unfold in_tab, lift in E. destruct (m _); simplify_eq. symmetry. apply Z.add_0_r. Qed.
Lemma moves_in_pipe {A} p (m : M pst A) : moves 0 (in_pipe p m).
Proof.
  intros k a k' E. unfold in_pipe in E. destruct (_ !! p); [|done].
  destruct (m _); simplify_eq. symmetry. apply Z.add_0_r.
Qed.
Lemma moves_sleep_k {A} d ch : moves d (@sleep_k A ch).
Proof. by intros k a k' E. Qed.
Lemma moves_upd_cur f : moves 0 (upd_cur f).
Proof. apply moves_modify. intros k. by destruct (tb_cur (k_tab k)). Qed.
Lemma moves_fetchint n : moves 0 (fetchint n).
Proof. intros k a k' E. unfold fetchint in E. destruct (_ || _); simplify_eq; lia. Qed.
Lemma moves_argint n : moves 0 (argint n).
Proof. intros k a k' E. unfold argint in E. by apply moves_fetchint in E. Qed.
Lemma moves_fetchstr n : moves 0 (fetchstr n).
Proof. intros k a k' E. unfold fetchstr in E. destruct (_ <=? _); simplify_eq; lia. Qed.
Lemma uwrite_bytes_count va bs k : count (uwrite_bytes va bs k) = count k.
Proof. revert va k. induction bs as [|b bs IH]; intros va k; simpl; [done|]. by rewrite IH. Qed.
Hint Resolve moves_in_fs moves_in_mem moves_in_tab moves_in_pipe moves_sleep_k moves_upd_cur
  moves_fetchint moves_argint moves_fetchstr : moves.

Lemma moves_filealloc : moves 0 filealloc.
Proof. unfold filealloc, upd_file. moves_tac. Qed.
Lemma moves_filedup f : moves 0 (filedup f).
Proof. unfold filedup, upd_file. moves_tac. Qed.
Lemma moves_fileclose kend f : moves 0 (fileclose kend f).
Proof. unfold fileclose, pipeclose_k, upd_file. moves_tac. Qed.
Lemma moves_filestat f : moves 0 (filestat f).
Proof. unfold filestat. moves_tac. Qed.
Hint Resolve moves_filealloc moves_filedup moves_fileclose moves_filestat : moves.
Lemma moves_fileread f n : moves 0 (fileread devsw f n).
Proof. unfold fileread, piperead_k, upd_file. moves_tac. Qed.
Lemma moves_filewrite_loop fuel f addr i n : moves 0 (filewrite_loop devsw fuel f addr i n).
Proof.
  revert i. induction fuel as [|fuel IH]; intros i; cbn [filewrite_loop]; cbv zeta; unfold upd_file;
    moves_tac; apply IH.
Qed.
Hint Resolve moves_fileread moves_filewrite_loop : moves.
Lemma moves_filewrite f addr n : moves 0 (filewrite devsw f addr n).
Proof. unfold filewrite, pipewrite_k. moves_tac. Qed.
Hint Resolve moves_filewrite : moves.

Lemma moves_pipealloc kend : moves 0 (pipealloc kend).
Proof. unfold pipealloc, pipealloc_bad, upd_file. moves_tac. Qed.
Lemma moves_set_fd fd v : moves 0 (set_fd fd v).
Proof. unfold set_fd. moves_tac. Qed.
Hint Resolve moves_pipealloc moves_set_fd : moves.
Lemma moves_fdalloc f : moves 0 (fdalloc f).
Proof. unfold fdalloc. moves_tac. Qed.
Lemma moves_argfd n : moves 0 (argfd n).
Proof. unfold argfd. moves_tac. Qed.
Lemma moves_argptr n size : moves 0 (argptr n size).
Proof. unfold argptr. moves_tac. Qed.
Lemma moves_argstr n : moves 0 (argstr n).
Proof. unfold argstr. moves_tac. Qed.
Lemma moves_fs_ino {A} (f : inode -> A) ip : moves 0 (fs_ino f ip).
Proof. unfold fs_ino. moves_tac. Qed.
Lemma moves_cwd_namei path : moves 0 (cwd_namei devsw path).
Proof. unfold cwd_namei. moves_tac. Qed.
Lemma moves_cwd_nameiparent path : moves 0 (cwd_nameiparent devsw path).
Proof. unfold cwd_nameiparent. moves_tac. Qed.
Lemma moves_upd_at i f : moves 0 (upd_at i f).
Proof. unfold upd_at. moves_tac. Qed.
Lemma moves_mem_op f : moves 0 (mem_op f).
Proof. unfold mem_op. moves_tac. Qed.
Lemma moves_tf_set off v : moves 0 (tf_set off v).
Proof. unfold tf_set. moves_tac. Qed.
Hint Resolve moves_fdalloc moves_argfd moves_argptr moves_argstr moves_fs_ino moves_cwd_namei
  moves_cwd_nameiparent moves_upd_at moves_mem_op moves_tf_set : moves.

(** These end the transaction of their caller. *)
Lemma moves_open_inode kend ip omode : moves (-1) (open_inode kend ip omode).
Proof. unfold open_inode, upd_file. moves_tac. Qed.
Lemma moves_link_bad ip : moves (-1) (link_bad ip).
Proof. unfold link_bad. moves_tac. Qed.
Lemma moves_unlink_bad dp : moves (-1) (unlink_bad dp).
Proof. unfold unlink_bad. moves_tac. Qed.
Lemma moves_exec_bad_open kend pgdir ip : moves (-1) (exec_bad kend pgdir (Some ip)).
Proof.
  unfold exec_bad. apply moves_bind with (e := 0); [moves_tac|intros].
  apply moves_bind with (e := -1); intros; moves_norm; moves_tac.
Qed.
Lemma moves_exec_bad kend pgdir : moves 0 (exec_bad kend pgdir None).
Proof. unfold exec_bad. moves_tac. Qed.
Hint Resolve moves_open_inode moves_link_bad moves_unlink_bad moves_exec_bad_open moves_exec_bad : moves.

Lemma moves_create path type major minor : moves 0 (create devsw path type major minor).
Proof. unfold create. moves_tac. Qed.
Hint Resolve moves_create : moves.
Lemma moves_isdirempty_loop fuel dp off : moves 0 (isdirempty_loop devsw fuel dp off).
Proof.
  revert off. induction fuel as [|fuel IH]; intros off; cbn [isdirempty_loop]; cbv zeta; moves_tac; apply IH.
Qed.
Hint Resolve moves_isdirempty_loop : moves.
Lemma moves_isdirempty dp : moves 0 (isdirempty devsw dp).
Proof. unfold isdirempty. moves_tac. Qed.
Hint Resolve moves_isdirempty : moves.

(** *** System calls *)

Lemma moves_sys_dup : moves 0 sys_dup.
Proof. unfold sys_dup. moves_tac. Qed.
Lemma moves_sys_read : moves 0 (sys_read devsw).
Proof. unfold sys_read. moves_tac; apply uwrite_bytes_count. Qed.
Lemma moves_sys_write : moves 0 (sys_write devsw).
Proof. unfold sys_write. moves_tac. Qed.
Lemma moves_sys_close kend : moves 0 (sys_close kend).
Proof. unfold sys_close. moves_tac. Qed.
Lemma moves_sys_fstat : moves 0 sys_fstat.
Proof. unfold sys_fstat, store_stat. moves_tac; by rewrite !uwrite_bytes_count. Qed.
Lemma moves_sys_link : moves 0 (sys_link devsw).
Proof. unfold sys_link. moves_tac. Qed.
Lemma moves_sys_unlink : moves 0 (sys_unlink devsw).
Proof. unfold sys_unlink. moves_tac. Qed.
Lemma moves_sys_mkdir : moves 0 (sys_mkdir devsw).
Proof. unfold sys_mkdir. moves_tac. Qed.
Lemma moves_sys_mknod : moves 0 (sys_mknod devsw).
Proof. unfold sys_mknod. moves_tac. Qed.
Lemma moves_sys_chdir : moves 0 (sys_chdir devsw).
Proof. unfold sys_chdir. moves_tac. Qed.
Lemma moves_sys_pipe kend : moves 0 (sys_pipe kend).
Proof. unfold sys_pipe. moves_tac; apply uwrite_bytes_count. Qed.
Hint Resolve moves_sys_dup moves_sys_read moves_sys_write moves_sys_close moves_sys_fstat
  moves_sys_link moves_sys_unlink moves_sys_mkdir moves_sys_mknod moves_sys_chdir moves_sys_pipe : moves.

Lemma moves_allocproc fa ta : moves 0 (allocproc fa ta).
Proof. unfold allocproc. moves_tac. Qed.
Hint Resolve moves_allocproc : moves.
Lemma moves_fork kend kdata fa ta : moves 0 (fork kend kdata fa ta).
Proof. unfold fork, dup_files. moves_tac. Qed.
Lemma moves_wait kend : moves 0 (wait kend).
Proof. unfold wait. moves_tac. Qed.
Lemma moves_exit {A} kend : moves 0 (@exit kend A).
Proof. unfold exit, close_files. moves_tac. Qed.
Lemma moves_switchuvm : moves 0 switchuvm.
Proof. unfold switchuvm. moves_tac. Qed.
Hint Resolve moves_fork moves_wait moves_exit moves_switchuvm : moves.
Lemma moves_growproc kend n : moves 0 (growproc kend n).
Proof. unfold growproc. moves_tac. Qed.
Hint Resolve moves_growproc : moves.

Lemma moves_loaduvm_loop fuel pgdir addr ip offset sz i :
  moves 0 (loaduvm_loop devsw fuel pgdir addr ip offset sz i).
Proof.
  revert i. induction fuel as [|fuel IH]; intros i; cbn [loaduvm_loop]; cbv zeta; moves_tac; apply IH.
Qed.
Hint Resolve moves_loaduvm_loop : moves.
Lemma moves_loaduvm pgdir addr ip offset sz : moves 0 (loaduvm devsw pgdir addr ip offset sz).
Proof. unfold loaduvm. moves_tac. Qed.
Hint Resolve moves_loaduvm : moves.
Lemma moves_load_segments kend n pgdir ip off sz :
  moves 0 (load_segments devsw kend n pgdir ip off sz).
Proof.
  revert off sz. induction n as [|n IH]; intros off sz; cbn [load_segments]; cbv zeta; moves_tac; apply IH.
Qed.
Lemma moves_push_args argv argc pgdir sp ustack : moves 0 (push_args argv argc pgdir sp ustack).
Proof.
  revert argc sp ustack. induction argv as [|a argv IH]; intros argc sp ustack; cbn [push_args];
    cbv zeta; moves_tac; apply IH.
Qed.
Lemma moves_fetch_argv n uargv : moves 0 (fetch_argv n uargv).
Proof.
  revert uargv. induction n as [|n IH]; intros uargv; cbn [fetch_argv]; moves_tac; apply IH.
Qed.
Hint Resolve moves_load_segments moves_push_args moves_fetch_argv : moves.
Lemma moves_exec_stack kend path argv pgdir sz entry :
  moves 0 (exec_stack kend path argv pgdir sz entry).
Proof. unfold exec_stack. cbv zeta. moves_tac. Qed.
Hint Resolve moves_exec_stack : moves.
Lemma moves_sys_exec kend kdata : moves 0 (sys_exec devsw kend kdata).
Proof. unfold sys_exec, exec. cbv zeta. moves_tac. Qed.
Hint Resolve moves_sys_exec : moves.

Lemma moves_sys_sysnumcall : moves 0 sys_sysnumcall.
Proof. unfold sys_sysnumcall, sysnumcall_report. moves_tac. Qed.
Hint Resolve moves_sys_sysnumcall : moves.

Lemma moves_syscalls kend kdata fa ta num f :
  syscalls devsw kend kdata fa ta num = Some f -> num <> SYS_open -> moves 0 f.
Proof.
  unfold syscalls. intros Hs Hn.
  repeat match type of Hs with
  | (if ?b then _ else _) = Some _ => destruct b eqn:?
  end; simplify_eq; auto with moves.
  all: unfold sys_fork, sys_exit, sys_wait, sys_kill, sys_getpid, sys_sbrk, sys_sleep, sleep_turn,
    sys_uptime; moves_tac.
  exfalso. by apply Hn, Z.eqb_eq.
Qed.

Lemma syscalls_open kend kdata fa ta :
  syscalls devsw kend kdata fa ta SYS_open = Some (sys_open devsw kend).
Proof. reflexivity. Qed.

Lemma sys_open_moves kend k r k' :
  sys_open devsw kend k = Ret r k' ->
  count k' = count k \/
  (r = -1 /\ count k' = count k + 1 /\
   exists omode, argint 1 k = Ret (Some omode) k /\ Z.land omode O_CREATE <> 0).
Proof.
  unfold sys_open. intros E. unfold get_arg in E.
  destruct (argstr 0 k) as [[path|] k1| | |] eqn:Es; unfold bind at 1 in E; rewrite Es in E; try done;
    [|apply moves_argstr in Es; unfold ret in E; simplify_eq; left; lia].
  assert (k1 = k) as ->.
  { unfold argstr, bind in Es. destruct (argint 0 k) as [[a|] k2| | |] eqn:Ea; try done;
      apply argint_same in Ea as ->.
    unfold fetchstr in Es. case_match; by simplify_eq. }
  destruct (argint 1 k) as [[omode|] k1| | |] eqn:Ea; unfold bind at 1 in E; rewrite Ea in E; try done;
    [|apply argint_same in Ea as ->; unfold ret in E; simplify_eq; by left].
  pose proof (argint_same _ _ _ _ Ea) as ->.
  destruct (Z.land omode O_CREATE =? 0) eqn:Eo; simpl in E.
  - left. assert (Hm : moves 0 (in_fs begin_op ;;
      r <- cwd_namei devsw path ;;
      match r with
      | None => in_fs end_op ;; ret (-1)
      | Some ip =>
          in_fs (ilock (Some ip)) ;;
          t <- fs_ino i_type ip ;;
          if (t =? T_DIR) && negb (omode =? O_RDONLY) then
            in_fs (iunlockput (Some ip)) ;; in_fs end_op ;; ret (-1)
          else open_inode kend ip omode
      end)) by moves_tac.
    apply Hm in E. lia.
  - unfold bind at 1 in E. destruct (in_fs begin_op k) as [[] k1| | |] eqn:E1; try done.
    unfold bind at 1 in E. apply (moves_in_fs 1) in E1; [|auto with moves].
    destruct (create _ _ _ _ _ k1) as [[ip|] k2| | |] eqn:E2; try done; apply moves_create in E2.
    + left. apply moves_open_inode in E. lia.
    + right. unfold ret in E. simplify_eq. split_and!; [done|lia|]. exists omode. split; [done|lia].
Qed.

(** C22. Transactions are balanced: a system call that returns leaves as many transactions open
    ([log.outstanding]) as it found, on every path through its error handling, with one
    exception: sys_open() with O_CREATE may return -1 with its transaction still open. *)
Theorem transactions_balanced kend kdata fa ta num f k r k' :
  syscalls devsw kend kdata fa ta num = Some f -> f k = Ret r k' ->
  l_outstanding (fslog (k_fs k')) = l_outstanding (fslog (k_fs k)) \/
  (num = SYS_open /\ r = -1 /\
   l_outstanding (fslog (k_fs k')) = l_outstanding (fslog (k_fs k)) + 1 /\
   exists omode, argint 1 k = Ret (Some omode) k /\ Z.land omode O_CREATE <> 0).
Proof.
  intros Hs Hf. destruct (decide (num = SYS_open)) as [->|Hn].
  - rewrite syscalls_open in Hs. injection Hs as <-.
    destruct (sys_open_moves _ _ _ _ Hf) as [H|(? & ? & ?)]; [by left|by right].
  - left. apply (moves_syscalls _ _ _ _ _ _ Hs Hn) in Hf. unfold count, count_kern in Hf. lia.
Qed.
End Devices.
