(* ===== verification/KernelFaults.v ===== *)
(** Two faults of the system calls: sys_open() leaves its transaction open when create() fails,
    after which the log never commits again; and filewrite() panics when a small file is full. *)

From S2P Require Export Balance LogSteps.

Open Scope Z_scope.
Open Scope kernel_scope.

(** *** open() when create() fails *)

(** C37. An open() with O_CREATE whose create() fails returns -1 with its transaction open, and
    that stops the log for good: whatever the other operations do in whatever order, their
    begin_op(), log_write() and end_op() write nothing to the disk, so that nothing is ever
    committed; the header in memory only grows; and as soon as it and the open operations
    leave no room for one more, begin_op() puts every caller to sleep. [X] are the blocks that
    the failed open() logged, [ops] the blocks of the operations that were running with it. *)
Theorem failed_open_stops_log devsw `{!QuietDevices devsw} kend k path omode k1 k2 X ops :
  argstr 0 k = Ret (Some path) k -> argint 1 k = Ret (Some omode) k -> Z.land omode O_CREATE <> 0 ->
  in_fs begin_op k = Ret tt k1 ->
  create devsw path (if negb (Z.land omode O_SFILE =? 0) then T_SFILE else T_FILE) 0 0 k1 = Ret None k2 ->
  reserved (k_fs k2, ops ++ [X]) ->
  sys_open devsw kend k = Ret (-1) k2 /\
  l_outstanding (fslog (k_fs k2)) = l_outstanding (fslog (k_fs k)) + 1 /\
  forall s ops', rtc (beside X) (k_fs k2, ops) (s, ops') ->
    memdisk s = memdisk (k_fs k2) /\ wtrace s = wtrace (k_fs k2) /\
    in_header (k_fs k2) `prefix_of` in_header s /\ 1 <= l_outstanding (fslog s) /\
    (LOGSIZE < log_n s + (Z.of_nat (length ops') + 2) * MAXOPBLOCKS -> begin_op s = Sleep ChLog s).
Proof.
  intros Ha Hb Hc E1 E2 Hres. split_and!.
  - unfold sys_open, get_arg, bind. rewrite Ha, Hb, E1. rewrite (proj2 (Z.eqb_neq _ _) Hc). cbn [negb]. by rewrite E2.
  - apply (moves_in_fs 1) in E1; [|auto with moves]. apply (moves_create devsw) in E2.
    unfold count, count_kern in *. lia.
  - intros s ops' Hr. destruct (beside_run X _ _ _ _ Hres Hr) as [(A & B & C) Hs].
    split_and!; [done..| |by apply (begin_op_waits s ops' X)].
    destruct Hs as [_ _ O _ _ _ _]. cbn [fst snd] in O. rewrite O, length_app. simpl. lia.
Qed.

(** The disk of FsDemo.v with the inodes 1 (the root directory) and 2 (a small file) on it. *)
Definition leak_disk : list (list Z) :=
  <[14%nat := put_dinode (dip_off 2) demo_sfile (put_dinode (dip_off 1) demo_dir zero_block)]> fs_disk.

Definition leak_fs : fsys :=
  match reboot (set_disk leak_disk [] demo_start) with
  | Ret _ s => set_icache (demo_dir :: replicate 49 (mkInode 0 0 0 initsleeplock 0 0 0 0 0 0 []))
                 (set_sb (decode_sb fs_super) s)
  | _ => demo_start
  end.

(** The process asks for a system call. *)
Definition ask (num : Z) (args str : list Z) (k : kern) : kern :=
  set_mem (mkKst (demo_mem num args str) false 1 (demo_page 3)) k.

Definition leak_kern : kern := set_fs leak_fs (demo_kern SYS_open [] []).

(** open("/zz/q", O_CREATE), where there is no "/zz". *)
Definition bad_path : list Z := [47; 122; 122; 47; 113].
Definition bad_kern : kern := ask SYS_open [demo_str; O_CREATE] bad_path leak_kern.

Definition after {A B} (o : outcome kern A) (f : A -> kern -> B) : option B :=
  match o with Ret a k => Some (f a k) | _ => None end.

Lemma after_Ret {A B} (o : outcome kern A) (f : A -> kern -> B) v :
  after o f = Some v -> exists a k, o = Ret a k /\ f a k = v.
Proof. destruct o; simpl; intros; simplify_eq; eauto. Qed.

Lemma failed_open_stops_log_witness :
  exists k2, sys_open no_devsw demo_end bad_kern = Ret (-1) k2 /\ l_outstanding (fslog (k_fs k2)) = 0 + 1 /\
    forall s ops', rtc (beside ∅) (k_fs k2, []) (s, ops') ->
      memdisk s = memdisk (k_fs k2) /\ 1 <= l_outstanding (fslog s).
Proof.
  assert (E : after (in_fs begin_op bad_kern) (fun _ k1 =>
    after (create no_devsw bad_path T_FILE 0 0 k1) (fun r k2 => let l := fslog (k_fs k2) in
      (r, l_lock l, l_committing l, l_outstanding l, length (lh_block (l_lh l)), log_n (k_fs k2)))) =
    Some (Some (None, false, 0, 1, 30%nat, 0))) by (vm_compute; reflexivity).
  apply after_Ret in E as ([] & k1 & E1 & E). apply after_Ret in E as (r & k2 & E2 & E).
  injection E as -> H1 H2 H3 H4 H5.
  assert (H0 : l_outstanding (fslog (k_fs bad_kern)) = 0) by (vm_compute; reflexivity).
  destruct (failed_open_stops_log no_devsw demo_end bad_kern bad_path O_CREATE k1 k2 ∅ []) as (A & B & C).
  - vm_compute. reflexivity.
  - vm_compute. reflexivity.
  - discriminate.
  - exact E1.
  - exact E2.
  - clear E1 E2 H0. split; cbn [fst snd app]; [exact H1|exact H2|exact H3|exact H4| | |].
    + constructor; [set_solver|constructor].
    + by rewrite H5.
    + rewrite H5. vm_compute. discriminate.
  - exists k2. rewrite H0 in B. split; [exact A|]. split; [exact B|].
    intros s ops' Hr. destruct (C s ops' Hr) as (D & _ & _ & F & _). split; [exact D|exact F].
Defined.

(** The same call as an instance of the exception to the balance of transactions. *)
Lemma transactions_balanced_witness :
  exists k2, sys_open no_devsw demo_end bad_kern = Ret (-1) k2 /\
    (l_outstanding (fslog (k_fs k2)) = 0 \/
     (SYS_open = SYS_open /\ -1 = -1 /\ l_outstanding (fslog (k_fs k2)) = 0 + 1 /\
      exists omode, argint 1 bad_kern = Ret (Some omode) bad_kern /\ Z.land omode O_CREATE <> 0)).
Proof.
  assert (E : after (sys_open no_devsw demo_end bad_kern) (fun r k => r) = Some (-1)) by (vm_compute; reflexivity).
  apply after_Ret in E as (r1 & k1 & E1 & ->). exists k1. split; [exact E1|].
  assert (H0 : l_outstanding (fslog (k_fs bad_kern)) = 0) by (vm_compute; reflexivity).
  rewrite <- H0. exact (transactions_balanced no_devsw demo_end demo_end 0 0 SYS_open
    (sys_open no_devsw demo_end) _ _ _ (syscalls_open no_devsw demo_end demo_end 0 0) E1).
Defined.

(** *** write() on a small file *)

(** File [f] is open for writing on a small file whose inode is in memory, and no file-system
    operation is running. *)
Record small_open (k : kern) (f : nat) (x : inode) : Prop := {
  so_file : (f < length (k_files k))%nat;
  so_writable : f_writable (fat k f) = true;
  so_type : f_type (fat k f) = FD_INODE;
  so_idle : idle (k_fs k);
  so_geom : geom (k_fs k);
  so_ip : (f_ip (fat k f) < length (icache (k_fs k)))%nat;
  so_ino : ino (k_fs k) (f_ip (fat k f)) = x;
  so_sfile : sfile x;
  so_ref : 1 <= i_ref x;
  so_valid : Z.land (i_flags x) I_VALID <> 0;
  so_lock : sl_lk (i_lock x) = false /\ sl_locked (i_lock x) = 0;
  so_dev : i_dev x = 1;
  so_inum : 0 <= i_inum x < sb_ninodes (sb (k_fs k));
  so_off : 0 <= f_off (fat k f) <= i_size x;
}.

(** Code of the file system inside code of the kernel, where [R] is what is wanted of the whole. *)
Lemma in_fs_rule {A B} (m : M fsys A) (g : A -> M kern B) k (Q : A -> fsys -> Prop) (R : outcome kern B -> Prop) :
  wp m Q (with_pid (p_pid (cur_proc k)) (k_fs k)) ->
  (forall a k', Q a (k_fs k') -> k_files k' = k_files k -> R (g a k')) -> R (bind (in_fs m) g k).
Proof.
  intros (a & s & E & HQ)%wp_run HR. unfold bind, in_fs. rewrite E. apply HR; [exact HQ|reflexivity].
Qed.

Lemma cache_with_pid p s H D : cache s H D -> cache (with_pid p s) H D.
Proof.
  intros [[? ? ? Hb ? ?] ? ?]. split; [split; try done|done|done].
  intros b Hlt. by destruct (Hb b Hlt).
Qed.

(** Between begin_op() and end_op() of the only operation, which began in [s0]. *)
Record during (s0 s : fsys) : Prop := {
  du_txn : intxn [] s;
  du_log : exists lh, fslog s = l_set_lh lh (l_set_outstanding 1 (fslog s0));
  du_disk : memdisk s = memdisk s0 /\ wtrace s = wtrace s0;
  du_rest : sb s = sb s0 /\ ic_lock s = ic_lock s0;
}.

Lemma during_with_pid s0 p s : during s0 s -> during s0 (with_pid p s).
Proof.
  intros [[C W L O Z] Hl Hd Hr]. split; auto. split; auto; [|by destruct W]. by apply cache_with_pid.
Qed.

Lemma during_icache s0 v s : during s0 s -> during s0 (set_icache v s).
Proof. intros [Ht Hl Hd Hr]. split; auto. by apply intxn_set_icache. Qed.

Lemma during_woken s0 w s : during s0 s -> during s0 (set_woken w s).
Proof.
  intros [[C W L O Z] Hl Hd Hr]. split; auto. split; auto; [|by destruct W]. by apply cache_woken.
Qed.

Lemma during_fstep s0 s s' : during s0 s -> fstep [] s s' -> during s0 s'.
Proof.
  intros [Ht [lh Hl] Hd Hr] [Ht' [[lh' Hs] E1 E2 (E3 & E4 & _)] _]. split; [done|..].
  - exists lh'. by rewrite Hs, Hl.
  - by rewrite E1, E2.
  - by rewrite E3, E4.
Qed.

Lemma during_end s0 s :
  idle s0 -> during s0 s ->
  wp end_op (fun _ s' => idle s' /\ forall m, 0 <= m -> ~ inlog s m -> dblock s' m = view s m) s.
Proof.
  intros Hi [[C W L O Z] [lh Hl] [Hd1 Hd2] [Hr1 Hr2]].
  set (t := with_pid (curpid s) (set_icache (icache s) s0)).
  assert (Ht : idle t).
  { destruct Hi as [I1 I2 I3 I4 I5 I6 I7 I8 I9 I10]. split; auto.
    - by apply cache_with_pid, cache_set_icache.
    - by destruct I2. }
  eapply wp_mono; [apply (wp_end_op s (set_log (l_set_outstanding 1 (fslog t)) t) t); auto|].
  - split; auto; rewrite Hl; [done|]. apply Hi.
  - split; auto. by exists lh.
  - intros _ s' (I' & _ & _ & _ & _ & V). split; [done|]. intros m Hm Hml. by apply V.
Qed.

(** ilock() of an inode that is in memory and not locked, and iunlock() of a locked one. *)
Lemma ilock_valid ip s (Q : unit -> fsys -> Prop) :
  let x := ino s ip in
  (ip < length (icache s))%nat -> 1 <= i_ref x -> Z.land (i_flags x) I_VALID <> 0 ->
  sl_lk (i_lock x) = false -> sl_locked (i_lock x) = 0 ->
  Q tt (lset (inode_lock ip) (mkSleeplock 1 false (curpid s)) s) -> wp (ilock (Some ip)) Q s.
Proof.
  intros x Hip Hr Hv Hl1 Hl2 HQ. unfold ilock. apply wp_bind, wp_gets. fold x.
  rewrite (proj2 (Z.ltb_ge _ 1)) by lia. apply wp_bind, (wp_acquiresleep (inode_lock ip)); [done..|].
  apply wp_bind, wp_gets. cbn [lset inode_lock]. rewrite ino_upd_eq by done. cbn [i_flags]. fold x.
  rewrite (proj2 (Z.eqb_neq _ _) Hv). by apply wp_ret.
Qed.

Lemma iunlock_held ip s (Q : unit -> fsys -> Prop) :
  let x := ino s ip in
  (ip < length (icache s))%nat -> 1 <= i_ref x -> sl_lk (i_lock x) = false -> sl_locked (i_lock x) = 1 ->
  Q tt (set_woken (woken s ++ [ChInodeLock ip]) (lset (inode_lock ip) initsleeplock s)) ->
  wp (iunlock (Some ip)) Q s.
Proof.
  intros x Hip Hr Hl1 Hl2 HQ. unfold iunlock.
  eapply wp_seq; [apply (wp_holdingsleep (inode_lock ip) (fun r s' => r = 1 /\ s' = s)); done|].
  intros r s0 [-> ->]. change (1 =? 0) with false. cbv iota. apply wp_bind, wp_gets. fold x.
  rewrite (proj2 (Z.ltb_ge _ 1)) by lia. by apply (wp_releasesleep (inode_lock ip)).
Qed.

(** The inode with its lock taken. *)
Definition i_set_lock (l : sleeplock) (x : inode) : inode :=
  mkInode (i_dev x) (i_inum x) (i_ref x) l (i_flags x) (i_type x) (i_major x) (i_minor x) (i_nlink x)
    (i_size x) (i_addrs x).

Lemma sfile_lock l x : sfile x -> sfile (i_set_lock l x).
Proof. intros [H1 H2 [F1 F2 F3 F4 F5 F6]]. split; [done|done|by split]. Qed.

Lemma written_lock l off n src x y :
  with_dfields (sfile_written off n src (i_set_lock l x)) y = with_dfields (sfile_written off n src x) y.
Proof. unfold sfile_written. cbn [i_size i_set_lock]. by destruct (_ && _). Qed.

(** The state of [s0] inside a transaction that has not logged anything. *)
Definition locked_in (s0 : fsys) (ip : nat) (x : inode) (s : fsys) : Prop :=
  during s0 s /\ geom s /\ log_n s = 0 /\ sb s = sb s0 /\ (ip < length (icache s))%nat /\ ino s ip = x.

(** writei() stores into the inode and logs the inode's block. *)
Lemma small_writei devsw s0 s ip x src off n :
  idle s0 -> locked_in s0 ip x s -> sfile x -> i_dev x = 1 -> 0 <= i_inum x < sb_ninodes (sb s) ->
  0 <= off <= i_size x -> 0 <= n <= Z.of_nat (length src) -> off + n < 2 ^ 32 -> Forall is_byte src ->
  let m := sfile_fit off n in
  wp (writei devsw ip src off n) (fun r s' => r = m /\ during s0 s' /\ (ip < length (icache s'))%nat /\
    ino s' ip = sfile_written off m src x /\
    (forall y, get_dinode (dip_off (i_inum x)) (view s' (iblock s (i_inum x))) y =
       with_dfields (sfile_written off m src x) y) /\
    0 <= iblock s (i_inum x) /\ ~ inlog s' (iblock s (i_inum x))) s.
Proof.
  intros Hid (Hd & Hg & Hn0 & _ & Hip & Hx) Hsf Hdev Hr Ho Hn Hb Hsrc m.
  assert (Hm : 0 <= m <= n /\ off + m <= sizeof_addrs)
    by (pose proof (sf_size _ Hsf); unfold m, sfile_fit; lia).
  set (z := sfile_written off m src x).
  assert (Hz : sfile z) by (apply sfile_written_ok; auto; lia).
  assert (Hk : i_dev z = 1 /\ i_inum z = i_inum x) by (unfold z, sfile_written; by destruct (_ && _)).
  destruct Hk as [Hzd Hzi].
  set (s1 := upd_ino ip (sfile_written off m src) s).
  assert (Hz1 : ino s1 ip = z) by (unfold s1, z; rewrite ino_upd_eq, Hx by done; done).
  assert (D1 : during s0 s1) by (by apply during_icache).
  assert (G1 : geom s1) by (by apply geom_set_icache).
  destruct (g_inodes s Hg _ Hr) as [M1 M2].
  destruct D1 as [T1 [lh Hl] Hdk Hrs] eqn:ED. clear ED.
  assert (Hav : 1 <= avail s1 /\ log_n s1 = 0).
  { split; [|exact Hn0]. unfold avail. change (log_n s1) with (log_n s). rewrite Hn0, Hl.
    pose proof (id_size _ Hid). cbn. unfold MAXOPBLOCKS in *. lia. }
  apply wp_sfile_writei; rewrite ?Hx; auto; [lia..|]. fold m s1.
  eapply wp_mono; [apply (wp_iupdate [] s1 ip z); rewrite ?Hzi; auto; [apply Hz|set_solver|lia|]|].
  { rewrite (proj2 Hav). vm_compute. lia. }
  rewrite Hzi. change (iblock s1 (i_inum x)) with (iblock s (i_inum x)) in *.
  intros _ s2 (F & _ & _ & V).
  destruct (sl_rest _ _ (fs_same _ _ _ F)) as (_ & _ & Hic & _).
  split_and!; auto.
  - eapply during_fstep; [|exact F]. by apply during_icache.
  - rewrite Hic. unfold s1. simpl. by rewrite length_alter.
  - unfold ino. rewrite Hic. exact Hz1.
  - intros y. rewrite V, decide_True by (done || lia).
    apply get_put_dinode; [apply Hz|]. destruct (iblock_view_ok [] s _ (du_txn _ _ Hd) Hg Hr) as [Hlen _].
    change (view s1 (iblock s (i_inum x))) with (view s (iblock s (i_inum x))). rewrite Hlen. apply dip_off_fit.
  - lia.
  - destruct (same_log _ _ (fs_same _ _ _ F)) as (E1 & E2 & _). unfold inlog in *. rewrite E1, E2. done.
Qed.

Lemma small_begin s0 p ip x :
  idle s0 -> geom s0 -> (ip < length (icache s0))%nat -> ino s0 ip = x ->
  wp begin_op (fun _ s => locked_in s0 ip x s) (with_pid p s0).
Proof.
  intros Hi Hg Hip Hx.
  assert (Hi' : idle (with_pid p s0)).
  { destruct Hi as [I1 I2 I3 I4 I5 I6 I7 I8 I9 I10]. split; auto; [by apply cache_with_pid|by destruct I2]. }
  eapply wp_mono; [by apply idle_begin|]. intros _ s ([C W L O Cm Z] & N & ->).
  split_and!; auto; [|by destruct Hg]. split; auto; [split; auto; simpl; lia|].
  exists (l_lh (fslog s0)). reflexivity.
Qed.

Lemma small_ilock s0 s p ip x :
  locked_in s0 ip x s -> 1 <= i_ref x -> Z.land (i_flags x) I_VALID <> 0 ->
  sl_lk (i_lock x) = false -> sl_locked (i_lock x) = 0 ->
  wp (ilock (Some ip)) (fun _ s' => exists l, sl_lk l = false /\ sl_locked l = 1 /\
    locked_in s0 ip (i_set_lock l x) s') (with_pid p s).
Proof.
  intros (D & G & N & B & Hip & Hx) Hr Hv Hl1 Hl2. set (s1 := with_pid p s).
  assert (Hx1 : ino s1 ip = x) by exact Hx.
  apply ilock_valid; rewrite ?Hx1; auto. exists (mkSleeplock 1 false p). do 2 (split; [done|]).
  split_and!; try done.
  - by apply during_icache, during_with_pid.
  - apply geom_set_icache. by destruct G.
  - simpl. by rewrite length_alter.
  - cbn [lset inode_lock]. rewrite ino_upd_eq by done. by rewrite Hx1.
Qed.

Lemma small_iunlock s0 s p ip x l off m src :
  during s0 s -> (ip < length (icache s))%nat -> ino s ip = sfile_written off m src (i_set_lock l x) ->
  1 <= i_ref x -> sl_lk l = false -> sl_locked l = 1 ->
  wp (iunlock (Some ip)) (fun _ s' => during s0 s' /\ (forall b, view s' b = view s b) /\ fslog s' = fslog s)
    (with_pid p s).
Proof.
  intros D Hip Hx Hr Hl1 Hl2. set (s1 := with_pid p s). set (z := sfile_written _ _ _ _) in Hx.
  assert (Hx1 : ino s1 ip = z) by exact Hx.
  assert (Hz : i_ref z = i_ref x /\ i_lock z = l) by (unfold z, sfile_written; by destruct (_ && _)).
  destruct Hz as [Hz1 Hz2]. apply iunlock_held; rewrite ?Hx1, ?Hz1, ?Hz2; auto.
  split_and!; try done. by apply during_woken, during_icache, during_with_pid.
Qed.

(** [f->off += r] when something was written. *)
Lemma when_off k f y m (g : unit -> M kern Z) (R : outcome kern Z -> Prop) :
  (f < length (k_files k))%nat -> fat k f = y -> 0 <= m -> 0 <= f_off y + m < 2 ^ 32 ->
  (forall k', f_off (fat k' f) = f_off y + m -> k_fs k' = k_fs k -> R (g tt k')) ->
  R (bind (when (0 <? m) (upd_file f (f_set_off (u32 (f_off y + m))))) g k).
Proof.
  intros Hf Hy Hm Hb HR. unfold when, upd_file, bind, modify, ret. destruct (Z.ltb_spec 0 m).
  - apply HR; [|done]. unfold fat. simpl.
    erewrite list_lookup_total_correct by (by rewrite list_lookup_alter_eq, list_lookup_lookup_total_lt).
    simpl. by apply u32_below.
  - replace m with 0 by lia. apply HR; [|done]. rewrite Hy. lia.
Qed.

(** One turn of the loop of filewrite(), from begin_op() to end_op(). *)
Lemma small_turn devsw k f x src n (g : Z -> M kern Z) (R : outcome kern Z -> Prop) :
  small_open k f x -> 0 <= n <= Z.of_nat (length src) -> Forall is_byte src ->
  let y := fat k f in
  let m := sfile_fit (f_off y) n in
  f_off y + n < 2 ^ 32 ->
  (forall k', idle (k_fs k') -> f_off (fat k' f) = f_off y + m ->
     (forall z, get_dinode (dip_off (i_inum x)) (dblock (k_fs k') (iblock (k_fs k) (i_inum x))) z =
        with_dfields (sfile_written (f_off y) m src x) z) -> R (g m k')) ->
  R ((in_fs begin_op ;; in_fs (ilock (Some (f_ip y))) ;;
      r <- in_fs (writei devsw (f_ip y) src (f_off y) n) ;;
      when (0 <? r) (upd_file f (f_set_off (u32 (f_off y + r)))) ;;
      in_fs (iunlock (Some (f_ip y))) ;; in_fs end_op ;; g r) k).
Proof.
  intros [Hf _ _ Hid Hg Hip Hx Hsf Hrf Hv [Hl1 Hl2] Hdev Hr Ho] Hn Hsrc y m Hb HR. fold y in Hip, Hx, Ho.
  set (s0 := k_fs k) in *.
  assert (Hm : 0 <= m <= n /\ f_off y + m <= sizeof_addrs)
    by (pose proof (sf_size _ Hsf); unfold m, sfile_fit; lia).
  apply (in_fs_rule _ _ _ (fun _ s => locked_in s0 (f_ip y) x s)).
  { apply small_begin; auto. }
  intros [] k1 H1 K1.
  apply (in_fs_rule _ _ _ (fun _ s => exists l, sl_lk l = false /\ sl_locked l = 1 /\
    locked_in s0 (f_ip y) (i_set_lock l x) s)).
  { by apply small_ilock. }
  intros [] k2 (l & L1 & L2 & H2) K2.
  apply (in_fs_rule _ _ _ (fun r s => r = m /\ during s0 s /\ (f_ip y < length (icache s))%nat /\
    ino s (f_ip y) = sfile_written (f_off y) m src (i_set_lock l x) /\
    (forall z, get_dinode (dip_off (i_inum x)) (view s (iblock s0 (i_inum x))) z =
       with_dfields (sfile_written (f_off y) m src x) z) /\
    0 <= iblock s0 (i_inum x) /\ ~ inlog s (iblock s0 (i_inum x)))).
  { destruct H2 as (D & G & N & B & Hip2 & Hx2). set (s := with_pid _ _).
    assert (Hib : iblock s (i_inum x) = iblock s0 (i_inum x)) by (unfold iblock; simpl; by rewrite B).
    eapply wp_mono; [apply (small_writei devsw s0 s (f_ip y) (i_set_lock l x)); auto|].
    - split_and!; auto; [by apply during_with_pid|by destruct G].
    - by apply sfile_lock.
    - simpl. rewrite B. done.
    - intros r s' (-> & D' & I' & X' & V' & P' & L'). cbn [i_inum i_set_lock] in *. rewrite Hib in *.
      split_and!; auto. intros z. rewrite V'. apply written_lock. }
  intros r k3 (-> & D3 & I3 & X3 & V3 & P3 & L3) K3.
  assert (Hfile : k_files k3 = k_files k) by congruence.
  apply (when_off _ f y m); [rewrite Hfile; done|unfold fat; by rewrite Hfile|lia|
    change sizeof_addrs with 52 in *; lia|].
  intros k4 F4 S4.
  apply (in_fs_rule _ _ _ (fun _ s => during s0 s /\
    (forall z, get_dinode (dip_off (i_inum x)) (view s (iblock s0 (i_inum x))) z =
       with_dfields (sfile_written (f_off y) m src x) z) /\ ~ inlog s (iblock s0 (i_inum x)))).
  { rewrite S4. eapply wp_mono; [by apply (small_iunlock s0 _ _ _ x l (f_off y) m src)|].
    intros _ s (D & V & L). split_and!; [done| |unfold inlog; by rewrite L]. intros z. by rewrite V. }
  intros [] k5 (D5 & V5 & L5) K5.
  apply (in_fs_rule _ _ _ (fun _ s => idle s /\ dblock s (iblock s0 (i_inum x)) = view (k_fs k5) (iblock s0 (i_inum x)))).
  { eapply wp_mono; [apply (during_end s0); [done|by apply during_with_pid]|].
    intros _ s' [I' V']. split; [done|]. by apply V'. }
  intros [] k6 [I6 V6] K6. apply HR; [done| |].
  - unfold fat in *. rewrite K6, K5. exact F4.
  - intros z. by rewrite V6.
Qed.

(** The loop of filewrite() on a small file does one turn, and goes on, ends or panics. *)
Lemma small_loop devsw k f x addr n (R : outcome kern Z -> Prop) :
  small_open k f x -> 0 < n <= Z.of_nat (length addr) -> n < 2 ^ 31 -> Forall is_byte addr ->
  let off := f_off (fat k f) in
  let n1 := Z.min n write_max in
  let m := sfile_fit off n1 in
  (forall k', idle (k_fs k') -> f_off (fat k' f) = off + m ->
     (forall z, get_dinode (dip_off (i_inum x)) (dblock (k_fs k') (iblock (k_fs k) (i_inum x))) z =
        with_dfields (sfile_written off m addr x) z) ->
     R ((if m <? 0 then ret 0 else if negb (m =? n1) then panic "short filewrite" else
         filewrite_loop devsw (Z.to_nat n) f addr (0 + m) n) k')) ->
  R (filewrite_loop devsw (S (Z.to_nat n)) f addr 0 n k).
Proof.
  intros Hs Hn Hn31 Hby off n1 m HR. cbn [filewrite_loop]. rewrite (proj2 (Z.ltb_lt 0 n)) by lia. cbv zeta.
  rewrite Z.sub_0_r. fold n1. change (drop (Z.to_nat 0) addr) with addr.
  pose proof (so_off _ _ _ Hs) as Ho. pose proof (sf_size _ (so_sfile _ _ _ Hs)) as Hsz.
  change sizeof_addrs with 52 in *. assert (Hmax : write_max = 6656) by reflexivity.
  apply (small_turn devsw k f x addr n1 (fun r => if r <? 0 then ret 0 else
    if negb (r =? n1) then panic "short filewrite" else
    filewrite_loop devsw (Z.to_nat n) f addr (0 + r) n) R); auto; lia.
Qed.

(** C38. write() on a small file, from a kernel in which no other file-system operation runs. When
    the bytes fit into the 52 bytes of the inode, filewrite() returns their number, moves the
    offset, and the inode with the new bytes is on the disk. When they do not fit, writei()
    stores only those that do, and filewrite() panics: a user program can stop the kernel. *)
Theorem filewrite_small_file devsw k f x addr n :
  small_open k f x -> 0 < n <= Z.of_nat (length addr) -> n < 2 ^ 31 -> Forall is_byte addr ->
  let off := f_off (fat k f) in
  if n <=? sizeof_addrs - off then
    wp (filewrite devsw f addr n) (fun r k' =>
      r = n /\ f_off (fat k' f) = off + n /\ idle (k_fs k') /\
      forall z, get_dinode (dip_off (i_inum x)) (dblock (k_fs k') (iblock (k_fs k) (i_inum x))) z =
        with_dfields (sfile_written off n addr x) z) k
  else filewrite devsw f addr n k = Panic "short filewrite".
Proof.
  intros Hs Hn Hn31 Hby off. pose proof (so_off _ _ _ Hs) as Ho.
  pose proof (sf_size _ (so_sfile _ _ _ Hs)) as Hsz. fold off in Ho. change sizeof_addrs with 52 in *.
  assert (Hmax : write_max = 6656) by reflexivity.
  pose (rest o := match o with
    | Ret i s => @ret kern Z (if i =? n then n else -1) s
    | Panic e => Panic e | Sleep c s => Sleep c s | Diverge => Diverge end).
  assert (Hloop : filewrite devsw f addr n k = rest (filewrite_loop devsw (S (Z.to_nat n)) f addr 0 n k)).
  { unfold filewrite. unfold bind at 1, gets. by rewrite (so_writable _ _ _ Hs), (so_type _ _ _ Hs). }
  assert (Hm : sfile_fit off (Z.min n write_max) = Z.min n (52 - off))
    by (unfold sfile_fit; change sizeof_addrs with 52; lia).
  destruct (Z.leb_spec n (52 - off)) as [Hfit|Hfit].
  - rewrite (Z.min_l n (52 - off)) in Hm by lia. apply wp_run. rewrite Hloop.
    apply (small_loop devsw k f x addr n (fun o => exists a s', rest o = Ret a s' /\ _)); auto.
    fold off. rewrite Hm. intros k' I' O' V'. replace (Z.min n write_max) with n by lia.
    rewrite (proj2 (Z.ltb_ge n 0)), Z.eqb_refl by lia. cbn [negb]. exists n, k'. split; [|done].
    destruct (Z.to_nat n); cbn [filewrite_loop]; rewrite Z.add_0_l, Z.ltb_irrefl; cbn; by rewrite Z.eqb_refl.
  - rewrite (Z.min_r n (52 - off)) in Hm by lia. rewrite Hloop.
    apply (small_loop devsw k f x addr n (fun o => rest o = Panic "short filewrite")); auto.
    fold off. rewrite Hm. intros k' _ _ _. rewrite (proj2 (Z.ltb_ge _ 0)) by lia.
    by rewrite (proj2 (Z.eqb_neq _ (Z.min n write_max))) by lia.
Qed.

(** The file system of FsDemo.v with no operation running, and its small file open at its end. *)
Definition idle_fs : fsys := set_icache demo_icache (set_sb (decode_sb fs_super) fs_boot).
Definition small_kern : kern :=
  set_files [mkFile FD_INODE 1 true true 0 1 3] (set_fs idle_fs (demo_kern SYS_write [] [])).

Lemma idle_set ic v s : idle s -> idle (set_icache ic (set_sb v s)).
Proof.
  intros [C W L O Cm N Sz D1 D2 D3]. split; auto; [|by destruct W]. apply cache_set_icache.
  destruct C as [[? ? ? Hb ? ?] ? ?]. split; [split; try done|done|done].
  intros b Hlt. by destruct (Hb b Hlt).
Qed.

Lemma geom_leave ic v s : geom (enter ic v s) -> geom (set_icache ic (set_sb v s)).
Proof. intros []. by split. Qed.

Lemma small_kern_open : small_open small_kern 0 demo_sfile.
Proof.
  split; [apply Nat.lt_0_1|reflexivity|reflexivity|exact (idle_set _ _ _ (proj1 fs_boot_ok))|
    exact (geom_leave _ _ _ fs_state_geom)| |reflexivity|..].
  - apply Nat.ltb_lt. reflexivity.
  - split; [reflexivity|split; discriminate|apply demo_fields].
  - discriminate.
  - discriminate.
  - split; reflexivity.
  - reflexivity.
  - split; [discriminate|reflexivity].
  - split; discriminate.
Qed.

Lemma filewrite_small_file_witness :
  let src := replicate 50 65 in
  wp (filewrite no_devsw 0 src 49) (fun r k' =>
    r = 49 /\ f_off (fat k' 0) = 3 + 49 /\ idle (k_fs k') /\
    forall z, get_dinode (dip_off 2) (dblock (k_fs k') (iblock idle_fs 2)) z =
      with_dfields (sfile_written 3 49 src demo_sfile) z) small_kern /\
  filewrite no_devsw 0 src 50 small_kern = Panic "short filewrite".
Proof.
  assert (Hb : Forall is_byte (replicate 50 65)) by (apply Forall_replicate; unfold is_byte; lia).
  split.
  - apply (filewrite_small_file no_devsw small_kern 0 demo_sfile (replicate 50 65) 49 small_kern_open);
      [cbn; lia|lia|exact Hb].
  - apply (filewrite_small_file no_devsw small_kern 0 demo_sfile (replicate 50 65) 50 small_kern_open);
      [cbn; lia|lia|exact Hb].
Defined.
