(* ===== verification/Grep.v ===== *)
(** grep.c: the regular expressions of match(), and the loop of grep() over the reads of a
    file.

    A C string is the list of its bytes before the NUL. *)

From S2P Require Export Prelude.

Open Scope Z_scope.

Definition STAR : Z := 42.
Definition DOT : Z := 46.
Definition DOLLAR : Z := 36.
Definition CARET : Z := 94.
Definition NL : Z := 10.

(** *** The matcher *)

(** The do-while loop of matchstar(); [mh] is matchhere() of the rest of the expression. *)
Fixpoint matchstar (c : Z) (mh : list Z -> bool) (text : list Z) : bool :=
  mh text ||
  match text with
  | [] => false
  | t :: text' => ((t =? c) || (c =? DOT)) && matchstar c mh text'
  end.

Fixpoint matchhere (re text : list Z) : bool :=
  match re with
  | [] => true
  | c :: re' =>
      match re' with
      | s :: re'' =>
          if s =? STAR then matchstar c (matchhere re'') text else
          match text with
          | t :: text' => ((c =? DOT) || (c =? t)) && matchhere re' text'
          | [] => false
          end
      | [] =>
          if c =? DOLLAR then bool_decide (text = []) else
          match text with
          | t :: text' => ((c =? DOT) || (c =? t)) && matchhere re' text'
          | [] => false
          end
      end
  end.

(** The do-while loop of match(): at every suffix, the empty one included. *)
Fixpoint match_loop (re text : list Z) : bool :=
  matchhere re text || match text with [] => false | _ :: text' => match_loop re text' end.

(** match() *)
Definition grep_match (re text : list Z) : bool :=
  match re with
  | c :: re' => if c =? CARET then matchhere re' text else match_loop re text
  | [] => match_loop re text
  end.

(** *** The loop over the reads *)

(** strchr(p, '\n'): the bytes before the newline and those after it. *)
Fixpoint strchr_nl (p : list Z) : option (list Z * list Z) :=
  match p with
  | [] => None
  | c :: p' =>
      if c =? 0 then None else
      if c =? NL then Some ([], p') else
      match strchr_nl p' with
      | Some (line, rest) => Some (c :: line, rest)
      | None => None
      end
  end.

(** The inner loop: the output and the final [p]. It stops after fewer turns than there are
    bytes in the buffer. *)
Fixpoint grep_lines (fuel : nat) (pattern p : list Z) : list Z * list Z :=
  match fuel with
  | O => ([], p)
  | S f =>
      match strchr_nl p with
      | None => ([], p)
      | Some (line, rest) =>
          let '(out, p') := grep_lines f pattern rest in
          ((if grep_match pattern line then line ++ [NL] else []) ++ out, p')
      end
  end.

(** [sizeof(buf)] *)
Definition BUFSZ : nat := 1024.

Section Loop.
(** read(fd, _, n): the bytes read and what is left to read. *)
Context {St : Type} (read : nat -> St -> list Z * St).

(** The outer loop, with the [m] bytes of the buffer; [None] when the fuel is used up. *)
Fixpoint grep_loop (fuel : nat) (pattern : list Z) (buf : list Z) (s : St) : option (list Z) :=
  match fuel with
  | O => None
  | S f =>
      match read (BUFSZ - length buf - 1)%nat s with
      | ([], _) => Some []
      | (d, s') =>
          let buf := buf ++ d in
          let '(out, p) := grep_lines (S (length buf)) pattern buf in
          let buf := if decide (length p = length buf) then [] else p in
          app out <$> grep_loop f pattern buf s'
      end
  end.

Definition grep (fuel : nat) (pattern : list Z) (s : St) : option (list Z) :=
  grep_loop fuel pattern [] s.
End Loop.

(** *** Regular expressions *)

Inductive atom : Type := Any | Chr (c : Z).
Inductive piece : Type := One (a : atom) | Star (a : atom).

Definition atom_ok (a : atom) (c : Z) : Prop :=
  match a with Any => True | Chr d => d = c end.

(** The string is in the language of the sequence of pieces. *)
Inductive rmatch : list piece -> list Z -> Prop :=
| rm_nil : rmatch [] []
| rm_one a c ps s : atom_ok a c -> rmatch ps s -> rmatch (One a :: ps) (c :: s)
| rm_skip a ps s : rmatch ps s -> rmatch (Star a :: ps) s
| rm_more a c ps s : atom_ok a c -> rmatch (Star a :: ps) s -> rmatch (Star a :: ps) (c :: s).

Definition to_atom (c : Z) : atom := if c =? DOT then Any else Chr c.

(** The pieces of an expression, and whether it ends in a [$]. *)
Fixpoint pieces (re : list Z) : list piece * bool :=
  match re with
  | [] => ([], false)
  | c :: re' =>
      match re' with
      | s :: re'' =>
          if s =? STAR then let '(ps, e) := pieces re'' in (Star (to_atom c) :: ps, e)
          else let '(ps, e) := pieces re' in (One (to_atom c) :: ps, e)
      | [] => if c =? DOLLAR then ([], true) else ([One (to_atom c)], false)
      end
  end.

(** A prefix of the text is in the language, all of it when the end is anchored. *)
Definition prefix_match (r : list piece * bool) (text : list Z) : Prop :=
  exists mid post, text = mid ++ post /\ rmatch (fst r) mid /\ (snd r = true -> post = []).

Lemma atom_ok_star c t : (t =? c) || (c =? DOT) = true <-> atom_ok (to_atom c) t.
Proof.
  unfold to_atom. destruct (Z.eqb_spec c DOT); simpl; [by rewrite orb_true_r|].
  rewrite orb_false_r, Z.eqb_eq. split; congruence.
Qed.

Lemma atom_ok_one c t : (c =? DOT) || (c =? t) = true <-> atom_ok (to_atom c) t.
Proof. rewrite orb_comm, Z.eqb_sym. apply atom_ok_star. Qed.

Lemma prefix_nil e text : prefix_match ([], e) text <-> (e = true -> text = []).
Proof.
  split.
  - intros (mid & post & -> & Hm & He). inversion Hm. subst. done.
  - intros He. exists [], text. split; [done|]. split; [constructor|done].
Qed.

Lemma prefix_one a ps e text :
  prefix_match (One a :: ps, e) text <->
  exists t text', text = t :: text' /\ atom_ok a t /\ prefix_match (ps, e) text'.
Proof.
  split.
  - intros (mid & post & -> & Hm & He). inversion Hm; subst.
    eexists _, _. split; [done|]. split; [done|]. by exists s, post.
  - intros (t & text' & -> & Ha & mid & post & -> & Hm & He).
    exists (t :: mid), post. split; [done|]. split; [by constructor|done].
Qed.

Lemma prefix_star a ps e text :
  prefix_match (Star a :: ps, e) text <->
  prefix_match (ps, e) text \/
  exists t text', text = t :: text' /\ atom_ok a t /\ prefix_match (Star a :: ps, e) text'.
Proof.
  split.
  - intros (mid & post & -> & Hm & He). inversion Hm; subst.
    + left. by exists mid, post.
    + right. eexists _, _. split; [done|]. split; [done|]. by exists s, post.
  - intros [(mid & post & -> & Hm & He)|(t & text' & -> & Ha & mid & post & -> & Hm & He)].
    + exists mid, post. split; [done|]. split; [by constructor|done].
    + exists (t :: mid), post. split; [done|]. split; [by apply rm_more|done].
Qed.

Lemma matchstar_correct c mh ps e :
  (forall text, mh text = true <-> prefix_match (ps, e) text) ->
  forall text, matchstar c mh text = true <-> prefix_match (Star (to_atom c) :: ps, e) text.
Proof.
  intros Hmh text. induction text as [|t text IH]; rewrite prefix_star; simpl;
    rewrite orb_true_iff, Hmh.
  - split; [|intros [?|(? & ? & ? & _)]]; naive_solver.
  - rewrite andb_true_iff, atom_ok_star, IH. naive_solver.
Qed.

(** One character of the expression against one of the text. *)
Lemma matchone_correct c mh r :
  (forall text, mh text = true <-> prefix_match r text) ->
  forall text, match text with t :: text' => ((c =? DOT) || (c =? t)) && mh text' | [] => false end = true
    <-> prefix_match (One (to_atom c) :: fst r, snd r) text.
Proof.
  intros Hmh text. rewrite prefix_one. destruct text as [|t text].
  - split; [done|]. by intros (? & ? & ? & _).
  - rewrite andb_true_iff, atom_ok_one, Hmh. destruct r. naive_solver.
Qed.

Lemma matchhere_correct re text : matchhere re text = true <-> prefix_match (pieces re) text.
Proof.
  revert text. induction re as [re IH] using (induction_ltof1 _ length). unfold ltof in IH.
  intros text. destruct re as [|c [|s re]].
  - simpl. rewrite prefix_nil. done.
  - cbn [matchhere pieces]. destruct (c =? DOLLAR).
    + rewrite prefix_nil, bool_decide_eq_true. naive_solver.
    + apply (matchone_correct c (matchhere []) ([], false)). intros t. apply (IH []). simpl. lia.
  - cbn [matchhere pieces]. destruct (s =? STAR) eqn:Es.
    + pose proof (fun t => IH re ltac:(simpl; lia) t) as Hr. destruct (pieces re) as [ps e].
      by apply matchstar_correct.
    + pose proof (fun t => IH (s :: re) ltac:(simpl; lia) t) as Hr.
      pose proof (matchone_correct c _ _ Hr text) as Hm. cbn [pieces] in Hm.
      destruct (pieces (s :: re)) as [ps e] eqn:Ep. cbn [pieces] in Ep. rewrite Ep in *. exact Hm.
Qed.

Lemma match_loop_correct re text :
  match_loop re text = true <-> exists pre rest, text = pre ++ rest /\ prefix_match (pieces re) rest.
Proof.
  induction text as [|t text IH]; simpl; rewrite orb_true_iff, matchhere_correct.
  - split.
    + intros [?|?]; [by exists [], []|done].
    + intros (pre & rest & He & Hm). destruct pre, rest; try done. by left.
  - rewrite IH. split.
    + intros [?|(pre & rest & -> & ?)]; [by exists [], (t :: text)|by exists (t :: pre), rest].
    + intros ([|t' pre] & rest & He & Hm); simplify_eq/=; [by left|right; eauto].
Qed.

(** The expression without its leading [^], and whether it has one. *)
Definition anchored (re : list Z) : list Z * bool :=
  match re with
  | c :: re' => if c =? CARET then (re', true) else (re, false)
  | [] => ([], false)
  end.

(** C28. match() decides the language of the regular expression: it returns 1 exactly when some
    substring of the text is in the language of the pieces of the expression, at the start of
    the text when the expression begins with [^], and at its end when it ends with [$]. *)
Theorem grep_match_correct re text :
  grep_match re text = true <->
  exists pre mid post, text = pre ++ mid ++ post /\
    rmatch (fst (pieces (fst (anchored re)))) mid /\
    (snd (anchored re) = true -> pre = []) /\
    (snd (pieces (fst (anchored re))) = true -> post = []).
Proof.
  assert (Hl : forall r, match_loop r text = true <-> exists pre mid post, text = pre ++ mid ++ post /\
    rmatch (fst (pieces r)) mid /\ (false = true -> pre = []) /\ (snd (pieces r) = true -> post = [])).
  { intros r. rewrite match_loop_correct. unfold prefix_match. naive_solver. }
  unfold grep_match, anchored. destruct re as [|c re]; [apply Hl|].
  destruct (c =? CARET); [|apply Hl]. simpl. rewrite matchhere_correct. unfold prefix_match. split.
  - intros (mid & post & -> & Hm & He). by exists [], mid, post.
  - intros (pre & mid & post & -> & Hm & Hp & He). rewrite Hp by done. by exists mid, post.
Qed.

(** *** The lines of a file *)

(** The complete lines, without their newlines, and the rest. *)
Fixpoint lines (input : list Z) : list (list Z) * list Z :=
  match input with
  | [] => ([], [])
  | c :: input' =>
      let '(ls, rest) := lines input' in
      if c =? NL then ([] :: ls, rest) else
      match ls with
      | [] => ([], c :: rest)
      | l :: ls' => ((c :: l) :: ls', rest)
      end
  end.

Definition print_line (pattern line : list Z) : list Z :=
  if grep_match pattern line then line ++ [NL] else [].
Definition print_lines (pattern : list Z) (ls : list (list Z)) : list Z :=
  concat (print_line pattern <$> ls).

Definition no_nul (l : list Z) : Prop := Forall (fun c => c <> 0) l.

(** read() of a file returns what is asked for while there is something left. *)
Definition file_read (n : nat) (input : list Z) : list Z * list Z := (take n input, drop n input).

Lemma lines_app l1 l2 :
  lines (l1 ++ l2) =
  let '(ls, rest) := lines l1 in let '(ls', rest') := lines (rest ++ l2) in (ls ++ ls', rest').
Proof.
  induction l1 as [|c l1 IH]; simpl; [by destruct (lines l2)|]. rewrite IH.
  destruct (lines l1) as [ls rest]. destruct (c =? NL) eqn:Ec.
  - by destruct (lines (rest ++ l2)).
  - destruct ls as [|l ls]; simpl; [rewrite Ec|]; by destruct (lines (rest ++ l2)) as [[|] ?].
Qed.

Lemma lines_rest l : lines (snd (lines l)) = ([], snd (lines l)).
Proof.
  induction l as [|c l IH]; simpl; [done|]. destruct (lines l) as [ls rest]. simpl in IH.
  destruct (c =? NL) eqn:Ec; [done|]. destruct ls; simpl; [|done]. by rewrite IH, Ec.
Qed.

Lemma strchr_some p line rest :
  strchr_nl p = Some (line, rest) ->
  lines p = (line :: fst (lines rest), snd (lines rest)) /\ p = line ++ NL :: rest.
Proof.
  revert line rest. induction p as [|c p IH]; intros line rest; simpl; [done|].
  destruct (c =? 0); [done|]. destruct (Z.eqb_spec c NL) as [->|].
  - intros [= <- <-]. by destruct (lines p).
  - destruct (strchr_nl p) as [[l r]|]; [|done]. intros [= <- <-].
    destruct (IH _ _ eq_refl) as [-> ->]. done.
Qed.

Lemma strchr_none p : no_nul p -> strchr_nl p = None -> lines p = ([], p).
Proof.
  induction 1 as [|c p Hc Hp IH]; simpl; [done|]. rewrite (proj2 (Z.eqb_neq c 0)) by done.
  destruct (c =? NL); [done|]. destruct (strchr_nl p) as [[l r]|]; [done|]. intros _.
  by rewrite IH.
Qed.

Lemma no_nul_app l1 l2 : no_nul (l1 ++ l2) <-> no_nul l1 /\ no_nul l2.
Proof. apply Forall_app. Qed.

(** The inner loop prints the complete lines of the buffer and leaves the rest. *)
Lemma grep_lines_correct fuel pattern p :
  no_nul p -> (length p < fuel)%nat ->
  grep_lines fuel pattern p = (print_lines pattern (fst (lines p)), snd (lines p)).
Proof.
  revert p. induction fuel as [|fuel IH]; intros p Hn Hf; [lia|]. cbn [grep_lines].
  destruct (strchr_nl p) as [[line rest]|] eqn:Es.
  - apply strchr_some in Es as [-> Hp]. subst p. rewrite length_app in Hf. simpl in Hf.
    apply no_nul_app in Hn as [_ Hn]. inversion Hn; subst. rewrite IH by (done || lia). done.
  - by rewrite strchr_none.
Qed.

Lemma lines_length p : (length (snd (lines p)) <= length p)%nat.
Proof.
  induction p as [|c p IH]; simpl; [lia|]. destruct (lines p) as [ls rest]. simpl in IH.
  destruct (c =? NL); [simpl; lia|]. destruct ls; simpl; lia.
Qed.

Lemma lines_shorter p : fst (lines p) <> [] -> (length (snd (lines p)) < length p)%nat.
Proof.
  induction p as [|c p IH]; simpl; [done|]. pose proof (lines_length p).
  destruct (lines p) as [ls rest]. simpl in *. destruct (c =? NL); [simpl; lia|].
  destruct ls; simpl; [done|]. intros _. specialize (IH ltac:(done)). lia.
Qed.

Lemma lines_none p : fst (lines p) = [] -> snd (lines p) = p.
Proof.
  induction p as [|c p IH]; simpl; [done|]. destruct (lines p) as [ls rest]. simpl in *.
  destruct (c =? NL); [done|]. destruct ls; simpl; [|done]. intros _. by rewrite IH.
Qed.

Lemma lines_no_nul p : no_nul p -> no_nul (snd (lines p)).
Proof.
  induction 1 as [|c p Hc Hp IH]; simpl; [constructor|]. destruct (lines p) as [ls rest]. simpl in *.
  destruct (c =? NL); [done|]. destruct ls; simpl; [by constructor|done].
Qed.

(** A buffer without a newline is the start of the next line. *)
Lemma lines_head b r :
  lines b = ([], b) ->
  fst (lines (b ++ r)) = match fst (lines r) with [] => [] | l :: ls => (b ++ l) :: ls end.
Proof.
  induction b as [|c b IH]; intros Hb; simpl; [by destruct (fst (lines r))|].
  simpl in Hb. destruct (lines b) as [ls rest]. destruct (c =? NL); [done|].
  destruct ls; [|done]. injection Hb as ->. specialize (IH eq_refl).
  destruct (lines (b ++ r)) as [ls' rest']. simpl in IH. subst ls'. by destruct (fst (lines r)).
Qed.

(** A newline after such a buffer ends a line at least as long as the buffer. *)
Lemma lines_long b r :
  lines b = ([], b) -> Forall (fun l => (length l < length b)%nat) (fst (lines (b ++ r))) ->
  fst (lines r) = [].
Proof.
  intros Hb. rewrite lines_head by done. destruct (fst (lines r)) as [|l ls]; [done|]. intros Hf.
  inversion Hf as [|? ? Hl]. rewrite length_app in Hl. lia.
Qed.

Lemma print_lines_app pattern l1 l2 :
  print_lines pattern (l1 ++ l2) = print_lines pattern l1 ++ print_lines pattern l2.
Proof. unfold print_lines. by rewrite fmap_app, concat_app. Qed.

(** The longest line, with its newline, that the buffer holds beside the NUL. *)
Definition MAXLINE : nat := 1022.

Definition short_lines (input : list Z) : Prop :=
  Forall (fun l => (length l <= MAXLINE)%nat) (fst (lines input)).

Lemma grep_loop_correct fuel pattern b input :
  no_nul (b ++ input) -> lines b = ([], b) -> (length b <= MAXLINE)%nat ->
  short_lines (b ++ input) -> (length input < fuel)%nat ->
  grep_loop file_read fuel pattern b input = Some (print_lines pattern (fst (lines (b ++ input)))).
Proof.
  revert b input. induction fuel as [|fuel IH]; intros b input Hn Hb Hl Hs Hf; [lia|].
  cbn [grep_loop]. unfold file_read at 1. set (sp := (BUFSZ - length b - 1)%nat).
  assert (Hsp : sp = (1023 - length b)%nat) by (unfold sp, BUFSZ; lia). unfold MAXLINE in *.
  set (r := drop sp input) in *. pose proof (length_drop input sp) as Hlr. fold r in Hlr.
  destruct (take sp input) as [|c d] eqn:Et.
  { assert (input = []) as -> by (apply (f_equal length) in Et; rewrite length_take in Et;
      destruct input; [done|simpl in *; lia]).
    by rewrite app_nil_r, Hb. }
  assert (Hpos : (0 < length input)%nat)
    by (apply (f_equal length) in Et; rewrite length_take in Et; simpl in Et; lia).
  rewrite <- Et in *. clear Et c d. set (buf := b ++ take sp input) in *.
  assert (Hbr : b ++ input = buf ++ r) by (unfold buf, r; by rewrite <- app_assoc, take_drop).
  rewrite Hbr in Hn, Hs |- *.
  assert (Hlb : (length buf <= 1023)%nat) by (unfold buf; rewrite length_app, length_take; lia).
  apply no_nul_app in Hn as [Hnb Hnr]. rewrite grep_lines_correct by (done || lia).
  destruct (decide (fst (lines buf) = [])) as [He|He].
  - rewrite (lines_none _ He), decide_True by done.
    assert (Hbl : lines buf = ([], buf)) by (rewrite <- (lines_none _ He) at 2; by destruct (lines buf); simpl in *; subst).
    assert (Hr : fst (lines r) = []).
    { destruct (decide (r = [])) as [->|Hne]; [done|]. apply (lines_long buf); [done|].
      assert (length buf = 1023)%nat as ->.
      { unfold buf. rewrite length_app, length_take. destruct r; [done|]. simpl in Hlr. lia. }
      eapply Forall_impl; [exact Hs|]. simpl. unfold MAXLINE. lia. }
    assert (length r < fuel)%nat by lia.
    rewrite IH; simpl; try done; [|lia|unfold short_lines; by rewrite Hr].
    rewrite (lines_head buf r Hbl), Hr, He. done.
  - pose proof (lines_shorter _ He) as Hsh. rewrite decide_False by lia.
    pose proof (lines_app buf r) as Ha. pose proof (lines_rest buf) as Hrest.
    pose proof (lines_no_nul _ Hnb) as Hnn. destruct (lines buf) as [ls rest] eqn:Eb. simpl in *.
    unfold short_lines in Hs. destruct (lines (rest ++ r)) as [ls' rest'] eqn:Er.
    rewrite Ha in Hs |- *. simpl in Hs |- *. apply Forall_app in Hs as [_ Hs].
    rewrite IH; [|by apply no_nul_app|done|lia|unfold short_lines; by rewrite Er|lia].
    rewrite Er. simpl. by rewrite print_lines_app.
Qed.

(** grep() of a file prints exactly the lines that match, in order, and it terminates: for
    a text without NUL bytes whose lines, with their newlines, fit into the buffer. A last
    line without a newline is not printed. *)
Theorem grep_prints_matching_lines pattern input fuel :
  no_nul input -> short_lines input -> (length input < fuel)%nat ->
  grep file_read fuel pattern input =
    Some (concat ((fun l => if grep_match pattern l then l ++ [NL] else []) <$> fst (lines input))).
Proof.
  intros Hn Hs Hf. unfold grep.
  apply (grep_loop_correct fuel pattern [] input); simpl; try done. unfold MAXLINE. lia.
Qed.

(** "ab", newline, "cd", newline, "xa". *)
Lemma grep_prints_matching_lines_witness :
  grep file_read 9 [97] [97; 98; 10; 99; 100; 10; 120; 97] = Some [97; 98; 10].
Proof.
  assert (Hn : no_nul [97; 98; 10; 99; 100; 10; 120; 97]) by (repeat constructor; lia).
  assert (Hs : short_lines [97; 98; 10; 99; 100; 10; 120; 97])
    by (unfold short_lines; repeat constructor; vm_compute; lia).
  rewrite (grep_prints_matching_lines [97] _ 9 Hn Hs ltac:(simpl; lia)). vm_compute. reflexivity.
Defined.

(** read() of a pipe or of a terminal: each read returns at most what has arrived. *)
Definition pipe_read (n : nat) (chunks : list (list Z)) : list Z * list (list Z) :=
  match chunks with
  | [] => ([], [])
  | d :: rest => (take n d, match drop n d with [] => rest | d' => d' :: rest end)
  end.

(** grep() loses the start of a line that arrives in two reads, when no complete line
    arrives with it: the matching line "ab" is not printed when the reads return "a" and then
    "b" and a newline, although it is printed when they return more at once. *)
Theorem grep_split_line_lost :
  let text := [97; 98; 10] in
  grep file_read 9 [97] text = Some text /\
  grep pipe_read 9 [97] [text] = Some text /\
  grep pipe_read 9 [97] [[97]; [98; 10]] = Some [].
Proof. vm_compute. auto. Qed.
