(* ===== verification/Sh.v ===== *)
(** The parser of the shell, sh.c.

    A command line is the list of the bytes of [buf] before its NUL; a pointer into it is an
    index, and the byte at the end reads as NUL. The constructors of commands allocate memory,
    which the model takes to succeed. *)

From S2P Require Export Param.

Open Scope Z_scope.

(** *** Commands *)

Definition EXEC : Z := 1.
Definition REDIR : Z := 2.
Definition PIPE : Z := 3.
Definition LIST : Z := 4.
Definition BACK : Z := 5.
Definition MAXARGS : nat := 10.

(** A string of the command line, from its first byte to the byte after its last. *)
Definition str : Type := nat * nat.

(** struct cmd and its variants; [A] is the type of the strings. *)
Inductive cmd (A : Type) : Type :=
| Exec (argv : list A)
| Redir (c : cmd A) (file : A) (mode fd : Z)
| Pipe (left right : cmd A)
| List_ (left right : cmd A)
| Back (c : cmd A).
Arguments Exec {A} argv.
Arguments Redir {A} c file mode fd.
Arguments Pipe {A} left right.
Arguments List_ {A} left right.
Arguments Back {A} c.

(** [type] of a command. *)
Definition cmd_type {A} (c : cmd A) : Z :=
  match c with
  | Exec _ => EXEC
  | Redir _ _ _ _ => REDIR
  | Pipe _ _ => PIPE
  | List_ _ _ => LIST
  | Back _ => BACK
  end.

(** *** Tokens *)

(** [" \t\r\n\v"] and ["<|>&;()"] *)
Definition whitespace : list Z := [32; 9; 13; 10; 11].
Definition symbols : list Z := [60; 124; 62; 38; 59; 40; 41].

(** strchr() of a set of characters, none of which is NUL. *)
Definition strchr (set : list Z) (c : Z) : bool := bool_decide (c ∈ set).

(** The number of leading bytes that satisfy the test. *)
Fixpoint count_while (f : Z -> bool) (l : list Z) : nat :=
  match l with
  | c :: l' => if f c then S (count_while f l') else O
  | [] => O
  end.

Definition at_ (buf : list Z) (i : nat) : Z := default 0 (buf !! i).

(** [while(s < es && strchr(whitespace, *s)) s++] *)
Definition skip_ws (buf : list Z) (s : nat) : nat := (s + count_while (strchr whitespace) (drop s buf))%nat.

Definition word_char (c : Z) : bool := negb (strchr whitespace c) && negb (strchr symbols c).

(** The value of a token of letters. *)
Definition TOK_WORD : Z := 97.
(** The value of [>>]. *)
Definition TOK_APPEND : Z := 43.

(** gettoken(): the token, where it begins and ends, and the new position. *)
Definition gettoken (buf : list Z) (ps : nat) : Z * str * nat :=
  let q := skip_ws buf ps in
  let c := at_ buf q in
  let '(ret, eq) :=
    if c =? 0 then (0, q)
    else if strchr [124; 40; 41; 59; 38; 60] c then (c, S q)
    else if c =? 62 then if at_ buf (S q) =? 62 then (TOK_APPEND, S (S q)) else (62, S q)
    else (TOK_WORD, (q + count_while word_char (drop q buf))%nat) in
  (ret, (q, eq), skip_ws buf eq).

(** peek(): the new position, and whether the next byte is one of [toks]. *)
Definition peek (buf : list Z) (ps : nat) (toks : list Z) : nat * bool :=
  let s := skip_ws buf ps in
  (s, negb (at_ buf s =? 0) && strchr toks (at_ buf s)).

(** *** The parser *)

(** A value and a position, panic() of the shell, or not enough fuel. *)
Inductive pres (A : Type) : Type :=
| POk (a : A) (ps : nat)
| PPanic (msg : string)
| PFuel.
Arguments POk {A} a ps.
Arguments PPanic {A} msg.
Arguments PFuel {A}.

Definition pbind {A B} (m : pres A) (f : A -> nat -> pres B) : pres B :=
  match m with
  | POk a ps => f a ps
  | PPanic e => PPanic e
  | PFuel => PFuel
  end.

(** A redirection: the file, the mode and the descriptor. *)
Definition redir (tok : Z) (file : str) : str * Z * Z :=
  if tok =? 60 then (file, O_RDONLY, 0) else (file, Z.lor O_WRONLY O_CREATE, 1).

(** redircmd() around a command, for each redirection in turn. *)
Definition wrap {A} (c : cmd A) (rs : list (A * Z * Z)) : cmd A :=
  foldl (fun c '(file, mode, fd) => Redir c file mode fd) c rs.

Section Parser.
Context (buf : list Z).

(** The loop of parseredirs(): the redirections that it adds. *)
Fixpoint parseredirs (fuel : nat) (rs : list (str * Z * Z)) (ps : nat) : pres (list (str * Z * Z)) :=
  match fuel with
  | O => PFuel
  | S f =>
      let '(ps, more) := peek buf ps [60; 62] in
      if negb more then POk rs ps else
      let '(tok, _, ps) := gettoken buf ps in
      let '(tok', file, ps) := gettoken buf ps in
      if negb (tok' =? TOK_WORD) then PPanic "missing file for redirection"
      else parseredirs f (rs ++ [redir tok file]) ps
  end.

(** The loop of parseexec(): the arguments and the redirections so far. *)
Fixpoint parseargs (fuel : nat) (argv : list str) (rs : list (str * Z * Z)) (ps : nat) : pres (cmd str) :=
  match fuel with
  | O => PFuel
  | S f =>
      let '(ps, stop) := peek buf ps [124; 41; 38; 59] in
      if stop then POk (wrap (Exec argv) rs) ps else
      let '(tok, file, ps) := gettoken buf ps in
      if tok =? 0 then POk (wrap (Exec argv) rs) ps else
      if negb (tok =? TOK_WORD) then PPanic "syntax" else
      let argv := argv ++ [file] in
      if (MAXARGS <=? length argv)%nat then PPanic "too many args" else
      pbind (parseredirs fuel rs ps) (fun rs ps => parseargs f argv rs ps)
  end.

(** [while(peek(ps, es, "&")) { gettoken(ps, es, 0, 0); cmd = backcmd(cmd); }] *)
Fixpoint parsebacks (fuel : nat) (c : cmd str) (ps : nat) : pres (cmd str) :=
  match fuel with
  | O => PFuel
  | S f =>
      let '(ps, more) := peek buf ps [38] in
      if negb more then POk c ps else
      let '(_, _, ps) := gettoken buf ps in
      parsebacks f (Back c) ps
  end.

Fixpoint parseline (fuel : nat) (ps : nat) : pres (cmd str) :=
  match fuel with
  | O => PFuel
  | S f =>
      pbind (parsepipe f ps) (fun c ps =>
      pbind (parsebacks fuel c ps) (fun c ps =>
        let '(ps, more) := peek buf ps [59] in
        if negb more then POk c ps else
        let '(_, _, ps) := gettoken buf ps in
        pbind (parseline f ps) (fun c' ps => POk (List_ c c') ps)))
  end
with parsepipe (fuel : nat) (ps : nat) : pres (cmd str) :=
  match fuel with
  | O => PFuel
  | S f =>
      pbind (parseexec f ps) (fun c ps =>
        let '(ps, more) := peek buf ps [124] in
        if negb more then POk c ps else
        let '(_, _, ps) := gettoken buf ps in
        pbind (parsepipe f ps) (fun c' ps => POk (Pipe c c') ps))
  end
with parseexec (fuel : nat) (ps : nat) : pres (cmd str) :=
  match fuel with
  | O => PFuel
  | S f =>
      let '(ps, block) := peek buf ps [40] in
      if block then parseblock f ps else
      pbind (parseredirs fuel [] ps) (fun rs ps => parseargs fuel [] rs ps)
  end
with parseblock (fuel : nat) (ps : nat) : pres (cmd str) :=
  match fuel with
  | O => PFuel
  | S f =>
      let '(ps, block) := peek buf ps [40] in
      if negb block then PPanic "parseblock" else
      let '(_, _, ps) := gettoken buf ps in
      pbind (parseline f ps) (fun c ps =>
        let '(ps, close) := peek buf ps [41] in
        if negb close then PPanic "syntax - missing )" else
        let '(_, _, ps) := gettoken buf ps in
        pbind (parseredirs fuel [] ps) (fun rs ps => POk (wrap c rs) ps))
  end.
End Parser.

(** The strings of a command, in the order in which nulterminate() visits them. *)
Fixpoint strs {A} (c : cmd A) : list A :=
  match c with
  | Exec argv => argv
  | Redir c file _ _ => strs c ++ [file]
  | Pipe l r | List_ l r => strs l ++ strs r
  | Back c => strs c
  end.

(** nulterminate(): a NUL after every string. The buffer has a byte for the NUL at its end. *)
Fixpoint nulterminate (c : cmd str) (buf : list Z) : list Z :=
  match c with
  | Exec argv => foldl (fun b '(_, eq) => <[eq := 0]> b) buf argv
  | Redir c file _ _ => <[snd file := 0]> (nulterminate c buf)
  | Pipe l r | List_ l r => nulterminate r (nulterminate l buf)
  | Back c => nulterminate c buf
  end.

(** Enough for every command line: each level of the grammar and each turn of a loop takes one,
    and there are four levels per parenthesis. *)
Definition parse_fuel (buf : list Z) : nat := (4 * length buf + 8)%nat.

(** parsecmd() up to the check for leftovers, and the NUL-terminated buffer. *)
Definition parsecmd (buf : list Z) : pres (cmd str * list Z) :=
  pbind (parseline buf (parse_fuel buf) 0) (fun c ps =>
    let '(ps, _) := peek buf ps [] in
    if bool_decide (ps <> length buf) then PPanic "syntax"
    else POk (c, nulterminate c (buf ++ [0])) ps).

(** ** The parser of the shell: it terminates on every command line, the strings that it finds are
    what it hands to exec() and open() after nulterminate(), and it reads back what a printer of
    commands prints. *)

(** *** Positions *)

Lemma count_while_le f l : (count_while f l <= length l)%nat.
Proof. induction l as [|c l IH]; simpl; [lia|]. destruct (f c); simpl; lia. Qed.

Lemma count_while_lookup f l i c : (i < count_while f l)%nat -> l !! i = Some c -> f c = true.
Proof.
  revert i. induction l as [|d l IH]; intros i Hi Hc; simpl in *; [lia|].
  destruct (f d) eqn:Ed; [|lia]. destruct i as [|i]; simplify_eq/=; [done|]. apply (IH i); [lia|done].
Qed.

Lemma count_while_stop f l c : l !! count_while f l = Some c -> f c = false.
Proof.
  induction l as [|d l IH]; simpl; [done|]. destruct (f d) eqn:Ed; simpl; [done|]. by intros [= ->].
Qed.

Section Buffer.
Context (buf : list Z).
Abbreviation es := (length buf).

Lemma at_lt i : at_ buf i <> 0 -> (i < es)%nat.
Proof.
  unfold at_. intros H. destruct (buf !! i) eqn:E; [by apply lookup_lt_Some in E|]. by destruct H.
Qed.

Lemma skip_ws_ge s : (s <= skip_ws buf s)%nat.
Proof. unfold skip_ws. lia. Qed.

Lemma skip_ws_le s : (s <= es)%nat -> (skip_ws buf s <= es)%nat.
Proof.
  intros Hs. unfold skip_ws. pose proof (count_while_le (strchr whitespace) (drop s buf)) as H.
  rewrite length_drop in H. lia.
Qed.

Lemma skip_ws_stop s : at_ buf (skip_ws buf s) <> 0 -> strchr whitespace (at_ buf (skip_ws buf s)) = false.
Proof.
  unfold at_, skip_ws. intros H.
  destruct (buf !! (s + count_while (strchr whitespace) (drop s buf))%nat) as [c|] eqn:E; [|done].
  simpl. rewrite <- lookup_drop in E. by apply count_while_stop in E.
Qed.

Lemma skip_ws_idem s : skip_ws buf (skip_ws buf s) = skip_ws buf s.
Proof.
  unfold skip_ws at 1. destruct (drop (skip_ws buf s) buf) as [|c l] eqn:E; simpl; [lia|].
  assert (Hc : strchr whitespace c = false); [|rewrite Hc; lia].
  unfold skip_ws in E. rewrite <- drop_drop in E.
  apply (count_while_stop (strchr whitespace) (drop s buf)).
  pose proof (lookup_drop (drop s buf) (count_while (strchr whitespace) (drop s buf)) 0) as H.
  rewrite E, Nat.add_0_r in H. done.
Qed.

(** A word of the command line: a maximal run of word characters from its first one on. *)
Definition is_word (w : str) : Prop :=
  (fst w < snd w <= es)%nat /\
  (forall i, (fst w <= i < snd w)%nat -> word_char (at_ buf i) = true) /\
  ((snd w < es)%nat -> word_char (at_ buf (snd w)) = false).

Lemma word_run q :
  (q < es)%nat -> word_char (at_ buf q) = true ->
  is_word (q, (q + count_while word_char (drop q buf))%nat).
Proof.
  intros Hq Hw. pose proof (count_while_le word_char (drop q buf)) as Hle. rewrite length_drop in Hle.
  destruct (lookup_lt_is_Some_2 buf q Hq) as [c Hc].
  assert (Hd : drop q buf = c :: drop (S q) buf) by (by apply drop_S).
  unfold is_word; simpl. split; [|split].
  - rewrite Hd. simpl. unfold at_ in Hw. rewrite Hc in Hw. simpl in Hw. rewrite Hw.
    rewrite Hd in Hle. simpl in Hle. rewrite Hw in Hle. lia.
  - intros i Hi. destruct (lookup_lt_is_Some_2 buf i ltac:(lia)) as [d Hi']. unfold at_. rewrite Hi'.
    apply (count_while_lookup word_char (drop q buf) (i - q)); [lia|].
    rewrite lookup_drop. by replace (q + (i - q))%nat with i by lia.
  - intros Hlt. destruct (lookup_lt_is_Some_2 buf _ Hlt) as [d Hd']. unfold at_. rewrite Hd'. simpl.
    rewrite <- lookup_drop in Hd'. by apply count_while_stop in Hd'.
Qed.

(** What gettoken() does: the position moves on, past the end never, and by at least one byte
    unless the input is used up; a word token is a word. *)
Lemma gettoken_spec ps tok w ps' :
  gettoken buf ps = (tok, w, ps') -> (ps <= es)%nat ->
  (ps <= ps' <= es)%nat /\ (tok <> 0 -> (ps < ps')%nat) /\ (tok = TOK_WORD -> is_word w) /\
  (at_ buf (skip_ws buf ps) <> 0 -> tok <> 0).
Proof.
  unfold gettoken. intros Hg Hp. pose proof (skip_ws_ge ps) as Hge. pose proof (skip_ws_le ps Hp) as Hle.
  pose proof (skip_ws_stop ps) as Hstop. set (q := skip_ws buf ps) in *.
  destruct (Z.eqb_spec (at_ buf q) 0) as [H0|H0].
  { injection Hg as <- <- <-. pose proof (skip_ws_ge q). pose proof (skip_ws_le q Hle).
    split_and!; try lia; done. }
  specialize (Hstop H0). pose proof (at_lt q H0) as Hq.
  assert (Hnext : forall e, (q < e <= es)%nat -> (ps <= skip_ws buf e <= es)%nat /\ (ps < skip_ws buf e)%nat).
  { intros e He. pose proof (skip_ws_ge e). pose proof (skip_ws_le e). lia. }
  destruct (strchr [124; 40; 41; 59; 38; 60] (at_ buf q)) eqn:Es.
  { injection Hg as <- <- <-. destruct (Hnext (S q)) as [? ?]; [lia|]. split_and!; try lia.
    intros Ha. unfold strchr in Es. apply bool_decide_eq_true in Es. rewrite Ha in Es.
    unfold TOK_WORD in Es. set_solver. }
  destruct (Z.eqb_spec (at_ buf q) 62) as [Hgt|Hgt].
  { destruct (Z.eqb_spec (at_ buf (S q)) 62) as [H2|H2]; injection Hg as <- <- <-.
    - pose proof (at_lt (S q)) as Hq2. destruct (Hnext (S (S q))) as [? ?]; [lia|]. split_and!; try lia; done.
    - destruct (Hnext (S q)) as [? ?]; [lia|]. split_and!; try lia; done. }
  injection Hg as <- <- <-.
  assert (Hw : word_char (at_ buf q) = true).
  { unfold word_char. rewrite Hstop. simpl. apply negb_true_iff. unfold strchr in *.
    apply bool_decide_eq_false in Es. apply bool_decide_eq_false.
    unfold symbols. set_solver. }
  destruct (word_run q Hq Hw) as [Hlt Hrest]. simpl in Hlt.
  destruct (Hnext (q + count_while word_char (drop q buf))%nat) as [? ?]; [lia|].
  split_and!; try lia; done.
Qed.

Lemma peek_spec ps toks ps' b :
  peek buf ps toks = (ps', b) -> (ps <= es)%nat ->
  (ps <= ps' <= es)%nat /\ ps' = skip_ws buf ps /\ (b = true -> at_ buf ps' <> 0 /\ at_ buf ps' ∈ toks).
Proof.
  unfold peek. intros [= <- <-] Hp. pose proof (skip_ws_ge ps). pose proof (skip_ws_le ps Hp).
  split; [lia|]. split; [done|]. intros [H1 H2]%andb_true_iff. apply negb_true_iff, Z.eqb_neq in H1.
  split; [done|]. by apply bool_decide_eq_true in H2.
Qed.

(** *** Termination *)

(** The result is a panic, or a value that satisfies [P]; it is not a lack of fuel. *)
Definition pok {A} (P : A -> nat -> Prop) (r : pres A) : Prop :=
  match r with POk a ps => P a ps | PPanic _ => True | PFuel => False end.

Lemma pok_bind {A B} (P : A -> nat -> Prop) (Q : B -> nat -> Prop) m f :
  pok P m -> (forall a ps, P a ps -> pok Q (f a ps)) -> pok Q (pbind m f).
Proof. destruct m; simpl; auto. Qed.

Lemma pok_weaken {A} (P Q : A -> nat -> Prop) r :
  pok P r -> (forall a ps, P a ps -> Q a ps) -> pok Q r.
Proof. destruct r; simpl; auto. Qed.

(** The parser has moved on from [ps] and found words. *)
Definition moved (ps : nat) (ws : list str) (ps' : nat) : Prop :=
  (ps <= ps' <= es)%nat /\ Forall (is_word) ws.

Lemma strs_wrap c rs : strs (wrap c rs) = strs c ++ ((fun r => fst (fst r)) <$> rs : list str).
Proof.
  unfold wrap. revert c. induction rs as [|[[f m] fd] rs IH]; intros c; simpl; [by rewrite app_nil_r|].
  rewrite IH. simpl. by rewrite <- app_assoc.
Qed.

Abbreviation rfiles rs := ((fun r => fst (fst r)) <$> rs : list str).

Lemma parseredirs_ok fuel rs ps :
  (ps <= es)%nat -> (es - ps < fuel)%nat -> Forall is_word (rfiles rs) ->
  pok (fun rs' ps' => moved ps (rfiles rs') ps') (parseredirs buf fuel rs ps).
Proof.
  revert rs ps. induction fuel as [|fuel IH]; intros rs ps Hp Hf Hw; [lia|]. cbn [parseredirs].
  destruct (peek buf ps [60; 62]) as [p1 more] eqn:E1.
  destruct (peek_spec _ _ _ _ E1 Hp) as (H1 & -> & Hm). destruct more; [|by split].
  destruct (gettoken buf _) as [[tok w] p2] eqn:E2.
  destruct (gettoken_spec _ _ _ _ E2) as (H2 & H2' & _ & Hn); [lia|].
  rewrite skip_ws_idem in Hn. destruct (Hm eq_refl) as [Hm1 _]. specialize (H2' (Hn Hm1)).
  destruct (gettoken buf p2) as [[tok' file] p3] eqn:E3.
  destruct (gettoken_spec _ _ _ _ E3) as (H3 & H3' & Hfile & _); [lia|].
  destruct (Z.eqb_spec tok' TOK_WORD) as [->|]; [|done]. simpl.
  eapply pok_weaken; [apply IH|]; [lia|lia| |].
  - rewrite fmap_app. apply Forall_app_2; [done|]. constructor; [|constructor].
    unfold redir. destruct (tok =? 60); simpl; auto.
  - intros rs' ps' [? ?]. split; [lia|done].
Qed.

Lemma parseargs_ok fuel argv rs ps :
  (ps <= es)%nat -> (es - ps < fuel)%nat -> Forall is_word argv -> Forall is_word (rfiles rs) ->
  pok (fun c ps' => moved ps (strs c) ps') (parseargs buf fuel argv rs ps).
Proof.
  revert argv rs ps. induction fuel as [|fuel IH]; intros argv rs ps Hp Hf Ha Hr; [lia|]. cbn [parseargs].
  assert (Hend : forall ps', (ps <= ps' <= es)%nat -> moved ps (strs (wrap (Exec argv) rs)) ps').
  { intros ps' ?. split; [done|]. rewrite strs_wrap. by apply Forall_app_2. }
  destruct (peek buf ps _) as [p1 stop] eqn:E1.
  destruct (peek_spec _ _ _ _ E1 Hp) as (H1 & -> & _). destruct stop; [by apply Hend|].
  destruct (gettoken buf _) as [[tok w] p2] eqn:E2.
  destruct (gettoken_spec _ _ _ _ E2) as (H2 & H2' & Hword & _); [lia|].
  destruct (Z.eqb_spec tok 0); [apply Hend; lia|]. specialize (H2' ltac:(done)).
  destruct (Z.eqb_spec tok TOK_WORD) as [->|]; [|done]. cbn [negb].
  destruct (MAXARGS <=? _)%nat; [done|].
  eapply pok_bind; [apply (parseredirs_ok (S fuel)); [lia|lia|done]|]. intros rs' p3 [H3 Hr'].
  eapply pok_weaken; [apply IH; [lia|lia| |done]|].
  - apply Forall_app_2; [done|]. constructor; auto.
  - intros c ps' [? ?]. split; [lia|done].
Qed.

Lemma parsebacks_ok fuel c ps :
  (ps <= es)%nat -> (es - ps < fuel)%nat -> Forall is_word (strs c) ->
  pok (fun c' ps' => moved ps (strs c') ps') (parsebacks buf fuel c ps).
Proof.
  revert c ps. induction fuel as [|fuel IH]; intros c ps Hp Hf Hw; [lia|]. cbn [parsebacks].
  destruct (peek buf ps [38]) as [p1 more] eqn:E1.
  destruct (peek_spec _ _ _ _ E1 Hp) as (H1 & -> & Hm). destruct more; [|by split].
  destruct (gettoken buf _) as [[tok w] p2] eqn:E2.
  destruct (gettoken_spec _ _ _ _ E2) as (H2 & H2' & _ & Hn); [lia|].
  rewrite skip_ws_idem in Hn. destruct (Hm eq_refl) as [Hm1 _]. specialize (H2' (Hn Hm1)).
  eapply pok_weaken; [apply IH; [lia|lia|done]|]. intros c' ps' [? ?]. split; [lia|done].
Qed.

(** A symbol that peek() has seen and gettoken() takes. *)
Lemma take_symbol ps toks p1 tok w p2 :
  (ps <= es)%nat -> peek buf ps toks = (p1, true) -> gettoken buf p1 = (tok, w, p2) ->
  (ps <= p1 < p2)%nat /\ (p2 <= es)%nat.
Proof.
  intros Hp E1 E2. destruct (peek_spec _ _ _ _ E1 Hp) as (H1 & -> & Hm).
  destruct (gettoken_spec _ _ _ _ E2) as (H2 & H2' & _ & Hn); [lia|].
  rewrite skip_ws_idem in Hn. destruct (Hm eq_refl) as [Hm1 _]. specialize (H2' (Hn Hm1)). lia.
Qed.

Definition parse_ok (parse : nat -> nat -> pres (cmd str)) (k : nat) (fuel : nat) : Prop :=
  forall ps, (ps <= es)%nat -> (4 * (es - ps) + k <= fuel)%nat ->
  pok (fun c ps' => moved ps (strs c) ps') (parse fuel ps).

Lemma parser_ok fuel :
  parse_ok (parseline buf) 4 fuel /\ parse_ok (parsepipe buf) 3 fuel /\
  parse_ok (parseexec buf) 2 fuel /\ parse_ok (parseblock buf) 1 fuel.
Proof.
  induction fuel as [|fuel (IHl & IHp & IHe & IHb)]; [split_and!; intros ps ? ?; lia|].
  split_and!; intros ps Hp Hf.
  - cbn [parseline]. eapply pok_bind; [apply IHp; lia|]. intros c p1 [H1 W1].
    eapply pok_bind; [apply parsebacks_ok; [lia|lia|done]|]. intros c1 p2 [H2 W2].
    destruct (peek buf p2 [59]) as [p3 more] eqn:E3.
    destruct (peek_spec _ _ _ _ E3) as (H3 & _); [lia|]. destruct more; [|split; [lia|done]].
    destruct (gettoken buf p3) as [[tok w] p4] eqn:E4.
    destruct (take_symbol p2 _ _ _ _ _ ltac:(lia) E3 E4) as [H4 H4'].
    eapply pok_bind; [apply IHl; lia|]. intros c2 p5 [H5 W5]. split; [lia|]. by apply Forall_app_2.
  - cbn [parsepipe]. eapply pok_bind; [apply IHe; lia|]. intros c p1 [H1 W1].
    destruct (peek buf p1 [124]) as [p3 more] eqn:E3.
    destruct (peek_spec _ _ _ _ E3) as (H3 & _); [lia|]. destruct more; [|split; [lia|done]].
    destruct (gettoken buf p3) as [[tok w] p4] eqn:E4.
    destruct (take_symbol p1 _ _ _ _ _ ltac:(lia) E3 E4) as [H4 H4'].
    eapply pok_bind; [apply IHp; lia|]. intros c2 p5 [H5 W5]. split; [lia|]. by apply Forall_app_2.
  - cbn [parseexec]. destruct (peek buf ps [40]) as [p1 block] eqn:E1.
    destruct (peek_spec _ _ _ _ E1 Hp) as (H1 & _). destruct block.
    + eapply pok_weaken; [apply IHb; lia|]. intros c ps' [? ?]. split; [lia|done].
    + eapply pok_bind; [apply parseredirs_ok; [lia|lia|constructor]|]. intros rs p2 [H2 W2].
      eapply pok_weaken; [apply parseargs_ok; [lia|lia|constructor|done]|].
      intros c ps' [? ?]. split; [lia|done].
  - cbn [parseblock]. destruct (peek buf ps [40]) as [p1 block] eqn:E1. destruct block; [|done]. cbn [negb].
    destruct (gettoken buf p1) as [[tok w] p2] eqn:E2.
    destruct (take_symbol ps _ _ _ _ _ Hp E1 E2) as [H2 H2'].
    eapply pok_bind; [apply IHl; lia|]. intros c p3 [H3 W3].
    destruct (peek buf p3 [41]) as [p4 close] eqn:E4. destruct close; [|done]. cbn [negb].
    destruct (gettoken buf p4) as [[tok' w'] p5] eqn:E5.
    destruct (take_symbol p3 _ _ _ _ _ ltac:(lia) E4 E5) as [H5 H5'].
    eapply pok_bind; [apply parseredirs_ok; [lia|lia|constructor]|]. intros rs p6 [H6 W6].
    split; [lia|]. rewrite strs_wrap. by apply Forall_app_2.
Qed.
End Buffer.

(** *** The strings after nulterminate() *)

(** The C string at the start of a buffer. *)
Definition cstring (l : list Z) : list Z := take (count_while (fun c => negb (c =? 0)) l) l.

Lemma cstring_prefix (l : list Z) n :
  (forall i c, (i < n)%nat -> l !! i = Some c -> c <> 0) -> l !! n = Some 0 -> cstring l = take n l.
Proof.
  intros Hnz H0. unfold cstring. f_equal. revert n Hnz H0.
  induction l as [|c l IH]; intros n Hnz H0; [done|]. simpl. destruct n as [|n]; simplify_eq/=; [done|].
  rewrite (proj2 (Z.eqb_neq c 0)) by (apply (Hnz 0%nat); [lia|done]). simpl. f_equal.
  apply IH; [|done]. intros i d Hi Hd. apply (Hnz (S i)); [lia|done].
Qed.

Lemma nulterminate_strs c b : nulterminate c b = foldl (fun b w => <[snd w := 0]> b) b (strs c).
Proof.
  revert b. induction c as [argv|c IH f m fd|l IHl r IHr|l IHl r IHr|c IH]; intros b; simpl.
  - revert b. induction argv as [|[q e] argv IH]; intros b; simpl; [done|]. by rewrite IH.
  - by rewrite foldl_app, IH.
  - by rewrite foldl_app, IHr, IHl.
  - by rewrite foldl_app, IHr, IHl.
  - apply IH.
Qed.

Lemma lookup_nuls (ws : list str) b i :
  (i < length b)%nat ->
  foldl (fun b w => <[snd w := 0]> b) b ws !! i = if decide (i ∈ (snd <$> ws)) then Some 0 else b !! i.
Proof.
  revert b. induction ws as [|w ws IH]; intros b Hi;
    [by rewrite decide_False by apply not_elem_of_nil|]. cbn [foldl]. rewrite fmap_cons.
  rewrite IH by (by rewrite length_insert). destruct (decide (i ∈ snd <$> ws)) as [H1|H1].
  - rewrite decide_True by (apply elem_of_cons; by right). done.
  - destruct (decide (i = snd w)) as [->|Hne].
    + rewrite decide_True by (apply elem_of_cons; by left). by apply list_lookup_insert_eq.
    + rewrite decide_False by (rewrite elem_of_cons; naive_solver). by apply list_lookup_insert_ne.
Qed.

(** The NULs do not fall into a word: they replace bytes that end a word. *)
Lemma word_after_nuls buf ws q e :
  Forall (fun c => c <> 0) buf -> Forall (is_word buf) ws -> (q, e) ∈ ws ->
  cstring (drop q (foldl (fun b w => <[snd w := 0]> b) (buf ++ [0]) ws)) = take (e - q) (drop q buf).
Proof.
  intros Hn Hws Hin. pose proof (proj1 (Forall_forall _ _) Hws _ Hin) as ((Hq & He) & Hin' & _). simpl in *.
  set (b' := foldl (fun b (w : str) => <[snd w := 0]> b) (buf ++ [0]) ws).
  assert (Hl : forall i, (q <= i < e)%nat -> b' !! i = buf !! i).
  { intros i Hi. unfold b'. rewrite lookup_nuls by (rewrite length_app; simpl; lia).
    rewrite decide_False; [by rewrite lookup_app_l by lia|]. intros ([q' e'] & -> & Hw')%list_elem_of_fmap.
    pose proof (proj1 (Forall_forall _ _) Hws _ Hw') as (_ & _ & Hend). simpl in *.
    specialize (Hend ltac:(lia)). rewrite Hin' in Hend by lia. done. }
  assert (He0 : b' !! e = Some 0).
  { unfold b'. rewrite lookup_nuls by (rewrite length_app; simpl; lia).
    rewrite decide_True; [done|]. apply list_elem_of_fmap. by exists (q, e). }
  rewrite (cstring_prefix _ (e - q)).
  - apply list_eq. intros i. destruct (decide (i < e - q)%nat) as [Hi|Hi].
    + rewrite !lookup_take_lt, !lookup_drop by lia. apply Hl. lia.
    + rewrite !lookup_take_ge by lia. done.
  - intros i c Hi Hc. rewrite lookup_drop, Hl in Hc by lia.
    apply (proj1 (Forall_forall _ _) Hn). by apply list_elem_of_lookup_2 with (q + i)%nat.
  - rewrite lookup_drop. by replace (q + (e - q))%nat with e by lia.
Qed.

(** C27. parsecmd() terminates on every command line: it panics with a syntax error, or it uses
    up the line and returns a command. Each string of that command is, in the buffer after
    nulterminate(), the NUL-terminated copy of a word of the command line: no NUL falls into
    another string. *)
Theorem parsecmd_terminates buf :
  Forall (fun c => c <> 0) buf ->
  match parsecmd buf with
  | POk (c, b) ps =>
      ps = length buf /\
      forall q e, (q, e) ∈ strs c ->
        is_word buf (q, e) /\ cstring (drop q b) = take (e - q) (drop q buf)
  | PPanic _ => True
  | PFuel => False
  end.
Proof.
  intros Hn. unfold parsecmd. destruct (parser_ok buf (parse_fuel buf)) as [Hl _].
  specialize (Hl 0%nat ltac:(lia)). unfold parse_fuel in *. specialize (Hl ltac:(lia)).
  destruct (parseline _ _ _) as [c ps|e|]; simpl in Hl |- *; try done. destruct Hl as [Hps Hw].
  case_bool_decide as Hd; [done|]. split; [lia|]. intros q e Hin.
  split; [by apply (proj1 (Forall_forall _ _) Hw)|]. rewrite nulterminate_strs. by apply word_after_nuls.
Qed.

(** The line "a b>c". *)
Lemma parsecmd_terminates_witness :
  let buf := [97; 32; 98; 62; 99] in
  exists c b, parsecmd buf = POk (c, b) 5 /\ strs c = [(0, 1); (2, 3); (4, 5)]%nat /\
    forall q e, (q, e) ∈ strs c ->
      is_word buf (q, e) /\ cstring (drop q b) = take (e - q) (drop q buf).
Proof.
  intros buf. assert (Hn : Forall (fun c => c <> 0) buf) by (repeat constructor; lia).
  assert (E : parsecmd buf =
    POk (Redir (Exec [(0, 1); (2, 3)]%nat) (4, 5)%nat 513 1, [97; 0; 98; 0; 99; 0]) 5)
    by (vm_compute; reflexivity).
  pose proof (parsecmd_terminates buf Hn) as H. rewrite E in H. destruct H as [_ H].
  eexists _, _. split; [exact E|]. split; [reflexivity|exact H].
Defined.
