(* ===== verification/ShPrint.v ===== *)
(** The shell's grammar: the parser reads back every command that the grammar has, from its
    printed form. *)

From S2P Require Export Sh.

Open Scope Z_scope.

(** *** The grammar *)

Inductive rkind : Type := RIn | ROut | RApp.
Definition word : Type := list Z.
Definition rd_ : Type := rkind * word.

(** A line is pipelines separated by [;], each followed by any number of [&]; a pipeline is
    simple commands separated by [|]; a simple command is words or a line in parentheses,
    followed by redirections. *)
Inductive line : Type :=
| LEnd (p : pline) (bg : nat)
| LSeq (p : pline) (bg : nat) (l : line)
with pline : Type :=
| PEnd (s : simple)
| PBar (s : simple) (p : pline)
with simple : Type :=
| SArgs (args : list word) (rs : list rd_)
| SBlock (l : line) (rs : list rd_).

Scheme line_mind := Induction for line Sort Prop
with pline_mind := Induction for pline Sort Prop
with simple_mind := Induction for simple Sort Prop.
Combined Scheme grammar_ind from line_mind, pline_mind, simple_mind.

(** The command that it stands for. *)
Definition den_redir (r : rd_) : word * Z * Z :=
  match r with
  | (RIn, w) => (w, O_RDONLY, 0)
  | (_, w) => (w, Z.lor O_WRONLY O_CREATE, 1)
  end.

Fixpoint den_line (l : line) : cmd word :=
  match l with
  | LEnd p n => Nat.iter n Back (den_pline p)
  | LSeq p n l => List_ (Nat.iter n Back (den_pline p)) (den_line l)
  end
with den_pline (p : pline) : cmd word :=
  match p with
  | PEnd s => den_simple s
  | PBar s p => Pipe (den_simple s) (den_pline p)
  end
with den_simple (s : simple) : cmd word :=
  match s with
  | SArgs args rs => wrap (Exec args) (den_redir <$> rs)
  | SBlock l rs => wrap (den_line l) (den_redir <$> rs)
  end.

(** *** The printer *)

Inductive token : Type := TSym (c : Z) | TAppend | TWord (w : word).

Definition tok_bytes (t : token) : list Z :=
  match t with TSym c => [c] | TAppend => [62; 62] | TWord w => w end.

(** Every token is followed by a space, and the last one by the newline that ends the line. *)
Definition sep (ts : list token) : Z := match ts with [] => 10 | _ => 32 end.
Fixpoint print (ts : list token) : list Z :=
  match ts with
  | [] => []
  | t :: ts' => tok_bytes t ++ sep ts' :: print ts'
  end.

Definition redir_toks (r : rd_) : list token :=
  match r with
  | (RIn, w) => [TSym 60; TWord w]
  | (ROut, w) => [TSym 62; TWord w]
  | (RApp, w) => [TAppend; TWord w]
  end.
Definition redirs_toks (rs : list rd_) : list token := concat (redir_toks <$> rs).

Fixpoint toks_line (l : line) : list token :=
  match l with
  | LEnd p n => toks_pline p ++ replicate n (TSym 38)
  | LSeq p n l => toks_pline p ++ replicate n (TSym 38) ++ TSym 59 :: toks_line l
  end
with toks_pline (p : pline) : list token :=
  match p with
  | PEnd s => toks_simple s
  | PBar s p => toks_simple s ++ TSym 124 :: toks_pline p
  end
with toks_simple (s : simple) : list token :=
  match s with
  | SArgs args rs => (TWord <$> args) ++ redirs_toks rs
  | SBlock l rs => TSym 40 :: toks_line l ++ TSym 41 :: redirs_toks rs
  end.

(** Words are words, and there are fewer than MAXARGS of them. *)
Definition word_ok (w : word) : Prop := w <> [] /\ Forall (fun c => word_char c = true /\ c <> 0) w.

Fixpoint wf_line (l : line) : Prop :=
  match l with
  | LEnd p n => wf_pline p
  | LSeq p n l => wf_pline p /\ wf_line l
  end
with wf_pline (p : pline) : Prop :=
  match p with
  | PEnd s => wf_simple s
  | PBar s p => wf_simple s /\ wf_pline p
  end
with wf_simple (s : simple) : Prop :=
  match s with
  | SArgs args rs => Forall word_ok args /\ (length args < MAXARGS)%nat /\ Forall (fun r => word_ok (snd r)) rs
  | SBlock l rs => wf_line l /\ Forall (fun r => word_ok (snd r)) rs
  end.

Definition tok_ok (t : token) : Prop :=
  match t with TSym c => c ∈ symbols | TAppend => True | TWord w => word_ok w end.

Definition tok_val (t : token) : Z :=
  match t with TSym c => c | TAppend => TOK_APPEND | TWord _ => TOK_WORD end.

(** The first byte of a token. *)
Definition tok_head (t : token) : Z :=
  match t with TSym c => c | TAppend => 62 | TWord w => match w with c :: _ => c | [] => 0 end end.

(** *** Tokens of a printed line *)

Lemma print_cons t ts : print (t :: ts) = tok_bytes t ++ sep ts :: print ts.
Proof. done. Qed.
Lemma sep_cases ts : sep ts = 10 \/ sep ts = 32.
Proof. destruct ts; auto. Qed.

Lemma print_length ts : Forall tok_ok ts -> (2 * length ts <= length (print ts))%nat.
Proof.
  induction 1 as [|t ts Ht _ IH]; [done|]. rewrite print_cons, length_app. simpl.
  assert (1 <= length (tok_bytes t))%nat; [|lia].
  destruct t as [c| |w]; simpl; [lia|lia|]. destruct Ht as [Hne _]. destruct w; simpl; [done|lia].
Qed.

Lemma word_char_symbol c : word_char c = true -> (c ∉ symbols) /\ (c ∉ whitespace).
Proof.
  unfold word_char, strchr. rewrite andb_true_iff, !negb_true_iff, !bool_decide_eq_false. tauto.
Qed.

(** A token begins with a byte that is neither whitespace nor NUL. *)
Lemma tok_head_ok t : tok_ok t ->
  exists rest, tok_bytes t = tok_head t :: rest /\ tok_head t <> 0 /\ strchr whitespace (tok_head t) = false.
Proof.
  destruct t as [c| |w]; simpl.
  - intros Hc. exists []. split; [done|]. unfold symbols in Hc. set_unfold in Hc.
    split; [lia|]. apply bool_decide_eq_false. unfold whitespace. set_unfold. lia.
  - intros _. exists [62]. split; [done|]. split; [lia|done].
  - intros [Hne Hw]. destruct w as [|c w]; [done|]. exists w. inversion Hw as [|? ? [Hc H0] _]; subst.
    split; [done|]. split; [done|]. apply bool_decide_eq_false. exact (proj2 (word_char_symbol _ Hc)).
Qed.

Lemma head_not_symbol t cs : tok_ok t -> (forall c, c ∈ cs -> c ∈ symbols) ->
  strchr cs (tok_head t) = match t with TSym c => strchr cs c | TAppend => strchr cs 62 | TWord _ => false end.
Proof.
  intros Ht Hcs. destruct t as [c| |w]; [done|done|]. destruct Ht as [Hne Hw].
  destruct w as [|c w]; [done|]. inversion Hw as [|? ? [Hc _] _]; subst.
  apply bool_decide_eq_false. intros Hin%Hcs. by apply word_char_symbol in Hc as [? _].
Qed.

Lemma count_while_app f l1 l2 : Forall (fun c => f c = true) l1 ->
  count_while f (l1 ++ l2) = (length l1 + count_while f l2)%nat.
Proof. induction 1 as [|c l1 Hc _ IH]; simpl; [done|]. by rewrite Hc, IH. Qed.

Lemma ws_print ts : Forall tok_ok ts -> count_while (strchr whitespace) (print ts) = 0%nat.
Proof.
  intros Hts. destruct Hts as [|t ts Ht _]; [done|]. rewrite print_cons.
  destruct (tok_head_ok t Ht) as (rest & -> & _ & Hw). simpl. by rewrite Hw.
Qed.

Lemma redirs_length rs : (length rs <= length (redirs_toks rs))%nat.
Proof.
  induction rs as [|r rs IH]; [done|].
  change (redirs_toks (r :: rs)) with (redir_toks r ++ redirs_toks rs). rewrite length_app.
  destruct r as [[] w]; simpl; lia.
Qed.

Section Layout.
Context (buf : list Z).

(** The rest of the line from position [ps] on is the printed form of the tokens. *)
Definition rest_is (ps : nat) (ts : list token) : Prop :=
  (ps <= length buf)%nat /\ drop ps buf = print ts /\ Forall tok_ok ts.

Lemma rest_skip ps ts : rest_is ps ts -> skip_ws buf ps = ps.
Proof. intros (_ & Hd & Hts). unfold skip_ws. rewrite Hd, ws_print by done. lia. Qed.

Lemma rest_at ps ts :
  rest_is ps ts -> at_ buf ps = match ts with t :: _ => tok_head t | [] => 0 end.
Proof.
  intros (_ & Hd & Hts). unfold at_. pose proof (lookup_drop buf ps 0) as Hl.
  rewrite Nat.add_0_r in Hl. rewrite <- Hl, Hd. destruct Hts as [|t ts Ht _]; [done|].
  rewrite print_cons. by destruct (tok_head_ok t Ht) as (rest & -> & _).
Qed.

(** The position after the first token and its space. *)
Definition next (ps : nat) (t : token) : nat := (ps + length (tok_bytes t) + 1)%nat.

Lemma rest_drop ps t ts k : rest_is ps (t :: ts) ->
  drop (ps + length (tok_bytes t) + k) buf = drop k (sep ts :: print ts).
Proof.
  intros (_ & Hd & _). rewrite <- !drop_drop, Hd, print_cons. by rewrite drop_app_length.
Qed.

Lemma rest_next ps t ts : rest_is ps (t :: ts) -> rest_is (next ps t) ts.
Proof.
  intros H. pose proof (rest_drop ps t ts 1 H) as Hd. destruct H as (Hle & Hp & Hts).
  apply Forall_cons in Hts as [_ Hts]. unfold next. split; [|split; [by rewrite Hd|done]].
  apply (f_equal length) in Hp. rewrite print_cons, length_drop, length_app in Hp. simpl in Hp. lia.
Qed.

Lemma rest_nexts ps ts us : rest_is ps (ts ++ us) -> rest_is (foldl next ps ts) us.
Proof.
  revert ps. induction ts as [|t ts IH]; intros ps H; simpl; [done|]. apply IH. by apply rest_next.
Qed.

Lemma peek_rest ps ts toks : rest_is ps ts ->
  peek buf ps toks = (ps, match ts with t :: _ => strchr toks (tok_head t) | [] => false end).
Proof.
  intros H. unfold peek. rewrite (rest_skip ps ts H), (rest_at ps ts H).
  destruct H as (_ & _ & Hts). destruct Hts as [|t ts Ht _]; [done|].
  destruct (tok_head_ok t Ht) as (_ & _ & H0 & _). by rewrite (proj2 (Z.eqb_neq _ _) H0).
Qed.

Lemma gettoken_end ps : rest_is ps [] -> gettoken buf ps = (0, (ps, ps), ps).
Proof.
  intros H. unfold gettoken. rewrite (rest_skip ps [] H), (rest_at ps [] H). simpl.
  by rewrite (rest_skip ps [] H).
Qed.

Lemma gettoken_rest ps t ts : rest_is ps (t :: ts) ->
  gettoken buf ps = (tok_val t, (ps, (ps + length (tok_bytes t))%nat), next ps t).
Proof.
  intros H. pose proof (rest_next _ _ _ H) as Hn. unfold gettoken.
  rewrite (rest_skip _ _ H), (rest_at _ _ H). pose proof (rest_drop ps t ts 0 H) as Hd.
  rewrite Nat.add_0_r, drop_0 in Hd.
  assert (He : skip_ws buf (ps + length (tok_bytes t)) = next ps t).
  { unfold skip_ws. rewrite Hd. simpl. replace (strchr whitespace (sep ts)) with true by (by destruct ts).
    destruct Hn as (_ & _ & Hts). rewrite ws_print by done. done. }
  assert (Hat : at_ buf (ps + length (tok_bytes t)) = sep ts).
  { unfold at_. rewrite <- (Nat.add_0_r (ps + _)), <- lookup_drop, Hd. done. }
  destruct H as (Hle & Hp & [Ht _]%Forall_cons). destruct (tok_head_ok t Ht) as (rest & Hb & H0 & _).
  rewrite (proj2 (Z.eqb_neq _ _) H0). destruct t as [c| |w]; simpl in *.
  - destruct (strchr _ c) eqn:Es; simpl.
    { replace (S ps) with (ps + 1)%nat by lia. by rewrite He. }
    apply bool_decide_eq_false in Es. assert (c = 62) as -> by (unfold symbols in Ht; set_solver). simpl.
    replace (S ps) with (ps + 1)%nat by lia. rewrite Hat.
    replace (sep ts =? 62) with false by (by destruct ts). by rewrite He.
  - assert (H1 : at_ buf (S ps) = 62).
    { unfold at_. replace (S ps) with (ps + 1)%nat by lia. rewrite <- lookup_drop, Hp. done. }
    rewrite H1. simpl. replace (S (S ps)) with (ps + 2)%nat by lia. by rewrite He.
  - destruct Ht as [Hne Hw]. destruct w as [|c w]; [done|]. simpl in H0.
    apply Forall_cons in Hw as Hw'. destruct Hw' as [[Hc _] _]. apply word_char_symbol in Hc as [Hc _].
    unfold strchr at 1. rewrite bool_decide_eq_false_2 by (unfold symbols in Hc; set_solver).
    rewrite (proj2 (Z.eqb_neq c 62)) by (unfold symbols in Hc; set_solver).
    rewrite Hp. cbn [print tok_bytes]. rewrite count_while_app.
    + replace (count_while word_char (sep ts :: print ts)) with 0%nat by (by destruct ts). rewrite Nat.add_0_r. by rewrite He.
    + eapply Forall_impl; [exact Hw|]. by intros ? [? _].
Qed.

(** The bytes of a string of the line. *)
Definition get (w : str) : word := take (snd w - fst w) (drop (fst w) buf).

Lemma get_word ps w ts : rest_is ps (TWord w :: ts) -> get (ps, (ps + length w)%nat) = w.
Proof.
  intros (_ & Hp & _). unfold get. simpl. rewrite Hp, print_cons.
  replace (ps + length w - ps)%nat with (length w) by lia. by rewrite take_app_length.
Qed.

(** *** Parsing what was printed *)

Fixpoint cmd_map {A B} (f : A -> B) (c : cmd A) : cmd B :=
  match c with
  | Exec argv => Exec (f <$> argv)
  | Redir c file mode fd => Redir (cmd_map f c) (f file) mode fd
  | Pipe l r => Pipe (cmd_map f l) (cmd_map f r)
  | List_ l r => List_ (cmd_map f l) (cmd_map f r)
  | Back c => Back (cmd_map f c)
  end.

Definition get_redir (r : str * Z * Z) : word * Z * Z := let '(w, m, fd) := r in (get w, m, fd).

Lemma cmd_map_wrap c rs : cmd_map get (wrap c rs) = wrap (cmd_map get c) (get_redir <$> rs).
Proof.
  unfold wrap. revert c. induction rs as [|[[w m] fd] rs IH]; intros c; simpl; [done|]. by rewrite IH.
Qed.

Lemma cmd_map_backs n c : cmd_map get (Nat.iter n Back c) = Nat.iter n Back (cmd_map get c).
Proof. induction n as [|n IH]; simpl; [done|]. by rewrite IH. Qed.

(** What follows is nothing, or one of the symbols. *)
Definition follow (cs : list Z) (us : list token) : Prop :=
  match us with [] => True | TSym c :: _ => c ∈ cs | _ => False end.

Lemma follow_weaken cs cs' us : follow cs us -> (forall c, c ∈ cs -> c ∈ cs') -> follow cs' us.
Proof. destruct us as [|[]]; simpl; auto. Qed.

Lemma peek_follow ps us toks cs :
  rest_is ps us -> follow cs us -> (forall c, c ∈ cs -> c ∉ toks) -> peek buf ps toks = (ps, false).
Proof.
  intros Hr Hf Hd. rewrite (peek_rest _ _ _ Hr). destruct us as [|[c| |w] us]; try done.
  f_equal. apply bool_decide_eq_false. by apply Hd.
Qed.

Lemma peek_word ps w ts toks :
  rest_is ps (TWord w :: ts) -> (forall c, c ∈ toks -> c ∈ symbols) -> peek buf ps toks = (ps, false).
Proof.
  intros Hr Ht. rewrite (peek_rest _ _ _ Hr). destruct Hr as (_ & _ & [Hw _]%Forall_cons).
  by rewrite (head_not_symbol _ toks Hw Ht).
Qed.

Lemma peek_sym ps c ts toks :
  rest_is ps (TSym c :: ts) -> c ∈ toks -> peek buf ps toks = (ps, true).
Proof. intros Hr Hc. rewrite (peek_rest _ _ _ Hr). f_equal. by apply bool_decide_eq_true. Qed.

Lemma rest_length ps ts : rest_is ps ts -> (2 * length ts <= length buf - ps)%nat.
Proof. intros (_ & Hd & Hts). rewrite <- length_drop, Hd. by apply print_length. Qed.

Lemma parseredirs_print fuel acc rs ps us :
  rest_is ps (redirs_toks rs ++ us) -> follow [124; 41; 38; 59] us -> (length rs < fuel)%nat ->
  exists rs', parseredirs buf fuel acc ps = POk (acc ++ rs') (foldl next ps (redirs_toks rs)) /\
    get_redir <$> rs' = den_redir <$> rs.
Proof.
  revert fuel acc ps. induction rs as [|r rs IH]; intros fuel acc ps Hr Hf Hl;
    destruct fuel as [|fuel]; simpl in Hl; try lia; cbn [parseredirs].
  - rewrite (peek_follow ps us _ [124; 41; 38; 59]) by (done || set_solver). exists [].
    by rewrite app_nil_r.
  - assert (Ht : exists t, redirs_toks (r :: rs) = t :: TWord (snd r) :: redirs_toks rs /\
      strchr [60; 62] (tok_head t) = true /\
      (tok_val t =? 60) = match fst r with RIn => true | _ => false end).
    { destruct r as [[] w]; eexists; (split; [reflexivity|]); by split. }
    destruct Ht as (t & Ht & Hh & Hk). rewrite Ht in Hr |- *. simpl in Hr.
    rewrite (peek_rest _ _ _ Hr), Hh. cbn [negb]. rewrite (gettoken_rest _ _ _ Hr).
    pose proof (rest_next _ _ _ Hr) as Hr1. rewrite (gettoken_rest _ _ _ Hr1). cbn [tok_val tok_bytes].
    pose proof (get_word _ _ _ Hr1) as Hw. pose proof (rest_next _ _ _ Hr1) as Hr2.
    destruct (IH fuel (acc ++ [redir (tok_val t) (next ps t, (next ps t + length (snd r))%nat)]) _ Hr2 Hf
      ltac:(lia)) as (rs' & E & Hg).
    change (TOK_WORD =? TOK_WORD) with true. cbn [negb]. rewrite E. eexists. split.
    { rewrite <- app_assoc. reflexivity. }
    rewrite fmap_app, Hg. unfold redir. rewrite Hk. destruct r as [[] w]; simpl in *; by rewrite Hw.
Qed.

(** The redirections of parseexec() and its loop over the words. *)
Lemma parseargs_print args fuel fr argv rs ps us :
  rest_is ps ((TWord <$> args) ++ redirs_toks rs ++ us) -> follow [124; 41; 38; 59] us ->
  (length argv + length args < MAXARGS)%nat -> (length args + length rs < fuel)%nat ->
  (length rs < fr)%nat ->
  exists c, pbind (parseredirs buf fr [] ps) (fun rs ps => parseargs buf fuel argv rs ps) =
      POk c (foldl next ps ((TWord <$> args) ++ redirs_toks rs)) /\
    cmd_map get c = wrap (Exec ((get <$> argv) ++ args)) (den_redir <$> rs).
Proof.
  revert fuel fr argv ps. induction args as [|w args IH]; intros fuel fr argv ps Hr Hf Ha Hl Hfr;
    (destruct fuel as [|fuel]; [lia|]).
  - destruct (parseredirs_print fr [] rs ps us Hr Hf Hfr) as (rs' & -> & Hg).
    cbn [pbind parseargs app]. pose proof (rest_nexts ps (redirs_toks rs) us Hr) as Hu. rewrite (peek_rest _ _ _ Hu).
    exists (wrap (Exec argv) rs'). rewrite app_nil_r, cmd_map_wrap, Hg. split; [|done].
    destruct us as [|[c| |w] us]; simpl in Hf; try done.
    + rewrite (gettoken_end _ Hu). done.
    + assert (Hs : strchr [124; 41; 38; 59] c = true) by (by apply bool_decide_eq_true).
      simpl. by rewrite Hs.
  - simpl in Hr. assert (Hp0 : parseredirs buf fr [] ps = POk [] ps).
    { destruct fr as [|fr]; [lia|]. cbn [parseredirs].
      by rewrite (peek_word _ _ _ _ Hr) by (unfold symbols; set_solver). }
    rewrite Hp0. cbn [pbind parseargs]. rewrite (peek_word _ _ _ _ Hr) by (unfold symbols; set_solver).
    rewrite (gettoken_rest _ _ _ Hr). cbn [tok_val tok_bytes]. change (TOK_WORD =? 0) with false.
    change (TOK_WORD =? TOK_WORD) with true. cbn [negb]. simpl in Ha, Hl.
    rewrite (proj2 (Nat.leb_gt MAXARGS _)) by (rewrite length_app; simpl; lia).
    pose proof (rest_next _ _ _ Hr) as Hr1.
    destruct (IH fuel (S fuel) (argv ++ [(ps, (ps + length w)%nat)]) _ Hr1 Hf) as (c & E & Hc);
      [rewrite length_app; simpl; lia|lia|lia|].
    exists c. split; [exact E|]. rewrite Hc, fmap_app, <- app_assoc. simpl.
    by rewrite (get_word _ _ _ Hr).
Qed.

Lemma parsebacks_print n fuel c ps us :
  rest_is ps (replicate n (TSym 38) ++ us) -> follow [41; 59] us -> (n < fuel)%nat ->
  parsebacks buf fuel c ps = POk (Nat.iter n Back c) (foldl next ps (replicate n (TSym 38))).
Proof.
  revert fuel c ps. induction n as [|n IH]; intros fuel c ps Hr Hf Hl;
    (destruct fuel as [|fuel]; [lia|]); cbn [parsebacks].
  - simpl in Hr. by rewrite (peek_follow ps us _ [41; 59]) by (done || set_solver).
  - simpl in Hr. rewrite (peek_sym _ _ _ _ Hr) by set_solver. cbn [negb].
    rewrite (gettoken_rest _ _ _ Hr). pose proof (rest_next _ _ _ Hr) as Hr1.
    rewrite (IH fuel _ _ Hr1 Hf) by lia. by rewrite Nat.iter_succ_r.
Qed.

Lemma nexts_ge ps ts : (ps <= foldl next ps ts)%nat.
Proof.
  revert ps. induction ts as [|t ts IH]; intros ps; simpl; [lia|]. specialize (IH (next ps t)).
  unfold next in *. lia.
Qed.

(** A function of the parser reads the tokens, when one of the symbols or nothing follows, and
    returns the command. *)
Definition parses (parse : nat -> nat -> pres (cmd str)) (k : nat) (cs : list Z) (ts : list token)
    (d : cmd word) : Prop :=
  forall ps us fuel, rest_is ps (ts ++ us) -> follow cs us ->
    (4 * (length buf - ps) + k <= fuel)%nat ->
    exists c, parse fuel ps = POk c (foldl next ps ts) /\ cmd_map get c = d.

Lemma parses_backs n c ps us fuel :
  rest_is ps (replicate n (TSym 38) ++ us) -> follow [41; 59] us -> (length buf - ps < fuel)%nat ->
  parsebacks buf fuel c ps = POk (Nat.iter n Back c) (foldl next ps (replicate n (TSym 38))).
Proof.
  intros Hr Hf Hl. apply (parsebacks_print n fuel c ps us Hr Hf).
  pose proof (rest_length _ _ Hr) as H. rewrite length_app, length_replicate in H. lia.
Qed.

Lemma follow_backs n us : follow [41; 59] us -> follow [41; 38; 59] (replicate n (TSym 38) ++ us).
Proof.
  intros Hf. destruct n; simpl; [|set_solver]. eapply follow_weaken; [exact Hf|]. set_solver.
Qed.

(** The pipeline and the [&]s that begin a line. *)
Lemma parses_head p n ps us f :
  parses (parsepipe buf) 3 [41; 38; 59] (toks_pline p) (den_pline p) ->
  rest_is ps ((toks_pline p ++ replicate n (TSym 38)) ++ us) -> follow [41; 59] us ->
  (4 * (length buf - ps) + 3 <= f)%nat ->
  exists c,
    (forall k : cmd str -> nat -> pres (cmd str),
       pbind (parsepipe buf f ps) (fun c ps => pbind (parsebacks buf (S f) c ps) k) =
       k c (foldl next ps (toks_pline p ++ replicate n (TSym 38)))) /\
    cmd_map get c = Nat.iter n Back (den_pline p) /\
    rest_is (foldl next ps (toks_pline p ++ replicate n (TSym 38))) us.
Proof.
  intros Hp Hr Hf Hl. pose proof (rest_nexts _ _ _ Hr) as Hu. rewrite <- app_assoc in Hr.
  destruct (Hp ps _ f Hr (follow_backs n us Hf) Hl) as (c & -> & Hc).
  pose proof (rest_nexts _ _ _ Hr) as Hr1. pose proof (nexts_ge ps (toks_pline p)).
  exists (Nat.iter n Back c). split; [|by rewrite cmd_map_backs, Hc].
  intros k. cbn [pbind]. rewrite (parses_backs n c _ us (S f) Hr1 Hf) by lia. by rewrite foldl_app.
Qed.

Lemma parses_lend p n :
  parses (parsepipe buf) 3 [41; 38; 59] (toks_pline p) (den_pline p) ->
  parses (parseline buf) 4 [41] (toks_line (LEnd p n)) (den_line (LEnd p n)).
Proof.
  intros IH ps us [|f] Hr Hf Hl; [lia|]. cbn [parseline toks_line den_line] in *.
  destruct (parses_head p n ps us f IH Hr) as (c & E & Hc & Hu); [|lia|].
  { eapply follow_weaken; [exact Hf|]. set_solver. }
  rewrite E. rewrite (peek_follow _ us _ [41]) by (done || set_solver). by exists c.
Qed.

Lemma parses_lseq p n l :
  parses (parsepipe buf) 3 [41; 38; 59] (toks_pline p) (den_pline p) ->
  parses (parseline buf) 4 [41] (toks_line l) (den_line l) ->
  parses (parseline buf) 4 [41] (toks_line (LSeq p n l)) (den_line (LSeq p n l)).
Proof.
  intros IH IHl ps us [|f] Hr Hf Hl; [lia|]. cbn [parseline toks_line den_line] in *.
  assert (Hr' : rest_is ps ((toks_pline p ++ replicate n (TSym 38)) ++ TSym 59 :: toks_line l ++ us)).
  { by rewrite <- !app_assoc in *. }
  destruct (parses_head p n ps _ f IH Hr') as (c & E & Hc & Hu); [simpl; set_solver|lia|].
  rewrite E. rewrite (peek_sym _ _ _ _ Hu) by set_solver. cbn [negb].
  rewrite (gettoken_rest _ _ _ Hu). pose proof (rest_next _ _ _ Hu) as Hn.
  pose proof (nexts_ge ps (toks_pline p ++ replicate n (TSym 38))).
  destruct (IHl _ us f Hn Hf) as (c2 & -> & Hc2).
  { destruct Hn. unfold next in *. lia. }
  cbn [pbind]. exists (List_ c c2). split; [|simpl; by rewrite Hc, Hc2]. f_equal.
  by rewrite app_assoc, !foldl_app.
Qed.

Lemma parses_pend s :
  parses (parseexec buf) 2 [41; 38; 59; 124] (toks_simple s) (den_simple s) ->
  parses (parsepipe buf) 3 [41; 38; 59] (toks_pline (PEnd s)) (den_pline (PEnd s)).
Proof.
  intros IH ps us [|f] Hr Hf Hl; [lia|]. cbn [parsepipe toks_pline den_pline] in *.
  destruct (IH ps us f Hr) as (c & -> & Hc); [|lia|].
  { eapply follow_weaken; [exact Hf|]. set_solver. }
  cbn [pbind]. pose proof (rest_nexts _ _ _ Hr) as Hu.
  rewrite (peek_follow _ us _ [41; 38; 59]) by (done || set_solver). by exists c.
Qed.

Lemma parses_pbar s p :
  parses (parseexec buf) 2 [41; 38; 59; 124] (toks_simple s) (den_simple s) ->
  parses (parsepipe buf) 3 [41; 38; 59] (toks_pline p) (den_pline p) ->
  parses (parsepipe buf) 3 [41; 38; 59] (toks_pline (PBar s p)) (den_pline (PBar s p)).
Proof.
  intros IH IHp ps us [|f] Hr Hf Hl; [lia|]. cbn [parsepipe toks_pline den_pline] in *.
  rewrite <- app_assoc in Hr. pose proof (rest_nexts _ _ _ Hr) as Hu. simpl in Hu.
  destruct (IH ps _ f Hr) as (c & -> & Hc); [simpl; set_solver|lia|].
  cbn [pbind]. rewrite (peek_sym _ _ _ _ Hu) by set_solver. cbn [negb].
  rewrite (gettoken_rest _ _ _ Hu). pose proof (rest_next _ _ _ Hu) as Hn.
  pose proof (nexts_ge ps (toks_simple s)).
  destruct (IHp _ us f Hn Hf) as (c2 & -> & Hc2).
  { destruct Hn. unfold next in *. lia. }
  cbn [pbind]. exists (Pipe c c2). split; [|simpl; by rewrite Hc, Hc2]. f_equal. by rewrite foldl_app.
Qed.

Lemma parses_args args rs :
  (length args < MAXARGS)%nat ->
  parses (parseexec buf) 2 [41; 38; 59; 124] (toks_simple (SArgs args rs)) (den_simple (SArgs args rs)).
Proof.
  intros Hm ps us [|f] Hr Hf Hl; [lia|]. cbn [parseexec toks_simple den_simple] in *.
  rewrite <- app_assoc in Hr. pose proof (rest_length _ _ Hr) as Hlen. rewrite !length_app, length_fmap in Hlen.
  pose proof (redirs_length rs).
  assert (Hp : peek buf ps [40] = (ps, false)).
  { destruct args as [|w args]; [|apply (peek_word _ _ _ _ Hr); unfold symbols; set_solver].
    destruct rs as [|[[] w] rs].
    - apply (peek_follow _ us _ [41; 38; 59; 124]); [done|done|set_solver].
    - by rewrite (peek_rest _ _ _ Hr).
    - by rewrite (peek_rest _ _ _ Hr).
    - by rewrite (peek_rest _ _ _ Hr). }
  rewrite Hp. apply (parseargs_print args (S f) (S f) [] rs ps us Hr); [|done|lia|lia].
  eapply follow_weaken; [exact Hf|]. set_solver.
Qed.

Lemma parses_block l rs :
  parses (parseline buf) 4 [41] (toks_line l) (den_line l) ->
  parses (parseexec buf) 2 [41; 38; 59; 124] (toks_simple (SBlock l rs)) (den_simple (SBlock l rs)).
Proof.
  intros IH ps us [|[|f]] Hr Hf Hl; [lia|lia|]. cbn [toks_simple den_simple] in *.
  simpl app in Hr. cbn [parseexec]. rewrite (peek_sym _ _ _ _ Hr) by set_solver.
  cbn [parseblock]. rewrite (peek_sym _ _ _ _ Hr) by set_solver. cbn [negb].
  rewrite (gettoken_rest _ _ _ Hr). pose proof (rest_next _ _ _ Hr) as Hn. rewrite <- app_assoc in Hn.
  destruct (IH _ _ f Hn) as (c & -> & Hc); [simpl; set_solver|destruct Hn; unfold next in *; lia|].
  cbn [pbind]. pose proof (rest_nexts _ _ _ Hn) as Hu. simpl in Hu.
  rewrite (peek_sym _ _ _ _ Hu) by set_solver. cbn [negb]. rewrite (gettoken_rest _ _ _ Hu).
  pose proof (rest_next _ _ _ Hu) as Hu2. pose proof (rest_length _ _ Hu2) as Hlen. rewrite length_app in Hlen.
  pose proof (nexts_ge (next ps (TSym 40)) (toks_line l)).
  destruct (parseredirs_print (S f) [] rs _ us Hu2) as (rs' & -> & Hg).
  { eapply follow_weaken; [exact Hf|]. set_solver. }
  { pose proof (redirs_length rs). unfold next in *. lia. }
  cbn [pbind app]. exists (wrap c rs'). split; [|by rewrite cmd_map_wrap, Hc, Hg].
  f_equal. simpl. by rewrite foldl_app.
Qed.

Lemma parser_print :
  (forall l, wf_line l -> parses (parseline buf) 4 [41] (toks_line l) (den_line l)) /\
  (forall p, wf_pline p -> parses (parsepipe buf) 3 [41; 38; 59] (toks_pline p) (den_pline p)) /\
  (forall s, wf_simple s -> parses (parseexec buf) 2 [41; 38; 59; 124] (toks_simple s) (den_simple s)).
Proof.
  apply grammar_ind; cbn [wf_line wf_pline wf_simple].
  - intros p IH n Hw. by apply parses_lend, IH.
  - intros p IH n l IHl [Hw Hwl]. apply parses_lseq; auto.
  - intros s IH Hw. by apply parses_pend, IH.
  - intros s IH p IHp [Hw Hwp]. apply parses_pbar; auto.
  - intros args rs (_ & Hm & _). by apply parses_args.
  - intros l IH rs [Hw _]. by apply parses_block, IH.
Qed.
End Layout.

(** *** The round trip *)

Lemma cmd_map_ext {A B} (f g : A -> B) c :
  (forall w, w ∈ strs c -> f w = g w) -> cmd_map f c = cmd_map g c.
Proof.
  induction c as [argv|c IH w m fd|l IHl r IHr|l IHl r IHr|c IH]; intros H; simpl in *; f_equal.
  - apply list_fmap_ext. intros i w Hw. apply H. by apply list_elem_of_lookup_2 with i.
  - apply IH. set_solver.
  - apply H. set_solver.
  - apply IHl. set_solver.
  - apply IHr. set_solver.
  - apply IHl. set_solver.
  - apply IHr. set_solver.
  - by apply IH.
Qed.

Lemma wf_toks :
  (forall l, wf_line l -> Forall tok_ok (toks_line l)) /\
  (forall p, wf_pline p -> Forall tok_ok (toks_pline p)) /\
  (forall s, wf_simple s -> Forall tok_ok (toks_simple s)).
Proof.
  assert (Hs : forall c, c ∈ symbols -> tok_ok (TSym c)) by done.
  assert (Hb : forall n, Forall tok_ok (replicate n (TSym 38))).
  { intros n. apply Forall_replicate, Hs. unfold symbols. set_solver. }
  assert (Hr : forall rs, Forall (fun r : rd_ => word_ok (snd r)) rs -> Forall tok_ok (redirs_toks rs)).
  { induction 1 as [|r rs Hw _ IH]; [constructor|].
    change (redirs_toks (r :: rs)) with (redir_toks r ++ redirs_toks rs).
    apply Forall_app_2; [|done]. destruct r as [[] w]; (constructor; [|by constructor]);
      simpl; unfold symbols; try done; set_solver. }
  apply grammar_ind; cbn [wf_line wf_pline wf_simple toks_line toks_pline toks_simple].
  - intros p IH n Hw. apply Forall_app_2; auto.
  - intros p IH n l IHl [Hw Hwl]. apply Forall_app_2; [auto|]. apply Forall_app_2; [auto|].
    constructor; [apply Hs; unfold symbols; set_solver|auto].
  - auto.
  - intros s IH p IHp [Hw Hwp]. apply Forall_app_2; [auto|].
    constructor; [apply Hs; unfold symbols; set_solver|auto].
  - intros args rs (Ha & _ & Hrs). apply Forall_app_2; [by apply Forall_fmap|auto].
  - intros l IH rs [Hw Hrs]. constructor; [apply Hs; unfold symbols; set_solver|].
    apply Forall_app_2; [auto|]. constructor; [apply Hs; unfold symbols; set_solver|auto].
Qed.

Lemma print_no_nul ts : Forall tok_ok ts -> Forall (fun c => c <> 0) (print ts).
Proof.
  induction 1 as [|t ts Ht _ IH]; [constructor|]. rewrite print_cons. apply Forall_app_2.
  - destruct t as [c| |w]; simpl in *.
    + constructor; [|constructor]. unfold symbols in Ht. set_unfold in Ht. lia.
    + repeat constructor; lia.
    + destruct Ht as [_ Hw]. eapply Forall_impl; [exact Hw|]. by intros ? [_ ?].
  - constructor; [destruct (sep_cases ts); lia|done].
Qed.

Lemma parse_print_run l :
  wf_line l ->
  exists c b ps, parsecmd (print (toks_line l)) = POk (c, b) ps /\ ps = length (print (toks_line l)) /\
    cmd_map (fun w => cstring (drop (fst w) b)) c = den_line l.
Proof.
  intros Hw. set (buf := print (toks_line l)). pose proof (proj1 wf_toks l Hw) as Hok.
  assert (Hr : rest_is buf 0 (toks_line l ++ [])) by (rewrite app_nil_r; split; [lia|done]).
  destruct (proj1 (parser_print buf) l Hw 0%nat [] (parse_fuel buf) Hr I) as (c & E & Hc).
  { unfold parse_fuel. lia. }
  pose proof (rest_nexts _ _ _ _ Hr) as Hend. destruct Hend as (Hle & Hd & _).
  assert (He : foldl next 0%nat (toks_line l) = length buf).
  { apply (f_equal length) in Hd. rewrite length_drop in Hd. simpl in Hd. lia. }
  destruct (parser_ok buf (parse_fuel buf)) as [Hp _].
  specialize (Hp 0%nat ltac:(lia) ltac:(unfold parse_fuel; lia)). rewrite E in Hp. destruct Hp as [_ Hws].
  exists c, (nulterminate c (buf ++ [0])), (length buf). split; [|split; [done|]].
  - unfold parsecmd. rewrite E, He. cbn [pbind]. unfold peek, skip_ws. rewrite drop_ge by lia. simpl.
    rewrite Nat.add_0_r, bool_decide_eq_false_2 by auto. done.
  - rewrite <- Hc. apply cmd_map_ext. intros [q e] Hin. rewrite nulterminate_strs. simpl.
    rewrite (word_after_nuls buf (strs c) q e); [done|by apply print_no_nul|done|done].
Qed.

(** C20. The parser reads back what the grammar prints: parsecmd() of the printed form of a
    command line returns the command that the line stands for, with its pipes, lists,
    background commands, blocks and redirections, and each of its strings is in the buffer, in
    front of a NUL. *)
Theorem parse_print l :
  wf_line l ->
  exists c b, parsecmd (print (toks_line l)) = POk (c, b) (length (print (toks_line l))) /\
    cmd_map (fun w => cstring (drop (fst w) b)) c = den_line l.
Proof. intros Hw. destruct (parse_print_run l Hw) as (c & b & ? & E & -> & Hc). by exists c, b. Qed.

(** The line "( a b < f | c ) > g & ; d". *)
Definition demo_line : line :=
  LSeq (PEnd (SBlock (LEnd (PBar (SArgs [[97]; [98]] [(RIn, [102])]) (PEnd (SArgs [[99]] []))) 0)
    [(ROut, [103])])) 1 (LEnd (PEnd (SArgs [[100]] [])) 0).

Lemma parse_print_witness :
  wf_line demo_line /\
  exists c b, parsecmd (print (toks_line demo_line)) = POk (c, b) (length (print (toks_line demo_line))) /\
    cmd_map (fun w => cstring (drop (fst w) b)) c =
      List_ (Back (Redir (Pipe (Redir (Exec [[97]; [98]]) [102] 0 0) (Exec [[99]])) [103] 513 1))
        (Exec [[100]]).
Proof.
  assert (Hw : wf_line demo_line).
  { assert (Hok : forall c, word_char c = true -> c <> 0 -> word_ok [c]).
    { intros c Hc H0. split; [done|]. by constructor. }
    vm_compute wf_line. repeat split; repeat constructor; try (apply Hok; [reflexivity|lia]); try lia. }
  split; [exact Hw|]. exact (parse_print demo_line Hw).
Defined.
