(* ===== verification/Ulib.v ===== *)
(** The user library: ulib.c and printf.c.

    A C string is the list of its bytes before the NUL; printf() returns the bytes that it
    writes. The arguments of printf() are the words of the stack after the format, and
    [str_at] is the C string at an address. *)

From S2P Require Export Mem.

Open Scope Z_scope.

(** *** ulib.c *)

Fixpoint strcmp (p q : list Z) : Z :=
  match p, q with
  | a :: p', b :: q' => if a =? b then strcmp p' q' else u8 a - u8 b
  | a :: _, [] => u8 a
  | [], b :: _ => - u8 b
  | [], [] => 0
  end.

(** The string from the character on. *)
Fixpoint ustrchr (s : list Z) (c : Z) : option (list Z) :=
  match s with
  | [] => None
  | x :: s' => if x =? c then Some s else ustrchr s' c
  end.

Fixpoint atoi_loop (n : Z) (s : list Z) : Z :=
  match s with
  | c :: s' => if (48 <=? c) && (c <=? 57) then atoi_loop (s32 (n * 10 + c - 48)) s' else n
  | [] => n
  end.
Definition atoi (s : list Z) : Z := atoi_loop 0 s.

(** memmove() of ulib.c: the loop copies from the lowest address up. *)
Fixpoint umemmove_loop (n : nat) (m : mem) (dst src : Z) : mem :=
  match n with
  | O => m
  | S n' => umemmove_loop n' (wr m dst (rd m src)) (dst + 1) (src + 1)
  end.
Definition umemmove (m : mem) (vdst vsrc n : Z) : mem := umemmove_loop (Z.to_nat n) m vdst vsrc.

(** The loops over a string have no counter: [None] when the fuel is used up. *)
Fixpoint ustrcpy (fuel : nat) (m : mem) (s t : Z) : option mem :=
  match fuel with
  | O => None
  | S f =>
      let c := rd m t in
      let m' := wr m s c in
      if c =? 0 then Some m' else ustrcpy f m' (s + 1) (t + 1)
  end.

Fixpoint ustrlen_loop (fuel : nat) (m : mem) (s n : Z) : option Z :=
  match fuel with
  | O => None
  | S f => if rd m (s + n) =? 0 then Some n else ustrlen_loop f m s (n + 1)
  end.
Definition ustrlen (fuel : nat) (m : mem) (s : Z) : option Z := ustrlen_loop fuel m s 0.

Definition umemset (m : mem) (dst c n : Z) : mem := stosb m dst c (Z.to_nat n).

(** *** printf.c *)

(** [digits[d]] of ["0123456789ABCDEF"] *)
Definition digit (d : Z) : Z := if d <? 10 then 48 + d else 55 + d.

(** The do-while loop of printint(): the digits in [buf], least significant first. A word has
    at most 32 digits, in base 2. *)
Fixpoint digits_loop (fuel : nat) (x base : Z) : list Z :=
  match fuel with
  | O => []
  | S f => digit (x mod base) :: if x / base =? 0 then [] else digits_loop f (x / base) base
  end.

(** The contents of [buf], whose size is 16. *)
Definition printint_buf (xx base sgn : Z) : list Z :=
  let neg := negb (sgn =? 0) && (xx <? 0) in
  let x := if neg then u32 (- xx) else u32 xx in
  digits_loop 32 x base ++ (if neg then [45] else []).

Definition printint (xx base sgn : Z) : list Z := reverse (printint_buf xx base sgn).

(** The string "(null)". *)
Definition null_str : list Z := [40; 110; 117; 108; 108; 41].

Section Printf.
Context (str_at : Z -> list Z) (ap : nat -> Z).

(** The loop over the format; [esc] is [state == '%'] and [i] counts the arguments used. *)
Fixpoint printf_loop (fmt : list Z) (esc : bool) (i : nat) : list Z :=
  match fmt with
  | [] => []
  | c :: fmt' =>
      if negb esc then
        if c =? 37 then printf_loop fmt' true i else c :: printf_loop fmt' false i
      else if c =? 100 then printint (s32 (ap i)) 10 1 ++ printf_loop fmt' false (S i)
      else if (c =? 120) || (c =? 112) then printint (s32 (ap i)) 16 0 ++ printf_loop fmt' false (S i)
      else if c =? 115 then
        (if ap i =? 0 then null_str else str_at (ap i)) ++ printf_loop fmt' false (S i)
      else if c =? 99 then u8 (ap i) :: printf_loop fmt' false (S i)
      else if c =? 37 then c :: printf_loop fmt' false i
      else 37 :: c :: printf_loop fmt' false i
  end.

Definition printf (fmt : list Z) : list Z := printf_loop fmt false 0.
End Printf.

(** *** Numbers *)

Lemma s32_u32 x y : u32 x = u32 y -> s32 x = s32 y.
Proof. unfold s32. by intros ->. Qed.

Lemma s32_horner n c : s32 (s32 n * 10 + c - 48) = s32 (n * 10 + c - 48).
Proof.
  apply s32_u32. pose proof (u32_s32 n) as H. unfold u32 in *.
  rewrite <- !Z.add_sub_assoc, <- Zplus_mod_idemp_l, <- Zmult_mod_idemp_l, H, Zmult_mod_idemp_l.
  by rewrite Zplus_mod_idemp_l.
Qed.

Definition is_digit (c : Z) : Prop := 48 <= c <= 57.

Lemma atoi_loop_app n l1 l2 :
  Forall is_digit l1 -> atoi_loop n (l1 ++ l2) = atoi_loop (atoi_loop n l1) l2.
Proof.
  intros H. revert n. induction H as [|c l1 Hc _ IH]; intros n; simpl; [done|].
  unfold is_digit in Hc. rewrite (proj2 (Z.leb_le 48 c)), (proj2 (Z.leb_le c 57)) by lia. apply IH.
Qed.

Lemma digits_loop_digit fuel x : 0 <= x -> Forall is_digit (digits_loop fuel x 10).
Proof.
  revert x. induction fuel as [|fuel IH]; intros x Hx; simpl; constructor.
  - pose proof (Z.mod_pos_bound x 10). unfold is_digit, digit. rewrite (proj2 (Z.ltb_lt _ _)) by lia. lia.
  - destruct (x / 10 =? 0); [constructor|]. apply IH. apply Z.div_pos; lia.
Qed.

Lemma digits_loop_length fuel k x base :
  2 <= base -> (0 < k)%nat -> 0 <= x < base ^ Z.of_nat k -> (length (digits_loop fuel x base) <= k)%nat.
Proof.
  intros Hb. revert k x. induction fuel as [|fuel IH]; intros k x Hk Hx; simpl; [lia|].
  destruct (Z.eqb_spec (x / base) 0) as [H0|H0]; simpl; [lia|]. destruct k as [|[|k]]; [lia| |].
  - exfalso. apply H0. apply Z.div_small. rewrite Z.pow_1_r in Hx. lia.
  - enough (length (digits_loop fuel (x / base) base) <= S k)%nat by lia. apply IH; [lia|].
    rewrite (Nat2Z.inj_succ (S k)), Z.pow_succ_r in Hx by lia. split; [apply Z.div_pos; lia|].
    apply Z.div_lt_upper_bound; lia.
Qed.

Lemma digit_undo d : 0 <= d < 10 -> digit d - 48 = d.
Proof. intros Hd. unfold digit. rewrite (proj2 (Z.ltb_lt d 10)) by lia. lia. Qed.

Lemma atoi_digits fuel x :
  0 <= x < 10 ^ Z.of_nat fuel -> atoi (reverse (digits_loop fuel x 10)) = s32 x.
Proof.
  revert x. induction fuel as [|fuel IH]; intros x Hx.
  { assert (x = 0) as -> by (simpl in Hx; lia). reflexivity. }
  rewrite Nat2Z.inj_succ, Z.pow_succ_r in Hx by lia. cbn [digits_loop]. rewrite reverse_cons.
  pose proof (Z.mod_pos_bound x 10 ltac:(lia)) as Hm. pose proof (Z.div_mod x 10 ltac:(lia)) as Hd.
  assert (Hdig : is_digit (digit (x mod 10))).
  { pose proof (digit_undo (x mod 10) Hm). unfold is_digit. lia. }
  assert (Hpre : forall pre, Forall is_digit pre -> atoi pre = s32 (x / 10) ->
    atoi (pre ++ [digit (x mod 10)]) = s32 x).
  { intros pre Hpre E. unfold atoi in *. rewrite atoi_loop_app, E by done. simpl.
    unfold is_digit in Hdig. rewrite (proj2 (Z.leb_le 48 _)), (proj2 (Z.leb_le _ 57)) by lia. simpl.
    rewrite s32_horner. f_equal. pose proof (digit_undo (x mod 10) Hm). lia. }
  destruct (Z.eqb_spec (x / 10) 0) as [H0|H0].
  - apply (Hpre []); [constructor|]. by rewrite H0.
  - apply Hpre; [apply Forall_reverse, digits_loop_digit; lia|]. apply IH.
    split; [lia|]. apply Z.div_lt_upper_bound; lia.
Qed.

Lemma printint_buf_length xx base sgn :
  base = 10 \/ base = 16 -> (length (printint_buf xx base sgn) <= 16)%nat.
Proof.
  intros Hb.
  assert (Hlen : forall x, (length (digits_loop 32 (u32 x) base) <= 10)%nat).
  { intros x. assert (Hm : 0 <= u32 x < 2 ^ 32) by (unfold u32; apply Z.mod_pos_bound; lia).
    apply digits_loop_length; [lia|lia|]. change (Z.of_nat 10) with 10.
    destruct Hb as [-> | ->]; lia. }
  unfold printint_buf. cbv zeta. rewrite length_app. destruct (_ && _).
  - specialize (Hlen (- xx)). cbn [length]. lia.
  - specialize (Hlen xx). cbn [length]. lia.
Qed.

(** printint() prints every int in decimal so that atoi() reads it back, the least int
    included (after its sign), and the digits fit into its buffer of 16 bytes, in decimal as
    in hexadecimal. *)
Theorem printint_roundtrip xx :
  - 2 ^ 31 <= xx < 2 ^ 31 ->
  (length (printint_buf xx 10 1) <= 16)%nat /\ (length (printint_buf xx 16 0) <= 16)%nat /\
  (if decide (xx < 0)
   then exists ds, printint xx 10 1 = 45 :: ds /\ atoi ds = s32 (- xx)
   else atoi (printint xx 10 1) = xx).
Proof.
  intros Hxx.
  split_and!.
  - apply printint_buf_length. auto.
  - apply printint_buf_length. auto.
  - unfold printint, printint_buf. change (negb (1 =? 0)) with true. cbn [andb].
    case_decide as Hneg.
    + rewrite (proj2 (Z.ltb_lt xx 0)) by done. rewrite reverse_app.
      exists (reverse (digits_loop 32 (u32 (- xx)) 10)). split; [done|].
      unfold u32. rewrite Z.mod_small by lia. apply atoi_digits. change (Z.of_nat 32) with 32. lia.
    + rewrite (proj2 (Z.ltb_ge xx 0)) by lia. rewrite app_nil_r.
      unfold u32. rewrite Z.mod_small by lia. rewrite atoi_digits by (change (Z.of_nat 32) with 32; lia).
      apply s32_small. lia.
Qed.

Lemma printint_roundtrip_witness :
  (length (printint_buf (-2147483648) 10 1) <= 16)%nat /\
  (length (printint_buf (-2147483648) 16 0) <= 16)%nat /\
  exists ds, printint (-2147483648) 10 1 = 45 :: ds /\ atoi ds = s32 2147483648.
Proof. exact (printint_roundtrip (-2147483648) ltac:(lia)). Defined.

(** *** strcpy() and strlen() *)

Lemma ustrlen_cstr m s str fuel :
  cstr m s str -> (length str < fuel)%nat -> ustrlen fuel m s = Some (Z.of_nat (length str)).
Proof.
  unfold ustrlen. intros Hs Hf. rewrite <- (Z.add_0_l (Z.of_nat _)).
  replace s with (s + 0) in Hs by lia. revert Hf Hs. generalize 0 as n. revert fuel.
  induction str as [|c str IH]; intros [|fuel] n Hf Hs; simpl in *; try lia.
  - apply cstr_nil_inv in Hs. rewrite Hs. simpl. f_equal. lia.
  - apply cstr_cons_inv in Hs as (-> & Hc & Hs). rewrite (proj2 (Z.eqb_neq c 0) Hc).
    rewrite IH; [f_equal; lia|lia|]. by replace (s + (n + 1)) with (s + n + 1) by lia.
Qed.

Lemma cstr_ext m1 m2 a s :
  (forall b, a <= b <= a + Z.of_nat (length s) -> rd m1 b = rd m2 b) -> cstr m1 a s -> cstr m2 a s.
Proof.
  intros Hm (Hn & Hb & Hz). split_and!; [done| |].
  - rewrite <- Hb at 2. apply rd_bytes_ext. intros b Hb'. symmetry. apply Hm. lia.
  - rewrite <- Hz. symmetry. apply Hm. lia.
Qed.

(** strcpy() to a place that does not overlap the string: the string is there, and nothing else
    is written. *)
Lemma ustrcpy_cstr str m s t fuel :
  cstr m t str -> (length str < fuel)%nat ->
  s + Z.of_nat (length str) < t \/ t + Z.of_nat (length str) < s ->
  exists m', ustrcpy fuel m s t = Some m' /\ cstr m' s str /\
    forall b, b < s \/ s + Z.of_nat (length str) < b -> rd m' b = rd m b.
Proof.
  revert m s t fuel. induction str as [|c str IH]; intros m s t [|fuel] Hs Hf Hd; simpl in *; try lia.
  - apply cstr_nil_inv in Hs. rewrite Hs. simpl. eexists. split_and!; [done| |].
    + split_and!; [constructor|done|]. simpl. rewrite Z.add_0_r. by rewrite rd_wr_eq.
    + intros b Hb. rewrite rd_wr_ne by lia. done.
  - pose proof Hs as (Hr & Hc & Ht)%cstr_cons_inv. rewrite Hr, (proj2 (Z.eqb_neq c 0) Hc).
    destruct (IH (wr m s c) (s + 1) (t + 1) fuel) as (m' & -> & Hc' & Hm'); [|lia..|].
    { apply (cstr_ext m); [|done]. intros b Hb. by rewrite rd_wr_ne by lia. }
    exists m'. split_and!; [done| |].
    + apply cstr_cons; [|done|done]. rewrite Hm' by lia. apply rd_wr_eq.
    + intros b Hb. rewrite Hm', rd_wr_ne by lia. done.
Qed.
