(* ===== verification/User.v ===== *)
(** User programs: a program is the tree of the system calls that it makes, each with what the
    program does with the answer. The library functions that make system calls (printf.c, and
    gets() and stat() of ulib.c) are here.

    A C string is the list of its bytes before the NUL. A call that fills a buffer answers with
    the bytes that it stores. *)

From S2P Require Export Ulib Param.

Open Scope Z_scope.

(** *** System calls *)

(** user.h: the calls that the programs make. *)
Inductive req : Type :=
| Read (fd n : Z)
| Write (fd : Z) (bs : list Z)
| Open (path : list Z) (mode : Z)
| Close (fd : Z)
| Fstat (fd : Z)
| Dup (fd : Z)
| PipeCall
| Fork
| Wait
| ExecCall (path : list Z) (argv : list (list Z))
| Chdir (path : list Z)
| Link (old new : list Z)
| Unlink (path : list Z)
| Mkdir (path : list Z)
| Mknod (path : list Z) (major minor : Z)
| KillCall (pid : Z)
| SleepCall (n : Z).

(** The result, and the bytes stored in the buffer of the call. *)
Record reply := mkReply { r_val : Z; r_bytes : list Z }.

(** A program that returns an [A], exits, or has used up its fuel. *)
Inductive prog (A : Type) : Type :=
| Done (a : A)
| Call (c : req) (k : reply -> prog A)
| Exit
| Spin.
Arguments Done {A} a.
Arguments Call {A} c k.
Arguments Exit {A}.
Arguments Spin {A}.

Fixpoint ubind {A B} (f : A -> prog B) (p : prog A) : prog B :=
  match p with
  | Done a => f a
  | Call c k => Call c (fun r => ubind f (k r))
  | Exit => Exit
  | Spin => Spin
  end.
#[export] Instance prog_ret : MRet prog := fun A a => Done a.
#[export] Instance prog_bind : MBind prog := fun A B f p => ubind f p.

Definition sys (c : req) : prog reply := Call c Done.
(** A call of which only the result is used. *)
Definition call (c : req) : prog Z := Call c (fun r => Done (r_val r)).

(** *** Strings *)

Definition bytes (s : string) : list Z :=
  (fun a => Z.of_nat (Ascii.nat_of_ascii a)) <$> String.list_ascii_of_string s.
(** A line that ends in a newline. *)
Definition msg (s : string) : list Z := bytes s ++ [10].

(** An argument of printf(). *)
Inductive arg : Type := Int (v : Z) | Str (s : list Z).

(** The words of the arguments on the stack, and the strings that they point to. *)
Definition arg_word (args : list arg) (i : nat) : Z :=
  match args !! i with Some (Int v) => v | Some (Str _) => Z.of_nat i + 1 | None => 0 end.
Definition arg_str (args : list arg) (a : Z) : list Z :=
  match args !! Z.to_nat (a - 1) with Some (Str s) => s | _ => [] end.
Definition formatted (fmt : list Z) (args : list arg) : list Z :=
  printf (arg_str args) (arg_word args) fmt.

(** *** printf.c *)

Definition putc (fd c : Z) : prog unit := Call (Write fd [c]) (fun _ => Done tt).

Fixpoint puts (fd : Z) (bs : list Z) : prog unit :=
  match bs with
  | [] => Done tt
  | c :: bs' => putc fd c ≫= fun _ => puts fd bs'
  end.

(** printf(): one call of write() for each byte. *)
Definition uprintf (fd : Z) (fmt : list Z) (args : list arg) : prog unit :=
  puts fd (formatted fmt args).

(** *** ulib.c *)

(** gets(): the bytes before the NUL that it stores; [i] is the number of bytes so far. *)
Fixpoint ugets_loop (fuel : nat) (buf : list Z) (max : Z) : prog (list Z) :=
  match fuel with
  | O => Spin
  | S f =>
      if Z.of_nat (length buf) + 1 <? max then
        r ← sys (Read 0 1);
        if r_val r <? 1 then Done buf else
        let c := default 0 (hd_error (r_bytes r)) in
        let buf := buf ++ [c] in
        if (c =? 10) || (c =? 13) then Done buf else ugets_loop f buf max
      else Done buf
  end.
Definition ugets (max : Z) : prog (list Z) := ugets_loop (S (Z.to_nat max)) [] max.

(** struct stat as fstat() stores it: type, dev, ino, nlink and size. *)
Definition ust_type (st : list Z) : Z := s16 (le_val (take 2 st)).
Definition ust_ino (st : list Z) : Z := le_val (take 4 (drop 8 st)).
Definition ust_size (st : list Z) : Z := le_val (take 4 (drop 16 st)).

Definition ustat (n : list Z) : prog reply :=
  fd ← call (Open n O_RDONLY);
  if fd <? 0 then Done (mkReply (-1) []) else
  r ← sys (Fstat fd);
  call (Close fd) ≫= fun _ => Done r.

(** *** One process *)

(** The end of a run against an environment. *)
Inductive uout (A St : Type) : Type :=
| URet (a : A) (s : St)
| UExit (s : St)
| USpin.
Arguments URet {A St} a s.
Arguments UExit {A St} s.
Arguments USpin {A St}.

Section Interp.
Context {St : Type} (h : req -> St -> reply * St).

Fixpoint interp {A} (p : prog A) (s : St) : uout A St :=
  match p with
  | Done a => URet a s
  | Exit => UExit s
  | Spin => USpin
  | Call c k => let '(r, s') := h c s in interp (k r) s'
  end.

Lemma interp_bind {A B} (p : prog A) (f : A -> prog B) s :
  interp (p ≫= f) s =
  match interp p s with URet a s' => interp (f a) s' | UExit s' => UExit s' | USpin => USpin end.
Proof.
  unfold mbind, prog_bind. revert s. induction p as [a|c k IH| |]; intros s; simpl; [done| |done..].
  destruct (h c s). apply IH.
Qed.
End Interp.

(** *** What a program relies on *)

(** The bytes that can still be read from a descriptor, and those written to it. A read
    delivers a part of the input, nothing only at its end; a write stores all its bytes. *)
Class Env {St : Type} (h : req -> St -> reply * St) (input output : St -> Z -> list Z) : Prop := {
  env_read : forall fd n s, 0 < n -> exists d s',
    h (Read fd n) s = (mkReply (Z.of_nat (length d)) d, s') /\
    Z.of_nat (length d) <= n /\ (d = [] -> input s fd = []) /\
    input s fd = d ++ input s' fd /\ (forall fd', fd' <> fd -> input s' fd' = input s fd') /\
    output s' = output s;
  env_write : forall fd bs s, exists s',
    h (Write fd bs) s = (mkReply (Z.of_nat (length bs)) [], s') /\
    output s' fd = output s fd ++ bs /\ (forall fd', fd' <> fd -> output s' fd' = output s fd') /\
    input s' = input s;
}.

Section EnvLemmas.
Context {St : Type} (h : req -> St -> reply * St) (input output : St -> Z -> list Z).
Context `{!Env h input output}.

Lemma interp_puts fd bs s : exists s',
  interp h (puts fd bs) s = URet tt s' /\ output s' fd = output s fd ++ bs /\
  (forall fd', fd' <> fd -> output s' fd' = output s fd') /\ input s' = input s.
Proof.
  revert s. induction bs as [|c bs IH]; intros s; simpl.
  - exists s. by rewrite app_nil_r.
  - destruct (env_write fd [c] s) as (s1 & -> & Ho & Hf & Hi). 
    destruct (IH s1) as (s' & E & Ho' & Hf' & Hi'). exists s'. split; [exact E|].
    split_and!; [by rewrite Ho', Ho, <- app_assoc| |congruence].
    intros fd' Hne. by rewrite Hf', Hf.
Qed.
End EnvLemmas.
