(* ===== verification/UserProgs.v ===== *)
(** The small user programs: cat.c, wc.c, echo.c, ls.c, ln.c, rm.c, mkdir.c and kill.c. *)

From S2P Require Export User Grep.

Open Scope Z_scope.

(** [sizeof(buf)] of cat.c and wc.c. *)
Definition UBUF : Z := 512.

(** [for(i = 1; i < argc; i++)]: the body on each argument, which may leave the loop. *)
Fixpoint each_arg (args : list (list Z)) (body : list Z -> prog bool) : prog unit :=
  match args with
  | [] => Done tt
  | a :: args' => go ← body a; if go : bool then each_arg args' body else Done tt
  end.

(** *** cat.c *)

Fixpoint cat (fuel : nat) (fd : Z) : prog unit :=
  match fuel with
  | O => Spin
  | S f =>
      r ← sys (Read fd UBUF);
      let n := r_val r in
      if 0 <? n then
        w ← call (Write 1 (take (Z.to_nat n) (r_bytes r)));
        if negb (w =? n) then uprintf 1 (msg "cat: write error") [] ≫= fun _ => Exit else
        cat f fd
      else if n <? 0 then uprintf 1 (msg "cat: read error") [] ≫= fun _ => Exit
      else Done tt
  end.

(** The arguments after [argv[0]]. *)
Definition cat_main (fuel : nat) (args : list (list Z)) : prog unit :=
  match args with
  | [] => cat fuel 0 ≫= fun _ => Exit
  | _ =>
      each_arg args (fun a =>
        fd ← call (Open a 0);
        if fd <? 0 then uprintf 1 (msg "cat: cannot open %s") [Str a] ≫= fun _ => Exit else
        cat fuel fd ≫= fun _ => call (Close fd) ≫= fun _ => Done true) ≫= fun _ => Exit
  end.

(** *** wc.c *)

(** The counters l, w and c, and inword. *)
Record wcs := mkWcs { wc_l : Z; wc_w : Z; wc_c : Z; wc_in : Z }.

(** [strchr(" \r\t\n\v", c)] *)
Definition blank (c : Z) : bool :=
  match ustrchr [32; 13; 9; 10; 11] c with Some _ => true | None => false end.

(** The body of the loop over the buffer. *)
Definition wc_byte (s : wcs) (b : Z) : wcs :=
  let c := s32 (wc_c s + 1) in
  let l := if b =? 10 then s32 (wc_l s + 1) else wc_l s in
  if blank b then mkWcs l (wc_w s) c 0
  else if wc_in s =? 0 then mkWcs l (s32 (wc_w s + 1)) c 1
  else mkWcs l (wc_w s) c (wc_in s).

Fixpoint wc_loop (fuel : nat) (fd : Z) (s : wcs) : prog (Z * wcs) :=
  match fuel with
  | O => Spin
  | S f =>
      r ← sys (Read fd UBUF);
      if 0 <? r_val r then wc_loop f fd (foldl wc_byte s (take (Z.to_nat (r_val r)) (r_bytes r)))
      else Done (r_val r, s)
  end.

Definition wc (fuel : nat) (fd : Z) (name : list Z) : prog unit :=
  r ← wc_loop fuel fd (mkWcs 0 0 0 0);
  let '(n, s) := r in
  if n <? 0 then uprintf 1 (msg "wc: read error") [] ≫= fun _ => Exit
  else uprintf 1 (msg "%d %d %d %s") [Int (wc_l s); Int (wc_w s); Int (wc_c s); Str name].

Definition wc_main (fuel : nat) (args : list (list Z)) : prog unit :=
  match args with
  | [] => wc fuel 0 [] ≫= fun _ => Exit
  | _ =>
      each_arg args (fun a =>
        fd ← call (Open a 0);
        if fd <? 0 then uprintf 1 (msg "wc: cannot open %s") [Str a] ≫= fun _ => Exit else
        wc fuel fd a ≫= fun _ => call (Close fd) ≫= fun _ => Done true) ≫= fun _ => Exit
  end.

(** *** echo.c, ln.c, rm.c, mkdir.c, kill.c *)

Fixpoint echo_loop (args : list (list Z)) : prog unit :=
  match args with
  | [] => Done tt
  | a :: args' =>
      uprintf 1 (bytes "%s%s") [Str a; Str (match args' with [] => [10] | _ => bytes " " end)] ≫=
      fun _ => echo_loop args'
  end.
Definition echo_main (args : list (list Z)) : prog unit := echo_loop args ≫= fun _ => Exit.

Definition ln_main (args : list (list Z)) : prog unit :=
  match args with
  | [old; new] =>
      r ← call (Link old new);
      (if r <? 0 then uprintf 2 (msg "link %s %s: failed") [Str old; Str new] else Done tt) ≫=
      fun _ => Exit
  | _ => uprintf 2 (msg "Usage: ln old new") [] ≫= fun _ => Exit
  end.

Definition rm_main (args : list (list Z)) : prog unit :=
  match args with
  | [] => uprintf 2 (msg "Usage: rm files...") [] ≫= fun _ => Exit
  | _ =>
      each_arg args (fun a =>
        r ← call (Unlink a);
        if r <? 0 then uprintf 2 (msg "rm: %s failed to delete") [Str a] ≫= fun _ => Done false
        else Done true) ≫= fun _ => Exit
  end.

Definition mkdir_main (args : list (list Z)) : prog unit :=
  match args with
  | [] => uprintf 2 (msg "Usage: mkdir files...") [] ≫= fun _ => Exit
  | _ =>
      each_arg args (fun a =>
        r ← call (Mkdir a);
        if r <? 0 then uprintf 2 (msg "mkdir: %s failed to create") [Str a] ≫= fun _ => Done false
        else Done true) ≫= fun _ => Exit
  end.

Definition kill_main (args : list (list Z)) : prog unit :=
  match args with
  | [] => uprintf 2 (msg "usage: kill pid...") [] ≫= fun _ => Exit
  | _ =>
      each_arg args (fun a => call (KillCall (atoi a)) ≫= fun _ => Done true) ≫= fun _ => Exit
  end.

(** *** ls.c *)

(** The loop of fmtname(), with [p = path + n], and [p++]. *)
Fixpoint after_slash (n : nat) (path : list Z) : list Z :=
  if default 0 (path !! n) =? 47 then drop (S n) path else
  match n with
  | O => path
  | S n' => after_slash n' path
  end.

Definition fmtname (path : list Z) : list Z :=
  let p := after_slash (length path) path in
  if DIRSIZ <=? Z.of_nat (length p) then p
  else p ++ replicate (Z.to_nat DIRSIZ - length p) 32.

(** The C string in an array. *)
Fixpoint until_nul (bs : list Z) : list Z :=
  match bs with
  | [] => []
  | c :: bs' => if c =? 0 then [] else c :: until_nul bs'
  end.

Definition ls_line (path st : list Z) : prog unit :=
  uprintf 1 (msg "%s %d %d %d")
    [Str (fmtname path); Int (ust_type st); Int (s32 (ust_ino st)); Int (s32 (ust_size st))].

(** The loop over the entries of a directory; [buf] is the path with its slash. *)
Fixpoint ls_loop (fuel : nat) (fd : Z) (buf : list Z) : prog unit :=
  match fuel with
  | O => Spin
  | S f =>
      r ← sys (Read fd sizeof_dirent);
      if r_val r =? sizeof_dirent then
        let de := r_bytes r in
        if le_val (take 2 de) =? 0 then ls_loop f fd buf else
        let path := buf ++ until_nul (take (Z.to_nat DIRSIZ) (drop 2 de)) in
        st ← ustat path;
        (if r_val st <? 0 then uprintf 1 (msg "ls: cannot stat %s") [Str path]
         else ls_line path (r_bytes st)) ≫= fun _ => ls_loop f fd buf
      else Done tt
  end.

Definition ls (fuel : nat) (path : list Z) : prog unit :=
  fd ← call (Open path 0);
  if fd <? 0 then uprintf 2 (msg "ls: cannot open %s") [Str path] else
  r ← sys (Fstat fd);
  if r_val r <? 0 then
    uprintf 2 (msg "ls: cannot stat %s") [Str path] ≫= fun _ =>
    call (Close fd) ≫= fun _ => Done tt
  else
    (if ust_type (r_bytes r) =? T_FILE then ls_line path (r_bytes r)
     else if ust_type (r_bytes r) =? T_DIR then
       if 512 <? Z.of_nat (length path) + 1 + DIRSIZ + 1
       then uprintf 1 (msg "ls: path too long") []
       else ls_loop fuel fd (path ++ [47])
     else Done tt) ≫= fun _ =>
    call (Close fd) ≫= fun _ => Done tt.

Definition ls_main (fuel : nat) (args : list (list Z)) : prog unit :=
  match args with
  | [] => ls fuel (bytes ".") ≫= fun _ => Exit
  | _ => each_arg args (fun a => ls fuel a ≫= fun _ => Done true) ≫= fun _ => Exit
  end.

(** *** cat copies *)

Lemma length_pos {A} (l : list A) : l <> [] -> (0 < length l)%nat.
Proof. destruct l; simpl; [done|lia]. Qed.

(** *** What wc counts *)

Definition newlines (bs : list Z) : nat := length (filter (fun b => b = 10) bs).

(** Position [i] begins a word. *)
Definition word_start (bs : list Z) (i : nat) : Prop :=
  blank (bs !!! i) = false /\ match i with O => True | S j => blank (bs !!! j) = true end.
#[export] Instance word_start_dec bs i : Decision (word_start bs i).
Proof. destruct i; apply _. Defined.
Definition words (bs : list Z) : nat := length (filter (word_start bs) (seq 0 (length bs))).

Lemma newlines_le bs : (newlines bs <= length bs)%nat.
Proof. apply length_filter. Qed.
Lemma words_le bs : (words bs <= length bs)%nat.
Proof. unfold words. etransitivity; [apply length_filter|]. by rewrite length_seq. Qed.

(** A number in decimal. *)
Definition decimal (n : nat) : list Z := printint (Z.of_nat n) 10 1.

Lemma word_start_app bs b i : (i < length bs)%nat -> word_start (bs ++ [b]) i <-> word_start bs i.
Proof.
  intros Hi. unfold word_start. rewrite lookup_total_app_l by done.
  destruct i as [|j]; [done|]. by rewrite lookup_total_app_l by lia.
Qed.

Lemma filter_ext_elem {A} (P Q : A -> Prop) `{!forall x, Decision (P x), !forall x, Decision (Q x)} (l : list A) :
  (forall x, x ∈ l -> P x <-> Q x) -> filter P l = filter Q l.
Proof.
  induction l as [|x l IH]; intros HPQ; [done|]. rewrite !filter_cons.
  rewrite IH by (intros; apply HPQ; by right).
  specialize (HPQ x (list_elem_of_here _ _)). repeat case_decide; tauto.
Qed.

Lemma words_snoc bs b :
  words (bs ++ [b]) = (words bs + if decide (word_start (bs ++ [b]) (length bs)) then 1 else 0)%nat.
Proof.
  unfold words. rewrite length_app. simpl. rewrite Nat.add_1_r, seq_S, filter_app, length_app. simpl.
  f_equal; [|rewrite filter_cons; by case_decide].
  f_equal. apply filter_ext_elem. intros i Hi%elem_of_seq. apply word_start_app. lia.
Qed.

Lemma newlines_snoc bs b : newlines (bs ++ [b]) = (newlines bs + if (b =? 10)%Z then 1 else 0)%nat.
Proof.
  unfold newlines. rewrite filter_app, length_app, filter_cons. f_equal.
  destruct (Z.eqb_spec b 10); by case_decide.
Qed.

(** The counters after [bs]; [inword] tells whether the last character is not blank. *)
Definition ends_in_word (bs : list Z) : bool :=
  match last bs with Some b => negb (blank b) | None => false end.

Lemma word_start_last bs b :
  word_start (bs ++ [b]) (length bs) <-> blank b = false /\ ends_in_word bs = false.
Proof.
  unfold word_start, ends_in_word. rewrite lookup_total_app_r, Nat.sub_diag by lia. simpl.
  destruct bs as [|c bs _] using rev_ind; [naive_solver|].
  rewrite last_snoc, length_app, Nat.add_1_r. simpl. rewrite negb_false_iff.
  rewrite <- app_assoc, lookup_total_app_r, Nat.sub_diag by lia. done.
Qed.

Lemma wc_fold bs :
  Z.of_nat (length bs) < 2 ^ 31 ->
  foldl wc_byte (mkWcs 0 0 0 0) bs =
  mkWcs (Z.of_nat (newlines bs)) (Z.of_nat (words bs)) (Z.of_nat (length bs))
    (if ends_in_word bs then 1 else 0).
Proof.
  induction bs as [|b bs IH] using rev_ind; [done|]. intros Hb. rewrite length_app in Hb. simpl in Hb.
  rewrite foldl_app, IH by lia. simpl. unfold wc_byte. cbn [wc_l wc_w wc_c wc_in].
  rewrite newlines_snoc, words_snoc, length_app. unfold ends_in_word at 3. rewrite last_snoc.
  pose proof (newlines_le bs). pose proof (words_le bs).
  rewrite !s32_small by lia.
  destruct (decide _) as [[H1 H2]%word_start_last|Hs].
  - rewrite H1, H2. simpl. destruct (b =? 10); f_equal; lia.
  - rewrite word_start_last in Hs. destruct (blank b); simpl; [destruct (b =? 10); f_equal; lia|].
    destruct (ends_in_word bs); [|by destruct Hs]. simpl. destruct (b =? 10); f_equal; lia.
Qed.

Lemma wc_report l w c name :
  Z.of_nat l < 2 ^ 31 -> Z.of_nat w < 2 ^ 31 -> Z.of_nat c < 2 ^ 31 ->
  formatted (msg "%d %d %d %s") [Int (Z.of_nat l); Int (Z.of_nat w); Int (Z.of_nat c); Str name] =
  decimal l ++ bytes " " ++ decimal w ++ bytes " " ++ decimal c ++ bytes " " ++ name ++ [10].
Proof.
  intros Hl Hw Hc. unfold formatted, printf, decimal.
  change (msg "%d %d %d %s") with [37; 100; 32; 37; 100; 32; 37; 100; 32; 37; 115; 10].
  change (bytes " ") with [32].
  cbn -[printint s32 arg_word arg_str].
  change (arg_word _ 0) with (Z.of_nat l). change (arg_word _ 1) with (Z.of_nat w).
  change (arg_word _ 2) with (Z.of_nat c). change (arg_word _ 3 =? 0) with false.
  change (arg_str _ (arg_word _ 3)) with name. cbv iota. rewrite !s32_small by lia.
  by rewrite <- ?app_assoc.
Qed.

Section Env.
Context {St : Type} (h : req -> St -> reply * St) (input output : St -> Z -> list Z).
Context `{!Env h input output}.

(** cat copies: whatever pieces read() delivers, cat() writes the bytes of the descriptor to
    the standard output, in order and each of them once, until the input is used up, and it
    writes nothing else; it returns when the descriptor has no more bytes. *)
Theorem cat_copies fuel fd s :
  (length (input s fd) < fuel)%nat -> exists s',
    interp h (cat fuel fd) s = URet tt s' /\ input s' fd = [] /\
    output s' 1 = output s 1 ++ input s fd /\
    (forall fd', fd' <> 1 -> output s' fd' = output s fd') /\
    (forall fd', fd' <> fd -> input s' fd' = input s fd').
Proof.
  revert s. induction fuel as [|fuel IH]; intros s Hf; [lia|]. simpl.
  destruct (env_read fd UBUF s) as (bs & s1 & -> & Hn & Hd & Hi & Hj & Ho); [done|]. simpl.
  destruct (decide (bs = [])) as [->|Hp].
  - simpl. exists s1. specialize (Hd eq_refl). simpl in Hi. rewrite Ho, Hd, app_nil_r.
    split_and!; auto; congruence.
  - apply length_pos in Hp.
    rewrite (proj2 (Z.ltb_lt 0 _)) by lia. simpl.
    rewrite Nat2Z.id, take_ge by lia.
    destruct (env_write 1 bs s1) as (s2 & -> & Ho2 & Hf2 & Hi2). simpl. rewrite Z.eqb_refl. simpl.
    rewrite Hi, length_app in Hf. destruct (IH s2) as (s' & E & A & B & C & D); [rewrite Hi2; lia|].
    exists s'. split_and!; [exact E|exact A| | |].
    + rewrite B, Ho2, Ho, Hi2, Hi. by rewrite app_assoc.
    + intros fd' Hne. rewrite C, Hf2, Ho by done. done.
    + intros fd' Hne. rewrite D, Hi2, Hj by done. done.
Qed.

(** The loop of wc() goes through all the input, whatever the pieces. *)
Lemma wc_loop_reads fuel fd c s :
  (length (input s fd) < fuel)%nat -> exists s',
    interp h (wc_loop fuel fd c) s = URet (0, foldl wc_byte c (input s fd)) s' /\
    output s' = output s.
Proof.
  revert c s. induction fuel as [|fuel IH]; intros c s Hf; [lia|]. simpl.
  destruct (env_read fd UBUF s) as (bs & s1 & -> & Hn & Hd & Hi & Hj & Ho); [done|]. simpl.
  destruct (decide (bs = [])) as [->|Hp].
  - exists s1. simpl. by rewrite (Hd eq_refl).
  - apply length_pos in Hp. rewrite (proj2 (Z.ltb_lt 0 _)) by lia. rewrite Nat2Z.id, take_ge by lia.
    rewrite Hi, length_app in Hf. edestruct IH as (s' & E & Ho'); [|exists s'].
    2: { split; [|by rewrite Ho', Ho]. rewrite Hi, foldl_app. exact E. }
    lia.
Qed.

(** wc counts: whatever pieces read() delivers, wc() prints the number of newlines, of words
    (the positions with a character that is not blank, at the start or after a blank) and of
    bytes of the whole input, in decimal, also when a word spans two reads. *)
Theorem wc_counts fuel fd name s :
  let bs := input s fd in
  (length bs < fuel)%nat -> Z.of_nat (length bs) < 2 ^ 31 -> exists s',
    interp h (wc fuel fd name) s = URet tt s' /\
    output s' 1 = output s 1 ++ decimal (newlines bs) ++ bytes " " ++ decimal (words bs) ++
      bytes " " ++ decimal (length bs) ++ bytes " " ++ name ++ [10].
Proof.
  intros bs Hf Hb. unfold wc. rewrite interp_bind.
  destruct (wc_loop_reads fuel fd (mkWcs 0 0 0 0) s Hf) as (s1 & -> & Ho). fold bs.
  pose proof (newlines_le bs). pose proof (words_le bs).
  rewrite wc_fold by done. cbn [wc_l wc_w wc_c]. unfold uprintf.
  change (0 <? 0) with false. cbv iota.
  destruct (interp_puts h input output 1 (formatted (msg "%d %d %d %s")
    [Int (Z.of_nat (newlines bs)); Int (Z.of_nat (words bs)); Int (Z.of_nat (length bs)); Str name]) s1)
    as (s' & E & Ho' & _). exists s'. split; [exact E|]. rewrite Ho', Ho. f_equal.
  by apply wc_report; lia.
Qed.
End Env.

(** *** An environment *)

(** The input and the output of each descriptor; a read delivers at most three bytes. *)
Record fenv := mkFenv { e_in : Z -> list Z; e_out : Z -> list Z }.

Definition upd (f : Z -> list Z) (fd : Z) (v : list Z) (x : Z) : list Z := if x =? fd then v else f x.
Definition fenv_call (c : req) (s : fenv) : reply * fenv :=
  match c with
  | Read fd n =>
      let d := take (Z.to_nat (Z.min n 3)) (e_in s fd) in
      (mkReply (Z.of_nat (length d)) d,
       mkFenv (upd (e_in s) fd (drop (Z.to_nat (Z.min n 3)) (e_in s fd))) (e_out s))
  | Write fd bs => (mkReply (Z.of_nat (length bs)) [], mkFenv (e_in s) (upd (e_out s) fd (e_out s fd ++ bs)))
  | _ => (mkReply (-1) [], s)
  end.

#[export] Instance fenv_env : Env fenv_call e_in e_out.
Proof.
  split.
  - intros fd n s Hn. exists (take (Z.to_nat (Z.min n 3)) (e_in s fd)). eexists. split; [done|].
    split_and!.
    + rewrite length_take. lia.
    + intros H. destruct (e_in s fd); [done|]. destruct (Z.to_nat (Z.min n 3)) eqn:E; [lia|done].
    + simpl. unfold upd. by rewrite Z.eqb_refl, take_drop.
    + intros fd' Hne. simpl. unfold upd. by rewrite (proj2 (Z.eqb_neq _ _) Hne).
    + done.
  - intros fd bs s. eexists. split; [done|]. simpl. unfold upd. rewrite Z.eqb_refl. split_and!; [done| |done].
    intros fd' Hne. by rewrite (proj2 (Z.eqb_neq _ _) Hne).
Qed.

(** The input "to be\nor not\n" on descriptor 3. *)
Definition fenv_demo : fenv :=
  mkFenv (upd (fun _ => []) 3 (msg "to be" ++ msg "or not")) (fun _ => []).

Lemma cat_copies_witness : exists s',
  interp fenv_call (cat 20 3) fenv_demo = URet tt s' /\ e_out s' 1 = msg "to be" ++ msg "or not".
Proof.
  destruct (cat_copies fenv_call e_in e_out 20 3 fenv_demo) as (s' & E & _ & H & _); [vm_compute; lia|].
  exists s'. split; [exact E|exact H].
Defined.

Lemma wc_counts_witness : exists s',
  interp fenv_call (wc 20 3 (bytes "f")) fenv_demo = URet tt s' /\ e_out s' 1 = msg "2 4 13 f".
Proof.
  destruct (wc_counts fenv_call e_in e_out 20 3 (bytes "f") fenv_demo) as (s' & E & H);
    [vm_compute; lia|done|].
  exists s'. split; [exact E|]. rewrite H. vm_compute. reflexivity.
Defined.

(** ** The programs that exercise the kernel: forktest.c, stressfs.c, zombie.c and the three test
    programs for small files. *)

(** *** forktest.c *)

Definition FN : nat := 1000.

(** Its own printf(): one call of write() with the format. *)
Definition fprintf (fd : Z) (s : list Z) : prog unit := Call (Write fd s) (fun _ => Done tt).

(** The first loop: [n] when it ends, in the parent; a child exits. *)
Fixpoint fork_loop (k : nat) (n : Z) : prog Z :=
  match k with
  | O => Done n
  | S k' =>
      pid ← call Fork;
      if pid <? 0 then Done n else
      if pid =? 0 then Exit else fork_loop k' (n + 1)
  end.

(** [for(; n > 0; n--)] *)
Fixpoint wait_loop (n : nat) : prog unit :=
  match n with
  | O => Done tt
  | S n' =>
      r ← call Wait;
      if r <? 0 then fprintf 1 (msg "wait stopped early") ≫= fun _ => Exit else wait_loop n'
  end.

Definition forktest : prog unit :=
  fprintf 1 (msg "fork test") ≫= fun _ =>
  n ← fork_loop FN 0;
  if n =? Z.of_nat FN then fprintf 1 (msg "fork claimed to work N times!") ≫= fun _ => Exit else
  wait_loop (Z.to_nat n) ≫= fun _ =>
  r ← call Wait;
  if negb (r =? -1) then fprintf 1 (msg "wait got too many") ≫= fun _ => Exit else
  fprintf 1 (msg "fork test OK").

Definition forktest_main : prog unit := forktest ≫= fun _ => Exit.

(** *** zombie.c *)

Definition zombie_main : prog unit :=
  pid ← call Fork;
  (if 0 <? pid then call (SleepCall 5) ≫= fun _ => Done tt else Done tt) ≫= fun _ => Exit.

(** *** stressfs.c *)

(** [for(i = 0; i < 4; i++) if(fork() > 0) break;]: the final [i]. *)
Fixpoint stress_fork (k : nat) (i : Z) : prog Z :=
  match k with
  | O => Done i
  | S k' => pid ← call Fork; if 0 <? pid then Done i else stress_fork k' (i + 1)
  end.

Fixpoint repeat_call (n : nat) (c : req) : prog unit :=
  match n with
  | O => Done tt
  | S n' => call c ≫= fun _ => repeat_call n' c
  end.

Definition stressfs_main : prog unit :=
  uprintf 1 (msg "stressfs starting") [] ≫= fun _ =>
  i ← stress_fork 4 0;
  uprintf 1 (msg "write %d") [Int i] ≫= fun _ =>
  let path := bytes "stressfs" ++ [48 + i] in
  fd ← call (Open path (Z.lor O_CREATE O_RDWR));
  repeat_call 20 (Write fd (replicate 512 97)) ≫= fun _ =>
  call (Close fd) ≫= fun _ =>
  uprintf 1 (msg "read") [] ≫= fun _ =>
  fd ← call (Open path O_RDONLY);
  repeat_call 20 (Read fd 512) ≫= fun _ =>
  call (Close fd) ≫= fun _ =>
  call Wait ≫= fun _ => Exit.

(** *** TestProgram.c, TestProgram1.c and TestProgram2.c *)

Definition small_test (name data : list Z) : prog unit :=
  x ← call (Open name (Z.lor O_CREATE (Z.lor O_WRONLY O_SFILE)));
  uprintf 1 (msg "Test program %d") [Int x] ≫= fun _ =>
  call (Write x data) ≫= fun _ =>
  call (Close x) ≫= fun _ => Exit.

Definition TestProgram : prog unit := small_test (bytes "smallfile.txt") (bytes "abcdb").
Definition TestProgram1 : prog unit :=
  small_test (bytes "smallfile1.txt") (bytes "abcdbcbcdbcddbcdbcdbcdbcdbcdbcdbcdbcdbcdbcdbcdbcdbcd").
Definition TestProgram2 : prog unit :=
  small_test (bytes "smallfile2.txt") (bytes "abcdbcdbcdbcddbcdbcdbcdbcdbcdbcdbcdbcdbcdbcdbcdbcdbcd").

(** ** grep.c as a program: grep() with its reads and writes, and main(). The matcher and the
    lines that are printed are those of Grep.v. *)

(** The inner loop: a matching line is written with its newline; the rest of the buffer. *)
Fixpoint print_matches (fuel : nat) (pattern p : list Z) : prog (list Z) :=
  match fuel with
  | O => Done p
  | S f =>
      match strchr_nl p with
      | None => Done p
      | Some (line, rest) =>
          if grep_match pattern line then
            call (Write 1 (line ++ [NL])) ≫= fun _ => print_matches f pattern rest
          else print_matches f pattern rest
      end
  end.

Fixpoint ugrep_loop (fuel : nat) (pattern buf : list Z) (fd : Z) : prog unit :=
  match fuel with
  | O => Spin
  | S f =>
      r ← sys (Read fd (Z.of_nat (BUFSZ - length buf - 1)));
      let n := r_val r in
      if 0 <? n then
        let buf := buf ++ take (Z.to_nat n) (r_bytes r) in
        p ← print_matches (S (length buf)) pattern buf;
        ugrep_loop f pattern (if decide (length p = length buf) then [] else p) fd
      else Done tt
  end.
Definition ugrep (fuel : nat) (pattern : list Z) (fd : Z) : prog unit := ugrep_loop fuel pattern [] fd.

(** The arguments after [argv[0]]. *)
Definition grep_main (fuel : nat) (args : list (list Z)) : prog unit :=
  match args with
  | [] => uprintf 2 (msg "usage: grep pattern [file ...]") [] ≫= fun _ => Exit
  | [pattern] => ugrep fuel pattern 0 ≫= fun _ => Exit
  | pattern :: files =>
      each_arg files (fun a =>
        fd ← call (Open a 0);
        if fd <? 0 then uprintf 1 (msg "grep: cannot open %s") [Str a] ≫= fun _ => Exit else
        ugrep fuel pattern fd ≫= fun _ => call (Close fd) ≫= fun _ => Done true) ≫= fun _ => Exit
  end.

(** *** The program prints what the loop of Grep.v prints *)

Section Prints.
Context {St Src : Type} (h : req -> St -> reply * St) (fd : Z).
(** What there is to read at [fd], how read() takes it, and what was written to descriptor 1. *)
Context (src : St -> Src) (read : nat -> Src -> list Z * Src) (out : St -> list Z).
Hypothesis Hread : forall n s, exists s',
  h (User.Read fd (Z.of_nat n)) s = (mkReply (Z.of_nat (length (fst (read n (src s))))) (fst (read n (src s))), s') /\
  src s' = snd (read n (src s)) /\ out s' = out s.
Hypothesis Hwrite : forall bs s, exists s',
  h (User.Write 1 bs) s = (mkReply (Z.of_nat (length bs)) [], s') /\ src s' = src s /\ out s' = out s ++ bs.

Lemma print_matches_out fuel pattern p s : exists s',
  interp h (print_matches fuel pattern p) s = URet (snd (grep_lines fuel pattern p)) s' /\
  src s' = src s /\ out s' = out s ++ fst (grep_lines fuel pattern p).
Proof using Hwrite.
  revert p s. induction fuel as [|f IH]; intros p s; cbn [print_matches grep_lines].
  - exists s. simpl. by rewrite app_nil_r.
  - destruct (strchr_nl p) as [[line rest]|]; [|exists s; simpl; by rewrite app_nil_r].
    destruct (grep_match pattern line).
    + destruct (Hwrite (line ++ [NL]) s) as (s1 & E1 & Hs1 & Ho1).
      destruct (IH rest s1) as (s2 & E2 & Hs2 & Ho2). exists s2. cbn. rewrite E1. cbn.
      destruct (grep_lines f pattern rest) as [o p']. simpl in *. rewrite E2.
      split_and!; [done|congruence|]. by rewrite Ho2, Ho1, <- !app_assoc.
    + destruct (IH rest s) as (s2 & E2 & Hs2 & Ho2). exists s2.
      destruct (grep_lines f pattern rest) as [o p']. simpl in *. by rewrite E2.
Qed.

(** The program grep() makes the reads and writes of the loop of which Grep.v shows what it
    prints: whenever that loop ends with some output, the program returns, and has written exactly
    this output, however read() delivers the input. *)
Theorem ugrep_prints fuel pattern s o :
  grep read fuel pattern (src s) = Some o ->
  exists s', interp h (ugrep fuel pattern fd) s = URet tt s' /\ out s' = out s ++ o.
Proof using Hread Hwrite.
  unfold grep, ugrep. generalize (@nil Z) as buf. revert s o.
  induction fuel as [|f IH]; intros s o buf Hg; [done|]. cbn [grep_loop ugrep_loop] in *.
  destruct (Hread (BUFSZ - length buf - 1) s) as (s1 & E1 & Hs1 & Ho1).
  destruct (read (BUFSZ - length buf - 1) (src s)) as [d t]. cbn [fst snd] in E1, Hs1.
  rewrite interp_bind. cbn [sys interp]. rewrite E1. cbn [interp r_val r_bytes].
  destruct d as [|x d]; [simplify_eq; exists s1; split; [done|by rewrite Ho1, app_nil_r]|].
  rewrite (proj2 (Z.ltb_lt 0 _)) by (simpl; lia). rewrite Nat2Z.id, firstn_all.
  set (buf' := buf ++ x :: d) in *. rewrite interp_bind.
  destruct (print_matches_out (S (length buf')) pattern buf' s1) as (s2 & E2 & Hs2 & Ho2).
  rewrite E2. destruct (grep_lines (S (length buf')) pattern buf') as [o1 p]. cbn [fst snd] in *.
  rewrite <- Hs1, <- Hs2 in Hg. apply fmap_Some in Hg as (o2 & Hg & ->).
  destruct (IH _ _ _ Hg) as (s3 & E3 & Ho3). exists s3. split; [done|].
  by rewrite Ho3, Ho2, Ho1, app_assoc.
Qed.
End Prints.
