(* ===== verification/ShRun.v ===== *)
(** The shell at work: runcmd(), getcmd() and main() of sh.c, and init.c, with the processes and
    the descriptors that they make.

    The processes of a program form a tree. What a process does depends on its own descriptors
    and on the answers of its calls; the processes of different branches share neither, so the
    tree does not depend on how the kernel interleaves them. *)

From S2P Require Export User ShPrint.

Open Scope Z_scope.

(** *** sh.c *)

Definition sh_panic {A} (s : list Z) : prog A := uprintf 2 (msg "%s") [Str s] ≫= fun _ => Exit.

Definition fork1 : prog Z :=
  pid ← call Fork;
  if pid =? -1 then sh_panic (bytes "fork") else Done pid.

(** The two descriptors that pipe() stores. *)
Definition pipe_fd (r : reply) (i : nat) : Z := s32 (le_val (take 4 (drop (4 * i) (r_bytes r)))).

Fixpoint runcmd (c : cmd (list Z)) : prog unit :=
  match c with
  | Exec argv =>
      match argv with
      | [] => Exit
      | a :: _ =>
          call (ExecCall a argv) ≫= fun _ =>
          uprintf 2 (msg "exec %s failed") [Str a] ≫= fun _ => Exit
      end
  | Redir c file mode fd =>
      call (Close fd) ≫= fun _ =>
      r ← call (Open file mode);
      if r <? 0 then uprintf 2 (msg "open %s failed") [Str file] ≫= fun _ => Exit
      else runcmd c ≫= fun _ => Exit
  | List_ l r =>
      pid ← fork1;
      (if pid =? 0 then runcmd l else Done tt) ≫= fun _ =>
      call Wait ≫= fun _ =>
      runcmd r ≫= fun _ => Exit
  | Pipe l r =>
      q ← sys PipeCall;
      if r_val q <? 0 then sh_panic (bytes "pipe") else
      let p0 := pipe_fd q 0 in
      let p1 := pipe_fd q 1 in
      pid ← fork1;
      (if pid =? 0 then
         call (Close 1) ≫= fun _ =>
         call (Dup p1) ≫= fun _ =>
         call (Close p0) ≫= fun _ =>
         call (Close p1) ≫= fun _ =>
         runcmd l
       else Done tt) ≫= fun _ =>
      pid ← fork1;
      (if pid =? 0 then
         call (Close 0) ≫= fun _ =>
         call (Dup p0) ≫= fun _ =>
         call (Close p0) ≫= fun _ =>
         call (Close p1) ≫= fun _ =>
         runcmd r
       else Done tt) ≫= fun _ =>
      call (Close p0) ≫= fun _ =>
      call (Close p1) ≫= fun _ =>
      call Wait ≫= fun _ =>
      call Wait ≫= fun _ => Exit
  | Back c =>
      pid ← fork1;
      (if pid =? 0 then runcmd c else Done tt) ≫= fun _ => Exit
  end.

(** parsecmd(), with the message about what is left of the line. *)
Definition leftovers (buf : list Z) : option (list Z) :=
  match parseline buf (parse_fuel buf) 0 with
  | POk _ ps =>
      let '(s, _) := peek buf ps [] in
      if bool_decide (s <> length buf) then Some (drop s buf) else None
  | _ => None
  end.

Definition parse_run (buf : list Z) : prog unit :=
  match parsecmd buf with
  | POk (c, b) _ => runcmd (cmd_map (fun w => cstring (drop (fst w) b)) c)
  | PPanic e =>
      match leftovers buf with
      | Some s => uprintf 2 (msg "leftovers: %s") [Str s] ≫= fun _ => sh_panic (bytes e)
      | None => sh_panic (bytes e)
      end
  | PFuel => Spin
  end.

(** [sizeof(buf)] of main() *)
Definition SHBUF : Z := 100.

(** The line, or nothing at the end of the input. *)
Definition getcmd : prog (option (list Z)) :=
  uprintf 2 (bytes "$ ") [] ≫= fun _ =>
  buf ← ugets SHBUF;
  Done (match cstring buf with [] => None | s => Some s end).

(** The path of a line that starts with "cd ", without its last byte. *)
Definition cd_path (buf : list Z) : option (list Z) :=
  match buf with
  | 99 :: 100 :: 32 :: path => Some (take (length buf - 4) path)
  | _ => None
  end.

Fixpoint open_console (fuel : nat) : prog unit :=
  match fuel with
  | O => Spin
  | S f =>
      fd ← call (Open (bytes "console") O_RDWR);
      if 0 <=? fd then
        if 3 <=? fd then call (Close fd) ≫= fun _ => Done tt else open_console f
      else Done tt
  end.

Fixpoint sh_loop (fuel : nat) : prog unit :=
  match fuel with
  | O => Spin
  | S f =>
      l ← getcmd;
      match l with
      | None => Exit
      | Some buf =>
          match cd_path buf with
          | Some path =>
              r ← call (Chdir path);
              (if r <? 0 then uprintf 2 (msg "cannot cd %s") [Str path] else Done tt) ≫= fun _ =>
              sh_loop f
          | None =>
              pid ← fork1;
              (if pid =? 0 then parse_run buf else Done tt) ≫= fun _ =>
              call Wait ≫= fun _ => sh_loop f
          end
      end
  end.

(** Three descriptors can be missing, and a fourth open() ends the loop. *)
Definition sh_main (fuel : nat) : prog unit :=
  open_console 4 ≫= fun _ => sh_loop fuel.

(** *** init.c *)

(** [while((wpid=wait()) >= 0 && wpid != pid) printf(1, "zombie!\n")] *)
Fixpoint init_wait (fuel : nat) (pid : Z) : prog unit :=
  match fuel with
  | O => Spin
  | S f =>
      wpid ← call Wait;
      if (0 <=? wpid) && negb (wpid =? pid)
      then uprintf 1 (msg "zombie!") [] ≫= fun _ => init_wait f pid
      else Done tt
  end.

Fixpoint init_loop (fuel : nat) : prog unit :=
  match fuel with
  | O => Spin
  | S f =>
      uprintf 1 (msg "init: starting sh") [] ≫= fun _ =>
      pid ← call Fork;
      if pid <? 0 then uprintf 1 (msg "init: fork failed") [] ≫= fun _ => Exit else
      if pid =? 0 then
        call (ExecCall (bytes "sh") [bytes "sh"]) ≫= fun _ =>
        uprintf 1 (msg "init: exec sh failed") [] ≫= fun _ => Exit
      else init_wait f pid ≫= fun _ => init_loop f
  end.

Definition init_main (fuel : nat) : prog unit :=
  fd ← call (Open (bytes "console") O_RDWR);
  (if fd <? 0 then
     call (Mknod (bytes "console") 1 1) ≫= fun _ =>
     call (Open (bytes "console") O_RDWR) ≫= fun _ => Done tt
   else Done tt) ≫= fun _ =>
  call (Dup 0) ≫= fun _ =>
  call (Dup 0) ≫= fun _ =>
  init_loop fuel.

(** ** The processes that the shell makes for a command: what each of them runs, and where its
    standard input and output go. *)

(** *** Processes and descriptors *)

(** The past of a process, newest first: 0 for a call, 1 and 2 for the two sides of a fork. It
    names the next call of the process, and a pipe is named by the call that made it. *)
Definition hist : Type := list nat.

(** An open file: a file of the file system, or an end of a pipe. *)
Inductive desc : Type :=
| FileD (path : list Z) (mode : Z)
| ReadEnd (p : hist)
| WriteEnd (p : hist).
#[export] Instance desc_eq_dec : EqDecision desc.
Proof. solve_decision. Defined.

(** [proc->ofile] *)
Definition ftab : Type := list (option desc).

Inductive ptree : Type :=
| Image (path : list Z) (argv : list (list Z)) (fds : ftab)  (* the process runs a program *)
| Ended
| Returned
| Spun
| Forks (child parent : ptree)
| Waits (fds : ftab) (t : ptree)
| Writes (d : option desc) (bs : list Z) (t : ptree)
| Moves (path : list Z) (t : ptree).

(** fdalloc() *)
Definition lowest (fds : ftab) : option nat := fst <$> list_find (fun o => o = None) fds.
Definition fd_desc (fds : ftab) (fd : Z) : option desc :=
  if (fd <? 0) || (Z.of_nat (length fds) <=? fd) then None else mjoin (fds !! Z.to_nat fd).

Section Run.
(** Whether a call that may fail succeeds, the process ids that fork() and wait() return, and
    what a read delivers. *)
Context (ok : hist -> bool) (pid wpid : hist -> Z) (inp : hist -> list Z).

Definition failed : reply := mkReply (-1) [].
Definition result (v : Z) : reply := mkReply v [].

Fixpoint run (p : prog unit) (h : hist) (fds : ftab) : ptree :=
  match p with
  | Done _ => Returned
  | Exit => Ended
  | Spin => Spun
  | Call c k =>
      match c with
      | Open path mode =>
          match (if ok h then lowest fds else None) with
          | Some fd => run (k (result (Z.of_nat fd))) (0%nat :: h) (<[fd := Some (FileD path mode)]> fds)
          | None => run (k failed) (0%nat :: h) fds
          end
      | Close fd =>
          match fd_desc fds fd with
          | Some _ => run (k (result 0)) (0%nat :: h) (<[Z.to_nat fd := None]> fds)
          | None => run (k failed) (0%nat :: h) fds
          end
      | Dup fd =>
          match fd_desc fds fd, lowest fds with
          | Some d, Some fd' => run (k (result (Z.of_nat fd'))) (0%nat :: h) (<[fd' := Some d]> fds)
          | _, _ => run (k failed) (0%nat :: h) fds
          end
      | PipeCall =>
          match (if ok h then lowest fds else None) with
          | Some r =>
              let fds1 := <[r := Some (ReadEnd h)]> fds in
              match lowest fds1 with
              | Some w =>
                  run (k (mkReply 0 (le_bytes 4 (Z.of_nat r) ++ le_bytes 4 (Z.of_nat w)))) (0%nat :: h)
                    (<[w := Some (WriteEnd h)]> fds1)
              | None => run (k failed) (0%nat :: h) fds
              end
          | None => run (k failed) (0%nat :: h) fds
          end
      | Fork =>
          if ok h then Forks (run (k (result 0)) (1%nat :: h) fds) (run (k (result (pid h))) (2%nat :: h) fds)
          else run (k failed) (0%nat :: h) fds
      | Wait => Waits fds (run (k (result (wpid h))) (0%nat :: h) fds)
      | ExecCall path argv =>
          if ok h then Image path argv fds else run (k failed) (0%nat :: h) fds
      | Read fd n =>
          match fd_desc fds fd with
          | Some _ =>
              let bs := take (Z.to_nat n) (inp h) in
              run (k (mkReply (Z.of_nat (length bs)) bs)) (0%nat :: h) fds
          | None => run (k failed) (0%nat :: h) fds
          end
      | Write fd bs =>
          Writes (fd_desc fds fd) bs (run (k (result (Z.of_nat (length bs)))) (0%nat :: h) fds)
      | Chdir path =>
          if ok h then Moves path (run (k (result 0)) (0%nat :: h) fds)
          else run (k failed) (0%nat :: h) fds
      | _ => run (k (if ok h then result 0 else failed)) (0%nat :: h) fds
      end
  end.

(** *** What a command means *)

(** The standard input, output and error output of a process that has no other descriptors. *)
Record stdio := mkStdio { s_in : desc; s_out : desc; s_err : desc }.
Definition std (io : stdio) : ftab :=
  Some (s_in io) :: Some (s_out io) :: Some (s_err io) :: replicate 13 None.
Definition with_in (d : desc) (io : stdio) : stdio := mkStdio d (s_out io) (s_err io).
Definition with_out (d : desc) (io : stdio) : stdio := mkStdio (s_in io) d (s_err io).

(** The process after [n] calls. *)
Definition after (n : nat) (h : hist) : hist := replicate n 0%nat ++ h.

(** The process writes a message to [d], byte by byte, and goes on as [t]. *)
Definition says (d : option desc) (bs : list Z) (t : ptree) : ptree :=
  foldr (fun b t => Writes d [b] t) t bs.
Definition complains (io : stdio) (fmt : list Z) (args : list arg) : ptree :=
  says (Some (s_err io)) (formatted fmt args) Ended.

Fixpoint denote (c : cmd (list Z)) (h : hist) (io : stdio) : ptree :=
  match c with
  | Exec [] => Ended
  | Exec (a :: argv) =>
      if ok h then Image a (a :: argv) (std io) else complains io (msg "exec %s failed") [Str a]
  | Redir c file mode fd =>
      if ok (after 1 h) then
        denote c (after 2 h) (if fd =? 0 then with_in (FileD file mode) io else with_out (FileD file mode) io)
      else complains io (msg "open %s failed") [Str file]
  | List_ l r =>
      if ok h then Forks (denote l (1%nat :: h) io) (Waits (std io) (denote r (0%nat :: 2%nat :: h) io))
      else complains io (msg "%s") [Str (bytes "fork")]
  | Pipe l r =>
      if ok h then
        if ok (after 1 h) then
          Forks (denote l (after 4 (1%nat :: after 1 h)) (with_out (WriteEnd h) io))
            (if ok (2%nat :: after 1 h) then
               Forks (denote r (after 4 (1%nat :: 2%nat :: after 1 h)) (with_in (ReadEnd h) io))
                 (Waits (std io) (Waits (std io) Ended))
             else complains io (msg "%s") [Str (bytes "fork")])
        else complains io (msg "%s") [Str (bytes "fork")]
      else complains io (msg "%s") [Str (bytes "pipe")]
  | Back c =>
      if ok h then Forks (denote c (1%nat :: h) io) Ended
      else complains io (msg "%s") [Str (bytes "fork")]
  end.

(** The redirections are of the standard input or output, as the parser makes them. *)
Fixpoint redirs_std (c : cmd (list Z)) : Prop :=
  match c with
  | Exec _ => True
  | Redir c _ _ fd => (fd = 0 \/ fd = 1) /\ redirs_std c
  | Pipe l r | List_ l r => redirs_std l /\ redirs_std r
  | Back c => redirs_std c
  end.

(** *** Programs that never return *)

Fixpoint noret {A} (p : prog A) : Prop :=
  match p with
  | Done _ => False
  | Call _ k => forall r, noret (k r)
  | Exit | Spin => True
  end.

Lemma noret_bind {A B} (p : prog A) (f : A -> prog B) : (forall a, noret (f a)) -> noret (p ≫= f).
Proof. intros Hf. unfold mbind, prog_bind. induction p; simpl; auto. Qed.
Lemma noret_bind_l {A B} (p : prog A) (f : A -> prog B) : noret p -> noret (p ≫= f).
Proof. unfold mbind, prog_bind. induction p; simpl; auto; done. Qed.

Lemma run_noret (p : prog unit) (f : unit -> prog unit) h fds :
  noret p -> run (p ≫= f) h fds = run p h fds.
Proof.
  unfold mbind, prog_bind. revert h fds. induction p as [a|c k IH| |]; intros h fds Hp; [done| |done..].
  simpl in Hp. destruct c; simpl; repeat case_match; rewrite ?IH by done; try done.
Qed.

Lemma run_assoc {A B} (p : prog A) (f : A -> prog B) (g : B -> prog unit) h fds :
  run ((p ≫= f) ≫= g) h fds = run (p ≫= (fun a => f a ≫= g)) h fds.
Proof.
  unfold mbind, prog_bind. revert h fds. induction p as [a|c k IH| |]; intros h fds; [done| |done..].
  destruct c; simpl; repeat case_match; rewrite ?IH; done.
Qed.

Lemma after_cons n h : after n (0%nat :: h) = 0%nat :: after n h.
Proof. unfold after. induction n as [|n IH]; simpl; [done|]. by rewrite IH. Qed.

Lemma run_puts fd bs (f : unit -> prog unit) h fds :
  run (puts fd bs ≫= f) h fds = says (fd_desc fds fd) bs (run (f tt) (after (length bs) h) fds).
Proof.
  revert h. induction bs as [|b bs IH]; intros h; [done|]. simpl. f_equal.
  change (run (puts fd bs ≫= f) (0%nat :: h) fds = says (fd_desc fds fd) bs
    (run (f tt) (0%nat :: after (length bs) h) fds)).
  by rewrite IH, after_cons.
Qed.

(** "Execute cmd. Never returns." *)
Lemma runcmd_noret c : noret (runcmd c).
Proof.
  destruct c as [[|a argv]|c file mode fd|l r|l r|c]; [done|..]; cbn [runcmd]; cbv zeta;
    repeat first [done | apply noret_bind; intros | case_match].
Qed.

(** fork() returns the positive id of the child. *)
Context (pid_pos : forall h, 0 < pid h).

Lemma run_call c (f : Z -> prog unit) h fds :
  run (call c ≫= f) h fds = run (Call c (fun r => f (r_val r))) h fds.
Proof. done. Qed.
Lemma run_sys c (f : reply -> prog unit) h fds : run (sys c ≫= f) h fds = run (Call c f) h fds.
Proof. done. Qed.

Lemma run_uprintf fd fmt args (f : unit -> prog unit) h fds :
  run (uprintf fd fmt args ≫= f) h fds =
  says (fd_desc fds fd) (formatted fmt args) (run (f tt) (after (length (formatted fmt args)) h) fds).
Proof. apply run_puts. Qed.

Lemma run_panic {A} (f : A -> prog unit) m h fds :
  run (sh_panic m ≫= f) h fds = says (fd_desc fds 2) (formatted (msg "%s") [Str m]) Ended.
Proof. unfold sh_panic. by rewrite run_assoc, run_uprintf. Qed.

(** A fork whose child does not come back. *)
Lemma run_fork1 (child : prog unit) (f : unit -> prog unit) h fds :
  noret child ->
  run (pid ← fork1; (if pid =? 0 then child else Done tt) ≫= f) h fds =
  if ok h then Forks (run child (1%nat :: h) fds) (run (f tt) (2%nat :: h) fds)
  else says (fd_desc fds 2) (formatted (msg "%s") [Str (bytes "fork")]) Ended.
Proof.
  intros Hc. unfold fork1. pose proof (pid_pos h) as Hp. simpl. destruct (ok h); simpl.
  - rewrite (proj2 (Z.eqb_neq (pid h) (-1))) by lia. simpl.
    rewrite (proj2 (Z.eqb_neq (pid h) 0)) by lia. simpl.
    by rewrite (run_noret child f).
  - exact (run_panic (fun pid => (if pid =? 0 then child else Done tt) ≫= f) (bytes "fork") (0%nat :: h) fds).
Qed.

Lemma run_complains fmt args h io fds :
  fd_desc fds 2 = Some (s_err io) ->
  run (uprintf 2 fmt args ≫= fun _ => Exit) h fds = complains io fmt args.
Proof. intros E. by rewrite run_uprintf, E. Qed.
Lemma run_fork1_std (child : prog unit) (f : unit -> prog unit) h fds io :
  noret child -> fd_desc fds 2 = Some (s_err io) ->
  run (pid ← fork1; (if pid =? 0 then child else Done tt) ≫= f) h fds =
  if ok h then Forks (run child (1%nat :: h) fds) (run (f tt) (2%nat :: h) fds)
  else complains io (msg "%s") [Str (bytes "fork")].
Proof. intros Hc E. by rewrite run_fork1, E. Qed.
#[local] Opaque complains uprintf formatted.

(** The descriptors of the two sides of a pipe, and of the shell after it. *)
Lemma pipe_fds a b : 0 <= a < 2 ^ 31 -> 0 <= b < 2 ^ 31 ->
  pipe_fd (mkReply 0 (le_bytes 4 a ++ le_bytes 4 b)) 0 = a /\
  pipe_fd (mkReply 0 (le_bytes 4 a ++ le_bytes 4 b)) 1 = b.
Proof.
  intros Ha Hb. unfold pipe_fd. cbn [r_bytes]. split.
  - rewrite drop_0, take_app_length' by (by rewrite length_le_bytes). rewrite le_val_le_bytes.
    rewrite Z.mod_small by lia. by apply s32_small.
  - rewrite drop_app_length', take_ge by (rewrite ?length_le_bytes; done). rewrite le_val_le_bytes.
    rewrite Z.mod_small by lia. by apply s32_small.
Qed.

(** close() of an open descriptor, and then open() or dup(), which takes it again. *)
Lemma run_redir fd file mode (f : Z -> prog unit) h io :
  fd = 0 \/ fd = 1 ->
  run (call (Close fd) ≫= fun _ => call (Open file mode) ≫= f) h (std io) =
  if ok (after 1 h) then
    run (f fd) (after 2 h)
      (std (if fd =? 0 then with_in (FileD file mode) io else with_out (FileD file mode) io))
  else run (f (-1)) (after 2 h) (<[Z.to_nat fd := None]> (std io)).
Proof.
  intros Hfd. rewrite run_call. destruct Hfd as [->| ->]; cbn [run];
    (change (fd_desc (std io) _) with (Some (s_in io)) || change (fd_desc (std io) _) with (Some (s_out io)));
    cbv iota; rewrite run_call; cbn [run]; change (after 1 h) with (0%nat :: h);
    by destruct (ok (0%nat :: h)).
Qed.

(** The shell's descriptors while it sets up a pipe. *)
Definition piped (h : hist) (io : stdio) : ftab :=
  Some (s_in io) :: Some (s_out io) :: Some (s_err io) :: Some (ReadEnd h) :: Some (WriteEnd h) ::
  replicate 11 None.

(** [close(fd); dup(p); close(p[0]); close(p[1])] in a child. *)
Lemma run_join fd p (f : prog unit) h h0 io d :
  fd_desc (piped h0 io) p = Some d -> (fd = 0 /\ p = 3) \/ (fd = 1 /\ p = 4) ->
  run (call (Close fd) ≫= fun _ => call (Dup p) ≫= fun _ => call (Close 3) ≫= fun _ =>
       call (Close 4) ≫= fun _ => f) h (piped h0 io) =
  run f (after 4 h) (std (if fd =? 0 then with_in d io else with_out d io)).
Proof. intros Hd [[-> ->]|[-> ->]]; by injection Hd as <-. Qed.

Lemma run_pipe (f : reply -> prog unit) h io :
  run (sys PipeCall ≫= f) h (std io) =
  if ok h then run (f (mkReply 0 (le_bytes 4 3 ++ le_bytes 4 4))) (after 1 h) (piped h io)
  else run (f failed) (after 1 h) (std io).
Proof. rewrite run_sys. cbn [run]. by destruct (ok h). Qed.

Lemma runcmd_run c h io : redirs_std c -> run (runcmd c) h (std io) = denote c h io.
Proof.
  revert h io. induction c as [[|a argv]|c IH file mode fd|l IHl r IHr|l IHl r IHr|c IH]; intros h io Hc.
  - done.
  - cbn [runcmd denote]. rewrite run_call. cbn [run]. destruct (ok h); [done|]. by apply run_complains.
  - cbn [runcmd denote]. destruct Hc as [Hfd Hc]. rewrite run_redir by done.
    destruct (ok _).
    + rewrite (proj2 (Z.ltb_ge fd 0)) by lia. rewrite run_noret by apply runcmd_noret. by apply IH.
    + change (-1 <? 0) with true. cbv iota. apply run_complains. by destruct Hfd as [->| ->].
  - cbn [runcmd denote]. cbv zeta. destruct Hc as [Hl Hr]. rewrite run_pipe. destruct (ok h).
    2: { change (r_val failed <? 0) with true. cbv iota. by apply run_complains. }
    destruct (pipe_fds 3 4) as [-> ->]; [lia..|]. cbn [r_val]. change (0 <? 0) with false. cbv iota.
    rewrite (run_fork1_std _ _ _ _ io)
      by (first [done | repeat (apply noret_bind; intros); apply runcmd_noret]).
    destruct (ok _); [|done].
    rewrite (run_join 1 4 _ _ _ _ (WriteEnd h)) by auto. rewrite (IHl _ (with_out (WriteEnd h) io)) by done.
    f_equal. rewrite (run_fork1_std _ _ _ _ io)
      by (first [done | repeat (apply noret_bind; intros); apply runcmd_noret]).
    destruct (ok _); [|done].
    rewrite (run_join 0 3 _ _ _ _ (ReadEnd h)) by auto. by rewrite (IHr _ (with_in (ReadEnd h) io)).
  - cbn [runcmd denote]. destruct Hc as [Hl Hr]. 
    rewrite (run_fork1_std _ _ _ _ io) by (done || apply runcmd_noret).
    destruct (ok h); [|done]. rewrite IHl by done. f_equal. rewrite run_call. cbn [run]. f_equal.
    rewrite run_noret by apply runcmd_noret. by apply IHr.
  - cbn [runcmd denote]. rewrite (run_fork1_std _ _ _ _ io) by (done || apply runcmd_noret).
    destruct (ok h); [|done]. by rewrite IH.
Qed.

(** *** Which process holds which end of a pipe *)

(** The descriptors of the processes that stay: those that run a program, and the shells that
    wait. *)
Fixpoint tables (t : ptree) : list ftab :=
  match t with
  | Image _ _ fds => [fds]
  | Ended | Returned | Spun => []
  | Forks a b => tables a ++ tables b
  | Waits fds t => fds :: tables t
  | Writes _ _ t | Moves _ t => tables t
  end.

(** A descriptor that the shell made after [h]. *)
Definition made (h : hist) (d : desc) : Prop :=
  match d with FileD _ _ => True | ReadEnd p | WriteEnd p => h `suffix_of` p end.
Definition io_descs (io : stdio) : list desc := [s_in io; s_out io; s_err io].

Lemma made_suffix g h d : g `suffix_of` h -> made h d -> made g d.
Proof. destruct d; simpl; [done|..]; by intros; etransitivity. Qed.

(** Three descriptors, each of them given or made since. *)
Definition tidy (h : hist) (io : stdio) (f : ftab) : Prop :=
  exists io', f = std io' /\ forall d, d ∈ io_descs io' -> d ∈ io_descs io \/ made h d.

Lemma tidy_self h io : tidy h io (std io).
Proof. exists io. auto. Qed.

Lemma tidy_weaken g h io io' f :
  g `suffix_of` h -> (forall d, d ∈ io_descs io' -> d ∈ io_descs io \/ made g d) ->
  tidy h io' f -> tidy g io f.
Proof.
  intros Hs Hd (io2 & -> & Hf). exists io2. split; [done|]. intros d Hin.
  destruct (Hf d Hin) as [H|H]; [auto|]. right. by eapply made_suffix.
Qed.

Lemma with_in_descs d0 io d h :
  made h d0 -> d ∈ io_descs (with_in d0 io) -> d ∈ io_descs io \/ made h d.
Proof. unfold io_descs. simpl. set_solver. Qed.
Lemma with_out_descs d0 io d h :
  made h d0 -> d ∈ io_descs (with_out d0 io) -> d ∈ io_descs io \/ made h d.
Proof. unfold io_descs. simpl. set_solver. Qed.

Lemma suffix_step (x : nat) g h : g `suffix_of` h -> g `suffix_of` (x :: h).
Proof. apply suffix_cons_r. Qed.
Lemma suffix_after n g h : g `suffix_of` h -> g `suffix_of` after n h.
Proof. intros H. unfold after. by apply suffix_app_r. Qed.
#[local] Hint Resolve suffix_step suffix_after : core.

Lemma complains_tables io fmt args : tables (complains io fmt args) = [].
Proof.
  #[local] Transparent complains. unfold complains. by induction (formatted fmt args).
Qed.
#[local] Opaque complains.

Lemma complains_tidy h io io' fmt args : Forall (tidy h io) (tables (complains io' fmt args)).
Proof. by rewrite complains_tables. Qed.

Lemma tidy_sub g h io io' l :
  Forall (tidy h io') l -> g `suffix_of` h ->
  (forall d, d ∈ io_descs io' -> d ∈ io_descs io \/ made g d) -> Forall (tidy g io) l.
Proof. intros Hl Hs Hd. eapply Forall_impl; [exact Hl|]. intros f. by apply tidy_weaken. Qed.

Lemma denote_tidy c h io : Forall (tidy h io) (tables (denote c h io)).
Proof.
  revert h io. induction c as [[|a argv]|c IH file mode fd|l IHl r IHr|l IHl r IHr|c IH]; intros h io;
    cbn [denote]; repeat (destruct (ok _)); cbn [tables];
    repeat first [apply complains_tidy | apply Forall_app_2 | apply Forall_cons_2 | apply Forall_nil_2
                 | apply tidy_self].
  - eapply tidy_sub; [apply IH|auto|]. intros d.
    destruct (fd =? 0); [by apply with_in_descs|by apply with_out_descs].
  - eapply tidy_sub; [apply IHl|auto|]. intros d. by apply with_out_descs; simpl.
  - eapply tidy_sub; [apply IHr|auto 8|]. intros d. by apply with_in_descs; simpl.
  - eapply tidy_sub; [apply IHl|auto|]. intros d. by apply with_out_descs; simpl.
  - eapply tidy_sub; [apply IHl|auto|]. auto.
  - eapply tidy_sub; [apply IHr|auto|]. auto.
  - eapply tidy_sub; [apply IH|auto|]. auto.
Qed.

(** A process that was started after the pipe [p] was made holds no end of it but those that it
    was given. *)
Lemma tidy_not_held h p io f d :
  tidy h io f -> p `suffix_of` h -> p <> h -> d = ReadEnd p \/ d = WriteEnd p ->
  d ∉ io_descs io -> Some d ∉ f.
Proof.
  intros (io' & -> & Hf) Hs Hne Hd Hin Hd'.
  assert (Hio : d ∈ io_descs io').
  { unfold std, io_descs in *. rewrite !elem_of_cons in Hd'. rewrite !elem_of_cons.
    destruct Hd' as [E|[E|[E|E]]]; [injection E as <-; auto..|].
    apply elem_of_replicate in E as [E _]. done. }
  destruct (Hf d Hio) as [?|Hm]; [done|]. apply Hne, (anti_symm suffix); [done|].
  by destruct Hd as [->| ->].
Qed.

(** The ends of a pipe close: while the commands of [l | r] run, the write end of the pipe is
    open only in processes of [l], and the read end only in processes of [r]. In particular no
    shell that waits and no process of [r] keeps the write end open, so [r] sees the end of its
    input when [l] is done. Every process of the two commands has three descriptors. *)
Theorem pipe_ends_close l r h io :
  redirs_std (Pipe l r) -> ok h = true -> ok (after 1 h) = true -> ok (2%nat :: after 1 h) = true ->
  ReadEnd h ∉ io_descs io -> WriteEnd h ∉ io_descs io ->
  exists tl tr tw, run (runcmd (Pipe l r)) h (std io) = Forks tl (Forks tr tw) /\
    (forall f, f ∈ tables tl ++ tables tr ++ tables tw -> exists io', f = std io') /\
    (forall f, f ∈ tables tl ++ tables tw -> Some (ReadEnd h) ∉ f) /\
    (forall f, f ∈ tables tr ++ tables tw -> Some (WriteEnd h) ∉ f).
Proof.
  intros Hc H0 H1 H2 Hri Hwi. rewrite runcmd_run by done. cbn [denote]. rewrite H0, H1, H2.
  eexists _, _, _. split; [reflexivity|].
  match goal with |- context [tables (denote l ?g ?i)] => pose proof (denote_tidy l g i) as Tl end.
  match goal with |- context [tables (denote r ?g ?i)] => pose proof (denote_tidy r g i) as Tr end.
  assert (Hne : forall n x g, h `suffix_of` g -> h <> after n (x :: g)).
  { intros n x g [k ->] E. apply (f_equal length) in E. unfold after in E.
    rewrite length_app in E. simpl in E. rewrite length_app in E. lia. }
  rewrite Forall_forall in Tl, Tr.
  assert (Hw : forall f, f ∈ [std io; std io] -> f = std io) by set_solver.
  assert (Hn : forall d, d ∉ io_descs io -> Some d ∉ std io).
  { intros d Hd Hin. unfold std, io_descs in *. set_unfold. naive_solver. }
  cbn [tables]. split_and!; intros f; rewrite !elem_of_app.
  - intros [Hf|[Hf|Hf]]; [apply Tl in Hf as (? & ? & _)|apply Tr in Hf as (? & ? & _)|]; eauto.
  - intros [Hf|Hf]; [|rewrite (Hw f Hf); auto].
    eapply tidy_not_held; [by apply Tl| | |by left|]; auto.
    unfold io_descs in *. simpl. set_solver.
  - intros [Hf|Hf]; [|rewrite (Hw f Hf); auto].
    eapply tidy_not_held; [by apply Tr| | |by right|]; auto 8.
    unfold io_descs in *. simpl. set_solver.
Qed.

(** *** A turn of the shell's loop *)

(** The reads of the process deliver these bytes, one at a time. *)
Definition delivers (h : hist) (bs : list Z) : Prop :=
  forall i c, bs !! i = Some c -> inp (after i h) = [c].

Lemma delivers_cons h c bs : delivers h (c :: bs) -> inp h = [c] /\ delivers (0%nat :: h) bs.
Proof.
  intros Hd. split; [by apply (Hd 0%nat)|]. intros i x Hi. specialize (Hd (S i) x Hi).
  by rewrite after_cons.
Qed.

Definition eol (c : Z) : bool := (c =? 10) || (c =? 13).

Lemma cstring_no_nul l : Forall (fun c => c <> 0) l -> cstring l = l.
Proof.
  intros Hl. unfold cstring. apply take_ge. induction Hl as [|c l Hc _ IH]; simpl; [lia|].
  rewrite (proj2 (Z.eqb_neq c 0) Hc). simpl. lia.
Qed.

(** gets() returns the line with its newline. *)
Lemma run_gets fuel buf bs max (f : list Z -> prog unit) h fds d :
  fd_desc fds 0 = Some d -> delivers h (bs ++ [10]) -> Forall (fun c => eol c = false) bs ->
  (length bs < fuel)%nat -> Z.of_nat (length buf + length bs) + 1 < max ->
  run (ugets_loop fuel buf max ≫= f) h fds = run (f (buf ++ bs ++ [10])) (after (S (length bs)) h) fds.
Proof.
  intros Hfd. revert fuel buf h. induction bs as [|c bs IH]; intros fuel buf h Hd Hn Hf Hm;
    (destruct fuel as [|fuel]; [simpl in Hf; lia|]); cbn [ugets_loop]; simpl length in *;
    rewrite (proj2 (Z.ltb_lt _ _)) by lia; rewrite run_assoc, run_sys; cbn [run]; rewrite Hfd;
    apply delivers_cons in Hd as [Hi Hd]; rewrite Hi; simpl; [done|].
  apply Forall_cons in Hn as [Hc Hn]. unfold eol in Hc. rewrite Hc.
  unfold mbind in IH. unfold prog_bind in IH. rewrite IH; [|done|done|lia|rewrite length_app; simpl; lia].
  rewrite <- app_assoc. by rewrite after_cons.
Qed.

Lemma run_getcmd bs (f : option (list Z) -> prog unit) h io :
  delivers (after 2 h) (bs ++ [10]) -> Forall (fun c => eol c = false /\ c <> 0) bs ->
  Z.of_nat (length bs) + 1 < SHBUF ->
  run (getcmd ≫= f) h (std io) =
  says (Some (s_err io)) (bytes "$ ") (run (f (Some (bs ++ [10]))) (after (S (length bs) + 2) h) (std io)).
Proof.
  intros Hd Hn Hl. unfold getcmd. rewrite run_assoc, run_uprintf.
  assert (E : formatted (bytes "$ ") [] = bytes "$ ") by (vm_compute; reflexivity). rewrite E.
  change (fd_desc (std io) 2) with (Some (s_err io)). f_equal. cbv beta.
  change (length (bytes "$ ")) with 2%nat. rewrite run_assoc. unfold ugets.
  assert (Hb : Forall (fun c => eol c = false) bs) by (eapply Forall_impl; [exact Hn|naive_solver]).
  rewrite (run_gets _ [] bs SHBUF _ _ _ (s_in io)); [|done|done|done|lia|simpl; lia].
  cbn [app]. unfold after. rewrite app_assoc, <- replicate_add.
  assert (Hs : cstring (bs ++ [10]) = bs ++ [10]).
  { apply cstring_no_nul. apply Forall_app_2; [|by repeat constructor].
    eapply Forall_impl; [exact Hn|naive_solver]. }
  rewrite Hs. by destruct bs.
Qed.

(** A printed line is one line. *)
Lemma tok_bytes_line t : tok_ok t -> Forall (fun c => eol c = false /\ c <> 0) (tok_bytes t).
Proof.
  assert (Hsym : forall c, c ∈ symbols -> eol c = false /\ c <> 0).
  { intros c Hc. unfold symbols in Hc. set_unfold in Hc. unfold eol. lia. }
  destruct t as [c| |w]; simpl.
  - intros Hc. constructor; [auto|constructor].
  - intros _. repeat constructor; done.
  - intros [_ Hw]. eapply Forall_impl; [exact Hw|]. intros c [Hc H0]. split; [|done].
    apply word_char_symbol in Hc as [_ Hc]. unfold whitespace, eol in *. set_unfold in Hc. lia.
Qed.

Lemma print_line ts : ts <> [] -> Forall tok_ok ts ->
  exists bs, print ts = bs ++ [10] /\ Forall (fun c => eol c = false /\ c <> 0) bs.
Proof.
  intros Hne Hts. induction Hts as [|t ts Ht Hts IH]; [done|]. cbn [print].
  destruct ts as [|u ts]; [exists (tok_bytes t); split; [done|by apply tok_bytes_line]|].
  destruct IH as (bs & -> & Hbs); [done|]. exists (tok_bytes t ++ 32 :: bs). split.
  - by rewrite <- app_assoc.
  - apply Forall_app_2; [by apply tok_bytes_line|]. by constructor.
Qed.

(** The redirections of the grammar. *)
Lemma redirs_std_wrap c rs : redirs_std c -> redirs_std (wrap c (den_redir <$> rs)).
Proof.
  unfold wrap. revert c. induction rs as [|[[] w] rs IH]; intros c Hc; simpl; [done|..];
    apply IH; simpl; auto.
Qed.
Lemma redirs_std_backs n c : redirs_std c -> redirs_std (Nat.iter n Back c).
Proof. intros Hc. by induction n. Qed.
Lemma grammar_redirs :
  (forall l, redirs_std (den_line l)) /\ (forall p, redirs_std (den_pline p)) /\
  (forall s, redirs_std (den_simple s)).
Proof.
  apply grammar_ind; intros; cbn [den_line den_pline den_simple redirs_std];
    auto using redirs_std_wrap, redirs_std_backs.
  by apply redirs_std_wrap.
Qed.

(** The line is parsed and run. *)
Lemma run_parse l h io : wf_line l ->
  run (parse_run (print (toks_line l))) h (std io) = denote (den_line l) h io /\
  noret (parse_run (print (toks_line l))).
Proof.
  intros Hw. destruct (parse_print_run l Hw) as (c & b & ps & E & _ & Hc). unfold parse_run. rewrite E, Hc.
  split; [|apply runcmd_noret]. apply runcmd_run, grammar_redirs.
Qed.

(** C18. The shell does what the line says: when a line of the grammar is typed, a turn of the
    loop of main() prints the prompt, reads the line, and starts a process that becomes the
    processes of the command: each program with its arguments, its standard input and output
    from the redirections and pipes of the line, in the order of the lists, with the pipes of
    pipelines between neighbours; then the shell waits and takes its next turn. If a call of
    pipe(), fork(), open() or exec() fails, the message goes to the standard error output. *)
Theorem shell_turn f l h io :
  let buf := print (toks_line l) in
  let h' := after (length buf + 2) h in
  wf_line l -> toks_line l <> [] -> Z.of_nat (length buf) < SHBUF -> cd_path buf = None ->
  delivers (after 2 h) buf ->
  run (sh_loop (S f)) h (std io) =
  says (Some (s_err io)) (bytes "$ ")
    (if ok h' then
       Forks (denote (den_line l) (1%nat :: h') io)
         (Waits (std io) (run (sh_loop f) (0%nat :: 2%nat :: h') (std io)))
     else complains io (msg "%s") [Str (bytes "fork")]).
Proof.
  intros buf h' Hw Hne Hl Hcd Hd. destruct (run_parse l (1%nat :: h') io Hw) as [Hr Hn].
  destruct (print_line (toks_line l) Hne) as (bs & E & Hbs); [by apply wf_toks|].
  fold buf in E, Hr, Hn. assert (Hlen : length buf = S (length bs)) by (rewrite E, length_app; simpl; lia).
  cbn [sh_loop]. rewrite (run_getcmd bs); [|by rewrite <- E|done|lia].
  f_equal. rewrite <- E, <- Hlen. fold h'. cbv iota. rewrite Hcd.
  rewrite (run_fork1_std _ _ _ _ io) by done. by rewrite Hr.
Qed.

(** "cd" changes the directory of the shell itself. *)
Lemma shell_cd f path h io :
  let buf := bytes "cd " ++ path ++ [10] in
  let h' := after (length buf + 2) h in
  Forall (fun c => eol c = false /\ c <> 0) path -> Z.of_nat (length buf) < SHBUF ->
  delivers (after 2 h) buf ->
  run (sh_loop (S f)) h (std io) =
  says (Some (s_err io)) (bytes "$ ")
    (if ok h' then Moves path (run (sh_loop f) (0%nat :: h') (std io))
     else let m := formatted (msg "cannot cd %s") [Str path] in
       says (Some (s_err io)) m (run (sh_loop f) (after (length m) (0%nat :: h')) (std io))).
Proof.
  intros buf h' Hp Hl Hd. assert (E : buf = (bytes "cd " ++ path) ++ [10]) by (by rewrite <- app_assoc).
  assert (Hlen : length buf = S (length (bytes "cd " ++ path))) by (rewrite E, !length_app; simpl; lia).
  cbn [sh_loop]. rewrite (run_getcmd (bytes "cd " ++ path)); [|by rewrite <- E| |lia].
  2: { apply Forall_app_2; [|done]. vm_compute. repeat constructor; done. }
  f_equal. rewrite <- E, <- Hlen. fold h'. cbv iota.
  assert (Hc : cd_path buf = Some path).
  { unfold cd_path, buf. change (bytes "cd " ++ path ++ [10]) with (99 :: 100 :: 32 :: (path ++ [10])).
    f_equal. simpl length. rewrite length_app. simpl.
    replace (length path + 1 - 1)%nat with (length path) by lia. apply take_app_length. }
  rewrite Hc, run_call. cbn [run]. destruct (ok h'); [done|]. cbn [r_val failed].
  change (-1 <? 0) with true. cbv iota. apply run_uprintf.
Qed.
End Run.

(** *** A session *)

Definition all_ok (_ : hist) : bool := true.
Definition some_pid (_ : hist) : Z := 5.
Definition console : desc := FileD (bytes "console") O_RDWR.
Definition tty : stdio := mkStdio console console console.

(** The line "a | b", typed at the first prompt. *)
Definition pipe_line : ShPrint.line := LEnd (PBar (SArgs [[97]] []) (PEnd (SArgs [[98]] []))) 0.
Definition typed_line (h : hist) : list Z :=
  match print (toks_line pipe_line) !! (length h - 2)%nat with Some c => [c] | None => [] end.

Lemma shell_turn_witness :
  print (toks_line pipe_line) = [97; 32; 124; 32; 98; 10] /\
  run all_ok some_pid some_pid typed_line (sh_loop 2) [] (std tty) =
  says (Some console) (bytes "$ ")
    (Forks
       (Forks (Image [97] [[97]] (std (with_out (WriteEnd (1%nat :: after 8 [])) tty)))
          (Forks (Image [98] [[98]] (std (with_in (ReadEnd (1%nat :: after 8 [])) tty)))
             (Waits (std tty) (Waits (std tty) Ended))))
       (Waits (std tty)
          (run all_ok some_pid some_pid typed_line (sh_loop 1) (0%nat :: 2%nat :: after 8 []) (std tty)))).
Proof.
  split; [reflexivity|].
  apply (shell_turn all_ok some_pid some_pid typed_line (fun _ => eq_refl) 1 pipe_line [] tty).
  - assert (Hok : forall c, word_char c = true -> c <> 0 -> word_ok [c]).
    { intros c Hc H0. split; [done|]. by constructor. }
    repeat split; try (repeat constructor; fail); try (vm_compute; lia);
      constructor; try constructor; apply Hok; (reflexivity || lia).
  - done.
  - vm_compute. done.
  - reflexivity.
  - intros i c Hi. unfold typed_line, after. rewrite !length_app, !length_replicate. simpl length.
    replace (i + (2 + 0) - 2)%nat with i by lia. by rewrite Hi.
Defined.

Lemma pipe_ends_close_witness : exists tl tr tw,
  run all_ok some_pid some_pid typed_line (runcmd (Pipe (Exec [[97]]) (Exec [[98]]))) [] (std tty) =
    Forks tl (Forks tr tw) /\
  tables tl <> [] /\ tables tr <> [] /\
  (forall f, f ∈ tables tl ++ tables tr ++ tables tw -> exists io', f = std io') /\
  (forall f, f ∈ tables tl ++ tables tw -> Some (ReadEnd []) ∉ f) /\
  (forall f, f ∈ tables tr ++ tables tw -> Some (WriteEnd []) ∉ f).
Proof.
  destruct (pipe_ends_close all_ok some_pid some_pid typed_line (fun _ => eq_refl)
    (Exec [[97]]) (Exec [[98]]) [] tty) as (tl & tr & tw & E & H1 & H2 & H3); try done.
  - unfold io_descs. simpl. set_solver.
  - unfold io_descs. simpl. set_solver.
  - exists tl, tr, tw. split; [exact E|]. vm_compute in E. injection E as <- <- <-. by split_and!.
Defined.
