(* ===== verification/Assignment1.v ===== *)
(** assignment1.c: the command loop of the first assignment's shell, a program for Linux.

    [getcmd] and [main] are the loop; [push], [pop] and [parsecmd] are the parenthesis parser,
    which [main] does not call. A buffer of characters is the list of its bytes, standard input
    the list of the bytes still to come. What the program does is the list of its [event]s;
    chdir() is a parameter, a function of what was done before and of the directory. The stack
    of [parsecmd] holds pointers: each points to the one buffer [cmd], so that a command is
    looked up in [cmd] when it is popped, not when it was pushed. *)

From S2P Require Import Sh.

Open Scope Z_scope.

Module Assignment1.

Definition MAXARGS : Z := 10.
Definition NEWLINE : Z := 10.

Inductive event : Type :=
| Prompt                      (* fprintf(stdout, "$ ") *)
| Chdir (dir : list Z)
| CannotCd (dir : list Z)     (* fprintf(stderr, "cannot cd %s\n", dir) *)
| System (cmd : list Z)
| SystemNull                  (* system(0) *)
| Wait
| LimitReached                (* "MAXARGS limit reached" *)
| StackEmpty                  (* "Stack empty\n" *)
| Trace (s : list Z).         (* fprintf(stderr, "%s\n", s) *)

(** *** The command loop *)

(** fgets(): up to the end of the line, and no more than [n] characters; what is left. *)
Fixpoint fgets (n : nat) (input : list Z) : list Z * list Z :=
  match n, input with
  | S n', c :: rest =>
      if c =? NEWLINE then ([c], rest)
      else let '(l, r) := fgets n' rest in (c :: l, r)
  | _, _ => ([], input)
  end.

Definition byte (buf : list Z) (i : nat) : Z := default 0 (buf !! i).

(** The result, the buffer, what is left of the input, and what was done. *)
Definition getcmd (tty : bool) (nbuf : nat) (input : list Z) : Z * list Z * list Z * list event :=
  let out := if tty then [Prompt] else [] in
  let '(l, rest) := fgets (nbuf - 1) input in
  let buf := l ++ replicate (nbuf - length l) 0 in
  if byte buf 0 =? 0 then (-1, buf, rest, out) else (0, buf, rest, out).

Definition BUFLEN : nat := 100.

Definition is_cd (buf : list Z) : bool :=
  (byte buf 0 =? 99) && (byte buf 1 =? 100) && (byte buf 2 =? 32).

Section Main.
Context (tty : bool) (chdir : list event -> list Z -> Z).

(** [None] when the fuel is used up. *)
Fixpoint main_loop (fuel : nat) (input : list Z) (done : list event) : option (list event) :=
  match fuel with
  | O => None
  | S f =>
      let '(r, buf, rest, out) := getcmd tty BUFLEN input in
      let done := done ++ out in
      if 0 <=? r then
        if is_cd buf then
          let buf := <[(length (cstring buf) - 1)%nat := 0]> buf in
          let dir := cstring (drop 3 buf) in
          let done := done ++ [Chdir dir] in
          main_loop f rest (if chdir done dir <? 0 then done ++ [CannotCd dir] else done)
        else Some (done ++ [System (cstring buf); Wait])
      else Some done
  end.

Definition main (fuel : nat) (input : list Z) : option (list event) := main_loop fuel input [].
End Main.

(** *** The parenthesis parser *)

(** A pointer to the buffer [cmd] of [parsecmd]. *)
Inductive ptr : Type := PCmd.

Record cmdStack := mkStack { top : Z; cmd : list ptr }.

Definition push (s : cmdStack) (p : ptr) : cmdStack * list event :=
  if top s <? MAXARGS - 1 then
    (mkStack (top s + 1) (<[Z.to_nat (top s + 1) := p]> (cmd s)), [])
  else (s, [LimitReached]).

(** The stack is passed by value: popping leaves the caller's stack as it was. *)
Definition pop (s : cmdStack) : option ptr * list event :=
  if top s <? 0 then (None, [StackEmpty]) else (cmd s !! Z.to_nat (top s), []).

(** [sizeof(cmd)] in [parsecmd]; [strcat] past it is undefined: [None]. *)
Definition CMDLEN : nat := 100.

Fixpoint parse_loop (s : cmdStack) (cmdbuf : list Z) (tempCmd : list Z) (done : list event)
  : option (list event) :=
  match tempCmd with
  | [] => Some done
  | c :: rest =>
      if c =? 40 then
        let '(s, out) := push s PCmd in parse_loop s [] rest (done ++ out)
      else if c =? 41 then
        let '(p, out) := pop s in
        parse_loop s cmdbuf rest
          (done ++ out ++ [match p with Some PCmd => System cmdbuf | None => SystemNull end])
      else
        let done := done ++ [Trace cmdbuf; Trace tempCmd] in
        if Nat.ltb (length (cmdbuf ++ tempCmd)) CMDLEN
        then parse_loop s (cmdbuf ++ tempCmd) rest done
        else None
  end.

Definition parsecmd (buf : list Z) : option (list event) :=
  parse_loop (mkStack (-1) (replicate 10 PCmd)) [32] (cstring buf) [].

(** *** What the loop runs *)

Definition commands (tr : list event) : list (list Z) :=
  omap (fun e => match e with System c => Some c | _ => None end) tr.
Definition dirs (tr : list event) : list (list Z) :=
  omap (fun e => match e with Chdir d => Some d | _ => None end) tr.

(** A line of text that fits the buffer with its newline. *)
Definition text (l : list Z) : Prop :=
  Forall (fun c => c <> 0 /\ c <> NEWLINE) l /\ (length l < BUFLEN - 1)%nat.

Lemma fgets_line n l rest :
  Forall (fun c => c <> 0 /\ c <> NEWLINE) l -> (length l < n)%nat ->
  fgets n (l ++ NEWLINE :: rest) = (l ++ [NEWLINE], rest).
Proof.
  intros Hl. revert n. induction Hl as [|c l [_ Hc] _ IH]; intros [|n] Hn; simpl in *; try lia; [done|].
  rewrite (proj2 (Z.eqb_neq c NEWLINE)) by done. rewrite IH by lia. done.
Qed.

Lemma cstring_app l r : Forall (fun c => c <> 0 /\ c <> NEWLINE) l -> cstring (l ++ r) = l ++ cstring r.
Proof.
  intros Hl. unfold cstring. induction Hl as [|c l [Hc _] _ IH]; simpl; [done|].
  rewrite (proj2 (Z.eqb_neq c 0)) by done. simpl. by rewrite IH.
Qed.

Lemma byte_line l n i c : c <> NEWLINE -> c <> 0 ->
  (byte (l ++ NEWLINE :: replicate n 0) i =? c) = (byte l i =? c).
Proof.
  intros Hc H0. unfold byte. destruct (decide (i < length l)%nat).
  - by rewrite lookup_app_l.
  - rewrite lookup_app_r, (lookup_ge_None_2 l) by lia.
    rewrite (proj2 (Z.eqb_neq (default 0 None) c)) by (simpl; congruence). apply Z.eqb_neq.
    destruct (i - length l)%nat as [|j]; simpl; [congruence|].
    destruct (replicate n 0 !! j) eqn:E; simpl; [|congruence].
    apply lookup_replicate in E as [-> _]. congruence.
Qed.

(** getcmd() leaves the line, its newline and nulls in the buffer. *)
Lemma getcmd_line tty l rest : text l ->
  getcmd tty BUFLEN (l ++ NEWLINE :: rest) =
  (0, l ++ NEWLINE :: replicate (BUFLEN - S (length l)) 0, rest, if tty then [Prompt] else []).
Proof.
  intros [Hl Hn]. unfold getcmd. rewrite fgets_line by done. rewrite length_app, <- app_assoc. simpl length.
  rewrite Nat.add_1_r. change ([NEWLINE] ++ ?x) with (NEWLINE :: x).
  destruct Hl as [|c l [Hc _] Hl]; [done|]. simpl. unfold byte. simpl.
  by rewrite (proj2 (Z.eqb_neq c 0)).
Qed.

Lemma is_cd_line l n : is_cd (l ++ NEWLINE :: replicate n 0) = is_cd l.
Proof. unfold is_cd. by rewrite !byte_line by done. Qed.

Lemma cstring_line l n : Forall (fun c => c <> 0 /\ c <> NEWLINE) l ->
  cstring (l ++ NEWLINE :: replicate n 0) = l ++ [NEWLINE].
Proof. intros Hl. rewrite cstring_app by done. by destruct n. Qed.

(** The newline is cut off and the directory is the rest of the line. *)
Lemma cd_dir l n : Forall (fun c => c <> 0 /\ c <> NEWLINE) l -> (3 <= length l)%nat ->
  let buf := l ++ NEWLINE :: replicate n 0 in
  cstring (drop 3 (<[(length (cstring buf) - 1)%nat := 0]> buf)) = drop 3 l.
Proof.
  intros Hl Hn buf. subst buf. rewrite cstring_line, length_app by done.
  replace (length l + length [NEWLINE] - 1)%nat with (length l + 0)%nat by (simpl; lia).
  rewrite insert_app_r. simpl. rewrite drop_app_le by done.
  rewrite cstring_app by (by apply Forall_drop). unfold cstring. simpl. by rewrite app_nil_r.
Qed.

Lemma is_cd_length l : is_cd l = true -> (3 <= length l)%nat.
Proof.
  unfold is_cd, byte. destruct l as [|a [|b [|c l]]]; simpl; try lia;
    rewrite ?andb_false_r; try done; by rewrite andb_false_r.
Qed.

Lemma main_loop_cd tty chdir f l rest tr : text l -> is_cd l = true ->
  exists tr', main_loop tty chdir (S f) (l ++ NEWLINE :: rest) tr = main_loop tty chdir f rest tr' /\
    dirs tr' = dirs tr ++ [drop 3 l] /\ commands tr' = commands tr.
Proof.
  intros Ht Hc. cbn [main_loop]. rewrite getcmd_line by done. cbv zeta beta iota. simpl (0 <=? 0).
  cbv iota. rewrite is_cd_line, Hc. rewrite cd_dir by (apply Ht || by apply is_cd_length).
  eexists. split; [done|]. unfold dirs, commands.
  case_match; rewrite !omap_app; destruct tty; simpl; by rewrite ?app_nil_r.
Qed.

(** C40. The loop of the shell: for an input of lines that begin with "cd " followed by a line
    that does not, main() changes to the directory of each of the former, in order and with the
    newline cut off, then runs the latter with system(), and ends: whatever input follows is
    neither read nor run. *)
Theorem main_runs_one tty chdir cds l rest fuel :
  Forall (fun d => text d /\ is_cd d = true) cds -> text l -> is_cd l = false ->
  (length cds < fuel)%nat ->
  exists tr, main tty chdir fuel (concat ((fun d => d ++ [NEWLINE]) <$> cds) ++ l ++ NEWLINE :: rest) = Some tr /\
    dirs tr = drop 3 <$> cds /\ commands tr = [l ++ [NEWLINE]].
Proof.
  intros Hcds Hl Hc. unfold main.
  assert (H : forall tr f, (length cds < f)%nat -> exists tr',
    main_loop tty chdir f (concat ((fun d => d ++ [NEWLINE]) <$> cds) ++ l ++ NEWLINE :: rest) tr = Some tr' /\
    dirs tr' = dirs tr ++ (drop 3 <$> cds) /\ commands tr' = commands tr ++ [l ++ [NEWLINE]]);
    [|intros Hf; exact (H [] fuel Hf)].
  induction Hcds as [|d cds [Hd Hdc] _ IH]; intros tr [|f] Hf; simpl in Hf; try lia.
  - cbn [main_loop fmap list_fmap concat app]. rewrite getcmd_line by done. cbv zeta beta iota.
    simpl (0 <=? 0). cbv iota. rewrite is_cd_line, Hc. eexists. split; [done|].
    rewrite cstring_line by apply Hl. unfold dirs, commands. rewrite !omap_app.
    destruct tty; simpl; by rewrite ?app_nil_r.
  - rewrite fmap_cons. cbn [concat]. rewrite <- !app_assoc.
    change ([NEWLINE] ++ ?x) with (NEWLINE :: x).
    edestruct (main_loop_cd tty chdir f d) as (tr1 & E1 & Hd1 & Hc1); [done..|]. rewrite E1.
    destruct (IH tr1 f ltac:(lia)) as (tr2 & E & Hd2 & Hc2). exists tr2. split; [exact E|].
    rewrite Hd2, Hc2, Hd1, Hc1, <- app_assoc. done.
Qed.

(** "cd /", then "ls" and "pwd": the last is not run. *)
Lemma main_runs_one_witness : exists tr,
  main true (fun _ _ => 0) 3 [99; 100; 32; 47; 10; 108; 115; 10; 112; 119; 100; 10] = Some tr /\
  dirs tr = [[47]] /\ commands tr = [[108; 115; 10]].
Proof.
  assert (Ht : text [99; 100; 32; 47] /\ is_cd [99; 100; 32; 47] = true)
    by (split; [split; [repeat constructor; done|vm_compute; lia]|done]).
  assert (Hl : text [108; 115]) by (split; [repeat constructor; done|vm_compute; lia]).
  exact (main_runs_one true (fun _ _ => 0) [[99; 100; 32; 47]] [108; 115] [112; 119; 100; 10] 3
    (Forall_cons_2 _ _ _ Ht (Forall_nil_2 _)) Hl eq_refl ltac:(simpl; lia)).
Defined.

(** The parser runs the rest of the line, not the command between the parentheses: "(a)" gives
    the command "a)". *)
Lemma parsecmd_rest : commands (default [] (parsecmd [40; 97; 41; 0])) = [[97; 41]].
Proof. done. Qed.

(** Every command on the stack is the same buffer: in "(a(b))" the inner command is run twice. *)
Lemma parsecmd_aliased :
  commands (default [] (parsecmd [40; 97; 40; 98; 41; 41; 0])) = [[98; 41; 41]; [98; 41; 41]].
Proof. done. Qed.

End Assignment1.
