(* ===== verification/Console.v ===== *)
(** console.c: the screen, the echo and the line discipline.

    The input buffer is a ring of 128 characters with three counters: what lies between [r]
    and [w] can be read, what lies between [w] and [e] is the line that is still edited.
    consoleread() sleeps in the middle of a call, so a call is a sequence of critical
    sections; the calls that sleep are in [c_sleep], as a [reader] from which the next section
    continues. The lock of the device's inode, which consoleread() and consolewrite() release
    and take again, is not part of the state. *)

From S2P Require Export Locks.

Open Scope Z_scope.
Open Scope kernel_scope.

(** *** The screen *)

Definition BACKSPACE : Z := 256.

(** The CGA memory (25 rows of 80 cells), the cursor registers 14 and 15 of the controller,
    and the bytes sent to the serial port, when there is one. *)
Record screen := mkScreen {
  crt : list Z;
  reg14 : Z;
  reg15 : Z;
  has_uart : bool;
  uart : list Z;
  panicked : bool;
}.

Definition set_crt (v : list Z) (s : screen) : screen :=
  mkScreen v (reg14 s) (reg15 s) (has_uart s) (uart s) (panicked s).
Definition set_regs (hi lo : Z) (s : screen) : screen :=
  mkScreen (crt s) hi lo (has_uart s) (uart s) (panicked s).
Definition send (c : Z) (s : screen) : screen :=
  mkScreen (crt s) (reg14 s) (reg15 s) (has_uart s) (uart s ++ [u8 c]) (panicked s).

Definition uartputc (c : Z) : M screen unit :=
  h <- gets has_uart ;;
  if negb h then ret tt else modify (send c).

(** [crt[i] = v]; a store outside of the screen is a fault. *)
Definition crt_store (i v : Z) : M screen unit :=
  l <- gets crt ;;
  if (0 <=? i) && (i <? Z.of_nat (length l))
  then modify (set_crt (<[Z.to_nat i := u16 v]> l))
  else panic "crt".

(** memmove(crt, crt+80, sizeof(crt[0])*23*80) *)
Definition crt_up (l : list Z) : list Z := take (23 * 80) (drop 80 l) ++ drop (23 * 80) l.

(** memset(crt+pos, 0, sizeof(crt[0])*(24*80 - pos)) *)
Definition crt_clear (pos : Z) (l : list Z) : list Z :=
  take (Z.to_nat pos) l ++ replicate (Z.to_nat (24 * 80 - pos)) 0 ++ drop (24 * 80) l.

Definition cgaputc (c : Z) : M screen unit :=
  hi <- gets reg14 ;;
  lo <- gets reg15 ;;
  let pos := Z.lor (Z.shiftl hi 8) lo in
  pos <- (if c =? 10 then ret (pos + (80 - pos mod 80))
          else if c =? BACKSPACE then ret (if 0 <? pos then pos - 1 else pos)
          else crt_store pos (Z.lor (Z.land c 255) 1792) ;; ret (pos + 1)) ;;
  if (pos <? 0) || (25 * 80 <? pos) then panic "pos under/overflow"
  else
    pos <- (if 24 <=? pos / 80 then
              modify (fun s => set_crt (crt_clear (pos - 80) (crt_up (crt s))) s) ;; ret (pos - 80)
            else ret pos) ;;
    modify (set_regs (u8 (Z.shiftr pos 8)) (u8 pos)) ;;
    crt_store pos (Z.lor 32 1792).

Definition consputc (c : Z) : M screen unit :=
  p <- gets panicked ;;
  if p : bool then diverge
  else
    (if c =? BACKSPACE then uartputc 8 ;; uartputc 32 ;; uartputc 8 else uartputc c) ;;
    cgaputc c.

(** *** The input buffer *)

Definition INPUT_BUF : Z := 128.

(** A call of consoleread() that sleeps: the bytes it still wants, the bytes it wanted, those
    stored so far, and whether the process was woken up or killed. *)
Record reader := mkReader { rd_n : nat; rd_target : nat; rd_dst : list Z; rd_woken : bool; rd_killed : bool }.

Record cst := mkCst {
  c_lock : bool;
  c_buf : list Z;
  c_r : Z;
  c_w : Z;
  c_e : Z;
  c_scr : screen;
  c_sleep : list reader;
}.

Definition set_c_lock (v : bool) (s : cst) : cst :=
  mkCst v (c_buf s) (c_r s) (c_w s) (c_e s) (c_scr s) (c_sleep s).
Definition set_c_r (v : Z) (s : cst) : cst :=
  mkCst (c_lock s) (c_buf s) v (c_w s) (c_e s) (c_scr s) (c_sleep s).
Definition set_c_w (v : Z) (s : cst) : cst :=
  mkCst (c_lock s) (c_buf s) (c_r s) v (c_e s) (c_scr s) (c_sleep s).
Definition set_c_e (v : Z) (s : cst) : cst :=
  mkCst (c_lock s) (c_buf s) (c_r s) (c_w s) v (c_scr s) (c_sleep s).
Definition set_c_buf (v : list Z) (s : cst) : cst :=
  mkCst (c_lock s) v (c_r s) (c_w s) (c_e s) (c_scr s) (c_sleep s).
Definition set_c_scr (v : screen) (s : cst) : cst :=
  mkCst (c_lock s) (c_buf s) (c_r s) (c_w s) (c_e s) v (c_sleep s).
Definition set_c_sleep (v : list reader) (s : cst) : cst :=
  mkCst (c_lock s) (c_buf s) (c_r s) (c_w s) (c_e s) (c_scr s) v.

Definition cons_lock : lens cst bool := mkLens c_lock set_c_lock.
Definition cputc (c : Z) : M cst unit := lift c_scr set_c_scr (consputc c).

Definition wake (rd : reader) : reader :=
  mkReader (rd_n rd) (rd_target rd) (rd_dst rd) true (rd_killed rd).

(** wakeup(&input.r) *)
Definition wakeup_r : M cst unit := modify (fun s => set_c_sleep (wake <$> c_sleep s) s).

Definition buf_at (s : cst) (i : Z) : Z := c_buf s !!! Z.to_nat (i mod INPUT_BUF).

(** The loop of Control-U. *)
Fixpoint kill_line (fuel : nat) : M cst unit :=
  match fuel with
  | O => ret tt
  | S f =>
      s <- gets id ;;
      if negb (c_e s =? c_w s) && negb (buf_at s (u32 (c_e s - 1)) =? 10) then
        modify (set_c_e (u32 (c_e s - 1))) ;; cputc BACKSPACE ;; kill_line f
      else ret tt
  end.

(** The body of the loop of consoleintr(), for one character of getc(). The editing loop runs
    at most [e - w] times. Returns whether it was Control-P. *)
Definition intr_char (c : Z) : M cst bool :=
  if c =? 16 then ret true
  else if c =? 21 then
    s <- gets id ;; kill_line (Z.to_nat (u32 (c_e s - c_w s))) ;; ret false
  else if (c =? 8) || (c =? 127) then
    s <- gets id ;;
    when (negb (c_e s =? c_w s)) (modify (set_c_e (u32 (c_e s - 1))) ;; cputc BACKSPACE) ;;
    ret false
  else
    s <- gets id ;;
    when (negb (c =? 0) && (u32 (c_e s - c_r s) <? INPUT_BUF))
      (let c := if c =? 13 then 10 else c in
       modify (fun s => set_c_e (u32 (c_e s + 1))
         (set_c_buf (<[Z.to_nat (c_e s mod INPUT_BUF) := s8 c]> (c_buf s)) s)) ;;
       cputc c ;;
       s <- gets id ;;
       when ((c =? 10) || (c =? 4) || (c_e s =? u32 (c_r s + INPUT_BUF)))
         (modify (set_c_w (c_e s)) ;; wakeup_r)) ;;
    ret false.

(** The characters that getc() returns before a negative value. *)
Fixpoint intr_loop (cs : list Z) (doprocdump : bool) : M cst bool :=
  match cs with
  | [] => ret doprocdump
  | c :: cs' => p <- intr_char c ;; intr_loop cs' (doprocdump || p)
  end.

(** Returns whether procdump() is to be called. *)
Definition consoleintr (cs : list Z) : M cst bool :=
  acquire cons_lock ;;
  p <- intr_loop cs false ;;
  release cons_lock ;;
  ret p.

(** The outer loop of consoleread() for a process that wants [n] more bytes: the value and the
    bytes of the call, or the reader that sleeps. *)
Fixpoint consoleread_loop (killed : bool) (target n : nat) (dst : list Z) : M cst ((Z * list Z) + reader) :=
  match n with
  | O => release cons_lock ;; ret (inl (Z.of_nat target, dst))
  | S n' =>
      s <- gets id ;;
      if c_r s =? c_w s then
        if killed then release cons_lock ;; ret (inl (-1, dst))
        else release cons_lock ;; ret (inr (mkReader n target dst false false))
      else
        let c := buf_at s (c_r s) in
        modify (set_c_r (u32 (c_r s + 1))) ;;
        if c =? 4 then
          when (n <? target)%nat (modify (fun s => set_c_r (u32 (c_r s - 1)) s)) ;;
          release cons_lock ;;
          ret (inl (Z.of_nat target - Z.of_nat n, dst))
        else if c =? 10 then
          release cons_lock ;;
          ret (inl (Z.of_nat target - Z.of_nat n', dst ++ [u8 c]))
        else consoleread_loop killed target n' (dst ++ [u8 c])
  end.

(** A call that starts; the loop does not run for a negative [n], and [target - n] is 0. *)
Definition consoleread (n : Z) (killed : bool) : M cst ((Z * list Z) + reader) :=
  acquire cons_lock ;; consoleread_loop killed (Z.to_nat n) (Z.to_nat n) [].

(** A call that sleep() returns to. *)
Definition consoleread_resume (rd : reader) : M cst ((Z * list Z) + reader) :=
  acquire cons_lock ;; consoleread_loop (rd_killed rd) (rd_target rd) (rd_n rd) (rd_dst rd).

Fixpoint write_loop (bs : list Z) : M cst unit :=
  match bs with
  | [] => ret tt
  | b :: bs' => cputc (Z.land b 255) ;; write_loop bs'
  end.

(** The bytes are those at [buf]. *)
Definition consolewrite (bs : list Z) : M cst Z :=
  acquire cons_lock ;;
  write_loop bs ;;
  release cons_lock ;;
  ret (Z.of_nat (length bs)).

(** ** The console: the cursor stays on the screen, and the ring buffer with its three counters
    implements a queue of committed characters and a line that is edited. *)

(** *** The screen *)

Definition cursor (s : screen) : Z := Z.lor (Z.shiftl (reg14 s) 8) (reg15 s).

(** The CGA memory has 25 rows, of which the text uses 24; the cursor is on one of these. *)
Record screen_ok (s : screen) : Prop := {
  so_crt : length (crt s) = Z.to_nat (25 * 80);
  so_cursor : 0 <= cursor s < 24 * 80;
  so_panicked : panicked s = false;
}.

(** What consputc() sends to the serial port. *)
Definition echo (u : bool) (c : Z) : list Z :=
  if u then if c =? BACKSPACE then [8; 32; 8] else [u8 c] else [].

Lemma cursor_regs pos s :
  0 <= pos < 2 ^ 16 -> cursor (set_regs (u8 (Z.shiftr pos 8)) (u8 pos) s) = pos.
Proof.
  intros Hp. unfold cursor, set_regs, u8. simpl reg14. simpl reg15.
  apply Z.bits_inj'. intros i Hi. rewrite Z.lor_spec, <- !Z.land_ones, Z.land_spec, Z.testbit_ones by lia.
  rewrite Z.shiftl_spec by done. destruct (Z.ltb_spec i 8) as [H8|H8].
  - rewrite (Z.testbit_neg_r _ (i - 8)) by lia. rewrite (proj2 (Z.leb_le 0 i)) by lia.
    by rewrite andb_true_r.
  - rewrite Z.land_spec, Z.testbit_ones, Z.shiftr_spec by lia.
    replace (i - 8 + 8) with i by lia.
    rewrite (proj2 (Z.leb_le 0 (i - 8))), (proj2 (Z.leb_le 0 i)) by lia. cbn [andb].
    rewrite (andb_false_r (Z.testbit pos i)), orb_false_r.
    destruct (Z.ltb_spec (i - 8) 8); [by rewrite andb_true_r|].
    rewrite andb_false_r. symmetry. destruct (decide (pos = 0)) as [->|Hn]; [apply Z.bits_0|].
    apply Z.bits_above_log2; [lia|]. apply Z.log2_lt_pow2; [lia|].
    eapply Z.lt_le_trans; [apply Hp|]. apply Z.pow_le_mono_r; lia.
Qed.

Lemma wp_crt_store i v (Q : unit -> screen -> Prop) s :
  0 <= i < Z.of_nat (length (crt s)) -> Q tt (set_crt (<[Z.to_nat i := u16 v]> (crt s)) s) ->
  wp (crt_store i v) Q s.
Proof.
  intros Hi HQ. unfold crt_store. apply wp_bind, wp_gets.
  rewrite (proj2 (Z.leb_le 0 i)), (proj2 (Z.ltb_lt i _)) by lia. by apply wp_modify.
Qed.

Lemma length_crt_up l : length l = Z.to_nat (25 * 80) -> length (crt_up l) = Z.to_nat (25 * 80).
Proof. intros H. unfold crt_up. rewrite length_app, length_take, !length_drop. lia. Qed.

Lemma length_crt_clear pos l :
  0 <= pos < 24 * 80 -> length l = Z.to_nat (25 * 80) -> length (crt_clear pos l) = Z.to_nat (25 * 80).
Proof.
  intros Hp H. unfold crt_clear. rewrite !length_app, length_take, length_replicate, length_drop. lia.
Qed.

(** The second half of cgaputc(), from a position that is at most one row too far. *)
Lemma wp_cga_scroll pos s0 s (Q : unit -> screen -> Prop) :
  0 <= pos <= 24 * 80 -> length (crt s) = Z.to_nat (25 * 80) ->
  has_uart s = has_uart s0 -> uart s = uart s0 -> panicked s = panicked s0 ->
  (forall s', has_uart s' = has_uart s0 -> uart s' = uart s0 -> panicked s' = panicked s0 ->
     length (crt s') = Z.to_nat (25 * 80) -> 0 <= cursor s' < 24 * 80 -> Q tt s') ->
  wp (if (pos <? 0) || (25 * 80 <? pos) then panic "pos under/overflow"
      else
        (pos <- (if 24 <=? pos / 80 then
                   modify (fun s => set_crt (crt_clear (pos - 80) (crt_up (crt s))) s) ;; ret (pos - 80)
                 else ret pos) ;;
         modify (set_regs (u8 (Z.shiftr pos 8)) (u8 pos)) ;;
         crt_store pos (Z.lor 32 1792)))%kernel Q s.
Proof.
  intros Hp Hl Hh Hu Hpan HQ.
  assert (Hend : forall p s', 0 <= p < 24 * 80 -> length (crt s') = Z.to_nat (25 * 80) ->
    has_uart s' = has_uart s0 -> uart s' = uart s0 -> panicked s' = panicked s0 ->
    wp (modify (set_regs (u8 (Z.shiftr p 8)) (u8 p)) ;; crt_store p (Z.lor 32 1792))%kernel Q s').
  { intros p s' Hp' Hl' ? ? ?. apply wp_bind, wp_modify, wp_crt_store; [simpl; lia|].
    apply HQ; simpl; [done..|by rewrite length_insert|].
    change (0 <= cursor (set_regs (u8 (Z.shiftr p 8)) (u8 p) s') < 24 * 80). rewrite cursor_regs; lia. }
  rewrite (proj2 (Z.ltb_ge pos 0)), (proj2 (Z.ltb_ge _ pos)) by lia. simpl.
  apply wp_bind. destruct (Z.leb_spec 24 (pos / 80)) as [H24|H24].
  - pose proof (Z.mul_div_le pos 80 ltac:(lia)). apply wp_bind, wp_modify, wp_ret. apply Hend; simpl; auto; [lia|].
    apply length_crt_clear; [lia|]. by apply length_crt_up.
  - apply wp_ret. apply Hend; auto.
    pose proof (Z.div_mod pos 80 ltac:(lia)). pose proof (Z.mod_pos_bound pos 80 ltac:(lia)). lia.
Qed.

Lemma wp_cgaputc c s :
  screen_ok s ->
  wp (cgaputc c) (fun _ s' => screen_ok s' /\ has_uart s' = has_uart s /\ uart s' = uart s) s.
Proof.
  intros [Hl Hc Hp]. unfold cgaputc. apply wp_bind, wp_gets, wp_bind, wp_gets. fold (cursor s).
  apply wp_bind. pose proof (Z.mod_pos_bound (cursor s) 80 ltac:(lia)) as Hm.
  pose proof (Z.div_mod (cursor s) 80 ltac:(lia)) as Hd.
  assert (Hfin : forall s', has_uart s' = has_uart s -> uart s' = uart s -> panicked s' = panicked s ->
     length (crt s') = Z.to_nat (25 * 80) -> 0 <= cursor s' < 24 * 80 ->
     screen_ok s' /\ has_uart s' = has_uart s /\ uart s' = uart s).
  { intros s' ? ? Hp' ? ?. split_and!; [split; [done..|by rewrite Hp']|done..]. }
  destruct (c =? 10); [|destruct (c =? BACKSPACE)].
  - apply wp_ret. apply (wp_cga_scroll _ s); auto; lia.
  - apply wp_ret. apply (wp_cga_scroll _ s); auto. destruct (0 <? cursor s) eqn:E; lia.
  - apply wp_bind, wp_crt_store; [lia|]. apply wp_ret.
    apply (wp_cga_scroll _ s); simpl; auto; [lia|by rewrite length_insert].
Qed.

Definition sent (c : Z) (s : screen) : screen := if has_uart s then send c s else s.

Lemma sent_crt c s : crt (sent c s) = crt s.
Proof. unfold sent. by destruct (has_uart s). Qed.
Lemma sent_reg14 c s : reg14 (sent c s) = reg14 s.
Proof. unfold sent. by destruct (has_uart s). Qed.
Lemma sent_reg15 c s : reg15 (sent c s) = reg15 s.
Proof. unfold sent. by destruct (has_uart s). Qed.
Lemma sent_panicked c s : panicked (sent c s) = panicked s.
Proof. unfold sent. by destruct (has_uart s). Qed.
Lemma sent_has_uart c s : has_uart (sent c s) = has_uart s.
Proof. unfold sent. destruct (has_uart s) eqn:E; [simpl|]; done. Qed.
Lemma sent_uart c s : uart (sent c s) = uart s ++ if has_uart s then [u8 c] else [].
Proof. unfold sent. destruct (has_uart s); [done|]. by rewrite app_nil_r. Qed.

Lemma wp_uartputc c (Q : unit -> screen -> Prop) s : Q tt (sent c s) -> wp (uartputc c) Q s.
Proof. unfold uartputc, sent. intros HQ. apply wp_bind, wp_gets. by destruct (has_uart s). Qed.

(** Every character is put on the screen, whatever the cursor: no panic, no store outside of
    the CGA memory. *)
Lemma wp_consputc c s :
  screen_ok s ->
  wp (consputc c) (fun _ s' => screen_ok s' /\ has_uart s' = has_uart s /\
                               uart s' = uart s ++ echo (has_uart s) c) s.
Proof.
  intros Hok. unfold consputc. apply wp_bind, wp_gets. rewrite (so_panicked s Hok). apply wp_bind.
  assert (Hput : forall s1, crt s1 = crt s -> reg14 s1 = reg14 s -> reg15 s1 = reg15 s ->
    panicked s1 = panicked s -> has_uart s1 = has_uart s -> uart s1 = uart s ++ echo (has_uart s) c ->
    wp (cgaputc c) (fun _ s' => screen_ok s' /\ has_uart s' = has_uart s /\
                               uart s' = uart s ++ echo (has_uart s) c) s1).
  { intros s1 Hc H14 H15 Hp Hh Hu. rewrite <- Hu, <- Hh. apply wp_cgaputc.
    destruct Hok as [Hl Hcur Hpan]. unfold cursor in *. split; unfold cursor; congruence. }
  destruct (c =? BACKSPACE) eqn:Ec.
  - apply wp_bind, wp_uartputc, wp_bind, wp_uartputc, wp_uartputc.
    apply Hput; rewrite ?sent_crt, ?sent_reg14, ?sent_reg15, ?sent_panicked, ?sent_has_uart, ?sent_uart;
      [done..|]. rewrite ?sent_has_uart. unfold echo. rewrite Ec.
    by destruct (has_uart s); rewrite <- ?app_assoc, ?app_nil_r.
  - apply wp_uartputc, Hput; [apply sent_crt|apply sent_reg14|apply sent_reg15|apply sent_panicked|
      apply sent_has_uart|]. unfold echo. rewrite Ec. apply sent_uart.
Qed.

(** *** The ring buffer *)

(** The characters between [r] and [w] are [ready], those between [w] and [e] are [edit]. *)
Record ring (s : cst) (ready edit : list Z) : Prop := {
  rg_buf : length (c_buf s) = Z.to_nat INPUT_BUF;
  rg_r : is_u32 (c_r s);
  rg_w : c_w s = u32 (c_r s + Z.of_nat (length ready));
  rg_e : c_e s = u32 (c_r s + Z.of_nat (length ready + length edit));
  rg_len : Z.of_nat (length ready + length edit) <= INPUT_BUF;
  rg_chars : forall k x, (ready ++ edit) !! k = Some x -> buf_at s (c_r s + Z.of_nat k) = x;
}.

(** INPUT_BUF divides 2^32, so the wrap-around of the counters does not move the slots. *)
Lemma u32_input x : u32 x mod INPUT_BUF = x mod INPUT_BUF.
Proof.
  unfold u32, INPUT_BUF. change (2 ^ 32) with (128 * 2 ^ 25). rewrite Z.rem_mul_r by lia.
  rewrite (Z.mul_comm 128), Z.mod_add by lia. apply Z.mod_mod. lia.
Qed.

Lemma buf_at_u32 s x : buf_at s (u32 x) = buf_at s x.
Proof. unfold buf_at. by rewrite u32_input. Qed.

Lemma u32_add_sub r k : u32 (u32 (r + k) - r) = u32 k.
Proof. unfold u32. rewrite Zminus_mod_idemp_l. f_equal. lia. Qed.

Lemma u32_add_l x y : u32 (u32 x + y) = u32 (x + y).
Proof. unfold u32. apply Zplus_mod_idemp_l. Qed.

Lemma u32_sub_l x y : u32 (u32 x - y) = u32 (x - y).
Proof. unfold u32. apply Zminus_mod_idemp_l. Qed.

Lemma u32_eq_add r i j : 0 <= i < 2 ^ 32 -> 0 <= j < 2 ^ 32 -> u32 (r + i) = u32 (r + j) -> i = j.
Proof.
  intros Hi Hj H. pose proof (u32_add_sub r i) as H1. pose proof (u32_add_sub r j) as H2.
  rewrite H in H1. rewrite H1 in H2. unfold u32 in H2. rewrite !Z.mod_small in H2; lia.
Qed.

Lemma u32_id r : is_u32 r -> u32 (r + 0) = r.
Proof. intros H. rewrite Z.add_0_r. by apply Z.mod_small. Qed.

Section Ring.
Context (s : cst) (ready edit : list Z) (Hr : ring s ready edit).

Lemma ring_used : u32 (c_e s - c_r s) = Z.of_nat (length ready + length edit).
Proof.
  destruct Hr. rewrite rg_e0, u32_add_sub. apply Z.mod_small. unfold INPUT_BUF in *. lia.
Qed.

Lemma ring_editing : u32 (c_e s - c_w s) = Z.of_nat (length edit).
Proof.
  destruct Hr. rewrite rg_e0, rg_w0, Nat2Z.inj_add, Z.add_assoc.
  unfold u32. rewrite Zminus_mod_idemp_l, Zminus_mod_idemp_r.
  replace (_ - _) with (Z.of_nat (length edit)) by lia. apply Z.mod_small. unfold INPUT_BUF in *. lia.
Qed.

Lemma ring_no_edit : (c_e s =? c_w s) = bool_decide (edit = []).
Proof.
  destruct Hr. unfold INPUT_BUF in *. rewrite rg_e0, rg_w0. case_bool_decide as He.
  - subst. rewrite Nat.add_0_r. apply Z.eqb_refl.
  - apply Z.eqb_neq. intros E. apply u32_eq_add in E; [|lia|lia]. destruct edit; simpl in *; [done|lia].
Qed.

Lemma ring_no_ready : (c_r s =? c_w s) = bool_decide (ready = []).
Proof.
  destruct Hr. unfold INPUT_BUF in *. rewrite rg_w0. case_bool_decide as He.
  - subst. rewrite u32_id by done. apply Z.eqb_refl.
  - apply Z.eqb_neq. intros E. rewrite <- (u32_id (c_r s)) in E at 1 by done.
    apply u32_eq_add in E; [|lia|lia]. destruct ready; simpl in *; [done|lia].
Qed.

Lemma ring_full : (c_e s =? u32 (c_r s + INPUT_BUF)) = (Z.of_nat (length ready + length edit) =? INPUT_BUF).
Proof.
  destruct Hr. unfold INPUT_BUF in *. rewrite rg_e0. destruct (Z.eqb_spec (Z.of_nat (length ready + length edit)) 128) as [E|E].
  - rewrite E. apply Z.eqb_refl.
  - apply Z.eqb_neq. intros E'. apply u32_eq_add in E'; lia.
Qed.

Lemma ring_last x edit' : edit = edit' ++ [x] -> buf_at s (u32 (c_e s - 1)) = x.
Proof.
  intros He. destruct Hr as [_ _ _ Ee _ Hc]. rewrite Ee, u32_sub_l, buf_at_u32.
  replace (_ - 1) with (c_r s + Z.of_nat (length ready + length edit'))
    by (rewrite He, length_app; simpl; lia).
  apply Hc. rewrite He, app_assoc, lookup_app_r by (rewrite length_app; lia).
  rewrite length_app, Nat.sub_diag. done.
Qed.

(** *** Its operations *)

Lemma ring_push c :
  Z.of_nat (length ready + length edit) < INPUT_BUF ->
  ring (set_c_e (u32 (c_e s + 1)) (set_c_buf (<[Z.to_nat (c_e s mod INPUT_BUF) := c]> (c_buf s)) s))
    ready (edit ++ [c]).
Proof.
  intros Hlt. destruct Hr as [Hb Hr' Hw He Hl Hc]. unfold INPUT_BUF in *.
  assert (Hbound : (Z.to_nat (c_e s mod 128) < length (c_buf s))%nat).
  { pose proof (Z.mod_pos_bound (c_e s) 128). lia. }
  split; simpl; rewrite ?length_insert, ?length_app; simpl; auto; [|unfold INPUT_BUF; lia|].
  - rewrite He, u32_add_l. f_equal. lia.
  - intros k x Hk. unfold buf_at in *. simpl. unfold INPUT_BUF in *.
    rewrite app_assoc in Hk. apply lookup_app_Some in Hk as [Hk|[Hk1 Hk2]].
    + apply lookup_lt_Some in Hk as Hlk. rewrite length_app in Hlk.
      rewrite list_lookup_total_insert_ne; [by apply Hc|]. fold INPUT_BUF. rewrite He, u32_input.
      unfold INPUT_BUF. intros E. apply Z2Nat.inj in E; [|apply Z.mod_pos_bound; lia..].
      pose proof (Z.div_mod (c_r s + Z.of_nat k) 128 ltac:(lia)).
      pose proof (Z.div_mod (c_r s + Z.of_nat (length ready + length edit)) 128 ltac:(lia)). lia.
    + apply list_lookup_singleton_Some in Hk2 as [Hk0 <-]. rewrite length_app in *.
      replace k with (length ready + length edit)%nat by lia. fold INPUT_BUF.
      rewrite <- (u32_input (_ + _)), <- He. by apply list_lookup_total_insert_eq.
Qed.

Lemma ring_commit : ring (set_c_w (c_e s) s) (ready ++ edit) [].
Proof.
  destruct Hr as [Hb Hr' Hw He Hl Hc]. split; simpl; rewrite ?length_app, ?Nat.add_0_r, ?app_nil_r; auto.
Qed.

Lemma ring_rubout x edit' : edit = edit' ++ [x] -> ring (set_c_e (u32 (c_e s - 1)) s) ready edit'.
Proof.
  intros Hx. destruct Hr as [Hb Hr' Hw He Hl Hc]. rewrite Hx, length_app in *. simpl in *.
  split; simpl; auto; [|lia|].
  - rewrite He, u32_sub_l. f_equal. lia.
  - intros k y Hk. apply Hc. rewrite app_assoc. by apply lookup_app_l_Some.
Qed.

Lemma ring_read x ready' : ready = x :: ready' ->
  buf_at s (c_r s) = x /\ ring (set_c_r (u32 (c_r s + 1)) s) ready' edit.
Proof.
  intros Hx. destruct Hr as [Hb Hr' Hw He Hl Hc]. rewrite Hx in *. simpl in *. split.
  - rewrite <- (Hc 0%nat x) by done. f_equal. lia.
  - split; simpl; auto; [apply Z.mod_pos_bound; lia| | |lia|].
    + rewrite Hw, u32_add_l. f_equal. lia.
    + rewrite He, u32_add_l. f_equal. lia.
    + intros k y Hk. rewrite <- (Hc (S k) y) by done. unfold buf_at. simpl.
      rewrite <- (u32_input (_ + _)), u32_add_l, u32_input. do 3 f_equal. lia.
Qed.
End Ring.
