(* ===== verification/ConsoleRefine.v ===== *)
(** The console as a line discipline: what the processes and the user of the terminal see of
    console.c is a queue of committed characters and an edited line. *)

From S2P Require Export Console.

Open Scope Z_scope.

(** *** What happens at the console *)

(** An interrupt with the characters of getc(), a call of consoleread() by a process that was
    killed or not, the next section of a call that sleeps, a kill() of a process that sleeps,
    and a call of consolewrite(). *)
Inductive event :=
| Typed (cs : list Z)
| Read (n : Z) (killed : bool)
| Resume (i : nat)
| Kill (i : nat)
| Write (bs : list Z).

(** A process is sent characters by getc() as bytes. *)
Definition event_ok (ev : event) : Prop :=
  match ev with Typed cs => Forall is_byte cs | _ => True end.

Definition kill_reader (rd : reader) : reader := mkReader (rd_n rd) (rd_target rd) (rd_dst rd) true true.

(** *** The program *)

(** The console, the values and bytes of the calls that returned, and the calls of procdump(). *)
Record csys := mkCsys { sy_c : cst; sy_done : list (Z * list Z); sy_dumps : nat }.

Definition set_sy_c (c : cst) (s : csys) : csys := mkCsys c (sy_done s) (sy_dumps s).
Definition on_c {A} (m : M cst A) : M csys A := lift sy_c set_sy_c m.

Open Scope kernel_scope.

(** A section of consoleread() that ends. *)
Definition section_end (r : (Z * list Z) + reader) (s : csys) : csys :=
  match r with
  | inl v => mkCsys (sy_c s) (sy_done s ++ [v]) (sy_dumps s)
  | inr rd => mkCsys (set_c_sleep (c_sleep (sy_c s) ++ [rd]) (sy_c s)) (sy_done s) (sy_dumps s)
  end.

Definition cstep (ev : event) : M csys unit :=
  match ev with
  | Typed cs =>
      p <- on_c (consoleintr cs) ;;
      modify (fun s => mkCsys (sy_c s) (sy_done s) (sy_dumps s + if (p : bool) then 1 else 0)%nat)
  | Read n killed => r <- on_c (consoleread n killed) ;; modify (section_end r)
  | Resume i =>
      l <- gets (fun s => c_sleep (sy_c s)) ;;
      match l !! i with
      | Some rd =>
          when (rd_woken rd)
            (on_c (modify (set_c_sleep (remove_nth i l))) ;;
             r <- on_c (consoleread_resume rd) ;; modify (section_end r))
      | None => ret tt
      end
  | Kill i => on_c (modify (fun s => set_c_sleep (alter kill_reader i (c_sleep s)) s))
  | Write bs => on_c (consolewrite bs) ;; ret tt
  end.

Fixpoint crun (evs : list event) : M csys unit :=
  match evs with
  | [] => ret tt
  | ev :: evs' => cstep ev ;; crun evs'
  end.

(** *** The line discipline *)

Record line := mkLine {
  a_ready : list Z;
  a_edit : list Z;
  a_shown : list Z;
  a_sleep : list reader;
}.

Definition room (a : line) : bool := Z.of_nat (length (a_ready a) + length (a_edit a)) <? INPUT_BUF.

(** A character is stored and shown; the line is handed over at its end, or when there is no
    room for more. *)
Definition accept (u : bool) (c : Z) (a : line) : line :=
  let edit := a_edit a ++ [s8 c] in
  let shown := a_shown a ++ echo u c in
  if (c =? 10) || (c =? 4) || (Z.of_nat (length (a_ready a) + length edit) =? INPUT_BUF)
  then mkLine (a_ready a ++ edit) [] shown (wake <$> a_sleep a)
  else mkLine (a_ready a) edit shown (a_sleep a).

Definition achar (u : bool) (a : line) (c : Z) : line :=
  if c =? 16 then a
  else if c =? 21 then
    mkLine (a_ready a) [] (a_shown a ++ concat (replicate (length (a_edit a)) (echo u BACKSPACE))) (a_sleep a)
  else if (c =? 8) || (c =? 127) then
    match a_edit a with
    | [] => a
    | _ => mkLine (a_ready a) (removelast (a_edit a)) (a_shown a ++ echo u BACKSPACE) (a_sleep a)
    end
  else if negb (c =? 0) && room a then accept u (if c =? 13 then 10 else c) a
  else a.

(** A reader takes characters up to the end of a line; a Control-D after other characters is
    left for the next call. *)
Fixpoint aread (killed : bool) (target n : nat) (dst : list Z) (ready : list Z)
    : ((Z * list Z) + reader) * list Z :=
  match n with
  | O => (inl (Z.of_nat target, dst), ready)
  | S n' =>
      match ready with
      | [] => (if killed then inl (-1, dst) else inr (mkReader n target dst false false), [])
      | c :: rest =>
          if c =? 4 then
            (inl (Z.of_nat target - Z.of_nat n, dst), if (n <? target)%nat then ready else rest)
          else if c =? 10 then (inl (Z.of_nat target - Z.of_nat n', dst ++ [u8 c]), rest)
          else aread killed target n' (dst ++ [u8 c]) rest
      end
  end.

Record asys := mkAsys { as_line : line; as_done : list (Z * list Z); as_dumps : nat }.

Definition set_ready (v : list Z) (a : line) : line := mkLine v (a_edit a) (a_shown a) (a_sleep a).
Definition set_sleep (v : list reader) (a : line) : line := mkLine (a_ready a) (a_edit a) (a_shown a) v.
Definition show (bs : list Z) (a : line) : line := mkLine (a_ready a) (a_edit a) (a_shown a ++ bs) (a_sleep a).

Definition asection (rd : reader) (a : asys) : asys :=
  let '(r, ready) := aread (rd_killed rd) (rd_target rd) (rd_n rd) (rd_dst rd) (a_ready (as_line a)) in
  let l := set_ready ready (as_line a) in
  match r with
  | inl v => mkAsys l (as_done a ++ [v]) (as_dumps a)
  | inr rd' => mkAsys (set_sleep (a_sleep l ++ [rd']) l) (as_done a) (as_dumps a)
  end.

Definition astep (u : bool) (a : asys) (ev : event) : asys :=
  match ev with
  | Typed cs =>
      mkAsys (foldl (achar u) (as_line a) cs) (as_done a)
        (as_dumps a + if existsb (Z.eqb 16) cs then 1 else 0)%nat
  | Read n killed => asection (mkReader (Z.to_nat n) (Z.to_nat n) [] false killed) a
  | Resume i =>
      match a_sleep (as_line a) !! i with
      | Some rd =>
          if rd_woken rd then
            asection rd (mkAsys (set_sleep (remove_nth i (a_sleep (as_line a))) (as_line a)) (as_done a) (as_dumps a))
          else a
      | None => a
      end
  | Kill i =>
      mkAsys (set_sleep (alter kill_reader i (a_sleep (as_line a))) (as_line a)) (as_done a) (as_dumps a)
  | Write bs => mkAsys (show (concat (map (fun b => echo u (Z.land b 255)) bs)) (as_line a)) (as_done a) (as_dumps a)
  end.

Definition arun (u : bool) (evs : list event) (a : asys) : asys := foldl (astep u) a evs.

(** *** The relation *)

Record rel_c (lk u : bool) (s : cst) (a : line) : Prop := {
  rl_lock : c_lock s = lk;
  rl_screen : screen_ok (c_scr s);
  rl_has : has_uart (c_scr s) = u;
  rl_uart : uart (c_scr s) = a_shown a;
  rl_ring : ring s (a_ready a) (a_edit a);
  rl_sleep : c_sleep s = a_sleep a;
  rl_edit : Forall (fun c => c <> 10) (a_edit a);
}.

Record rel (u : bool) (s : csys) (a : asys) : Prop := {
  rs_line : rel_c false u (sy_c s) (as_line a);
  rs_done : sy_done s = as_done a;
  rs_dumps : sy_dumps s = as_dumps a;
}.

Lemma ring_ext s s' ready edit :
  c_buf s' = c_buf s -> c_r s' = c_r s -> c_w s' = c_w s -> c_e s' = c_e s ->
  ring s ready edit -> ring s' ready edit.
Proof.
  intros Eb Er Ew Ee [Hb Hr Hw He Hl Hc]. split; rewrite ?Eb, ?Er, ?Ew, ?Ee; auto.
  intros k x Hk. unfold buf_at. rewrite Eb. by apply Hc.
Qed.

Lemma wp_cputc_screen c (Q : unit -> cst -> Prop) s :
  screen_ok (c_scr s) ->
  (forall scr, screen_ok scr -> has_uart scr = has_uart (c_scr s) ->
     uart scr = uart (c_scr s) ++ echo (has_uart (c_scr s)) c -> Q tt (set_c_scr scr s)) ->
  wp (cputc c) Q s.
Proof.
  intros Hs HQ. pose proof (wp_consputc c _ Hs) as H.
  unfold cputc, lift, wp in *. destruct (consputc c (c_scr s)) as [[] scr| | |]; try done.
  destruct H as (Hok & Hhas & Hua). by apply HQ.
Qed.

Lemma wp_cputc lk u c (Q : unit -> cst -> Prop) s a :
  rel_c lk u s a ->
  (forall s', rel_c lk u s' (show (echo u c) a) -> Q tt s') ->
  wp (cputc c) Q s.
Proof.
  intros [Hl Hs Hh Hu Hr Hsl He] HQ. apply wp_cputc_screen; [done|].
  intros scr Hok Hhas Hua. apply HQ. split; simpl; auto.
  - by rewrite Hhas.
  - by rewrite Hua, Hu, Hh.
  - by apply (ring_ext s).
Qed.

Lemma rel_set_lock lk lk' u s a : rel_c lk u s a -> rel_c lk' u (set_c_lock lk' s) a.
Proof. intros []. split; simpl; auto. by apply (ring_ext s). Qed.

(** *** Interrupts *)

Lemma rel_rubout lk u x edit s a :
  rel_c lk u s a -> a_edit a = edit ++ [x] ->
  rel_c lk u (set_c_e (u32 (c_e s - 1)) s) (mkLine (a_ready a) edit (a_shown a) (a_sleep a)).
Proof.
  intros [Hl Hs Hh Hu Hr Hsl He] Hx. split; simpl; auto.
  - eapply ring_rubout; [exact Hr|exact Hx].
  - rewrite Hx in He. by apply Forall_app in He as [He _].
Qed.

Lemma rel_no_edit lk u s a : rel_c lk u s a -> (c_e s =? c_w s) = bool_decide (a_edit a = []).
Proof. intros H. eapply ring_no_edit, (rl_ring _ _ _ _ H). Qed.

Lemma edit_last lk u s a :
  rel_c lk u s a -> a_edit a <> [] ->
  exists edit x, a_edit a = edit ++ [x] /\ x <> 10 /\ buf_at s (u32 (c_e s - 1)) = x.
Proof.
  intros Hrel Hne. destruct (exists_last Hne) as (edit & x & Hx). exists edit, x. split; [done|].
  split; [|by eapply ring_last; [apply (rl_ring _ _ _ _ Hrel)|exact Hx]].
  pose proof (rl_edit _ _ _ _ Hrel) as He. rewrite Hx in He. apply Forall_app in He as [_ He].
  apply Forall_inv in He. exact He.
Qed.

Lemma wp_kill_line lk u n (Q : unit -> cst -> Prop) s a :
  n = length (a_edit a) -> rel_c lk u s a ->
  (forall s', rel_c lk u s' (achar u a 21) -> Q tt s') ->
  wp (kill_line n) Q s.
Proof.
  revert s a. induction n as [|n IH]; intros s a En Hrel HQ.
  - apply HQ. unfold achar. simpl. rewrite <- En. simpl. rewrite app_nil_r.
    destruct a as [? [|] ? ?]; done.
  - assert (Hne : a_edit a <> []) by by destruct (a_edit a).
    destruct (edit_last _ _ _ _ Hrel Hne) as (edit & x & Hx & H10 & Hb).
    cbn [kill_line]. apply wp_bind, wp_gets. unfold id.
    rewrite (rel_no_edit _ _ _ _ Hrel), bool_decide_eq_false_2, Hb, (proj2 (Z.eqb_neq x 10)) by done.
    cbn [negb andb]. apply wp_bind, wp_modify, wp_bind.
    eapply wp_cputc; [by eapply rel_rubout|]. intros s' Hs'.
    eapply IH; [|exact Hs'|]; [simpl; rewrite Hx, length_app in En; simpl in En; lia|].
    intros s'' Hs''. apply HQ. revert Hs''. unfold achar. simpl. rewrite Hx, length_app, Nat.add_1_r. simpl.
    by rewrite app_assoc.
Qed.

Lemma s8_eq c d : is_byte c -> 0 <= d < 128 -> s8 c = d -> c = d.
Proof.
  unfold s8, u8, is_byte. intros Hc Hd. rewrite Z.mod_small by lia. destruct (Z.ltb_spec c (2 ^ 7)); lia.
Qed.

(** The default case, for a character that is stored. *)
Lemma wp_accept lk u c (Q : unit -> cst -> Prop) s a :
  is_byte c -> rel_c lk u s a -> room a = true ->
  (forall s', rel_c lk u s' (accept u c a) -> Q tt s') ->
  wp (modify (fun s => set_c_e (u32 (c_e s + 1))
         (set_c_buf (<[Z.to_nat (c_e s mod INPUT_BUF) := s8 c]> (c_buf s)) s)) ;;
      cputc c ;;
      s <- gets id ;;
      when ((c =? 10) || (c =? 4) || (c_e s =? u32 (c_r s + INPUT_BUF)))
        (modify (set_c_w (c_e s)) ;; wakeup_r)) Q s.
Proof.
  intros Hc [Hl Hs Hh Hu Hr Hsl He] Hroom HQ. unfold room in Hroom. apply Z.ltb_lt in Hroom.
  pose proof (ring_push _ _ _ Hr (s8 c) Hroom) as Hpush.
  apply wp_bind, wp_modify, wp_bind, wp_cputc_screen; [done|]. intros scr Hok Hhas Hua.
  apply wp_bind, wp_gets. unfold id.
  set (s1 := set_c_scr _ _). assert (Hr1 : ring s1 (a_ready a) (a_edit a ++ [s8 c])).
  { revert Hpush. by apply ring_ext. }
  rewrite (ring_full _ _ _ Hr1). unfold accept in HQ.
  assert (Hu1 : has_uart scr = u /\ uart scr = a_shown a ++ echo u c).
  { simpl in Hhas, Hua. by rewrite Hhas, Hua, Hh, Hu. }
  destruct Hu1 as [Hu1 Hu2]. destruct (_ || _) eqn:Eend.
  - apply wp_bind, wp_modify, wp_modify, HQ. split; simpl; auto.
    + eapply (ring_ext (set_c_w (c_e s1) s1)); [done..|]. by apply ring_commit.
    + by rewrite Hsl.
  - apply wp_ret, HQ. split; simpl; auto. apply Forall_app. split; [done|].
    apply Forall_singleton. intros H10. apply s8_eq in H10; [|done|lia]. by subst c.
Qed.

Lemma wp_intr_char lk u c (Q : bool -> cst -> Prop) s a :
  is_byte c -> rel_c lk u s a ->
  (forall s', rel_c lk u s' (achar u a c) -> Q (16 =? c) s') ->
  wp (intr_char c) Q s.
Proof.
  intros Hc Hrel HQ. unfold intr_char. unfold achar in HQ. rewrite (Z.eqb_sym 16) in HQ.
  destruct (Z.eqb_spec c 16) as [->|H16]; [by apply wp_ret, HQ|].
  destruct (Z.eqb_spec c 21) as [->|H21].
  { apply wp_bind, wp_gets, wp_bind. unfold id. eapply wp_kill_line; [|exact Hrel|].
    - by rewrite (ring_editing _ _ _ (rl_ring _ _ _ _ Hrel)), Nat2Z.id.
    - intros s' Hs'. by apply wp_ret, HQ. }
  destruct ((c =? 8) || (c =? 127)).
  { apply wp_bind, wp_gets, wp_bind. unfold id. rewrite (rel_no_edit _ _ _ _ Hrel).
    case_bool_decide as He; cbn [negb when].
    - apply wp_ret, wp_ret, HQ. by rewrite He.
    - destruct (edit_last _ _ _ _ Hrel He) as (edit & x & Hx & _). apply wp_bind, wp_modify.
      eapply wp_cputc; [by eapply rel_rubout|]. intros s' Hs'. apply wp_ret, HQ. revert Hs'.
      rewrite Hx, removelast_last. by destruct edit. }
  apply wp_bind, wp_gets, wp_bind. unfold id. rewrite (ring_used _ _ _ (rl_ring _ _ _ _ Hrel)).
  fold (room a). destruct (c =? 0); [by apply wp_ret, wp_ret, HQ|]. cbn [negb andb] in *.
  destruct (room a) eqn:Er; cbn [when] in *; [|by apply wp_ret, wp_ret, HQ].
  assert (Hc' : is_byte (if c =? 13 then 10 else c)) by (destruct (c =? 13); unfold is_byte in *; lia).
  revert Hc' HQ. generalize (if c =? 13 then 10 else c) as c'. intros c' Hc' HQ.
  eapply wp_accept; [done..|]. intros s' Hs'. by apply wp_ret, HQ.
Qed.

Lemma wp_intr_loop lk u cs p (Q : bool -> cst -> Prop) s a :
  Forall is_byte cs -> rel_c lk u s a ->
  (forall s', rel_c lk u s' (foldl (achar u) a cs) -> Q (p || existsb (Z.eqb 16) cs) s') ->
  wp (intr_loop cs p) Q s.
Proof.
  intros Hcs. revert p s a. induction Hcs as [|c cs Hc _ IH]; intros p s a Hrel HQ; cbn [intr_loop].
  - apply wp_ret. rewrite orb_false_r in HQ. by apply HQ.
  - apply wp_bind. eapply wp_intr_char; [done..|]. intros s' Hs'. eapply IH; [done|].
    intros s'' Hs''. rewrite <- orb_assoc. by apply HQ.
Qed.

Lemma wp_consoleintr u cs s a :
  Forall is_byte cs -> rel_c false u s a ->
  wp (consoleintr cs) (fun p s' => p = existsb (Z.eqb 16) cs /\ rel_c false u s' (foldl (achar u) a cs)) s.
Proof.
  intros Hcs Hrel. unfold consoleintr. apply wp_bind, wp_acquire; [apply Hrel|]. apply wp_bind.
  eapply (wp_intr_loop true u); [done|eapply rel_set_lock, Hrel|]. intros s' Hs'.
  apply wp_bind, wp_release; [apply Hs'|]. apply wp_ret. split; [done|]. eapply rel_set_lock, Hs'.
Qed.

(** *** Readers and writers *)

Lemma wp_consoleread_loop u killed target n dst s a :
  rel_c true u s a ->
  wp (consoleread_loop killed target n dst)
    (fun r s' => exists ready, aread killed target n dst (a_ready a) = (r, ready) /\
       rel_c false u s' (set_ready ready a)) s.
Proof.
  assert (Hfin : forall s ready a, rel_c true u s (set_ready ready a) ->
    c_lock s = true /\ rel_c false u (set_c_lock false s) (set_ready ready a)).
  { intros s' ready a' H. split; [apply H|]. eapply rel_set_lock, H. }
  revert dst s a. induction n as [|n IH]; intros dst s a Hrel; cbn [consoleread_loop aread].
  - apply wp_bind, wp_release; [apply Hrel|]. apply wp_ret. eexists. split; [done|].
    apply Hfin. by destruct a.
  - apply wp_bind, wp_gets. unfold id. rewrite (ring_no_ready _ _ _ (rl_ring _ _ _ _ Hrel)).
    destruct (a_ready a) as [|c rest] eqn:Ea.
    + rewrite bool_decide_eq_true_2 by done.
      assert (Hs : rel_c true u s (set_ready [] a)) by (destruct a; simpl in *; by subst).
      destruct killed; (apply wp_bind, wp_release; [apply Hrel|]); apply wp_ret; eexists;
        (split; [done|by apply Hfin]).
    + rewrite bool_decide_eq_false_2 by done.
      destruct (ring_read _ _ _ (rl_ring _ _ _ _ Hrel) c rest Ea) as [-> Hread].
      assert (Hs : rel_c true u (set_c_r (u32 (c_r s + 1)) s) (set_ready rest a)).
      { destruct Hrel. by split. }
      apply wp_bind, wp_modify. destruct (c =? 4); [|destruct (c =? 10)].
      * assert (Hback : set_c_r (u32 (u32 (c_r s + 1) - 1)) (set_c_r (u32 (c_r s + 1)) s) = s).
        { rewrite u32_sub_l. replace (c_r s + 1 - 1) with (c_r s + 0) by lia.
          rewrite u32_id by apply (rl_ring _ _ _ _ Hrel). by destruct s. }
        apply wp_bind. destruct (S n <? target)%nat; cbn [when].
        -- apply wp_modify. cbn [c_r set_c_r] in *. rewrite Hback.
           apply wp_bind, wp_release; [apply Hrel|]. apply wp_ret. eexists. split; [done|].
           apply Hfin. destruct a; simpl in *. by subst.
        -- apply wp_ret, wp_bind, wp_release; [apply Hs|]. apply wp_ret. eexists. split; [done|by apply Hfin].
      * apply wp_bind, wp_release; [apply Hs|]. apply wp_ret. eexists. split; [done|by apply Hfin].
      * eapply wp_mono; [apply (IH _ _ _ Hs)|]. intros r s' (ready & Hr & Hs'). by exists ready.
Qed.

Lemma wp_write_loop lk u bs s a :
  rel_c lk u s a ->
  wp (write_loop bs)
    (fun _ s' => rel_c lk u s' (show (concat (map (fun b => echo u (Z.land b 255)) bs)) a)) s.
Proof.
  revert s a. induction bs as [|b bs IH]; intros s a Hrel; cbn [write_loop].
  - apply wp_ret. unfold show. simpl. rewrite app_nil_r. by destruct a.
  - apply wp_bind. eapply wp_cputc; [exact Hrel|]. intros s' Hs'.
    eapply wp_mono; [apply (IH _ _ Hs')|]. intros [] s''. unfold show. simpl. by rewrite app_assoc.
Qed.

(** *** The system *)

Lemma wp_on_c {A} (m : M cst A) (Q : A -> csys -> Prop) s :
  wp m (fun a c => Q a (set_sy_c c s)) (sy_c s) -> wp (on_c m) Q s.
Proof. unfold wp, on_c, lift. by destruct (m (sy_c s)). Qed.

Lemma rel_section u rd s a (m : M cst ((Z * list Z) + reader)) :
  rel u s a ->
  m = (acquire cons_lock ;; consoleread_loop (rd_killed rd) (rd_target rd) (rd_n rd) (rd_dst rd)) ->
  wp (r <- on_c m ;; modify (section_end r)) (fun _ s' => rel u s' (asection rd a)) s.
Proof.
  intros [Hrel Hd Hp] ->. apply wp_bind, wp_on_c, wp_bind, wp_acquire; [apply Hrel|].
  eapply wp_mono; [eapply wp_consoleread_loop, rel_set_lock, Hrel|].
  intros r c (ready & Hr & Hc). apply wp_modify. unfold asection. rewrite Hr.
  destruct r as [v|rd']; simpl; split; simpl; rewrite ?Hd; auto.
  destruct Hc as [Hl Hs Hh Hu Hring Hsl He]. split; simpl; auto.
  - by apply (ring_ext c).
  - by rewrite Hsl.
Qed.

Lemma rel_set_sleep u l s a :
  rel_c false u s a -> rel_c false u (set_c_sleep l s) (set_sleep l a).
Proof. intros []. split; simpl; auto. by apply (ring_ext s). Qed.

Lemma wp_cstep u ev s a :
  event_ok ev -> rel u s a -> wp (cstep ev) (fun _ s' => rel u s' (astep u a ev)) s.
Proof.
  intros Hev Hrel. pose proof Hrel as [Hl Hd Hp]. destruct ev as [cs|n k|i|i|bs]; cbn [cstep astep].
  - apply wp_bind, wp_on_c. eapply wp_mono; [by apply (wp_consoleintr u cs)|].
    intros p c [-> Hc]. apply wp_modify. split; simpl; auto.
  - by apply rel_section.
  - apply wp_bind, wp_gets. rewrite (rl_sleep _ _ _ _ Hl).
    destruct (a_sleep (as_line a) !! i) as [rd|]; [|by apply wp_ret].
    destruct (rd_woken rd); cbn [when]; [|by apply wp_ret].
    apply wp_bind, wp_on_c, wp_modify. apply rel_section; [|done]. split; simpl; auto.
    by apply rel_set_sleep.
  - apply wp_on_c, wp_modify. split; simpl; auto. rewrite (rl_sleep _ _ _ _ Hl). by apply rel_set_sleep.
  - apply wp_bind, wp_on_c. unfold consolewrite. apply wp_bind, wp_acquire; [apply Hl|]. apply wp_bind.
    eapply wp_mono; [eapply wp_write_loop, rel_set_lock, Hl|]. intros [] c Hc.
    apply wp_bind, wp_release; [apply Hc|]. apply wp_ret, wp_ret. split; simpl; auto.
    eapply rel_set_lock, Hc.
Qed.

Lemma wp_crun u evs s a :
  Forall event_ok evs -> rel u s a -> wp (crun evs) (fun _ s' => rel u s' (arun u evs a)) s.
Proof.
  intros Hevs. revert s a. induction Hevs as [|ev evs Hev _ IH]; intros s a Hrel; cbn [crun].
  - by apply wp_ret.
  - eapply wp_seq; [by apply wp_cstep|]. intros [] s' Hs'. by apply IH.
Qed.

(** The console after consoleinit(), with the screen as the boot left it. *)
Definition csys0 (scr : screen) : csys :=
  mkCsys (mkCst false (replicate (Z.to_nat INPUT_BUF) 0) 0 0 0 scr []) [] 0.
Definition asys0 (scr : screen) : asys := mkAsys (mkLine [] [] (uart scr) []) [] 0.

Lemma rel_init scr : screen_ok scr -> rel (has_uart scr) (csys0 scr) (asys0 scr).
Proof.
  intros Hs. split; simpl; auto. split; simpl; auto; try done.
Qed.

(** C19. console.c implements the line discipline: for every sequence of keyboard interrupts,
    calls of consoleread() and consolewrite(), wake-ups and kills, the program runs without a
    panic and the calls return the same values and bytes, the terminal is sent the same bytes,
    the same calls sleep, and the ring buffer holds the committed characters and the edited
    line, as in the specification with unbounded queues. *)
Theorem console_refines scr evs :
  screen_ok scr -> Forall event_ok evs ->
  let a := arun (has_uart scr) evs (asys0 scr) in
  exists s, crun evs (csys0 scr) = Ret tt s /\
    sy_done s = as_done a /\ sy_dumps s = as_dumps a /\
    uart (c_scr (sy_c s)) = a_shown (as_line a) /\
    c_sleep (sy_c s) = a_sleep (as_line a) /\
    ring (sy_c s) (a_ready (as_line a)) (a_edit (as_line a)).
Proof.
  intros Hs Hevs a. pose proof (wp_crun _ evs _ _ Hevs (rel_init scr Hs)) as H.
  apply wp_run in H as ([] & s & Hrun & [[] Hd Hp]). by exists s.
Qed.

(** *** Wake-ups *)

(** A reader that nobody woke up has nothing to read. *)
Definition waits (l : line) : Prop :=
  Forall (fun rd => rd_woken rd = false -> a_ready l = []) (a_sleep l).

Lemma waits_sub l l' :
  waits l -> (a_ready l = [] -> a_ready l' = []) ->
  (forall rd, rd ∈ a_sleep l' -> rd_woken rd = false -> rd ∈ a_sleep l) -> waits l'.
Proof.
  unfold waits. rewrite !Forall_forall. intros Hw Hr Hsub rd Hin Hrd. eapply Hr, Hw; [by apply Hsub|done].
Qed.

Lemma waits_accept u l c : waits l -> waits (accept u c l).
Proof.
  intros Hw. unfold accept. destruct (_ || _); [|by apply (waits_sub l)].
  unfold waits. simpl. apply Forall_fmap, Forall_true. done.
Qed.

Lemma waits_achar u l c : waits l -> waits (achar u l c).
Proof.
  intros Hw. unfold achar.
  repeat case_match; try done; solve [by apply (waits_sub l) | by apply waits_accept].
Qed.

Lemma aread_empty killed target n dst : snd (aread killed target n dst []) = [].
Proof. by destruct n. Qed.

Lemma aread_sleeps killed target n dst ready rd ready' :
  aread killed target n dst ready = (inr rd, ready') -> ready' = [].
Proof.
  revert dst ready. induction n as [|n IH]; intros dst [|c ready]; simpl; try (repeat case_match; naive_solver).
Qed.

Lemma waits_asection rd a : waits (as_line a) -> waits (as_line (asection rd a)).
Proof.
  intros Hw. unfold asection. destruct (aread _ _ _ _ _) as [r ready] eqn:E.
  destruct r as [v|rd']; simpl.
  - apply (waits_sub (as_line a)); simpl; auto. intros H0. rewrite H0 in E.
    by rewrite <- (aread_empty (rd_killed rd) (rd_target rd) (rd_n rd) (rd_dst rd)), E.
  - apply aread_sleeps in E. subst. unfold waits. simpl. by apply Forall_true.
Qed.

Lemma waits_astep u a ev : waits (as_line a) -> waits (as_line (astep u a ev)).
Proof.
  intros Hw. destruct ev as [cs|n k|i|i|bs]; cbn [astep].
  - simpl. revert Hw. generalize (as_line a). induction cs as [|c cs IH]; intros l Hw; [done|].
    simpl. apply IH. by apply waits_achar.
  - by apply waits_asection.
  - destruct (_ !! i) as [rd|]; [|done]. destruct (rd_woken rd); [|done]. apply waits_asection.
    apply (waits_sub (as_line a)); simpl; auto. intros rd' Hin _. unfold remove_nth in Hin.
    apply elem_of_app in Hin as [Hin|Hin]; [by eapply elem_of_take in Hin as (? & ? & ?); eapply list_elem_of_lookup_2|].
    apply list_elem_of_lookup_1 in Hin as [j Hj]. rewrite lookup_drop in Hj. by eapply list_elem_of_lookup_2.
  - apply (waits_sub (as_line a)); simpl; auto. intros rd Hin Hrd.
    apply list_elem_of_lookup_1 in Hin as [j Hj]. destruct (decide (i = j)) as [<-|Hne].
    + rewrite list_lookup_alter_eq in Hj. destruct (a_sleep (as_line a) !! i); simplify_eq/=.
    + rewrite list_lookup_alter_ne in Hj by done. by eapply list_elem_of_lookup_2.
  - by apply (waits_sub (as_line a)).
Qed.

(** No wake-up of the console is lost: whatever happened, a call of consoleread() that sleeps
    and was not woken up since finds the buffer empty. *)
Theorem console_no_lost_wakeup scr evs :
  screen_ok scr -> Forall event_ok evs ->
  exists s, crun evs (csys0 scr) = Ret tt s /\
    forall rd, rd ∈ c_sleep (sy_c s) -> rd_woken rd = false -> c_r (sy_c s) = c_w (sy_c s).
Proof.
  intros Hs Hevs. pose proof (wp_crun _ evs _ _ Hevs (rel_init scr Hs)) as H.
  apply wp_run in H as ([] & s & Hrun & [Hl _ _]). exists s. split; [done|]. intros rd Hin Hrd.
  assert (Hw : waits (as_line (arun (has_uart scr) evs (asys0 scr)))).
  { assert (H0 : waits (as_line (asys0 scr))) by constructor. revert H0. unfold arun.
    generalize (asys0 scr). clear. induction evs as [|ev evs IH]; intros a Ha; [done|].
    simpl. apply IH. by apply waits_astep. }
  rewrite (rl_sleep _ _ _ _ Hl) in Hin. unfold waits in Hw. rewrite Forall_forall in Hw.
  pose proof (ring_no_ready _ _ _ (rl_ring _ _ _ _ Hl)) as Hrw.
  rewrite bool_decide_eq_true_2 in Hrw by (by eapply Hw). by apply Z.eqb_eq.
Qed.

(** *** A session *)

Definition demo_scr : screen := mkScreen (replicate (Z.to_nat 2000) 0) 0 0 true [] false.

Lemma demo_scr_ok : screen_ok demo_scr.
Proof. split; [by vm_compute|by vm_compute|done]. Qed.

(** A read that sleeps; "hi", a backspace and "!\n" are typed; the reader runs again, and a
    second reader goes to sleep. *)
Definition session : list event := [Read 10 false; Typed [104; 105; 127; 33; 13]; Resume 0; Read 5 false].

Lemma session_ok : Forall event_ok session.
Proof. repeat constructor; unfold is_byte; lia. Qed.

Lemma console_refines_witness :
  exists s, crun session (csys0 demo_scr) = Ret tt s /\
    sy_done s = [(3, [104; 33; 10])] /\ uart (c_scr (sy_c s)) = [104; 105; 8; 32; 8; 33; 10].
Proof.
  destruct (console_refines demo_scr session demo_scr_ok session_ok) as (s & Hrun & Hd & _ & Hu & _).
  exists s. split; [exact Hrun|]. rewrite Hd, Hu. split; reflexivity.
Defined.

Lemma console_no_lost_wakeup_witness :
  exists s, crun session (csys0 demo_scr) = Ret tt s /\
    forall rd, rd ∈ c_sleep (sy_c s) -> rd_woken rd = false -> c_r (sy_c s) = c_w (sy_c s).
Proof. exact (console_no_lost_wakeup demo_scr session demo_scr_ok session_ok). Defined.
