(* ===== verification/Kbd.v ===== *)
(** kbd.c and kbd.h: the keyboard driver. The controller is hardware: the driver sees its status
    byte and, when there is one, a scan code. *)

From S2P Require Export ConsoleRefine.
From Stdlib Require Ascii.

Open Scope Z_scope.

(** *** kbd.h *)

Definition KBS_DIB : Z := 0x01.
Definition NO : Z := 0.
Definition SHIFT : Z := Z.shiftl 1 0.
Definition CTL : Z := Z.shiftl 1 1.
Definition ALT : Z := Z.shiftl 1 2.
Definition CAPSLOCK : Z := Z.shiftl 1 3.
Definition NUMLOCK : Z := Z.shiftl 1 4.
Definition SCROLLLOCK : Z := Z.shiftl 1 5.
Definition E0ESC : Z := Z.shiftl 1 6.
Definition KEY_HOME : Z := 0xE0.
Definition KEY_END : Z := 0xE1.
Definition KEY_UP : Z := 0xE2.
Definition KEY_DN : Z := 0xE3.
Definition KEY_LF : Z := 0xE4.
Definition KEY_RT : Z := 0xE5.
Definition KEY_PGUP : Z := 0xE6.
Definition KEY_PGDN : Z := 0xE7.
Definition KEY_INS : Z := 0xE8.
Definition KEY_DEL : Z := 0xE9.

(** The characters of a string, and C('x') of each. *)
Definition chars (s : string) : list Z :=
  (fun a => Z.of_nat (Ascii.nat_of_ascii a)) <$> String.list_ascii_of_string s.
Definition ctl (s : string) : list Z := (fun x => u8 (x - 64)) <$> chars s.

(** An array of 256 bytes with the first elements [l], and then designated ones. *)
Definition table (l : list Z) (des : list (Z * Z)) : list Z :=
  foldl (fun t d => <[Z.to_nat d.1 := d.2]> t) (l ++ replicate (256 - length l) 0) des.

Definition shiftcode : list Z :=
  table [] [(0x1D, CTL); (0x2A, SHIFT); (0x36, SHIFT); (0x38, ALT); (0x9D, CTL); (0xB8, ALT)].
Definition togglecode : list Z :=
  table [] [(0x3A, CAPSLOCK); (0x45, NUMLOCK); (0x46, SCROLLLOCK)].

(** The designated elements that normalmap and shiftmap share, and those of ctlmap. *)
Definition keypad (enter div : Z) : list (Z * Z) :=
  [(0x9C, enter); (0xB5, div); (0xC8, KEY_UP); (0xD0, KEY_DN); (0xC9, KEY_PGUP); (0xD1, KEY_PGDN);
   (0xCB, KEY_LF); (0xCD, KEY_RT); (0x97, KEY_HOME); (0xCF, KEY_END); (0xD2, KEY_INS); (0xD3, KEY_DEL)].
(** The elements from 0x37 on, which normalmap and shiftmap share as well. *)
Definition map_tail : list Z :=
  chars "*" ++ [NO] ++ chars " " ++ replicate 13 NO ++ chars "789-456+1230." ++ replicate 4 NO.

Definition normalmap : list Z :=
  table ([NO; 0x1B] ++ chars "1234567890-=" ++ [8; 9] ++
         chars "qwertyuiop[]" ++ [10; NO] ++ chars "as" ++
         chars "dfghjkl;'`" ++ [NO] ++ chars "\zxcvbnm,./" ++ [NO] ++ map_tail)
    (keypad 10 47).
Definition shiftmap : list Z :=
  table ([NO; 27] ++ chars "!@#$%^&*()_+" ++ [8; 9] ++
         chars "QWERTYUIOP{}" ++ [10; NO] ++ chars "AS" ++
         chars "DFGHJKL:" ++ [34] ++ chars "~" ++ [NO] ++ chars "|ZXCVBNM<>?" ++ [NO] ++ map_tail)
    (keypad 10 47).
Definition ctlmap : list Z :=
  table (replicate 16 NO ++ ctl "QWERTYUIOP" ++ [NO; NO; 13; NO] ++ ctl "ASDFGHJKL" ++
         replicate 4 NO ++ ctl "\ZXCVBNM" ++ [NO; NO] ++ ctl "/" ++ [NO; NO])
    (keypad 13 (u8 (47 - 64))).

(** *** kbd.c *)

Definition charcode (i : Z) : list Z :=
  match i with 0 => normalmap | 1 => shiftmap | _ => ctlmap end.

(** kbdgetc(), with the values of the two ports: the new [shift], and the result. *)
Definition kbdgetc (st data shift : Z) : Z * Z :=
  if Z.land st KBS_DIB =? 0 then (shift, -1)
  else if data =? 0xE0 then (Z.lor shift E0ESC, 0)
  else if negb (Z.land data 0x80 =? 0) then
    let data := if negb (Z.land shift E0ESC =? 0) then data else Z.land data 0x7F in
    (Z.land shift (Z.lnot (Z.lor (shiftcode !!! Z.to_nat data) E0ESC)), 0)
  else
    let '(data, shift) :=
      if negb (Z.land shift E0ESC =? 0) then (Z.lor data 0x80, Z.land shift (Z.lnot E0ESC))
      else (data, shift) in
    let shift := Z.lor shift (shiftcode !!! Z.to_nat data) in
    let shift := Z.lxor shift (togglecode !!! Z.to_nat data) in
    let c := charcode (Z.land shift (Z.lor CTL SHIFT)) !!! Z.to_nat data in
    let c := if negb (Z.land shift CAPSLOCK =? 0) then
               if (97 <=? c) && (c <=? 122) then c + (65 - 97)
               else if (65 <=? c) && (c <=? 90) then c + (97 - 65) else c
             else c in
    (shift, c).

(** What consoleintr() gets from kbdgetc(), with the scan codes that the controller holds: the
    new [shift], and the results before the negative one. *)
Fixpoint kbd_chars (q : list Z) (shift : Z) : Z * list Z :=
  match q with
  | [] => ((kbdgetc 0 0 shift).1, [])
  | b :: q' =>
      let '(shift', c) := kbdgetc KBS_DIB b shift in
      let '(shift'', cs) := kbd_chars q' shift' in (shift'', c :: cs)
  end.

(** kbdintr() *)
Definition kbdintr (q : list Z) : M (Z * cst) bool := fun s =>
  let '(shift, cs) := kbd_chars q s.1 in lift snd (fun c s => (shift, c)) (consoleintr cs) s.

(** ** The keyboard driver as a decoder of keys, and typing: a line typed at the keyboard reaches
    the process that reads the console. *)

(** *** Keys *)

(** A key, plain or behind the escape code 0xE0, goes down or up. The controller sends one or
    two scan codes. *)
Record key_event := mkKeyEvent { ke_ext : bool; ke_code : Z; ke_down : bool }.

Definition key_ok (e : key_event) : Prop :=
  0 <= ke_code e < 128 /\ (ke_down e = false -> ke_code e <> 0x60).

Definition scan (e : key_event) : list Z :=
  (if ke_ext e then [0xE0] else []) ++ [if ke_down e then ke_code e else ke_code e + 128].

(** The place of the key in the tables. *)
Definition key (e : key_event) : nat := Z.to_nat (if ke_ext e then ke_code e + 128 else ke_code e).

(** The modifiers in force after an event, and the character that it gives. *)
Definition mods_after (mods : Z) (e : key_event) : Z :=
  if ke_down e then Z.lxor (Z.lor mods (shiftcode !!! key e)) (togglecode !!! key e)
  else Z.ldiff mods (shiftcode !!! key e).

Definition swap_case (c : Z) : Z :=
  if (97 <=? c) && (c <=? 122) then c - 32 else if (65 <=? c) && (c <=? 90) then c + 32 else c.

Definition key_char (mods : Z) (e : key_event) : Z :=
  let m := mods_after mods e in
  if ke_down e then
    let c := (if Z.testbit m 1 then ctlmap else if Z.testbit m 0 then shiftmap else normalmap) !!! key e in
    if Z.testbit m 3 then swap_case c else c
  else 0.

(** One event against the driver, in all the states between events. *)
Definition event_agrees (mods : Z) (e : key_event) : bool :=
  let '(shift, cs) := kbd_chars (scan e) mods in
  (shift =? mods_after mods e) && (0 <=? shift) && (shift <? 64)
  && bool_decide (cs = (if ke_ext e then [0] else []) ++ [key_char mods e]).

Definition range (n : nat) : list Z := Z.of_nat <$> seq 0 n.

Lemma elem_of_range n x : 0 <= x < Z.of_nat n -> In x (range n).
Proof.
  intros H. apply list_elem_of_In, list_elem_of_fmap. exists (Z.to_nat x).
  split; [lia|]. apply elem_of_seq. lia.
Qed.

Lemma forallb_range n f x : forallb f (range n) = true -> 0 <= x < Z.of_nat n -> f x = true.
Proof. intros H Hx. rewrite forallb_forall in H. by apply H, elem_of_range. Qed.

Lemma events_agree :
  forallb (fun mods => forallb (fun code => forallb (fun ext => forallb (fun down =>
    negb down && (code =? 0x60) || event_agrees mods (mkKeyEvent ext code down))
    [true; false]) [true; false]) (range 128)) (range 64) = true.
Proof. vm_compute. reflexivity. Qed.

Lemma event_decodes mods e :
  0 <= mods < 64 -> key_ok e ->
  kbd_chars (scan e) mods = (mods_after mods e, (if ke_ext e then [0] else []) ++ [key_char mods e])
  /\ 0 <= mods_after mods e < 64.
Proof.
  intros Hm [Hc Hu]. pose proof events_agree as H.
  apply (forallb_range _ _ mods) in H; [|lia]. apply (forallb_range _ _ (ke_code e)) in H; [|lia].
  destruct e as [ext code down]. cbn [ke_code ke_down ke_ext] in *.
  assert (He : event_agrees mods (mkKeyEvent ext code down) = true).
  { rewrite forallb_forall in H. specialize (H ext ltac:(destruct ext; simpl; auto)).
    rewrite forallb_forall in H. specialize (H down ltac:(destruct down; simpl; auto)).
    apply orb_prop in H as [H|H]; [|done]. apply andb_prop in H as [Hd H%Z.eqb_eq].
    destruct down; [done|]. by specialize (Hu eq_refl). }
  revert He. unfold event_agrees. destruct (kbd_chars _ _) as [shift cs].
  rewrite !andb_true_iff, bool_decide_eq_true, Z.eqb_eq, Z.leb_le, Z.ltb_lt.
  intros (((-> & ?) & ?) & ->). done.
Qed.

(** *** Sequences *)

Lemma kbd_chars_app q1 q2 shift :
  kbd_chars (q1 ++ q2) shift =
    let '(s1, c1) := kbd_chars q1 shift in
    let '(s2, c2) := kbd_chars q2 s1 in (s2, c1 ++ c2).
Proof.
  revert shift. induction q1 as [|b q1 IH]; intros shift; simpl.
  - by destruct (kbd_chars q2 shift).
  - destruct (kbdgetc KBS_DIB b shift) as [s c]. rewrite IH.
    destruct (kbd_chars q1 s) as [s1 c1], (kbd_chars q2 s1) as [s2 c2]. done.
Qed.

(** The characters of a sequence of events; an event without a character gives none. *)
Fixpoint key_chars (mods : Z) (es : list key_event) : Z * list Z :=
  match es with
  | [] => (mods, [])
  | e :: es' =>
      let '(m, cs) := key_chars (mods_after mods e) es' in
      (m, (if key_char mods e =? 0 then [] else [key_char mods e]) ++ cs)
  end.

Definition nonzero (cs : list Z) : list Z := filter (fun c => c <> 0) cs.

Lemma kbdgetc_bytes_all :
  forallb (fun shift => forallb (fun b => let '(s, c) := kbdgetc KBS_DIB b shift in
    (0 <=? s) && (s <? 128) && (0 <=? c) && (c <? 256)) (range 256)) (range 128) = true.
Proof. vm_compute. reflexivity. Qed.

(** kbdgetc() never looks outside its tables, and its characters are bytes. *)
Lemma kbd_chars_bytes q shift :
  Forall is_byte q -> 0 <= shift < 128 ->
  Forall is_byte (kbd_chars q shift).2 /\ 0 <= (kbd_chars q shift).1 < 128.
Proof.
  intros Hq. revert shift. induction Hq as [|b q Hb _ IH]; intros shift Hs; [done|]. cbn [kbd_chars].
  pose proof kbdgetc_bytes_all as H. apply (forallb_range _ _ shift) in H; [|lia].
  apply (forallb_range _ _ b) in H; [|unfold is_byte in Hb; lia].
  cbv beta in H.
  destruct (kbdgetc KBS_DIB b shift) as [s c].
  rewrite !andb_true_iff, !Z.leb_le, !Z.ltb_lt in H. destruct (IH s) as [IH1 IH2]; [lia|].
  destruct (kbd_chars q s) as [s' cs]. simpl in *. split; [|done]. constructor; [|done].
  unfold is_byte. lia.
Qed.

Lemma scan_bytes es : Forall key_ok es -> Forall is_byte (concat (scan <$> es)).
Proof.
  induction 1 as [|e es [Hc _] _ IH]; [constructor|]. rewrite fmap_cons. cbn [concat].
  apply Forall_app. split; [|done]. unfold scan, is_byte. destruct (ke_ext e), (ke_down e);
    repeat constructor; lia.
Qed.

Lemma decodes_text mods es :
  0 <= mods < 64 -> Forall key_ok es ->
  let '(shift, cs) := kbd_chars (concat (scan <$> es)) mods in
  (shift, nonzero cs) = key_chars mods es.
Proof.
  intros Hm He. revert mods Hm. induction He as [|e es He _ IH]; intros mods Hm; [done|].
  cbn [fmap list_fmap concat key_chars]. rewrite kbd_chars_app.
  destruct (event_decodes mods e Hm He) as [-> Hm']. specialize (IH _ Hm'). unfold fmap in IH.
  destruct (kbd_chars _ _) as [shift cs], (key_chars _ es) as [m cs']. simplify_eq. f_equal.
  unfold nonzero. rewrite !filter_app. f_equal. destruct (ke_ext e); simpl;
    rewrite ?filter_cons; (destruct (Z.eqb_spec (key_char mods e) 0) as [->|]; by repeat case_decide).
Qed.

(** The keyboard driver decodes keys. Whatever keys, plain or extended, go down and up in
    whatever order, from whatever modifiers and locks, the characters that kbdgetc() gives are
    those of the specification: each key that goes down gives its character in the map that
    Control and Shift select, with the case swapped by Caps Lock; modifiers are in force from
    the time when such a key goes down to when one goes up, and the lock keys toggle. *)
Theorem kbd_decodes mods es :
  0 <= mods < 64 -> Forall key_ok es ->
  let '(shift, cs) := kbd_chars (concat (scan <$> es)) mods in
  (shift, nonzero cs) = key_chars mods es /\ Forall is_byte cs /\ 0 <= shift < 128.
Proof.
  intros Hm He. pose proof (decodes_text mods es Hm He) as Hd.
  destruct (kbd_chars_bytes (concat (scan <$> es)) mods) as [Hb Hs]; [by apply scan_bytes|lia|].
  by destruct (kbd_chars _ mods).
Qed.

Lemma kbd_decodes_witness :
  let es := [mkKeyEvent false 0x2A true; mkKeyEvent false 0x1E true; mkKeyEvent false 0x1E false;
             mkKeyEvent false 0x2A false; mkKeyEvent true 0x48 true] in
  key_chars 0 es = (0, [65; KEY_UP]) /\
  let '(shift, cs) := kbd_chars (concat (scan <$> es)) 0 in
  (shift, nonzero cs) = key_chars 0 es /\ Forall is_byte cs /\ 0 <= shift < 128.
Proof.
  intros es. split; [reflexivity|]. apply (kbd_decodes 0 es); [lia|].
  repeat constructor; simpl; try lia; done.
Defined.

(** *** Typing *)

(** The keys for a character: alone, or with Shift held. *)
Definition key_of (m : list Z) (c : Z) : option Z :=
  (fun p => Z.of_nat p.1) <$> list_find (fun x => x = c) (take 128 m).
Definition stroke (code : Z) : list key_event := [mkKeyEvent false code true; mkKeyEvent false code false].
Definition type_char (c : Z) : list key_event :=
  match key_of normalmap c, key_of shiftmap c with
  | Some k, _ => stroke k
  | None, Some k => mkKeyEvent false 0x2A true :: stroke k ++ [mkKeyEvent false 0x2A false]
  | None, None => []
  end.
Definition type_text (t : list Z) : list key_event := concat (type_char <$> t).

Definition printable (c : Z) : Prop := 32 <= c <= 126.

Definition key_okb (e : key_event) : bool :=
  (0 <=? ke_code e) && (ke_code e <? 128) && (ke_down e || negb (ke_code e =? 0x60)).

Lemma typed_chars :
  forallb (fun c => negb ((32 <=? c) && (c <=? 126) || (c =? 10))
    || forallb key_okb (type_char c) && bool_decide (key_chars 0 (type_char c) = (0, [c]))) (range 128) = true.
Proof. vm_compute. reflexivity. Qed.

Lemma typed_char c :
  printable c \/ c = 10 -> Forall key_ok (type_char c) /\ key_chars 0 (type_char c) = (0, [c]).
Proof.
  intros Hc. unfold printable in Hc. pose proof typed_chars as H. apply (forallb_range _ _ c) in H; [|lia].
  apply orb_prop in H as [H|H].
  - apply negb_true_iff, orb_false_iff in H as [H1%andb_false_iff H2%Z.eqb_neq]. lia.
  - apply andb_prop in H as [Hk Hb%bool_decide_eq_true]. split; [|done].
    rewrite Forall_forall. intros e He. rewrite forallb_forall in Hk.
    specialize (Hk e ltac:(by apply list_elem_of_In)). unfold key_okb in Hk.
    rewrite !andb_true_iff, orb_true_iff, negb_true_iff, Z.eqb_neq, Z.leb_le, Z.ltb_lt in Hk.
    destruct Hk as [? Hk]. split; [done|]. intros Hd. destruct Hk; congruence.
Qed.

Lemma key_chars_app mods es1 es2 :
  key_chars mods (es1 ++ es2) =
    let '(m1, c1) := key_chars mods es1 in let '(m2, c2) := key_chars m1 es2 in (m2, c1 ++ c2).
Proof.
  revert mods. induction es1 as [|e es1 IH]; intros mods; simpl.
  - by destruct (key_chars mods es2).
  - rewrite IH. destruct (key_chars (mods_after mods e) es1) as [m1 c1], (key_chars m1 es2) as [m2 c2].
    by rewrite app_assoc.
Qed.

Lemma typed_text t :
  Forall (fun c => printable c \/ c = 10) t ->
  Forall key_ok (type_text t) /\ key_chars 0 (type_text t) = (0, t).
Proof.
  induction 1 as [|c t Hc _ [IH1 IH2]]; [done|]. unfold type_text in *. rewrite fmap_cons. cbn [concat].
  destruct (typed_char c Hc) as [H1 H2]. split; [by apply Forall_app|].
  by rewrite key_chars_app, H2, IH2.
Qed.

(** *** Keyboard interrupts at the console *)

Open Scope kernel_scope.

(** kbdintr() in the system of ConsoleRefine.v, beside the driver's [shift]. *)
Definition kbd_interrupt (q : list Z) : M (Z * csys) unit :=
  p <- lift (fun s => (s.1, sy_c s.2)) (fun c s => (c.1, set_sy_c c.2 s.2)) (kbdintr q) ;;
  modify (fun s => (s.1, mkCsys (sy_c s.2) (sy_done s.2) (sy_dumps s.2 + if (p : bool) then 1 else 0)%nat)).
Fixpoint kbd_run (qs : list (list Z)) : M (Z * csys) unit :=
  match qs with
  | [] => ret tt
  | q :: qs' => kbd_interrupt q ;; kbd_run qs'
  end.

Lemma wp_kbd_interrupt u q shift s a :
  Forall is_byte (kbd_chars q shift).2 -> rel u s a ->
  wp (kbd_interrupt q)
    (fun _ s' => s'.1 = (kbd_chars q shift).1 /\ rel u s'.2 (astep u a (Typed (kbd_chars q shift).2)))
    (shift, s).
Proof.
  intros Hb [Hl Hd Hp]. pose proof (wp_consoleintr u _ _ _ Hb Hl) as Hw.
  unfold wp, kbd_interrupt, bind, lift, kbdintr. simpl.
  destruct (kbd_chars q shift) as [shift' cs]. unfold lift. simpl in *. revert Hw. unfold wp.
  destruct (consoleintr cs (sy_c s)) as [p c| | |]; try done.
  intros [-> Hc]. unfold modify. split; [done|]. split; simpl; auto.
Qed.

(** A character 0 does nothing. *)
Lemma achar_zero u a cs : foldl (achar u) a cs = foldl (achar u) a (nonzero cs).
Proof.
  revert a. induction cs as [|c cs IH]; intros a; [done|]. unfold nonzero in *. rewrite filter_cons.
  simpl. case_decide as Hc; [simpl; apply IH|]. subst c. apply IH.
Qed.

(** Printable characters are collected, and a newline hands them over. *)
Lemma achar_text u ready t edit shown sl :
  Forall printable t -> Z.of_nat (length ready + length edit + length t) < INPUT_BUF ->
  exists shown', foldl (achar u) (mkLine ready edit shown sl) t = mkLine ready (edit ++ t) shown' sl.
Proof.
  intros Ht. revert edit shown. induction Ht as [|c t Hc _ IH]; intros edit shown Hlen.
  - exists shown. by rewrite app_nil_r.
  - unfold printable in Hc. assert (E : achar u (mkLine ready edit shown sl) c =
      mkLine ready (edit ++ [c]) (shown ++ echo u c) sl).
    { simpl in Hlen. unfold achar, room. cbn [a_ready a_edit a_shown a_sleep].
      rewrite !(proj2 (Z.eqb_neq c _)), (proj2 (Z.ltb_lt _ _)) by lia. cbn [orb negb andb].
      unfold accept. cbn [a_ready a_edit a_shown a_sleep].
      rewrite !(proj2 (Z.eqb_neq _ _)) by (rewrite ?length_app; simpl; lia). cbn [orb].
      do 2 f_equal. unfold s8, u8. rewrite Z.mod_small by lia. by rewrite (proj2 (Z.ltb_lt _ _)) by lia. }
    cbn [foldl]. rewrite E. destruct (IH (edit ++ [c]) (shown ++ echo u c)) as [shown' ->].
    { rewrite length_app. simpl in *. lia. }
    exists shown'. by rewrite <- app_assoc.
Qed.

Lemma achar_newline u edit shown sl :
  Z.of_nat (length edit) < INPUT_BUF ->
  achar u (mkLine [] edit shown sl) 10 = mkLine (edit ++ [10]) [] (shown ++ echo u 10) (wake <$> sl).
Proof.
  intros H. unfold achar, room, accept. cbn [a_ready a_edit a_shown a_sleep]. simpl.
  by rewrite (proj2 (Z.ltb_lt _ _)) by done.
Qed.

Lemma wp_kbd_run u qs shift s a :
  Forall (Forall is_byte) qs -> 0 <= shift < 128 -> rel u s a ->
  wp (kbd_run qs) (fun _ s' => s'.1 = (kbd_chars (concat qs) shift).1 /\
    exists a', rel u s'.2 a' /\ as_done a' = as_done a /\
      as_line a' = foldl (achar u) (as_line a) (kbd_chars (concat qs) shift).2) (shift, s).
Proof.
  intros Hq. revert shift s a. induction Hq as [|q qs Hb _ IH]; intros shift s a Hs Hrel; cbn [kbd_run concat].
  - apply wp_ret. split; [done|]. by exists a.
  - destruct (kbd_chars_bytes q shift Hb Hs) as [Hcs Hs'].
    eapply wp_seq; [by apply wp_kbd_interrupt|]. intros [] [shift' s'] [E Hrel']. simpl in E, Hrel'.
    rewrite kbd_chars_app. destruct (kbd_chars q shift) as [s1 c1]. simpl in *. subst shift'.
    eapply wp_mono; [by eapply IH|]. intros [] s'' (E1 & a' & H1 & H2 & H3).
    destruct (kbd_chars (concat qs) s1) as [s2 c2]. simpl in *. split; [done|].
    exists a'. split_and!; [done|done|]. by rewrite H3, foldl_app.
Qed.

(** A reader with room for the line takes it all. *)
Lemma aread_line target n dst t :
  Forall printable t -> (length t < n)%nat ->
  aread false target n dst (t ++ [10]) =
    (inl (Z.of_nat target - Z.of_nat (n - S (length t)), dst ++ t ++ [10]), []).
Proof.
  intros Ht. revert n dst. induction Ht as [|c t Hc _ IH]; intros n dst Hn; (destruct n as [|n]; [simpl in Hn; lia|]).
  - simpl. by rewrite Nat.sub_0_r.
  - unfold printable in Hc. cbn [app aread length]. rewrite !(proj2 (Z.eqb_neq c _)) by lia.
    rewrite IH by (simpl in Hn; lia). rewrite <- app_assoc. unfold u8. rewrite Z.mod_small by lia.
    by rewrite Nat.sub_succ.
Qed.

(** From the keys to the program. A line of printable text is typed at the keyboard, and its
    scan codes arrive in any number of keyboard interrupts, split anywhere. Then a process that
    reads the console with enough room gets exactly this line, with its newline. *)
Theorem keyboard_line scr qs t n :
  screen_ok scr -> Forall printable t -> Z.of_nat (S (length t)) <= INPUT_BUF ->
  Z.of_nat (S (length t)) <= n ->
  concat qs = concat (scan <$> type_text (t ++ [10])) ->
  wp (kbd_run qs ;; lift snd (fun c s => (s.1, c)) (cstep (Read n false)))
    (fun _ s => s.1 = 0 /\ sy_done s.2 = [(Z.of_nat (S (length t)), t ++ [10])]) (0, csys0 scr).
Proof.
  intros Hscr Ht Hlen Hn Hq.
  destruct (typed_text (t ++ [10])) as [Hok Hkc].
  { apply Forall_app. split; [|repeat constructor; by right]. eapply Forall_impl; [done|]. by left. }
  pose proof (decodes_text 0 _ ltac:(lia) Hok) as Hd. rewrite <- Hq in Hd.
  assert (Hb : Forall (Forall is_byte) qs) by (apply Forall_concat; rewrite Hq; by apply scan_bytes).
  eapply wp_seq; [eapply wp_kbd_run; [done|lia|by apply rel_init]|].
  intros [] [shift s] (E & a' & Hrel & Hdone & Hline). simpl in E, Hrel.
  destruct (kbd_chars (concat qs) 0) as [s1 cs]. rewrite Hkc in Hd. cbn [fst snd] in E, Hline. simplify_eq. cbn [asys0 as_line as_done] in Hdone, Hline.
  rewrite achar_zero, H0, foldl_app in Hline.
  destruct (achar_text (has_uart scr) [] t [] (uart scr) [] Ht) as [shown' Et]; [simpl; lia|].
  rewrite Et in Hline. cbn [foldl app] in Hline.
  pose proof (wp_cstep _ (Read n false) s a' I Hrel) as Hw. revert Hw. unfold wp, lift. cbn [snd].
  destruct (cstep (Read n false) s) as [x s'| | |]; try done. intros Hrel'. cbv beta. split; [done|].
  cbn [snd]. rewrite (rs_done _ _ _ Hrel'). cbn [astep]. unfold asection. rewrite Hline.
  rewrite achar_newline by (simpl; lia).
  cbn [a_ready app rd_killed rd_target rd_n rd_dst]. rewrite aread_line by (done || lia).
  cbn [as_done]. rewrite Hdone. cbn [app]. do 2 f_equal. lia.
Qed.

(** The text is typed in two interrupts, the first in the middle of a key. *)
Lemma keyboard_line_witness :
  let t := [72; 105; 33] in
  wp (kbd_run [[0x2A]; [0x23; 0xA3; 0xAA; 0x17; 0x97; 0x2A; 0x02; 0x82; 0xAA; 0x1C; 0x9C]] ;;
      lift snd (fun c s => (s.1, c)) (cstep (Read 80 false)))
    (fun _ s => s.1 = 0 /\ sy_done s.2 = [(4, t ++ [10])]) (0, csys0 demo_scr).
Proof.
  intros t. apply (keyboard_line demo_scr
    [[0x2A]; [0x23; 0xA3; 0xAA; 0x17; 0x97; 0x2A; 0x02; 0x82; 0xAA; 0x1C; 0x9C]] t 80).
  - apply demo_scr_ok.
  - repeat constructor; unfold printable; lia.
  - done.
  - done.
  - vm_compute. reflexivity.
Defined.
