(* ===== verification/Cprintf.v ===== *)
(** The messages of the kernel: printint(), cprintf(), panic() and consoleinit() of console.c,
    getcallerpcs() of spinlock.c, procdump() of proc.c and the rest of uart.c. *)

From S2P Require Export ConsoleRefine Ulib Irq.

Open Scope Z_scope.
Open Scope kernel_scope.

(** *** printint() and cprintf() *)

(** The digits of the kernel are [0123456789abcdef]. *)
Definition kdigit (d : Z) : Z := if d <? 10 then 48 + d else 87 + d.
(** The do-while loop of printint(); a word has at most 32 digits. *)
Fixpoint kdigits (fuel : nat) (x base : Z) : list Z :=
  match fuel with
  | O => []
  | S f =>
      kdigit (x mod base) :: let x := x / base in if negb (x =? 0) then kdigits f x base else []
  end.
(** The contents of [buf] in printint(), whose size is 16. *)
Definition kprintint_buf (xx base sgn : Z) : list Z :=
  let neg := negb (sgn =? 0) && (xx <? 0) in
  let x := if neg then u32 (- xx) else u32 xx in
  kdigits 32 x base ++ (if neg then [45] else []).
(** [while(--i >= 0) consputc(buf[i]);] *)
Definition kprintint (xx base sgn : Z) : list Z := reverse (kprintint_buf xx base sgn).

Section Cprintf.
(** The string at an address, and the words after [fmt]. *)
Context (str_at : Z -> list Z) (argp : nat -> Z).

(** What the loop over the format gives to consputc(). *)
Fixpoint cprintf_loop (fmt : list Z) (i : nat) : list Z :=
  match fmt with
  | [] => []
  | c :: fmt' =>
      if negb (c =? 37) then c :: cprintf_loop fmt' i
      else
        match fmt' with
        | [] => []
        | c :: fmt'' =>
            if c =? 100 then kprintint (s32 (argp i)) 10 1 ++ cprintf_loop fmt'' (S i)
            else if (c =? 120) || (c =? 112) then kprintint (s32 (argp i)) 16 0 ++ cprintf_loop fmt'' (S i)
            else if c =? 115 then
              (if argp i =? 0 then null_str else str_at (argp i)) ++ cprintf_loop fmt'' (S i)
            else if c =? 37 then 37 :: cprintf_loop fmt'' i
            else 37 :: c :: cprintf_loop fmt'' i
        end
  end.

(** consputc() of each character. *)
Fixpoint consputs (cs : list Z) : M cst unit :=
  match cs with
  | [] => ret tt
  | c :: cs' => cputc c ;; consputs cs'
  end.

(** cprintf(); [locking] is cons.locking. *)
Definition cprintf (locking : bool) (fmt : list Z) : M cst unit :=
  when locking (acquire cons_lock) ;;
  consputs (cprintf_loop fmt 0) ;;
  when locking (release cons_lock).
End Cprintf.

(** *** getcallerpcs() *)

(** The first loop: the return addresses of at most [n] frames from [ebp] on. *)
Fixpoint callers (n : nat) (m : mem) (ebp : Z) : list Z :=
  match n with
  | O => []
  | S n' =>
      if (ebp =? 0) || (ebp <? KERNBASE) || (ebp =? 0xffffffff) then []
      else rd32 m (ebp + 4) :: callers n' m (rd32 m ebp)
  end.
(** getcallerpcs(v, pcs): the contents of pcs. *)
Definition getcallerpcs (m : mem) (v : Z) : list Z :=
  let l := callers 10 m (u32 (v - 8)) in l ++ replicate (10 - length l) 0.

(** *** panic() *)

Definition set_panicked (s : screen) : screen :=
  mkScreen (crt s) (reg14 s) (reg15 s) (has_uart s) (uart s) true.

(** The format strings, as the character codes. *)
Definition str_panic : list Z :=
  [99; 112; 117; 32; 119; 105; 116; 104; 32; 97; 112; 105; 99; 105; 100; 32; 37; 100; 58; 32; 112; 97; 110;
   105; 99; 58; 32].
Definition str_pc : list Z := [32; 37; 112].

Fixpoint print_pcs (locking : bool) (pcs : list Z) : M cst unit :=
  match pcs with
  | [] => ret tt
  | pc :: pcs' => cprintf (fun _ => []) (fun _ => pc) locking str_pc ;; print_pcs locking pcs'
  end.

(** panic(s) up to its endless loop, for the processor with [apicid]; [pcs] is what
    getcallerpcs() has found. The message is itself a format. *)
Definition panic_prints (str_at : Z -> list Z) (argp : nat -> Z) (apicid : Z) (pcs s : list Z) : M cst unit :=
  cprintf str_at (fun _ => apicid) false str_panic ;;
  cprintf str_at argp false s ;;
  cprintf str_at argp false [10] ;;
  print_pcs false pcs ;;
  lift c_scr set_c_scr (modify set_panicked).

(** *** procdump() *)

Definition state_name (st : procstate) : list Z :=
  match st with
  | UNUSED => [117; 110; 117; 115; 101; 100]
  | EMBRYO => [101; 109; 98; 114; 121; 111]
  | SLEEPING => [115; 108; 101; 101; 112; 32]
  | RUNNABLE => [114; 117; 110; 98; 108; 101]
  | RUNNING => [114; 117; 110; 32; 32; 32]
  | ZOMBIE => [122; 111; 109; 98; 105; 101]
  end.
(** [%d %s %s] *)
Definition str_proc : list Z := [37; 100; 32; 37; 115; 32; 37; 115].
(** The elements before the first 0. *)
Fixpoint until0 (l : list Z) : list Z :=
  match l with [] => [] | c :: l' => if c =? 0 then [] else c :: until0 l' end.

(** The words 1 and 2 stand for the addresses of the two strings. *)
Definition dump_proc (m : mem) (p : proc) : M cst unit :=
  if decide (p_state p = UNUSED) then ret tt else
  cprintf (fun a => if a =? 1 then state_name (p_state p) else until0 (p_name p))
    (fun i => match i with O => p_pid p | S O => 1 | _ => 2 end) true str_proc ;;
  (if decide (p_state p = SLEEPING) then
     let pcs := getcallerpcs m (u32 (rd32 m (p_context p + 12) + 8)) in
     print_pcs true (until0 pcs)
   else ret tt) ;;
  cprintf (fun _ => []) (fun _ => 0) true [10].
Fixpoint procdump (m : mem) (ps : list proc) : M cst unit :=
  match ps with
  | [] => ret tt
  | p :: ps' => dump_proc m p ;; procdump m ps'
  end.

(** *** consoleinit() and uart.c *)

Definition COM1 : Z := 0x3f8.

(** What devsw[] holds for a device. *)
Inductive devfn : Type := ConsoleRead | ConsoleWrite.

(** The interrupt controllers, the screen, and what consoleinit() sets: whether cons.lock is
    held, cons.locking, and the functions for reading and for writing in devsw[]. *)
Record dev := mkDev {
  d_irqs : irqs;
  d_io : ioapic;
  d_scr : screen;
  d_lock : bool;
  d_locking : bool;
  d_devsw : Z -> option devfn * option devfn;
}.

Definition on_irqs (f : irqs -> irqs) : M dev unit :=
  modify (fun s => mkDev (f (d_irqs s)) (d_io s) (d_scr s) (d_lock s) (d_locking s) (d_devsw s)).
Definition on_io (f : ioapic -> ioapic) : M dev unit :=
  modify (fun s => mkDev (d_irqs s) (f (d_io s)) (d_scr s) (d_lock s) (d_locking s) (d_devsw s)).
Definition on_scr {A} (m : M screen A) : M dev A :=
  lift d_scr (fun c s => mkDev (d_irqs s) (d_io s) c (d_lock s) (d_locking s) (d_devsw s)) m.
Definition set_console (s : dev) : dev :=
  mkDev (d_irqs s) (d_io s) (d_scr s) false true
    (fun i => if i =? CONSOLE then (Some ConsoleRead, Some ConsoleWrite) else d_devsw s i).

Definition consoleinit (ismp : Z) : M dev unit :=
  modify set_console ;;
  on_irqs (picenable IRQ_KBD) ;;
  on_io (ioapicenable ismp IRQ_KBD 0).

Definition set_uart (s : screen) : screen :=
  mkScreen (crt s) (reg14 s) (reg15 s) true (uart s) (panicked s).

Fixpoint uartputs (cs : list Z) : M screen unit :=
  match cs with
  | [] => ret tt
  | c :: cs' => uartputc c ;; uartputs cs'
  end.

(** uartinit(), with what the status register reads as. The reads that acknowledge interrupts
    have no effect here. *)
Definition uartinit (ismp status : Z) : M dev unit :=
  on_irqs (outb (COM1 + 2) 0) ;;
  on_irqs (outb (COM1 + 3) 0x80) ;;
  on_irqs (outb (COM1 + 0) (115200 / 9600)) ;;
  on_irqs (outb (COM1 + 1) 0) ;;
  on_irqs (outb (COM1 + 3) 0x03) ;;
  on_irqs (outb (COM1 + 4) 0) ;;
  on_irqs (outb (COM1 + 1) 0x01) ;;
  if status =? 0xFF then ret tt else
  on_scr (modify set_uart) ;;
  on_irqs (picenable IRQ_COM1) ;;
  on_io (ioapicenable ismp IRQ_COM1 0) ;;
  on_scr (uartputs [120; 118; 54; 46; 46; 46; 10]).

(** uartgetc(), with the values of the two ports. *)
Definition uartgetc (uart : bool) (status data : Z) : Z :=
  if negb uart then -1 else if Z.land status 0x01 =? 0 then -1 else data.
(** The characters that consoleintr() gets, with the bytes that the device holds. *)
Fixpoint uart_chars (uart : bool) (q : list Z) : list Z :=
  match q with
  | [] => []
  | b :: q' => if uartgetc uart 1 b <? 0 then [] else uartgetc uart 1 b :: uart_chars uart q'
  end.
Definition uartintr (q : list Z) : M cst bool :=
  u <- gets (fun s => has_uart (c_scr s)) ;;
  consoleintr (uart_chars u q).

(** *** Theorems *)

(** The frames of a stack: the saved %ebp of each is the address of the next. *)
Fixpoint frames (m : mem) (ebp : Z) (rets : list Z) : Prop :=
  match rets with
  | [] => ebp = 0
  | r :: rets' =>
      KERNBASE <= ebp < 0xffffffff /\ rd32 m (ebp + 4) = r /\ frames m (rd32 m ebp) rets'
  end.

Lemma callers_frames n m ebp rets :
  frames m ebp rets -> (length rets <= n)%nat -> callers n m ebp = rets.
Proof.
  revert ebp n. induction rets as [|r rets IH]; intros ebp n Hf Hn.
  - simpl in Hf. subst. by destruct n.
  - destruct n as [|n]; [simpl in Hn; lia|]. destruct Hf as (Hb & Hr & Hf). cbn [callers].
    unfold KERNBASE in *. rewrite !(proj2 (Z.eqb_neq ebp _)), (proj2 (Z.ltb_ge ebp _)) by lia. cbn [orb].
    f_equal; [done|]. apply IH; [done|simpl in Hn; lia].
Qed.

(** The letters of a text in lower case. *)
Definition lower (c : Z) : Z := if (65 <=? c) && (c <=? 90) then c + 32 else c.

Lemma kdigit_digit d : 0 <= d < 16 -> kdigit d = lower (digit d) /\ (d < 10 -> kdigit d = digit d).
Proof.
  intros H. assert (Hall : forallb (fun k => (kdigit (Z.of_nat k) =? lower (digit (Z.of_nat k)))
      && ((10 <=? Z.of_nat k) || (kdigit (Z.of_nat k) =? digit (Z.of_nat k)))) (seq 0 16) = true)
    by (vm_compute; reflexivity).
  rewrite forallb_forall in Hall. specialize (Hall (Z.to_nat d)). rewrite Z2Nat.id in Hall by lia.
  specialize (Hall ltac:(apply in_seq; lia)). apply andb_prop in Hall as [H1%Z.eqb_eq H2].
  split; [done|]. intros Hd. apply orb_prop in H2 as [H2%Z.leb_le|H2%Z.eqb_eq]; [lia|done].
Qed.

Lemma lower_lower c : lower (lower c) = lower c.
Proof.
  unfold lower. destruct (Z.leb_spec 65 c), (Z.leb_spec c 90); cbn [andb]; try done;
    repeat match goal with |- context [?a <=? ?b] => destruct (Z.leb_spec a b) end; cbn [andb]; try done; lia.
Qed.

Lemma kdigits_digits fuel x base :
  0 <= x -> 2 <= base <= 16 ->
  lower <$> kdigits fuel x base = lower <$> digits_loop fuel x base /\
  (base <= 10 -> kdigits fuel x base = digits_loop fuel x base).
Proof.
  intros Hx Hb. revert x Hx. induction fuel as [|f IH]; intros x Hx; [done|]. cbn [kdigits digits_loop].
  cbv zeta. pose proof (Z.mod_pos_bound x base ltac:(lia)) as Hm.
  destruct (kdigit_digit (x mod base)) as [H1 H2]; [lia|].
  destruct (IH (x / base)) as [H3 H4]; [by apply Z.div_pos; lia|]. split.
  - rewrite !fmap_cons, H1, lower_lower. f_equal. destruct (x / base =? 0); [done|]. exact H3.
  - intros H10. rewrite H2 by lia. f_equal. destruct (x / base =? 0); [done|]. by apply H4.
Qed.

Lemma kprintint_printint xx base sgn :
  2 <= base <= 16 ->
  lower <$> kprintint xx base sgn = lower <$> printint xx base sgn /\
  (base <= 10 -> kprintint xx base sgn = printint xx base sgn).
Proof.
  intros Hb. unfold kprintint, kprintint_buf, printint, printint_buf. cbv zeta.
  set (x := if _ : bool then _ else _).
  destruct (kdigits_digits 32 x base) as [H1 H2]; [|done|].
  { subst x. unfold u32. destruct (_ && _); apply Z.mod_pos_bound; lia. }
  split; [|intros H10; by rewrite H2].
  by rewrite !fmap_reverse, !fmap_app, H1.
Qed.

(** A format without %c, which cprintf() does not know; and without %x and %p. *)
Fixpoint no_conv (cs : list Z) (fmt : list Z) : bool :=
  match fmt with
  | c :: fmt' =>
      if c =? 37 then match fmt' with d :: fmt'' => negb (existsb (Z.eqb d) cs) && no_conv cs fmt'' | [] => true end
      else no_conv cs fmt'
  | [] => true
  end.

Lemma cprintf_loop_printf str_at ap n fmt i :
  (length fmt <= n)%nat -> no_conv [99] fmt = true ->
  lower <$> cprintf_loop str_at ap fmt i = lower <$> printf_loop str_at ap fmt false i /\
  (no_conv [120; 112] fmt = true -> cprintf_loop str_at ap fmt i = printf_loop str_at ap fmt false i).
Proof.
  revert fmt i. induction n as [|n IH]; intros fmt i Hn Hc; [by destruct fmt; [|simpl in Hn; lia]|].
  destruct fmt as [|c fmt]; [done|]. cbn [cprintf_loop printf_loop no_conv negb length] in *.
  destruct (Z.eqb_spec c 37) as [->|Hne]; cbn [negb].
  - destruct fmt as [|d fmt]; [done|]. cbn [printf_loop negb length existsb] in *.
    apply andb_prop in Hc as [Hd%negb_true_iff Hc]. rewrite orb_false_r in Hd. rewrite Hd.
    destruct (IH fmt i ltac:(lia) Hc) as [H1 H2]. destruct (IH fmt (S i) ltac:(lia) Hc) as [H3 H4].
    destruct (kprintint_printint (s32 (ap i)) 10 1 ltac:(lia)) as [H5 H6].
    destruct (kprintint_printint (s32 (ap i)) 16 0 ltac:(lia)) as [H7 _].
    rewrite orb_false_r.
    destruct (d =? 100); [rewrite !fmap_app, H3, H5; split; [done|];
      intros [_ H]%andb_prop; by rewrite H6, H4|].
    destruct ((d =? 120) || (d =? 112)); [rewrite !fmap_app, H3, H7; split; [done|]; by intros|].
    cbn [negb andb]. destruct (d =? 115); [rewrite !fmap_app, H3; split; [done|]; intros; by rewrite H4|].
    destruct (Z.eqb_spec d 37) as [->|]; rewrite !fmap_cons, H1; (split; [done|]; intros; by rewrite H2).
  - destruct (IH fmt i ltac:(lia) Hc) as [H1 H2]. rewrite !fmap_cons, H1. split; [done|].
    intros. by rewrite H2.
Qed.

Lemma wp_consputs lk u cs s a :
  rel_c lk u s a ->
  wp (consputs cs) (fun _ s' => rel_c lk u s' (show (concat (map (echo u) cs)) a)) s.
Proof.
  revert s a. induction cs as [|c cs IH]; intros s a Hrel; cbn [consputs].
  - apply wp_ret. unfold show. simpl. rewrite app_nil_r. by destruct a.
  - apply wp_bind. eapply wp_cputc; [exact Hrel|]. intros s' Hs'.
    eapply wp_mono; [apply (IH _ _ Hs')|]. intros [] s''. unfold show. simpl. by rewrite app_assoc.
Qed.

(** The kernel prints like the user library. On a console in any state, cprintf() of any format
    without %c returns with the lock free and the input as before, and the terminal has been sent
    the characters that printf() of the user library prints for the same format and arguments,
    with the hexadecimal digits in lower case. *)
Theorem cprintf_prints str_at argp u fmt s a :
  rel_c false u s a -> no_conv [99] fmt = true ->
  exists cs, lower <$> cs = lower <$> printf str_at argp fmt /\
    (no_conv [120; 112] fmt = true -> cs = printf str_at argp fmt) /\
    wp (cprintf str_at argp true fmt) (fun _ s' => rel_c false u s' (show (concat (map (echo u) cs)) a)) s.
Proof.
  intros Hrel Hc. destruct (cprintf_loop_printf str_at argp (length fmt) fmt 0) as [H1 H2]; [done|done|].
  exists (cprintf_loop str_at argp fmt 0). split_and!; [done|done|].
  unfold cprintf. cbn [when]. apply wp_bind, wp_acquire; [apply Hrel|].
  eapply wp_seq; [eapply wp_consputs, rel_set_lock, Hrel|]. intros [] s' Hs'.
  apply wp_release; [apply Hs'|]. eapply rel_set_lock, Hs'.
Qed.

Definition demo_args (i : nat) : Z := match i with O => 2 ^ 32 - 7 | _ => 255 end.

(** [pid %d: %x] *)
Lemma cprintf_prints_witness :
  let fmt := [112; 105; 100; 32; 37; 100; 58; 32; 37; 120] in
  printf (fun _ => []) demo_args fmt = [112; 105; 100; 32; 45; 55; 58; 32; 70; 70] /\
  exists cs, lower <$> cs = lower <$> printf (fun _ => []) demo_args fmt /\
    (no_conv [120; 112] fmt = true -> cs = printf (fun _ => []) demo_args fmt) /\
    wp (cprintf (fun _ => []) demo_args true fmt)
      (fun _ s' => rel_c false (has_uart demo_scr) s'
         (show (concat (map (echo (has_uart demo_scr)) cs)) (as_line (asys0 demo_scr))))
      (sy_c (csys0 demo_scr)).
Proof.
  intros fmt. split; [vm_compute; reflexivity|].
  apply (cprintf_prints (fun _ => []) demo_args (has_uart demo_scr) fmt (sy_c (csys0 demo_scr))
    (as_line (asys0 demo_scr))).
  - apply (rel_init demo_scr demo_scr_ok).
  - reflexivity.
Defined.
