(* ===== verification/Umalloc.v ===== *)
(** umalloc.c: the memory allocator of the user library.

    The free blocks are a circular list in the memory of the process, each with a header of
    two words, the pointer to the next block and the size in units of 8 bytes. [base] is the
    address of the header of size 0 that the list starts with. sbrk() is the system call of
    sysproc.c seen by the process: [frames sz n] says whether the kernel has the memory for
    [n] more bytes after [sz]. [None] is a loop that used up its fuel. *)

From S2P Require Export Mem Mmu.

Open Scope Z_scope.

Record ust := mkUst { um : mem; freep : Z; brk : Z }.

Definition h_ptr (m : mem) (p : Z) : Z := rd32 m p.
Definition h_size (m : mem) (p : Z) : Z := rd32 m (p + 4).
Definition set_ptr (p v : Z) (m : mem) : mem := wr32 m p v.
Definition set_size (p v : Z) (m : mem) : mem := wr32 m (p + 4) v.

(** [p + n] for a [Header *p] *)
Definition hplus (p n : Z) : Z := u32 (p + 8 * n).

(** The loop of free(): the free block after which [bp] belongs. *)
Fixpoint free_find (fuel : nat) (m : mem) (bp p : Z) : option Z :=
  match fuel with
  | O => None
  | S f =>
      let q := h_ptr m p in
      if (p <? bp) && (bp <? q) then Some p
      else if (q <=? p) && ((p <? bp) || (bp <? q)) then Some p
      else free_find f m bp q
  end.

(** Enough for the blocks between 0 and [brk]. *)
Definition heap_fuel (s : ust) : nat := S (Z.to_nat (brk s / 8)).

(** The rest of free(), the two merges. *)
Definition free_link (bp p : Z) (m : mem) : mem :=
  let m :=
    if hplus bp (h_size m bp) =? h_ptr m p then
      let m := set_size bp (h_size m bp + h_size m (h_ptr m p)) m in
      set_ptr bp (h_ptr m (h_ptr m p)) m
    else set_ptr bp (h_ptr m p) m in
  if hplus p (h_size m p) =? bp then
    let m := set_size p (h_size m p + h_size m bp) m in
    set_ptr p (h_ptr m bp) m
  else set_ptr p bp m.

Definition free (ap : Z) (s : ust) : option ust :=
  let bp := u32 (ap - 8) in
  match free_find (heap_fuel s) (um s) bp (freep s) with
  | None => None
  | Some p => Some (mkUst (free_link bp p (um s)) p (brk s))
  end.

Section Malloc.
Context (base : Z) (frames : Z -> Z -> bool).

(** sbrk() through growproc(), allocuvm() and deallocuvm(): the old size, or -1 ([None]). *)
Definition sbrk (n : Z) (s : ust) : option (Z * ust) :=
  let sz := brk s in
  let newsz := u32 (sz + n) in
  if 0 <? n then
    if KERNBASE <=? newsz then None
    else if newsz <? sz then Some (sz, s)
    else if frames sz n then Some (sz, mkUst (um s) (freep s) newsz) else None
  else if n <? 0 then
    if sz <=? newsz then Some (sz, s)
    else if newsz =? 0 then None else Some (sz, mkUst (um s) (freep s) newsz)
  else Some (sz, s).

(** A null pointer when there is no memory. *)
Definition morecore (nu : Z) (s : ust) : option (Z * ust) :=
  let nu := if nu <? 4096 then 4096 else nu in
  match sbrk (s32 (nu * 8)) s with
  | None => Some (0, s)
  | Some (hp, s) =>
      match free (hp + 8) (mkUst (set_size hp nu (um s)) (freep s) (brk s)) with
      | None => None
      | Some s => Some (freep s, s)
      end
  end.

(** A block [p] after [prevp] that is large enough: it is unlinked, or its tail is cut off. *)
Definition take_block (nunits prevp p : Z) (s : ust) : Z * ust :=
  let m := um s in
  if h_size m p =? nunits then (u32 (p + 8), mkUst (set_ptr prevp (h_ptr m p) m) prevp (brk s))
  else
    let m := set_size p (h_size m p - nunits) m in
    let p := hplus p (h_size m p) in
    let m := set_size p nunits m in
    (u32 (p + 8), mkUst m prevp (brk s)).

Fixpoint malloc_loop (fuel : nat) (nunits prevp p : Z) (s : ust) : option (Z * ust) :=
  match fuel with
  | O => None
  | S f =>
      if nunits <=? h_size (um s) p then Some (take_block nunits prevp p s)
      else if p =? freep s then
        match morecore nunits s with
        | None => None
        | Some (p, s) => if p =? 0 then Some (0, s) else malloc_loop f nunits p (h_ptr (um s) p) s
        end
      else malloc_loop f nunits p (h_ptr (um s) p) s
  end.

Definition units (nbytes : Z) : Z := u32 (u32 (nbytes + 8 - 1) / 8 + 1).

Definition malloc_init (s : ust) : ust :=
  if freep s =? 0 then mkUst (set_size base 0 (set_ptr base base (um s))) base (brk s) else s.

(** Once around the list, and once more after morecore(). *)
Definition malloc (nbytes : Z) (s : ust) : option (Z * ust) :=
  let s := malloc_init s in
  malloc_loop (2 * heap_fuel s + 2) (units nbytes) (freep s) (h_ptr (um s) (freep s)) s.

End Malloc.

(** ** umalloc.c hands out memory that nobody else has: the free list stays sorted and circular,
    blocks do not overlap, and the allocator touches no byte of a block in use. *)

(** A block: the address of its header and its size in units. *)
Abbreviation block := (Z * Z)%type.

Definition b_end (b : block) : Z := b.1 + 8 * b.2.

(** Two blocks do not overlap. *)
Definition apart (x y : block) : Prop := b_end x <= y.1 \/ b_end y <= x.1.

Fixpoint sep (l : list block) : Prop :=
  match l with
  | [] => True
  | x :: l' => Forall (apart x) l' /\ sep l'
  end.

(** The headers [l] are linked, the last one to [z]. *)
Fixpoint linked (m : mem) (l : list Z) (z : Z) : Prop :=
  match l with
  | [] => True
  | a :: l' => h_ptr m a = hd z l' /\ linked m l' z
  end.

Definition total (l : list block) : Z := foldr (fun b n => b.2 + n) 0 l.

(** *** Headers in memory *)

(** Two headers are the same or do not overlap. *)
Definition hdr_ok (p q : Z) : Prop := p = q \/ p + 8 <= q \/ q + 8 <= p.

Section Headers.
Context (m : mem) (p q v : Z) (Hpq : hdr_ok p q).

Lemma h_ptr_set_ptr : h_ptr (set_ptr p v m) q = if decide (q = p) then u32 v else h_ptr m q.
Proof.
  unfold h_ptr, set_ptr. case_decide; subst; [apply rd32_wr32_eq|]. apply rd32_wr32_ne.
  unfold hdr_ok in Hpq. lia.
Qed.

Lemma h_ptr_set_size : h_ptr (set_size p v m) q = h_ptr m q.
Proof. unfold h_ptr, set_size. apply rd32_wr32_ne. unfold hdr_ok in Hpq. lia. Qed.

Lemma h_size_set_ptr : h_size (set_ptr p v m) q = h_size m q.
Proof. unfold h_size, set_ptr. apply rd32_wr32_ne. unfold hdr_ok in Hpq. lia. Qed.

Lemma h_size_set_size : h_size (set_size p v m) q = if decide (q = p) then u32 v else h_size m q.
Proof.
  unfold h_size, set_size. case_decide; subst; [apply rd32_wr32_eq|]. apply rd32_wr32_ne.
  unfold hdr_ok in Hpq. lia.
Qed.
End Headers.

Lemma rd_set_ptr m p v a : ~ (p <= a < p + 8) -> rd (set_ptr p v m) a = rd m a.
Proof. intros H. apply rd_wr32_ne. lia. Qed.

Lemma rd_set_size m p v a : ~ (p <= a < p + 8) -> rd (set_size p v m) a = rd m a.
Proof. intros H. apply rd_wr32_ne. lia. Qed.

Lemma h_ptr_ext m m' p : (forall a, p <= a < p + 8 -> rd m' a = rd m a) -> h_ptr m' p = h_ptr m p.
Proof. intros H. apply rd32_ext. intros. apply H. lia. Qed.

Lemma h_size_ext m m' p : (forall a, p <= a < p + 8 -> rd m' a = rd m a) -> h_size m' p = h_size m p.
Proof. intros H. apply rd32_ext. intros. apply H. lia. Qed.

(** *** Linked lists *)

Lemma linked_app m l1 l2 z : linked m (l1 ++ l2) z <-> linked m l1 (hd z l2) /\ linked m l2 z.
Proof.
  induction l1 as [|a l1 IH]; simpl; [naive_solver|]. rewrite IH. destruct l1; simpl; naive_solver.
Qed.

Lemma linked_ext m m' l z : (forall a, a ∈ l -> h_ptr m' a = h_ptr m a) -> linked m l z -> linked m' l z.
Proof.
  induction l as [|a l IH]; simpl; [done|]. intros H [Ha Hl]. split.
  - rewrite H by set_solver. done.
  - apply IH; [|done]. intros. apply H. set_solver.
Qed.

(** A circular list can be entered anywhere. *)
Lemma linked_rotate m l1 a l2 z :
  linked m (l1 ++ a :: l2) z -> hd z (l1 ++ a :: l2) = z -> linked m (a :: l2 ++ l1) a.
Proof.
  intros H Hz. apply linked_app in H as [H1 H2]. rewrite app_comm_cons. apply linked_app. simpl in H1. split.
  - destruct l1 as [|b l1]; simpl in *; by subst.
  - done.
Qed.

(** *** Blocks that do not overlap *)

Lemma apart_comm x y : apart x y -> apart y x.
Proof. unfold apart. tauto. Qed.

Lemma sep_app l1 l2 : sep (l1 ++ l2) <-> sep l1 /\ sep l2 /\ Forall (fun x => Forall (apart x) l2) l1.
Proof.
  induction l1 as [|x l1 IH]; simpl; [split; [by intros; split_and!|tauto]|].
  rewrite Forall_app, Forall_cons, IH. tauto.
Qed.

Lemma sep_perm l1 l2 : l1 ≡ₚ l2 -> sep l1 -> sep l2.
Proof.
  induction 1 as [|x l1 l2 Hp IH|x y l|l1 l2 l3 _ IH1 _ IH2]; simpl; [done| | |tauto].
  - intros [Hx Hs]. split; [by rewrite <- Hp|auto].
  - intros (Hx & Hy & Hs). inversion Hx; subst. split_and!; try done. constructor; [by apply apart_comm|done].
Qed.

Lemma total_app l1 l2 : total (l1 ++ l2) = total l1 + total l2.
Proof. unfold total. induction l1 as [|x l1 IH]; simpl; [done|]. rewrite IH. lia. Qed.

Lemma total_perm l1 l2 : l1 ≡ₚ l2 -> total l1 = total l2.
Proof. unfold total. induction 1; simpl; lia. Qed.

(** *** Regions of blocks *)

(** Blocks between [lo] and [hi] that do not overlap. *)
Record geo (lo hi : Z) (l : list block) : Prop := {
  g_in : Forall (fun b => 1 <= b.2 /\ lo <= b.1 /\ b_end b <= hi) l;
  g_sep : sep l;
}.

(** The size of every block is in its header. *)
Definition sized (m : mem) (l : list block) : Prop := Forall (fun b => h_size m b.1 = b.2) l.

(** Only the header at [p] differs. *)
Definition only (p : Z) (m m' : mem) : Prop := forall a, ~ (p <= a < p + 8) -> rd m' a = rd m a.

Lemma geo_perm lo hi l1 l2 : l1 ≡ₚ l2 -> geo lo hi l1 -> geo lo hi l2.
Proof. intros Hp [Hi Hs]. split; [by rewrite <- Hp|by eapply sep_perm]. Qed.

Lemma geo_sub lo hi l1 l2 : l1 ⊆+ l2 -> geo lo hi l2 -> geo lo hi l1.
Proof.
  intros [k Hk]%submseteq_Permutation Hg. apply (geo_perm _ _ _ _ Hk) in Hg as [Hi Hs].
  apply Forall_app in Hi as [Hi _]. apply sep_app in Hs as [Hs _]. by split.
Qed.

Lemma sized_perm m l1 l2 : l1 ≡ₚ l2 -> sized m l1 -> sized m l2.
Proof. intros Hp. unfold sized. by rewrite Hp. Qed.

Lemma sized_sub m l1 l2 : l1 ⊆+ l2 -> sized m l2 -> sized m l1.
Proof.
  intros [k Hk]%submseteq_Permutation Hs. apply (sized_perm _ _ _ Hk) in Hs. by apply Forall_app in Hs as [Hs _].
Qed.

Lemma geo_cons lo hi b l : geo lo hi (b :: l) -> geo lo hi l.
Proof. intros [Hi [_ Hs]]. split; [by inversion Hi|done]. Qed.

Lemma geo_hi lo hi hi' l : hi <= hi' -> geo lo hi l -> geo lo hi' l.
Proof. intros Hh [Hi Hs]. split; [|done]. eapply Forall_impl; [exact Hi|]. simpl. lia. Qed.

(** Two neighbours become one block. *)
Lemma geo_merge lo hi x y l :
  geo lo hi (x :: y :: l) -> b_end x = y.1 -> geo lo hi ((x.1, x.2 + y.2) :: l).
Proof.
  intros [Hi (Hx & Hy & Hs)] He. apply Forall_cons in Hi as [Hix Hi]. apply Forall_cons in Hi as [Hiy Hi].
  apply Forall_cons in Hx as [_ Hx]. unfold b_end in *. split.
  - constructor; [|done]. unfold b_end. cbn [fst snd]. lia.
  - split; [|done]. rewrite Forall_forall in *. intros z Hz. specialize (Hx z Hz). specialize (Hy z Hz).
    specialize (Hi z Hz). unfold apart, b_end in *. cbn [fst snd] in *. lia.
Qed.

(** A block becomes two. *)
Lemma geo_split lo hi x k l :
  geo lo hi (x :: l) -> 1 <= k < x.2 -> geo lo hi ((x.1 + 8 * (x.2 - k), k) :: (x.1, x.2 - k) :: l).
Proof.
  intros [Hi (Hx & Hs)] Hk. apply Forall_cons in Hi as [Hix Hi]. unfold b_end in *. split.
  - repeat constructor; unfold b_end; cbn [fst snd]; [lia..|done].
  - rewrite Forall_forall in Hx.
    assert (Hall : forall z, z ∈ l -> apart (x.1 + 8 * (x.2 - k), k) z /\ apart (x.1, x.2 - k) z).
    { intros z Hz. specialize (Hx z Hz). unfold apart, b_end in *. cbn [fst snd] in *. lia. }
    cbn [sep]. rewrite Forall_cons, !Forall_forall. split_and!; [|apply Hall..|done].
    unfold apart, b_end. cbn [fst snd]. lia.
Qed.

(** The header of another block is somewhere else. *)
Lemma geo_apart lo hi x l y : geo lo hi (x :: l) -> y ∈ l -> x.1 + 8 <= y.1 \/ y.1 + 8 <= x.1.
Proof.
  intros [Hi (Hx & _)] Hy. rewrite Forall_forall in Hx. apply Hx in Hy as H.
  apply Forall_cons in Hi as [Hix Hi]. rewrite Forall_forall in Hi. specialize (Hi y Hy).
  unfold apart, b_end in *. lia.
Qed.

Lemma only_h_ptr p m m' q : only p m m' -> p + 8 <= q \/ q + 8 <= p -> h_ptr m' q = h_ptr m q.
Proof. intros Ho Hq. apply h_ptr_ext. intros a Ha. apply Ho. lia. Qed.

Lemma only_h_size p m m' q : only p m m' -> p + 8 <= q \/ q + 8 <= p -> h_size m' q = h_size m q.
Proof. intros Ho Hq. apply h_size_ext. intros a Ha. apply Ho. lia. Qed.

Lemma only_sized lo hi x m m' l : only x.1 m m' -> geo lo hi (x :: l) -> sized m l -> sized m' l.
Proof.
  unfold sized. rewrite !Forall_forall. intros Ho Hg Hs b Hb. rewrite <- (Hs b Hb).
  eapply only_h_size; [exact Ho|]. by eapply geo_apart.
Qed.

Lemma only_linked lo hi x m m' (l l' : list block) z :
  only x.1 m m' -> geo lo hi (x :: l) -> (forall b, b ∈ l' -> b ∈ l) ->
  linked m l'.*1 z -> linked m' l'.*1 z.
Proof.
  intros Ho Hg Hsub. apply linked_ext. intros a Ha. apply list_elem_of_fmap in Ha as (b & -> & Hb).
  eapply only_h_ptr; [exact Ho|]. eapply geo_apart; [exact Hg|auto].
Qed.

Lemma only_set_ptr p v m : only p m (set_ptr p v m).
Proof. intros a Ha. by apply rd_set_ptr. Qed.

Lemma only_set_size p v m : only p m (set_size p v m).
Proof. intros a Ha. by apply rd_set_size. Qed.

Lemma only_trans p m1 m2 m3 : only p m1 m2 -> only p m2 m3 -> only p m1 m3.
Proof. intros H1 H2 a Ha. by rewrite H2, H1. Qed.

Lemma h_ptr_set_ptr_eq m p v : 0 <= v < 2 ^ 32 -> h_ptr (set_ptr p v m) p = v.
Proof. intros Hv. rewrite h_ptr_set_ptr by (by left). rewrite decide_True by done. by apply Z.mod_small. Qed.

Lemma h_size_set_size_eq m p v : 0 <= v < 2 ^ 32 -> h_size (set_size p v m) p = v.
Proof. intros Hv. rewrite h_size_set_size by (by left). rewrite decide_True by done. by apply Z.mod_small. Qed.

Lemma h_size_set_ptr_eq m p v : h_size (set_ptr p v m) p = h_size m p.
Proof. apply h_size_set_ptr. by left. Qed.

Lemma h_ptr_set_size_eq m p v : h_ptr (set_size p v m) p = h_ptr m p.
Proof. apply h_ptr_set_size. by left. Qed.

(** *** Merging *)

(** The first half of free(): [bp] gets its successor, or swallows it. *)
Definition link_right (bp p : Z) (m : mem) : mem :=
  if hplus bp (h_size m bp) =? h_ptr m p then
    let m := set_size bp (h_size m bp + h_size m (h_ptr m p)) m in
    set_ptr bp (h_ptr m (h_ptr m p)) m
  else set_ptr bp (h_ptr m p) m.

Definition link_left (bp p : Z) (m : mem) : mem :=
  if hplus p (h_size m p) =? bp then
    let m := set_size p (h_size m p + h_size m bp) m in
    set_ptr p (h_ptr m bp) m
  else set_ptr p bp m.

Lemma free_link_eq bp p m : free_link bp p m = link_left bp p (link_right bp p m).
Proof. done. Qed.

Section Merging.
Context (base hi : Z) (Hbase : 0 < base) (Hhi : base + 8 <= hi < 2 ^ 31).

(** The header of size 0 counts as a block here. *)
Lemma geo_base l : geo (base + 8) hi l -> geo base hi ((base, 1) :: l).
Proof.
  intros [Hi Hs]. split.
  - constructor; [unfold b_end; simpl; lia|]. eapply Forall_impl; [exact Hi|]. simpl. lia.
  - split; [|done]. eapply Forall_impl; [exact Hi|]. unfold apart, b_end. simpl. lia.
Qed.

(** What a changed header must hold. *)
Lemma relink bp n (F rest : list block) lo m m1 :
  only bp m m1 -> geo lo hi ((bp, n) :: F ++ rest) -> sized m (F ++ rest) -> linked m F.*1 base ->
  h_size m1 bp = n -> h_ptr m1 bp = hd base F.*1 ->
  sized m1 ((bp, n) :: F ++ rest) /\ linked m1 (bp :: F.*1) base.
Proof.
  intros Ho Hg Hs Hl Hn Hp. split.
  - constructor; [done|]. by eapply (only_sized _ _ (bp, n)).
  - split; [done|]. eapply (only_linked _ _ (bp, n)); [exact Ho|exact Hg| |done]. set_solver.
Qed.

Lemma geo_bounds lo l b : 0 < lo -> geo lo hi l -> b ∈ l -> 0 <= b.1 /\ 1 <= b.2 /\ lo <= b.1 /\ b.1 + 8 * b.2 <= hi.
Proof. intros Hlo [Hi _] Hb. rewrite Forall_forall in Hi. specialize (Hi b Hb). unfold b_end in Hi. lia. Qed.

Lemma hd_bounds (F rest : list block) : geo (base + 8) hi (F ++ rest) -> 0 <= hd base F.*1 < 2 ^ 32.
Proof.
  intros Hg. destruct F as [|b F]; simpl; [lia|].
  pose proof (geo_bounds (base + 8) _ b ltac:(lia) Hg ltac:(set_solver)). lia.
Qed.

Lemma hplus_eq p n : 0 <= p -> 0 <= n -> p + 8 * n <= hi -> hplus p n = p + 8 * n.
Proof. intros. unfold hplus, u32. apply Z.mod_small. lia. Qed.

Lemma link_right_ok bp n F2 rest p m :
  geo (base + 8) hi ((bp, n) :: F2 ++ rest) -> sized m ((bp, n) :: F2 ++ rest) ->
  linked m F2.*1 base -> h_ptr m p = hd base F2.*1 -> p + 8 <= bp ->
  exists n1 pre F2', F2 = pre ++ F2' /\ n <= n1 /\ n1 + total F2' = n + total F2 /\
    only bp m (link_right bp p m) /\
    geo (base + 8) hi ((bp, n1) :: F2' ++ rest) /\ sized (link_right bp p m) ((bp, n1) :: F2' ++ rest) /\
    linked (link_right bp p m) (bp :: F2'.*1) base.
Proof.
  intros Hg Hs Hl Hp Hlt. apply Forall_cons in Hs as [Hn Hs]. cbn [fst snd] in Hn.
  pose proof (geo_bounds (base + 8) _ (bp, n) ltac:(lia) Hg ltac:(set_solver)) as Hb. cbn [fst snd] in Hb.
  pose proof (hd_bounds _ _ (geo_cons _ _ _ _ Hg)) as Hhd.
  unfold link_right. rewrite Hn, Hp, hplus_eq by lia.
  assert (Hkeep : exists n1 pre F2', F2 = pre ++ F2' /\ n <= n1 /\ n1 + total F2' = n + total F2 /\
    only bp m (set_ptr bp (hd base F2.*1) m) /\
    geo (base + 8) hi ((bp, n1) :: F2' ++ rest) /\ sized (set_ptr bp (hd base F2.*1) m) ((bp, n1) :: F2' ++ rest) /\
    linked (set_ptr bp (hd base F2.*1) m) (bp :: F2'.*1) base).
  { exists n, [], F2. split; [done|]. split; [done|]. split; [done|].
    pose proof (only_set_ptr bp (hd base F2.*1) m) as Ho. split; [done|]. split; [done|].
    eapply relink; [exact Ho|exact Hg|done|done| |]; [by rewrite h_size_set_ptr_eq|by apply h_ptr_set_ptr_eq]. }
  destruct (Z.eqb_spec (bp + 8 * n) (hd base F2.*1)) as [E|E]; [|exact Hkeep]. clear Hkeep.
  destruct F2 as [|[q nq] F2']; [simpl in E; lia|].
  rewrite fmap_cons in *. cbn [hd fst linked] in *.
  revert Hp. subst q. intros Hp.
  apply Forall_cons in Hs as [Hq Hs]. cbn [fst snd] in Hq. rewrite Hq. destruct Hl as [Hlq Hl].
  set (m' := set_size bp (n + nq) m).
  assert (Hp' : h_ptr m' p = bp + 8 * n).
  { unfold m'. rewrite h_ptr_set_size; [done|]. unfold hdr_ok. lia. }
  assert (Hq' : h_ptr m' (bp + 8 * n) = hd base F2'.*1).
  { unfold m'. rewrite h_ptr_set_size; [done|]. unfold hdr_ok. lia. }
  rewrite Hp', Hq'. pose proof (geo_merge _ _ _ _ _ Hg eq_refl) as Hg'. cbn [fst snd] in Hg'.
  pose proof (geo_bounds (base + 8) _ (bp, n + nq) ltac:(lia) Hg' ltac:(set_solver)) as Hb'. cbn [fst snd] in Hb'.
  pose proof (geo_bounds (base + 8) _ (bp + 8 * n, nq) ltac:(lia) Hg ltac:(set_solver)) as Hbq. cbn [fst snd] in Hbq.
  pose proof (hd_bounds _ _ (geo_cons _ _ _ _ Hg')) as Hhd'.
  assert (Ho : only bp m (set_ptr bp (hd base F2'.*1) m')).
  { eapply only_trans; [apply only_set_size|apply only_set_ptr]. }
  exists (n + nq), [(bp + 8 * n, nq)], F2'. split; [done|]. split; [lia|]. split; [simpl; lia|]. split; [done|]. split; [done|].
  eapply relink; [exact Ho|exact Hg'|done|done| |]; [|by apply h_ptr_set_ptr_eq].
  rewrite h_size_set_ptr_eq. unfold m'. apply h_size_set_size_eq. lia.
Qed.

(** After the second half of free() the blocks [F1], the block at [bp] and [F2] are one list,
    in which [bp] may be merged with the last block of [F1]. *)
Definition joined (bp n1 : Z) (F1 F2 fr : list block) : Prop :=
  total fr = total F1 + n1 + total F2 /\
  (fr.*1 = F1.*1 ++ bp :: F2.*1 \/ fr.*1 = F1.*1 ++ F2.*1) /\
  (exists b, b ∈ fr /\ n1 <= b.2).

Lemma link_left_base bp n1 F2 lv m :
  geo (base + 8) hi ((bp, n1) :: F2 ++ lv) -> sized m ((bp, n1) :: F2 ++ lv) ->
  linked m (bp :: F2.*1) base -> h_size m base = 0 ->
  let m2 := link_left bp base m in
  only base m m2 /\ h_size m2 base = 0 /\ sized m2 ((bp, n1) :: F2 ++ lv) /\
  linked m2 (base :: bp :: F2.*1) base.
Proof.
  intros Hg Hs Hl H0 m2.
  pose proof (geo_bounds (base + 8) _ (bp, n1) ltac:(lia) Hg ltac:(set_solver)) as Hb. cbn [fst snd] in Hb.
  assert (E : m2 = set_ptr base bp m).
  { unfold m2, link_left. rewrite H0, hplus_eq by lia. by rewrite (proj2 (Z.eqb_neq _ _)) by lia. }
  pose proof (only_set_ptr base bp m) as Ho. rewrite <- E in Ho.
  assert (Hsz : h_size m2 base = 0) by (by rewrite E, h_size_set_ptr_eq).
  split; [done|]. split; [done|]. pose proof (geo_base _ Hg) as Hgb. split.
  - by eapply (only_sized _ _ (base, 1)).
  - split; [rewrite E; simpl; apply h_ptr_set_ptr_eq; lia|].
    eapply (only_linked _ _ (base, 1) m m2 _ ((bp, n1) :: F2)); [exact Ho|exact Hgb| |done]. set_solver.
Qed.

(** The blocks before [p] do not notice a change of its header. *)
Lemma keep_left p np (rest F1 : list block) m m2 :
  geo (base + 8) hi ((p, np) :: rest) -> (forall b, b ∈ F1 -> b ∈ rest) -> only p m m2 ->
  h_size m base = 0 -> linked m (base :: F1.*1) p ->
  h_size m2 base = 0 /\ linked m2 (base :: F1.*1) p.
Proof.
  intros Hg Hsub Ho H0 Hl.
  pose proof (geo_bounds (base + 8) _ (p, np) ltac:(lia) Hg ltac:(set_solver)) as Hp. cbn [fst snd] in Hp. split.
  - rewrite <- H0. eapply only_h_size; [exact Ho|lia].
  - revert Hl. apply linked_ext. intros a Ha. eapply only_h_ptr; [exact Ho|].
    apply elem_of_cons in Ha as [->|Ha]; [lia|]. apply list_elem_of_fmap in Ha as (b & -> & Hb').
    apply (geo_apart _ _ _ _ b Hg). auto.
Qed.

(** The block at [p], with its new header, in the list. *)
Lemma insert_after p np (F1 F lv : list block) m m2 :
  geo (base + 8) hi ((p, np) :: F1 ++ F ++ lv) -> sized m (F1 ++ F ++ lv) ->
  linked m (base :: F1.*1) p -> linked m F.*1 base -> h_size m base = 0 ->
  only p m m2 -> h_size m2 p = np -> h_ptr m2 p = hd base F.*1 ->
  h_size m2 base = 0 /\ geo (base + 8) hi ((F1 ++ (p, np) :: F) ++ lv) /\
  sized m2 ((F1 ++ (p, np) :: F) ++ lv) /\ linked m2 (base :: (F1 ++ (p, np) :: F).*1) base.
Proof.
  intros Hg Hs Hl1 Hl2 H0 Ho Hn Hp.
  assert (Hperm : (p, np) :: F ++ F1 ++ lv ≡ₚ (p, np) :: F1 ++ F ++ lv) by solve_Permutation.
  assert (Hperm' : (p, np) :: F ++ F1 ++ lv ≡ₚ (F1 ++ (p, np) :: F) ++ lv) by solve_Permutation.
  pose proof (geo_perm _ _ _ _ (symmetry Hperm) Hg) as Hg'.
  destruct (relink p np F (F1 ++ lv) (base + 8) m m2) as [Hs2 Hl]; auto.
  { eapply sized_perm; [|exact Hs]. solve_Permutation. }
  destruct (keep_left p np _ F1 m m2 Hg) as [Hsz HlF]; auto; [set_solver|]. split_and!.
  - done.
  - by eapply geo_perm.
  - by eapply sized_perm.
  - rewrite fmap_app, fmap_cons, app_comm_cons. apply linked_app. by split.
Qed.

Lemma link_left_block bp n1 F1 p np F2 lv m z :
  geo (base + 8) hi ((bp, n1) :: (p, np) :: F1 ++ F2 ++ lv) ->
  sized m ((bp, n1) :: (p, np) :: F1 ++ F2 ++ lv) ->
  linked m (bp :: F2.*1) base -> linked m (base :: F1.*1 ++ [p]) z ->
  h_size m base = 0 ->
  let m2 := link_left bp p m in
  only p m m2 /\ h_size m2 base = 0 /\
  exists fr, joined bp n1 (F1 ++ [(p, np)]) F2 fr /\ p ∈ fr.*1 /\
    geo (base + 8) hi (fr ++ lv) /\ sized m2 (fr ++ lv) /\ linked m2 (base :: fr.*1) base.
Proof.
  intros Hg Hs Hl HlF H0 m2. pose proof (eq_refl : m2 = link_left bp p m) as Em. clearbody m2.
  pose proof (geo_bounds (base + 8) _ (bp, n1) ltac:(lia) Hg ltac:(set_solver)) as Hb.
  pose proof (geo_bounds (base + 8) _ (p, np) ltac:(lia) Hg ltac:(set_solver)) as Hp. cbn [fst snd] in Hb, Hp.
  apply Forall_cons in Hs as [Hsb Hs]. apply Forall_cons in Hs as [Hsp Hs]. cbn [fst snd] in Hsb, Hsp.
  assert (Hswap : geo (base + 8) hi ((p, np) :: (bp, n1) :: F1 ++ F2 ++ lv)).
  { eapply geo_perm; [|exact Hg]. apply perm_swap. }
  change (base :: F1.*1 ++ [p]) with ((base :: F1.*1) ++ [p]) in HlF.
  apply linked_app in HlF as [HlF _]. simpl hd in HlF.
  unfold link_left in Em. rewrite Hsp, hplus_eq in Em by lia. destruct (Z.eqb_spec (p + 8 * np) bp) as [E|E].
  - set (m' := set_size p (np + h_size m bp) m) in *.
    assert (Hbp : h_ptr m' bp = hd base F2.*1).
    { unfold m'. rewrite h_ptr_set_size; [apply Hl|]. unfold hdr_ok. lia. }
    rewrite Hbp in Em. assert (Ho : only p m m2).
    { rewrite Em. eapply only_trans; [apply only_set_size|apply only_set_ptr]. }
    pose proof (geo_merge _ _ _ _ _ Hswap E) as Hg'. cbn [fst snd] in Hg'.
    pose proof (geo_bounds (base + 8) _ (p, np + n1) ltac:(lia) Hg' ltac:(set_solver)) as Hb'. cbn [fst snd] in Hb'.
    destruct (insert_after p (np + n1) F1 F2 lv m m2) as (Hz & Hg2 & Hs2 & Hl2); auto; [apply Hl| | |].
    + rewrite Em, h_size_set_ptr_eq. unfold m'. rewrite Hsb. apply h_size_set_size_eq. lia.
    + rewrite Em. apply h_ptr_set_ptr_eq. apply (hd_bounds F2 (F1 ++ lv)).
      eapply geo_perm; [|eapply geo_cons, Hg']. solve_Permutation.
    + split; [done|]. split; [done|]. exists (F1 ++ (p, np + n1) :: F2). split_and!; auto.
      * split_and!; [rewrite !total_app; simpl; lia| |].
        -- right. rewrite !fmap_app, fmap_cons. simpl. by rewrite <- app_assoc.
        -- exists (p, np + n1). split; [set_solver|simpl; lia].
      * rewrite fmap_app, elem_of_app. right. by left.
  - assert (Ho : only p m m2) by (rewrite Em; apply only_set_ptr).
    destruct (insert_after p np F1 ((bp, n1) :: F2) lv m m2) as (Hz & Hg2 & Hs2 & Hl2); auto.
    + eapply geo_perm; [|exact Hswap]. solve_Permutation.
    + eapply (sized_perm m ((bp, n1) :: F1 ++ F2 ++ lv)); [solve_Permutation|]. by constructor.
    + by rewrite Em, h_size_set_ptr_eq.
    + rewrite Em. apply (h_ptr_set_ptr_eq m p bp). lia.
    + split; [done|]. split; [done|]. exists (F1 ++ (p, np) :: (bp, n1) :: F2). split_and!; auto.
      * split_and!; [rewrite !total_app; simpl; lia| |].
        -- left. rewrite !fmap_app. simpl. by rewrite <- app_assoc.
        -- exists (bp, n1). split; [set_solver|done].
      * rewrite fmap_app, elem_of_app. right. by left.
Qed.

Lemma link_left_ok bp n1 F1 G p F2 lv m z :
  geo (base + 8) hi ((bp, n1) :: F2 ++ F1 ++ lv) -> sized m ((bp, n1) :: F2 ++ F1 ++ lv) ->
  linked m (bp :: F2.*1) base -> linked m (base :: F1.*1) z -> h_size m base = 0 ->
  base :: F1.*1 = G ++ [p] ->
  let m2 := link_left bp p m in
  only p m m2 /\ h_size m2 base = 0 /\
  exists fr, joined bp n1 F1 F2 fr /\ p ∈ base :: fr.*1 /\
    geo (base + 8) hi (fr ++ lv) /\ sized m2 (fr ++ lv) /\ linked m2 (base :: fr.*1) base.
Proof.
  intros Hg Hs Hl HlF H0 HG m2. destruct F1 as [|b0 F1'].
  - assert (p = base) as -> by (destruct G as [|? [|]]; simpl in HG; by simplify_eq).
    destruct (link_left_base bp n1 F2 lv m) as (Ho & Hz & Hs2 & Hl2); auto.
    split; [done|]. split; [done|]. exists ((bp, n1) :: F2). split_and!; auto.
    + split_and!; [done|by left|]. exists (bp, n1). split; [set_solver|done].
    + set_solver.
  - destruct (exists_last (l := b0 :: F1')) as (F1 & [p' np] & E); [done|]. rewrite E in *. clear E b0 F1'.
    rewrite fmap_app in HG, HlF. simpl fmap in HG, HlF. rewrite app_comm_cons in HG.
    apply app_inj_tail in HG as [<- ->].
    destruct (link_left_block bp n1 F1 p np F2 lv m z) as (Ho & Hz & fr & Hj & Hp & Hrest); auto.
    + eapply geo_perm; [|exact Hg]. solve_Permutation.
    + eapply sized_perm; [|exact Hs]. solve_Permutation.
    + split; [done|]. split; [done|]. exists fr. split_and!; try apply Hrest; [done|set_solver].
Qed.
End Merging.
