(* ===== verification/UmallocInv.v ===== *)
(** umalloc.c: free() and malloc() keep the invariant of the free list. *)

From S2P Require Export Umalloc.
From Stdlib Require Export Sorting.Sorted.

Open Scope Z_scope.

(** The free blocks [fr], in the order of their addresses, and the blocks in use [lv]. Together
    they are all the memory from [start] on. *)
Record inv (base start : Z) (s : ust) (fr lv : list block) : Prop := {
  i_base : 0 < base;
  i_brk : base + 8 <= brk s < 2 ^ 31;
  i_link : linked (um s) (base :: fr.*1) base;
  i_size0 : h_size (um s) base = 0;
  i_sized : sized (um s) (fr ++ lv);
  i_geo : geo (base + 8) (brk s) (fr ++ lv);
  i_sorted : StronglySorted Z.lt fr.*1;
  i_freep : freep s ∈ base :: fr.*1;
  i_full : 8 * total (fr ++ lv) = brk s - start;
}.

Lemma inv_perm base start s fr lv lv' : lv ≡ₚ lv' -> inv base start s fr lv -> inv base start s fr lv'.
Proof.
  intros Hp []. split; auto.
  - eapply sized_perm; [|done]. by rewrite Hp.
  - eapply geo_perm; [|done]. by rewrite Hp.
  - rewrite <- i_full0. f_equal. apply total_perm. by rewrite Hp.
Qed.

(** *** Sorted lists *)

Lemma sorted_app (l1 l2 : list Z) :
  StronglySorted Z.lt (l1 ++ l2) <->
  StronglySorted Z.lt l1 /\ StronglySorted Z.lt l2 /\ (forall x y, x ∈ l1 -> y ∈ l2 -> x < y).
Proof.
  induction l1 as [|a l1 IH]; simpl.
  - split; [intros H; split_and!; [constructor|done|set_solver]|tauto].
  - split.
    + intros H. apply StronglySorted_inv in H as [H Ha]. apply IH in H as (H1 & H2 & H12).
      rewrite Forall_app, !Forall_forall in Ha. destruct Ha as [Ha1 Ha2].
      split_and!; [constructor; [done|by apply Forall_forall]|done|].
      intros x y [->|Hx]%elem_of_cons Hy; auto.
    + intros (H1 & H2 & H12). apply StronglySorted_inv in H1 as [H1 Ha]. constructor.
      * apply IH. split_and!; auto. intros. apply H12; set_solver.
      * apply Forall_app. split; [done|]. apply Forall_forall. intros y Hy. apply H12; set_solver.
Qed.

Lemma split_at bp (fr : list block) :
  StronglySorted Z.lt fr.*1 -> (forall b, b ∈ fr -> b.1 <> bp) ->
  exists F1 F2, fr = F1 ++ F2 /\ (forall b, b ∈ F1 -> b.1 < bp) /\ (forall b, b ∈ F2 -> bp < b.1).
Proof.
  induction fr as [|b fr IH]; simpl; intros Hs Hne.
  - exists [], []. split_and!; [done|set_solver..].
  - apply StronglySorted_inv in Hs as [Hs Hb]. destruct (decide (b.1 < bp)) as [Hlt|Hge].
    + destruct IH as (F1 & F2 & -> & H1 & H2); [done|set_solver|]. exists (b :: F1), F2.
      split_and!; [done| |done]. intros x [->|Hx]%elem_of_cons; auto.
    + exists [], (b :: fr). split_and!; [done|set_solver|]. specialize (Hne b ltac:(set_solver)).
      intros x [->|Hx]%elem_of_cons; [lia|]. rewrite Forall_forall in Hb.
      specialize (Hb x.1 ltac:(by apply list_elem_of_fmap_2)). lia.
Qed.

(** Blocks of 8 bytes or more between two addresses are few. *)
Lemma count_blocks lo hi (l : list block) :
  lo <= hi -> StronglySorted Z.lt l.*1 -> geo lo hi l -> 8 * Z.of_nat (length l) <= hi - lo.
Proof.
  revert lo. induction l as [|b l IH]; intros lo Hlo Hs Hg; [simpl; lia|].
  rewrite fmap_cons in Hs. apply StronglySorted_inv in Hs as [Hs Hb]. pose proof Hg as [Hi _].
  apply Forall_cons in Hi as [Hib Hi]. unfold b_end in Hib.
  enough (8 * Z.of_nat (length l) <= hi - (b.1 + 8)) by (simpl length; lia).
  apply IH; [lia|done|]. split; [|by apply (geo_cons _ _ _ _ Hg)].
  rewrite Forall_forall in Hi. rewrite Forall_forall in Hb. apply Forall_forall. intros c Hc. specialize (Hi c Hc).
  specialize (Hb c.1 ltac:(by apply list_elem_of_fmap_2)). pose proof (geo_apart _ _ _ _ _ Hg Hc). lia.
Qed.

(** *** The search of free() *)

Definition found (m : mem) (bp p : Z) : bool :=
  let q := h_ptr m p in
  (p <? bp) && (bp <? q) || (q <=? p) && ((p <? bp) || (bp <? q)).

Lemma free_find_scan m bp R1 p R2 z fuel :
  linked m (R1 ++ p :: R2) z -> (forall x, x ∈ R1 -> found m bp x = false) -> found m bp p = true ->
  (length R1 < fuel)%nat -> free_find fuel m bp (hd p R1) = Some p.
Proof.
  revert fuel. induction R1 as [|x R1 IH]; intros fuel Hl Hf Hp Hn; (destruct fuel as [|fuel]; [simpl in Hn; lia|]);
    cbn [hd free_find].
  - unfold found in Hp. apply orb_true_iff in Hp as [-> | ->]; [done|]. by destruct (_ && _).
  - pose proof (Hf x ltac:(set_solver)) as Hx. unfold found in Hx. apply orb_false_iff in Hx as [-> ->].
    destruct Hl as [Hx Hl]. rewrite Hx.
    replace (hd z (R1 ++ p :: R2)) with (hd p R1) by (by destruct R1).
    apply IH; [done|set_solver|done|simpl in Hn; lia].
Qed.

(** In the sorted circular list exactly the predecessor of [bp] passes the test. *)
Lemma found_iff m base bp G1 p F2 :
  linked m (G1 ++ p :: F2) base -> StronglySorted Z.lt (G1 ++ p :: F2) ->
  hd base (G1 ++ p :: F2) = base -> p < bp -> (forall x, x ∈ F2 -> bp < x) ->
  found m bp p = true /\ forall x, x ∈ G1 ++ p :: F2 -> x <> p -> found m bp x = false.
Proof.
  intros Hl Hs Hh Hp HF. pose proof Hs as Hs0. apply sorted_app in Hs as (Hs1 & Hs2 & H12).
  assert (Hbase : base <= p).
  { destruct G1 as [|g G1]; simpl in Hh; subst; [lia|]. specialize (H12 base p ltac:(set_solver) ltac:(set_solver)). lia. }
  pose proof Hl as Hl0. apply linked_app in Hl as [Hl1 Hl2]. unfold found. split.
  - destruct Hl2 as [-> _]. destruct F2 as [|y F2]; simpl.
    + apply orb_true_iff. right. rewrite (proj2 (Z.leb_le _ _)), (proj2 (Z.ltb_lt p bp)) by lia. done.
    + specialize (HF y ltac:(set_solver)).
      rewrite (proj2 (Z.ltb_lt p bp)), (proj2 (Z.ltb_lt bp y)) by lia. done.
  - intros x Hx Hne. apply list_elem_of_split in Hx as (A & B & E). rewrite E in Hl0, Hs0.
    apply linked_app in Hl0 as [_ [Hq _]]. apply sorted_app in Hs0 as (_ & Hs0 & HA).
    apply StronglySorted_inv in Hs0 as [HsB HxB]. rewrite Forall_forall in HxB. rewrite Hq.
    assert (Hx : x ∈ G1 \/ x ∈ F2) by (assert (x ∈ G1 ++ p :: F2) by (rewrite E; set_solver); set_solver).
    destruct Hx as [Hx|Hx].
    + specialize (H12 x p Hx ltac:(set_solver)).
      assert (HpB : p ∈ B).
      { assert (Hp' : p ∈ A ++ x :: B) by (rewrite <- E; set_solver). apply elem_of_app in Hp' as [Hp'|Hp'].
        - specialize (HA p x Hp' ltac:(set_solver)). lia.
        - set_solver. }
      destruct B as [|y B]; [set_solver|]. specialize (HxB y ltac:(set_solver)). simpl hd.
      assert (y <= p).
      { apply StronglySorted_inv in HsB as [_ HyB]. rewrite Forall_forall in HyB.
        apply elem_of_cons in HpB as [->|HpB]; [lia|]. specialize (HyB p HpB). lia. }
      rewrite (proj2 (Z.ltb_ge bp y)), (proj2 (Z.leb_gt y x)) by lia. by rewrite andb_false_r.
    + specialize (HF x Hx). rewrite (proj2 (Z.ltb_ge x bp)) by lia. simpl.
      destruct B as [|y B]; simpl; [rewrite (proj2 (Z.ltb_ge bp base)) by lia; by rewrite andb_false_r|].
      specialize (HxB y ltac:(set_solver)). by rewrite (proj2 (Z.leb_gt y x)) by lia.
Qed.

(** From [a] around the circular list to [p]. *)
Lemma enter_at m L z a p :
  linked m L z -> hd z L = z -> a ∈ L -> p ∈ L ->
  exists R1 R2, linked m (R1 ++ p :: R2) a /\ hd p R1 = a /\
    (forall x, x ∈ R1 -> x ∈ L /\ x <> p) /\ (length R1 < length L)%nat.
Proof.
  intros Hl Hhd Ha Hp. apply list_elem_of_split in Ha as (A & B & ->).
  apply linked_rotate in Hl; [|done]. assert (Hin : p ∈ a :: B ++ A) by set_solver.
  apply list_elem_of_split_l in Hin as (R1 & R2 & ER & Hnin). exists R1, R2. rewrite <- ER. split_and!.
  - done.
  - destruct R1; simpl in ER; by simplify_eq.
  - intros x Hx. split; [|by intros ->]. assert (x ∈ a :: B ++ A) by (rewrite ER; set_solver). set_solver.
  - apply (f_equal length) in ER. rewrite length_app in *. simpl in *. rewrite length_app in ER. lia.
Qed.

Section Inv.
Context (base start : Z).

Lemma list_fuel s fr lv : inv base start s fr lv -> (length (base :: fr.*1) <= heap_fuel s)%nat.
Proof.
  intros []. unfold heap_fuel. simpl. rewrite length_fmap.
  assert (Hg : geo (base + 8) (brk s) fr).
  { destruct i_geo0 as [Hi Hs]. apply Forall_app in Hi as [Hi _]. apply sep_app in Hs as [Hs _]. by split. }
  pose proof (count_blocks (base + 8) (brk s) fr ltac:(lia) i_sorted0 Hg) as H.
  assert (Z.of_nat (length fr) <= brk s / 8) by (apply Z.div_le_lower_bound; lia). lia.
Qed.

Lemma sorted_base s fr lv : inv base start s fr lv -> StronglySorted Z.lt (base :: fr.*1).
Proof.
  intros []. constructor; [done|]. apply Forall_forall. intros a Ha. apply list_elem_of_fmap in Ha as (b & -> & Hb).
  destruct i_geo0 as [Hi _]. rewrite Forall_forall in Hi. specialize (Hi b ltac:(set_solver)). lia.
Qed.

Lemma free_find_ok s fr bp n lv :
  inv base start s fr ((bp, n) :: lv) ->
  exists F1 F2 G p, fr = F1 ++ F2 /\ base :: F1.*1 = G ++ [p] /\
    (forall b, b ∈ F1 -> b.1 < bp) /\ (forall b, b ∈ F2 -> bp < b.1) /\
    free_find (heap_fuel s) (um s) bp (freep s) = Some p.
Proof.
  intros Hinv. pose proof Hinv as [Hb Hbrk Hl H0 Hs Hg Hso Hf Hfull].
  assert (Hmid : geo (base + 8) (brk s) ((bp, n) :: fr ++ lv)).
  { eapply geo_perm; [|exact Hg]. solve_Permutation. }
  destruct (split_at bp fr Hso) as (F1 & F2 & -> & H1 & H2).
  { intros b Hbf E. pose proof (geo_apart _ _ _ _ b Hmid ltac:(set_solver)) as Ha. simpl in Ha. lia. }
  destruct (exists_last (l := base :: F1.*1)) as (G & p & HG); [done|]. exists F1, F2, G, p.
  split_and!; try done. rewrite fmap_app in *.
  change (base :: F1.*1 ++ F2.*1) with ((base :: F1.*1) ++ F2.*1) in *.
  pose proof (sorted_base _ _ _ Hinv) as Hsb. rewrite fmap_app in Hsb.
  change (base :: F1.*1 ++ F2.*1) with ((base :: F1.*1) ++ F2.*1) in *.
  pose proof (list_fuel _ _ _ Hinv) as Hfuel. rewrite fmap_app in Hfuel.
  change (base :: F1.*1 ++ F2.*1) with ((base :: F1.*1) ++ F2.*1) in *.
  rewrite HG, <- app_assoc in *. simpl app in *.
  assert (Hhd : hd base (G ++ p :: F2.*1) = base).
  { destruct G; simpl in *; by simplify_eq. }
  assert (Hp : p < bp).
  { assert (Hp : p ∈ base :: F1.*1) by (rewrite HG; set_solver). apply elem_of_cons in Hp as [->|Hp].
    - destruct Hmid as [Hi _]. apply Forall_cons in Hi as [Hi _]. simpl in Hi. lia.
    - apply list_elem_of_fmap in Hp as (b & -> & Hp). auto. }
  assert (HF2 : forall x, x ∈ F2.*1 -> bp < x).
  { intros x Hx. apply list_elem_of_fmap in Hx as (b & -> & Hx). auto. }
  destruct (found_iff _ _ _ _ _ _ Hl Hsb Hhd Hp HF2) as [Hfp Hother].
  destruct (enter_at _ _ _ (freep s) p Hl Hhd Hf ltac:(set_solver)) as (R1 & R2 & HlR & HhR & HR1 & HlenR).
  rewrite <- HhR.
  eapply free_find_scan; [exact HlR| |done|lia]. intros x Hx. destruct (HR1 x Hx). by apply Hother.
Qed.

(** Blocks in use keep their bytes. *)
Definition kept (lv : list block) (m m' : mem) : Prop :=
  forall b a, b ∈ lv -> b.1 <= a < b_end b -> rd m' a = rd m a.

Lemma kept_bytes_trans lv m1 m2 m3 : kept lv m1 m2 -> kept lv m2 m3 -> kept lv m1 m3.
Proof. intros H1 H2 b a Hb Ha. by rewrite (H2 b a), (H1 b a). Qed.

Lemma only_kept lo hi x lv m m' : only x.1 m m' -> geo lo hi (x :: lv) -> kept lv m m'.
Proof.
  intros Ho [Hi (Hx & _)] b a Hb Ha. apply Ho. apply Forall_cons in Hi as [Hi _].
  rewrite Forall_forall in Hx. specialize (Hx b Hb). unfold apart, b_end in *. lia.
Qed.

Lemma only_kept_in lo hi p (l lv : list block) m m' :
  only p m m' -> geo lo hi (l ++ lv) -> p ∈ l.*1 -> kept lv m m'.
Proof.
  intros Ho Hg Hp. apply list_elem_of_fmap in Hp as (x & -> & Hx). apply list_elem_of_split in Hx as (A & B & ->).
  eapply only_kept; [exact Ho|]. eapply geo_sub; [|exact Hg]. rewrite <- app_assoc. simpl.
  apply submseteq_inserts_l, submseteq_skip, submseteq_inserts_l. done.
Qed.

Lemma joined_sorted bp n1 F1 F2 F2' pre fr :
  joined bp n1 F1 F2' fr -> F2 = pre ++ F2' -> StronglySorted Z.lt (F1 ++ F2).*1 ->
  (forall b, b ∈ F1 -> b.1 < bp) -> (forall b, b ∈ F2 -> bp < b.1) -> StronglySorted Z.lt fr.*1.
Proof.
  intros (_ & Hfr & _) -> Hs H1 H2. rewrite !fmap_app in Hs.
  apply sorted_app in Hs as (Hs1 & Hs2 & H12). apply sorted_app in Hs2 as (_ & Hs2 & _).
  assert (HF2' : StronglySorted Z.lt (F1.*1 ++ F2'.*1)).
  { apply sorted_app. split_and!; auto. intros x y Hx Hy. apply H12; set_solver. }
  destruct Hfr as [-> | ->]; [|done]. apply sorted_app in HF2' as (_ & _ & H12'). apply sorted_app. split_and!; auto.
  - constructor; [done|]. apply Forall_forall. intros y Hy.
    apply list_elem_of_fmap in Hy as (b & -> & Hb). apply H2. set_solver.
  - intros x y Hx [->|Hy]%elem_of_cons; [|by apply H12'].
    apply list_elem_of_fmap in Hx as (b & -> & Hb). auto.
Qed.

Lemma free_ok s fr bp n lv :
  inv base start s fr ((bp, n) :: lv) ->
  exists s' fr', free (bp + 8) s = Some s' /\ inv base start s' fr' lv /\ brk s' = brk s /\
    total fr' = total fr + n /\ kept lv (um s) (um s') /\ (exists b, b ∈ fr' /\ n <= b.2) /\
    (length fr' <= S (length fr))%nat.
Proof.
  intros Hinv. destruct (free_find_ok _ _ _ _ _ Hinv) as (F1 & F2 & G & p & -> & HG & H1 & H2 & Hfind).
  destruct Hinv as [Hb Hbrk Hl H0 Hs Hg Hso Hf Hfull].
  assert (Hperm : (F1 ++ F2) ++ (bp, n) :: lv ≡ₚ (bp, n) :: F2 ++ F1 ++ lv) by solve_Permutation.
  apply (sized_perm _ _ _ Hperm) in Hs. apply (geo_perm _ _ _ _ Hperm) in Hg.
  pose proof (geo_bounds (brk s) (base + 8) _ (bp, n) ltac:(lia) Hg ltac:(set_solver)) as Hbp. cbn [fst snd] in Hbp.
  rewrite fmap_app, app_comm_cons in Hl. apply linked_app in Hl as [Hl1 Hl2].
  pose proof Hl1 as Hlp. rewrite HG in Hlp. apply linked_app in Hlp as [_ [Hpn _]]. simpl hd in Hpn.
  assert (Hp8 : p + 8 <= bp).
  { assert (Hp : p ∈ base :: F1.*1) by (rewrite HG; set_solver). apply elem_of_cons in Hp as [->|Hp]; [lia|].
    apply list_elem_of_fmap in Hp as (b & -> & Hp). pose proof (geo_apart _ _ _ _ b Hg ltac:(set_solver)) as Ha.
    specialize (H1 b Hp). simpl in Ha. lia. }
  unfold free. replace (u32 (bp + 8 - 8)) with bp by (unfold u32; rewrite Z.mod_small; lia).
  rewrite Hfind. eexists. cbn [um brk]. rewrite free_link_eq.
  destruct (link_right_ok base (brk s) Hb ltac:(lia) bp n F2 (F1 ++ lv) p (um s)) as
    (n1 & pre & F2' & E2 & Hn1 & Htot & Ho1 & Hg1 & Hs1 & Hlr); auto.
  set (m1 := link_right bp p (um s)) in *.
  destruct (link_left_ok base (brk s) Hb ltac:(lia) bp n1 F1 G p F2' lv m1 (hd base F2.*1)) as
    (Ho2 & H02 & fr & Hj & Hpf & Hg2 & Hs2 & Hl2'); auto.
  { revert Hl1. apply linked_ext. intros a Ha. eapply only_h_ptr; [exact Ho1|].
    apply elem_of_cons in Ha as [->|Ha]; [lia|]. apply list_elem_of_fmap in Ha as (b & -> & Ha).
    apply (geo_apart _ _ _ _ b Hg). set_solver. }
  { rewrite <- H0. eapply only_h_size; [exact Ho1|lia]. }
  exists fr. split; [done|]. split; [|split; [done|]].
  - split; simpl; auto; [by eapply joined_sorted|]. rewrite <- Hfull. destruct Hj as (Ht & _).
    rewrite !total_app. simpl. lia.
  - destruct Hj as (Ht & Hfr & b & Hbf & Hbn). split; [rewrite total_app; lia|].
    split; [|split; [exists b; split; [done|lia]|]]; cycle 1.
    { rewrite <- (length_fmap fst fr), E2, !length_app.
      destruct Hfr as [-> | ->]; rewrite length_app; simpl; rewrite !length_fmap; lia. }
    assert (Hgl : geo base (brk s) (((base, 1) :: (bp, n) :: F2 ++ F1) ++ lv)).
    { simpl. rewrite <- app_assoc. by apply geo_base. }
    eapply kept_bytes_trans; (eapply only_kept_in; [|exact Hgl|]); [exact Ho1|simpl; set_solver|exact Ho2|].
    assert (Hp : p ∈ base :: F1.*1) by (rewrite HG; set_solver). simpl. rewrite fmap_app. set_solver.
Qed.

(** *** malloc() *)

(** The block before another one in the circular list is the one before it in the order of the
    addresses. *)
Lemma pred_split m (fr : list block) pv p :
  linked m (base :: fr.*1) base -> pv ∈ base :: fr.*1 -> h_ptr m pv = p -> p <> base ->
  exists G F1 np F2, fr = F1 ++ (p, np) :: F2 /\ base :: F1.*1 = G ++ [pv].
Proof.
  intros Hl Hpv Hp Hne. apply list_elem_of_split in Hpv as (A & B & E). rewrite E in Hl.
  apply linked_app in Hl as [_ [Hq _]]. destruct B as [|y B]; simpl in Hq; [congruence|].
  assert (y = p) as -> by congruence. clear Hq Hp.
  assert (HA : exists A', A ++ [pv] = base :: A' /\ fr.*1 = A' ++ p :: B).
  { destruct A as [|a A]; simplify_eq/=; [by exists []|]. exists (A ++ [pv]). by rewrite <- app_assoc. }
  destruct HA as (A' & EA & EF). apply fmap_app_inv in EF as (F1 & F' & -> & EF & ->).
  symmetry in EF. apply fmap_cons_inv in EF as ([p' np] & F2 & -> & -> & ->). by exists A, F1, np, F2.
Qed.

(** The pointer of the last block of [F1] (or of the base) is set to the rest of the list. *)
Lemma repoint hi (F1 F lv : list block) G pv m z :
  0 < base -> base + 8 <= hi < 2 ^ 31 ->
  base :: F1.*1 = G ++ [pv] -> geo (base + 8) hi ((F1 ++ F) ++ lv) -> sized m ((F1 ++ F) ++ lv) ->
  linked m (base :: F1.*1) z -> linked m F.*1 base -> h_size m base = 0 ->
  let m2 := set_ptr pv (hd base F.*1) m in
  h_size m2 base = 0 /\ sized m2 ((F1 ++ F) ++ lv) /\ linked m2 (base :: (F1 ++ F).*1) base.
Proof.
  intros Hb Hhi HG Hg Hs Hl1 Hl2 H0 m2. pose proof (only_set_ptr pv (hd base F.*1) m) as Ho. fold m2 in Ho.
  assert (Hptr : h_ptr m2 pv = hd base F.*1).
  { apply h_ptr_set_ptr_eq. apply (hd_bounds base hi Hb Hhi F (F1 ++ lv)).
    eapply geo_perm; [|exact Hg]. solve_Permutation. }
  destruct F1 as [|b0 F1'].
  - assert (pv = base) as -> by (destruct G as [|? [|]]; simpl in HG; by simplify_eq).
    pose proof (geo_base base hi Hhi _ Hg) as Hgb. split; [unfold m2; by rewrite h_size_set_ptr_eq|]. split.
    + by eapply (only_sized _ _ (base, 1)).
    + split; [done|]. eapply (only_linked _ _ (base, 1)); [exact Ho|exact Hgb| |done]. set_solver.
  - destruct (exists_last (l := b0 :: F1')) as (F1 & [p' np] & E); [done|]. rewrite E in *. clear E b0 F1'.
    rewrite fmap_app in HG, Hl1. simpl fmap in HG, Hl1. rewrite app_comm_cons in HG, Hl1.
    apply app_inj_tail in HG as [<- ->]. apply linked_app in Hl1 as [Hl1 _]. rewrite <- (app_assoc F1) in *. simpl app in *.
    rewrite <- !app_assoc in *. simpl app in *.
    destruct (insert_after base hi Hb Hhi pv np F1 F lv m m2) as (Hz & _ & Hs2 & Hl); auto.
    + eapply geo_perm; [|exact Hg]. solve_Permutation.
    + eapply sized_sub; [|exact Hs]. solve_submseteq.
    + unfold m2. rewrite h_size_set_ptr_eq. unfold sized in Hs. rewrite Forall_forall in Hs.
      apply (Hs (pv, np)). set_solver.
    + rewrite <- app_assoc in Hs2. done.
Qed.
End Inv.
