(* ===== verification/UmallocSafe.v ===== *)
(** umalloc.c: malloc() returns blocks that nobody else has, and a program that keeps to its
    blocks finds in them what it stored. *)

From S2P Require Export UmallocInv.

Open Scope Z_scope.

Section Malloc.
Context (base start : Z) (frames : Z -> Z -> bool).

(** *** Taking a block from the list *)

Lemma sorted_drop F1 (b : block) F2 :
  StronglySorted Z.lt (F1 ++ b :: F2).*1 -> StronglySorted Z.lt (F1 ++ F2).*1.
Proof.
  rewrite !fmap_app, fmap_cons. intros H. apply sorted_app in H as (H1 & H2 & H12).
  apply StronglySorted_inv in H2 as [H2 _]. apply sorted_app. split_and!; auto.
  intros x y Hx Hy. apply H12; set_solver.
Qed.

Lemma take_whole s F1 p n F2 lv G pv :
  inv base start s (F1 ++ (p, n) :: F2) lv -> base :: F1.*1 = G ++ [pv] ->
  inv base start (mkUst (set_ptr pv (h_ptr (um s) p) (um s)) pv (brk s)) (F1 ++ F2) ((p, n) :: lv) /\
  kept lv (um s) (set_ptr pv (h_ptr (um s) p) (um s)).
Proof.
  intros [Hb Hbrk Hl H0 Hs Hg Hso Hf Hfull] HG. rewrite fmap_app, fmap_cons, app_comm_cons in Hl.
  apply linked_app in Hl as [Hl1 [Hp Hl2]]. cbn [fst] in Hp. rewrite Hp.
  assert (Hperm : (F1 ++ (p, n) :: F2) ++ lv ≡ₚ (F1 ++ F2) ++ (p, n) :: lv) by solve_Permutation.
  apply (sized_perm _ _ _ Hperm) in Hs. apply (geo_perm _ _ _ _ Hperm) in Hg.
  destruct (repoint base (brk s) F1 F2 ((p, n) :: lv) G pv (um s) _ Hb Hbrk HG Hg Hs Hl1 Hl2 H0) as (Hz & Hs2 & Hl).
  assert (Hpv : pv ∈ base :: F1.*1) by (rewrite HG; set_solver). split.
  - split; simpl; auto; [by eapply sorted_drop|rewrite fmap_app; set_solver|].
    rewrite <- Hfull. f_equal. symmetry. by apply total_perm.
  - pose proof (geo_base _ _ Hbrk _ Hg) as Hgb.
    assert (Hgb' : geo base (brk s) (((base, 1) :: F1 ++ F2 ++ [(p, n)]) ++ lv)).
    { eapply geo_perm; [|exact Hgb]. solve_Permutation. }
    eapply only_kept_in; [apply only_set_ptr|exact Hgb'|]. simpl. rewrite fmap_app. set_solver.
Qed.

(** The headers of a block that is cut in two, and the others. *)
Lemma cut_headers hi q k p n (F1 F2 lv : list block) a :
  geo (base + 8) hi ((q, k) :: (p, n) :: F1 ++ F2 ++ lv) ->
  a ∈ base :: (F1 ++ (p, n) :: F2).*1 -> hdr_ok q a /\ hdr_ok p a.
Proof.
  intros Hg Ha. unfold hdr_ok. apply elem_of_cons in Ha as [->|Ha].
  - destruct Hg as [Hi _]. apply Forall_cons in Hi as [Hq Hi]. apply Forall_cons in Hi as [Hp _].
    cbn [fst snd] in *. lia.
  - apply list_elem_of_fmap in Ha as (b & -> & Ha).
    pose proof (geo_apart _ _ _ _ b Hg ltac:(set_solver)) as Hq. split; [simpl in Hq; lia|].
    apply geo_cons in Hg. apply elem_of_app in Ha as [Ha|[->|Ha]%elem_of_cons]; [|by left|];
      pose proof (geo_apart _ _ _ _ b Hg ltac:(set_solver)) as Hq'; simpl in Hq'; lia.
Qed.

Lemma take_tail s F1 p n F2 lv k pv :
  inv base start s (F1 ++ (p, n) :: F2) lv -> pv ∈ base :: F1.*1 -> 1 <= k < n ->
  let q := p + 8 * (n - k) in
  let m := set_size q k (set_size p (n - k) (um s)) in
  inv base start (mkUst m pv (brk s)) (F1 ++ (p, n - k) :: F2) ((q, k) :: lv) /\ kept lv (um s) m.
Proof.
  intros [Hb Hbrk Hl H0 Hs Hg Hso Hf Hfull] Hpv Hk q m.
  assert (Hperm : forall n, (F1 ++ (p, n) :: F2) ++ lv ≡ₚ (p, n) :: F1 ++ F2 ++ lv) by (intros; solve_Permutation).
  apply (geo_perm _ _ _ _ (Hperm n)) in Hg.
  apply (sized_perm _ _ _ (Hperm n)) in Hs. apply Forall_cons in Hs as [Hsp Hs].
  pose proof (geo_split _ _ _ k _ Hg ltac:(simpl; lia)) as Hg2. cbn [fst snd] in Hg2. fold q in Hg2.
  pose proof (geo_bounds (brk s) (base + 8) _ (p, n) ltac:(lia) Hg ltac:(set_solver)) as Hp. cbn [fst snd] in Hp.
  pose proof (geo_cons _ _ _ _ Hg2) as Hg1. set (m1 := set_size p (n - k) (um s)) in *.
  pose proof (only_set_size p (n - k) (um s)) as Ho1. fold m1 in Ho1.
  pose proof (only_set_size q k m1) as Ho2. fold m in Ho2.
  assert (Hfm : (F1 ++ (p, n - k) :: F2).*1 = (F1 ++ (p, n) :: F2).*1) by by rewrite !fmap_app.
  assert (Hs1 : sized m1 ((p, n - k) :: F1 ++ F2 ++ lv)).
  { constructor; [apply (h_size_set_size_eq _ p (n - k)); lia|]. by eapply (only_sized _ _ (p, n - k)). }
  assert (Hs2 : sized m ((q, k) :: (p, n - k) :: F1 ++ F2 ++ lv)).
  { constructor; [apply (h_size_set_size_eq _ q k); lia|]. by eapply (only_sized _ _ (q, k)). }
  assert (Hperm2 : (q, k) :: (p, n - k) :: F1 ++ F2 ++ lv ≡ₚ (F1 ++ (p, n - k) :: F2) ++ (q, k) :: lv)
    by solve_Permutation.
  split; [split; simpl; auto|].
  - rewrite Hfm. revert Hl. apply (linked_ext _ _ (base :: _)). intros a Ha. rewrite <- Hfm in Ha.
    destruct (cut_headers _ _ _ _ _ _ _ _ a Hg2 Ha). unfold m, m1. by rewrite !h_ptr_set_size.
  - destruct (cut_headers _ _ _ _ _ _ _ _ base Hg2 ltac:(set_solver)) as [Hq' Hp'].
    rewrite <- H0. unfold m, m1. rewrite !h_size_set_size by done. rewrite !decide_False by (unfold q; lia). done.
  - by eapply sized_perm.
  - by eapply geo_perm.
  - by rewrite Hfm.
  - rewrite fmap_app. set_solver.
  - rewrite <- Hfull, <- (total_perm _ _ Hperm2), (total_perm _ _ (Hperm n)). simpl. lia.
  - eapply kept_bytes_trans.
    + eapply (only_kept _ _ (p, n - k)); [exact Ho1|]. eapply geo_sub; [|exact Hg1]. solve_submseteq.
    + eapply (only_kept _ _ (q, k)); [exact Ho2|]. eapply geo_sub; [|exact Hg2]. solve_submseteq.
Qed.

(** What malloc() promises of a block: it is new, and the others keep their bytes. *)
Definition took (nunits : Z) (s : ust) (lv : list block) (r : Z) (s' : ust) : Prop :=
  exists a fr', r = a + 8 /\ inv base start s' fr' ((a, nunits) :: lv) /\ kept lv (um s) (um s') /\ brk s <= brk s'.

Lemma take_block_ok s fr lv pv p k :
  inv base start s fr lv -> pv ∈ base :: fr.*1 -> h_ptr (um s) pv = p -> 1 <= k -> k <= h_size (um s) p ->
  let '(r, s') := take_block k pv p s in took k s lv r s'.
Proof.
  intros Hinv Hpv Hp Hk Hle. pose proof Hinv as [Hb Hbrk Hl H0 Hs Hg _ _ _].
  assert (Hne : p <> base) by (intros ->; lia).
  destruct (pred_split _ _ _ _ _ Hl Hpv Hp Hne) as (G & F1 & n & F2 & -> & HG).
  assert (Hn : h_size (um s) p = n).
  { unfold sized in Hs. rewrite Forall_forall in Hs. apply (Hs (p, n)). set_solver. }
  pose proof (geo_bounds (brk s) (base + 8) _ (p, n) ltac:(lia) Hg ltac:(set_solver)) as Hpb. cbn [fst snd] in Hpb.
  unfold take_block. rewrite Hn in *. destruct (Z.eqb_spec n k) as [->|Hnk].
  - destruct (take_whole _ _ _ _ _ _ _ _ Hinv HG) as [Hi Hkept].
    exists p, (F1 ++ F2). split; [unfold u32; apply Z.mod_small; lia|]. split_and!; auto. done.
  - destruct (take_tail s F1 p n F2 lv k pv Hinv) as [Hi Hkept]; [rewrite HG; set_solver|lia|].
    rewrite (h_size_set_size_eq _ p (n - k)) by lia.
    rewrite (hplus_eq base (brk s) Hbrk) by lia.
    exists (p + 8 * (n - k)), (F1 ++ (p, n - k) :: F2). split; [unfold u32; apply Z.mod_small; lia|].
    split_and!; auto. done.
Qed.

(** *** morecore() *)

Lemma sbrk_ok n s :
  0 < n < 2 ^ 31 -> 0 <= brk s < 2 ^ 31 ->
  sbrk frames n s = None \/
  (sbrk frames n s = Some (brk s, mkUst (um s) (freep s) (brk s + n)) /\ brk s + n < 2 ^ 31).
Proof.
  intros Hn Hb. unfold sbrk. rewrite (proj2 (Z.ltb_lt 0 n)) by lia.
  replace (u32 (brk s + n)) with (brk s + n) by (unfold u32; rewrite Z.mod_small; lia).
  destruct (Z.leb_spec KERNBASE (brk s + n)) as [H|H]; [by left|]. rewrite (proj2 (Z.ltb_ge _ _)) by lia.
  destruct (frames _ _); [right|by left]. split; [done|]. unfold KERNBASE in H. lia.
Qed.

(** The new memory is a block in use until it is freed. *)
Lemma grown_ok s fr lv nu :
  inv base start s fr lv -> 1 <= nu -> brk s + 8 * nu < 2 ^ 31 ->
  inv base start (mkUst (set_size (brk s) nu (um s)) (freep s) (brk s + 8 * nu)) fr ((brk s, nu) :: lv) /\
  kept lv (um s) (set_size (brk s) nu (um s)).
Proof.
  intros [Hb Hbrk Hl H0 Hs Hg Hso Hf Hfull] Hnu Hlt.
  pose proof (only_set_size (brk s) nu (um s)) as Ho.
  assert (Hg' : geo (base + 8) (brk s + 8 * nu) ((brk s, nu) :: fr ++ lv)).
  { destruct Hg as [Hi Hsep]. split.
    - constructor; [unfold b_end; cbn [fst snd]; lia|]. eapply Forall_impl; [exact Hi|]. cbn. lia.
    - split; [|done]. eapply Forall_impl; [exact Hi|]. unfold apart. cbn [fst]. lia. }
  assert (Hperm : (brk s, nu) :: fr ++ lv ≡ₚ fr ++ (brk s, nu) :: lv) by solve_Permutation.
  split; [split; simpl; auto; [lia|..]|].
  - apply (linked_ext (um s) _ (base :: fr.*1)); [|done]. intros a Ha.
    eapply only_h_ptr; [exact Ho|]. apply elem_of_cons in Ha as [->|Ha]; [lia|].
    apply list_elem_of_fmap in Ha as (b & -> & Ha). apply (geo_apart _ _ _ _ b Hg'). set_solver.
  - rewrite <- H0. eapply only_h_size; [exact Ho|lia].
  - eapply sized_perm; [exact Hperm|]. constructor; [apply (h_size_set_size_eq _ (brk s) nu); lia|].
    by eapply (only_sized _ _ (brk s, nu)).
  - by eapply geo_perm.
  - rewrite <- (total_perm _ _ Hperm). simpl. lia.
  - eapply (only_kept _ _ (brk s, nu)); [exact Ho|]. eapply geo_sub; [|exact Hg']. solve_submseteq.
Qed.

Lemma morecore_ok s fr lv k :
  inv base start s fr lv -> 1 <= k -> 8 * k < 2 ^ 31 ->
  morecore frames k s = Some (0, s) \/
  exists s' fr', morecore frames k s = Some (freep s', s') /\ freep s' <> 0 /\ inv base start s' fr' lv /\
    kept lv (um s) (um s') /\ brk s <= brk s' /\ (exists b, b ∈ fr' /\ k <= b.2) /\
    (length fr' <= S (length fr))%nat.
Proof.
  intros Hinv Hk Hlt. pose proof (i_brk _ _ _ _ _ Hinv) as Hbrk. pose proof (i_base _ _ _ _ _ Hinv) as Hb.
  unfold morecore. set (nu := if k <? 4096 then 4096 else k).
  assert (Hnu : k <= nu /\ nu * 8 < 2 ^ 31) by (unfold nu; destruct (Z.ltb_spec k 4096); lia).
  rewrite s32_small by lia. destruct (sbrk_ok (nu * 8) s) as [-> | [-> Hend]]; [lia|lia|by left|right].
  cbn [um freep brk]. replace (brk s + nu * 8) with (brk s + 8 * nu) in * by lia.
  destruct (grown_ok s fr lv nu Hinv) as [Hg Hkept]; [lia|lia|].
  destruct (free_ok base start _ _ _ _ _ Hg) as (s' & fr' & -> & Hi & Hbrk' & _ & Hkept' & (b & Hbin & Hbn) & Hlen).
  exists s', fr'. split; [done|]. split_and!.
  - destruct Hi as [_ _ _ _ _ [Hin _] _ Hf _]. apply elem_of_cons in Hf as [->|Hf]; [lia|].
    apply list_elem_of_fmap in Hf as (c & -> & Hc). rewrite Forall_forall in Hin. specialize (Hin c ltac:(set_solver)). lia.
  - done.
  - eapply kept_bytes_trans; [exact Hkept|exact Hkept'].
  - rewrite Hbrk'. cbn. lia.
  - exists b. split; [done|lia].
  - done.
Qed.

(** *** The loop *)

Definition loop_rest (f : nat) (k : Z) (s : ust) : option (Z * ust) :=
  match morecore frames k s with
  | None => None
  | Some (p, s) => if p =? 0 then Some (0, s) else malloc_loop frames f k p (h_ptr (um s) p) s
  end.

(** Along the list up to [freep]: a block that is large enough is taken, or there is none. *)
Lemma malloc_scan s (L : list Z) k R pv fuel z :
  linked (um s) (pv :: R ++ [freep s]) z -> (forall x, x ∈ pv :: R -> x ∈ L) -> freep s ∉ R ->
  (length R < fuel)%nat ->
  (exists pv' p, pv' ∈ L /\ h_ptr (um s) pv' = p /\ k <= h_size (um s) p /\
     malloc_loop frames fuel k pv (hd (freep s) R) s = Some (take_block k pv' p s)) \/
  ((forall x, x ∈ R ++ [freep s] -> h_size (um s) x < k) /\
   malloc_loop frames fuel k pv (hd (freep s) R) s = loop_rest (fuel - length R - 1) k s).
Proof.
  revert pv fuel. induction R as [|x R IH]; intros pv fuel Hl HL Hf Hn; (destruct fuel as [|fuel]; [simpl in Hn; lia|]);
    cbn [hd malloc_loop]; destruct Hl as [Hpv Hl]; simpl in Hpv.
  - destruct (Z.leb_spec k (h_size (um s) (freep s))) as [Hk|Hk].
    + left. exists pv, (freep s). split_and!; [set_solver|done..].
    + right. split; [set_solver|]. rewrite Z.eqb_refl. simpl. by rewrite Nat.sub_0_r.
  - destruct (Z.leb_spec k (h_size (um s) x)) as [Hk|Hk].
    + left. exists pv, x. split_and!; [set_solver|done..].
    + rewrite (proj2 (Z.eqb_neq x (freep s))) by set_solver. pose proof Hl as [Hx _].
      replace (h_ptr (um s) x) with (hd (freep s) R) by (rewrite Hx; by destruct R).
      destruct (IH x fuel Hl) as [H|[Hall H]]; [set_solver|set_solver|simpl in Hn; lia|by left|right].
      split; [|done]. intros y Hy. simpl in Hy. apply elem_of_cons in Hy as [->|Hy]; [done|by apply Hall].
Qed.

(** The list once around, from the block after [freep] to [freep]. *)
Lemma around s fr lv :
  inv base start s fr lv ->
  exists R, linked (um s) (freep s :: R ++ [freep s]) (h_ptr (um s) (freep s)) /\
    (forall x, x ∈ base :: fr.*1 <-> x ∈ R ++ [freep s]) /\ freep s ∉ R /\ (length R < length (base :: fr.*1))%nat /\
    h_ptr (um s) (freep s) = hd (freep s) R.
Proof.
  intros Hinv. pose proof (sorted_base _ _ _ _ _ Hinv) as Hso.
  destruct Hinv as [_ _ Hl _ _ _ _ Hf _]. apply list_elem_of_split in Hf as (A & B & E).
  rewrite E in Hl, Hso |- *. apply linked_rotate in Hl; [|by rewrite <- E]. exists (B ++ A).
  apply sorted_app in Hso as (_ & HsB & HAB). apply StronglySorted_inv in HsB as [_ HB]. rewrite Forall_forall in HB.
  split_and!.
  - rewrite app_comm_cons. apply linked_app. simpl hd. split; [done|]. by split.
  - intros x. set_solver.
  - intros [Hin|Hin]%elem_of_app; [specialize (HB _ Hin); lia|].
    specialize (HAB _ (freep s) Hin ltac:(set_solver)). lia.
  - rewrite !length_app. simpl. lia.
  - destruct Hl as [-> _]. by destruct (B ++ A).
Qed.

Lemma loop_ok s fr lv k fuel :
  inv base start s fr lv -> 1 <= k -> (length (base :: fr.*1) <= fuel)%nat ->
  let run := malloc_loop frames fuel k (freep s) (h_ptr (um s) (freep s)) s in
  (exists r s', run = Some (r, s') /\ took k s lv r s') \/
  ((forall b, b ∈ fr -> b.2 < k) /\ exists f, (fuel - length (base :: fr.*1) <= f)%nat /\ run = loop_rest f k s).
Proof.
  intros Hinv Hk Hfuel run. destruct (around _ _ _ Hinv) as (R & Hl & HR & Hnf & Hlen & Hhd).
  unfold run. rewrite Hhd.
  assert (HL : forall x, x ∈ freep s :: R -> x ∈ base :: fr.*1) by (intros x Hx; apply HR; set_solver).
  destruct (malloc_scan s (base :: fr.*1) k R (freep s) fuel _ Hl HL Hnf ltac:(lia))
    as [(pv & p & Hpv & Hp & Hle & ->)|[Hall ->]].
  - left. pose proof (take_block_ok _ _ _ _ _ _ Hinv Hpv Hp Hk Hle) as Ht.
    destruct (take_block k pv p s) as [r s']. by exists r, s'.
  - right. split; [|exists (fuel - length R - 1)%nat; split; [lia|done]].
    intros b Hb. pose proof (i_sized _ _ _ _ _ Hinv) as Hs. unfold sized in Hs. rewrite Forall_forall in Hs.
    rewrite <- (Hs b ltac:(set_solver)). apply Hall, HR. right. by apply list_elem_of_fmap_2.
Qed.

(** *** malloc() *)

(** Before the first call. *)
Definition fresh (s : ust) : Prop := freep s = 0 /\ 0 < base /\ base + 8 <= brk s < 2 ^ 31 /\ brk s = start.

Definition heap (s : ust) (lv : list block) : Prop :=
  (exists fr, inv base start s fr lv) \/ (fresh s /\ lv = []).

Lemma malloc_init_ok s lv :
  heap s lv -> exists fr, inv base start (malloc_init base s) fr lv /\ kept lv (um s) (um (malloc_init base s)) /\
    brk (malloc_init base s) = brk s.
Proof.
  unfold malloc_init. intros [[fr Hinv]|[(-> & Hb & Hbrk & Hst) ->]].
  - exists fr. rewrite (proj2 (Z.eqb_neq (freep s) 0)); [done|].
    destruct Hinv as [? _ _ _ _ [Hin _] _ Hf _]. apply elem_of_cons in Hf as [->|Hf]; [lia|].
    apply list_elem_of_fmap in Hf as (c & -> & Hc). rewrite Forall_forall in Hin.
    specialize (Hin c ltac:(set_solver)). lia.
  - exists []. simpl. split_and!; [|by intros b a Hb'; apply not_elem_of_nil in Hb'|done].
    split; simpl; auto; [|by apply h_size_set_size_eq|constructor|by split|constructor|set_solver|lia].
    split; [|done]. rewrite h_ptr_set_size_eq. simpl. apply h_ptr_set_ptr_eq. lia.
Qed.

Lemma units_ok nbytes :
  0 <= nbytes <= 2 ^ 31 - 24 -> 1 <= units nbytes /\ nbytes <= 8 * (units nbytes - 1) /\ 8 * units nbytes < 2 ^ 31.
Proof.
  intros Hn. unfold units, u32. rewrite (Z.mod_small (nbytes + 8 - 1)) by lia.
  pose proof (Z.div_mod (nbytes + 8 - 1) 8 ltac:(lia)). pose proof (Z.mod_pos_bound (nbytes + 8 - 1) 8 ltac:(lia)).
  rewrite Z.mod_small; lia.
Qed.

Lemma malloc_ok s lv nbytes :
  heap s lv -> 0 <= nbytes <= 2 ^ 31 - 24 ->
  exists r s', malloc base frames nbytes s = Some (r, s') /\
    ((r = 0 /\ (exists fr, inv base start s' fr lv) /\ kept lv (um s) (um s') /\ brk s <= brk s') \/
     took (units nbytes) s lv r s').
Proof.
  intros Hh Hn. destruct (units_ok nbytes Hn) as (Hk & _ & Hk31). set (k := units nbytes) in *.
  destruct (malloc_init_ok _ _ Hh) as (fr & Hinv & Hkept & Hbrk). unfold malloc. fold k.
  set (s1 := malloc_init base s) in *. pose proof (list_fuel _ _ _ _ _ Hinv) as Hfuel.
  assert (Htook : forall s2 r s', took k s2 lv r s' -> kept lv (um s) (um s2) -> brk s <= brk s2 -> took k s lv r s').
  { intros s2 r s' (a & fr' & Hr & Hi & Hk' & Hb') Hk2 Hb2. exists a, fr'. split_and!; auto; [|lia].
    eapply kept_bytes_trans; [exact Hk2|exact Hk']. }
  destruct (loop_ok s1 fr lv k (2 * heap_fuel s1 + 2) Hinv Hk ltac:(lia)) as [(r & s' & -> & Ht)|(_ & f & Hf & ->)].
  { exists r, s'. split; [done|]. right. eapply Htook; [exact Ht|done|lia]. }
  unfold loop_rest. destruct (morecore_ok s1 fr lv k Hinv Hk Hk31) as
    [-> | (s2 & fr2 & -> & Hne & Hinv2 & Hkept2 & Hbrk2 & (b & Hb & Hbk) & Hlen)].
  { rewrite Z.eqb_refl. exists 0, s1. split; [done|]. left. split_and!; eauto. lia. }
  rewrite (proj2 (Z.eqb_neq _ 0)) by done.
  assert (Hf2 : (length (base :: fr2.*1) <= f)%nat).
  { cbn [length] in Hf, Hfuel |- *. rewrite length_fmap in Hf. rewrite length_fmap in Hfuel. rewrite length_fmap. lia. }
  destruct (loop_ok s2 fr2 lv k f Hinv2 Hk Hf2) as [(r & s' & -> & Ht)|[Hall _]].
  - exists r, s'. split; [done|]. right. eapply Htook; [exact Ht| |lia]. eapply kept_bytes_trans; [exact Hkept|exact Hkept2].
  - specialize (Hall b Hb). lia.
Qed.
End Malloc.
