(* ===== verification/UmallocClient.v ===== *)
(** umalloc.c seen by a program that calls malloc() and free() and stores into its blocks. *)

From S2P Require Export UmallocSafe.

Open Scope Z_scope.

(** A call of malloc(), free() of the i-th block, or a store into it. *)
Inductive call :=
| UMalloc (n : Z)
| UFree (i : nat)
| UStore (i off : nat) (v : Z).

(** The requests for which neither the number of units nor the argument of sbrk(), a C int,
    overflows; [malloc_huge_requests] shows what larger ones do. *)
Definition max_request : Z := 2 ^ 31 - 24.
Definition call_ok (c : call) : Prop :=
  match c with UMalloc n => 0 <= n <= max_request | _ => True end.

(** A block of the program: the pointer that malloc() returned and the bytes that the program
    expects there, those that it found and then those that it stored. *)
Abbreviation obj := (Z * list Z)%type.

Section Client.
Context (base start : Z) (frames : Z -> Z -> bool).

Definition ustep (c : call) (st : ust * list obj) : option (ust * list obj) :=
  let '(s, objs) := st in
  match c with
  | UMalloc n =>
      match malloc base frames n s with
      | None => None
      | Some (r, s') =>
          Some (s', if r =? 0 then objs else objs ++ [(r, rd_bytes (um s') r (Z.to_nat n))])
      end
  | UFree i =>
      match objs !! i with
      | None => Some st
      | Some (p, _) => match free p s with None => None | Some s' => Some (s', remove_nth i objs) end
      end
  | UStore i off v =>
      match objs !! i with
      | Some (p, bs) =>
          if decide (off < length bs)%nat
          then Some (mkUst (wr (um s) (p + Z.of_nat off) v) (freep s) (brk s), <[i := (p, <[off := v]> bs)]> objs)
          else Some st
      | None => Some st
      end
  end.

Fixpoint urun (cs : list call) (st : ust * list obj) : option (ust * list obj) :=
  match cs with
  | [] => Some st
  | c :: cs' => match ustep c st with None => None | Some st' => urun cs' st' end
  end.

(** The block behind a pointer has room for its bytes, and they are there. *)
Definition holds (m : mem) (o : obj) (b : block) : Prop :=
  o.1 = b.1 + 8 /\ Z.of_nat (length o.2) <= 8 * (b.2 - 1) /\ rd_bytes m o.1 (length o.2) = o.2.

Definition good (st : ust * list obj) : Prop :=
  exists lv, heap base start st.1 lv /\ Forall2 (holds (um st.1)) st.2 lv.

Lemma holds_kept lv m m' objs : kept lv m m' -> Forall2 (holds m) objs lv -> Forall2 (holds m') objs lv.
Proof.
  intros Hk H. apply Forall2_same_length_lookup in H as [Hlen H]. apply Forall2_same_length_lookup. split; [done|].
  intros i o b Ho Hb. destruct (H i o b Ho Hb) as (Hp & Hl & Hr). split_and!; auto. rewrite <- Hr at 2.
  apply rd_bytes_ext. intros a Ha. apply (Hk b); [by eapply list_elem_of_lookup_2|]. unfold b_end. lia.
Qed.

Lemma heap_inv s lv b : heap base start s lv -> b ∈ lv -> exists fr, inv base start s fr lv.
Proof. intros [H|[_ ->]] Hb; [done|]. by apply not_elem_of_nil in Hb. Qed.

Lemma good_malloc n s objs :
  0 <= n <= 2 ^ 31 - 24 -> good (s, objs) -> exists st, ustep (UMalloc n) (s, objs) = Some st /\ good st.
Proof.
  intros Hn (lv & Hh & Ho). simpl in *.
  destruct (malloc_ok base start frames s lv n Hh Hn) as (r & s' & -> & [(-> & Hi & Hk & _)|Ht]); eexists; (split; [done|]).
  - exists lv. split; [by left|]. by eapply holds_kept.
  - destruct Ht as (a & fr & -> & Hi & Hk & _). destruct (units_ok n Hn) as (_ & Hu & _).
    pose proof (i_geo _ _ _ _ _ Hi) as [Hin _]. rewrite Forall_forall in Hin.
    specialize (Hin (a, units n) ltac:(set_solver)). pose proof (i_base _ _ _ _ _ Hi) as Hb. cbn [fst snd] in Hin.
    rewrite (proj2 (Z.eqb_neq (a + 8) 0)) by lia. exists (lv ++ [(a, units n)]). split.
    + left. exists fr. eapply inv_perm; [|exact Hi]. solve_Permutation.
    + apply Forall2_app; [by eapply holds_kept|]. constructor; [|constructor].
      unfold holds. cbn [fst snd]. rewrite length_rd_bytes. split_and!; [done|lia|done].
Qed.

Lemma good_free i s objs : good (s, objs) -> exists st, ustep (UFree i) (s, objs) = Some st /\ good st.
Proof.
  intros (lv & Hh & Ho). simpl. destruct (objs !! i) as [[p bs]|] eqn:Ei; [|by eexists; split; [done|exists lv]].
  simpl in *. destruct (Forall2_lookup_l _ _ _ _ _ Ho Ei) as ([a n] & Eb & Hp & _). cbn [fst] in Hp. subst p.
  destruct (heap_inv _ _ _ Hh (list_elem_of_lookup_2 _ _ _ Eb)) as [fr Hi].
  apply (inv_perm _ _ _ _ _ _ (remove_nth_perm _ _ _ Eb)) in Hi.
  destruct (free_ok _ _ _ _ _ _ _ Hi) as (s' & fr' & -> & Hi' & _ & _ & Hk & _). eexists. split; [done|].
  exists (remove_nth i lv). split; [left; by exists fr'|]. simpl.
  eapply holds_kept; [exact Hk|]. unfold remove_nth. apply Forall2_app; [by apply Forall2_take|by apply Forall2_drop].
Qed.

Lemma sep_lookup (l : list block) b c i j :
  sep l -> l !! i = Some b -> l !! j = Some c -> i <> j -> apart b c.
Proof.
  intros Hs Hb Hc Hij. apply (sep_perm _ _ (remove_nth_perm _ _ _ Hb)) in Hs as [Hb' _].
  rewrite Forall_forall in Hb'. apply Hb'. unfold remove_nth. apply elem_of_app. destruct (decide (j < i)%nat).
  - left. apply list_elem_of_lookup. exists j. by rewrite lookup_take_lt.
  - right. apply list_elem_of_lookup. exists (j - S i)%nat. rewrite lookup_drop.
    by replace (S i + (j - S i))%nat with j by lia.
Qed.

(** The bytes of a block after its header belong to no other block and to no header. *)
Lemma payload_apart lo hi (l : list block) b c i j x :
  geo lo hi l -> l !! i = Some b -> l !! j = Some c -> i <> j -> b.1 + 8 <= x < b_end b ->
  ~ (c.1 <= x < b_end c).
Proof.
  intros [_ Hs] Hb Hc Hij Hx. pose proof (sep_lookup _ _ _ _ _ Hs Hb Hc Hij) as Hap. unfold apart in Hap. lia.
Qed.

Lemma inv_store s fr lv i b x v :
  inv base start s fr lv -> lv !! i = Some b -> b.1 + 8 <= x < b_end b ->
  inv base start (mkUst (wr (um s) x v) (freep s) (brk s)) fr lv.
Proof.
  intros [Hb0 Hbrk Hl H0 Hs Hg Hso Hf Hfull] Hb Hx.
  assert (Hin : (fr ++ lv) !! (length fr + i)%nat = Some b) 
    by (rewrite lookup_app_r by lia; by replace (length fr + i - length fr)%nat with i by lia).
  assert (Hhd : forall h, h ∈ base :: (fr ++ lv).*1 -> ~ (h <= x < h + 8)).
  { intros h [->|Hh]%elem_of_cons.
    - pose proof (geo_bounds (brk s) (base + 8) _ b ltac:(lia) Hg (list_elem_of_lookup_2 _ _ _ Hin)). lia.
    - apply list_elem_of_fmap in Hh as (c & -> & Hc). apply list_elem_of_lookup in Hc as [j Hc].
      destruct (decide (length fr + i = j)%nat) as [<-|Hne]; [simplify_eq; lia|].
      pose proof (payload_apart _ _ _ _ _ _ _ x Hg Hin Hc Hne Hx).
      pose proof (geo_bounds (brk s) (base + 8) _ c ltac:(lia) Hg (list_elem_of_lookup_2 _ _ _ Hc)).
      unfold b_end in *. lia. }
  assert (Hext : forall h a, h ∈ base :: (fr ++ lv).*1 -> h <= a < h + 8 -> rd (wr (um s) x v) a = rd (um s) a).
  { intros h a Hh Ha. apply rd_wr_ne. specialize (Hhd h Hh). lia. }
  split; simpl; auto.
  - apply (linked_ext (um s) _ (base :: fr.*1)); [|done]. intros a Ha. apply h_ptr_ext. intros. apply (Hext a); [|done].
    rewrite fmap_app. set_solver.
  - rewrite <- H0. apply h_size_ext. intros. apply (Hext base); [set_solver|done].
  - unfold sized in *. rewrite Forall_forall in Hs. apply Forall_forall. intros c Hc. rewrite <- (Hs c Hc).
    apply h_size_ext. intros. apply (Hext c.1); [|done]. right. by apply list_elem_of_fmap_2.
Qed.

Lemma good_store i off v s objs :
  good (s, objs) -> exists st, ustep (UStore i off v) (s, objs) = Some st /\ good st.
Proof.
  intros (lv & Hh & Ho). simpl. destruct (objs !! i) as [[p bs]|] eqn:Ei; [|by eexists; split; [done|exists lv]].
  case_decide as Hoff; [|by eexists; split; [done|exists lv]]. eexists. split; [done|]. exists lv. simpl in *.
  destruct (Forall2_lookup_l _ _ _ _ _ Ho Ei) as (b & Eb & Hp & Hlen & Hrd). cbn [fst snd] in *.
  destruct (heap_inv _ _ _ Hh (list_elem_of_lookup_2 _ _ _ Eb)) as [fr Hi].
  assert (Hx : b.1 + 8 <= p + Z.of_nat off < b_end b) by (unfold b_end; lia).
  split; [left; exists fr; by eapply inv_store|].
  assert (Hg : geo (base + 8) (brk s) lv).
  { eapply geo_sub; [|apply Hi]. by apply submseteq_inserts_l. }
  apply Forall2_same_length_lookup in Ho as [Hsame Ho]. apply Forall2_same_length_lookup.
  split; [by rewrite length_insert|]. intros j o c Hoj Hcj. destruct (decide (i = j)) as [<-|Hij].
  - rewrite list_lookup_insert_eq in Hoj by (by eapply lookup_lt_Some). simplify_eq.
    unfold holds. cbn [fst snd]. rewrite length_insert. split_and!; [done..|].
    apply list_eq_same_length with (n := length bs); [by rewrite length_insert|by rewrite length_rd_bytes|].
    intros k x y Hk Hxk Hyk. rewrite rd_bytes_lookup in Hxk by done. simplify_eq.
    rewrite rd_wr. destruct (decide (off = k)) as [->|Hne].
    + rewrite decide_True by done. rewrite list_lookup_insert_eq in Hyk by done. congruence.
    + rewrite decide_False by lia. rewrite list_lookup_insert_ne in Hyk by done.
      rewrite <- Hrd, rd_bytes_lookup in Hyk by done. congruence.
  - rewrite list_lookup_insert_ne in Hoj by done. destruct (Ho j o c Hoj Hcj) as (Hp' & Hl' & Hr').
    split_and!; auto. rewrite <- Hr' at 2. apply rd_bytes_ext. intros a Ha. apply rd_wr_ne.
    pose proof (payload_apart _ _ _ _ _ _ _ (p + Z.of_nat off) Hg Eb Hcj Hij Hx). unfold b_end in *. lia.
Qed.

Lemma good_step c st : call_ok c -> good st -> exists st', ustep c st = Some st' /\ good st'.
Proof.
  destruct st as [s objs]. destruct c as [n|i|i off v]; intros Hc Hg;
    [by apply good_malloc|by apply good_free|by apply good_store].
Qed.

Lemma good_run cs st : Forall call_ok cs -> good st -> exists st', urun cs st = Some st' /\ good st'.
Proof.
  intros Hcs. revert st. induction Hcs as [|c cs Hc _ IH]; intros st Hg; [by exists st|].
  destruct (good_step c st Hc Hg) as (st1 & E & Hg1). simpl. rewrite E. by apply IH.
Qed.

(** C12. For requests of at most 2^31 - 24 bytes malloc() and free() never loop for ever and never
    hand out memory twice: a program that asks for no larger block, frees only its blocks and
    stores only into them finds in each of its blocks the bytes that
    it stored, each block has the size asked for and lies in the memory that sbrk() gave, and
    no two blocks overlap. No memory is lost: the free list and the blocks of the program
    are all the memory that sbrk() gave. *)
Theorem umalloc_safe cs s :
  fresh base start s -> Forall call_ok cs ->
  exists s' objs, urun cs (s, []) = Some (s', objs) /\
    (forall i o, objs !! i = Some o -> base + 16 <= o.1 /\ o.1 + Z.of_nat (length o.2) <= brk s' /\
       rd_bytes (um s') o.1 (length o.2) = o.2) /\
    (forall i j o o', objs !! i = Some o -> objs !! j = Some o' -> i <> j ->
       o.1 + Z.of_nat (length o.2) <= o'.1 \/ o'.1 + Z.of_nat (length o'.2) <= o.1) /\
    exists fr lv, lv.*1 = (fun o => o.1 - 8) <$> objs /\ 8 * total (fr ++ lv) = brk s' - start /\
      (freep s' <> 0 -> linked (um s') (base :: fr.*1) base).
Proof.
  intros Hf Hcs. destruct (good_run cs (s, []) Hcs) as ([s' objs] & E & lv & Hh & Ho).
  { exists []. split; [by right|constructor]. }
  exists s', objs. split; [done|]. simpl in *. apply Forall2_same_length_lookup in Ho as [Hsame Ho].
  assert (Hget : forall i o, objs !! i = Some o -> exists b, lv !! i = Some b /\ holds (um s') o b).
  { intros i o Hi. destruct (lv !! i) as [b|] eqn:Eb; [by exists b; split; [|apply (Ho i)]|].
    apply lookup_lt_Some in Hi. apply lookup_ge_None in Eb. lia. }
  assert (Hgeo : geo (base + 8) (brk s') lv).
  { destruct Hh as [[fr Hi]|[_ ->]]; [|by split]. eapply geo_sub; [|apply Hi]. by apply submseteq_inserts_l. }
  split_and!.
  - intros i o Hi. destruct (Hget i o Hi) as (b & Hb & Hp & Hl & Hr). destruct Hgeo as [Hin _].
    rewrite Forall_forall in Hin. specialize (Hin b (list_elem_of_lookup_2 _ _ _ Hb)). unfold b_end in Hin.
    split_and!; [lia|lia|done].
  - intros i j o o' Hi Hj Hij. destruct (Hget i o Hi) as (b & Hb & Hp & Hl & _).
    destruct (Hget j o' Hj) as (c & Hc & Hp' & Hl' & _). destruct Hgeo as [Hin Hsep].
    rewrite Forall_forall in Hin. pose proof (Hin b (list_elem_of_lookup_2 _ _ _ Hb)).
    pose proof (Hin c (list_elem_of_lookup_2 _ _ _ Hc)).
    pose proof (sep_lookup _ _ _ _ _ Hsep Hb Hc Hij) as Ha. unfold apart, b_end in *. lia.
  - assert (Hptr : lv.*1 = (fun o => o.1 - 8) <$> objs).
    { apply list_eq. intros i. rewrite !list_lookup_fmap. destruct (objs !! i) as [o|] eqn:Ei; simpl.
      - destruct (Hget i o Ei) as (b & -> & Hp & _). simpl. f_equal. lia.
      - apply lookup_ge_None in Ei. rewrite (lookup_ge_None_2 lv i) by lia. done. }
    destruct Hh as [[fr []]|[(Hf0 & _ & _ & Hst) ->]]; [by exists fr, lv|].
    exists [], []. split_and!; [done|simpl; lia|done].
Qed.
End Client.

(** *** A program *)

Definition demo_ust : ust := mkUst ∅ 0 16384.

Definition demo_calls : list call :=
  [UMalloc 100; UMalloc 50; UStore 0 3 7; UStore 1 0 9; UFree 0; UMalloc 24; UStore 1 0 5].

Lemma umalloc_safe_witness :
  exists s' objs, urun 256 (fun _ _ => true) demo_calls (demo_ust, []) = Some (s', objs) /\
    length objs = 2%nat /\
    (forall i o, objs !! i = Some o -> 256 + 16 <= o.1 /\ o.1 + Z.of_nat (length o.2) <= brk s' /\
       rd_bytes (um s') o.1 (length o.2) = o.2).
Proof.
  destruct (umalloc_safe 256 16384 (fun _ _ => true) demo_calls demo_ust) as (s' & objs & Hrun & Hobj & _).
  - split_and!; [reflexivity|lia|simpl; lia|simpl; lia|reflexivity].
  - unfold demo_calls, call_ok, max_request. repeat constructor; lia.
  - exists s', objs. split; [exact Hrun|]. split; [|exact Hobj].
    assert (E : (length ∘ snd <$> urun 256 (fun _ _ => true) demo_calls (demo_ust, [])) = Some 2%nat)
      by (vm_compute; reflexivity).
    rewrite Hrun in E. simpl in E. congruence.
Defined.

(** malloc() does not refuse a request of almost 4 GB: the computation of the units wraps
    around and the pointer that it returns is the end of the memory of the process. For a
    request of 2 GB the argument of sbrk() is negative: sbrk() gives no memory and malloc()
    returns a block all the same, outside of the memory of the process. *)
Theorem malloc_huge_requests :
  (exists s, malloc 256 (fun _ _ => true) (2 ^ 32 - 1) demo_ust = Some (brk s, s)) /\
  (exists s r, malloc 256 (fun _ _ => true) (2 ^ 31) demo_ust = Some (r, s) /\ r <> 0 /\
     brk s = brk demo_ust /\ brk s < r).
Proof.
  split.
  - assert (E : (fun x => x.1 - brk x.2) <$> malloc 256 (fun _ _ => true) (2 ^ 32 - 1) demo_ust = Some 0)
      by (vm_compute; reflexivity).
    destruct (malloc _ _ _ _) as [[r s]|]; [|done]. simpl in E. exists s. do 2 f_equal. injection E as E. lia.
  - assert (E : (fun x => (x.1, brk x.2)) <$> malloc 256 (fun _ _ => true) (2 ^ 31) demo_ust = Some (16392, 16384))
      by (vm_compute; reflexivity).
    destruct (malloc _ _ _ _) as [[r s]|]; [|done]. simpl in E. simplify_eq. exists s, 16392.
    split_and!; [done|lia|done|lia].
Qed.
