(* ===== verification/Ide.v ===== *)
(** ide.c: the driver of the IDE disk.

    The disk is hardware: it is a parameter, an instance of the class [Ata] of port operations,
    and the class [AtaLaws] states what the driver relies on, the PIO protocol of the device.
    iderw() sleeps in the middle of a call; [i_sleep] has the calls that sleep, each with the
    buffer it waits for and whether it was woken up. The next section of such a call is
    [iderw_resume]. *)

From S2P Require Export Bytes Param Locks.

Open Scope Z_scope.
Open Scope kernel_scope.

Definition SECTOR_SIZE : Z := 512.
Definition IDE_BSY : Z := 128.
Definition IDE_DRDY : Z := 64.
Definition IDE_DF : Z := 32.
Definition IDE_ERR : Z := 1.
Definition IDE_CMD_READ : Z := 32.
Definition IDE_CMD_WRITE : Z := 48.
Definition IDE_CMD_RDMUL : Z := 196.
Definition IDE_CMD_WRMUL : Z := 197.

(** inb(), outb(), outsl() and insl() on the ports of the device, and what it does when it
    finishes a command and raises its interrupt. *)
Class Ata (C : Type) := {
  a_in : Z -> C -> Z * C;
  a_out : Z -> Z -> C -> C;
  a_outs : Z -> list Z -> C -> C;
  a_ins : Z -> Z -> C -> list Z * C;
  a_irq : C -> C;
}.

(** struct buf, the fields that the driver uses; the sleep lock is held or not. *)
Record dbuf := mkDbuf {
  d_flags : Z;
  d_dev : Z;
  d_blockno : Z;
  d_locked : bool;
  d_qnext : option nat;
  d_data : list Z;
}.

#[export] Instance dbuf_inhabited : Inhabited dbuf := populate (mkDbuf 0 0 0 false None []).

Definition d_set_flags (v : Z) (b : dbuf) : dbuf :=
  mkDbuf v (d_dev b) (d_blockno b) (d_locked b) (d_qnext b) (d_data b).
Definition d_set_qnext (v : option nat) (b : dbuf) : dbuf :=
  mkDbuf (d_flags b) (d_dev b) (d_blockno b) (d_locked b) v (d_data b).
Definition d_set_data (v : list Z) (b : dbuf) : dbuf :=
  mkDbuf (d_flags b) (d_dev b) (d_blockno b) (d_locked b) (d_qnext b) v.

Section Driver.
Context {C : Type} `{!Ata C}.

Record ide := mkIde {
  i_lock : bool;
  idequeue : option nat;
  havedisk1 : bool;
  i_bufs : list dbuf;
  i_ctl : C;
  i_sleep : list (nat * bool);
}.

Definition ide_set_lock (v : bool) (s : ide) : ide :=
  mkIde v (idequeue s) (havedisk1 s) (i_bufs s) (i_ctl s) (i_sleep s).
Definition set_idequeue (v : option nat) (s : ide) : ide :=
  mkIde (i_lock s) v (havedisk1 s) (i_bufs s) (i_ctl s) (i_sleep s).
Definition set_havedisk1 (v : bool) (s : ide) : ide :=
  mkIde (i_lock s) (idequeue s) v (i_bufs s) (i_ctl s) (i_sleep s).
Definition set_bufs (v : list dbuf) (s : ide) : ide :=
  mkIde (i_lock s) (idequeue s) (havedisk1 s) v (i_ctl s) (i_sleep s).
Definition set_ctl (v : C) (s : ide) : ide :=
  mkIde (i_lock s) (idequeue s) (havedisk1 s) (i_bufs s) v (i_sleep s).
Definition set_isleep (v : list (nat * bool)) (s : ide) : ide :=
  mkIde (i_lock s) (idequeue s) (havedisk1 s) (i_bufs s) (i_ctl s) v.

Definition idelock : lens ide bool := mkLens i_lock ide_set_lock.
Definition dbufat (s : ide) (b : nat) : dbuf := i_bufs s !!! b.
Definition upd_dbuf (b : nat) (f : dbuf -> dbuf) (s : ide) : ide := set_bufs (alter f b (i_bufs s)) s.

Definition inb (port : Z) : M ide Z := fun s =>
  let '(v, c) := a_in port (i_ctl s) in Ret v (set_ctl c s).
Definition outb (port v : Z) : M ide unit := modify (fun s => set_ctl (a_out port (u8 v) (i_ctl s)) s).
Definition outsl (port : Z) (addr : list Z) (cnt : Z) : M ide unit :=
  modify (fun s => set_ctl (a_outs port (take (Z.to_nat (4 * cnt)) addr) (i_ctl s)) s).
Definition insl (port cnt : Z) : M ide (list Z) := fun s =>
  let '(d, c) := a_ins port cnt (i_ctl s) in Ret d (set_ctl c s).

(** wakeup(b) *)
Definition wakeup_b (b : nat) : M ide unit :=
  modify (fun s => set_isleep ((fun '(c, w) => (c, w || (c =? b)%nat)) <$> i_sleep s) s).

(** The code polls the device for ever; [polls] bounds the number of reads. *)
Context (polls : nat).

Fixpoint idewait_loop (fuel : nat) : M ide Z :=
  match fuel with
  | O => diverge
  | S f =>
      r <- inb 0x1f7 ;;
      if negb (Z.land r (Z.lor IDE_BSY IDE_DRDY) =? IDE_DRDY) then idewait_loop f else ret r
  end.

Definition idewait (checkerr : bool) : M ide Z :=
  r <- idewait_loop polls ;;
  if checkerr && negb (Z.land r (Z.lor IDE_DF IDE_ERR) =? 0) then ret (-1) else ret 0.

(** The search for disk 1 in ideinit(). *)
Fixpoint find_disk1 (n : nat) : M ide unit :=
  match n with
  | O => ret tt
  | S n' => r <- inb 0x1f7 ;; if negb (r =? 0) then modify (set_havedisk1 true) else find_disk1 n'
  end.

(** ideinit(), without picenable(IRQ_IDE) and ioapicenable(IRQ_IDE, ncpu - 1): the interrupt
    controllers are those of Irq.v. *)
Definition ideinit : M ide unit :=
  modify (ide_set_lock false) ;;
  idewait false ;;
  outb 0x1f6 (Z.lor 0xe0 (Z.shiftl 1 4)) ;;
  find_disk1 1000 ;;
  outb 0x1f6 (Z.lor 0xe0 (Z.shiftl 0 4)).

Definition idestart (ob : option nat) : M ide unit :=
  match ob with
  | None => panic "idestart"
  | Some b =>
      x <- gets (fun s => dbufat s b) ;;
      if FSSIZE <=? d_blockno x then panic "incorrect blockno" else
      let sector_per_block := BSIZE / SECTOR_SIZE in
      let sector := s32 (d_blockno x * sector_per_block) in
      let read_cmd := if sector_per_block =? 1 then IDE_CMD_READ else IDE_CMD_RDMUL in
      let write_cmd := if sector_per_block =? 1 then IDE_CMD_WRITE else IDE_CMD_WRMUL in
      if 7 <? sector_per_block then panic "idestart" else
      idewait false ;;
      outb 0x3f6 0 ;;
      outb 0x1f2 sector_per_block ;;
      outb 0x1f3 (Z.land sector 0xff) ;;
      outb 0x1f4 (Z.land (Z.shiftr sector 8) 0xff) ;;
      outb 0x1f5 (Z.land (Z.shiftr sector 16) 0xff) ;;
      outb 0x1f6 (Z.lor (Z.lor 0xe0 (Z.shiftl (Z.land (d_dev x) 1) 4)) (Z.land (Z.shiftr sector 24) 0x0f)) ;;
      if negb (Z.land (d_flags x) B_DIRTY =? 0) then
        outb 0x1f7 write_cmd ;; outsl 0x1f0 (d_data x) (BSIZE / 4)
      else outb 0x1f7 read_cmd
  end.

Definition ideintr : M ide unit :=
  acquire idelock ;;
  q <- gets idequeue ;;
  match q with
  | None => release idelock
  | Some b =>
      x <- gets (fun s => dbufat s b) ;;
      modify (set_idequeue (d_qnext x)) ;;
      (if Z.land (d_flags x) B_DIRTY =? 0 then
         r <- idewait true ;;
         when (0 <=? r) (d <- insl 0x1f0 (BSIZE / 4) ;; modify (upd_dbuf b (d_set_data d)))
       else ret tt) ;;
      modify (upd_dbuf b (fun y => d_set_flags (Z.lor (d_flags y) B_VALID) y)) ;;
      modify (upd_dbuf b (fun y => d_set_flags (Z.land (d_flags y) (Z.lnot B_DIRTY)) y)) ;;
      wakeup_b b ;;
      q' <- gets idequeue ;;
      when (bool_decide (q' <> None)) (idestart q') ;;
      release idelock
  end.

(** The loop over [pp], from the pointer to the buffer [p], and the store of [b] at the end. *)
Fixpoint append_queue (fuel : nat) (p b : nat) : M ide unit :=
  match fuel with
  | O => diverge
  | S f =>
      x <- gets (fun s => dbufat s p) ;;
      match d_qnext x with
      | None => modify (upd_dbuf p (d_set_qnext (Some b)))
      | Some p' => append_queue f p' b
      end
  end.

(** The loop that waits: the call returns ([true]) or sleeps. *)
Definition iderw_wait (b : nat) : M ide bool :=
  x <- gets (fun s => dbufat s b) ;;
  if Z.land (d_flags x) (Z.lor B_VALID B_DIRTY) =? B_VALID
  then release idelock ;; ret true
  else modify (fun s => set_isleep (i_sleep s ++ [(b, false)]) s) ;; release idelock ;; ret false.

Definition iderw (b : nat) : M ide bool :=
  x <- gets (fun s => dbufat s b) ;;
  if negb (d_locked x) then panic "iderw: buf not locked" else
  if Z.land (d_flags x) (Z.lor B_VALID B_DIRTY) =? B_VALID then panic "iderw: nothing to do" else
  d1 <- gets havedisk1 ;;
  if negb (d_dev x =? 0) && negb d1 then panic "iderw: ide disk 1 not present" else
  acquire idelock ;;
  modify (upd_dbuf b (d_set_qnext None)) ;;
  q <- gets idequeue ;;
  (match q with
   | None => modify (set_idequeue (Some b))
   | Some p => n <- gets (fun s => length (i_bufs s)) ;; append_queue n p b
   end) ;;
  q <- gets idequeue ;;
  when (bool_decide (q = Some b)) (idestart (Some b)) ;;
  iderw_wait b.

(** A call that sleep() returns to. *)
Definition iderw_resume (b : nat) : M ide bool := acquire idelock ;; iderw_wait b.

End Driver.
Arguments ide C : clear implicits.

(** ** The IDE driver implements a queue of requests to a disk.

    The specification serves the requests one at a time, in order, each as memide.c does; the
    driver does it with a list threaded through the buffers, a device that works while the
    processes sleep, and interrupts. *)

(** *** The device *)

(** What the device is doing: it waits for a command, for the data of a write to a sector of a
    unit, it reads or writes, or it has the data of a read. *)
Inductive phase :=
| Idle
| AwaitData (u lba : Z)
| Reading (u lba : Z)
| Writing (u lba : Z) (d : list Z)
| DataReady (u lba : Z).

(** The task file: the ports of the sector count, the sector number and the unit. *)
Definition task_ports : list Z := [0x3f6; 0x1f2; 0x1f3; 0x1f4; 0x1f5; 0x1f6].

Class AtaView (C : Type) := {
  a_phase : C -> phase;
  a_reg : C -> Z -> Z;
  a_sector : C -> Z -> Z -> list Z;
}.

Section Laws.
Context {C : Type} `{!Ata C} `{!AtaView C}.

Definition unit_of (c : C) : Z := Z.land (Z.shiftr (a_reg c 0x1f6) 4) 1.
Definition lba_of (c : C) : Z :=
  Z.lor (a_reg c 0x1f3) (Z.lor (Z.shiftl (a_reg c 0x1f4) 8)
    (Z.lor (Z.shiftl (a_reg c 0x1f5) 16) (Z.shiftl (Z.land (a_reg c 0x1f6) 15) 24))).

(** Reads of the status port until the device is ready. *)
Fixpoint poll (n : nat) (c : C) : option (Z * C) :=
  match n with
  | O => None
  | S n' =>
      let '(r, c') := a_in 0x1f7 c in
      if negb (Z.land r (Z.lor IDE_BSY IDE_DRDY) =? IDE_DRDY) then poll n' c' else Some (r, c')
  end.

(** Nothing but the answers to status reads changed. *)
Record still (c c' : C) : Prop := {
  sl_phase : a_phase c' = a_phase c;
  sl_reg : forall p, a_reg c' p = a_reg c p;
  sl_sector : forall u l, a_sector c' u l = a_sector c u l;
}.

(** The PIO protocol of the device, without errors of the disk. *)
Class AtaLaws (polls : nat) : Prop := {
  law_ready : forall c, a_phase c = Idle \/ (exists u l, a_phase c = DataReady u l) ->
    exists r c', poll polls c = Some (r, c') /\ Z.land r (Z.lor IDE_DF IDE_ERR) = 0;
  law_status : forall c, still c (snd (a_in 0x1f7 c));
  law_task : forall c p v, a_phase c = Idle -> p ∈ task_ports -> is_byte v ->
    a_phase (a_out p v c) = Idle /\ (forall q, a_reg (a_out p v c) q = if decide (q = p) then v else a_reg c q) /\
    (forall u l, a_sector (a_out p v c) u l = a_sector c u l);
  law_read : forall c, a_phase c = Idle -> a_reg c 0x1f2 = 1 ->
    a_phase (a_out 0x1f7 IDE_CMD_READ c) = Reading (unit_of c) (lba_of c) /\
    (forall u l, a_sector (a_out 0x1f7 IDE_CMD_READ c) u l = a_sector c u l);
  law_write : forall c, a_phase c = Idle -> a_reg c 0x1f2 = 1 ->
    a_phase (a_out 0x1f7 IDE_CMD_WRITE c) = AwaitData (unit_of c) (lba_of c) /\
    (forall u l, a_sector (a_out 0x1f7 IDE_CMD_WRITE c) u l = a_sector c u l);
  law_outs : forall c u l d, a_phase c = AwaitData u l -> length d = Z.to_nat SECTOR_SIZE ->
    a_phase (a_outs 0x1f0 d c) = Writing u l d /\
    (forall u' l', a_sector (a_outs 0x1f0 d c) u' l' = a_sector c u' l');
  law_irq_idle : forall c, a_phase c = Idle ->
    a_phase (a_irq c) = Idle /\ (forall u l, a_sector (a_irq c) u l = a_sector c u l);
  law_irq_read : forall c u l, a_phase c = Reading u l ->
    a_phase (a_irq c) = DataReady u l /\ (forall u' l', a_sector (a_irq c) u' l' = a_sector c u' l');
  law_irq_write : forall c u l d, a_phase c = Writing u l d ->
    a_phase (a_irq c) = Idle /\
    (forall u' l', a_sector (a_irq c) u' l' = if decide (u' = u /\ l' = l) then d else a_sector c u' l');
  law_ins : forall c u l, a_phase c = DataReady u l ->
    fst (a_ins 0x1f0 (SECTOR_SIZE / 4) c) = a_sector c u l /\
    a_phase (snd (a_ins 0x1f0 (SECTOR_SIZE / 4) c)) = Idle /\
    (forall u' l', a_sector (snd (a_ins 0x1f0 (SECTOR_SIZE / 4) c)) u' l' = a_sector c u' l');
}.
End Laws.
Arguments AtaLaws C {_ _} polls.

(** *** Requests *)

(** A process that holds the lock of the buffer [b] sets its fields and calls iderw(); the
    device finishes a command and interrupts; the next section of the [i]-th call that
    sleeps. *)
Inductive ievent :=
| Request (b : nat) (flags dev blockno : Z) (data : list Z)
| Interrupt
| Continue (i : nat).

(** The calls that the callers of iderw() make: not for a buffer that is clean, and with a block
    of a disk that is there. *)
Record request_ok (d1 : bool) (x : dbuf) : Prop := {
  rq_work : Z.land (d_flags x) (Z.lor B_VALID B_DIRTY) <> B_VALID;
  rq_dev : d_dev x = 0 \/ d_dev x = 1 /\ d1 = true;
  rq_block : 0 <= d_blockno x < FSSIZE;
  rq_data : length (d_data x) = Z.to_nat BSIZE;
}.

Definition ievent_ok (nbuf : nat) (d1 : bool) (ev : ievent) : Prop :=
  match ev with
  | Request b flags dev blockno data =>
      (b < nbuf)%nat /\ request_ok d1 (mkDbuf flags dev blockno true None data)
  | _ => True
  end.

(** *** The program *)

Section System.
Context {C : Type} `{!Ata C} (polls : nat).

(** The driver, and the buffers of the calls that returned with their contents then. *)
Record isys := mkIsys { is_ide : ide C; is_done : list (nat * list Z) }.

Definition on_ide {A} (m : M (ide C) A) : M isys A := lift is_ide (fun i s => mkIsys i (is_done s)) m.


Definition call_end (b : nat) (returned : bool) : M isys unit :=
  when returned
    (modify (fun s => mkIsys (is_ide s) (is_done s ++ [(b, d_data (dbufat (is_ide s) b))]))).

(** A process inside iderw() has the lock of the buffer, so nobody else can use it. *)
Definition in_call (s : ide C) (b : nat) : bool := bool_decide (b ∈ (i_sleep s).*1).

Definition istep (ev : ievent) : M isys unit :=
  match ev with
  | Request b flags dev blockno data =>
      s <- gets is_ide ;;
      when (negb (in_call s b))
        (on_ide (modify (upd_dbuf b (fun y => mkDbuf flags dev blockno true (d_qnext y) data))) ;;
         r <- on_ide (iderw polls b) ;; call_end b r)
  | Interrupt =>
      on_ide (modify (fun s => set_ctl (a_irq (i_ctl s)) s)) ;;
      on_ide (ideintr polls)
  | Continue i =>
      s <- gets is_ide ;;
      match i_sleep s !! i with
      | Some (b, true) =>
          on_ide (modify (set_isleep (remove_nth i (i_sleep s)))) ;;
          r <- on_ide (iderw_resume b) ;; call_end b r
      | _ => ret tt
      end
  end.

Fixpoint irun (evs : list ievent) : M isys unit :=
  match evs with
  | [] => ret tt
  | ev :: evs' => istep ev ;; irun evs'
  end.
End System.
Arguments isys C : clear implicits.

(** *** The specification *)

(** A queue of buffers, the buffers without links, the sectors of the disk, the calls that sleep
    and those that returned. *)
Record vdisk := mkVdisk {
  v_queue : list nat;
  v_bufs : list dbuf;
  v_sector : Z -> Z -> list Z;
  v_sleep : list (nat * bool);
  v_done : list (nat * list Z);
}.

Definition dirty_req (x : dbuf) : bool := negb (Z.land (d_flags x) B_DIRTY =? 0).

(** A request is served: the block is written or read, as memide.c does, and the buffer is
    valid and clean. *)
Definition serve_buf (sec : Z -> Z -> list Z) (x : dbuf) : dbuf :=
  mkDbuf (Z.land (Z.lor (d_flags x) B_VALID) (Z.lnot B_DIRTY)) (d_dev x) (d_blockno x) (d_locked x) None
    (if dirty_req x then d_data x else sec (d_dev x) (d_blockno x)).
Definition serve_disk (sec : Z -> Z -> list Z) (x : dbuf) (u l : Z) : list Z :=
  if dirty_req x && bool_decide (u = d_dev x /\ l = d_blockno x) then d_data x else sec u l.

Definition woken_by (b : nat) (l : list (nat * bool)) : list (nat * bool) :=
  (fun '(c, w) => (c, w || (c =? b)%nat)) <$> l.

Definition vstep (v : vdisk) (ev : ievent) : vdisk :=
  match ev with
  | Request b flags dev blockno data =>
      if decide (b ∈ (v_sleep v).*1) then v
      else mkVdisk (v_queue v ++ [b]) (<[b := mkDbuf flags dev blockno true None data]> (v_bufs v))
             (v_sector v) (v_sleep v ++ [(b, false)]) (v_done v)
  | Interrupt =>
      match v_queue v with
      | [] => v
      | b :: q =>
          let x := v_bufs v !!! b in
          mkVdisk q (<[b := serve_buf (v_sector v) x]> (v_bufs v)) (serve_disk (v_sector v) x)
            (woken_by b (v_sleep v)) (v_done v)
      end
  | Continue i =>
      match v_sleep v !! i with
      | Some (b, true) =>
          mkVdisk (v_queue v) (v_bufs v) (v_sector v) (remove_nth i (v_sleep v))
            (v_done v ++ [(b, d_data (v_bufs v !!! b))])
      | _ => v
      end
  end.

Definition vrun (evs : list ievent) (v : vdisk) : vdisk := foldl vstep v evs.

(** *** The invariant of the specification *)

(** The buffers of the calls that were not woken up. *)
Definition unwoken (l : list (nat * bool)) : list nat :=
  omap (fun '(b, w) => if (w : bool) then None else Some b) l.

(** The specification: who sleeps and was not woken up is in the queue, in order; the requests
    are the ones of the calls, and who was woken up has its buffer. *)
Record vinv (d1 : bool) (v : vdisk) : Prop := {
  vi_nodup : NoDup (v_sleep v).*1;
  vi_queue : v_queue v = unwoken (v_sleep v);
  vi_range : forall b, b ∈ (v_sleep v).*1 -> (b < length (v_bufs v))%nat;
  vi_req : forall b, b ∈ v_queue v -> request_ok d1 (v_bufs v !!! b);
  vi_done : forall b, (b, true) ∈ v_sleep v ->
    Z.land (d_flags (v_bufs v !!! b)) (Z.lor B_VALID B_DIRTY) = B_VALID;
}.

Lemma elem_of_unwoken b l : b ∈ unwoken l <-> (b, false) ∈ l.
Proof.
  unfold unwoken. rewrite list_elem_of_omap. split.
  - intros ([c []] & Hin & E); [done|]. by injection E as ->.
  - intros. by exists (b, false).
Qed.

Lemma woken_by_fst b l : (woken_by b l).*1 = l.*1.
Proof. unfold woken_by. induction l as [|[c w] l IH]; [done|]. cbn. by rewrite IH. Qed.

Lemma woken_by_out b l : b ∉ l.*1 -> woken_by b l = l.
Proof.
  induction l as [|[c w] l IH]; [done|]. cbn. intros Hb. apply not_elem_of_cons in Hb as [Hne Hb].
  rewrite (proj2 (Nat.eqb_neq c b)), orb_false_r by done. f_equal. by apply IH.
Qed.

(** Serving the first of the queue takes it from those that wait. *)
Lemma unwoken_serve b q l : NoDup l.*1 -> unwoken l = b :: q -> unwoken (woken_by b l) = q.
Proof.
  induction l as [|[c w] l IH]; [done|]. cbn. intros Hnd E. apply NoDup_cons in Hnd as [Hc Hnd].
  destruct w; cbn.
  - by apply IH.
  - injection E as -> E. rewrite Nat.eqb_refl. cbn. fold (woken_by b l). by rewrite woken_by_out.
Qed.

Lemma unwoken_remove i b l : l !! i = Some (b, true) -> unwoken (remove_nth i l) = unwoken l.
Proof.
  intros Hi. unfold remove_nth. rewrite <-(take_drop_middle l i (b, true) Hi) at 3.
  unfold unwoken. by rewrite !omap_app.
Qed.

Lemma served_valid f : Z.land (Z.land (Z.lor f B_VALID) (Z.lnot B_DIRTY)) (Z.lor B_VALID B_DIRTY) = B_VALID.
Proof.
  apply Z.bits_inj'. intros n Hn.
  rewrite !Z.land_spec, !Z.lor_spec, Z.lnot_spec by lia.
  change B_VALID with (2 ^ 1). change B_DIRTY with (2 ^ 2). rewrite !Z.pow2_bits_eqb by lia.
  destruct (Z.eqb_spec 1 n), (Z.eqb_spec 2 n); subst; try lia; by destruct (Z.testbit f _).
Qed.

Section Steps.
Context (d1 : bool) (v : vdisk) (Hv : vinv d1 v).

Lemma vinv_request b flags dev blockno data :
  ievent_ok (length (v_bufs v)) d1 (Request b flags dev blockno data) ->
  vinv d1 (vstep v (Request b flags dev blockno data)).
Proof using Hv.
  destruct Hv as [Hnd Hq Hr Hreq Hd]. intros [Hb Hok]. cbn [vstep].
  case_decide as Hin; [done|].
  split; cbn [v_queue v_bufs v_sleep v_sector v_done].
  - rewrite fmap_app. apply NoDup_app. cbn. split_and!; [done| |apply NoDup_singleton]. set_solver.
  - unfold unwoken. by rewrite omap_app, Hq.
  - intros b'. rewrite length_insert, fmap_app. cbn. set_solver.
  - intros b' [Hb'| ->%list_elem_of_singleton]%elem_of_app.
    + rewrite list_lookup_total_insert_ne; [by apply Hreq|].
      intros ->. apply Hin. rewrite Hq in Hb'. apply elem_of_unwoken in Hb'.
      by apply (list_elem_of_fmap_2' fst _ (b', false)).
    + by rewrite list_lookup_total_insert_eq.
  - intros b' [Hb'|[=]%list_elem_of_singleton]%elem_of_app.
    rewrite list_lookup_total_insert_ne; [by apply Hd|].
    intros ->. apply Hin. by apply (list_elem_of_fmap_2' fst _ (b', true)).
Qed.

(** The first of the queue is asleep, and nobody else has its buffer. *)
Lemma vinv_head b q : v_queue v = b :: q ->
  (b, false) ∈ v_sleep v /\ (b < length (v_bufs v))%nat /\ request_ok d1 (v_bufs v !!! b).
Proof using Hv.
  destruct Hv as [Hnd Hq Hr Hreq Hd]. intros Eq.
  assert ((b, false) ∈ v_sleep v) as Hb by (apply elem_of_unwoken; rewrite <-Hq, Eq; set_solver).
  split_and!; [done| |apply Hreq; rewrite Eq; set_solver].
  apply Hr. by apply (list_elem_of_fmap_2' fst _ (b, false)).
Qed.

Lemma vinv_queue_nodup : NoDup (v_queue v).
Proof using Hv.
  destruct Hv as [Hnd -> _ _ _]. clear Hv. induction (v_sleep v) as [|[b w] l IH]; [constructor|].
  cbn in *. apply NoDup_cons in Hnd as [Hb Hnd]. destruct w; [by apply IH|].
  apply NoDup_cons. split; [|by apply IH]. intros Hin. apply Hb.
  apply (list_elem_of_fmap_2' fst _ (b, false)); [by apply elem_of_unwoken|done].
Qed.

Lemma vinv_interrupt : vinv d1 (vstep v Interrupt).
Proof using Hv.
  destruct Hv as [Hnd Hq Hr Hreq Hd]. cbn [vstep].
  destruct (v_queue v) as [|b q] eqn:Eq; [by constructor; rewrite ?Eq|].
  destruct (vinv_head b q Eq) as (Hb & Hlt & _).
  pose proof vinv_queue_nodup as Hndq. rewrite Eq in Hndq. apply NoDup_cons in Hndq as [Hbq Hndq].
  split; cbn [v_queue v_bufs v_sleep v_sector v_done].
  - by rewrite woken_by_fst.
  - symmetry. by apply unwoken_serve.
  - intros b'. rewrite woken_by_fst, length_insert. apply Hr.
  - intros b' Hb'. rewrite list_lookup_total_insert_ne by set_solver. apply Hreq. set_solver.
  - intros b' Hb'. destruct (decide (b' = b)) as [->|Hne].
    + rewrite list_lookup_total_insert_eq by done. cbn. apply served_valid.
    + rewrite list_lookup_total_insert_ne by done. apply Hd.
      unfold woken_by in Hb'. apply list_elem_of_fmap in Hb' as ([c w] & E & Hin).
      injection E as -> E. rewrite (proj2 (Nat.eqb_neq c b)), orb_false_r in E by done. by subst w.
Qed.

Lemma vinv_continue i : vinv d1 (vstep v (Continue i)).
Proof using Hv.
  destruct Hv as [Hnd Hq Hr Hreq Hd]. cbn [vstep].
  destruct (v_sleep v !! i) as [[b []]|] eqn:Ei; [|done..].
  pose proof (remove_nth_perm _ _ _ Ei) as Hp.
  split; cbn [v_queue v_bufs v_sleep v_sector v_done].
  - rewrite Hp in Hnd. cbn in Hnd. by apply NoDup_cons in Hnd as [_ ?].
  - by rewrite (unwoken_remove _ _ _ Ei).
  - intros b' Hb'. apply Hr. rewrite Hp. cbn. set_solver.
  - done.
  - intros b' Hb'. apply Hd. rewrite Hp. set_solver.
Qed.

Lemma vstep_inv ev : ievent_ok (length (v_bufs v)) d1 ev -> vinv d1 (vstep v ev).
Proof using Hv.
  destruct ev; [apply vinv_request|intros _; apply vinv_interrupt|intros _; apply vinv_continue].
Qed.

Lemma vstep_length ev : length (v_bufs (vstep v ev)) = length (v_bufs v).
Proof.
  destruct ev as [b flags dev blockno data| |i]; cbn [vstep].
  - case_decide; cbn; [done|by rewrite length_insert].
  - destruct (v_queue v); cbn; [done|by rewrite length_insert].
  - by destruct (v_sleep v !! i) as [[b []]|].
Qed.
End Steps.

(** *** The driver and the device *)

Lemma part_bit l k w n : 0 <= n -> 0 <= k -> 0 <= w ->
  Z.testbit (Z.shiftl (Z.land (Z.shiftr l k) (Z.ones w)) k) n
  = (k <=? n) && (n <? k + w) && Z.testbit l n.
Proof.
  intros Hn Hk Hw. rewrite Z.shiftl_spec by lia.
  destruct (Z.leb_spec k n) as [Hkn|Hkn]; [|by rewrite Z.testbit_neg_r by lia].
  rewrite Z.land_spec, Z.shiftr_spec by lia. replace (n - k + k) with n by lia.
  destruct (Z.ltb_spec n (k + w)).
  - rewrite Z.ones_spec_low by lia. by rewrite andb_true_r.
  - rewrite Z.ones_spec_high by lia. by rewrite andb_false_r.
Qed.

(** The four registers of the sector number hold it. *)
Lemma lba_parts l : 0 <= l < 2 ^ 28 ->
  Z.lor (Z.land l 0xff) (Z.lor (Z.shiftl (Z.land (Z.shiftr l 8) 0xff) 8)
    (Z.lor (Z.shiftl (Z.land (Z.shiftr l 16) 0xff) 16)
       (Z.shiftl (Z.land (Z.shiftr l 24) 15) 24))) = l.
Proof.
  intros Hl. apply Z.bits_inj'. intros n Hn.
  change 0xff with (Z.ones 8). change 15 with (Z.ones 4).
  rewrite <-(Z.shiftl_0_r (Z.land l (Z.ones 8))), <-(Z.shiftr_0_r l) at 1.
  rewrite !Z.lor_spec, !part_bit by lia.
  destruct (decide (n < 28)).
  - destruct (Z.testbit l n); [|by rewrite !andb_false_r].
    rewrite !andb_true_r. apply eq_true_iff_eq. rewrite !orb_true_iff, !andb_true_iff. lia.
  - replace (Z.testbit l n) with false; [by rewrite !andb_false_r|].
    symmetry. destruct (decide (l = 0)) as [->|]; [apply Z.bits_0|].
    apply Z.bits_above_log2; [lia|]. apply Z.log2_lt_pow2; [lia|].
    assert (2 ^ 28 <= 2 ^ n) by (apply Z.pow_le_mono_r; lia). lia.
Qed.

(** The same of the driver: what it writes for a block of a unit. *)
Lemma unit_part u : u = 0 \/ u = 1 ->
  Z.land (Z.shiftr (u8 (Z.lor (Z.lor 0xe0 (Z.shiftl (Z.land u 1) 4)) 0)) 4) 1 = u.
Proof. by intros [-> | ->]. Qed.

Section Device.
Context {C : Type} `{!Ata C} `{!AtaView C} (polls : nat) `{!AtaLaws C polls}.
Implicit Types (s : ide C) (c : C).

(** What the device does for a request. *)
Definition started (x : dbuf) : phase :=
  if dirty_req x then Writing (d_dev x) (d_blockno x) (d_data x)
  else Reading (d_dev x) (d_blockno x).

Definition same_disk c c' : Prop := forall u l, a_sector c' u l = a_sector c u l.

Lemma idewait_loop_poll n s :
  idewait_loop n s = match poll n (i_ctl s) with
                     | Some (r, c) => Ret r (set_ctl c s)
                     | None => Diverge
                     end.
Proof.
  revert s. induction n as [|n IH]; intros s; [done|].
  cbn [idewait_loop poll]. unfold bind, inb. destruct (a_in 0x1f7 (i_ctl s)) as [r c].
  destruct (negb _); [|done]. rewrite IH. cbn [i_ctl set_ctl].
  by destruct (poll n c) as [[??]|].
Qed.

Lemma still_trans c c' c'' : still c c' -> still c' c'' -> still c c''.
Proof. intros [H1 H2 H3] [G1 G2 G3]. split; intros; by rewrite ?G1, ?G2, ?G3. Qed.

Lemma poll_still n c r c' : poll n c = Some (r, c') -> still c c'.
Proof using AtaLaws0.
  revert c. induction n as [|n IH]; intros c; [done|]. cbn.
  pose proof (law_status (polls := polls) c) as H. destruct (a_in 0x1f7 c) as [v c1]. cbn in H.
  destruct (negb _); [|by intros [= <- <-]]. intros E. by apply (still_trans _ c1), IH.
Qed.

Lemma idewait_correct s ce :
  a_phase (i_ctl s) = Idle \/ (exists u l, a_phase (i_ctl s) = DataReady u l) ->
  exists c, idewait polls ce s = Ret 0 (set_ctl c s) /\ still (i_ctl s) c.
Proof.
  intros Hp. destruct (law_ready _ Hp) as (r & c & E & Hr).
  exists c. split; [|by apply (poll_still polls _ r)]. unfold idewait, bind. rewrite idewait_loop_poll, E, Hr.
  by rewrite andb_false_r.
Qed.

Lemma outb_run s p v : outb p v s = Ret tt (set_ctl (a_out p (u8 v) (i_ctl s)) s).
Proof. done. Qed.

(** A register of the task file is written. *)
Lemma task_out c p v : a_phase c = Idle -> p ∈ task_ports ->
  a_phase (a_out p (u8 v) c) = Idle /\
  (forall q, a_reg (a_out p (u8 v) c) q = if decide (q = p) then u8 v else a_reg c q) /\
  same_disk c (a_out p (u8 v) c).
Proof. intros. apply law_task; [done..|]. unfold is_byte, u8. apply Z.mod_pos_bound. lia. Qed.

(** Writes of registers, in order, and what a register has after them. *)
Definition outs_task (l : list (Z * Z)) (c : C) : C := foldl (fun c '(p, v) => a_out p (u8 v) c) c l.
Definition last_out (q : Z) (l : list (Z * Z)) (v0 : Z) : Z :=
  foldl (fun v '(p, w) => if decide (q = p) then u8 w else v) v0 l.

Lemma outs_task_correct l c : a_phase c = Idle -> Forall (fun pv => pv.1 ∈ task_ports) l ->
  a_phase (outs_task l c) = Idle /\ (forall q, a_reg (outs_task l c) q = last_out q l (a_reg c q)) /\
  same_disk c (outs_task l c).
Proof.
  intros Hc Hl. revert c Hc. induction Hl as [|[p v] l Hp _ IH]; intros c Hc; [done|].
  destruct (task_out c p v Hc Hp) as (H1 & R1 & D1). cbn [outs_task foldl].
  destruct (IH _ H1) as (H2 & R2 & D2). split_and!; [done| |].
  - intros q. unfold outs_task in R2. rewrite R2, R1. done.
  - intros u k. unfold outs_task in D2. by rewrite D2, D1.
Qed.

(** The registers of a request. *)
Definition request_regs (sector u : Z) : list (Z * Z) :=
  [(0x3f6, 0); (0x1f2, 1); (0x1f3, Z.land sector 0xff); (0x1f4, Z.land (Z.shiftr sector 8) 0xff);
   (0x1f5, Z.land (Z.shiftr sector 16) 0xff);
   (0x1f6, Z.lor (Z.lor 0xe0 (Z.shiftl (Z.land u 1) 4)) (Z.land (Z.shiftr sector 24) 0x0f))].

Lemma u8_land x : u8 (Z.land x 0xff) = Z.land x 0xff.
Proof.
  unfold u8. change 0xff with (Z.ones 8). rewrite Z.land_ones by lia. apply Z.mod_mod. lia.
Qed.

Lemma request_regs_correct c sector u :
  a_phase c = Idle -> 0 <= sector < 2 ^ 24 -> u = 0 \/ u = 1 ->
  let c' := outs_task (request_regs sector u) c in
  a_phase c' = Idle /\ a_reg c' 0x1f2 = 1 /\ unit_of c' = u /\ lba_of c' = sector /\ same_disk c c'.
Proof.
  intros Hc Hs Hu c'.
  destruct (outs_task_correct (request_regs sector u) c Hc) as (H & R & D).
  { repeat constructor; cbn; set_solver. }
  fold c' in H, R, D. unfold unit_of, lba_of. rewrite !R.
  assert (Z.shiftr sector 24 = 0) as H24.
  { rewrite Z.shiftr_div_pow2 by lia. apply Z.div_small. lia. }
  split_and!; [done|done| | |done].
  - cbn [last_out foldl request_regs decide]. rewrite H24. by destruct Hu as [-> | ->].
  - rewrite <-(lba_parts sector) at 5 by lia. cbn. rewrite !u8_land, H24.
    by destruct Hu as [-> | ->].
Qed.

Lemma idestart_correct s b d1 : request_ok d1 (dbufat s b) -> a_phase (i_ctl s) = Idle ->
  exists c, idestart polls (Some b) s = Ret tt (set_ctl c s) /\
    a_phase c = started (dbufat s b) /\ same_disk (i_ctl s) c.
Proof.
  intros [Hw Hdev Hblk Hlen] Hidle. unfold idestart, bind at 1, gets.
  set (x := dbufat s b) in *. rewrite (proj2 (Z.leb_gt _ _)) by lia.
  change (7 <? BSIZE / SECTOR_SIZE) with false. change (BSIZE / SECTOR_SIZE) with 1. cbv zeta.
  rewrite Z.mul_1_r, s32_small by (unfold FSSIZE in Hblk; lia).
  destruct (idewait_correct s false (or_introl Hidle)) as (c0 & E0 & Hc0).
  unfold bind at 1. rewrite E0.
  destruct (request_regs_correct c0 (d_blockno x) (d_dev x)) as (H1 & R1 & Hu & Hl & D1).
  { by rewrite (sl_phase _ _ Hc0). } { unfold FSSIZE in Hblk; lia. } { naive_solver. }
  set (c1 := outs_task _ c0) in *.
  assert (same_disk (i_ctl s) c1) as D by (intros u l; by rewrite D1, (sl_sector _ _ Hc0)).
  unfold started. destruct (dirty_req x) eqn:Ed.
  - destruct (law_write c1 H1 R1) as (H2 & D2).
    destruct (law_outs _ _ _ (d_data x) H2 Hlen) as (H3 & D3).
    exists (a_outs 0x1f0 (d_data x) (a_out 0x1f7 IDE_CMD_WRITE c1)). split_and!.
    + fold (dirty_req x). rewrite Ed. unfold outsl.
      by rewrite (take_ge (d_data x)) by by rewrite Hlen.
    + by rewrite H3, Hu, Hl.
    + intros u l. by rewrite D3, D2.
  - destruct (law_read c1 H1 R1) as (H2 & D2).
    exists (a_out 0x1f7 IDE_CMD_READ c1). split_and!.
    + fold (dirty_req x). by rewrite Ed.
    + by rewrite H2, Hu, Hl.
    + intros u l. by rewrite D2.
Qed.

(** *** The queue *)

(** The buffers [q] are the list that starts at [o]. *)
Fixpoint linked (bufs : list dbuf) (o : option nat) (q : list nat) : Prop :=
  match q with
  | [] => o = None
  | b :: q' => o = Some b /\ linked bufs (d_qnext (bufs !!! b)) q'
  end.

Lemma queue_ext bufs bufs' o q :
  (forall b, b ∈ q -> d_qnext (bufs' !!! b) = d_qnext (bufs !!! b)) ->
  linked bufs o q -> linked bufs' o q.
Proof.
  revert o. induction q as [|b q IH]; intros o Hq; [done|].
  intros [-> Hl]. split; [done|]. rewrite Hq by set_solver. apply IH; [set_solver|done].
Qed.

Lemma total_alter_ne (f : dbuf -> dbuf) b i (l : list dbuf) : i <> b -> alter f b l !!! i = l !!! i.
Proof. intros. rewrite !list_lookup_total_alt. by rewrite list_lookup_alter_ne. Qed.

Lemma total_alter_eq (f : dbuf -> dbuf) b (l : list dbuf) : (b < length l)%nat -> alter f b l !!! b = f (l !!! b).
Proof.
  intros Hb. apply list_lookup_total_correct. rewrite list_lookup_alter_eq.
  by rewrite (list_lookup_lookup_total_lt _ _ Hb).
Qed.

Lemma alter_alter (f g : dbuf -> dbuf) b (l : list dbuf) :
  alter f b (alter g b l) = alter (fun x => f (g x)) b l.
Proof. revert b. induction l as [|x l IH]; intros [|b]; [done..|]. cbn. f_equal. apply IH. Qed.

Lemma alter_total_id (f : dbuf -> dbuf) b (l : list dbuf) : f (l !!! b) = l !!! b -> alter f b l = l.
Proof.
  intros H. apply list_eq. intros i. destruct (decide (i = b)) as [->|]; [|by rewrite list_lookup_alter_ne].
  rewrite list_lookup_alter_eq. destruct (l !! b) as [y|] eqn:E; [|done]. cbn.
  rewrite (list_lookup_total_correct _ _ _ E) in H. by rewrite H.
Qed.

(** The end of the queue is linked to a new buffer. *)
Lemma queue_app bufs o q t b : NoDup (q ++ [b]) -> last q = Some t -> (t < length bufs)%nat ->
  d_qnext (bufs !!! b) = None -> linked bufs o q ->
  linked (alter (d_set_qnext (Some b)) t bufs) o (q ++ [b]).
Proof.
  intros Hnd Ht Hlt Hb. revert o. induction q as [|a q IH]; intros o; [done|].
  intros [-> Hl]. cbn [app] in *. apply NoDup_cons in Hnd as [Ha Hnd]. split; [done|].
  destruct q as [|a' q].
  - cbn in Ht. injection Ht as ->. rewrite total_alter_eq by done. split; [done|].
    rewrite total_alter_ne by set_solver. done.
  - rewrite total_alter_ne; [by apply IH|].
    intros ->. apply Ha. apply elem_of_app. left. by apply last_Some_elem_of.
Qed.

Lemma append_queue_correct fuel s p b q t :
  linked (i_bufs s) (Some p) q -> last q = Some t -> (length q <= fuel)%nat ->
  append_queue fuel p b s = Ret tt (upd_dbuf t (d_set_qnext (Some b)) s).
Proof.
  revert p q. induction fuel as [|f IH]; intros p q; (destruct q as [|p' q]; [done|]).
  { cbn. lia. }
  intros [E Hl] Ht Hf. injection E as <-. cbn [append_queue]. unfold bind, gets, dbufat.
  destruct q as [|a q].
  - cbn in Hl, Ht. injection Ht as <-. by rewrite Hl.
  - pose proof (proj1 Hl) as E. rewrite E in *. apply (IH a (a :: q)); [done|done|cbn in *; lia].
Qed.

(** *** The relation *)

(** The driver: the device works on the first request. *)
Record drel (d1 : bool) (s : ide C) (v : vdisk) : Prop := {
  dr_lock : i_lock s = false;
  dr_disk1 : havedisk1 s = d1;
  dr_bufs : v_bufs v = d_set_qnext None <$> i_bufs s;
  dr_linked : linked (i_bufs s) (idequeue s) (v_queue v);
  dr_sleep : i_sleep s = v_sleep v;
  dr_sector : forall u l, a_sector (i_ctl s) u l = v_sector v u l;
  dr_phase : a_phase (i_ctl s) = match v_queue v with
                                 | [] => Idle
                                 | b :: _ => started (v_bufs v !!! b)
                                 end;
}.

(** *** The sections of the driver *)

Lemma drel_buf d1 s v b : drel d1 s v -> (b < length (v_bufs v))%nat ->
  v_bufs v !!! b = d_set_qnext None (dbufat s b) /\ (b < length (i_bufs s))%nat.
Proof.
  intros H Hb. rewrite (dr_bufs _ _ _ H) in *. rewrite length_fmap in Hb. split; [|done].
  apply list_lookup_total_correct. rewrite list_lookup_fmap.
  by rewrite (list_lookup_lookup_total_lt _ _ Hb).
Qed.

Lemma request_ok_link d1 x o : request_ok d1 (d_set_qnext o x) <-> request_ok d1 x.
Proof. split; intros []; by constructor. Qed.

Lemma iderw_wait_sleeps s b : i_lock s = true ->
  Z.land (d_flags (dbufat s b)) (Z.lor B_VALID B_DIRTY) <> B_VALID ->
  iderw_wait b s = Ret false (ide_set_lock false (set_isleep (i_sleep s ++ [(b, false)]) s)).
Proof.
  intros Hl Hf. unfold iderw_wait, bind at 1, gets. rewrite (proj2 (Z.eqb_neq _ _) Hf).
  unfold bind, modify, release. cbn. by rewrite Hl.
Qed.

Lemma unlinked_alter o b (bufs : list dbuf) : d_set_qnext None <$> alter (d_set_qnext o) b bufs = d_set_qnext None <$> bufs.
Proof. revert b. induction bufs as [|x bufs IH]; intros [|b]; [done..|]. cbn. f_equal. apply IH. Qed.

Lemma dbufat_upd f b s : (b < length (i_bufs s))%nat -> dbufat (upd_dbuf b f s) b = f (dbufat s b).
Proof. apply total_alter_eq. Qed.

Lemma queued_range d1 v a : vinv d1 v -> a ∈ v_queue v -> (a < length (v_bufs v))%nat.
Proof.
  intros Hv. rewrite (vi_queue _ _ Hv), elem_of_unwoken. intros H.
  apply (vi_range _ _ Hv). by apply (list_elem_of_fmap_2' fst _ (a, false)).
Qed.

Section Enqueue.
Context (d1 : bool) (s : ide C) (v : vdisk) (b : nat).
Context (Hr : drel d1 s v) (Hv : vinv d1 v) (Hb : b ∉ (v_sleep v).*1) (Hlt : (b < length (v_bufs v))%nat).
Context (Hlk : d_locked (dbufat s b) = true) (Hok : request_ok d1 (dbufat s b)).

Let s1 := upd_dbuf b (d_set_qnext None) (ide_set_lock true s).
Let v1 := mkVdisk (v_queue v ++ [b]) (v_bufs v) (v_sector v) (v_sleep v ++ [(b, false)]) (v_done v).

Lemma enqueue_fresh : b ∉ v_queue v.
Proof using Hb Hv.
  rewrite (vi_queue _ _ Hv), elem_of_unwoken. intros H. apply Hb.
  by apply (list_elem_of_fmap_2' fst _ (b, false)).
Qed.

Lemma enqueue_first : v_queue v = [] -> exists s',
  (idestart polls (Some b) ;; iderw_wait b)%kernel (set_idequeue (Some b) s1) = Ret false s' /\ drel d1 s' v1.
Proof using All.
  intros Eq. destruct (drel_buf _ _ _ b Hr Hlt) as [Eb Hlt'].
  set (s2 := set_idequeue (Some b) s1).
  assert (dbufat s2 b = d_set_qnext None (dbufat s b)) as E2 by by apply (dbufat_upd _ b (ide_set_lock true s)).
  destruct (idestart_correct s2 b d1) as (c & E & Hc & Hd).
  { rewrite E2. by apply request_ok_link. }
  { cbn. by rewrite (dr_phase _ _ _ Hr), Eq. }
  unfold bind. rewrite E, iderw_wait_sleeps; [|done|].
  2: { change (dbufat (set_ctl c s2) b) with (dbufat s2 b). rewrite E2. apply (rq_work _ _ Hok). }
  eexists. split; [done|].
  split; subst s2 s1 v1; cbn -[d_set_qnext]; rewrite ?Eq; try done; try apply Hr.
  - rewrite (dr_bufs _ _ _ Hr). symmetry. apply unlinked_alter.
  - split; [done|]. by rewrite total_alter_eq.
  - by rewrite (dr_sleep _ _ _ Hr).
  - intros u l. rewrite Hd. apply (dr_sector _ _ _ Hr).
  - by rewrite Hc, E2, <-Eb.
Qed.

Lemma queue_range a : a ∈ v_queue v -> (a < length (i_bufs s))%nat.
Proof using Hr Hv. intros Ha. apply (drel_buf _ _ _ a Hr). by apply (queued_range d1). Qed.

Lemma queue_length : (length (v_queue v) <= length (i_bufs s))%nat.
Proof using Hr Hv Hlt.
  rewrite <-(length_seq (length (i_bufs s)) 0). apply submseteq_length, NoDup_submseteq.
  - by apply (vinv_queue_nodup d1).
  - intros a Ha%queue_range. apply elem_of_seq. lia.
Qed.

Lemma enqueue_last p q : v_queue v = p :: q -> exists s2 s',
  append_queue (length (i_bufs s1)) p b s1 = Ret tt s2 /\ idequeue s2 = Some p /\
  iderw_wait b s2 = Ret false s' /\ drel d1 s' v1.
Proof using All.
  intros Eq. destruct (drel_buf _ _ _ b Hr Hlt) as [Eb Hlt']. pose proof enqueue_fresh as Hf.
  assert (is_Some (last (v_queue v))) as [t Ht] by by rewrite last_is_Some, Eq.
  pose proof (last_Some_elem_of _ _ Ht) as Htq.
  assert (t <> b) as Htb by by intros ->.
  assert (dbufat s1 b = d_set_qnext None (dbufat s b)) as E1 by by apply (dbufat_upd _ b (ide_set_lock true s)).
  assert (linked (i_bufs s1) (idequeue s) (v_queue v)) as Hl.
  { apply (queue_ext (i_bufs s)); [|apply Hr]. intros a Ha. subst s1. cbn.
    by rewrite total_alter_ne by set_solver. }
  assert (idequeue s = Some p) as Ep by (pose proof (dr_linked _ _ _ Hr) as H; rewrite Eq in H; apply H).
  assert (length (i_bufs s1) = length (i_bufs s)) as El by apply length_alter.
  exists (upd_dbuf t (d_set_qnext (Some b)) s1). eexists. rewrite (append_queue_correct _ s1 p b (v_queue v) t).
  2: by rewrite <-Ep. 2: done. 2: by rewrite El; apply queue_length.
  assert (dbufat (upd_dbuf t (d_set_qnext (Some b)) s1) b = dbufat s1 b) as E2.
  { apply total_alter_ne. done. }
  rewrite iderw_wait_sleeps; [|done|rewrite E2, E1; apply (rq_work _ _ Hok)].
  split; [done|]. split; [exact Ep|]. split; [done|].
  split; try done; try apply Hr.
  - cbn [v1 v_bufs]. rewrite (dr_bufs _ _ _ Hr), <-(unlinked_alter None b (i_bufs s)).
    symmetry. apply unlinked_alter.
  - change (linked (alter (d_set_qnext (Some b)) t (i_bufs s1)) (idequeue s) (v_queue v ++ [b])).
    apply queue_app; [|done|by rewrite El; apply queue_range| |done].
    + apply NoDup_app. split_and!; [by apply (vinv_queue_nodup d1)|set_solver|apply NoDup_singleton].
    + change (i_bufs s1 !!! b) with (dbufat s1 b). by rewrite E1.
  - cbn. by rewrite (dr_sleep _ _ _ Hr).
  - cbn [v1 v_queue]. rewrite Eq. cbn. rewrite (dr_phase _ _ _ Hr), Eq. done.
Qed.

(** The new request at the end of the queue; the disk is started if it has nothing to do. *)
Lemma iderw_run : exists s', iderw polls b s = Ret false s' /\ drel d1 s' v1.
Proof using All.
  unfold iderw, bind at 1, gets. rewrite Hlk. cbn [negb].
  rewrite (proj2 (Z.eqb_neq _ _) (rq_work _ _ Hok)). unfold bind at 1.
  replace (negb (d_dev (dbufat s b) =? 0) && negb (havedisk1 s)) with false.
  2: { rewrite (dr_disk1 _ _ _ Hr). by destruct (rq_dev _ _ Hok) as [-> | [-> ->]]. }
  unfold bind at 1, acquire. cbn [idelock lget lset]. rewrite (dr_lock _ _ _ Hr).
  unfold bind at 1, modify at 1. fold s1. unfold bind at 1.
  change (idequeue s1) with (idequeue s).
  pose proof (dr_linked _ _ _ Hr) as Hl.
  assert (v_queue v = [] \/ exists p q, v_queue v = p :: q) as [Eq|(p & q & Eq)]
    by (destruct (v_queue v); eauto); rewrite Eq in Hl.
  - cbn in Hl. rewrite Hl. destruct (enqueue_first Eq) as (s' & E & H). exists s'. split; [|done].
    rewrite <-E. unfold bind at 1, modify, bind at 1. cbn. by rewrite bool_decide_true.
  - destruct Hl as [-> _]. destruct (enqueue_last p q Eq) as (s2 & s' & E & Ep & E' & H).
    exists s'. split; [|done]. unfold bind at 1 2. rewrite E. unfold bind at 1. rewrite Ep.
    rewrite bool_decide_false; [exact E'|]. intros [= ->]. apply enqueue_fresh. rewrite Eq. set_solver.
Qed.
End Enqueue.

Lemma unlinked_update f b x (bufs : list dbuf) : (b < length bufs)%nat ->
  d_set_qnext None (f (bufs !!! b)) = x ->
  <[b := x]> (d_set_qnext None <$> bufs) = d_set_qnext None <$> alter f b bufs.
Proof.
  intros Hlt <-. apply list_eq. intros i. rewrite list_lookup_fmap. destruct (decide (i = b)) as [->|Hne].
  - rewrite list_lookup_insert_eq by by rewrite length_fmap. rewrite list_lookup_alter_eq.
    by rewrite (list_lookup_lookup_total_lt _ _ Hlt).
  - rewrite list_lookup_insert_ne, list_lookup_fmap by done. by rewrite list_lookup_alter_ne.
Qed.

(** A buffer that is not in the queue is changed by its owner. *)
Lemma drel_update d1 s v b f x : drel d1 s v -> b ∉ v_queue v -> (b < length (v_bufs v))%nat ->
  (forall y, d_qnext (f y) = d_qnext y) -> d_set_qnext None (f (dbufat s b)) = x ->
  drel d1 (upd_dbuf b f s) (mkVdisk (v_queue v) (<[b := x]> (v_bufs v)) (v_sector v) (v_sleep v) (v_done v)).
Proof.
  intros H Hb Hlt Hf Hx. destruct (drel_buf _ _ _ b H Hlt) as [Eb Hlt'].
  split; cbn; try apply H.
  - rewrite (dr_bufs _ _ _ H). by apply unlinked_update.
  - apply (queue_ext (i_bufs s)); [|apply H]. intros a Ha. by rewrite total_alter_ne by set_solver.
  - rewrite (dr_phase _ _ _ H). destruct (v_queue v) as [|a q]; [done|].
    by rewrite list_lookup_total_insert_ne by set_solver.
Qed.

Lemma queued_ok d1 s v a : drel d1 s v -> vinv d1 v -> a ∈ v_queue v -> request_ok d1 (dbufat s a).
Proof.
  intros Hr Hv Ha. apply (request_ok_link _ _ None).
  destruct (drel_buf d1 s v a Hr) as [<- _]; [by apply (queued_range d1)|]. by apply (vi_req _ _ Hv).
Qed.

(** The next request is started. *)
Lemma next_run d1 s q : i_lock s = true -> linked (i_bufs s) (idequeue s) q -> a_phase (i_ctl s) = Idle ->
  (forall a, a ∈ q -> request_ok d1 (dbufat s a)) ->
  exists c, (q' <- gets idequeue ;; when (bool_decide (q' <> None)) (idestart polls q') ;; release idelock)%kernel s
    = Ret tt (ide_set_lock false (set_ctl c s)) /\
  a_phase c = match q with [] => Idle | a :: _ => started (dbufat s a) end /\ same_disk (i_ctl s) c.
Proof.
  intros Hl Hq Hi Hok. unfold bind at 1, gets. destruct q as [|a q].
  - cbn in Hq. rewrite Hq. exists (i_ctl s). split; [|done].
    rewrite bool_decide_false by naive_solver. unfold bind, when, ret, release. cbn. rewrite Hl. by destruct s.
  - destruct Hq as [-> _]. destruct (idestart_correct s a d1) as (c & E & Hc & Hd); [apply Hok; set_solver|done|].
    exists c. split; [|done]. rewrite bool_decide_true by done. unfold bind, when. rewrite E.
    unfold release. cbn. by rewrite Hl.
Qed.

Section Intr.
Context (d1 : bool) (s : ide C) (v : vdisk) (b : nat) (q : list nat).
Context (Hr : drel d1 s v) (Hv : vinv d1 v) (Eq : v_queue v = b :: q).

Let x := dbufat s b.

(** The transfer of the data, after the device has finished. *)
Lemma fetch_run s0 : i_ctl s0 = a_irq (i_ctl s) -> i_bufs s0 = i_bufs s -> exists c,
  (if Z.land (d_flags x) B_DIRTY =? 0 then
     r <- idewait polls true ;;
     when (0 <=? r) (d <- insl 0x1f0 (BSIZE / 4) ;; modify (upd_dbuf b (d_set_data d)))
   else ret tt)%kernel s0
  = Ret tt (set_ctl c (upd_dbuf b (d_set_data (d_data (serve_buf (v_sector v) x))) s0)) /\
  a_phase c = Idle /\ forall u l, a_sector c u l = serve_disk (v_sector v) x u l.
Proof using AtaLaws0 Eq Hr Hv.
  intros Ec Ebufs. destruct (vinv_head d1 v Hv b q Eq) as (_ & Hlt & Hok).
  destruct (drel_buf _ _ _ b Hr Hlt) as [Eb Hlt'].
  pose proof (dr_phase _ _ _ Hr) as Hph. rewrite Eq, Eb in Hph. fold x in Eb, Hph.
  unfold started in Hph. cbn -[dirty_req] in Hph. change (dirty_req (d_set_qnext None x)) with (dirty_req x) in Hph.
  unfold serve_buf, serve_disk. cbn [d_data].
  destruct (dirty_req x) eqn:Ed; pose proof Ed as Ed'; unfold dirty_req in Ed'.
  - apply negb_true_iff in Ed' as ->.
    destruct (law_irq_write _ _ _ _ Hph) as [Hi Hs]. exists (a_irq (i_ctl s)). split_and!; [|done|].
    + unfold upd_dbuf, ret. rewrite Ebufs, (alter_total_id _ b (i_bufs s)).
      * rewrite <-Ec, <-Ebufs. by destruct s0.
      * fold (dbufat s b). fold x. by destruct x.
    + intros u l. rewrite Hs, (dr_sector _ _ _ Hr). cbn [andb].
      case_decide; [by rewrite bool_decide_true|by rewrite bool_decide_false].
  - apply negb_false_iff in Ed' as ->.
    destruct (law_irq_read _ _ _ Hph) as [Hi Hs].
    rewrite <-Ec in Hi, Hs.
    destruct (idewait_correct s0 true) as (c0 & E0 & Hc0); [by right; eexists _, _|].
    rewrite <-(sl_phase _ _ Hc0) in Hi. destruct (law_ins _ _ _ Hi) as (Ed1 & Hi1 & Hs1).
    exists (snd (a_ins 0x1f0 (SECTOR_SIZE / 4) c0)). split_and!; [|done|].
    + unfold bind at 1. rewrite E0. unfold when, bind, insl. cbn [i_ctl set_ctl Z.leb Z.compare].
      change (BSIZE / 4) with (SECTOR_SIZE / 4).
      destruct (a_ins 0x1f0 (SECTOR_SIZE / 4) c0) as [d c1]. cbn in Ed1. subst d.
      rewrite (sl_sector _ _ Hc0). by rewrite Hs, (dr_sector _ _ _ Hr).
    + intros u l. rewrite Hs1, (sl_sector _ _ Hc0). cbn [andb]. by rewrite Hs, (dr_sector _ _ _ Hr).
Qed.

Definition serve_upd (y : dbuf) : dbuf :=
  d_set_flags (Z.land (Z.lor (d_flags y) B_VALID) (Z.lnot B_DIRTY))
    (d_set_data (d_data (serve_buf (v_sector v) x)) y).

Lemma ideintr_run : exists s', ideintr polls (set_ctl (a_irq (i_ctl s)) s) = Ret tt s' /\
  drel d1 s' (vstep v Interrupt).
Proof using AtaLaws0 Eq Hr Hv.
  destruct (vinv_head d1 v Hv b q Eq) as (_ & Hlt & Hok).
  destruct (drel_buf _ _ _ b Hr Hlt) as [Eb Hlt'].
  pose proof (dr_linked _ _ _ Hr) as Hl. rewrite Eq in Hl. destruct Hl as [Ei Hl].
  unfold ideintr, bind at 1, acquire. cbn [idelock lget lset i_lock set_ctl]. rewrite (dr_lock _ _ _ Hr).
  unfold bind at 1, gets at 1. cbn [idequeue set_ctl ide_set_lock]. rewrite Ei.
  unfold bind at 1, gets at 1. change (dbufat _ b) with x. unfold bind at 1, modify at 1.
  set (s0 := set_idequeue (d_qnext x) _).
  destruct (fetch_run s0) as (c & E & Hp & Hs); [done|done|].
  unfold bind at 1. rewrite E. unfold bind at 1, modify at 1, bind at 1, modify at 1, bind at 1, wakeup_b, modify at 1.
  set (s3 := set_isleep _ _).
  assert (i_bufs s3 = alter serve_upd b (i_bufs s)) as E3.
  { subst s3. cbn. by rewrite !alter_alter. }
  pose proof (vinv_queue_nodup d1 v Hv) as Hnd. rewrite Eq in Hnd. apply NoDup_cons in Hnd as [Hbq Hnd].
  assert (forall a, a ∈ q -> dbufat s3 a = dbufat s a) as Ea.
  { intros a Ha. unfold dbufat. rewrite E3. apply total_alter_ne. set_solver. }
  destruct (next_run d1 s3 q) as (c' & E' & Hp' & Hd'); [done| |done| |].
  { apply (queue_ext (i_bufs s)); [|done]. intros a Ha. f_equal. by apply Ea. }
  { intros a Ha. rewrite Ea by done. apply (queued_ok d1 s v); [done..|]. rewrite Eq. set_solver. }
  exists (ide_set_lock false (set_ctl c' s3)). split; [exact E'|].
  cbn [vstep]. rewrite Eq, Eb. split; try done; try apply Hr; cbn [v_bufs v_queue v_sleep v_sector].
  - rewrite (dr_bufs _ _ _ Hr). apply (eq_trans (unlinked_update serve_upd b _ _ Hlt' eq_refl)).
    f_equal. symmetry. exact E3.
  - apply (queue_ext (i_bufs s)); [|done]. intros a Ha. f_equal. by apply Ea.
  - unfold woken_by. by rewrite <-(dr_sleep _ _ _ Hr).
  - intros u l. rewrite Hd'. apply Hs.
  - apply (eq_trans Hp'). destruct q as [|a q']; [done|].
    rewrite list_lookup_total_insert_ne by set_solver. rewrite Ea by set_solver.
    destruct (drel_buf d1 s v a Hr) as [-> _]; [|done].
    apply (queued_range d1); [done|]. rewrite Eq. set_solver.
Qed.
End Intr.
End Device.
