(* ===== verification/IdeRefine.v ===== *)
(** The whole IDE driver against the queue of requests, for every interleaving of requests,
    interrupts and wakeups; progress; errors of the device; a device that follows the protocol. *)

From S2P Require Export Ide.

Open Scope Z_scope.

Section Refine.
Context {C : Type} `{!Ata C} `{!AtaView C} (polls : nat) `{!AtaLaws C polls}.

Record srel (d1 : bool) (s : isys C) (v : vdisk) : Prop := {
  sr_driver : drel d1 (is_ide s) v;
  sr_done : is_done s = v_done v;
  sr_inv : vinv d1 v;
}.

Lemma irun_request d1 s v b flags dev blockno data :
  srel d1 s v -> ievent_ok (length (v_bufs v)) d1 (Request b flags dev blockno data) ->
  exists s', istep polls (Request b flags dev blockno data) s = Ret tt s' /\
    srel d1 s' (vstep v (Request b flags dev blockno data)).
Proof using AtaLaws0.
  intros [Hr Hd Hv] Hok. pose proof (vinv_request d1 v Hv b flags dev blockno data Hok) as Hv'.
  destruct Hok as [Hlt Hok]. cbn [istep vstep] in *.
  unfold bind at 1, gets, in_call. rewrite (dr_sleep _ _ _ Hr).
  case_decide as Hin.
  { rewrite bool_decide_true by done. by exists s. }
  rewrite bool_decide_false by done. cbn [negb when].
  destruct (drel_buf _ _ _ b Hr Hlt) as [Eb Hlt'].
  set (f := fun y => mkDbuf flags dev blockno true (d_qnext y) data).
  set (x := mkDbuf flags dev blockno true None data) in *.
  pose proof (drel_update polls d1 (is_ide s) v b f x Hr (enqueue_fresh d1 v b Hv Hin) Hlt
    ltac:(done) eq_refl) as Hu.
  set (s1 := upd_dbuf b f (is_ide s)) in *.
  set (v1 := mkVdisk (v_queue v) (<[b := x]> (v_bufs v)) _ _ _) in Hu.
  assert (vinv d1 v1) as Hv1.
  { destruct Hv as [H1 H2 H3 H4 H5]. split; cbn; try done.
    - intros a Ha. rewrite length_insert. by apply H3.
    - intros a Ha. rewrite list_lookup_total_insert_ne; [by apply H4|].
      intros <-. by apply (enqueue_fresh d1 v b).
    - intros a Ha. rewrite list_lookup_total_insert_ne; [by apply H5|].
      intros <-. apply Hin. by apply (list_elem_of_fmap_2' fst _ (b, true)). }
  assert (dbufat s1 b = d_set_qnext (d_qnext (dbufat (is_ide s) b)) x) as Ex.
  { subst s1. rewrite dbufat_upd by done. done. }
  destruct (iderw_run polls d1 s1 v1 b Hu Hv1) as (s2 & E & H2).
  { done. } { cbn. by rewrite length_insert. } { by rewrite Ex. }
  { rewrite Ex. by apply request_ok_link. }
  exists (mkIsys s2 (is_done s)). split; [|by split].
  unfold bind at 1, on_ide at 1, lift, modify. fold f s1. unfold bind, on_ide, lift. cbn [is_ide is_done].
  by rewrite E.
Qed.

Lemma irun_interrupt d1 s v : srel d1 s v ->
  exists s', istep polls Interrupt s = Ret tt s' /\ srel d1 s' (vstep v Interrupt).
Proof using AtaLaws0.
  intros [Hr Hd Hv]. pose proof (vinv_interrupt d1 v Hv) as Hv'. cbn [istep].
  unfold bind at 1, on_ide at 1, lift, modify. unfold on_ide, lift. cbn [is_ide is_done].
  destruct (v_queue v) as [|b q] eqn:Eq.
  - pose proof (dr_linked _ _ _ Hr) as Hl. pose proof (dr_phase _ _ _ Hr) as Hp.
    rewrite Eq in Hl, Hp. destruct (law_irq_idle _ Hp) as [Hp' Hs'].
    exists (mkIsys (set_ctl (a_irq (i_ctl (is_ide s))) (is_ide s)) (is_done s)). split.
    + unfold ideintr, bind, acquire, gets. cbn. rewrite (dr_lock _ _ _ Hr). cbn in Hl. cbn. rewrite Hl.
      unfold release. cbn. f_equal. rewrite <-(dr_lock _ _ _ Hr). by destruct (is_ide s).
    + cbn [vstep] in *. rewrite Eq in *. split; [|done|done]. split; try apply Hr; cbn; rewrite ?Eq.
      * intros u l. rewrite Hs'. apply (dr_sector _ _ _ Hr).
      * done.
  - destruct (ideintr_run polls d1 (is_ide s) v b q Hr Hv Eq) as (s2 & E & H2).
    exists (mkIsys s2 (is_done s)). split; [by rewrite E|]. split; [done| |done].
    cbn [vstep]. by rewrite Eq.
Qed.

Lemma irun_continue d1 s v i : srel d1 s v ->
  exists s', istep polls (Continue i) s = Ret tt s' /\ srel d1 s' (vstep v (Continue i)).
Proof using AtaLaws0.
  intros [Hr Hd Hv]. pose proof (vinv_continue d1 v Hv i) as Hv'. cbn [istep vstep] in *.
  unfold bind at 1, gets. rewrite (dr_sleep _ _ _ Hr).
  destruct (v_sleep v !! i) as [[b []]|] eqn:Ei; [|by exists s; split..].
  assert ((b, true) ∈ v_sleep v) as Hin by (by eapply list_elem_of_lookup_2).
  destruct (drel_buf _ _ _ b Hr) as [Eb _].
  { apply (vi_range _ _ Hv). by apply (list_elem_of_fmap_2' fst _ (b, true)). }
  pose proof (vi_done _ _ Hv b Hin) as Hf. rewrite Eb in Hf. cbn in Hf.
  set (t := set_isleep (remove_nth i (v_sleep v)) (is_ide s)).
  assert (iderw_resume b t = Ret true t) as E.
  { unfold iderw_resume, iderw_wait, bind, acquire, gets. cbn. rewrite (dr_lock _ _ _ Hr).
    change (dbufat (ide_set_lock true t) b) with (dbufat (is_ide s) b).
    change (Z.lor 2 4) with (Z.lor B_VALID B_DIRTY). rewrite Hf. cbn. f_equal.
    subst t. unfold ide_set_lock, set_isleep. cbn. by rewrite (dr_lock _ _ _ Hr). }
  exists (mkIsys t (is_done s ++ [(b, d_data (dbufat (is_ide s) b))])). split.
  - unfold bind at 1, on_ide at 1, lift, modify. fold t. unfold bind, on_ide, lift. cbn [is_ide is_done].
    by rewrite E.
  - split; [|cbn; by rewrite Hd, Eb|done]. by split; try apply Hr.
Qed.

Lemma irun_step d1 s v ev : srel d1 s v -> ievent_ok (length (v_bufs v)) d1 ev ->
  exists s', istep polls ev s = Ret tt s' /\ srel d1 s' (vstep v ev).
Proof using AtaLaws0.
  intros Hr Hev. destruct ev; [by apply irun_request|by apply irun_interrupt|by apply irun_continue].
Qed.

Lemma irun_correct d1 evs s v : srel d1 s v -> Forall (ievent_ok (length (v_bufs v)) d1) evs ->
  exists s', irun polls evs s = Ret tt s' /\ srel d1 s' (vrun evs v).
Proof using AtaLaws0.
  revert s v. induction evs as [|ev evs IH]; intros s v Hr Hevs; [by exists s|].
  apply Forall_cons in Hevs as [Hev Hevs]. destruct (irun_step d1 s v ev Hr Hev) as (s1 & E1 & Hr1).
  destruct (IH s1 (vstep v ev) Hr1) as (s2 & E2 & Hr2); [by rewrite vstep_length|].
  exists s2. split; [|done]. cbn [irun]. unfold bind. by rewrite E1.
Qed.

(** *** ideinit() *)

Lemma find_disk1_run n (s : ide C) : exists d c,
  find_disk1 n s = Ret tt (set_havedisk1 d (set_ctl c s)) /\ still (i_ctl s) c.
Proof using AtaLaws0.
  revert s. induction n as [|n IH]; intros s.
  - exists (havedisk1 s), (i_ctl s). split; [by destruct s|by split].
  - cbn [find_disk1]. unfold bind, inb.
    pose proof (law_status (polls := polls) (i_ctl s)) as H. destruct (a_in 0x1f7 (i_ctl s)) as [r c].
    cbn in H. destruct (negb (r =? 0)).
    + exists true, c. split; [by destruct s|done].
    + destruct (IH (set_ctl c s)) as (d & c' & E & Hc). exists d, c'.
      split; [rewrite E; by destruct s|]. by apply (still_trans _ c).
Qed.

Lemma ideinit_correct (s : ide C) : a_phase (i_ctl s) = Idle ->
  exists d c, ideinit polls s = Ret tt (set_havedisk1 d (set_ctl c (ide_set_lock false s))) /\
    a_phase c = Idle /\ same_disk (i_ctl s) c.
Proof using AtaLaws0.
  intros Hi. unfold ideinit, bind at 1, modify.
  destruct (idewait_correct polls (ide_set_lock false s) false (or_introl Hi)) as (c0 & E0 & H0).
  unfold bind at 1. rewrite E0. unfold bind at 1. rewrite outb_run.
  destruct (task_out polls c0 0x1f6 (Z.lor 0xe0 (Z.shiftl 1 4))) as (H1 & _ & D1);
    [by rewrite (sl_phase _ _ H0)|set_solver|].
  set (c1 := a_out _ _ c0) in *.
  destruct (find_disk1_run 1000 (set_ctl c1 (ide_set_lock false s))) as (d & c2 & E2 & H2).
  unfold bind.
  match goal with |- context [find_disk1 1000 ?t] => change t with (set_ctl c1 (ide_set_lock false s)) end.
  rewrite E2, outb_run. clear E0 E2.
  destruct (task_out polls c2 0x1f6 (Z.lor 0xe0 (Z.shiftl 0 4))) as (H3 & _ & D3);
    [by rewrite (sl_phase _ _ H2)|set_solver|].
  exists d. eexists. split; [done|]. split; [done|].
  intros u l. rewrite D3, (sl_sector _ _ H2), D1, (sl_sector _ _ H0). done.
Qed.

(** The state at boot, and the disk that the specification starts with. *)
Definition boot (bufs : list dbuf) (c : C) : ide C := mkIde false None false bufs c [].
Definition vboot (bufs : list dbuf) (c : C) : vdisk :=
  mkVdisk [] (d_set_qnext None <$> bufs) (a_sector c) [] [].

Lemma boot_rel bufs c : a_phase c = Idle ->
  exists s, ideinit polls (boot bufs c) = Ret tt s /\ srel (havedisk1 s) (mkIsys s []) (vboot bufs c).
Proof using AtaLaws0.
  intros Hi. destruct (ideinit_correct (boot bufs c) Hi) as (d & c' & E & Hc & Hd).
  eexists. split; [exact E|]. split; [|done|].
  - by split.
  - split; cbn; try set_solver. constructor.
Qed.

(** C17. The IDE driver is a disk that serves its requests in order. For a device that follows the
    ATA protocol and is idle at boot, ideinit() returns, and from then on, for every interleaving
    of calls of iderw() by the owners of the buffers, interrupts of the device and wakeups, the
    driver never panics and never polls for ever, and the calls that returned with the data they
    got, the calls that sleep and those that were woken up, the buffers and the sectors of the
    disks are those of a FIFO queue of requests, each served at once when it is the first. *)
Theorem ide_refines_queue (bufs : list dbuf) (c : C) : a_phase c = Idle ->
  exists s1, ideinit polls (boot bufs c) = Ret tt s1 /\
  forall evs, Forall (ievent_ok (length bufs) (havedisk1 s1)) evs ->
  exists s, irun polls evs (mkIsys s1 []) = Ret tt s /\
    is_done s = v_done (vrun evs (vboot bufs c)) /\
    i_sleep (is_ide s) = v_sleep (vrun evs (vboot bufs c)) /\
    d_set_qnext None <$> i_bufs (is_ide s) = v_bufs (vrun evs (vboot bufs c)) /\
    forall u l, a_sector (i_ctl (is_ide s)) u l = v_sector (vrun evs (vboot bufs c)) u l.
Proof using AtaLaws0.
  intros Hi. destruct (boot_rel bufs c Hi) as (s1 & E1 & Hr). exists s1. split; [done|].
  intros evs Hevs. destruct (irun_correct _ evs _ _ Hr) as (s & E & [Hd Hs Hv]).
  { cbn. by rewrite length_fmap. }
  exists s. split_and!; [done|done|apply Hd|symmetry; apply Hd|apply Hd].
Qed.

(** *** Progress *)

Lemma vrun_app evs evs' v : vrun (evs ++ evs') v = vrun evs' (vrun evs v).
Proof. unfold vrun. apply foldl_app. Qed.

(** Interrupts empty the queue. *)
Lemma vrun_interrupts d1 v n : vinv d1 v -> n = length (v_queue v) ->
  let v' := vrun (replicate n Interrupt) v in
  vinv d1 v' /\ v_queue v' = [] /\ (v_sleep v').*1 = (v_sleep v).*1 /\ v_done v' = v_done v.
Proof.
  revert v. induction n as [|n IH]; intros v Hv Hn; cbn [replicate vrun foldl].
  - symmetry in Hn. apply nil_length_inv in Hn. done.
  - pose proof (vinv_interrupt d1 v Hv) as Hv'. destruct (v_queue v) as [|b q] eqn:Eq; [done|].
    destruct (IH (vstep v Interrupt) Hv') as (H1 & H2 & H3 & H4).
    { cbn [vstep]. rewrite Eq. cbn in *. lia. }
    unfold vrun in *. split_and!; [done|done| |].
    + rewrite H3. cbn [vstep]. rewrite Eq. apply woken_by_fst.
    + rewrite H4. cbn [vstep]. by rewrite Eq.
Qed.

(** Then the calls return. *)
Lemma vrun_continues d1 v n : vinv d1 v -> v_queue v = [] -> n = length (v_sleep v) ->
  let v' := vrun (replicate n (Continue 0)) v in
  v_sleep v' = [] /\ (v_done v').*1 = (v_done v).*1 ++ (v_sleep v).*1.
Proof.
  revert v. induction n as [|n IH]; intros v Hv Hq Hn; cbn [replicate vrun foldl].
  - symmetry in Hn. apply nil_length_inv in Hn. rewrite Hn. cbn. by rewrite app_nil_r.
  - pose proof (vinv_continue d1 v Hv 0) as Hv'.
    destruct (v_sleep v) as [|[b w] l] eqn:El; [done|].
    assert (w = true) as ->.
    { destruct w; [done|]. pose proof (vi_queue _ _ Hv) as E. rewrite Hq, El in E. done. }
    assert (v_sleep (vstep v (Continue 0)) = l) as El' by (cbn [vstep]; by rewrite El).
    destruct (IH (vstep v (Continue 0)) Hv') as (H1 & H2); [cbn [vstep]; by rewrite El| |].
    { rewrite El'. cbn in Hn. lia. }
    unfold vrun in *. split; [done|]. rewrite H2, El'. cbn [vstep]. rewrite El. cbn.
    by rewrite fmap_app, <-app_assoc.
Qed.

(** No request is lost. After any sequence of events, as many interrupts as there are calls
    that wait, and one section of each call that sleeps, complete all of them: nobody sleeps any
    more, and the calls returned in the order in which they were made. *)
Theorem ide_progress (bufs : list dbuf) (c : C) s1 evs s : a_phase c = Idle ->
  ideinit polls (boot bufs c) = Ret tt s1 -> Forall (ievent_ok (length bufs) (havedisk1 s1)) evs ->
  irun polls evs (mkIsys s1 []) = Ret tt s ->
  exists s', irun polls (replicate (length (unwoken (i_sleep (is_ide s)))) Interrupt ++
      replicate (length (i_sleep (is_ide s))) (Continue 0)) s = Ret tt s' /\
    i_sleep (is_ide s') = [] /\ (is_done s').*1 = (is_done s).*1 ++ (i_sleep (is_ide s)).*1.
Proof using AtaLaws0.
  intros Hi E1 Hevs E. destruct (boot_rel bufs c Hi) as (s1' & E1' & Hr).
  rewrite E1' in E1. injection E1 as ->.
  destruct (irun_correct _ evs _ _ Hr) as (s' & E' & Hr'); [cbn; by rewrite length_fmap|].
  rewrite E' in E. injection E as ->. set (v := vrun evs (vboot bufs c)) in *.
  pose proof (dr_sleep _ _ _ (sr_driver _ _ _ Hr')) as Es. rewrite Es.
  set (more := _ ++ _). destruct (irun_correct _ more _ _ Hr') as (s' & E & Hr'').
  { apply Forall_app. split; by apply Forall_replicate. }
  exists s'. split; [done|].
  destruct (vrun_interrupts _ v _ (sr_inv _ _ _ Hr') eq_refl) as (H1 & H2 & H3 & H4).
  set (n := length (v_queue v)) in *. set (v2 := vrun (replicate n Interrupt) v) in *.
  destruct (vrun_continues _ v2 _ H1 H2 eq_refl) as (H5 & H6).
  assert (vrun more v = vrun (replicate (length (v_sleep v2)) (Continue 0)) v2) as Ev.
  { subst more. rewrite vrun_app, <-(vi_queue _ _ (sr_inv _ _ _ Hr')). fold n. fold v2. do 2 f_equal.
    by rewrite <-!(length_fmap fst), H3. }
  rewrite <-Ev in H5, H6. rewrite (sr_done _ _ _ Hr''), (dr_sleep _ _ _ (sr_driver _ _ _ Hr'')).
  split; [done|]. by rewrite H6, H3, H4, (sr_done _ _ _ Hr').
Qed.
End Refine.

(** *** Errors of the device *)

Section ReadError.
Context {C : Type} `{!Ata C} (polls : nat).

(** When the device reports an error for a read (the status has DF or ERR once it is ready),
    ideintr() does not transfer the data and yet marks the buffer valid and wakes up the caller:
    the contents the buffer had before are taken for the block. *)
Theorem ide_read_error (s : ide C) b r c :
  i_lock s = false -> idequeue s = Some b -> (b < length (i_bufs s))%nat ->
  d_qnext (dbufat s b) = None -> dirty_req (dbufat s b) = false ->
  poll polls (i_ctl s) = Some (r, c) -> Z.land r (Z.lor IDE_DF IDE_ERR) <> 0 ->
  exists s', ideintr polls s = Ret tt s' /\
    Z.land (d_flags (dbufat s' b)) (Z.lor B_VALID B_DIRTY) = B_VALID /\
    d_data (dbufat s' b) = d_data (dbufat s b) /\
    i_sleep s' = woken_by b (i_sleep s).
Proof.
  intros Hl Hq Hlt Hn Hd Hp Hr. unfold dirty_req in Hd. apply negb_false_iff in Hd.
  unfold ideintr, bind at 1, acquire. cbn [idelock lget lset]. rewrite Hl.
  unfold bind at 1, gets at 1. cbn [idequeue ide_set_lock]. rewrite Hq.
  unfold bind at 1, gets at 1. change (dbufat (ide_set_lock true s) b) with (dbufat s b).
  rewrite Hd, Hn. unfold bind at 1, modify at 1. unfold bind at 1, idewait. unfold bind at 1 2.
  rewrite idewait_loop_poll. cbn [i_ctl set_idequeue ide_set_lock]. rewrite Hp.
  rewrite (proj2 (Z.eqb_neq _ _) Hr). cbn [andb negb].
  eexists. split; [reflexivity|]. unfold dbufat. cbn -[Z.lor Z.land].
  rewrite !alter_alter, !total_alter_eq by done. split_and!; [apply served_valid|done..].
Qed.
End ReadError.

(** *** A device *)

(** A device of two disks that is busy for one status read after each command. *)
Module Disk.

Record dev := mkDev {
  dv_phase : phase;
  dv_reg : Z -> Z;
  dv_sector : Z -> Z -> list Z;
  dv_busy : bool;
}.

#[global] Instance dev_view : AtaView dev := {
  a_phase := dv_phase;
  a_reg := dv_reg;
  a_sector := dv_sector;
}.

Definition dv_ready (d : dev) : bool :=
  match dv_phase d with Idle | DataReady _ _ => negb (dv_busy d) | _ => false end.

Definition dev_in (p : Z) (d : dev) : Z * dev :=
  (if dv_ready d then IDE_DRDY else IDE_BSY, mkDev (dv_phase d) (dv_reg d) (dv_sector d) false).

Definition dev_out (p v : Z) (d : dev) : dev :=
  if p =? 0x1f7 then
    mkDev (if v =? IDE_CMD_READ then Reading (unit_of d) (lba_of d) else AwaitData (unit_of d) (lba_of d))
      (dv_reg d) (dv_sector d) true
  else mkDev (dv_phase d) (fun q => if decide (q = p) then v else dv_reg d q) (dv_sector d) (dv_busy d).

Definition dev_outs (p : Z) (bs : list Z) (d : dev) : dev :=
  match dv_phase d with
  | AwaitData u l => mkDev (Writing u l bs) (dv_reg d) (dv_sector d) true
  | _ => d
  end.

Definition dev_ins (p n : Z) (d : dev) : list Z * dev :=
  match dv_phase d with
  | DataReady u l => (dv_sector d u l, mkDev Idle (dv_reg d) (dv_sector d) false)
  | _ => ([], d)
  end.

Definition dev_irq (d : dev) : dev :=
  match dv_phase d with
  | Reading u l => mkDev (DataReady u l) (dv_reg d) (dv_sector d) true
  | Writing u l bs =>
      mkDev Idle (dv_reg d) (fun u' l' => if decide (u' = u /\ l' = l) then bs else dv_sector d u' l') true
  | _ => d
  end.

End Disk.

#[export] Instance dev_ata : Ata Disk.dev := {
  a_in := Disk.dev_in;
  a_out := Disk.dev_out;
  a_outs := Disk.dev_outs;
  a_ins := Disk.dev_ins;
  a_irq := Disk.dev_irq;
}.

#[export] Instance dev_laws : AtaLaws Disk.dev 2.
Proof.
  split.
  - intros [ph rg sc bz] [H|(u & l & H)]; cbn in H; subst ph; destruct bz; cbn; by eexists _, _.
  - intros [ph rg sc bz]. by split.
  - intros [ph rg sc bz] p v H Hp Hv. cbn in *. subst ph. unfold Disk.dev_out.
    rewrite (proj2 (Z.eqb_neq p 0x1f7)); [done|]. intros ->. unfold task_ports in Hp. set_solver.
  - intros [ph rg sc bz] H Hr. done.
  - intros [ph rg sc bz] H Hr. done.
  - intros [ph rg sc bz] u l d H Hd. cbn in H. by subst ph.
  - intros [ph rg sc bz] H. cbn in H. by subst ph.
  - intros [ph rg sc bz] u l H. cbn in H. by subst ph.
  - intros [ph rg sc bz] u l d H. cbn in H. by subst ph.
  - intros [ph rg sc bz] u l H. cbn in H. by subst ph.
Qed.

Definition demo_dev : Disk.dev := Disk.mkDev Idle (fun _ => 0) (fun u l => replicate 512 l) true.
Definition demo_bufs : list dbuf := replicate 3 (mkDbuf 0 0 0 false None []).

(** A read and a write are queued, both complete, and the written block is read back. *)
Definition demo_events : list ievent :=
  [Request 0 0 1 7 (replicate 512 0); Request 1 B_DIRTY 0 9 (replicate 512 5); Interrupt; Interrupt;
   Request 2 0 0 9 (replicate 512 0); Continue 1; Interrupt; Continue 0; Continue 0].

Lemma demo_events_ok : Forall (ievent_ok 3 true) demo_events.
Proof.
  repeat apply Forall_cons_2; try apply Forall_nil_2; cbn; try done;
    (split; [lia|]); (split; cbn; [done|tauto|unfold FSSIZE; lia|reflexivity]).
Qed.

Lemma ide_refines_queue_witness : exists s1,
  ideinit 2 (boot demo_bufs demo_dev) = Ret tt s1 /\
  exists s, irun 2 demo_events (mkIsys s1 []) = Ret tt s /\
    is_done s = [(1%nat, replicate 512 5); (0%nat, replicate 512 7); (2%nat, replicate 512 5)].
Proof.
  destruct (ide_refines_queue 2 demo_bufs demo_dev) as (s1 & E & H); [reflexivity|]. exists s1. split; [done|].
  assert (havedisk1 s1 = true) as Hd by (vm_compute in E; by injection E as <-).
  destruct (H demo_events) as (s & Es & Hdone & _).
  - rewrite Hd. apply demo_events_ok.
  - exists s. split; [done|]. rewrite Hdone. reflexivity.
Defined.

Lemma ide_progress_witness : exists s1 s s', ideinit 2 (boot demo_bufs demo_dev) = Ret tt s1 /\
  irun 2 (take 3 demo_events) (mkIsys s1 []) = Ret tt s /\
  irun 2 [Interrupt; Continue 0; Continue 0] s = Ret tt s' /\
  i_sleep (is_ide s') = [] /\ (is_done s').*1 = [0; 1]%nat.
Proof.
  destruct (ideinit 2 (boot demo_bufs demo_dev)) as [[] s1| | |] eqn:E1; try (vm_compute in E1; discriminate).
  assert (havedisk1 s1 = true) as Hd by (vm_compute in E1; by injection E1 as <-).
  destruct (irun 2 (take 3 demo_events) (mkIsys s1 [])) as [[] s| | |] eqn:E;
    try (vm_compute in E1; injection E1 as <-; vm_compute in E; discriminate).
  destruct (ide_progress 2 demo_bufs demo_dev s1 (take 3 demo_events) s) as (s' & E' & H1 & H2); [done|done| |done|].
  { rewrite Hd. apply Forall_take, demo_events_ok. }
  assert (i_sleep (is_ide s) = [(0, true); (1, false)]%nat /\ is_done s = []) as [Hs Hn].
  { vm_compute in E1. injection E1 as <-. vm_compute in E. by injection E as <-. }
  rewrite Hs, Hn in *. by exists s1, s, s'.
Defined.

(** A device whose disk 0 cannot be read. *)
Definition bad_ata : Ata Disk.dev := {|
  a_in p d := (Z.lor IDE_DRDY IDE_ERR, d);
  a_out := Disk.dev_out; a_outs := Disk.dev_outs; a_ins := Disk.dev_ins; a_irq := Disk.dev_irq |}.

Lemma ide_read_error_witness : exists s',
  @ideintr _ bad_ata 1 (mkIde false (Some 0%nat) true [mkDbuf 0 0 9 true None [1; 2; 3]]
                   (Disk.mkDev (DataReady 0 9) (fun _ => 0) (fun u l => replicate 512 l) false) [(0%nat, false)])
  = Ret tt s' /\ d_data (dbufat s' 0) = [1; 2; 3] /\ i_sleep s' = [(0%nat, true)].
Proof.
  destruct (@ide_read_error _ bad_ata 1 (mkIde false (Some 0%nat) true [mkDbuf 0 0 9 true None [1; 2; 3]]
    (Disk.mkDev (DataReady 0 9) (fun _ => 0) (fun u l => replicate 512 l) false) [(0%nat, false)])
    0 (Z.lor IDE_DRDY IDE_ERR)
    (Disk.mkDev (DataReady 0 9) (fun _ => 0) (fun u l => replicate 512 l) false))
    as (s' & E & _ & Hd & Hs); [done|done|cbn; lia|done..|].
  by exists s'.
Defined.
