(* ===== verification/IdeMem.v ===== *)
(** memide.c and ide.c are the same disk for the buffer cache. *)

From S2P Require Export IdeRefine.
From S2P Require Import Txn.

Open Scope Z_scope.

(** A buffer of bio.c as the drivers see it, and the blocks of memide.c as sectors of disk 1. *)
Definition dbuf_of (x : buf) : dbuf :=
  mkDbuf (b_flags x) (b_dev x) (b_blockno x) (negb (sl_locked (b_lock x) =? 0)) None (b_data x).

Definition mem_sector (s : fsys) (u l : Z) : list Z := dblock s l.

Lemma flag_order f : Z.lor (Z.land f (Z.lnot B_DIRTY)) B_VALID = Z.land (Z.lor f B_VALID) (Z.lnot B_DIRTY).
Proof. by rewrite Z.land_lor_distr_l. Qed.

(** A clean request keeps its flags without B_DIRTY. *)
Lemma flag_clean f : Z.land f B_DIRTY = 0 -> Z.lor f B_VALID = Z.land (Z.lor f B_VALID) (Z.lnot B_DIRTY).
Proof.
  intros Hf. apply Z.bits_inj'. intros n Hn. apply (f_equal (fun z => Z.testbit z n)) in Hf. revert Hf.
  rewrite !Z.land_spec, !Z.lor_spec, Z.lnot_spec, Z.bits_0 by lia.
  change B_VALID with (2 ^ 1). change B_DIRTY with (2 ^ 2). rewrite !Z.pow2_bits_eqb by lia.
  destruct (Z.eqb_spec 1 n), (Z.eqb_spec 2 n); subst; try lia; by destruct (Z.testbit f _).
Qed.

(** A call of iderw() of memide.c does to the buffer and to the blocks of the disk what the
    queue of the IDE driver does when it serves the same request. *)
Theorem memide_serves (s : fsys) b :
  (b < length (bufs s))%nat -> sl_lk (b_lock (bufat s b)) = false ->
  sl_locked (b_lock (bufat s b)) <> 0 -> b_dev (bufat s b) = 1 ->
  0 <= b_blockno (bufat s b) < disksize s ->
  Z.land (b_flags (bufat s b)) (Z.lor B_VALID B_DIRTY) <> B_VALID ->
  exists s', Bio.iderw b s = Ret tt s' /\
    dbuf_of (bufat s' b) = serve_buf (mem_sector s) (dbuf_of (bufat s b)) /\
    (forall b', b' <> b -> bufat s' b' = bufat s b') /\
    forall l, 0 <= l < disksize s ->
      mem_sector s' 1 l = serve_disk (mem_sector s) (dbuf_of (bufat s b)) 1 l.
Proof.
  intros Hlt Hlk Hl Hdev Hno Hfl.
  enough (wp (Bio.iderw b) (fun _ s' =>
    dbuf_of (bufat s' b) = serve_buf (mem_sector s) (dbuf_of (bufat s b)) /\
    (forall b', b' <> b -> bufat s' b' = bufat s b') /\
    forall l, 0 <= l < disksize s ->
      mem_sector s' 1 l = serve_disk (mem_sector s) (dbuf_of (bufat s b)) 1 l) s) as H.
  { apply wp_run in H as ([] & s' & H). by exists s'. }
  unfold Bio.iderw. apply wp_bind, wp_buf_holding; [done..|].
  rewrite (proj2 (Z.eqb_neq _ 0) Hl). apply wp_bind, wp_gets.
  rewrite (proj2 (Z.eqb_neq _ _) Hfl), Hdev. cbn [Z.eqb negb Pos.eqb]. apply wp_bind, wp_gets.
  rewrite (proj2 (Z.leb_gt _ _)) by lia.
  unfold serve_buf, serve_disk, dirty_req, dbuf_of. cbn [d_flags d_dev d_blockno d_locked d_data].
  rewrite Hdev.
  destruct (Z.eqb_spec (Z.land (b_flags (bufat s b)) B_DIRTY) 0) as [Ed|Ed]; cbn [negb andb].
  - unfold wp, bind, modify. rewrite upd_buf_upd_buf, bufat_upd_eq by done. split_and!.
    + cbn [b_set_flags b_set_data b_flags b_dev b_blockno b_lock b_data]. by rewrite Hdev, <-flag_clean.
    + intros b' Hb'. by rewrite bufat_upd_ne.
    + done.
  - unfold wp, bind, modify. rewrite set_disk_upd_buf, upd_buf_upd_buf, bufat_upd_eq by done. split_and!.
    + change (bufat (set_disk _ _ s) b) with (bufat s b).
      cbn [b_set_flags b_set_data b_flags b_dev b_blockno b_lock b_data]. by rewrite Hdev, <-flag_order.
    + intros b' Hb'. by rewrite bufat_upd_ne.
    + intros l Hl'. unfold mem_sector, dblock. cbn [memdisk upd_buf set_disk].
      destruct (decide (l = b_blockno (bufat s b))) as [->|Hne].
      * rewrite bool_decide_true by done. apply list_lookup_total_insert_eq. unfold disksize in Hno.
        cbn [memdisk upd_buf]. change (memdisk (upd_buf _ _ s)) with (memdisk s). lia.
      * rewrite bool_decide_false by naive_solver. apply list_lookup_total_insert_ne.
        intros E. apply Hne. lia.
Qed.

Lemma memide_serves_witness : exists s',
  Bio.iderw 3 (upd_buf 3 (fun y => mkBuf 4 1 15 (mkSleeplock 1 false 1) 1 (b_prev y) (b_next y) [7; 8]) demo_start)
  = Ret tt s' /\ mem_sector s' 1 15 = [7; 8].
Proof.
  set (s := upd_buf _ _ _).
  assert (H : bufat s 3 = mkBuf 4 1 15 (mkSleeplock 1 false 1) 1 0 0 [7; 8]) by reflexivity.
  destruct (memide_serves s 3) as (s' & E & _ & _ & Hs); rewrite ?H; try done.
  - vm_compute. lia.
  - exists s'. split; [done|]. apply (Hs 15). done.
Defined.
